(* ===== verification/_CoqProject ===== *)
-Q . S2P
Prelude.v
GoStrings.v
GoText.v
GoUtf8.v
GoNum.v
GoTime.v
GoJson.v
GoNetip.v
Domain.v
StoreReads.v
Staleness.v
AlertEngine.v
Sql.v
SqlText.v
Interleave.v
AlertState.v
Channels.v
Notify.v
Banhammer.v
Network.v
Limiter.v
Challenges.v
Validation.v
Secrets.v
Relational.v
Schema.v
Servers.v
Keys.v
Reports.v
PveReports.v
PbsReports.v
WindowsReports.v
Batches.v
Settings.v
Removal.v
Retention.v
Api.v
Isolation.v
GoUrl.v
SelfUpdate.v
Users.v
Totp.v
Session.v
Frames.v
Login.v
Middleware.v
UserAdmin.v
Access.v
Signin.v
Admission.v
Admins.v
GoAny.v
ClientSchedule.v
ClientSync.v
GoRegexp.v
BackupLog.v
ClientPve.v
ClientPbs.v
ClientReport.v
Delivery.v
SyncServer.v
Fleet.v
