(* ===== verification/Prelude.v ===== *)
(** * Probakgo: reports of backups, from the nodes to the administrators

    Probakgo is a server that collects backup reports from Proxmox VE (PVE),
    Proxmox Backup Server (PBS) and Windows hosts, derives alerts from them,
    remembers which alerts are present, and notifies the administrators once per
    alert over email, Web Push and Telegram; and a client that runs on the Proxmox
    nodes, makes the reports and sends them.  This library models the Go code under
    [src/internal] and [src/client] that decides what is reported, stored, alerted
    and told, and who may do what.

    ** Parts, and how they interact

<<
    client on a node: schedules, logs, reports   (ClientSchedule.v, BackupLog.v,
          |                                        ClientPve.v, ClientPbs.v)
          | requests, retried until answered      (ClientSync.v, ClientReport.v)
          v
    server API: key, binding, validation          (Api.v, Keys.v, Validation.v)
          |                                         composed in SyncServer.v, Delivery.v
          v
    store: servers, reports, settings             (Relational.v, Schema.v, Servers.v,
          |                                         *Reports.v, Batches.v, Settings.v,
          |                                         Removal.v, Retention.v)
          | ReadStore                             (StoreReads.v; Fleet.v is the instance)
          v
    staleness judgement -> eighteen evaluators    (Staleness.v, AlertEngine.v)
          | alerts
          v
    alert states, events, deliveries              (AlertState.v over Sql.v)
          | what is new, what is owed
          v
    one run: select, deliver, mark -> SMTP / push / Telegram
                                                  (Notify.v, Channels.v)

    web console: login, second factor, sessions, accounts
                 (Login.v, Middleware.v, UserAdmin.v over Users.v, Session.v, Totp.v,
                  Challenges.v, Banhammer.v, Limiter.v)
>>

    *** Foundations

    - [Prelude.v] — errors as trees, results, [for range] over a map in any order
      ([MapRange]), lists.
    - [GoStrings.v], [GoText.v], [GoUtf8.v], [GoNum.v], [GoTime.v], [GoJson.v],
      [GoAny.v], [GoRegexp.v], [GoNetip.v], [GoUrl.v] — what the source uses of the
      standard library: strings as bytes, UTF-8, [int64] with wrap-around and
      [float64] as binary64 of [SpecFloat], instants and the civil calendar in a
      [Location], decoded JSON, regular expressions by backtracking, IP addresses,
      the escaping and parsing of URLs.
    - [Sql.v], [SqlText.v] — programs of SQL statements and transactions, and
      [exec], which runs one against a list of driver faults; the rules [always],
      [preserves] and [along] reason about every such list; the text functions of
      SQLite.
    - [Interleave.v], [Frames.v] — programs that take turns, a statement or a
      transaction at a time: rely and guarantee ([guar]), frames ([steps]) and races
      for a token ([contest]).
    - [Relational.v], [Schema.v] — tables with [AUTOINCREMENT], unique indexes and
      foreign keys with [ON DELETE]; the schema after the last migration.
    - [Secrets.v] — [internal/secretbox]: values sealed under a master key.
    - [Domain.v], [Validation.v] — [internal/domain]: the records of [models.go],
      the schedule, formatting, retained copies; the payloads of [api.go] and their
      [Validate] methods.

    *** The server

    - [Servers.v], [Keys.v], [Reports.v], [PveReports.v], [PbsReports.v],
      [WindowsReports.v], [Batches.v], [Settings.v], [Removal.v], [Retention.v] —
      [internal/store]: one program per method that writes, one function per query,
      over the database of [Schema.v]; [service/auth.go] and [service/cleanup.go].
    - [Api.v], [Isolation.v] — [internal/api]: the key of a request, its binding to a
      server, every handler with its answers; what a request can change.
    - [StoreReads.v], [Staleness.v], [AlertEngine.v] — the evaluation of alerts:
      [service/report.go] and [service/alertengine.go] against the class
      [ReadStore], one definition per [eval...] function, [RunAll].
    - [AlertState.v], [Channels.v], [Notify.v] — [store/alert_state.go] with
      [suppressions.go], [maintenance.go], [email_batch.go] and [telegram.go];
      [pushsender.go], [telegramsender.go]; [immediate_notifications.go].
    - [Fleet.v] — the [ReadStore] that the database answers: the composition of
      reports, evaluation and notification.
    - [Network.v] — [internal/netutil]: whose address a request counts for behind
      trusted proxies, which hosts look public, where push messages may connect to.
    - [SelfUpdate.v] — [internal/selfupdate]: the replacement of the executable, of
      server and client, as a program on a disk and a network that may fail.
    - [Banhammer.v], [Limiter.v], [Challenges.v], [Users.v], [Totp.v], [Session.v],
      [Login.v], [Middleware.v], [UserAdmin.v] — the console: bans, limits, pending
      second factors, accounts, codes, cookies, and the handlers of
      [internal/web/handlers] that sign in and manage accounts; [Access.v],
      [Signin.v], [Admission.v], [Admins.v] hold what they guarantee together.

    *** The client

    - [ClientSchedule.v], [ClientSync.v] — [client/backup_config.go]: the guests and
      jobs of the node, the days chosen for each guest, and the requests that bring
      them to a server known by the class [ScheduleServer]; [SyncServer.v] serves
      them with the handlers of [Api.v], and is an instance.
    - [BackupLog.v], [ClientPve.v], [ClientPbs.v] — [client/pve.go] and [pbs.go]: the
      parser of task logs, the tasks of the last job, the storages and files, the
      maintenance tasks, and the reports made of them.
    - [ClientReport.v] — [client/sender.go], [heartbeat.go], [sysinfo.go] and the
      retry of [main.go], against the class [ReportServer]; [Delivery.v] shows that
      the report handler with its database is one.

    ** What the theorems show

    - Notifications ([Notify.v]): an alert that needs attention is mailed by the
      first run that finds it and may send, or the run reports what kept it from
      that ([critical_alert_mailed]); under every failure, no alert that is marked
      is mailed again ([no_resend]) and the marks are accounted for by messages
      ([no_mark_without_mail]).
    - Alert states ([AlertState.v]): the whole effect of a synchronisation
      ([syncAlertStates_spec]), its atomicity, the invariant of the ledger under
      every operation and failure, the pairing of Telegram chats, the changes of
      accounts and the reset of all data among them ([ledger_invariant]), resolution notices
      ([resolution_email_owed]).
    - Evaluation ([AlertEngine.v], [Staleness.v]): the alerts of a run are well formed
      ([RunAll_well_formed]); declarative readings of the evaluators with the most
      intricate conditions ([backup_error_alerts], [missing_and_unknown_VMs]);
      staleness against the schedule
      ([IsStaleForLoadedPVEConfig_spec]).
    - Storage: saving a report is one atomic step of its abstract specification
      ([InsertPVEReportData_refines]), repeated reports are stored once
      ([report_stored_exactly_once]), removal takes what it names, with its maintenance
      windows and suppressions, and nothing else ([HardDeleteServerDataForAPIKey_spec]), batched queries agree with single ones
      ([Batches.v]), settings are read back ([alert_config_roundtrip]).
    - The API: which keys are accepted ([ValidateServerKey_spec]), what a report must
      satisfy ([Validate_accepts]), one machine and one server per key under every
      interleaving ([one_machine_one_server]), accepted reports are stored
      ([report_accepted_is_stored]) and nothing of other keys changes
      ([other_keys_untouched]).
    - The console: a session needs the password ([session_needs_password]) and an
      unused code ([session_needs_code], [code_used_once]); it ends for good with a
      logout or a change of the account ([closed_session_turned_away],
      [change_closes_sessions]); pages of administrators are for them only
      ([only_admins_admitted]); bans escalate, and nothing is
      counted while one runs ([escalation]).
    - Network and update: no client chooses the address that it is banned by
      ([direct_client_not_spoofed], [proxied_client_not_spoofed]); push messages go
      to public addresses only ([push_dials_public_only]); an update installs only
      what is newer, listed and attested, or nothing ([update_verified]), gives the
      token to nobody else ([update_token_kept]) and reads versions as numbers
      ([tags_ordered]).
    - The client: loops end ([day_range_terminates], [task_log_read_whole],
      [parseBackupLog_total]); no weekend day of a job is lost
      ([weekend_never_lost]); the last failure of a guest in a log is
      reported with its own reason ([last_failure_reported]), the line of success is
      read back ([finished_line_read]); client and server call the guests of a job
      equally bad, and only the client tells an error of the job itself
      ([job_status_agrees]).
    - Client and server: a synchronisation follows its plan whatever gets lost, for
      any server with the laws of [ScheduleServer] ([sync_follows_plan],
      [overwrite_exact], [schedules_kept]) and for the handlers of [Api.v] on a
      database without schedules that name their server but do not number it
      ([served_sync_follows_plan], [served_overwrite_exact]); with such a schedule it
      does not ([legacy_update_lost]).
    - The parts together: a pending report is stored at most once, and the node
      forgets it only when it is stored ([backup_report_delivered]); a failed backup
      that is reported raises an alert ([reported_failure_raises_alert]).
    - Behaviour that the code does not mean to have is stated too:
      [last_admins_locked_out], [weekend_days_leak], [legacy_update_lost],
      [log_parser_panics], [snapshots_panic], [gc_of_sync_store],
      [second_header_line_unread], [windows_update_reports_early],
      [collision_silences_run], [failed_quit_mails_twice].

    ** Choices of the model

    - One [now] stands for the clock readings of a run of the notifications; each
      other operation takes its own.
    - The connection pool has one connection, so a statement or a transaction is one
      step and only its failure is left open: [exec] takes one fault or success per
      statement, begin and commit.  Requests run one after the other where a theorem
      says [always], and take turns where it is about [run_pool].  A column of type
      [DATETIME] is the instant it denotes; a text column in RFC 3339 keeps whole
      seconds.
    - A request over the network is a statement of the program that sends it: it can
      be lost before it reaches the server, and so can its answer.  A client sees its
      server through a class with the laws it needs: [Delivery.v] gives the instance
      of [ReportServer] for the report handler, and [SyncServer.v] that of
      [ScheduleServer] for the handlers of schedules, whose states are the databases
      in which every live schedule is numbered.
    - A push service or Telegram either fails and delivers nothing, or delivers.  An
      email is handed over first, and the end of the session may fail after that: then
      it is delivered and the run counts it as failed.  Bodies of emails are not rendered: a message holds the
      alerts it lists.
    - Loops over data are structural recursions.  Two loops of the client have no
      bound of their own and take fuel: the walk over a range of days needs seven
      turns, and the pages of a log one turn for every 500 lines and one more; the
      theorems on them say that this is enough.  The match of a regular expression is
      structural on the expression.  The search of the schedule looks back fourteen
      days, as the code does, and [IsStaleForLoadedPVEConfig_spec] shows that this is
      always enough.
    - A time zone is its first offset and its transitions; [%q] quotes ASCII; the
      case of letters is that of ASCII and of the few characters that fold into it,
      except in the parser of logs, where it is an argument.
    - Cryptographic primitives, the verification of attestations, the signing of
      cookies, bcrypt, the router and the random source are arguments with the laws
      that the code relies on.

    ** What is not modelled

    Pages, templates and MIME, and the handlers that only show data; the daily
    report; the decoding of request bodies, except of the messages that the client
    sends about schedules; the migrations, of which [Schema.v] is the result; the
    Windows client, which calls the Windows API; installation and the checks
    of [doctor], which call the operating system; NAS archives and the
    spreadsheet writer, which are input and output. *)
From Stdlib Require Export ZArith Lia.
From stdpp Require Export gmap strings pretty.

#[global] Open Scope Z_scope.

Declare Scope go_scope.
Delimit Scope go_scope with go.

(** ** Errors

    A Go error value is a tree: a message, a wrapped error ([fmt.Errorf] with
    [%w]), several joined errors ([errors.Join]), the service's
    [PartialAlertsError] or the [pushHTTPError] of the push sender. *)

#[warnings="-register-all"]
Inductive error : Type :=
| ErrMsg (msg : string)
| ErrWrap (msg : string) (inner : error)
| ErrJoin (errs : list error)
| ErrPartial (inner : error)
| ErrPushHTTP (status : Z).

(** A call that returns [(T, error)]. *)
Inductive result (A : Type) : Type :=
| Ok (a : A)
| Err (e : error).
Arguments Ok {A} a.
Arguments Err {A} e.

#[export] Instance result_ret : MRet result := λ A a, Ok a.
#[export] Instance result_bind : MBind result := λ A B f r,
  match r with Ok a => f a | Err e => Err e end.
#[export] Instance result_fmap : FMap result := λ A B f r,
  match r with Ok a => Ok (f a) | Err e => Err e end.

Definition is_ok {A} (r : result A) : bool :=
  match r with Ok _ => true | Err _ => false end.

Lemma result_bind_Ok {A B} (r : result A) (f : A → result B) b :
  (r ≫= f) = Ok b ↔ ∃ a, r = Ok a ∧ f a = Ok b.
Proof.
  destruct r as [a|e]; simpl; split.
  - eauto.
  - by intros (a' & [= <-] & ?).
  - done.
  - by intros (a' & ? & ?).
Qed.

Lemma exists_Some_eq {A} (x : A) (P : A → Prop) :
  (∃ y, Some x = Some y ∧ P y) ↔ P x.
Proof. naive_solver. Qed.

(** ** Iteration over a Go map

    [for k, v := range m] visits the entries in an order the language leaves
    open.  A [MapRange] is one such choice of order; theorems that hold for
    every [MapRange] hold for every order. *)

Class MapRange := {
  range : ∀ {K} `{Countable K} {A : Type}, gmap K A → list (K * A);
  range_perm : ∀ {K} `{Countable K} {A : Type} (m : gmap K A),
    range m ≡ₚ map_to_list m
}.

#[export] Program Instance map_to_list_range : MapRange | 100 :=
  {| range := λ K _ _ A m, map_to_list m |}.
Solve Obligations with done.

Section map_range.
Context `{!MapRange} `{Countable K} {A : Type}.
Implicit Types m : gmap K A.

Lemma elem_of_range m k v : (k, v) ∈ range m ↔ m !! k = Some v.
Proof. rewrite range_perm. apply elem_of_map_to_list. Qed.

Lemma NoDup_range_fst m : NoDup (range m).*1.
Proof. rewrite range_perm. apply NoDup_fst_map_to_list. Qed.

Lemma length_range m : length (range m) = size m.
Proof. rewrite range_perm. apply length_map_to_list. Qed.
End map_range.

(** ** Lists

    A loop [for _, x := range xs { ...; out = append(out, ...) }] whose body
    appends the list [f x] is [flat_map f xs]; a body that appends at most one
    value is [omap f xs]. *)

Definition is_nil {A} (l : list A) : bool :=
  match l with [] => true | _ => false end.

Lemma elem_of_flat_map {A B} (f : A → list B) (l : list A) (y : B) :
  y ∈ flat_map f l ↔ ∃ x, x ∈ l ∧ y ∈ f x.
Proof.
  rewrite list_elem_of_In, in_flat_map.
  split; intros (x & Hx & Hy); exists x; by rewrite !list_elem_of_In in *.
Qed.

Lemma Forall_flat_map {A B} (P : B → Prop) (f : A → list B) (l : list A) :
  Forall P (flat_map f l) ↔ Forall (λ x, Forall P (f x)) l.
Proof.
  induction l as [|x l IH]; simpl; [by split; constructor|].
  by rewrite Forall_app, Forall_cons, IH.
Qed.

Lemma NoDup_flat_map_key {A B K} (f : A → list B) (key : B → K) (ka : A → K)
    (l : list A) :
  (∀ x y, x ∈ l → y ∈ f x → key y = ka x) →
  NoDup (ka <$> l) → (∀ x, x ∈ l → NoDup (f x)) → NoDup (flat_map f l).
Proof.
  induction l as [|x l IH]; intros Hkey Hnd Hf; simpl; [constructor|].
  apply NoDup_cons in Hnd as [Hx Hnd]. apply NoDup_app. split_and!.
  - apply Hf. by left.
  - intros y Hy Hy'. apply Hx. apply elem_of_flat_map in Hy' as (x' & Hx' & Hy').
    assert (ka x = ka x') as ->; [|apply list_elem_of_fmap; eauto].
    rewrite <-(Hkey x y), (Hkey x' y); [done|by right|done|by left|done].
  - apply IH; [|done|]; intros; [eapply Hkey|apply Hf]; [by right|done|by right].
Qed.

Lemma fold_left_app_step {A B} (f : B → A → B) (l1 l2 : list A) b :
  fold_left f (l1 ++ l2) b = fold_left f l2 (fold_left f l1 b).
Proof. revert b. induction l1; simpl; auto. Qed.

(** *** Boolean filters and tests *)

Lemma elem_of_filter_bool {A} (f : A → bool) (l : list A) x :
  x ∈ List.filter f l ↔ x ∈ l ∧ f x = true.
Proof. rewrite !list_elem_of_In. apply filter_In. Qed.

Lemma existsb_false_iff {A} (f : A → bool) (l : list A) :
  existsb f l = false ↔ ∀ x, x ∈ l → f x = false.
Proof.
  rewrite <-not_true_iff_false, existsb_exists. split.
  - intros Hn x Hx. apply not_true_iff_false. intros Hf. apply Hn.
    exists x. by rewrite <-list_elem_of_In.
  - intros Ha (x & Hx & Hf). apply list_elem_of_In, Ha in Hx. congruence.
Qed.

Lemma existsb_fmap {A B} (f : A → B) (P : B → bool) (l : list A) :
  existsb P (f <$> l) = existsb (λ x, P (f x)) l.
Proof. induction l as [|x l IH]; simpl; [done|]. by f_equal. Qed.

Lemma filter_bool_sublist {A} (f : A → bool) (l : list A) : List.filter f l `sublist_of` l.
Proof. induction l; simpl; [done|]. case_match; by constructor. Qed.

Lemma filter_bool_true {A} (f : A → bool) (l : list A) :
  (∀ x, f x = true) → List.filter f l = l.
Proof. intros Hf. induction l as [|x l IH]; simpl; [done|]. by rewrite Hf, IH. Qed.

Lemma filter_bool_none {A} (f : A → bool) (l : list A) :
  (∀ x, f x = false) → List.filter f l = [].
Proof. intros Hf. induction l as [|x l IH]; simpl; [done|]. by rewrite Hf. Qed.

Lemma filter_bool_empty {A} (f : A → bool) (l : list A) :
  (∀ x, x ∈ l → f x = false) → List.filter f l = [].
Proof.
  induction l as [|x l IH]; intros Hf; simpl; [done|].
  rewrite Hf by (by left). apply IH. intros y Hy. apply Hf. by right.
Qed.

Lemma filter_bool_all {A} (f : A → bool) (l : list A) :
  (∀ x, x ∈ l → f x = true) → List.filter f l = l.
Proof.
  induction l as [|x l IH]; intros Hf; simpl; [done|].
  rewrite Hf by (by left). f_equal. apply IH. intros y Hy. apply Hf. by right.
Qed.

Lemma filter_bool_app {A} (f : A → bool) (l k : list A) :
  List.filter f (l ++ k) = List.filter f l ++ List.filter f k.
Proof. induction l as [|x l IH]; simpl; [done|]. rewrite IH. by destruct (f x). Qed.

Lemma filter_bool_rev {A} (f : A → bool) (l : list A) :
  List.filter f (rev l) = rev (List.filter f l).
Proof.
  induction l as [|x l IH]; simpl; [done|]. rewrite filter_bool_app, IH. simpl.
  destruct (f x); simpl; [done|]. by rewrite app_nil_r.
Qed.

Lemma filter_bool_sublist_mono {A} (f : A → bool) (l k : list A) :
  l `sublist_of` k → List.filter f l `sublist_of` List.filter f k.
Proof.
  induction 1 as [|x l k _ IH|x l k _ IH]; simpl; [constructor| |];
    destruct (f x); by try constructor.
Qed.

Lemma length_filter_bool_split {A} (f : A → bool) (l : list A) :
  Z.of_nat (length (List.filter f l)) +
  Z.of_nat (length (List.filter (λ x, negb (f x)) l)) = Z.of_nat (length l).
Proof. induction l as [|x l IH]; simpl; [done|]. destruct (f x); simpl; lia. Qed.

Lemma NoDup_filter_bool {A} (f : A → bool) (l : list A) :
  NoDup l → NoDup (List.filter f l).
Proof. intros Hl. eapply sublist_NoDup; [exact Hl|apply filter_bool_sublist]. Qed.

Lemma sublist_fmap {A B} (f : A → B) (l k : list A) :
  l `sublist_of` k → f <$> l `sublist_of` f <$> k.
Proof. induction 1; simpl; by constructor. Qed.

(** ** Automation

    [split_if] splits on a boolean test of the goal or of a hypothesis,
    [bool_to_prop] turns the tests met into propositions, and [go] closes the
    routine goals that are left. *)

Create HintDb probak discriminated.
#[export] Hint Resolve list_elem_of_here list_elem_of_further : probak.

Ltac split_if :=
  match goal with
  | |- context [if ?b then _ else _] => destruct b eqn:?
  | H : context [if ?b then _ else _] |- _ => destruct b eqn:?
  end.

Ltac bool_to_prop :=
  repeat match goal with
  | H : (_ && _) = true |- _ => apply andb_true_iff in H as [? ?]
  | H : (_ || _) = false |- _ => apply orb_false_iff in H as [? ?]
  | H : negb _ = true |- _ => apply negb_true_iff in H
  | H : negb _ = false |- _ => apply negb_false_iff in H
  | H : (_ =? _) = true |- _ => apply Z.eqb_eq in H
  | H : (_ =? _) = false |- _ => apply Z.eqb_neq in H
  | H : (_ <? _) = true |- _ => apply Z.ltb_lt in H
  | H : (_ <? _) = false |- _ => apply Z.ltb_ge in H
  | H : (_ <=? _) = true |- _ => apply Z.leb_le in H
  | H : (_ <=? _) = false |- _ => apply Z.leb_gt in H
  | H : bool_decide _ = true |- _ => apply bool_decide_eq_true in H
  | H : bool_decide _ = false |- _ => apply bool_decide_eq_false in H
  end.

Ltac go := intros; repeat split_if; bool_to_prop; simplify_eq/=; try done; try lia.

(** ** Finite ranges of numbers *)

(** What a boolean test confirms for each of the numbers below [n]. *)
Lemma below_forall (P : Z → bool) (n : nat) :
  forallb (λ i, P (Z.of_nat i)) (seq 0 n) = true → ∀ v, 0 ≤ v < Z.of_nat n → P v = true.
Proof.
  rewrite forallb_forall. intros Hall v Hv. specialize (Hall (Z.to_nat v)).
  rewrite Z2Nat.id in Hall by lia. apply Hall, in_seq. lia.
Qed.
