(* ===== verification/GoStrings.v ===== *)
(** * The string functions of Go's standard library that the program uses

    A Go string is a byte string, here [string].  Functions that look at
    characters do so on the UTF-8 encoding: [TrimSpace] removes the code points
    with the Unicode White_Space property, [ToLower], [ToUpper] and [EqualFold]
    map the ASCII letters and the four non-ASCII code points whose image is an
    ASCII letter.  The images of the other non-ASCII letters are left
    unchanged: the program only compares the results with ASCII constants, which
    such an image never equals. *)
From Stdlib Require Import Ascii.
From Stdlib Require String.
From S2P Require Import Prelude.

(** ** Bytes *)

Definition byte (c : ascii) : Z := Z.of_N (N_of_ascii c).

Definition is_ascii_space (c : ascii) : bool :=
  match c with
  | "009" | "010" | "011" | "012" | "013" | " " => true
  | _ => false
  end%char.

(** U+0085 and U+00A0. *)
Definition is_space2 (a b : ascii) : bool :=
  (byte a =? 0xC2) && ((byte b =? 0x85) || (byte b =? 0xA0)).

(** U+1680, U+2000 to U+200A, U+2028, U+2029, U+202F, U+205F and U+3000. *)
Definition is_space3 (a b c : ascii) : bool :=
  ((byte a =? 0xE1) && (byte b =? 0x9A) && (byte c =? 0x80)) ||
  ((byte a =? 0xE2) && (byte b =? 0x80) &&
    (((0x80 <=? byte c) && (byte c <=? 0x8A)) ||
     (byte c =? 0xA8) || (byte c =? 0xA9) || (byte c =? 0xAF))) ||
  ((byte a =? 0xE2) && (byte b =? 0x81) && (byte c =? 0x9F)) ||
  ((byte a =? 0xE3) && (byte b =? 0x80) && (byte c =? 0x80)).

(** ** [strings.TrimSpace] *)

Fixpoint trim_left (s : string) : string :=
  match s with
  | EmptyString => EmptyString
  | String a s1 =>
      if is_ascii_space a then trim_left s1 else
      match s1 with
      | EmptyString => s
      | String b s2 =>
          if is_space2 a b then trim_left s2 else
          match s2 with
          | EmptyString => s
          | String c s3 => if is_space3 a b c then trim_left s3 else s
          end
      end
  end.

(** [trim_left] on the reversed string: a code point is met last byte first. *)
Fixpoint trim_left_rev (s : string) : string :=
  match s with
  | EmptyString => EmptyString
  | String a s1 =>
      if is_ascii_space a then trim_left_rev s1 else
      match s1 with
      | EmptyString => s
      | String b s2 =>
          if is_space2 b a then trim_left_rev s2 else
          match s2 with
          | EmptyString => s
          | String c s3 => if is_space3 c b a then trim_left_rev s3 else s
          end
      end
  end.

Definition trim_right (s : string) : string :=
  String.rev (trim_left_rev (String.rev s)).

Definition TrimSpace (s : string) : string := trim_right (trim_left s).

(** ** [strings.Fields] *)
Fixpoint fields_from (word s : string) : list string :=
  let flush l := if bool_decide (word = EmptyString) then l else word :: l in
  match s with
  | EmptyString => flush []
  | String a s1 =>
      let go_on := fields_from (word +:+ String a EmptyString) s1 in
      if is_ascii_space a then flush (fields_from EmptyString s1) else
      match s1 with
      | EmptyString => go_on
      | String b s2 =>
          if is_space2 a b then flush (fields_from EmptyString s2) else
          match s2 with
          | EmptyString => go_on
          | String c s3 => if is_space3 a b c then flush (fields_from EmptyString s3) else go_on
          end
      end
  end.

Definition Fields (s : string) : list string := fields_from EmptyString s.

(** ** Case mapping *)

Definition lower_ascii (c : ascii) : ascii :=
  if (65 <=? byte c) && (byte c <=? 90)
  then ascii_of_N (Z.to_N (byte c + 32)) else c.

Definition upper_ascii (c : ascii) : ascii :=
  if (97 <=? byte c) && (byte c <=? 122)
  then ascii_of_N (Z.to_N (byte c - 32)) else c.

(** U+0130 (capital I with dot) maps to [i], U+212A (Kelvin sign) to [k]. *)
Fixpoint ToLower (s : string) : string :=
  match s with
  | EmptyString => EmptyString
  | String a s1 =>
      match s1 with
      | String b s2 =>
          if (byte a =? 0xC4) && (byte b =? 0xB0) then String "i"%char (ToLower s2) else
          match s2 with
          | String c s3 =>
              if (byte a =? 0xE2) && (byte b =? 0x84) && (byte c =? 0xAA)
              then String "k"%char (ToLower s3) else String (lower_ascii a) (ToLower s1)
          | EmptyString => String (lower_ascii a) (ToLower s1)
          end
      | EmptyString => String (lower_ascii a) EmptyString
      end
  end.

(** U+0131 (dotless i) maps to [I], U+017F (long s) to [S]. *)
Fixpoint ToUpper (s : string) : string :=
  match s with
  | EmptyString => EmptyString
  | String a s1 =>
      match s1 with
      | String b s2 =>
          if (byte a =? 0xC4) && (byte b =? 0xB1) then String "I"%char (ToUpper s2) else
          if (byte a =? 0xC5) && (byte b =? 0xBF) then String "S"%char (ToUpper s2) else
          String (upper_ascii a) (ToUpper s1)
      | EmptyString => String (upper_ascii a) EmptyString
      end
  end.

(** The representative of the simple-folding orbit of each character. *)
Fixpoint fold_case (s : string) : string :=
  match s with
  | EmptyString => EmptyString
  | String a s1 =>
      match s1 with
      | String b s2 =>
          if (byte a =? 0xC5) && (byte b =? 0xBF) then String "s"%char (fold_case s2) else
          match s2 with
          | String c s3 =>
              if (byte a =? 0xE2) && (byte b =? 0x84) && (byte c =? 0xAA)
              then String "k"%char (fold_case s3) else String (lower_ascii a) (fold_case s1)
          | EmptyString => String (lower_ascii a) (fold_case s1)
          end
      | EmptyString => String (lower_ascii a) EmptyString
      end
  end.

(** [strings.EqualFold s t], for an ASCII [t]. *)
Definition EqualFold (s t : string) : bool :=
  bool_decide (fold_case s = fold_case t).

(** ** Searching and splitting *)

Definition str_empty (s : string) : bool := bool_decide (s = "").

Definition str_len (s : string) : Z := Z.of_nat (String.length s).

Fixpoint HasPrefix (s prefix : string) : bool :=
  match prefix, s with
  | EmptyString, _ => true
  | String p prefix', String c s' => bool_decide (c = p) && HasPrefix s' prefix'
  | String _ _, EmptyString => false
  end.

Fixpoint Contains (s sub : string) : bool :=
  HasPrefix s sub ||
  match s with EmptyString => false | String _ s' => Contains s' sub end.

(** The part of [s] before its first [c]; all of [s] when there is none. *)
Fixpoint before (c : ascii) (s : string) : string :=
  match s with
  | EmptyString => EmptyString
  | String a s' => if decide (a = c) then EmptyString else String a (before c s')
  end.

Fixpoint has_byte (c : ascii) (s : string) : bool :=
  match s with
  | EmptyString => false
  | String a s' => bool_decide (a = c) || has_byte c s'
  end.

(** [strings.NewReplacer(":", "_", "/", "_", " ", "_").Replace]. *)
Fixpoint map_bytes (f : ascii → ascii) (s : string) : string :=
  match s with
  | EmptyString => EmptyString
  | String a s' => String (f a) (map_bytes f s')
  end.

(** ** Numbers: [%d], [strconv.FormatInt(_, 10)], [strconv.ParseInt(_, 10, 64)] *)

Definition Itoa (n : Z) : string := pretty n.

Definition digit (c : ascii) : option Z :=
  if (48 <=? byte c) && (byte c <=? 57) then Some (byte c - 48) else None.

Fixpoint parse_digits (acc : Z) (s : string) : option Z :=
  match s with
  | EmptyString => Some acc
  | String c s' =>
      match digit c with
      | Some d => parse_digits (10 * acc + d) s'
      | None => None
      end
  end.

Definition parse_unsigned (s : string) : option Z :=
  match s with EmptyString => None | _ => parse_digits 0 s end.

(** The value, and whether it parsed: a value out of range is clamped. *)
Definition ParseInt (s : string) : Z * bool :=
  let signed (neg : bool) (t : string) : Z * bool :=
    match parse_unsigned t with
    | None => (0, false)
    | Some n =>
        if neg then if 2^63 <? n then (- 2^63, false) else (- n, true)
        else if 2^63 <=? n then (2^63 - 1, false) else (n, true)
    end in
  match s with
  | String "+"%char t => signed false t
  | String "-"%char t => signed true t
  | _ => signed false s
  end.

(** ** [%q] on strings: the escapes of the ASCII bytes; other bytes are kept *)

Definition hex_digit (n : Z) : ascii :=
  if n <? 10 then ascii_of_N (Z.to_N (n + 48)) else ascii_of_N (Z.to_N (n + 87)).

Definition dquote : ascii := ascii_of_N 34.

Definition quote_byte (c : ascii) : string :=
  if bool_decide (c = dquote) then String "\"%char (String dquote "")
  else if bool_decide (c = "\"%char) then "\\"
  else if byte c =? 7 then "\a" else if byte c =? 8 then "\b"
  else if byte c =? 9 then "\t" else if byte c =? 10 then "\n"
  else if byte c =? 11 then "\v" else if byte c =? 12 then "\f"
  else if byte c =? 13 then "\r"
  else if (byte c <? 32) || (byte c =? 127) then
    "\x" +:+ String (hex_digit (byte c / 16)) (String (hex_digit (byte c mod 16)) "")
  else String c "".

Fixpoint quote_bytes (s : string) : string :=
  match s with
  | EmptyString => EmptyString
  | String c s' => quote_byte c +:+ quote_bytes s'
  end.

Definition Quote (s : string) : string :=
  String dquote (quote_bytes s +:+ String dquote "").

(** ** Lemmas *)

Lemma app_nil_l_str s : "" +:+ s = s.
Proof. done. Qed.

Lemma app_cons_str c s t : String c s +:+ t = String c (s +:+ t).
Proof. done. Qed.

Lemma app_assoc_str s t u : (s +:+ t) +:+ u = s +:+ (t +:+ u).
Proof.
  induction s as [|c s IH]; [done|]. by rewrite !app_cons_str, IH.
Qed.

Lemma app_nil_r_str s : s +:+ "" = s.
Proof. induction s as [|c s IH]; [done|]. by rewrite app_cons_str, IH. Qed.

Lemma str_length_app s t : String.length (s +:+ t) = (String.length s + String.length t)%nat.
Proof. induction s as [|a s IH]; [done|]. simpl. by rewrite IH. Qed.

Lemma before_app c s t :
  has_byte c s = false → before c (s +:+ String c t) = s.
Proof.
  induction s as [|a s IH]; intros Hs.
  - rewrite app_nil_l_str. simpl. by rewrite decide_True.
  - rewrite app_cons_str. simpl in *.
    destruct (decide (a = c)) as [->|]; [by rewrite bool_decide_true in Hs|].
    rewrite bool_decide_false in Hs by done. by rewrite IH.
Qed.

Lemma before_none c s : has_byte c s = false → before c s = s.
Proof.
  induction s as [|a s IH]; simpl; intros Hs; [done|].
  destruct (decide (a = c)) as [->|]; [by rewrite bool_decide_true in Hs|].
  rewrite bool_decide_false in Hs by done. by rewrite IH.
Qed.

Lemma has_byte_app c s t : has_byte c (s +:+ t) = has_byte c s || has_byte c t.
Proof.
  induction s as [|a s IH]; [done|]. rewrite app_cons_str; simpl.
  by rewrite IH, orb_assoc.
Qed.

(** Cutting two strings at the first separator. *)
Lemma app_sep_inj c s1 s2 t1 t2 :
  has_byte c s1 = false → has_byte c s2 = false →
  s1 +:+ String c t1 = s2 +:+ String c t2 → s1 = s2 ∧ t1 = t2.
Proof.
  intros H1 H2 Heq. assert (s1 = s2) as <-.
  { by rewrite <-(before_app c s1 t1), <-(before_app c s2 t2), Heq. }
  apply (inj (String.app s1)) in Heq. by simplify_eq.
Qed.

Lemma HasPrefix_app p s : HasPrefix (p +:+ s) p = true.
Proof.
  induction p as [|c p IH]; [by destruct s|]. rewrite app_cons_str; simpl.
  by rewrite bool_decide_true, IH.
Qed.

Section decimal.
Local Open Scope N_scope.

Lemma pretty_N_char_no c n : digit c = None → pretty_N_char n ≠ c.
Proof.
  intros Hc <-. revert Hc. unfold pretty_N_char.
  repeat case_match; vm_compute; done.
Qed.

Lemma has_byte_pretty_N_go c (x : N) s :
  digit c = None → has_byte c (pretty_N_go x s) = has_byte c s.
Proof.
  intros Hc. revert s.
  induction (N.lt_wf_0 x) as [x _ IH]; intros s.
  destruct (decide (x = 0)) as [->|]; [by rewrite pretty_N_go_0|].
  rewrite pretty_N_go_step by lia.
  rewrite IH by (apply N.div_lt; lia). simpl.
  by rewrite bool_decide_false by (by apply pretty_N_char_no).
Qed.

Lemma has_byte_pretty_N c (x : N) : digit c = None → has_byte c (pretty x) = false.
Proof.
  intros Hc. unfold pretty, pretty_N. case_decide.
  - simpl. rewrite bool_decide_false; [done|]. intros <-. done.
  - by rewrite has_byte_pretty_N_go.
Qed.
End decimal.

Lemma has_byte_Itoa c n :
  digit c = None → c ≠ "-"%char → has_byte c (Itoa n) = false.
Proof.
  intros Hc Hd. unfold Itoa, pretty, pretty_Z. destruct n.
  - simpl. rewrite bool_decide_false; [done|]. by intros <-.
  - by apply has_byte_pretty_N.
  - simpl. rewrite bool_decide_false by done. by apply has_byte_pretty_N.
Qed.

Lemma has_colon_Itoa n : has_byte ":" (Itoa n) = false.
Proof. by apply has_byte_Itoa. Qed.

#[export] Instance Itoa_inj : Inj (=) (=) Itoa.
Proof. intros x y. apply (inj pretty). Qed.

#[export] Hint Resolve has_colon_Itoa : probak.
Create Rewrite HintDb probak_str.
#[export] Hint Rewrite app_assoc_str app_cons_str app_nil_l_str : probak_str.

(** ** [TrimSpace] is idempotent *)

Lemma rev_app_app s t u : String.rev_app s (t +:+ u) = String.rev_app s t +:+ u.
Proof.
  revert t. induction s as [|c s IH]; intros t; [done|]. cbn [String.rev_app].
  by rewrite <-IH, app_cons_str.
Qed.

Lemma rev_cons_str c s : String.rev (String c s) = String.rev s +:+ String c "".
Proof. unfold String.rev. cbn [String.rev_app]. by rewrite <-rev_app_app, app_nil_l_str. Qed.

Lemma rev_app_str s t : String.rev (s +:+ t) = String.rev t +:+ String.rev s.
Proof.
  induction s as [|c s IH].
  - rewrite app_nil_l_str. unfold String.rev at 3. by rewrite app_nil_r_str.
  - by rewrite app_cons_str, !rev_cons_str, IH, app_assoc_str.
Qed.

Lemma rev_rev_str s : String.rev (String.rev s) = s.
Proof. induction s as [|c s IH]; [done|]. by rewrite rev_cons_str, rev_app_str, IH. Qed.

Lemma trim_left_fix s : trim_left (trim_left s) = trim_left s.
Proof.
  assert (∀ n s, (String.length s ≤ n)%nat → trim_left (trim_left s) = trim_left s) as Hall;
    [|by eapply Hall].
  clear s. intros n. induction n as [|n IH]; intros [|a s] Hn; simpl in Hn; try lia; try done.
  cbn [trim_left]. destruct (is_ascii_space a) eqn:Ha; [apply IH; lia|].
  destruct s as [|b s]; [cbn [trim_left]; by rewrite Ha|].
  destruct (is_space2 a b) eqn:Hb; [apply IH; simpl in Hn; lia|].
  destruct s as [|c s]; [cbn [trim_left]; by rewrite Ha, Hb|].
  destruct (is_space3 a b c) eqn:Hc; [apply IH; simpl in Hn; lia|].
  cbn [trim_left]. by rewrite Ha, Hb, Hc.
Qed.

Lemma trim_left_rev_fix s : trim_left_rev (trim_left_rev s) = trim_left_rev s.
Proof.
  assert (∀ n s, (String.length s ≤ n)%nat → trim_left_rev (trim_left_rev s) = trim_left_rev s)
    as Hall; [|by eapply Hall].
  clear s. intros n. induction n as [|n IH]; intros [|a s] Hn; simpl in Hn; try lia; try done.
  cbn [trim_left_rev]. destruct (is_ascii_space a) eqn:Ha; [apply IH; lia|].
  destruct s as [|b s]; [cbn [trim_left_rev]; by rewrite Ha|].
  destruct (is_space2 b a) eqn:Hb; [apply IH; simpl in Hn; lia|].
  destruct s as [|c s]; [cbn [trim_left_rev]; by rewrite Ha, Hb|].
  destruct (is_space3 c b a) eqn:Hc; [apply IH; simpl in Hn; lia|].
  cbn [trim_left_rev]. by rewrite Ha, Hb, Hc.
Qed.

Lemma trim_left_rev_suffix s : ∃ a, s = a +:+ trim_left_rev s.
Proof.
  assert (∀ n s, (String.length s ≤ n)%nat → ∃ a, s = a +:+ trim_left_rev s) as Hall;
    [|by eapply Hall].
  clear s. intros n. induction n as [|n IH]; intros [|a s] Hn; simpl in Hn; try lia;
    try (by exists "").
  cbn [trim_left_rev]. destruct (is_ascii_space a).
  { destruct (IH s) as [p Hp]; [lia|]. exists (String a p). by rewrite app_cons_str, <-Hp. }
  destruct s as [|b s]; [by exists ""|]. destruct (is_space2 b a).
  { destruct (IH s) as [p Hp]; [simpl in Hn; lia|]. exists (String a (String b p)).
    by rewrite !app_cons_str, <-Hp. }
  destruct s as [|c s]; [by exists ""|]. destruct (is_space3 c b a); [|by exists ""].
  destruct (IH s) as [p Hp]; [simpl in Hn; lia|]. exists (String a (String b (String c p))).
  by rewrite !app_cons_str, <-Hp.
Qed.

Lemma trim_left_length s : (String.length (trim_left s) ≤ String.length s)%nat.
Proof.
  assert (∀ n s, (String.length s ≤ n)%nat →
    (String.length (trim_left s) ≤ String.length s)%nat) as Hall; [|by eapply Hall].
  clear s. intros n. induction n as [|n IH]; intros [|a s] Hn; simpl in Hn; try lia; try done.
  cbn [trim_left]. destruct (is_ascii_space a); [specialize (IH s ltac:(lia)); simpl; lia|].
  destruct s as [|b s]; [done|]. simpl in Hn.
  destruct (is_space2 a b); [specialize (IH s ltac:(lia)); simpl; lia|].
  destruct s as [|c s]; [done|]. simpl in Hn.
  destruct (is_space3 a b c); [specialize (IH s ltac:(lia)); simpl; lia|done].
Qed.

(** A text that starts with no space has no prefix that does. *)
Lemma trim_left_prefix p t : trim_left (p +:+ t) = p +:+ t → trim_left p = p.
Proof.
  destruct p as [|a p]; [done|]. rewrite app_cons_str. intros Hx.
  assert (∀ x y, trim_left x = y → (String.length x < String.length y)%nat → False) as Hlen.
  { intros x y <-. pose proof (trim_left_length x). lia. }
  cbn [trim_left] in Hx |- *. destruct (is_ascii_space a).
  { exfalso. apply (Hlen _ _ Hx). simpl. lia. }
  destruct p as [|b p]; [done|]. rewrite app_cons_str in Hx.
  destruct (is_space2 a b). { exfalso. apply (Hlen _ _ Hx). simpl. lia. }
  destruct p as [|c p]; [done|]. rewrite app_cons_str in Hx.
  destruct (is_space3 a b c); [|done]. exfalso. apply (Hlen _ _ Hx). simpl. lia.
Qed.

Lemma TrimSpace_idem s : TrimSpace (TrimSpace s) = TrimSpace s.
Proof.
  unfold TrimSpace. set (x := trim_left s).
  assert (trim_left x = x) as Hx by apply trim_left_fix. clearbody x.
  assert (trim_left (trim_right x) = trim_right x) as ->.
  { destruct (trim_left_rev_suffix (String.rev x)) as [a Ha].
    apply (f_equal String.rev) in Ha. rewrite rev_rev_str, rev_app_str in Ha.
    fold (trim_right x) in Ha. apply (trim_left_prefix _ (String.rev a)). by rewrite <-Ha. }
  unfold trim_right. by rewrite rev_rev_str, trim_left_rev_fix.
Qed.
