(* ===== verification/GoText.v ===== *)
(** * Splitting and searching texts: more of [strings]

    [Split], [SplitN] with two parts, [Index], [LastIndex] and [TrimPrefix], for
    separators that are not empty; and [sort.Slice]. *)
From Stdlib Require Import Ascii.
From Stdlib Require String.
From stdpp Require Import sorting.
From S2P Require Import Prelude GoStrings.

(** ** [strings.Split] at a byte *)

Fixpoint Split (c : ascii) (s : string) : list string :=
  match s with
  | EmptyString => [EmptyString]
  | String a s =>
      if decide (a = c) then EmptyString :: Split c s else
      match Split c s with
      | [] => [String a EmptyString]
      | part :: parts => String a part :: parts
      end
  end.

(** ** Searching *)

Fixpoint str_drop_nat (n : nat) (s : string) : string :=
  match n, s with
  | S n, String _ s => str_drop_nat n s
  | _, _ => s
  end.

Fixpoint str_take_nat (n : nat) (s : string) : string :=
  match n, s with
  | S n, String a s => String a (str_take_nat n s)
  | _, _ => EmptyString
  end.

(** [strings.Index]. *)
Fixpoint Index (s sub : string) : option nat :=
  if HasPrefix s sub then Some O else
  match s with
  | EmptyString => None
  | String _ s => S <$> Index s sub
  end.

(** [strings.LastIndex]. *)
Fixpoint LastIndex (s sub : string) : option nat :=
  match s with
  | EmptyString => if HasPrefix s sub then Some O else None
  | String _ t =>
      match LastIndex t sub with
      | Some n => Some (S n)
      | None => if HasPrefix s sub then Some O else None
      end
  end.

(** The two parts of [strings.SplitN(s, sep, 2)], where [sep] occurs. *)
Definition Cut (s sep : string) : option (string * string) :=
  n ← Index s sep; Some (str_take_nat n s, str_drop_nat (n + String.length sep) s).

Definition TrimPrefix (s prefix : string) : string :=
  if HasPrefix s prefix then str_drop_nat (String.length prefix) s else s.

Definition JoinText (sep : string) (l : list string) : string := String.concat sep l.

(** ** [sort.Slice], which may put equal elements in any order; [le x y] is the negation of
    [less y x] *)

Class SortSlice := {
  sort_slice : ∀ {A} (le : A → A → bool), list A → list A;
  sort_slice_perm : ∀ {A} (le : A → A → bool) (l : list A), sort_slice le l ≡ₚ l;
  sort_slice_sorted : ∀ {A} (le : A → A → bool) (l : list A),
    (∀ x y, le x y = true ∨ le y x = true) →
    (∀ x y z, le x y = true → le y z = true → le x z = true) →
    StronglySorted (λ x y, le x y = true) (sort_slice le l) }.

Definition slice_le {A} (le : A → A → bool) (x y : A) : Prop := le x y = true.
#[export] Instance slice_le_dec {A} (le : A → A → bool) : RelDecision (slice_le le).
Proof. intros x y. unfold slice_le. apply _. Defined.

#[export] Program Instance stable_sort : SortSlice | 100 :=
  {| sort_slice A le l := merge_sort (slice_le le) l |}.
Next Obligation. intros A le l. apply merge_sort_Permutation. Qed.
Next Obligation.
  intros A le l Htot Htrans.
  assert (Transitive (slice_le le)) by exact Htrans.
  assert (Total (slice_le le)) by exact Htot.
  by apply (StronglySorted_merge_sort (slice_le le)).
Qed.

(** ** Lemmas *)

Lemma Split_no c s : has_byte c s = false → Split c s = [s].
Proof.
  induction s as [|a s IH]; simpl; intros Hs; [done|].
  apply orb_false_iff in Hs as [Ha%bool_decide_eq_false Hs].
  rewrite decide_False by done. by rewrite IH.
Qed.

Lemma Split_app c s t :
  has_byte c s = false → Split c (s +:+ String c t) = s :: Split c t.
Proof.
  induction s as [|a s IH]; simpl; intros Hs.
  - by rewrite decide_True.
  - apply orb_false_iff in Hs as [Ha%bool_decide_eq_false Hs].
    rewrite decide_False by done. by rewrite IH.
Qed.

(** Splitting a joined list of parts without the separator. *)
Lemma Split_joined c (l : list string) :
  l ≠ [] → Forall (λ s, has_byte c s = false) l →
  Split c (JoinText (String c EmptyString) l) = l.
Proof.
  intros Hl Hall. induction Hall as [|s l Hs Hall IH]; [done|].
  destruct l as [|t l]; [by apply Split_no|].
  change (JoinText _ _) with (s +:+ String c EmptyString +:+ JoinText (String c EmptyString) (t :: l)).
  rewrite app_cons_str. change ("" +:+ ?x) with x. rewrite Split_app by done. by rewrite IH.
Qed.

Lemma str_take_drop n s : str_take_nat n s +:+ str_drop_nat n s = s.
Proof.
  revert s. induction n as [|n IH]; intros [|a s]; try done. simpl.
  by rewrite app_cons_str, IH.
Qed.

Lemma str_take_length n s : (String.length (str_take_nat n s) ≤ n)%nat.
Proof. revert s. induction n as [|n IH]; intros [|a s]; simpl; try lia. specialize (IH s). lia. Qed.

Lemma HasPrefix_length s p : HasPrefix s p = true → (String.length p ≤ String.length s)%nat.
Proof.
  revert p. induction s as [|a s IH]; intros [|b p]; simpl; try done; [lia|].
  intros [_ ?%IH]%andb_true_iff. lia.
Qed.

Lemma Index_length s sub i : Index s sub = Some i → (i + String.length sub ≤ String.length s)%nat.
Proof.
  revert i. induction s as [|a s IH]; intros i; cbn [Index LastIndex].
  - destruct (HasPrefix "" sub) eqn:Hp; [|done]. intros [= <-]. apply HasPrefix_length in Hp; simpl in *; lia.
  - destruct (HasPrefix (String a s) sub) eqn:Hp; [intros [= <-]; by apply HasPrefix_length|].
    destruct (Index s sub) as [j|]; [|done]. intros [= <-]. pose proof (IH j eq_refl). simpl. lia.
Qed.

Lemma LastIndex_length s sub i :
  LastIndex s sub = Some i → (i + String.length sub ≤ String.length s)%nat.
Proof.
  revert i. induction s as [|a s IH]; intros i; cbn [Index LastIndex].
  - destruct (HasPrefix "" sub) eqn:Hp; [|done]. intros [= <-]. apply HasPrefix_length in Hp; simpl in *; lia.
  - destruct (LastIndex s sub) as [j|]; [intros [= <-]; pose proof (IH j eq_refl); simpl; lia|].
    destruct (HasPrefix (String a s) sub) eqn:Hp; [|done]. intros [= <-]. apply HasPrefix_length in Hp; simpl in *; lia.
Qed.

(** ** Decimals *)

Fixpoint str_all (p : ascii → bool) (s : string) : bool :=
  match s with EmptyString => true | String c s => p c && str_all p s end.

Definition is_digit (c : ascii) : bool := match digit c with Some _ => true | None => false end.

Lemma digit_of_N (x : N) : (x < 10)%N → digit (pretty_N_char x) = Some (Z.of_N x).
Proof.
  intros Hx. assert (x = 0 ∨ x = 1 ∨ x = 2 ∨ x = 3 ∨ x = 4 ∨ x = 5 ∨ x = 6 ∨ x = 7 ∨ x = 8 ∨ x = 9)%N
    as Hxs by lia.
  repeat destruct Hxs as [->|Hxs]; try subst x; reflexivity.
Qed.

Lemma parse_pretty_go (x : N) s :
  (0 < x)%N → parse_digits 0 (pretty_N_go x s) = parse_digits (Z.of_N x) s.
Proof.
  revert s. induction (N.lt_wf_0 x) as [x _ IH]; intros s Hx.
  rewrite pretty_N_go_step by lia.
  assert (x `mod` 10 < 10)%N as Hm by (apply N.mod_lt; lia).
  assert (Z.of_N x = 10 * Z.of_N (x / 10) + Z.of_N (x `mod` 10)) as Hd
    by (rewrite N2Z.inj_div, N2Z.inj_mod; apply Z.div_mod; lia).
  destruct (decide (x / 10 = 0)%N) as [H0|H0].
  - rewrite H0, pretty_N_go_0. cbn [parse_digits]. rewrite digit_of_N by done. f_equal. lia.
  - rewrite IH; [|apply N.div_lt; lia|lia]. cbn [parse_digits]. rewrite digit_of_N by done.
    f_equal. lia.
Qed.

Lemma digits_pretty_go (x : N) s :
  str_all is_digit s = true → str_all is_digit (pretty_N_go x s) = true.
Proof.
  revert s. induction (N.lt_wf_0 x) as [x _ IH]; intros s Hs.
  destruct (decide (x = 0)%N) as [->|Hx]; [by rewrite pretty_N_go_0|].
  rewrite pretty_N_go_step by lia. apply IH; [apply N.div_lt; lia|]. cbn.
  unfold is_digit. rewrite digit_of_N; [done|]. apply N.mod_lt. lia.
Qed.

Lemma Itoa_pos p : Itoa (Zpos p) = pretty_N_go (Npos p) "".
Proof. change (pretty (Npos p) = pretty_N_go (Npos p) ""). unfold pretty, pretty_N. by case_decide. Qed.

Lemma Itoa_digits n : 0 ≤ n → str_all is_digit (Itoa n) = true.
Proof.
  intros Hn. destruct n as [|p|p]; [done| |lia]. rewrite Itoa_pos. by apply digits_pretty_go.
Qed.

Lemma Itoa_nonempty n : ∃ c s, Itoa n = String c s.
Proof.
  destruct (Itoa n) as [|c s] eqn:Hi; [|eauto].
  assert (parse_digits 0 (Itoa n) = Some 0) as Hp by by rewrite Hi.
  destruct n as [|p|p]; [done| |done]. rewrite Itoa_pos, parse_pretty_go in Hp by lia.
  discriminate Hp.
Qed.

Lemma ParseInt_Itoa n : 0 ≤ n < 2^63 → ParseInt (Itoa n) = (n, true).
Proof.
  intros Hn. assert (parse_digits 0 (Itoa n) = Some n) as Hp.
  { destruct n as [|p|p]; [done| |lia]. by rewrite Itoa_pos, parse_pretty_go by lia. }
  pose proof (Itoa_digits n ltac:(lia)) as Hd. destruct (Itoa_nonempty n) as (c & s & Hc).
  rewrite Hc in *. cbn [str_all] in Hd. apply andb_true_iff in Hd as [Hcd _].
  assert (∀ d, ParseInt (String c s) = d → (parse_unsigned (String c s) = Some n → d = (n, true))) as H.
  { intros d <- Hu. unfold ParseInt. cbv zeta.
    assert ((if 2^63 <=? n then (2^63 - 1, false) else (n, true)) = (n, true)) as He
      by (rewrite (proj2 (Z.leb_gt _ _)) by lia; done).
    rewrite Hu. destruct c as [[] [] [] [] [] [] [] []]; try discriminate Hcd; exact He. }
  by apply H.
Qed.
