(* ===== verification/GoUtf8.v ===== *)
(** * Characters of a Go string: [unicode/utf8] and the [Error] method

    [utf8.RuneCountInString], the conversion [[]rune(s)] cut to a prefix, and
    the text of an error value. *)
From Stdlib Require Import Ascii.
From Stdlib Require String.
From S2P Require Import Prelude GoStrings.

(** ** Decoding *)

Definition is_cont (c : ascii) : bool := (0x80 <=? byte c) && (byte c <=? 0xBF).

(** The second byte allowed after a lead byte: overlong forms, surrogates and
    code points beyond U+10FFFF are refused. *)
Definition second_ok (lead c : Z) : bool :=
  if lead =? 0xE0 then (0xA0 <=? c) && (c <=? 0xBF)
  else if lead =? 0xED then (0x80 <=? c) && (c <=? 0x9F)
  else if lead =? 0xF0 then (0x90 <=? c) && (c <=? 0xBF)
  else if lead =? 0xF4 then (0x80 <=? c) && (c <=? 0x8F)
  else (0x80 <=? c) && (c <=? 0xBF).

(** The length of the sequence a lead byte announces; 1 for the others. *)
Definition lead_size (lead : Z) : nat :=
  if (0xC2 <=? lead) && (lead <=? 0xDF) then 2
  else if (0xE0 <=? lead) && (lead <=? 0xEF) then 3
  else if (0xF0 <=? lead) && (lead <=? 0xF4) then 4
  else 1.

Fixpoint all_cont (n : nat) (s : string) : bool :=
  match n, s with
  | O, _ => true
  | S n, String c s => is_cont c && all_cont n s
  | S _, EmptyString => false
  end.

(** The bytes after [a] of the first code point; an invalid sequence is a code
    point of one byte. *)
Definition rune_tail (a : ascii) (s : string) : nat :=
  match lead_size (byte a), s with
  | S n, String b _ =>
      if second_ok (byte a) (byte b) && all_cont n s then n else O
  | _, _ => O
  end.

Fixpoint count_from (skip : nat) (s : string) : Z :=
  match s with
  | EmptyString => 0
  | String a s' =>
      match skip with
      | S k => count_from k s'
      | O => 1 + count_from (rune_tail a s') s'
      end
  end.

(** [utf8.RuneCountInString]. *)
Definition RuneCount (s : string) : Z := count_from O s.

(** U+FFFD, what the conversion to runes makes of an invalid byte. *)
Definition replacement : string :=
  String "239" (String "191" (String "189" EmptyString)).

Definition invalid_byte (a : ascii) (s : string) : bool :=
  (0x80 <=? byte a) && Nat.eqb (rune_tail a s) 0.

(** [string([]rune(s)[:n])]. *)
Fixpoint runes_from (skip n : nat) (s : string) : string :=
  match s with
  | EmptyString => EmptyString
  | String a s' =>
      match skip, n with
      | S k, _ => String a (runes_from k n s')
      | O, O => EmptyString
      | O, S n' =>
          if invalid_byte a s' then replacement +:+ runes_from O n' s'
          else String a (runes_from (rune_tail a s') n' s')
      end
  end.

Definition take_runes (n : nat) (s : string) : string := runes_from O n s.

(** ** Lemmas *)

Lemma all_cont_app n s t :
  all_cont n (s +:+ t) = true → (n ≤ String.length s)%nat → all_cont n s = true.
Proof.
  revert s. induction n as [|n IH]; intros [|c s]; simpl; try (done || lia).
  intros [Hc Hn]%andb_true_iff Hle. rewrite Hc. apply IH; [done|lia].
Qed.

Lemma all_cont_app_l n s t : all_cont n s = true → all_cont n (s +:+ t) = true.
Proof.
  revert s. induction n as [|n IH]; intros [|c s]; simpl; try done.
  intros [Hc Hn]%andb_true_iff. rewrite Hc. by apply IH.
Qed.

Lemma rune_tail_cont a s : all_cont (rune_tail a s) s = true.
Proof.
  unfold rune_tail. destruct (lead_size (byte a)) as [|n]; [done|].
  destruct s as [|b s]; [done|]. destruct (_ && _) eqn:H; [|done].
  by apply andb_true_iff in H as [_ ?].
Qed.

Lemma all_cont_length n s : all_cont n s = true → (n ≤ String.length s)%nat.
Proof.
  revert s. induction n as [|n IH]; intros [|c s]; simpl; try (done || lia).
  intros [_ Hn]%andb_true_iff. apply IH in Hn. lia.
Qed.

(** A continuation byte alone is a code point of one byte. *)
Lemma rune_tail_is_cont c s : is_cont c = true → rune_tail c s = O.
Proof.
  unfold is_cont, rune_tail, lead_size. intros Hc. bool_to_prop.
  replace (0xC2 <=? byte c) with false by (symmetry; bool_to_prop; lia).
  replace (0xE0 <=? byte c) with false by (symmetry; bool_to_prop; lia).
  replace (0xF0 <=? byte c) with false by (symmetry; bool_to_prop; lia).
  simpl. destruct s; [done|]. by destruct (_ && _).
Qed.

Lemma count_from_nonneg k s : 0 ≤ count_from k s.
Proof. revert k. induction s as [|a s IH]; intros [|k]; simpl; try lia; [|apply IH]. specialize (IH (rune_tail a s)). lia. Qed.

Lemma count_skip_cont n s : all_cont n s = true → count_from n s ≤ RuneCount s.
Proof.
  unfold RuneCount. revert s. induction n as [|n IH]; intros [|c s]; try done.
  intros [Hc Hn]%andb_true_iff. simpl. rewrite rune_tail_is_cont by done.
  specialize (IH s Hn). lia.
Qed.

(** Where the appended string cannot complete a code point, decoding stops at the
    same place; otherwise the first byte was invalid. *)
Lemma rune_tail_app a s t :
  rune_tail a (s +:+ t) = rune_tail a s ∨
  rune_tail a s = O.
Proof.
  unfold rune_tail. destruct (lead_size (byte a)) as [|n]; [by left|].
  destruct s as [|b s]; [by right|]. simpl.
  destruct (second_ok _ _); simpl; [|by left].
  destruct (all_cont n (String b s)) eqn:H; [|by right].
  left. change (String b (s +:+ t)) with (String b s +:+ t).
  by rewrite all_cont_app_l.
Qed.

Lemma count_from_app k a b :
  (k ≤ String.length a)%nat → count_from k (a +:+ b) ≤ count_from k a + RuneCount b.
Proof.
  revert k. induction a as [|c a IH]; intros k Hk; simpl in *.
  { destruct k; [|lia]. unfold RuneCount. change ("" +:+ b) with b. lia. }
  destruct k as [|k]; [|apply IH; lia].
  destruct (rune_tail_app c a b) as [->|H0].
  - specialize (IH (rune_tail c a) (all_cont_length _ _ (rune_tail_cont c a))). lia.
  - rewrite H0. specialize (IH O ltac:(lia)).
    pose proof (count_skip_cont _ _ (rune_tail_cont c (a +:+ b))).
    unfold RuneCount in *. lia.
Qed.

(** Concatenation never has more characters than its parts together. *)
Lemma RuneCount_app a b : RuneCount (a +:+ b) ≤ RuneCount a + RuneCount b.
Proof. apply count_from_app. lia. Qed.

Lemma count_from_le_length k s : count_from k s ≤ str_len s.
Proof.
  unfold str_len. revert k. induction s as [|a s IH]; intros [|k]; simpl; try lia.
  - specialize (IH (rune_tail a s)). lia.
  - specialize (IH k). lia.
Qed.

Lemma RuneCount_le_length s : RuneCount s ≤ str_len s.
Proof. apply count_from_le_length. Qed.

(** ** Error texts *)

(** [err.Error()]. *)
Fixpoint Error (e : error) : string :=
  match e with
  | ErrMsg msg => msg
  | ErrWrap msg inner => msg +:+ ": " +:+ Error inner
  | ErrJoin errs =>
      match errs with
      | [] => ""
      | e :: errs => Error e +:+
          foldr (λ e s, String "010" (Error e) +:+ s) EmptyString errs
      end
  | ErrPartial inner => "partial alert evaluation: " +:+ Error inner
  | ErrPushHTTP status => "push service returned " +:+ Itoa status
  end.

(** [errors.Join]: nil errors are dropped, and no error is left of none. *)
Definition Join (errs : list (option error)) : option error :=
  match omap id errs with [] => None | l => Some (ErrJoin l) end.
