(* ===== verification/GoNum.v ===== *)
(** * Go's fixed-width integers and float64

    [int] and [int64] are 64-bit two's complement integers, here a [Z] with the
    wrap-around [wrap64] written where an operation can leave the range.
    [float64] is the IEEE binary64 format of [SpecFloat]: 53 bits of precision,
    round to nearest, ties to even. *)
From Stdlib Require Import SpecFloat.
From S2P Require Import Prelude GoStrings.

(** ** int64 *)

Definition MinInt64 : Z := - 2^63.
Definition MaxInt64 : Z := 2^63 - 1.

Definition in_int64 (z : Z) : Prop := MinInt64 ≤ z ≤ MaxInt64.

Definition wrap64 (z : Z) : Z := (z + 2^63) mod 2^64 - 2^63.

(** Saturation, as [time.Time.Sub] does. *)
Definition sat64 (z : Z) : Z := Z.max MinInt64 (Z.min MaxInt64 z).

(** ** float64 *)

Definition float64 : Type := spec_float.

Definition prec : Z := 53.
Definition emax : Z := 1024.

(** [float64(z)]. *)
Definition Float (z : Z) : float64 := binary_normalize prec emax z 0 false.
Definition fadd : float64 → float64 → float64 := SFadd prec emax.
Definition fmul : float64 → float64 → float64 := SFmul prec emax.
Definition fdiv : float64 → float64 → float64 := SFdiv prec emax.

(** [int(f)]: truncation towards zero.  A value that does not fit gives the
    indefinite integer of amd64. *)
Definition Trunc (f : float64) : Z :=
  match f with
  | S754_finite s m e =>
      let a := if 0 <=? e then Zpos m * 2^e else Zpos m / 2^(- e) in
      let z := if s then - a else a in
      if (MinInt64 <=? z) && (z <=? MaxInt64) then z else MinInt64
  | S754_zero _ => 0
  | _ => MinInt64
  end.

(** [fmt.Sprintf("%.2f", f)] for a non-negative finite [f]: the hundredths
    nearest to the exact value, ties to even. *)
Definition round_half_even (num den : Z) : Z :=
  let q := num / den in
  let r := num mod den in
  if 2 * r <? den then q
  else if den <? 2 * r then q + 1
  else if Z.even q then q else q + 1.

Definition hundredths (f : float64) : Z :=
  match f with
  | S754_finite false m e =>
      if 0 <=? e then Zpos m * 2^e * 100
      else round_half_even (Zpos m * 100) (2^(- e))
  | _ => 0
  end.

Definition pad2 (n : Z) : string :=
  if n <? 10 then "0" +:+ Itoa n else Itoa n.

Definition Sprintf_2f (f : float64) : string :=
  let h := hundredths f in
  Itoa (h / 100) +:+ "." +:+ pad2 (h mod 100).

(** ** Lemmas *)

Lemma wrap64_range z : in_int64 (wrap64 z).
Proof.
  unfold in_int64, wrap64, MinInt64, MaxInt64.
  pose proof (Z.mod_pos_bound (z + 2^63) (2^64)). lia.
Qed.

Lemma wrap64_id z : in_int64 z → wrap64 z = z.
Proof.
  unfold in_int64, wrap64, MinInt64, MaxInt64. intros ?.
  rewrite Z.mod_small; lia.
Qed.

Lemma sat64_range z : in_int64 (sat64 z).
Proof. unfold in_int64, sat64, MinInt64, MaxInt64. lia. Qed.

Lemma sat64_id z : in_int64 z → sat64 z = z.
Proof. unfold in_int64, sat64, MinInt64, MaxInt64. lia. Qed.

#[export] Hint Resolve wrap64_range sat64_range : probak.
