(* ===== verification/GoTime.v ===== *)
(** * Go's [time] package

    A [Time] is the instant it denotes, in nanoseconds since the Unix epoch; a
    [Duration] is a signed 64-bit count of nanoseconds.  The calendar operations
    take the [Location] explicitly: a [Time] of the program is always read in the
    location the code names with [In]. *)
From Stdlib Require Import Ascii.
From S2P Require Import Prelude GoStrings GoNum.

(** ** Instants and durations *)

Abbreviation Time := Z (only parsing).
Abbreviation Duration := Z (only parsing).

Definition Nanosecond : Duration := 1.
Definition Second : Duration := 1000000000.
Definition Minute : Duration := 60 * Second.
Definition Hour : Duration := 60 * Minute.

(** The zero [time.Time]: January 1, year 1, 00:00:00 UTC. *)
Definition zeroTime : Time := -62135596800 * Second.

Definition IsZero (t : Time) : bool := t =? zeroTime.
Definition Before (t u : Time) : bool := t <? u.
Definition After (t u : Time) : bool := u <? t.
Definition Equal (t u : Time) : bool := t =? u.
Definition AddDur (t : Time) (d : Duration) : Time := t + d.
Definition Sub (t u : Time) : Duration := sat64 (t - u).
Definition Unix (t : Time) : Z := t / Second.
Definition UnixTime (sec : Z) : Time := sec * Second.

(** [d.Hours()], [d.Minutes()]: the whole units plus the float64 fraction. *)
Definition Hours (d : Duration) : float64 :=
  fadd (Float (Z.quot d Hour)) (fdiv (Float (Z.rem d Hour)) (Float Hour)).
Definition Minutes (d : Duration) : float64 :=
  fadd (Float (Z.quot d Minute)) (fdiv (Float (Z.rem d Minute)) (Float Minute)).

(** ** Calendar: days since the epoch to year, month, day and back *)

Record civil := Civil { c_year : Z; c_month : Z; c_day : Z }.

(** Days are counted from March 1 inside 400-year eras of 146097 days. *)
Definition civil_of_days (n : Z) : civil :=
  let z := n + 719468 in
  let era := z / 146097 in
  let doe := z mod 146097 in
  let yoe := (doe - doe / 1460 + doe / 36524 - doe / 146096) / 365 in
  let doy := doe - (365 * yoe + yoe / 4 - yoe / 100) in
  let mp := (5 * doy + 2) / 153 in
  let d := doy - (153 * mp + 2) / 5 + 1 in
  let m := if mp <? 10 then mp + 3 else mp - 9 in
  {| c_year := yoe + era * 400 + (if m <=? 2 then 1 else 0);
     c_month := m; c_day := d |}.

(** The day number of a date; the day of month may lie outside the month. *)
Definition days_of_civil (c : civil) : Z :=
  let y := c_year c - (if c_month c <=? 2 then 1 else 0) in
  let era := y / 400 in
  let yoe := y mod 400 in
  let mp := (c_month c + 9) mod 12 in
  let doy := (153 * mp + 2) / 5 + c_day c - 1 in
  let doe := yoe * 365 + yoe / 4 - yoe / 100 + doy in
  era * 146097 + doe - 719468.

(** ** Locations

    A location is the offset, in seconds east of UTC, before its first
    transition, and the transitions: the Unix second one takes effect and the
    offset from then on, in ascending order. *)

Record Location := { loc_first : Z; loc_trans : list (Z * Z) }.

Definition UTC : Location := {| loc_first := 0; loc_trans := [] |}.

Definition FixedZone (off : Z) : Location := {| loc_first := off; loc_trans := [] |}.

(** [l.lookup(sec)]: the offset in force, and the interval it is in force. *)
Fixpoint lookup_trans (off start : Z) (tr : list (Z * Z)) (sec : Z) : Z * Z * Z :=
  match tr with
  | [] => (off, start, MaxInt64)
  | (w, o) :: tr' =>
      if sec <? w then (off, start, w) else lookup_trans o w tr' sec
  end.

Definition loc_lookup (loc : Location) (sec : Z) : Z * Z * Z :=
  lookup_trans (loc_first loc) MinInt64 (loc_trans loc) sec.

Definition offset_at (loc : Location) (sec : Z) : Z := (loc_lookup loc sec).1.1.

(** The wall clock: seconds since the epoch as read in the location. *)
Definition local_sec (loc : Location) (t : Time) : Z :=
  Unix t + offset_at loc (Unix t).

Definition local_day (loc : Location) (t : Time) : Z := local_sec loc t / 86400.

Definition CivilDate (loc : Location) (t : Time) : civil :=
  civil_of_days (local_day loc t).

Definition Year (loc : Location) (t : Time) : Z := c_year (CivilDate loc t).

Definition YearDay (loc : Location) (t : Time) : Z :=
  local_day loc t - days_of_civil (Civil (Year loc t) 1 1) + 1.

(** Sunday is 0; January 1, 1970 was a Thursday. *)
Definition weekday_of_day (n : Z) : Z := (n + 4) mod 7.
Definition Weekday (loc : Location) (t : Time) : Z :=
  weekday_of_day (local_day loc t).

(** The instant whose wall clock in [loc] reads [sec] seconds: the zone in
    force is guessed at [sec] itself and corrected when the guess was wrong. *)
Definition from_local (loc : Location) (sec : Z) : Z :=
  let '(off, start, end_) := loc_lookup loc sec in
  if off =? 0 then sec else
  let utc := sec - off in
  if (utc <? start) || (end_ <=? utc) then sec - offset_at loc utc else utc.

(** [time.Date(y, m, d, 0, 0, sec, nsec, loc)] with the clock given in seconds. *)
Definition Date (loc : Location) (y m d sec nsec : Z) : Time :=
  let c := Civil (y + (m - 1) / 12) ((m - 1) mod 12 + 1) d in
  from_local loc (days_of_civil c * 86400 + sec) * Second + nsec.

(** [t.AddDate(0, 0, days)]: the same clock reading, [days] later. *)
Definition AddDays (loc : Location) (t : Time) (days : Z) : Time :=
  let c := CivilDate loc t in
  Date loc (c_year c) (c_month c) (c_day c + days)
    (local_sec loc t mod 86400) (t mod Second).

(** [t.AddDate(0, months, 0)]: a day the month does not have is one of the next. *)
Definition AddMonths (loc : Location) (t : Time) (months : Z) : Time :=
  let c := CivilDate loc t in
  Date loc (c_year c) (c_month c + months) (c_day c)
    (local_sec loc t mod 86400) (t mod Second).

(** Midnight of the day [t] falls on:
    [time.Date(t.Year(), t.Month(), t.Day(), 0, 0, 0, 0, loc)]. *)
Definition StartOfDay (loc : Location) (t : Time) : Time :=
  let c := CivilDate loc t in Date loc (c_year c) (c_month c) (c_day c) 0 0.

(** ** The layout ["15:04"] *)

(** [getnum]: one digit, or two. *)
Definition getnum1 (s : string) : option (Z * string) :=
  match s with
  | String a s1 =>
      match digit a with
      | None => None
      | Some x =>
          match s1 with
          | String b s2 =>
              match digit b with
              | Some y => Some (10 * x + y, s2)
              | None => Some (x, s1)
              end
          | EmptyString => Some (x, s1)
          end
      end
  | EmptyString => None
  end.

Definition getnum2 (s : string) : option (Z * string) :=
  match s with
  | String a (String b s2) =>
      match digit a, digit b with
      | Some x, Some y => Some (10 * x + y, s2)
      | _, _ => None
      end
  | _ => None
  end.

(** [time.Parse("15:04", s)]: hour and minute. *)
Definition ParseHHMM (s : string) : option (Z * Z) :=
  match getnum1 s with
  | Some (h, String ":"%char s1) =>
      if 24 <=? h then None else
      match getnum2 s1 with
      | Some (m, EmptyString) => if 60 <=? m then None else Some (h, m)
      | _ => None
      end
  | _ => None
  end.

Definition FormatHHMM (h m : Z) : string := pad2 h +:+ ":" +:+ pad2 m.

(** ** Lemmas: the calendar *)

Lemma yoe_range doe :
  0 ≤ doe < 146097 →
  0 ≤ (doe - doe / 1460 + doe / 36524 - doe / 146096) / 365 < 400.
Proof. intros. Z.div_mod_to_equations. lia. Qed.

Lemma doy_range doe :
  0 ≤ doe < 146097 →
  let yoe := (doe - doe / 1460 + doe / 36524 - doe / 146096) / 365 in
  0 ≤ doe - (365 * yoe + yoe / 4 - yoe / 100) ≤ 365.
Proof. intros. subst yoe. Z.div_mod_to_equations. lia. Qed.

Lemma civil_month_range n : 1 ≤ c_month (civil_of_days n) ≤ 12.
Proof.
  unfold civil_of_days. cbn [c_month].
  pose proof (Z.mod_pos_bound (n + 719468) 146097 ltac:(lia)) as Hd.
  pose proof (doy_range _ Hd) as Hy. cbv zeta in Hy.
  set (doy := _ - (_ + _ - _)) in *. clearbody doy. clear -Hy.
  split_if; Z.div_mod_to_equations; lia.
Qed.

(** The calendar conversions are inverse to each other. *)
Lemma days_of_civil_of_days n : days_of_civil (civil_of_days n) = n.
Proof.
  unfold days_of_civil, civil_of_days. cbn [c_year c_month c_day].
  pose proof (Z.div_mod (n + 719468) 146097 ltac:(lia)) as Hz.
  pose proof (Z.mod_pos_bound (n + 719468) 146097 ltac:(lia)) as Hd.
  set (doe := (n + 719468) mod 146097) in *.
  set (era := (n + 719468) / 146097) in *. clearbody doe era.
  pose proof (yoe_range _ Hd) as Hyoe. pose proof (doy_range _ Hd) as Hdoy.
  cbv zeta in Hdoy.
  set (yoe := (doe - _ + _ - _) / 365) in *. clearbody yoe.
  set (doy := doe - (365 * yoe + yoe / 4 - yoe / 100)) in *.
  assert (doe = 365 * yoe + yoe / 4 - yoe / 100 + doy) as Hdoe by lia.
  clearbody doy.
  set (mp := (5 * doy + 2) / 153).
  assert (0 ≤ mp < 12) as Hmp by (subst mp; clear -Hdoy; Z.div_mod_to_equations; lia).
  clearbody mp. set (m := if mp <? 10 then mp + 3 else mp - 9).
  assert ((m + 9) mod 12 = mp) as ->.
  { subst m. clear -Hmp. split_if; bool_to_prop; Z.div_mod_to_equations; lia. }
  assert (∀ b : Z, yoe + era * 400 + b - b = yoe + era * 400) as Hb by lia.
  rewrite Hb, Z.div_add, Z.mod_add, Z.div_small, Z.mod_small by lia. lia.
Qed.

Lemma days_of_civil_add y m d k :
  days_of_civil (Civil y m (d + k)) = days_of_civil (Civil y m d) + k.
Proof. unfold days_of_civil; cbn [c_year c_month c_day]. lia. Qed.

Lemma Date_civil loc n k sec nsec :
  let c := civil_of_days n in
  Date loc (c_year c) (c_month c) (c_day c + k) sec nsec =
  from_local loc ((n + k) * 86400 + sec) * Second + nsec.
Proof.
  cbv zeta. unfold Date. pose proof (civil_month_range n).
  rewrite Z.div_small, Z.mod_small by lia.
  rewrite Z.add_0_r, Z.sub_add, days_of_civil_add.
  pose proof (days_of_civil_of_days n) as Hn.
  destruct (civil_of_days n) as [y m d]; cbn [c_year c_month c_day] in *.
  by rewrite Hn.
Qed.

Lemma StartOfDay_eq loc t :
  StartOfDay loc t = from_local loc (local_day loc t * 86400) * Second.
Proof.
  unfold StartOfDay, CivilDate. cbv zeta.
  rewrite <-(Z.add_0_r (c_day _)), Date_civil. by rewrite !Z.add_0_r.
Qed.

Lemma AddDays_eq loc t k :
  AddDays loc t k =
  from_local loc ((local_day loc t + k) * 86400 + local_sec loc t mod 86400)
    * Second + t mod Second.
Proof. unfold AddDays, CivilDate. cbv zeta. by rewrite Date_civil. Qed.

(** Two instants fall on the same day iff year and day of year agree. *)
Lemma same_YearDay loc t u :
  Year loc t = Year loc u → YearDay loc t = YearDay loc u →
  local_day loc t = local_day loc u.
Proof. unfold YearDay. intros ->. lia. Qed.

Lemma weekday_range n : 0 ≤ weekday_of_day n < 7.
Proof. apply Z.mod_pos_bound; lia. Qed.

(** ** Lemmas: a location with a single offset *)

Lemma offset_fixed o sec : offset_at (FixedZone o) sec = o.
Proof. done. Qed.

Lemma from_local_fixed o sec : from_local (FixedZone o) sec = sec - o.
Proof.
  unfold from_local, loc_lookup; simpl. go.
Qed.

Lemma local_sec_fixed o t : local_sec (FixedZone o) t = Unix t + o.
Proof. done. Qed.

(** ** Lemmas: the clock layout *)

Lemma getnum2_pad2 n s :
  0 ≤ n < 60 → getnum2 (pad2 n +:+ s) = Some (n, s).
Proof.
  intros Hn. assert (n ∈ seqZ 0 60) as Hin by (apply elem_of_seqZ; lia).
  clear Hn. revert n Hin. apply Forall_forall. cbn. repeat constructor.
Qed.

Lemma getnum1_pad2 n s c :
  0 ≤ n < 60 → digit c = None →
  getnum1 (pad2 n +:+ String c s) = Some (n, String c s).
Proof.
  intros Hn _. assert (n ∈ seqZ 0 60) as Hin by (apply elem_of_seqZ; lia).
  clear Hn. revert n Hin. apply Forall_forall. cbn. repeat constructor.
Qed.

Lemma ParseHHMM_FormatHHMM h m :
  0 ≤ h < 24 → 0 ≤ m < 60 → ParseHHMM (FormatHHMM h m) = Some (h, m).
Proof.
  intros Hh Hm. unfold ParseHHMM, FormatHHMM.
  change (":" +:+ pad2 m) with (String ":" (pad2 m)).
  rewrite getnum1_pad2 by (done || lia). go.
  pose proof (getnum2_pad2 m "" ltac:(lia)) as Hm2.
  rewrite app_nil_r_str in Hm2. rewrite Hm2. go.
Qed.

Lemma digit_range c d : digit c = Some d → 0 ≤ d ≤ 9.
Proof. unfold digit. go. Qed.

Lemma ParseHHMM_range s h m :
  ParseHHMM s = Some (h, m) → 0 ≤ h < 24 ∧ 0 ≤ m < 60.
Proof.
  unfold ParseHHMM, getnum1, getnum2. intros H.
  repeat (case_match; simplify_eq/=);
    repeat match goal with Hd : digit _ = Some _ |- _ => apply digit_range in Hd end;
    bool_to_prop; lia.
Qed.

#[export] Hint Resolve ParseHHMM_range : probak.
