(* ===== verification/GoJson.v ===== *)
(** * What the program uses of [encoding/json] on raw values

    A [json.RawMessage] is the text of one JSON value as the decoder of the request
    left it: valid, without surrounding space, and empty when the field was
    absent.  [Unmarshal_string] and [Unmarshal_bool] decode it into a Go [string]
    or [bool]; [Marshal_raw] is [json.Marshal] of it, which compacts the text and
    escapes the characters HTML would read. *)
From Stdlib Require Import Ascii.
From S2P Require Import Prelude GoStrings GoUtf8.

Abbreviation RawMessage := string (only parsing).

Definition chr (n : Z) : ascii := ascii_of_N (Z.to_N n).

(** [utf8.AppendRune]: surrogates and what is beyond U+10FFFF give U+FFFD. *)
Definition EncodeRune (r : Z) : string :=
  if r <? 0x80 then String (chr r) ""
  else if r <? 0x800 then
    String (chr (0xC0 + r / 64)) (String (chr (0x80 + r mod 64)) "")
  else if ((0xD800 <=? r) && (r <=? 0xDFFF)) || (0x10FFFF <? r) then replacement
  else if r <? 0x10000 then
    String (chr (0xE0 + r / 4096))
      (String (chr (0x80 + r / 64 mod 64)) (String (chr (0x80 + r mod 64)) ""))
  else
    String (chr (0xF0 + r / 262144)) (String (chr (0x80 + r / 4096 mod 64))
      (String (chr (0x80 + r / 64 mod 64)) (String (chr (0x80 + r mod 64)) ""))).

Definition hex_value (c : ascii) : option Z :=
  let n := byte c in
  if (48 <=? n) && (n <=? 57) then Some (n - 48)
  else if (97 <=? n) && (n <=? 102) then Some (n - 87)
  else if (65 <=? n) && (n <=? 70) then Some (n - 55)
  else None.

(** The four digits after [\u]. *)
Definition hex4 (a b c d : ascii) : option Z :=
  a ← hex_value a; b ← hex_value b; c ← hex_value c; d ← hex_value d;
  Some (4096 * a + 256 * b + 16 * c + d).

(** The character a one-letter escape stands for. *)
Definition simple_escape (c : ascii) : option ascii :=
  if bool_decide (c = dquote) then Some dquote
  else if bool_decide (c = "\"%char) then Some "\"%char
  else if bool_decide (c = "/"%char) then Some "/"%char
  else if bool_decide (c = "b"%char) then Some (chr 8)
  else if bool_decide (c = "f"%char) then Some (chr 12)
  else if bool_decide (c = "n"%char) then Some (chr 10)
  else if bool_decide (c = "r"%char) then Some (chr 13)
  else if bool_decide (c = "t"%char) then Some (chr 9)
  else None.

Definition is_high (r : Z) : bool := (0xD800 <=? r) && (r <? 0xDC00).
Definition is_low (r : Z) : bool := (0xDC00 <=? r) && (r <? 0xE000).

(** The escape [\uXXXX] at the head of a string, and what follows it. *)
Definition u_escape (s : string) : option (Z * string) :=
  match s with
  | String e (String u (String a (String b (String c (String d s'))))) =>
      if bool_decide (e = "\"%char) && bool_decide (u = "u"%char)
      then r ← hex4 a b c d; Some (r, s') else None
  | _ => None
  end.

(** The inside of a string literal up to its closing quote, which must end the
    text.  [skip] is the number of bytes still to copy as they are, [drop] of those
    to skip. *)
Fixpoint unquote_from (skip drop : nat) (s : string) : option string :=
  match s with
  | EmptyString => None
  | String c s1 =>
      match drop, skip with
      | S drop, _ => unquote_from skip drop s1
      | O, S skip => String c <$> unquote_from skip O s1
      | O, O =>
          if bool_decide (c = dquote) then
            match s1 with EmptyString => Some "" | _ => None end
          else if bool_decide (c = "\"%char) then
            match u_escape s with
            | Some (r, s') =>
                match (if is_high r then u_escape s' else None) with
                | Some (r2, _) =>
                    if is_low r2
                    then String.app (EncodeRune (0x10000 + (r - 0xD800) * 1024 + (r2 - 0xDC00)))
                           <$> unquote_from O 11 s1
                    else String.app replacement <$> unquote_from O 5 s1
                | None => String.app (EncodeRune r) <$> unquote_from O 5 s1
                end
            | None =>
                match s1 with
                | String e _ => e ← simple_escape e; String e <$> unquote_from O 1 s1
                | EmptyString => None
                end
            end
          else if byte c <? 32 then None
          else if invalid_byte c s1
          then String.app replacement <$> unquote_from O O s1
          else String c <$> unquote_from (rune_tail c s1) O s1
      end
  end.

(** The value and whether it decoded: [null] leaves the zero value. *)
Definition Unmarshal_string (raw : RawMessage) : option string :=
  match raw with
  | String c s => if bool_decide (c = dquote) then unquote_from O O s
                  else if bool_decide (raw = "null") then Some "" else None
  | EmptyString => None
  end.

Definition Unmarshal_bool (raw : RawMessage) : option bool :=
  if bool_decide (raw = "true") then Some true
  else if bool_decide (raw = "false") || bool_decide (raw = "null") then Some false
  else None.

(** [appendCompact] with HTML escapes: [quoted] tells that the byte is inside a
    string literal, [esc] that it follows a backslash. *)
Definition html_escape (c : ascii) : string :=
  if bool_decide (c = "<"%char) then "\u003c"
  else if bool_decide (c = ">"%char) then "\u003e"
  else if bool_decide (c = "&"%char) then "\u0026"
  else String c "".

Fixpoint compact_from (quoted esc : bool) (s : string) : string :=
  match s with
  | EmptyString => ""
  | String c s1 =>
      let quoted' := if bool_decide (c = dquote) && negb esc then negb quoted else quoted in
      let esc' := quoted && negb esc && bool_decide (c = "\"%char) in
      let one := html_escape c +:+ compact_from quoted' esc' s1 in
      if negb quoted && is_ascii_space c then compact_from quoted' esc' s1 else
      match s1 with
      | String b (String d s3) =>
          if (byte c =? 0xE2) && (byte b =? 0x80) && (byte d =? 0xA8)
          then "\u2028" +:+ compact_from quoted false s3
          else if (byte c =? 0xE2) && (byte b =? 0x80) && (byte d =? 0xA9)
          then "\u2029" +:+ compact_from quoted false s3
          else one
      | _ => one
      end
  end.

Definition Marshal_raw (raw : RawMessage) : string :=
  if str_empty raw then "null" else compact_from false false raw.

Example unquote_examples :
  Unmarshal_string (String dquote ("a\u00e9\ud83d\ude00\n" +:+ String dquote "")) =
    Some ("aé😀" +:+ String (chr 10) "") ∧
  Unmarshal_string (String dquote ("\ud83dx" +:+ String dquote "")) =
    Some (replacement +:+ "x") ∧
  Unmarshal_string (String dquote "a") = None ∧
  Marshal_raw "{ 1 : <}" = "{1:\u003c}".
Proof. by vm_compute. Qed.
