(* ===== verification/GoNetip.v ===== *)
(** * IP addresses of Go's [net/netip]

    [ParseAddr], [Prefix], [Contains], [Unmap] and [String] as the package
    defines them.  An IPv6 address is its eight groups of 16 bits. *)
From Stdlib Require Import Ascii.
From Stdlib Require String.
From S2P Require Import Prelude GoStrings.

Inductive Addr : Type :=
| V4 (fields : list Z)
| V6 (groups : list Z) (zone : string).

(** ** Parsing *)

(** [parseIPv4Fields]: [pos] counts the dots, [val] and [digits] are the field
    being read. *)
Fixpoint parse_v4 (s : string) (fields : list Z) (val digits : Z) : option (list Z) :=
  match s with
  | EmptyString =>
      if (Z.of_nat (length fields) =? 3) && (0 <? digits)
      then Some (fields ++ [val]) else None
  | String c s' =>
      match digit c with
      | Some d =>
          if ((digits =? 1) && (val =? 0)) || (255 <? 10 * val + d) then None
          else parse_v4 s' fields (10 * val + d) (digits + 1)
      | None =>
          if bool_decide (c = "."%char) && (0 <? digits) &&
             (Z.of_nat (length fields) <? 3)
          then parse_v4 s' (fields ++ [val]) 0 0 else None
      end
  end.

Definition parseIPv4Fields (s : string) : option (list Z) := parse_v4 s [] 0 0.

Definition hex_value (c : ascii) : option Z :=
  let b := byte c in
  if (48 <=? b) && (b <=? 57) then Some (b - 48)
  else if (97 <=? b) && (b <=? 102) then Some (b - 87)
  else if (65 <=? b) && (b <=? 70) then Some (b - 55)
  else None.

(** The hexadecimal number at the start: its value, its length and the rest; more
    than four digits are refused. *)
Fixpoint scan_hex (s : string) (acc : Z) (off : nat) : option (Z * nat * string) :=
  match s with
  | EmptyString => Some (acc, off, s)
  | String c s' =>
      match hex_value c with
      | None => Some (acc, off, s)
      | Some d => if Nat.ltb 3 off then None else scan_hex s' (16 * acc + d) (S off)
      end
  end.

(** The loop of [parseIPv6]: the groups read, the position of the ellipsis. *)
Fixpoint parse_groups (fuel : nat) (s : string) (groups : list Z)
    (ellipsis : option nat) : option (list Z * option nat) :=
  match fuel with
  | O => if str_empty s then Some (groups, ellipsis) else None
  | S fuel =>
      match scan_hex s 0 O with
      | None => None
      | Some (_, O, _) => None
      | Some (acc, _, String "."%char _) =>
          if (bool_decide (ellipsis = None) && negb (Nat.eqb (length groups) 6)) ||
             Nat.ltb 6 (length groups) then None
          else match parseIPv4Fields s with
               | Some [a; b; c; d] =>
                   Some (groups ++ [256 * a + b; 256 * c + d], ellipsis)
               | _ => None
               end
      | Some (acc, _, EmptyString) => Some (groups ++ [acc], ellipsis)
      | Some (acc, _, String ":"%char s') =>
          match s' with
          | EmptyString => None
          | String ":"%char s'' =>
              if bool_decide (ellipsis ≠ None) then None
              else
                let groups := groups ++ [acc] in
                if str_empty s'' then Some (groups, Some (length groups))
                else parse_groups fuel s'' groups (Some (length groups))
          | _ => parse_groups fuel s' (groups ++ [acc]) ellipsis
          end
      | Some _ => None
      end
  end.

(** The groups with the ellipsis filled in. *)
Definition expand (r : list Z * option nat) : option (list Z) :=
  let '(groups, ellipsis) := r in
  let missing := (8 - length groups)%nat in
  match ellipsis, missing with
  | None, O => Some groups
  | None, _ => None
  | Some _, O => None
  | Some e, _ => Some (take e groups ++ replicate missing 0 ++ drop e groups)
  end.

Fixpoint after_byte (c : ascii) (s : string) : option string :=
  match s with
  | EmptyString => None
  | String a s' => if bool_decide (a = c) then Some s' else after_byte c s'
  end.

Definition parseIPv6 (s : string) : option Addr :=
  match after_byte "%" s with
  | Some EmptyString => None
  | zone =>
      let zone := default EmptyString zone in
      let s := before "%" s in
      match s with
      | String ":"%char (String ":"%char s') =>
          if str_empty s' then Some (V6 (replicate 8 0) zone)
          else match parse_groups 8 s' [] (Some O) with
               | Some r => (λ g, V6 g zone) <$> expand r
               | None => None
               end
      | _ => match parse_groups 8 s [] None with
             | Some r => (λ g, V6 g zone) <$> expand r
             | None => None
             end
      end
  end.

(** The first dot, colon or percent sign decides. *)
Fixpoint first_sep (s : string) : option ascii :=
  match s with
  | EmptyString => None
  | String c s' =>
      if bool_decide (c ∈ ["."%char; ":"%char; "%"%char]) then Some c else first_sep s'
  end.

Definition ParseAddr (s : string) : option Addr :=
  match first_sep s with
  | Some "."%char => V4 <$> parseIPv4Fields s
  | Some ":"%char => parseIPv6 s
  | _ => None
  end.

(** ** Properties of an address *)

Definition Is4In6 (a : Addr) : bool :=
  match a with
  | V6 groups _ => bool_decide (take 6 groups = [0; 0; 0; 0; 0; 0xFFFF])
  | V4 _ => false
  end.

Definition Unmap (a : Addr) : Addr :=
  match a with
  | V6 groups _ =>
      if Is4In6 a then
        let hi := default 0 (groups !! 6%nat) in
        let lo := default 0 (groups !! 7%nat) in
        V4 [hi / 256; hi mod 256; lo / 256; lo mod 256]
      else a
  | V4 _ => a
  end.

(** The address as a number, and its length in bits. *)
Definition addr_value (a : Addr) : Z * Z :=
  match a with
  | V4 fields => (fold_left (λ n f, 256 * n + f) fields 0, 32)
  | V6 groups _ => (fold_left (λ n g, 65536 * n + g) groups 0, 128)
  end.

Record Prefix := { pfx_addr : Addr; pfx_bits : Z }.

Definition has_zone (a : Addr) : bool :=
  match a with V6 _ zone => negb (str_empty zone) | V4 _ => false end.

(** [Prefix.Contains], for a valid prefix. *)
Definition prefix_contains (p : Prefix) (a : Addr) : bool :=
  let '(x, n) := addr_value (pfx_addr p) in
  let '(y, m) := addr_value a in
  negb (has_zone a) && (n =? m) &&
  (Z.shiftr (Z.lxor x y) (n - pfx_bits p) =? 0).

(** ** Text *)

(** Lower-case hexadecimal without leading zeros. *)
Definition append_hex (g : Z) : string :=
  let d n := String (hex_digit ((g / n) mod 16)) EmptyString in
  (if g <? 0x1000 then "" else d 0x1000) +:+ (if g <? 0x100 then "" else d 0x100) +:+
  (if g <? 0x10 then "" else d 0x10) +:+ d 1.

(** The length of the run of zero groups at the start. *)
Fixpoint zero_run (groups : list Z) : nat :=
  match groups with
  | g :: groups => if g =? 0 then S (zero_run groups) else O
  | [] => O
  end.

(** The first longest run of at least two zero groups: its start and length. *)
Fixpoint longest_run (i : nat) (groups : list Z) (best : nat * nat) : nat * nat :=
  match groups with
  | [] => best
  | _ :: rest =>
      let l := zero_run groups in
      longest_run (S i) rest
        (if Nat.leb 2 l && Nat.ltb best.2 l then (i, l) else best)
  end.

Definition join_hex (groups : list Z) : string :=
  match groups with
  | [] => EmptyString
  | g :: groups => fold_left (λ s g, s +:+ String ":" (append_hex g)) groups (append_hex g)
  end.

(** [appendTo6]. *)
Definition v6_string (groups : list Z) : string :=
  match longest_run O groups (O, O) with
  | (_, O) => join_hex groups
  | (start, len) =>
      join_hex (take start groups) +:+ "::" +:+ join_hex (drop (start + len) groups)
  end.

(** [addr.Prefix(64)] of an IPv6 address and its [String]. *)
Definition prefix64_string (groups : list Z) : string :=
  v6_string (take 4 groups ++ [0; 0; 0; 0]) +:+ "/64".

(** ** Lemmas: the text of a /64 prefix *)

Definition hex_fine (g : Z) : bool :=
  match scan_hex (append_hex g) 0 O with
  | Some (g', S _, EmptyString) => (g' =? g) && negb (has_byte ":" (append_hex g))
  | _ => false
  end.

Fixpoint all_from (n : nat) (z : Z) : bool :=
  match n with O => true | S n => hex_fine z && all_from n (z + 1) end.

Lemma all_from_spec n z g : all_from n z = true → z ≤ g < z + Z.of_nat n → hex_fine g = true.
Proof.
  revert z. induction n as [|n IH]; intros z; simpl; [lia|].
  intros [Hz Hn]%andb_true_iff Hg. destruct (decide (g = z)) as [->|]; [done|].
  apply (IH (z + 1)); [done|lia].
Qed.

Lemma all_hex_fine : all_from (Z.to_nat 0x10000) 0 = true.
Proof. vm_compute. reflexivity. Qed.

Definition is_group (g : Z) : Prop := 0 ≤ g < 0x10000.

Lemma group_hex_fine g : is_group g → hex_fine g = true.
Proof. intros Hg. apply (all_from_spec _ 0 g all_hex_fine). unfold is_group in Hg. lia. Qed.

Lemma append_hex_inj g h : is_group g → is_group h → append_hex g = append_hex h → g = h.
Proof.
  intros Hg%group_hex_fine Hh%group_hex_fine Heq. unfold hex_fine in *.
  rewrite Heq in Hg. destruct (scan_hex _ _ _) as [[[v [|n]] [|c s]]|]; try done.
  bool_to_prop. lia.
Qed.

Lemma append_hex_no_colon g : is_group g → has_byte ":" (append_hex g) = false.
Proof.
  intros Hg%group_hex_fine. unfold hex_fine in Hg.
  destruct (scan_hex _ _ _) as [[[v [|n]] [|c s]]|]; try done. by bool_to_prop.
Qed.

Lemma append_hex_not_empty g : is_group g → append_hex g ≠ "".
Proof. intros Hg%group_hex_fine Heq. unfold hex_fine in Hg. by rewrite Heq in Hg. Qed.

(** The groups after the first one, each behind a colon. *)
Definition hex_tail (groups : list Z) : string :=
  foldr (λ g s, String ":" (append_hex g +:+ s)) EmptyString groups.

Lemma join_hex_cons g groups : join_hex (g :: groups) = append_hex g +:+ hex_tail groups.
Proof.
  simpl. generalize (append_hex g) as s.
  induction groups as [|h groups IH]; intros s; simpl; [by rewrite app_nil_r_str|].
  by rewrite IH, app_assoc_str.
Qed.

Lemma hex_tail_cons g l s :
  hex_tail (g :: l) +:+ s = String ":" (append_hex g +:+ (hex_tail l +:+ s)).
Proof. cbn [hex_tail foldr]. by rewrite app_cons_str, app_assoc_str. Qed.

(** What follows a group starts with a colon. *)
Lemma hex_tail_colon l s : ∃ t, hex_tail l +:+ String ":" s = String ":" t.
Proof. destruct l as [|g l]; [by exists s|]. rewrite hex_tail_cons. eauto. Qed.

Lemma append_hex_head g s t : is_group g → append_hex g +:+ s ≠ String ":" t.
Proof.
  intros Hg Heq. pose proof (append_hex_no_colon g Hg) as Hn.
  pose proof (append_hex_not_empty g Hg).
  destruct (append_hex g) as [|c u]; [done|]. rewrite app_cons_str in Heq.
  injection Heq as -> _. by simpl in Hn.
Qed.

Lemma hex_tail_inj l1 l2 s :
  Forall is_group l1 → Forall is_group l2 →
  hex_tail l1 +:+ String ":" (String ":" s) = hex_tail l2 +:+ String ":" (String ":" s) →
  l1 = l2.
Proof.
  intros H1. revert l2. induction H1 as [|g l1 Hg H1 IH]; intros l2 H2.
  - destruct H2 as [|h l2 Hh H2]; [done|]. rewrite hex_tail_cons, app_nil_l_str.
    intros [= Heq]. by destruct (append_hex_head h _ _ Hh (eq_sym Heq)).
  - destruct H2 as [|h l2 Hh H2]; rewrite hex_tail_cons.
    + rewrite app_nil_l_str. intros [= Heq]. by destruct (append_hex_head g _ _ Hg Heq).
    + rewrite hex_tail_cons. intros [= Heq].
      destruct (hex_tail_colon l1 (String ":" s)) as [t1 E1].
      destruct (hex_tail_colon l2 (String ":" s)) as [t2 E2].
      rewrite E1, E2 in Heq.
      apply app_sep_inj in Heq as [Hgh Ht]; [|by apply append_hex_no_colon..].
      apply append_hex_inj in Hgh as ->; [|done..]. f_equal. apply IH; [done|].
      by rewrite E1, E2, Ht.
Qed.

(** The groups of a /64 prefix up to its last nonzero one. *)
Definition lead (a b c d : Z) : list Z :=
  if d =? 0 then if c =? 0 then if b =? 0 then if a =? 0 then [] else [a]
                                else [a; b] else [a; b; c] else [a; b; c; d].

Lemma v6_string_prefix64 a b c d :
  v6_string [a; b; c; d; 0; 0; 0; 0] = join_hex (lead a b c d) +:+ "::".
Proof.
  unfold v6_string, lead. cbn [longest_run zero_run].
  destruct (Z.eqb_spec a 0) as [->|], (Z.eqb_spec b 0) as [->|],
    (Z.eqb_spec c 0) as [->|], (Z.eqb_spec d 0) as [->|];
    cbn [Nat.leb Nat.ltb andb snd fst]; cbn [take drop Nat.add]; done.
Qed.

Lemma lead_inj a b c d a' b' c' d' :
  lead a b c d = lead a' b' c' d' → [a; b; c; d] = [a'; b'; c'; d'].
Proof.
  unfold lead. intros H.
  destruct (Z.eqb_spec d 0), (Z.eqb_spec c 0), (Z.eqb_spec b 0), (Z.eqb_spec a 0),
    (Z.eqb_spec d' 0), (Z.eqb_spec c' 0), (Z.eqb_spec b' 0), (Z.eqb_spec a' 0);
    simplify_eq; done.
Qed.

Lemma lead_groups a b c d :
  Forall is_group [a; b; c; d] → Forall is_group (lead a b c d).
Proof.
  rewrite !Forall_cons. intros (? & ? & ? & ? & _). unfold lead.
  repeat case_match; repeat (constructor; try done).
Qed.

Lemma join_lead_inj l1 l2 s :
  Forall is_group l1 → Forall is_group l2 →
  join_hex l1 +:+ String ":" (String ":" s) = join_hex l2 +:+ String ":" (String ":" s) →
  l1 = l2.
Proof.
  intros H1 H2. destruct H1 as [|g l1 Hg H1], H2 as [|h l2 Hh H2]; [done|..];
    rewrite ?join_hex_cons, ?app_assoc_str, ?app_nil_l_str; intros Heq.
  - by destruct (append_hex_head h _ _ Hh (eq_sym Heq)).
  - by destruct (append_hex_head g _ _ Hg Heq).
  - destruct (hex_tail_colon l1 (String ":" s)) as [t1 E1].
    destruct (hex_tail_colon l2 (String ":" s)) as [t2 E2].
    rewrite E1, E2 in Heq.
    apply app_sep_inj in Heq as [Hgh Ht]; [|by apply append_hex_no_colon..].
    apply append_hex_inj in Hgh as ->; [|done..]. f_equal.
    apply (hex_tail_inj _ _ s); [done..|]. by rewrite E1, E2, Ht.
Qed.

(** The text determines the first 64 bits. *)
Lemma prefix64_string_inj g h :
  length g = 8%nat → length h = 8%nat → Forall is_group g → Forall is_group h →
  prefix64_string g = prefix64_string h ↔ take 4 g = take 4 h.
Proof.
  intros Hlg Hlh Hg Hh. unfold prefix64_string. split; [|by intros ->].
  destruct g as [|a [|b [|c [|d g]]]]; try done.
  destruct h as [|a' [|b' [|c' [|d' h]]]]; try done. cbn [take app].
  rewrite !v6_string_prefix64, !app_assoc_str.
  change ("::" +:+ "/64") with (String ":" (String ":" "/64")). intros Heq.
  apply lead_inj. apply (join_lead_inj _ _ "/64"); [..|exact Heq]; apply lead_groups;
    [by apply (Forall_app is_group [a; b; c; d] g)
    |by apply (Forall_app is_group [a'; b'; c'; d'] h)].
Qed.

(** ** Lemmas: what the parser accepts is an address *)

Lemma hex_value_range c d : hex_value c = Some d → 0 ≤ d < 16.
Proof. unfold hex_value. go. Qed.

Lemma scan_hex_range s acc off v n t :
  scan_hex s acc off = Some (v, n, t) → (off ≤ 4)%nat →
  0 ≤ acc < 16 ^ Z.of_nat off → 0 ≤ v < 16 ^ Z.of_nat n ∧ (n ≤ 4)%nat.
Proof.
  revert acc off. induction s as [|c s IH]; intros acc off; simpl; [by intros [= <- <- <-]|].
  destruct (hex_value c) as [d|] eqn:Hd; [|by intros [= <- <- <-]].
  destruct (Nat.ltb_spec 3 off); [done|]. intros Hs Hoff Hacc. eapply IH; [done|lia|].
  apply hex_value_range in Hd. rewrite Nat2Z.inj_succ, Z.pow_succ_r by lia. lia.
Qed.

Lemma scan_hex_group s v n t : scan_hex s 0 O = Some (v, n, t) → is_group v.
Proof.
  intros H. apply scan_hex_range in H as [Hv Hn]; [|lia|simpl; lia]. unfold is_group.
  assert (16 ^ Z.of_nat n ≤ 16 ^ 4) by (apply Z.pow_le_mono_r; lia). lia.
Qed.

Lemma Forall_snoc {A} (P : A → Prop) l x : Forall P l → P x → Forall P (l ++ [x]).
Proof. intros Hl Hx. apply Forall_app. split; [done|]. by constructor. Qed.

Definition is_octet (z : Z) : Prop := 0 ≤ z < 256.

Lemma octet_digit_range c d : digit c = Some d → 0 ≤ d < 10.
Proof. unfold digit. go. Qed.

Lemma parse_v4_octets s fields val digits l :
  parse_v4 s fields val digits = Some l → Forall is_octet fields → is_octet val →
  Forall is_octet l.
Proof.
  revert fields val digits. induction s as [|c s IH]; intros fields val digits; simpl.
  - case_match; [|done]. intros [= <-] Hf Hv. by apply Forall_snoc.
  - destruct (digit c) as [d|] eqn:Hd.
    + case_match; [done|]. intros Hs Hf Hv. apply (IH _ _ _ Hs); [done|].
      apply octet_digit_range in Hd. unfold is_octet in *. bool_to_prop. lia.
    + case_match; [|done]. intros Hs Hf Hv. apply (IH _ _ _ Hs); [|by unfold is_octet].
      by apply Forall_snoc.
Qed.

Lemma octets_groups s a b c d :
  parseIPv4Fields s = Some [a; b; c; d] →
  is_group (256 * a + b) ∧ is_group (256 * c + d).
Proof.
  intros H. apply parse_v4_octets in H; [|constructor|by unfold is_octet].
  rewrite !Forall_cons in H. unfold is_octet, is_group in *. lia.
Qed.

Lemma parse_groups_range fuel s groups e g e' :
  parse_groups fuel s groups e = Some (g, e') → Forall is_group groups →
  (fuel + length groups = 8)%nat → Forall is_group g ∧ (length g ≤ 8)%nat.
Proof.
  revert s groups e. induction fuel as [|fuel IH]; intros s groups e.
  { simpl. case_match; [|done]. intros [= <- <-] Hg Hl. split; [done|lia]. }
  cbn [parse_groups].
  destruct (scan_hex s 0 O) as [[[v [|n]] t]|] eqn:Hs; try done.
  apply scan_hex_group in Hs. intros Hp Hg Hl.
  pose proof (Forall_snoc _ _ _ Hg Hs) as Hgv.
  assert (length (groups ++ [v]) = S (length groups)) as Hlen
    by (rewrite length_app; simpl; lia).
  repeat case_match; simplify_eq; try (split; [done|lia]);
    try (eapply IH; [done|done|lia]).
  match goal with H : _ || _ = false |- _ => apply orb_false_iff in H as [_ H6%Nat.ltb_ge] end.
  match goal with H : parseIPv4Fields _ = _ |- _ => apply octets_groups in H as [? ?] end.
  split; [|rewrite length_app; simpl; lia].
  apply Forall_app. split; [done|]. by repeat (constructor; try done).
Qed.

Lemma expand_range r g :
  expand r = Some g → Forall is_group r.1 → (length r.1 ≤ 8)%nat →
  Forall is_group g ∧ length g = 8%nat.
Proof.
  destruct r as [l [e|]]; unfold expand; cbn [fst]; intros H Hl Hn.
  - destruct (8 - length l)%nat as [|m] eqn:Hm; [done|]. injection H as <-.
    change (0 :: replicate m 0 ++ drop e l)
      with (replicate (S m) 0 ++ drop e l). rewrite <-Hm. split.
    + apply Forall_app. split; [by apply Forall_take|]. apply Forall_app.
      split; [by apply Forall_replicate|by apply Forall_drop].
    + rewrite !length_app, length_take, length_replicate, length_drop. lia.
  - destruct (8 - length l)%nat as [|m] eqn:Hm; [|done]. injection H as <-.
    split; [done|lia].
Qed.

(** A parsed IPv6 address has eight groups of 16 bits. *)
Lemma ParseAddr_groups s g zone :
  ParseAddr s = Some (V6 g zone) → Forall is_group g ∧ length g = 8%nat.
Proof.
  assert (∀ s e z, match parse_groups 8 s [] e with
    | Some r => (λ g, V6 g z) <$> expand r | None => None end = Some (V6 g zone) →
    Forall is_group g ∧ length g = 8%nat) as Hgroups.
  { intros t e z H. destruct (parse_groups 8 t [] e) as [[l e']|] eqn:Hp; [|done].
    apply parse_groups_range in Hp as [Hf Hl]; [|constructor|done].
    apply fmap_Some in H as (g' & Hx & [= <- <-]). by apply (expand_range (l, e')). }
  unfold ParseAddr. destruct (first_sep s) as [c|]; [|done].
  assert (∀ f : Prop, V4 <$> parseIPv4Fields s = Some (V6 g zone) → f) as Hv4.
  { intros f H. by apply fmap_Some in H as (? & _ & ?). }
  assert (parseIPv6 s = Some (V6 g zone) → Forall is_group g ∧ length g = 8%nat) as Hv6.
  { unfold parseIPv6. intros H.
    repeat first [done | by eapply Hgroups | case_match];
      injection H as <- _; by repeat (constructor; try done). }
  intros H. repeat first [done | by apply Hv4 | by apply Hv6 | case_match].
Qed.
