(* ===== verification/Domain.v ===== *)
(** * The domain model: [internal/domain]

    The records of [models.go] with their fields, the zero value of each record
    a map lookup can miss, and the functions of [models.go], [schedule.go],
    [format.go] and [pve_copies.go].  A pointer field is an [option]. *)
From Stdlib Require Import Ascii.
From stdpp Require Import sorting.
From S2P Require Import Prelude GoStrings GoNum GoTime.

(** The value a Go map lookup gives for a missing key. *)
Class Zero (A : Type) := zero : A.

Definition get {A} `{!Zero A} (m : gmap Z A) (k : Z) : A := default zero (m !! k).

#[export] Instance list_zero A : Zero (list A) := [].

(** ** PVE *)

Record PVEServer := {
  pves_ID : Z; pves_Name : string; pves_DisplayName : string; pves_IP : string;
  pves_PublicIP : string; pves_ClientVersion : string; pves_MachineID : string;
  pves_APIKeyID : Z; pves_BackupInventoryKnown : bool; pves_HasBackupVMs : bool;
  pves_IsDeleted : bool; pves_CreatedAt : Time; pves_UpdatedAt : Time }.

Record PVEReport := {
  pver_ID : Z; pver_ServerID : Z; pver_ReportedAt : Time; pver_IsStale : bool;
  pver_StaleReason : string; pver_BackupStatus : string;
  pver_BackupStarttime : Z; pver_BackupEndtime : Z; pver_BackupDuration : Z;
  pver_SwapTotal : Z; pver_SwapUsed : Z; pver_SwapEnabled : bool }.

Record PVEStorage := {
  stg_ID : Z; stg_ReportID : Z; stg_Storage : string; stg_Path : string;
  stg_Content : string; stg_Type : string; stg_Status : string;
  stg_Shared : bool; stg_Server : string; stg_Digest : string;
  stg_PruneBackups : string }.

Record PVEStorageInfo := {
  info_ID : Z; info_StorageID : Z; info_Total : Z; info_Used : Z;
  info_Avail : Z; info_UsedPct : float64; info_Active : bool;
  info_Enabled : bool; info_Lvl : Z }.

Record PVEStorageContent := {
  cnt_ID : Z; cnt_StorageID : Z; cnt_VMID : Z; cnt_Format : string;
  cnt_Size : Z; cnt_Content : string; cnt_VolID : string; cnt_CTime : Z;
  cnt_Subtype : string; cnt_Notes : string; cnt_Verification : string }.

Record PVEBackupTask := {
  task_ID : Z; task_ReportID : Z; task_VMID : Z; task_VMName : string;
  task_Status : string; task_StartTime : Z; task_EndTime : Z;
  task_Duration : Z; task_Size : Z; task_Filename : string }.

(** ** PBS *)

Record PBSServer := {
  pbss_ID : Z; pbss_Name : string; pbss_DisplayName : string; pbss_IP : string;
  pbss_PublicIP : string; pbss_ClientVersion : string; pbss_MachineID : string;
  pbss_APIKeyID : Z; pbss_IsDeleted : bool; pbss_CreatedAt : Time;
  pbss_UpdatedAt : Time }.

Record PBSReport := {
  pbsr_ID : Z; pbsr_ServerID : Z; pbsr_ReportedAt : Time; pbsr_IsStale : bool;
  pbsr_StaleReason : string; pbsr_SwapTotal : Z; pbsr_SwapUsed : Z;
  pbsr_SwapEnabled : bool }.

Record HostSwap := { sw_Total : Z; sw_Used : Z; sw_Enabled : bool }.

Record PBSStore := {
  ds_ID : Z; ds_ReportID : Z; ds_Store : string; ds_Total : Z; ds_Used : Z;
  ds_Avail : Z; ds_EstimatedFullDate : Z; ds_MountStatus : string;
  ds_HistoryStart : Z; ds_HistoryDelta : Z }.

Record PBSSnapshot := {
  sn_ID : Z; sn_StoreID : Z; sn_BackupType : string; sn_BackupID : string;
  sn_LastBackup : Z; sn_BackupCount : Z; sn_Owner : string;
  sn_Comment : string; sn_VerificationState : string; sn_Size : Z }.

Record PBSTask := {
  ptask_ID : Z; ptask_ReportID : Z; ptask_TaskType : string;
  ptask_JobID : string; ptask_Remote : string; ptask_RemoteStore : string;
  ptask_Store : string; ptask_Status : string; ptask_StartTime : Z;
  ptask_EndTime : Z; ptask_UPID : string }.

(** ** Windows *)

Record WindowsServer := {
  wins_ID : Z; wins_Name : string; wins_DisplayName : string; wins_IP : string;
  wins_PublicIP : string; wins_ClientVersion : string; wins_MachineID : string;
  wins_APIKeyID : Z; wins_IsDeleted : bool; wins_CreatedAt : Time;
  wins_UpdatedAt : Time }.

Record WindowsReport := {
  winr_ID : Z; winr_ServerID : Z; winr_ReportedAt : Time; winr_IsStale : bool }.

Record WindowsDisk := {
  disk_ID : Z; disk_ReportID : Z; disk_Name : string; disk_Label : string;
  disk_FileSystem : string; disk_DriveType : string; disk_Total : Z;
  disk_Used : Z; disk_Free : Z; disk_Health : string }.

(** ** Heartbeats, backup schedules, configuration *)

Record ServerHeartbeat := {
  hb_ID : Z; hb_ServerType : string; hb_ServerID : Z; hb_Hostname : string;
  hb_IP : string; hb_PublicIP : string; hb_ClientVersion : string;
  hb_MachineID : string; hb_SwapTotal : Z; hb_SwapUsed : Z;
  hb_SwapEnabled : bool; hb_SwapReported : bool; hb_LastSeenAt : Time;
  hb_CreatedAt : Time; hb_UpdatedAt : Time }.

#[export] Instance ServerHeartbeat_zero : Zero ServerHeartbeat :=
  Build_ServerHeartbeat 0 "" 0 "" "" "" "" "" 0 0 false false
    zeroTime zeroTime zeroTime.

Record VMBackupConfig := {
  vm_ID : Z; vm_ServerName : string; vm_VMID : string; vm_VMName : string;
  vm_Monday : bool; vm_Tuesday : bool; vm_Wednesday : bool;
  vm_Thursday : bool; vm_Friday : bool; vm_Saturday : bool; vm_Sunday : bool;
  vm_IsExcluded : bool; vm_IsDeleted : bool; vm_DeletedAt : option Time;
  vm_CreatedAt : Time }.

Record EmailConfig := {
  ec_ID : Z; ec_SMTPHost : string; ec_SMTPPort : Z; ec_SMTPUser : string;
  ec_SMTPPass : string; ec_Recipients : string; ec_IsEnabled : bool;
  ec_SendTime : string; ec_RetentionMonths : Z; ec_RetentionEnabled : bool;
  ec_AlertDiskPct : Z; ec_AlertWindowsDiskPct : Z; ec_AlertBackupErr : bool;
  ec_AlertPBSStaleHours : Z; ec_AlertPVEExpectedFinishTime : string;
  ec_PublicAPIURL : string; ec_VPNOnlyAccess : bool;
  ec_AlertPVEHeartbeatMinutes : Z; ec_AlertEmailBatchMinutes : Z;
  ec_CriticalAlertsEnabled : bool; ec_EnforceTOTPNonReaders : bool;
  ec_SensitiveActionsRequireTOTP : bool }.

Record TelegramDestination := {
  tgd_ID : Z; tgd_UserID : Z; tgd_Username : string; tgd_UserIsActive : bool;
  tgd_ChatID : string; tgd_ChatTitle : string; tgd_ChatType : string;
  tgd_CreatedAt : Time; tgd_UpdatedAt : Time }.

Definition TelegramDestination_DisplayName (d : TelegramDestination) : string :=
  if bool_decide (tgd_ChatTitle d ≠ "") then tgd_ChatTitle d else tgd_ChatID d.

Record ServerMaintenance := {
  mt_ServerType : string; mt_ServerID : Z; mt_Until : Time;
  mt_Reason : string; mt_Active : bool }.

(** ** Alerts *)

Record Alert := {
  al_ID : string; al_ServerName : string; al_ServerID : Z;
  al_ServerType : string; al_StoreName : string; al_VMID : Z;
  al_VMName : string; al_Type : string; al_Severity : string;
  al_Title : string; al_Message : string; al_Value : string;
  al_Threshold : string; al_DetectedAt : Time }.

#[export] Instance Alert_eq_dec : EqDecision Alert.
Proof. solve_decision. Defined.

Record AlertStateEvent := {
  ev_ID : Z; ev_AlertID : string; ev_EventType : string;
  ev_Severity : string; ev_Title : string; ev_Message : string;
  ev_ServerName : string; ev_ServerType : string; ev_ServerID : Z;
  ev_StoreName : string; ev_VMID : Z; ev_VMName : string; ev_Note : string;
  ev_CreatedAt : Time }.

Definition AlertTypeDisk : string := "disk".
Definition AlertTypeBackupError : string := "backup_error".
Definition AlertTypeBackupSize : string := "backup_size".
Definition AlertTypePBSFill : string := "pbs_fill".
Definition AlertTypePBSStale : string := "pbs_stale".
Definition AlertTypePBSVerify : string := "pbs_verify".
Definition AlertTypePBSSyncFailed : string := "pbs_sync_failed".
Definition AlertTypePBSGCFailed : string := "pbs_gc_failed".
Definition AlertTypePVEStale : string := "pve_stale".
Definition AlertTypePVEHeartbeat : string := "pve_heartbeat".
Definition AlertTypePBSReportStale : string := "pbs_report_stale".
Definition AlertTypePBSHeartbeat : string := "pbs_heartbeat".
Definition AlertTypePVEMissingVM : string := "pve_missing_vm".
Definition AlertTypePVEUnknownVM : string := "pve_unknown_vm".
Definition AlertTypeSwap : string := "swap".
Definition AlertTypeWindowsHeartbeat : string := "windows_heartbeat".
Definition AlertTypeWindowsDiskHealth : string := "windows_disk_health".
Definition AlertTypeWindowsVolumeGone : string := "windows_volume_missing".

Definition AlertSeverityCritical : string := "critical".
Definition AlertSeverityWarning : string := "warning".

(** ** Per-server alert configuration: [None] inherits the global value *)

Record PVEAlertConfig := {
  pac_ServerID : Z; pac_DiskPct : option Z; pac_StaleHours : option Z;
  pac_BackupErr : option Z; pac_ExpectedFinishTime : option string;
  pac_SwapAlert : option Z }.

#[export] Instance PVEAlertConfig_zero : Zero PVEAlertConfig :=
  Build_PVEAlertConfig 0 None None None None None.

Record PVEVMAlertConfig := {
  vac_ID : Z; vac_ServerID : Z; vac_VMID : Z; vac_BackupErr : option Z;
  vac_MinSizeMB : option Z }.

Record PBSAlertConfig := {
  bac_ServerID : Z; bac_DiskPct : option Z; bac_DaysUntilFull : option Z;
  bac_StaleHours : option Z; bac_VerifyAlert : bool;
  bac_SwapAlert : option Z }.

#[export] Instance PBSAlertConfig_zero : Zero PBSAlertConfig :=
  Build_PBSAlertConfig 0 None None None false None.

Record WindowsAlertConfig := { wac_ServerID : Z; wac_DiskPct : option Z }.

#[export] Instance WindowsAlertConfig_zero : Zero WindowsAlertConfig :=
  Build_WindowsAlertConfig 0 None.

(** ** [models.go]: task and status predicates *)

Definition PBSTaskFailed (task : PBSTask) : bool :=
  let status := ToLower (TrimSpace (ptask_Status task)) in
  Contains status "error" || Contains status "fail".

Definition PVEBackupStatusOK (status : string) : bool :=
  EqualFold (TrimSpace status) "OK".

Definition PVEBackupStatusWarning (status : string) : bool :=
  HasPrefix (ToUpper (TrimSpace status)) "WARNING".

(** The loop of [PVEBackupStatusSummary] over the tasks, with the variable
    [warning]: [inl] is an early return. *)
Fixpoint summary_loop (warning : string) (tasks : list PVEBackupTask) :
    string + string :=
  match tasks with
  | [] => inr warning
  | task :: tasks' =>
      let status := TrimSpace (task_Status task) in
      if PVEBackupStatusOK status then summary_loop warning tasks'
      else if PVEBackupStatusWarning status then
        summary_loop (if str_empty warning then status else warning) tasks'
      else if str_empty status then inl "ERROR" else inl status
  end.

Definition PVEBackupStatusSummary (tasks : list PVEBackupTask)
    (fallback : string) : string :=
  match tasks with
  | [] => TrimSpace fallback
  | _ =>
      match summary_loop "" tasks with
      | inl status => status
      | inr warning => if str_empty warning then "OK" else warning
      end
  end.

(** ** [schedule.go] *)

Definition pveReportLeadTime : Duration := 5 * Minute.

Definition DefaultPVEExpectedFinishTime (sendTime : string) : string :=
  let '(h, m) := default (8, 0) (ParseHHMM sendTime) in
  let t := AddDur (UnixTime (h * 3600 + m * 60)) (- pveReportLeadTime) in
  let clock := local_sec UTC t mod 86400 in
  FormatHHMM (clock / 3600) (clock mod 3600 / 60).

Definition VMScheduledForDay (c : VMBackupConfig) (day : Z) : bool :=
  if day =? 1 then vm_Monday c
  else if day =? 2 then vm_Tuesday c
  else if day =? 3 then vm_Wednesday c
  else if day =? 4 then vm_Thursday c
  else if day =? 5 then vm_Friday c
  else if day =? 6 then vm_Saturday c
  else if day =? 0 then vm_Sunday c
  else false.

Definition VMHasAnyScheduledDay (c : VMBackupConfig) : bool :=
  vm_Monday c || vm_Tuesday c || vm_Wednesday c || vm_Thursday c ||
  vm_Friday c || vm_Saturday c || vm_Sunday c.

Definition HasActiveVMBackupConfigs (configs : list VMBackupConfig) : bool :=
  existsb (λ c, negb (vm_IsExcluded c) && VMHasAnyScheduledDay c) configs.

Definition PVEStaleSuppressed (configs : list VMBackupConfig)
    (cfg : PVEAlertConfig) (noVMsConfirmed : bool) : bool :=
  if bool_decide (pac_StaleHours cfg = Some 0) then true
  else if noVMsConfirmed then true
  else negb (is_nil configs) && negb (HasActiveVMBackupConfigs configs).

(** ** [format.go] *)

(** The loop [for n := b / unit; n >= unit; n /= unit]. *)
Fixpoint format_loop (fuel : nat) (n div exp : Z) : option (Z * Z) :=
  match fuel with
  | O => None
  | S fuel =>
      if 1000 <=? n
      then format_loop fuel (n / 1000) (wrap64 (div * 1000)) (exp + 1)
      else Some (div, exp)
  end.

(** [None] is a run-time panic: the index into ["KMGTPE"] is out of range. *)
Definition format_bytes (b : Z) : option string :=
  if b <=? 0 then Some "–"
  else if b <? 1000 then Some (Itoa b +:+ " B")
  else
    '(div, exp) ← format_loop 7 (b / 1000) 1000 0;
    unit ← String.get (Z.to_nat exp) "KMGTPE";
    Some (Sprintf_2f (fdiv (Float b) (Float div)) +:+ " " +:+
          String unit "" +:+ "B").

Definition FormatBytes (b : Z) : string := default "" (format_bytes b).

(** ** [pve_copies.go] *)

Record PVEVMCopies := {
  cp_VMID : Z; cp_VMName : string; cp_PBS : Z; cp_Vzdump : Z; cp_Total : Z }.

Definition bump_row (pbs : bool) (row : PVEVMCopies) : PVEVMCopies :=
  {| cp_VMID := cp_VMID row; cp_VMName := cp_VMName row;
     cp_PBS := if pbs then cp_PBS row + 1 else cp_PBS row;
     cp_Vzdump := if pbs then cp_Vzdump row else cp_Vzdump row + 1;
     cp_Total := cp_Total row + 1 |}.

(** The body of the inner loop, on [byVM] and the storage's [seen]. *)
Definition copies_item (pbs : bool) (st : gmap Z PVEVMCopies * gset string)
    (item : PVEStorageContent) : gmap Z PVEVMCopies * gset string :=
  let '(byVM, seen) := st in
  if bool_decide (cnt_Content item ≠ "backup") || (cnt_VMID item <=? 0) then st
  else if negb (str_empty (cnt_VolID item)) && bool_decide (cnt_VolID item ∈ seen)
  then st
  else
    let seen := if str_empty (cnt_VolID item) then seen
                else {[cnt_VolID item]} ∪ seen in
    let row := default (Build_PVEVMCopies (cnt_VMID item) "" 0 0 0)
                 (byVM !! cnt_VMID item) in
    (<[cnt_VMID item := bump_row pbs row]> byVM, seen).

Definition copies_storage (contents : gmap Z (list PVEStorageContent))
    (byVM : gmap Z PVEVMCopies) (storage : PVEStorage) : gmap Z PVEVMCopies :=
  (fold_left (copies_item (bool_decide (stg_Type storage = "pbs")))
    (get contents (stg_ID storage)) (byVM, ∅)).1.

Definition vmid_le (r1 r2 : PVEVMCopies) : Prop := cp_VMID r1 ≤ cp_VMID r2.

#[export] Instance vmid_le_dec : RelDecision vmid_le.
Proof. intros r1 r2. apply Z.le_dec. Defined.

Definition CountPVEVMCopies `{!MapRange} (storages : list PVEStorage)
    (contents : gmap Z (list PVEStorageContent)) : list PVEVMCopies :=
  let byVM := fold_left (copies_storage contents) storages ∅ in
  merge_sort vmid_le (range byVM).*2.

(** ** Reference definitions for the theorems *)

(** A task whose status is neither OK nor a warning. *)
Definition task_failed (t : PVEBackupTask) : bool :=
  let s := TrimSpace (task_Status t) in
  negb (PVEBackupStatusOK s) && negb (PVEBackupStatusWarning s).

Definition task_warned (t : PVEBackupTask) : bool :=
  let s := TrimSpace (task_Status t) in
  negb (PVEBackupStatusOK s) && PVEBackupStatusWarning s.

(** The backup entries of one storage that count, each volume once. *)
Fixpoint kept_items (seen : gset string) (items : list PVEStorageContent) :
    list PVEStorageContent :=
  match items with
  | [] => []
  | item :: items' =>
      if decide (cnt_Content item = "backup" ∧ 0 < cnt_VMID item ∧
                 (cnt_VolID item = "" ∨ cnt_VolID item ∉ seen))
      then item :: kept_items
             (if decide (cnt_VolID item = "") then seen
              else {[cnt_VolID item]} ∪ seen) items'
      else kept_items seen items'
  end.

Definition storage_copies (contents : gmap Z (list PVEStorageContent))
    (storage : PVEStorage) : list (bool * Z) :=
  (λ item, (bool_decide (stg_Type storage = "pbs"), cnt_VMID item)) <$>
    kept_items ∅ (get contents (stg_ID storage)).

(** Every retained copy: whether a PBS storage holds it, and its VM. *)
Definition all_copies (storages : list PVEStorage)
    (contents : gmap Z (list PVEStorageContent)) : list (bool * Z) :=
  flat_map (storage_copies contents) storages.

Definition copy_count (pbs : bool) (vmid : Z) (copies : list (bool * Z)) : Z :=
  Z.of_nat (length (filter (λ c, c = (pbs, vmid)) copies)).

Definition row_of (copies : list (bool * Z)) (vmid : Z) : PVEVMCopies :=
  let p := copy_count true vmid copies in
  let v := copy_count false vmid copies in
  {| cp_VMID := vmid; cp_VMName := ""; cp_PBS := p; cp_Vzdump := v;
     cp_Total := p + v |}.

(** ** Lemmas: status summary *)

Lemma summary_loop_spec tasks w :
  summary_loop w tasks =
  match find task_failed tasks with
  | Some t => inl (if str_empty (TrimSpace (task_Status t)) then "ERROR"
                   else TrimSpace (task_Status t))
  | None => inr (if str_empty w then
                   match find task_warned tasks with
                   | Some t => TrimSpace (task_Status t)
                   | None => w
                   end
                 else w)
  end.
Proof.
  revert w. induction tasks as [|t tasks IH]; intros w; simpl.
  { by destruct (str_empty w). }
  unfold task_failed at 1, task_warned at 1.
  destruct (PVEBackupStatusOK _) eqn:Hok; simpl; [by rewrite IH|].
  destruct (PVEBackupStatusWarning _) eqn:Hw; simpl; [|by destruct (str_empty _)].
  rewrite IH. destruct (str_empty w) eqn:He; [|by rewrite He].
  destruct (str_empty (TrimSpace (task_Status t))) eqn:Ht; [|done].
  unfold str_empty in Ht. apply bool_decide_eq_true in Ht.
  rewrite Ht in Hw. done.
Qed.

(** ** Lemmas: byte formatting *)

Lemma format_loop_spec fuel n k b :
  1 ≤ k → k + Z.of_nat fuel = 8 → n = b / 1000^k → 1000^k ≤ b → b ≤ MaxInt64 →
  ∃ j, k ≤ j ≤ 6 ∧ 1000^j ≤ b < 1000^(j + 1) ∧
       format_loop fuel n (1000^k) (k - 1) = Some (1000^j, j - 1).
Proof.
  revert n k. induction fuel as [|fuel IH]; intros n k Hk Hf Hn Hlo Hb.
  { assert (k = 8) as -> by lia. unfold MaxInt64 in Hb. lia. }
  assert (0 < 1000^k) as Hpos by (apply Z.pow_pos_nonneg; lia).
  assert (1000^(k + 1) = 1000^k * 1000) as Hs
    by (rewrite Z.pow_add_r by lia; done).
  simpl. destruct (1000 <=? n) eqn:Hc; bool_to_prop.
  - assert (1000^(k + 1) ≤ b) as Hlo'.
    { rewrite Hs. subst n.
      pose proof (Z.mul_div_le b (1000^k) Hpos). nia. }
    assert (k ≤ 5) as Hk5.
    { destruct (decide (k ≤ 5)) as [|Hgt]; [done|].
      assert (1000^7 ≤ 1000^(k + 1)) by (apply Z.pow_le_mono_r; lia).
      unfold MaxInt64 in Hb. lia. }
    assert (1000^(k + 1) ≤ 1000^6) by (apply Z.pow_le_mono_r; lia).
    rewrite <-Hs, wrap64_id by (unfold in_int64, MinInt64, MaxInt64; lia).
    replace (k - 1 + 1) with (k + 1 - 1) by lia.
    destruct (IH (n / 1000) (k + 1)) as (j & Hj & Hjb & Heq); try lia.
    { subst n. rewrite Hs, Z.div_div by lia. done. }
    exists j. split_and!; try lia. done.
  - exists k. split_and!; try lia.
    + destruct (decide (k ≤ 6)) as [|Hgt]; [done|].
      assert (1000^7 ≤ 1000^k) by (apply Z.pow_le_mono_r; lia).
      unfold MaxInt64 in Hb. lia.
    + rewrite Hs. subst n. pose proof (Z.mod_pos_bound b (1000^k) Hpos).
      pose proof (Z.div_mod b (1000^k)). nia.
    + done.
Qed.

(** ** Lemmas: retained copies *)

Lemma copy_count_cons b v c l :
  copy_count b v (c :: l) =
  (if decide (c = (b, v)) then 1 else 0) + copy_count b v l.
Proof. unfold copy_count. rewrite filter_cons. case_decide; simpl; lia. Qed.

Lemma copy_count_app b v l1 l2 :
  copy_count b v (l1 ++ l2) = copy_count b v l1 + copy_count b v l2.
Proof. unfold copy_count. rewrite filter_app, length_app. lia. Qed.

Lemma copy_count_nonneg b v l : 0 ≤ copy_count b v l.
Proof. unfold copy_count. lia. Qed.

(** What [byVM] holds once the copies [l] have been counted. *)
Definition tallied (l : list (bool * Z)) (byVM : gmap Z PVEVMCopies) : Prop :=
  ∀ v, byVM !! v =
    if decide (0 < cp_Total (row_of l v)) then Some (row_of l v) else None.

Lemma tallied_bump l byVM b v :
  tallied l byVM →
  tallied (l ++ [(b, v)])
    (<[v := bump_row b (default (Build_PVEVMCopies v "" 0 0 0) (byVM !! v))]> byVM).
Proof.
  intros Ht w. specialize (Ht w) as Hw.
  pose proof (copy_count_nonneg true w l). pose proof (copy_count_nonneg false w l).
  unfold row_of in *. cbn [cp_Total] in *.
  rewrite !copy_count_app, !copy_count_cons.
  change (copy_count true w []) with 0. change (copy_count false w []) with 0.
  destruct (decide (v = w)) as [->|Hne].
  - rewrite lookup_insert_eq, Hw. clear Hw Ht.
    assert (∀ b' : bool, (if decide ((b, w) = (b', w)) then 1 else 0) =
                         if eqb b b' then 1 else 0) as Hb.
    { intros b'. case_decide; destruct b, b'; naive_solver. }
    rewrite !Hb. rewrite (decide_True (P := _ < _ + (_ + 0) + _))
      by (destruct b; simpl; lia).
    f_equal. case_decide; destruct b; unfold bump_row; simpl; f_equal; lia.
  - rewrite lookup_insert_ne, Hw by done.
    rewrite !(decide_False (P := (b, v) = _)) by congruence.
    by rewrite !Z.add_0_l, !Z.add_0_r.
Qed.

Lemma copies_items_tallied pbs items l byVM seen :
  tallied l byVM →
  tallied (l ++ ((λ item, (pbs, cnt_VMID item)) <$> kept_items seen items))
    (fold_left (copies_item pbs) items (byVM, seen)).1.
Proof.
  revert l byVM seen. induction items as [|item items IH]; intros l byVM seen Ht.
  { simpl. by rewrite app_nil_r. }
  simpl. unfold str_empty. destruct (decide _) as [(Hc & Hv & Hs)|Hno].
  - rewrite (bool_decide_false (cnt_Content item ≠ "backup")) by tauto.
    rewrite (proj2 (Z.leb_gt (cnt_VMID item) 0)) by lia. simpl.
    assert (negb (bool_decide (cnt_VolID item = "")) &&
            bool_decide (cnt_VolID item ∈ seen) = false) as ->.
    { apply andb_false_iff. destruct Hs as [Hs|Hs].
      - left. by rewrite bool_decide_true.
      - right. by rewrite bool_decide_false. }
    rewrite cons_middle, app_assoc.
    rewrite (bool_decide_decide (cnt_VolID item = "")).
    destruct (decide (cnt_VolID item = "")); apply IH; by apply tallied_bump.
  - assert (bool_decide (cnt_Content item ≠ "backup") || (cnt_VMID item <=? 0) ||
            negb (bool_decide (cnt_VolID item = "")) &&
            bool_decide (cnt_VolID item ∈ seen) = true) as Hskip.
    { repeat case_bool_decide; simpl; try done;
        destruct (Z.leb_spec (cnt_VMID item) 0); simpl; try done;
        exfalso; apply Hno; naive_solver lia. }
    destruct (bool_decide (cnt_Content item ≠ "backup") || (cnt_VMID item <=? 0));
      [by apply IH|].
    rewrite orb_false_l in Hskip. rewrite Hskip. by apply IH.
Qed.

Lemma copies_storages_tallied storages contents l byVM :
  tallied l byVM →
  tallied (l ++ all_copies storages contents)
    (fold_left (copies_storage contents) storages byVM).
Proof.
  revert l byVM. induction storages as [|s ss IH]; intros l byVM Ht.
  { simpl. by rewrite app_nil_r. }
  simpl. rewrite app_assoc. apply IH. by apply copies_items_tallied.
Qed.

(** ** Properties *)

(** the overall status of a job is the status of its first failed task
    ("ERROR" when that status is blank), else the first warning, else "OK";
    a job without tasks keeps its trimmed fallback. *)
Theorem status_summary_spec (tasks : list PVEBackupTask) (fallback : string) :
  PVEBackupStatusSummary tasks fallback =
  match tasks with
  | [] => TrimSpace fallback
  | _ =>
      match find task_failed tasks, find task_warned tasks with
      | Some t, _ => if str_empty (TrimSpace (task_Status t)) then "ERROR"
                     else TrimSpace (task_Status t)
      | None, Some t => TrimSpace (task_Status t)
      | None, None => "OK"
      end
  end.
Proof.
  destruct tasks as [|t tasks]; [done|].
  unfold PVEBackupStatusSummary. rewrite summary_loop_spec.
  destruct (find task_failed _); [done|]. change (str_empty "") with true. cbv iota.
  destruct (find task_warned _) as [w|] eqn:Hw; [|done].
  apply find_some in Hw as [_ Hw]. unfold task_warned in Hw. bool_to_prop.
  unfold str_empty. case_bool_decide as He; [|done].
  rewrite He in *. done.
Qed.

(** a byte count of at least 1000 is shown divided by the largest power of
    1000 not above it, with that power's unit: the loop ends, the multiplications
    stay within int64 and the index into "KMGTPE" is in range, for every int64. *)
Theorem FormatBytes_unit (b : Z) (Hlo : 1000 ≤ b) (Hhi : b ≤ MaxInt64) :
  ∃ k unit, 1 ≤ k ≤ 6 ∧ 1000^k ≤ b < 1000^(k + 1) ∧
    String.get (Z.to_nat (k - 1)) "KMGTPE" = Some unit ∧
    format_bytes b =
      Some (Sprintf_2f (fdiv (Float b) (Float (1000^k))) +:+ " " +:+
            String unit "" +:+ "B").
Proof.
  destruct (format_loop_spec 7 (b / 1000^1) 1 b) as (k & Hk & Hb & Heq);
    [lia..|done|lia|lia|].
  change (1000^1) with 1000 in Heq. change (1 - 1) with 0 in Heq.
  assert (∃ unit, String.get (Z.to_nat (k - 1)) "KMGTPE" = Some unit) as [unit Hu].
  { assert (k = 1 ∨ k = 2 ∨ k = 3 ∨ k = 4 ∨ k = 5 ∨ k = 6) as Hcases by lia.
    destruct Hcases as [-> | [-> | [-> | [-> | [-> | ->]]]]]; by eexists. }
  exists k, unit. split_and!; try lia; try done.
  unfold format_bytes. rewrite (proj2 (Z.leb_gt b 0)), (proj2 (Z.ltb_ge b 1000)) by lia.
  rewrite Heq. cbn [mbind option_bind]. by rewrite Hu.
Qed.

Lemma FormatBytes_unit_witness :
  (1000 ≤ 1536000 ∧ 1536000 ≤ MaxInt64) ∧ FormatBytes 1536000 = "1.54 MB" ∧
  ∃ k unit, 1 ≤ k ≤ 6 ∧ 1000^k ≤ 1536000 < 1000^(k + 1) ∧
    String.get (Z.to_nat (k - 1)) "KMGTPE" = Some unit ∧
    format_bytes 1536000 =
      Some (Sprintf_2f (fdiv (Float 1536000) (Float (1000^k))) +:+ " " +:+
            String unit "" +:+ "B").
Proof.
  split; [unfold MaxInt64; lia|]. split; [vm_compute; reflexivity|].
  apply (FormatBytes_unit 1536000); unfold MaxInt64; lia.
Defined.

(** the default PVE cutoff is a well-formed clock time, five minutes before
    the send time (08:00 when that does not parse), modulo one day. *)
Theorem DefaultPVEExpectedFinishTime_spec (sendTime : string) :
  let '(h, m) := default (8, 0) (ParseHHMM sendTime) in
  ∃ h' m', ParseHHMM (DefaultPVEExpectedFinishTime sendTime) = Some (h', m') ∧
    h' * 60 + m' = (h * 60 + m - 5) mod 1440.
Proof.
  destruct (default (8, 0) (ParseHHMM sendTime)) as [h m] eqn:Hd.
  unfold DefaultPVEExpectedFinishTime. rewrite Hd.
  assert (Unix (AddDur (UnixTime (h * 3600 + m * 60)) (- pveReportLeadTime)) =
          (h * 60 + m - 5) * 60) as Hu.
  { unfold Unix, AddDur, UnixTime, pveReportLeadTime, Minute, Second.
    rewrite <-(Z.div_mul ((h * 60 + m - 5) * 60) 1000000000) by lia. f_equal. lia. }
  unfold local_sec. rewrite Hu. change (offset_at UTC _) with 0. rewrite Z.add_0_r.
  change 86400 with (1440 * 60).
  rewrite (Z.mul_mod_distr_r (h * 60 + m - 5) 1440 60) by lia.
  pose proof (Z.mod_pos_bound (h * 60 + m - 5) 1440 ltac:(lia)) as Hr.
  set (x := (h * 60 + m - 5) mod 1440) in *. clearbody x.
  exists (x * 60 / 3600), (x * 60 mod 3600 / 60). split.
  - apply ParseHHMM_FormatHHMM; Z.div_mod_to_equations; lia.
  - Z.div_mod_to_equations; lia.
Qed.

(** the table of retained copies has one row for each VM that has a copy,
    in ascending VM order and whatever the order Go visits the map in; each row
    counts each retained volume of the VM once, PBS and vzdump apart. *)
Theorem CountPVEVMCopies_spec `{!MapRange} (storages : list PVEStorage)
    (contents : gmap Z (list PVEStorageContent)) :
  let rows := CountPVEVMCopies storages contents in
  let copies := all_copies storages contents in
  StronglySorted (λ r1 r2, cp_VMID r1 < cp_VMID r2) rows ∧
  ∀ r, r ∈ rows ↔ 0 < cp_Total r ∧ r = row_of copies (cp_VMID r).
Proof.
  cbv zeta. unfold CountPVEVMCopies.
  assert (tallied (all_copies storages contents)
            (fold_left (copies_storage contents) storages ∅)) as Ht.
  { apply (copies_storages_tallied storages contents []). intros v. done. }
  set (byVM := fold_left _ _ _) in *. clearbody byVM.
  assert (∀ r, r ∈ (range byVM).*2 ↔
    0 < cp_Total r ∧ r = row_of (all_copies storages contents) (cp_VMID r)) as Hin.
  { intros r. rewrite list_elem_of_fmap. split.
    - intros ([v r'] & -> & Hr). simpl. apply elem_of_range in Hr.
      rewrite (Ht v) in Hr. case_decide; by simplify_eq/=.
    - intros [Hpos Hr]. exists (cp_VMID r, r). split; [done|].
      apply elem_of_range. rewrite Ht, <-Hr. by rewrite decide_True. }
  assert (NoDup (cp_VMID <$> (range byVM).*2)) as Hnd.
  { rewrite <-list_fmap_compose.
    assert (cp_VMID ∘ snd <$> range byVM = (range byVM).*1) as ->;
      [|apply NoDup_range_fst].
    apply list_fmap_ext. intros i [v r] Hi. simpl.
    apply list_elem_of_lookup_2, elem_of_range in Hi.
    rewrite (Ht v) in Hi. case_decide; by simplify_eq/=. }
  split.
  - rewrite <-(merge_sort_Permutation vmid_le) in Hnd. revert Hnd.
    assert (StronglySorted vmid_le (merge_sort vmid_le (range byVM).*2)) as Hs.
    { apply StronglySorted_merge_sort; [intros ???; unfold vmid_le; lia|].
      intros r1 r2. unfold vmid_le. lia. }
    induction Hs as [|r l Hs IH Hr]; simpl; intros Hnd; [constructor|].
    apply NoDup_cons in Hnd as [Hni Hnd]. constructor; [by apply IH|].
    rewrite !Forall_forall in *. intros r' Hr'. specialize (Hr r' Hr').
    unfold vmid_le in Hr. assert (cp_VMID r ≠ cp_VMID r'); [|lia].
    intros Heq. apply Hni. rewrite Heq. apply list_elem_of_fmap. eauto.
  - intros r. rewrite <-Hin. by rewrite merge_sort_Permutation.
Qed.
