(* ===== verification/StoreReads.v ===== *)
(** * What the services read from the store

    The services see the database through the query methods of
    [internal/store].  A [ReadStore] is the answer of each of those methods at
    the moment it is called; theorems proved for every [ReadStore] hold for
    every database content and every read failure. *)
From S2P Require Import Prelude GoStrings GoNum GoTime Domain.

Class ReadStore := {
  (** [email.go], [alert_config.go] *)
  GetEmailConfig : result EmailConfig;
  GetPVEAlertConfig : Z → result PVEAlertConfig;
  ListPVEAlertConfigs : result (gmap Z PVEAlertConfig);
  ListPVEVMAlertConfigs : result (gmap Z (list PVEVMAlertConfig));
  ListPBSAlertConfigs : result (gmap Z PBSAlertConfig);
  ListWindowsAlertConfigs : result (gmap Z WindowsAlertConfig);

  (** [backup.go], [heartbeat.go], [maintenance.go], [suppressions.go] *)
  ListVMBackupConfigs : string → result (list VMBackupConfig);
  ListVMBackupConfigsForServer : string → Z → result (list VMBackupConfig);
  ListPVEVMBackupConfigsByServer : result (gmap Z (list VMBackupConfig));
  ListServerHeartbeatsByType : string → result (gmap Z ServerHeartbeat);
  GetActiveServerMaintenances : result (gmap string ServerMaintenance);
  GetActiveSuppressions : result (gmap string Time);
  ListPresentAlerts : result (list Alert);

  (** [pve.go] *)
  GetPVEServerByName : string → result PVEServer;
  GetPVEServer : Z → result PVEServer;
  ListPVEServers : result (list PVEServer);
  GetLatestPVEReport : Z → result PVEReport;
  GetLatestPVEReports : result (gmap Z PVEReport);
  GetPVEBackupTasksForReports : list Z → result (gmap Z (list PVEBackupTask));
  GetPVEStoragesForReports : list Z → result (gmap Z (list PVEStorage));
  GetPVEStorageInfoForStorages : list Z → result (gmap Z PVEStorageInfo);

  (** [pbs.go] *)
  ListPBSServers : result (list PBSServer);
  GetLatestPBSReport : Z → result PBSReport;
  GetLatestPBSReports : result (gmap Z PBSReport);
  GetPBSStoresForReports : list Z → result (gmap Z (list PBSStore));
  GetPBSTasksForReports : list Z → result (gmap Z (list PBSTask));
  GetPBSSnapshotsForStores : list Z → result (gmap Z (list PBSSnapshot));

  (** [windows.go] *)
  ListWindowsServers : result (list WindowsServer);
  GetRecentWindowsReportsByServer : list Z → Z → result (gmap Z (list WindowsReport));
  GetWindowsDisksForReports : list Z → result (gmap Z (list WindowsDisk))
}.

(** The value of a call whose error is dropped: [v, _ := f()], where [f] returns
    [zero] with its errors. *)
Definition ignore_err {A} (zero : A) (r : result A) : A :=
  match r with Ok a => a | Err _ => zero end.

(** [ServerMaintenanceKey] of [maintenance.go]. *)
Definition ServerMaintenanceKey (serverType : string) (serverID : Z) : string :=
  serverType +:+ ":" +:+ Itoa serverID.

(** ** A store with a fixed content, for examples: every read succeeds *)

Definition static_store (email : EmailConfig) (servers : list PVEServer)
    (configs : gmap Z (list VMBackupConfig)) (reports : gmap Z PVEReport)
    (tasks : gmap Z (list PVEBackupTask))
    (maintenance : gmap string ServerMaintenance) (present : list Alert) :
    ReadStore := {|
  GetEmailConfig := Ok email;
  GetPVEAlertConfig := λ id, Ok (Build_PVEAlertConfig id None None None None None);
  ListPVEAlertConfigs := Ok ∅;
  ListPVEVMAlertConfigs := Ok ∅;
  ListPBSAlertConfigs := Ok ∅;
  ListWindowsAlertConfigs := Ok ∅;
  ListVMBackupConfigs := λ _, Ok [];
  ListVMBackupConfigsForServer := λ _ id, Ok (get configs id);
  ListPVEVMBackupConfigsByServer := Ok configs;
  ListServerHeartbeatsByType := λ _, Ok ∅;
  GetActiveServerMaintenances := Ok maintenance;
  GetActiveSuppressions := Ok ∅;
  ListPresentAlerts := Ok present;
  GetPVEServerByName := λ name,
    match find (λ sv, bool_decide (pves_Name sv = name)) servers with
    | Some sv => Ok sv
    | None => Err (ErrMsg "sql: no rows in result set")
    end;
  GetPVEServer := λ id,
    match find (λ sv, pves_ID sv =? id) servers with
    | Some sv => Ok sv
    | None => Err (ErrMsg "sql: no rows in result set")
    end;
  ListPVEServers := Ok servers;
  GetLatestPVEReport := λ id,
    match reports !! id with
    | Some rep => Ok rep
    | None => Err (ErrMsg "sql: no rows in result set")
    end;
  GetLatestPVEReports := Ok reports;
  GetPVEBackupTasksForReports := λ _, Ok tasks;
  GetPVEStoragesForReports := λ _, Ok ∅;
  GetPVEStorageInfoForStorages := λ _, Ok ∅;
  ListPBSServers := Ok [];
  GetLatestPBSReport := λ _, Err (ErrMsg "sql: no rows in result set");
  GetLatestPBSReports := Ok ∅;
  GetPBSStoresForReports := λ _, Ok ∅;
  GetPBSTasksForReports := λ _, Ok ∅;
  GetPBSSnapshotsForStores := λ _, Ok ∅;
  ListWindowsServers := Ok [];
  GetRecentWindowsReportsByServer := λ _ _, Ok ∅;
  GetWindowsDisksForReports := λ _, Ok ∅
|}.

(** The configuration used before an administrator saves one
    ([defaultEmailConfig] of [email.go]). *)
Definition defaultEmailConfig : EmailConfig := {|
  ec_ID := 0; ec_SMTPHost := ""; ec_SMTPPort := 0; ec_SMTPUser := "";
  ec_SMTPPass := ""; ec_Recipients := ""; ec_IsEnabled := false;
  ec_SendTime := "08:00"; ec_RetentionMonths := 3; ec_RetentionEnabled := true;
  ec_AlertDiskPct := 85; ec_AlertWindowsDiskPct := 90; ec_AlertBackupErr := true;
  ec_AlertPBSStaleHours := 48;
  ec_AlertPVEExpectedFinishTime := DefaultPVEExpectedFinishTime "08:00";
  ec_PublicAPIURL := ""; ec_VPNOnlyAccess := false;
  ec_AlertPVEHeartbeatMinutes := 15; ec_AlertEmailBatchMinutes := 0;
  ec_CriticalAlertsEnabled := false; ec_EnforceTOTPNonReaders := false;
  ec_SensitiveActionsRequireTOTP := false |}.
