(* ===== verification/Staleness.v ===== *)
(** * Report staleness: [internal/service/report.go]

    A PVE server is judged against its backup schedule: a backup day is closed
    at the expected finish time of the next morning, and the last report must
    not be older than the most recent closed backup day. *)
From Stdlib Require Import Ascii.
From S2P Require Import Prelude GoStrings GoNum GoTime Domain StoreReads.

(** The fields of [ReportService] the judgement reads: the time zone and the
    clock. *)
Record ReportService := { rs_tz : Location; rs_now : Time }.

Definition reasonToday : string := "No se ha recibido el reporte de hoy".
Definition reasonInactive : string := "sin backups activos configurados".
Definition reasonLastDay : string :=
  "no se ha recibido reporte del último día de backup".
Definition reasonNone : string := "no se han recibido reportes".

Definition IsStale (r : ReportService) (reportedAt : Time) : bool :=
  let tz := rs_tz r in
  let now := rs_now r in
  negb (Year tz now =? Year tz reportedAt) ||
  negb (YearDay tz now =? YearDay tz reportedAt).

(** One entry of [configs] adds its weekdays to the set [expected]. *)
Definition expected_step (expected : gset Z) (c : VMBackupConfig) : gset Z :=
  if vm_IsExcluded c then expected else
  let add (on : bool) (day : Z) (e : gset Z) := if on then {[day]} ∪ e else e in
  add (vm_Sunday c) 0 (add (vm_Saturday c) 6 (add (vm_Friday c) 5
    (add (vm_Thursday c) 4 (add (vm_Wednesday c) 3 (add (vm_Tuesday c) 2
      (add (vm_Monday c) 1 expected)))))).

Definition expected_days (configs : list VMBackupConfig) : gset Z :=
  fold_left expected_step configs ∅.

(** [cutoff] of the day that starts at [dayStart]. *)
Definition cutoff_of (tz : Location) (dayStart : Time) (hour minute : Z) : Time :=
  AddDur (AddDays tz dayStart 1) (hour * Hour + minute * Minute).

(** The loop [for i := 1; i <= 14; i++], at [i] with [fuel] iterations left. *)
Fixpoint lookback (r : ReportService) (expected : gset Z) (reportedAt : Time)
    (hour minute : Z) (i : Z) (fuel : nat) : bool * string :=
  match fuel with
  | O => (IsStale r reportedAt, reasonToday)
  | S fuel =>
      let tz := rs_tz r in
      let candidate := AddDays tz (rs_now r) (- i) in
      if negb (bool_decide (Weekday tz candidate ∈ expected))
      then lookback r expected reportedAt hour minute (i + 1) fuel
      else
        let dayStart := StartOfDay tz candidate in
        if Before (rs_now r) (cutoff_of tz dayStart hour minute)
        then lookback r expected reportedAt hour minute (i + 1) fuel
        else (Before reportedAt dayStart, reasonLastDay)
  end.

Definition isStaleForConfigsAt (r : ReportService) (reportedAt : Time)
    (configs : list VMBackupConfig) (hour minute : Z) : bool * string :=
  let expected := expected_days configs in
  if bool_decide (expected = ∅) then (false, reasonInactive)
  else lookback r expected reportedAt hour minute 1 14.

Definition expectedFinishFromAlertConfig (cfg : PVEAlertConfig)
    (globalFinishTime : string) : Z * Z :=
  match pac_ExpectedFinishTime cfg ≫= ParseHHMM with
  | Some hm => hm
  | None => default (9, 0) (ParseHHMM globalFinishTime)
  end.

Definition IsStaleForLoadedPVEConfig (r : ReportService) (reportedAt : Time)
    (configs : list VMBackupConfig) (alertCfg : PVEAlertConfig)
    (globalFinishTime : string) (noVMsConfirmed : bool) : bool * string :=
  if PVEStaleSuppressed configs alertCfg noVMsConfirmed then (false, reasonInactive)
  else
    let '(hour, minute) := expectedFinishFromAlertConfig alertCfg globalFinishTime in
    isStaleForConfigsAt r reportedAt configs hour minute.

Definition no_vms_confirmed (sv : PVEServer) : bool :=
  pves_BackupInventoryKnown sv && negb (pves_HasBackupVMs sv).

(** ** The variants that query the store themselves *)

Record PVEServerResponse := {
  pvresp_ID : Z; pvresp_Name : string; pvresp_IP : string;
  pvresp_PublicIP : string; pvresp_ClientVersion : string;
  pvresp_MachineBound : bool; pvresp_IsStale : bool;
  pvresp_StaleReason : string; pvresp_LastReport : option Time;
  pvresp_BackupStatus : string }.

Record PBSServerResponse := {
  pbresp_ID : Z; pbresp_Name : string; pbresp_IP : string;
  pbresp_PublicIP : string; pbresp_ClientVersion : string;
  pbresp_MachineBound : bool; pbresp_IsStale : bool;
  pbresp_StaleReason : string; pbresp_LastReport : option Time }.

Section with_store.
Context `{!ReadStore}.

Definition globalPVEExpectedFinishTime : string :=
  match GetEmailConfig with
  | Err _ => ""
  | Ok cfg => ec_AlertPVEExpectedFinishTime cfg
  end.

Definition expectedFinishTime (serverName : string) : Z * Z :=
  match GetPVEServerByName serverName with
  | Err _ => (9, 0)
  | Ok sv =>
      match GetPVEAlertConfig (pves_ID sv) with
      | Err _ => (9, 0)
      | Ok cfg => expectedFinishFromAlertConfig cfg globalPVEExpectedFinishTime
      end
  end.

Definition expectedFinishTimeByServerID (serverID : Z) : Z * Z :=
  match GetPVEAlertConfig serverID with
  | Err _ => (9, 0)
  | Ok cfg => expectedFinishFromAlertConfig cfg globalPVEExpectedFinishTime
  end.

Definition isStaleForConfigs (r : ReportService) (reportedAt : Time)
    (configs : list VMBackupConfig) (serverID : Z) : bool * string :=
  let '(hour, minute) := expectedFinishTimeByServerID serverID in
  isStaleForConfigsAt r reportedAt configs hour minute.

Definition IsStaleForServerID (r : ReportService) (reportedAt : Time)
    (serverID : Z) : bool * string :=
  match ListVMBackupConfigsForServer "pve" serverID with
  | Err _ => (IsStale r reportedAt, reasonToday)
  | Ok configs =>
      let alertCfg := ignore_err zero (GetPVEAlertConfig serverID) in
      let noVMsConfirmed :=
        match GetPVEServer serverID with
        | Ok sv => no_vms_confirmed sv
        | Err _ => false
        end in
      if PVEStaleSuppressed configs alertCfg noVMsConfirmed
      then (false, reasonInactive)
      else isStaleForConfigs r reportedAt configs serverID
  end.

Definition IsStaleForServer (r : ReportService) (reportedAt : Time)
    (serverName : string) : bool * string :=
  match ListVMBackupConfigs serverName with
  | Err _ => (IsStale r reportedAt, reasonToday)
  | Ok configs =>
      let '(alertCfg, noVMsConfirmed) :=
        match GetPVEServerByName serverName with
        | Ok sv => (ignore_err zero (GetPVEAlertConfig (pves_ID sv)),
                    no_vms_confirmed sv)
        | Err _ => (zero, false)
        end in
      if PVEStaleSuppressed configs alertCfg noVMsConfirmed
      then (false, reasonInactive)
      else
        let expected := expected_days configs in
        if bool_decide (expected = ∅) then (IsStale r reportedAt, reasonToday)
        else
          let '(hour, minute) := expectedFinishTime serverName in
          lookback r expected reportedAt hour minute 1 14
  end.

(** *** Entries of the server list *)

Definition BuildPVEServerResponse (r : ReportService) (sv : PVEServer) :
    PVEServerResponse :=
  let resp last stale reason status := {|
    pvresp_ID := pves_ID sv; pvresp_Name := pves_Name sv;
    pvresp_IP := pves_IP sv; pvresp_PublicIP := pves_PublicIP sv;
    pvresp_ClientVersion := pves_ClientVersion sv;
    pvresp_MachineBound := negb (str_empty (pves_MachineID sv));
    pvresp_IsStale := stale; pvresp_StaleReason := reason;
    pvresp_LastReport := last; pvresp_BackupStatus := status |} in
  match GetLatestPVEReport (pves_ID sv) with
  | Err _ =>
      let configs :=
        ignore_err [] (ListVMBackupConfigsForServer "pve" (pves_ID sv)) in
      let alertCfg := ignore_err zero (GetPVEAlertConfig (pves_ID sv)) in
      if PVEStaleSuppressed configs alertCfg (no_vms_confirmed sv)
      then resp None false "" ""
      else resp None true reasonNone ""
  | Ok rep =>
      let '(stale, reason) :=
        IsStaleForServerID r (pver_ReportedAt rep) (pves_ID sv) in
      resp (Some (pver_ReportedAt rep)) stale reason (pver_BackupStatus rep)
  end.

Definition BuildPBSServerResponse (r : ReportService) (sv : PBSServer) :
    PBSServerResponse :=
  let resp last stale reason := {|
    pbresp_ID := pbss_ID sv; pbresp_Name := pbss_Name sv;
    pbresp_IP := pbss_IP sv; pbresp_PublicIP := pbss_PublicIP sv;
    pbresp_ClientVersion := pbss_ClientVersion sv;
    pbresp_MachineBound := negb (str_empty (pbss_MachineID sv));
    pbresp_IsStale := stale; pbresp_StaleReason := reason;
    pbresp_LastReport := last |} in
  match GetLatestPBSReport (pbss_ID sv) with
  | Err _ => resp None true reasonNone
  | Ok rep =>
      if IsStale r (pbsr_ReportedAt rep)
      then resp (Some (pbsr_ReportedAt rep)) true reasonToday
      else resp (Some (pbsr_ReportedAt rep)) (pbsr_IsStale rep)
             (pbsr_StaleReason rep)
  end.
End with_store.

(** ** Reference definitions for the theorems *)

(** Some active VM has its backup on day [d]. *)
Definition scheduled (configs : list VMBackupConfig) (d : Z) : bool :=
  existsb (λ c, negb (vm_IsExcluded c) && VMScheduledForDay c (weekday_of_day d))
    configs.

Definition midnight (tz : Location) (d : Z) : Time := from_local tz (d * 86400) * Second.

(** The backup window of day [d] has closed: it is past [hour:minute] of the
    next day. *)
Definition closed (r : ReportService) (hour minute d : Z) : Prop :=
  midnight (rs_tz r) (d + 1) + (hour * Hour + minute * Minute) ≤ rs_now r.

#[export] Instance closed_dec r hour minute d : Decision (closed r hour minute d).
Proof. apply Z.le_dec. Defined.

(** What the judgement needs of a time zone: adding days moves the local date by
    as many, every midnight exists, each instant lies between its midnight and
    the next, and a day lasts at least 23 hours. *)
Class CalendarLoc (tz : Location) : Prop := {
  cal_add t k : local_day tz (AddDays tz t k) = local_day tz t + k;
  cal_midnight d : local_sec tz (midnight tz d) = d * 86400;
  cal_le t : midnight tz (local_day tz t) ≤ t;
  cal_lt t : t < midnight tz (local_day tz t + 1);
  cal_step d : midnight tz d + 23 * Hour ≤ midnight tz (d + 1)
}.

#[export] Instance FixedZone_calendar o : CalendarLoc (FixedZone o).
Proof.
  split; unfold midnight; intros; rewrite ?AddDays_eq, ?from_local_fixed;
    unfold local_day; rewrite ?local_sec_fixed; unfold Unix, Hour, Minute, Second;
    Z.div_mod_to_equations; lia.
Qed.

(** ** Lemmas *)

Lemma elem_of_add_day (on : bool) (day d : Z) (e : gset Z) :
  d ∈ (if on then {[day]} ∪ e else e) ↔ (d = day ∧ on = true) ∨ d ∈ e.
Proof. destruct on; set_solver. Qed.

Lemma VMScheduledForDay_true c d :
  VMScheduledForDay c d = true ↔
  (d = 0 ∧ vm_Sunday c = true) ∨ (d = 6 ∧ vm_Saturday c = true) ∨
  (d = 5 ∧ vm_Friday c = true) ∨ (d = 4 ∧ vm_Thursday c = true) ∨
  (d = 3 ∧ vm_Wednesday c = true) ∨ (d = 2 ∧ vm_Tuesday c = true) ∨
  (d = 1 ∧ vm_Monday c = true).
Proof.
  unfold VMScheduledForDay.
  repeat match goal with
  | |- context [d =? ?k] => destruct (Z.eqb_spec d k) as [->|]
  end; split; intros H; intuition (done || lia || congruence).
Qed.

Lemma elem_of_expected_step e c d :
  d ∈ expected_step e c ↔
  d ∈ e ∨ (vm_IsExcluded c = false ∧ VMScheduledForDay c d = true).
Proof.
  unfold expected_step. rewrite VMScheduledForDay_true.
  destruct (vm_IsExcluded c); [intuition congruence|]. cbv zeta beta.
  rewrite !elem_of_add_day. tauto.
Qed.

Lemma elem_of_expected_days configs d :
  weekday_of_day d ∈ expected_days configs ↔ scheduled configs d = true.
Proof.
  unfold expected_days, scheduled. rewrite existsb_exists.
  assert (∀ e, weekday_of_day d ∈ fold_left expected_step configs e ↔
    weekday_of_day d ∈ e ∨ ∃ c, In c configs ∧
      negb (vm_IsExcluded c) && VMScheduledForDay c (weekday_of_day d) = true) as H.
  { induction configs as [|c configs IH]; intros e; simpl; [naive_solver|].
    rewrite IH, elem_of_expected_step.
    assert (∀ x, negb (vm_IsExcluded x) && VMScheduledForDay x (weekday_of_day d) = true
      ↔ vm_IsExcluded x = false ∧ VMScheduledForDay x (weekday_of_day d) = true) as Hx.
    { intros x. by rewrite andb_true_iff, negb_true_iff. }
    setoid_rewrite Hx. clear. naive_solver. }
  rewrite H. set_solver.
Qed.

Lemma weekday_surj w d : 0 ≤ w < 7 → ∃ k, 0 ≤ k < 7 ∧ weekday_of_day (d - k) = w.
Proof.
  intros Hw. exists ((d + 4 - w) mod 7). unfold weekday_of_day.
  split; Z.div_mod_to_equations; lia.
Qed.

Lemma expected_days_range configs w : w ∈ expected_days configs → 0 ≤ w < 7.
Proof.
  unfold expected_days.
  assert (∀ e, (∀ w, w ∈ e → 0 ≤ w < 7) → ∀ w,
    w ∈ fold_left expected_step configs e → 0 ≤ w < 7) as H; [|apply H; set_solver].
  induction configs as [|c configs IH]; simpl; intros e He; [done|].
  apply IH. intros v. rewrite elem_of_expected_step.
  intros [?|[_ Hs]]; [by apply He|]. revert Hs. unfold VMScheduledForDay. go.
Qed.

Section calendar.
Context (r : ReportService) `{!CalendarLoc (rs_tz r)}.
Let tz := rs_tz r.
Let today := local_day tz (rs_now r).

Lemma cutoff_midnight d h m :
  cutoff_of tz (midnight tz d) h m = midnight tz (d + 1) + (h * Hour + m * Minute).
Proof.
  unfold cutoff_of, AddDur. f_equal.
  pose proof (cal_midnight (tz := tz) d) as Hs.
  rewrite AddDays_eq. unfold local_day. rewrite Hs, Z.div_mul, Z.mod_mul by lia.
  rewrite Z.add_0_r. unfold midnight at 1. rewrite Z.mod_mul by (unfold Second; lia).
  rewrite Z.add_0_r. done.
Qed.

Lemma StartOfDay_midnight t : StartOfDay tz t = midnight tz (local_day tz t).
Proof. by rewrite StartOfDay_eq. Qed.

Lemma midnight_mono d k : 0 ≤ k → midnight tz d + k * (23 * Hour) ≤ midnight tz (d + k).
Proof.
  intros Hk. pattern k. apply natlike_ind; [..|done].
  - replace (d + 0) with d by lia. lia.
  - intros x Hx IH. pose proof (cal_step (tz := tz) (d + x)) as Hs.
    replace (d + Z.succ x) with (d + x + 1) by lia. lia.
Qed.

(** A finish time within a day: three days ago is always closed. *)
Lemma old_day_closed h m d :
  0 ≤ h < 24 → 0 ≤ m < 60 → d ≤ today - 3 → closed r h m d.
Proof.
  intros Hh Hm Hd. unfold closed.
  pose proof (midnight_mono (d + 1) (today - (d + 1)) ltac:(lia)) as Hmono.
  replace (d + 1 + (today - (d + 1))) with today in Hmono by lia.
  pose proof (cal_le (tz := tz) (rs_now r)) as Hle. fold today in Hle. fold tz.
  unfold Hour, Minute, Second in *. nia.
Qed.

(** A day that is not over is not closed. *)
Lemma open_day h m d :
  0 ≤ h → 0 ≤ m → today ≤ d → ¬ closed r h m d.
Proof.
  intros Hh Hm Hd. unfold closed.
  pose proof (cal_lt (tz := tz) (rs_now r)) as Hlt. fold today in Hlt.
  pose proof (midnight_mono (today + 1) (d - today) ltac:(lia)) as Hmono.
  replace (today + 1 + (d - today)) with (d + 1) in Hmono by lia. fold tz.
  unfold Hour, Minute, Second in *. nia.
Qed.

Lemma lookback_spec configs reportedAt h m fuel i d :
  today - (i + Z.of_nat fuel) < d ≤ today - i →
  scheduled configs d = true → closed r h m d →
  ∃ d', d ≤ d' ≤ today - i ∧ scheduled configs d' = true ∧ closed r h m d' ∧
    (∀ d'', d' < d'' ≤ today - i → scheduled configs d'' = true →
      ¬ closed r h m d'') ∧
    lookback r (expected_days configs) reportedAt h m i fuel =
      (reportedAt <? midnight tz d', reasonLastDay).
Proof.
  revert i. induction fuel as [|fuel IH]; intros i Hd Hs Hc; [lia|]. simpl.
  pose proof (cal_add (tz := tz) (rs_now r) (- i)) as Hday.
  fold today in Hday. rewrite Z.add_opp_r in Hday.
  unfold Weekday. fold tz. rewrite Hday, StartOfDay_midnight, Hday, cutoff_midnight.
  unfold Before.
  destruct (decide (scheduled configs (today - i) = true ∧ closed r h m (today - i)))
    as [[Hsi Hci]|Hno].
  - exists (today - i). rewrite bool_decide_true by by apply elem_of_expected_days.
    simpl. unfold closed in Hci. fold tz in Hci.
    rewrite (proj2 (Z.ltb_ge _ _)) by done.
    split_and!; [lia|lia|done|done|intros; lia|done].
  - assert (d ≠ today - i) as Hne by naive_solver.
    destruct (IH (i + 1) ltac:(lia) Hs Hc) as (d' & Hd' & Hs' & Hc' & Hmax & Heq).
    exists d'. split_and!; [lia|lia|done|done| |].
    + intros d'' Hd''. destruct (decide (d'' = today - i)) as [->|]; [tauto|].
      apply Hmax. lia.
    + rewrite Heq. case_bool_decide as He; simpl; [|done].
      apply elem_of_expected_days in He.
      rewrite (proj2 (Z.ltb_lt _ _)); [done|].
      apply Z.lt_nge. unfold closed in Hno. fold tz in Hno. tauto.
Qed.
End calendar.

Lemma expected_finish_range cfg global h m :
  expectedFinishFromAlertConfig cfg global = (h, m) → 0 ≤ h < 24 ∧ 0 ≤ m < 60.
Proof.
  unfold expectedFinishFromAlertConfig. intros H.
  destruct (pac_ExpectedFinishTime cfg ≫= ParseHHMM) as [hm|] eqn:Hc; simplify_eq.
  - apply bind_Some in Hc as (s & _ & Hs). by apply ParseHHMM_range in Hs.
  - destruct (ParseHHMM global) eqn:Hg; simplify_eq/=; [|lia].
    by apply ParseHHMM_range in Hg.
Qed.

Lemma scheduled_exists configs :
  expected_days configs ≠ ∅ → ∀ t, ∃ d, t - 10 < d ≤ t - 3 ∧ scheduled configs d = true.
Proof.
  intros Hne t. apply set_choose_L in Hne as [w Hw].
  destruct (weekday_surj w (t - 3)) as (k & Hk & Hwk).
  { by eapply expected_days_range. }
  exists (t - 3 - k). split; [lia|]. apply elem_of_expected_days. by rewrite Hwk.
Qed.

(** The verdict against a schedule, for any finish time of day. *)
Lemma isStaleForConfigsAt_last_day r `{!CalendarLoc (rs_tz r)} reportedAt configs h m :
  0 ≤ h < 24 → 0 ≤ m < 60 → expected_days configs ≠ ∅ →
  ∃ d, scheduled configs d = true ∧ closed r h m d ∧
    (∀ d', d < d' → scheduled configs d' = true → ¬ closed r h m d') ∧
    isStaleForConfigsAt r reportedAt configs h m =
      (reportedAt <? midnight (rs_tz r) d, reasonLastDay).
Proof.
  intros Hh Hm Hne. unfold isStaleForConfigsAt. rewrite bool_decide_false by done.
  set (today := local_day (rs_tz r) (rs_now r)).
  destruct (scheduled_exists configs Hne today) as (d0 & Hd0 & Hs0).
  destruct (lookback_spec r configs reportedAt h m 14 1 d0)
    as (d & Hd & Hs & Hc & Hmax & Heq); [subst today; lia|done|..].
  { apply (old_day_closed r); subst today; lia. }
  exists d. split_and!; [done..| |done]. intros d' Hd' Hs'.
  destruct (decide (d' ≤ today - 1)); [apply Hmax; [subst today; lia|done]|].
  apply (open_day r); subst today; lia.
Qed.

(** ** Properties *)

(** a report is stale for the plain rule exactly when it was not received
    on the current local day. *)
Theorem IsStale_local_day (r : ReportService) (reportedAt : Time) :
  IsStale r reportedAt = true ↔
  local_day (rs_tz r) (rs_now r) ≠ local_day (rs_tz r) reportedAt.
Proof.
  unfold IsStale. rewrite orb_true_iff, !negb_true_iff, !Z.eqb_neq. split.
  - intros H Heq. unfold YearDay, Year, CivilDate in H. rewrite Heq in H. tauto.
  - intros Hne. destruct (decide (Year (rs_tz r) (rs_now r) = Year (rs_tz r) reportedAt));
      [|tauto]. right. intros Hy. by apply Hne, same_YearDay.
Qed.

(** C23: with a backup schedule, a PVE server is stale exactly when its last
    report is older than the most recent scheduled day whose window has closed;
    that day always exists within the 14 days searched, so the plain rule is
    never the fallback. *)
Theorem IsStaleForLoadedPVEConfig_spec (r : ReportService)
    `{!CalendarLoc (rs_tz r)} (reportedAt : Time) (configs : list VMBackupConfig)
    (alertCfg : PVEAlertConfig) (globalFinishTime : string) (noVMs : bool) (h m : Z)
    (Hfinish : expectedFinishFromAlertConfig alertCfg globalFinishTime = (h, m))
    (Hsched : expected_days configs ≠ ∅)
    (Hactive : PVEStaleSuppressed configs alertCfg noVMs = false) :
  ∃ d, scheduled configs d = true ∧ closed r h m d ∧
    (∀ d', d < d' → scheduled configs d' = true → ¬ closed r h m d') ∧
    IsStaleForLoadedPVEConfig r reportedAt configs alertCfg globalFinishTime noVMs =
      (reportedAt <? midnight (rs_tz r) d, reasonLastDay).
Proof.
  destruct (expected_finish_range _ _ _ _ Hfinish) as [Hh Hm].
  unfold IsStaleForLoadedPVEConfig. rewrite Hactive, Hfinish.
  by apply isStaleForConfigsAt_last_day.
Qed.

(** A daily schedule in a zone two hours east of UTC, on a Wednesday at 10:00. *)
Definition ex_vm : VMBackupConfig :=
  Build_VMBackupConfig 1 "pve" "100" "" true true true true true false false
    false false None 0.
Definition ex_service : ReportService :=
  {| rs_tz := FixedZone 7200; rs_now := UnixTime (19725 * 86400 + 8 * 3600) |}.

Lemma IsStaleForLoadedPVEConfig_spec_witness :
  let monday := UnixTime (19723 * 86400 + 3600) in
  IsStaleForLoadedPVEConfig ex_service monday [ex_vm] zero "07:55" false =
    (true, reasonLastDay) ∧
  ∃ d, scheduled [ex_vm] d = true ∧ closed ex_service 7 55 d ∧
    (∀ d', d < d' → scheduled [ex_vm] d' = true → ¬ closed ex_service 7 55 d') ∧
    IsStaleForLoadedPVEConfig ex_service monday [ex_vm] zero "07:55" false =
      (monday <? midnight (FixedZone 7200) d, reasonLastDay).
Proof.
  cbv zeta. split; [vm_compute; reflexivity|].
  apply (IsStaleForLoadedPVEConfig_spec ex_service); [reflexivity| |reflexivity].
  intros He. assert (3 ∈ expected_days [ex_vm]) as H by (apply elem_of_elements; vm_compute; set_solver).
  rewrite He in H. set_solver.
Defined.

(** the batched evaluation and the per-server query agree: on the answers of
    a store without read errors, [IsStaleForServerID] is
    [IsStaleForLoadedPVEConfig] of the loaded configuration. *)
Theorem IsStaleForServerID_loaded `{!ReadStore} (r : ReportService)
    (reportedAt : Time) (serverID : Z) configs alertCfg sv emailCfg
    (Hconfigs : ListVMBackupConfigsForServer "pve" serverID = Ok configs)
    (Halert : GetPVEAlertConfig serverID = Ok alertCfg)
    (Hserver : GetPVEServer serverID = Ok sv)
    (Hemail : GetEmailConfig = Ok emailCfg) :
  IsStaleForServerID r reportedAt serverID =
  IsStaleForLoadedPVEConfig r reportedAt configs alertCfg
    (ec_AlertPVEExpectedFinishTime emailCfg) (no_vms_confirmed sv).
Proof.
  unfold IsStaleForServerID, IsStaleForLoadedPVEConfig, isStaleForConfigs,
    expectedFinishTimeByServerID, globalPVEExpectedFinishTime.
  by rewrite Hconfigs, Halert, Hserver, Hemail.
Qed.

Definition ex_server : PVEServer :=
  Build_PVEServer 7 "pve" "pve" "10.0.0.2" "" "1.0" "m" 1 true true false 0 0.

Lemma IsStaleForServerID_loaded_witness :
  let store := static_store defaultEmailConfig [ex_server] {[7 := [ex_vm]]} ∅ ∅ ∅ [] in
  let monday := UnixTime (19723 * 86400 + 3600) in
  @IsStaleForServerID store ex_service monday 7 = (true, reasonLastDay) ∧
  @IsStaleForServerID store ex_service monday 7 =
    IsStaleForLoadedPVEConfig ex_service monday [ex_vm]
      (Build_PVEAlertConfig 7 None None None None None) "07:55"
      (no_vms_confirmed ex_server).
Proof.
  cbv zeta. split; [vm_compute; reflexivity|].
  change "07:55" with (ec_AlertPVEExpectedFinishTime defaultEmailConfig).
  by apply (@IsStaleForServerID_loaded
    (static_store defaultEmailConfig [ex_server] {[7 := [ex_vm]]} ∅ ∅ ∅ [])).
Defined.
