(* ===== verification/AlertEngine.v ===== *)
(** * Alert evaluation: [internal/service/alertengine.go]

    An evaluation loads the configuration and a batched snapshot of the store,
    and runs eighteen evaluators over it.  [now] is the clock reading of the
    run, [local] the process time zone ([time.Local]); a map read returns an
    [option] where the values are pointers and [get] where they are structs. *)
From Stdlib Require Import Ascii.
From S2P Require Import Prelude GoStrings GoNum GoTime Domain StoreReads Staleness.

(** ** Configuration and data of one run *)

Record AlertData := {
  PVEServers : list PVEServer;
  PVEReports : gmap Z PVEReport;
  PVEStorages : gmap Z (list PVEStorage);
  PVEStorageInfos : gmap Z PVEStorageInfo;
  PVETasks : gmap Z (list PVEBackupTask);
  PVEBackupConfigs : gmap Z (list VMBackupConfig);
  PVEHeartbeats : gmap Z ServerHeartbeat;
  PBSServers : list PBSServer;
  PBSReports : gmap Z PBSReport;
  PBSStores : gmap Z (list PBSStore);
  PBSSnapshots : gmap Z (list PBSSnapshot);
  PBSTasks : gmap Z (list PBSTask);
  PBSHeartbeats : gmap Z ServerHeartbeat;
  WindowsServers : list WindowsServer;
  WindowsReports : gmap Z (list WindowsReport);
  WindowsDisks : gmap Z (list WindowsDisk);
  WindowsHeartbeats : gmap Z ServerHeartbeat
}.

Record AlertConfigs := {
  GlobalDiskPct : Z; GlobalWindowsDiskPct : Z; GlobalStaleHours : Z;
  GlobalBackupErr : bool; GlobalPVEExpectedFinishTime : string;
  GlobalPVEHeartbeatMinutes : Z;
  Report : option ReportService;
  PVEConfigs : gmap Z PVEAlertConfig;
  PVEVMConfigs : gmap Z (list PVEVMAlertConfig);
  PBSConfigs : gmap Z PBSAlertConfig;
  WindowsConfigs : gmap Z WindowsAlertConfig;
  Data : option AlertData
}.

(** ** Formatting helpers *)

Definition alertFmtBytes (b : Z) : string := FormatBytes b.

Definition alertFmtAge (d : Duration) : string :=
  if d <? Hour then
    let mins := Trunc (Minutes d) in
    Itoa (if mins <? 1 then 1 else mins) +:+ "min"
  else if d <? 48 * Hour then Itoa (Trunc (Hours d)) +:+ "h"
  else Itoa (Trunc (fdiv (Hours d) (Float 24))) +:+ "d".

Definition hostSwapMessage (used total : Z) : string :=
  if total <=? 0 then "El host tiene swap activa"
  else if 0 <? used then
    "Swap activa: " +:+ alertFmtBytes used +:+ " usados de " +:+ alertFmtBytes total
  else "Swap activa: " +:+ alertFmtBytes total +:+ " configurados, sin uso actual".

(** [int(fullTime.Sub(now).Hours() / 24)]. *)
Definition days_until (full now : Time) : Z :=
  Trunc (fdiv (Hours (Sub full now)) (Float 24)).

(** [int(float64(used) / float64(total) * 100)]. *)
Definition percent (used total : Z) : Z :=
  Trunc (fmul (fdiv (Float used) (Float total)) (Float 100)).

Definition pbsDiskMessage (pct used total estimatedFullDate : Z) (now : Time) :
    string :=
  let msg := Itoa pct +:+ "% usado (" +:+ alertFmtBytes used +:+ " / " +:+
             alertFmtBytes total +:+ ")" in
  if estimatedFullDate =? 0 then msg else
  let fullTime := UnixTime estimatedFullDate in
  if negb (After fullTime now) then msg +:+ "; estimación de llenado vencida" else
  let daysLeft := days_until fullTime now in
  if daysLeft <? 1 then msg +:+ "; estimación: menos de 1 día"
  else msg +:+ "; estimación: " +:+ Itoa daysLeft +:+ " días".

Definition month_abbr (m : Z) : string :=
  nth (Z.to_nat (m - 1))
    ["Jan"; "Feb"; "Mar"; "Apr"; "May"; "Jun"; "Jul"; "Aug"; "Sep"; "Oct";
     "Nov"; "Dec"] "".

(** [t.Format("02 Jan")]. *)
Definition Format02Jan (loc : Location) (t : Time) : string :=
  let c := CivilDate loc t in pad2 (c_day c) +:+ " " +:+ month_abbr (c_month c).

Definition alertDiskSeverity (pct : Z) : string :=
  if 95 <=? pct then AlertSeverityCritical else AlertSeverityWarning.

(** ** Resolution of per-VM, per-server and global settings *)

Definition resolveBackupErr (svCfg : PVEAlertConfig)
    (vmCfg : option PVEVMAlertConfig) (global : bool) : bool :=
  match vmCfg ≫= vac_BackupErr with
  | Some v => negb (v =? 0)
  | None =>
      match pac_BackupErr svCfg with
      | Some v => negb (v =? 0)
      | None => global
      end
  end.

Definition findVMConfig (configs : list PVEVMAlertConfig) (vmid : Z) :
    option PVEVMAlertConfig :=
  find (λ c, vac_VMID c =? vmid) configs.

Definition pveVMBackupExcluded (configs : list VMBackupConfig) (vmid : Z) : bool :=
  match find (λ c, bool_decide (vm_VMID c = Itoa vmid)) configs with
  | Some c => vm_IsExcluded c
  | None => false
  end.

Definition pveBackupStatusAlertable (status : string) : bool :=
  let status := TrimSpace status in
  negb (str_empty status) && negb (PVEBackupStatusOK status) &&
  negb (PVEBackupStatusWarning status).

Definition currentHostSwap (hb : ServerHeartbeat) (report : HostSwap)
    (reportTime : Time) (hasReport : bool) : HostSwap * bool :=
  if hb_SwapReported hb &&
     (negb hasReport || negb (Before (hb_LastSeenAt hb) reportTime))
  then (Build_HostSwap (hb_SwapTotal hb) (hb_SwapUsed hb) (hb_SwapEnabled hb), true)
  else (report, hasReport).

Definition is_letter (c : ascii) : bool :=
  ((65 <=? byte c) && (byte c <=? 90)) || ((97 <=? byte c) && (byte c <=? 122)).

Definition isWindowsLogicalAlertDisk (disk : WindowsDisk) : bool :=
  let name := TrimSpace (disk_Name disk) in
  let driveType := TrimSpace (ToLower (disk_DriveType disk)) in
  if negb (str_empty driveType) && negb (bool_decide (driveType = "fixed"))
  then false
  else
    match name with
    | String c (String ":"%char EmptyString) => is_letter c
    | _ => false
    end.

Definition under_score (c : ascii) : ascii :=
  match c with ":" | "/" | " " => "_" | _ => c end%char.

Definition pbsTaskAlertKey (task : PBSTask) : string :=
  let key := if str_empty (ptask_JobID task)
             then ptask_Remote task +:+ "-" +:+ ptask_Store task
             else ptask_JobID task in
  let key := map_bytes under_score key in
  if str_empty key then "unknown" else key.

Definition pbsTaskAlertID (alertType : string) (serverID : Z) (task : PBSTask) :
    string :=
  alertType +:+ ":pbs:" +:+ Itoa serverID +:+ ":" +:+ pbsTaskAlertKey task.

(** Alert type, title, message and store name. *)
Definition pbsTaskFailureAlert (task : PBSTask) : string * string * string * string :=
  if bool_decide (ptask_TaskType task = "gc") then
    (AlertTypePBSGCFailed, "Garbage collection fallida",
     "Garbage collection datastore " +:+ Quote (ptask_Store task) +:+
       " fallida: " +:+ ptask_Status task,
     ptask_Store task)
  else
    let datastore := if str_empty (ptask_RemoteStore task) then ptask_Store task
                     else ptask_RemoteStore task in
    let remote := if str_empty (ptask_Remote task) then ptask_JobID task
                  else ptask_Remote task in
    (AlertTypePBSSyncFailed, "Sincronización remota fallida",
     "Sync remote " +:+ Quote remote +:+ " datastore " +:+ Quote datastore +:+
       " fallida: " +:+ ptask_Status task,
     datastore).

(** ** Construction of alerts

    The fields every evaluator sets; the setters fill the optional ones. *)

Definition new_alert (now : Time) (serverType : string) (id : Z) (name : string)
    (alertID alertType severity title message : string) : Alert := {|
  al_ID := alertID; al_ServerName := name; al_ServerID := id;
  al_ServerType := serverType; al_StoreName := ""; al_VMID := 0;
  al_VMName := ""; al_Type := alertType; al_Severity := severity;
  al_Title := title; al_Message := message; al_Value := ""; al_Threshold := "";
  al_DetectedAt := now |}.

Definition with_store (store : string) (a : Alert) : Alert := {|
  al_ID := al_ID a; al_ServerName := al_ServerName a;
  al_ServerID := al_ServerID a; al_ServerType := al_ServerType a;
  al_StoreName := store; al_VMID := al_VMID a; al_VMName := al_VMName a;
  al_Type := al_Type a; al_Severity := al_Severity a; al_Title := al_Title a;
  al_Message := al_Message a; al_Value := al_Value a;
  al_Threshold := al_Threshold a; al_DetectedAt := al_DetectedAt a |}.

Definition with_vm (vmid : Z) (name : string) (a : Alert) : Alert := {|
  al_ID := al_ID a; al_ServerName := al_ServerName a;
  al_ServerID := al_ServerID a; al_ServerType := al_ServerType a;
  al_StoreName := al_StoreName a; al_VMID := vmid; al_VMName := name;
  al_Type := al_Type a; al_Severity := al_Severity a; al_Title := al_Title a;
  al_Message := al_Message a; al_Value := al_Value a;
  al_Threshold := al_Threshold a; al_DetectedAt := al_DetectedAt a |}.

Definition with_value (value threshold : string) (a : Alert) : Alert := {|
  al_ID := al_ID a; al_ServerName := al_ServerName a;
  al_ServerID := al_ServerID a; al_ServerType := al_ServerType a;
  al_StoreName := al_StoreName a; al_VMID := al_VMID a; al_VMName := al_VMName a;
  al_Type := al_Type a; al_Severity := al_Severity a; al_Title := al_Title a;
  al_Message := al_Message a; al_Value := value; al_Threshold := threshold;
  al_DetectedAt := al_DetectedAt a |}.

Definition pve_id (typ : string) (sv : PVEServer) : string :=
  typ +:+ ":pve:" +:+ Itoa (pves_ID sv).
Definition pbs_id (typ : string) (sv : PBSServer) : string :=
  typ +:+ ":pbs:" +:+ Itoa (pbss_ID sv).
Definition windows_id (typ : string) (sv : WindowsServer) : string :=
  typ +:+ ":windows:" +:+ Itoa (wins_ID sv).

(** ** Loading *)

Section load.
Context `{!MapRange, !ReadStore}.

Definition loadAlertData : result AlertData :=
  pveServers ← ListPVEServers;
  pbsServers ← ListPBSServers;
  windowsServers ← ListWindowsServers;
  pveReports ← GetLatestPVEReports;
  pbsReports ← GetLatestPBSReports;
  windowsReports ← GetRecentWindowsReportsByServer (wins_ID <$> windowsServers) 2;
  backupConfigs ← ListPVEVMBackupConfigsByServer;
  pveHeartbeats ← ListServerHeartbeatsByType "pve";
  pbsHeartbeats ← ListServerHeartbeatsByType "pbs";
  windowsHeartbeats ← ListServerHeartbeatsByType "windows";
  let pveReportIDs := (λ kv, pver_ID kv.2) <$> range pveReports in
  pveTasks ← GetPVEBackupTasksForReports pveReportIDs;
  pveStorages ← GetPVEStoragesForReports pveReportIDs;
  let pveStorageIDs := flat_map (λ kv, stg_ID <$> kv.2) (range pveStorages) in
  storageInfo ← GetPVEStorageInfoForStorages pveStorageIDs;
  let pbsReportIDs := (λ kv, pbsr_ID kv.2) <$> range pbsReports in
  pbsStores ← GetPBSStoresForReports pbsReportIDs;
  pbsTasks ← GetPBSTasksForReports pbsReportIDs;
  let pbsStoreIDs := flat_map (λ kv, ds_ID <$> kv.2) (range pbsStores) in
  pbsSnapshots ← GetPBSSnapshotsForStores pbsStoreIDs;
  let windowsReportIDs := flat_map (λ kv, winr_ID <$> kv.2) (range windowsReports) in
  windowsDisks ← GetWindowsDisksForReports windowsReportIDs;
  Ok {| PVEServers := pveServers; PVEReports := pveReports;
        PVEStorages := pveStorages; PVEStorageInfos := storageInfo;
        PVETasks := pveTasks; PVEBackupConfigs := backupConfigs;
        PVEHeartbeats := pveHeartbeats; PBSServers := pbsServers;
        PBSReports := pbsReports; PBSStores := pbsStores;
        PBSSnapshots := pbsSnapshots; PBSTasks := pbsTasks;
        PBSHeartbeats := pbsHeartbeats; WindowsServers := windowsServers;
        WindowsReports := windowsReports; WindowsDisks := windowsDisks;
        WindowsHeartbeats := windowsHeartbeats |}.

(** The data of [cfg], loaded when it has none. *)
Definition ensureAlertData (cfg : AlertConfigs) : result AlertData :=
  match Data cfg with
  | Some data => Ok data
  | None => loadAlertData
  end.

(** [svCfg := configs[sv.ID]; svCfg.ServerID = sv.ID], and the default of a
    PBS server without settings. *)
Definition resolved_pve (configs : gmap Z PVEAlertConfig) (id : Z) :
    PVEAlertConfig :=
  let c := get configs id in
  Build_PVEAlertConfig id (pac_DiskPct c) (pac_StaleHours c) (pac_BackupErr c)
    (pac_ExpectedFinishTime c) (pac_SwapAlert c).

Definition resolved_pbs (configs : gmap Z PBSAlertConfig) (id : Z) :
    PBSAlertConfig :=
  let c := default (Build_PBSAlertConfig 0 None None None true None)
             (configs !! id) in
  Build_PBSAlertConfig id (bac_DiskPct c) (bac_DaysUntilFull c)
    (bac_StaleHours c) (bac_VerifyAlert c) (bac_SwapAlert c).

Definition resolved_windows (configs : gmap Z WindowsAlertConfig) (id : Z) :
    WindowsAlertConfig :=
  Build_WindowsAlertConfig id (wac_DiskPct (get configs id)).

Definition LoadAlertConfigs : result AlertConfigs :=
  emailCfg ← GetEmailConfig;
  data ← loadAlertData;
  pveConfigs ← ListPVEAlertConfigs;
  pveVMConfigs ← ListPVEVMAlertConfigs;
  let pve := fold_left (λ m sv,
    <[pves_ID sv := resolved_pve pveConfigs (pves_ID sv)]> m) (PVEServers data) ∅ in
  let pveVM := fold_left (λ m sv,
    <[pves_ID sv := get pveVMConfigs (pves_ID sv)]> m) (PVEServers data) ∅ in
  pbsConfigs ← ListPBSAlertConfigs;
  let pbs := fold_left (λ m sv,
    <[pbss_ID sv := resolved_pbs pbsConfigs (pbss_ID sv)]> m) (PBSServers data) ∅ in
  windowsConfigs ← ListWindowsAlertConfigs;
  let windows := fold_left (λ m sv,
    <[wins_ID sv := resolved_windows windowsConfigs (wins_ID sv)]> m)
    (WindowsServers data) ∅ in
  Ok {| GlobalDiskPct := ec_AlertDiskPct emailCfg;
        GlobalWindowsDiskPct := ec_AlertWindowsDiskPct emailCfg;
        GlobalStaleHours := ec_AlertPBSStaleHours emailCfg;
        GlobalBackupErr := ec_AlertBackupErr emailCfg;
        GlobalPVEExpectedFinishTime := ec_AlertPVEExpectedFinishTime emailCfg;
        GlobalPVEHeartbeatMinutes := ec_AlertPVEHeartbeatMinutes emailCfg;
        Report := None; PVEConfigs := pve; PVEVMConfigs := pveVM;
        PBSConfigs := pbs; WindowsConfigs := windows; Data := Some data |}.
End load.

(** ** Evaluators

    An evaluator is a loop over the servers of one kind; [PVE_per_server] and its
    like are the body of the loop for one server, the alerts it appends. *)

Section evaluators.
Context `{!MapRange, !ReadStore} (now : Time) (local : Location).

Implicit Types cfg : AlertConfigs.
Implicit Types data : AlertData.

(** *** PVE *)

Definition pve_disk_one cfg data (sv : PVEServer) : list Alert :=
  let threshold := default (GlobalDiskPct cfg)
                     (pac_DiskPct (get (PVEConfigs cfg) (pves_ID sv))) in
  if threshold =? 0 then [] else
  match PVEReports data !! pves_ID sv with
  | None => []
  | Some rep =>
      omap (λ stg,
        if negb (Contains (stg_Content stg) "backup") then None else
        match PVEStorageInfos data !! stg_ID stg with
        | None => None
        | Some info =>
            if info_Total info =? 0 then None else
            let pct := percent (info_Used info) (info_Total info) in
            if pct <? threshold then None else
            Some (with_value (Itoa pct) (Itoa threshold +:+ "%")
              (with_store (stg_Storage stg)
                (new_alert now "pve" (pves_ID sv) (pves_DisplayName sv)
                  (pve_id "disk" sv +:+ ":" +:+ stg_Storage stg) AlertTypeDisk
                  (alertDiskSeverity pct) "Disco casi lleno"
                  (Itoa pct +:+ "% usado (" +:+ alertFmtBytes (info_Used info)
                    +:+ " / " +:+ alertFmtBytes (info_Total info) +:+ ")"))))
        end) (get (PVEStorages data) (pver_ID rep))
  end.

Definition evalPVEDisk cfg : result (list Alert) :=
  data ← ensureAlertData cfg;
  Ok (flat_map (pve_disk_one cfg data) (PVEServers data)).

(** The alert of a job without task details, or of one whose tasks are fine. *)
Definition job_alert (sv : PVEServer) (status : string) : Alert :=
  new_alert now "pve" (pves_ID sv) (pves_DisplayName sv)
    (pve_id "backup_error" sv) AlertTypeBackupError AlertSeverityCritical
    "Backup fallido" ("Último job: " +:+ status).

Definition vm_label (name : string) (vmid : Z) : string :=
  if str_empty name then "VM " +:+ Itoa vmid else name.

Definition pve_backup_errors_one cfg data (sv : PVEServer) : list Alert :=
  let svCfg := get (PVEConfigs cfg) (pves_ID sv) in
  let vmCfgs := get (PVEVMConfigs cfg) (pves_ID sv) in
  let backupCfgs := get (PVEBackupConfigs data) (pves_ID sv) in
  if negb (is_nil backupCfgs) && negb (HasActiveVMBackupConfigs backupCfgs)
  then [] else
  match PVEReports data !! pves_ID sv with
  | None => []
  | Some rep =>
      let tasks := get (PVETasks data) (pver_ID rep) in
      let status := TrimSpace (pver_BackupStatus rep) in
      if is_nil tasks then
        if negb (pveBackupStatusAlertable status) then []
        else if negb (resolveBackupErr svCfg None (GlobalBackupErr cfg)) then []
        else [job_alert sv status]
      else
        let hasTaskFailure :=
          existsb (λ t, pveBackupStatusAlertable (task_Status t)) tasks in
        omap (λ t,
          if negb (pveBackupStatusAlertable (task_Status t)) then None
          else if pveVMBackupExcluded backupCfgs (task_VMID t) then None
          else if negb (resolveBackupErr svCfg (findVMConfig vmCfgs (task_VMID t))
                         (GlobalBackupErr cfg)) then None
          else
            let name := vm_label (task_VMName t) (task_VMID t) in
            Some (with_vm (task_VMID t) name
              (new_alert now "pve" (pves_ID sv) (pves_DisplayName sv)
                (pve_id "backup_error" sv +:+ ":" +:+ Itoa (task_VMID t))
                AlertTypeBackupError AlertSeverityCritical "Backup fallido"
                (name +:+ ": " +:+ task_Status t)))) tasks ++
        (if negb hasTaskFailure && pveBackupStatusAlertable status &&
            resolveBackupErr svCfg None (GlobalBackupErr cfg)
         then [job_alert sv status] else [])
  end.

Definition evalPVEBackupErrors cfg : result (list Alert) :=
  data ← ensureAlertData cfg;
  Ok (flat_map (pve_backup_errors_one cfg data) (PVEServers data)).

Definition pve_backup_size_one cfg data (sv : PVEServer) : list Alert :=
  let vmCfgs := get (PVEVMConfigs cfg) (pves_ID sv) in
  let backupCfgs := get (PVEBackupConfigs data) (pves_ID sv) in
  if negb (is_nil backupCfgs) && negb (HasActiveVMBackupConfigs backupCfgs)
  then [] else
  if negb (existsb (λ vc, bool_decide (vac_MinSizeMB vc ≠ None)) vmCfgs)
  then [] else
  match PVEReports data !! pves_ID sv with
  | None => []
  | Some rep =>
      omap (λ t,
        if pveVMBackupExcluded backupCfgs (task_VMID t) then None else
        match findVMConfig vmCfgs (task_VMID t) ≫= vac_MinSizeMB with
        | None => None
        | Some minSizeMB =>
            let minBytes := wrap64 (wrap64 (minSizeMB * 1024) * 1024) in
            if minBytes <=? task_Size t then None else
            let name := vm_label (task_VMName t) (task_VMID t) in
            Some (with_value (alertFmtBytes (task_Size t)) (Itoa minSizeMB +:+ " MB")
              (with_vm (task_VMID t) name
                (new_alert now "pve" (pves_ID sv) (pves_DisplayName sv)
                  (pve_id "backup_size" sv +:+ ":" +:+ Itoa (task_VMID t))
                  AlertTypeBackupSize AlertSeverityWarning
                  "Backup demasiado pequeño"
                  (name +:+ ": " +:+ alertFmtBytes (task_Size t) +:+ " (mín. " +:+
                    Itoa minSizeMB +:+ " MB)"))))
        end) (get (PVETasks data) (pver_ID rep))
  end.

Definition evalPVEBackupSize cfg : result (list Alert) :=
  data ← ensureAlertData cfg;
  Ok (flat_map (pve_backup_size_one cfg data) (PVEServers data)).

Definition pve_stale_one cfg data (sv : PVEServer) : list Alert :=
  let configs := get (PVEBackupConfigs data) (pves_ID sv) in
  let svCfg := get (PVEConfigs cfg) (pves_ID sv) in
  let noVMsConfirmed := no_vms_confirmed sv in
  let alert reason :=
    new_alert now "pve" (pves_ID sv) (pves_DisplayName sv)
      (pve_id "pve_stale" sv) AlertTypePVEStale AlertSeverityCritical
      "Sin reporte" reason in
  if PVEStaleSuppressed configs svCfg noVMsConfirmed then [] else
  match PVEReports data !! pves_ID sv with
  | None => [alert reasonNone]
  | Some rep =>
      let '(stale, reason) :=
        match Report cfg with
        | Some r => IsStaleForLoadedPVEConfig r (pver_ReportedAt rep) configs svCfg
                      (GlobalPVEExpectedFinishTime cfg) noVMsConfirmed
        | None => (pver_IsStale rep, pver_StaleReason rep)
        end in
      if negb stale then []
      else [alert (if str_empty reason then "sin reporte reciente" else reason)]
  end.

Definition evalPVEStale cfg : result (list Alert) :=
  data ← ensureAlertData cfg;
  Ok (flat_map (pve_stale_one cfg data) (PVEServers data)).

(** [time.Duration(cfg.GlobalPVEHeartbeatMinutes) * time.Minute]. *)
Definition heartbeat_threshold cfg : Duration :=
  wrap64 (GlobalPVEHeartbeatMinutes cfg * Minute).

(** The alert of a server last seen at [lastSeen], on the three kinds. *)
Definition heartbeat_alert cfg (serverType : string) (id : Z)
    (name alertID alertType prefix : string) (lastSeen : Time) : list Alert :=
  let age := Sub now lastSeen in
  if age <=? heartbeat_threshold cfg then [] else
  let since := alertFmtAge age in
  [with_value since (Itoa (GlobalPVEHeartbeatMinutes cfg) +:+ " min")
    (new_alert now serverType id name alertID alertType AlertSeverityCritical
      "Servidor offline" (prefix +:+ since))].

Definition pve_heartbeat_one cfg data (sv : PVEServer) : list Alert :=
  match PVEHeartbeats data !! pves_ID sv with
  | None => []
  | Some hb =>
      heartbeat_alert cfg "pve" (pves_ID sv) (pves_DisplayName sv)
        (pve_id "pve_heartbeat" sv) AlertTypePVEHeartbeat
        "No se recibe señal del servidor desde hace " (hb_LastSeenAt hb)
  end.

Definition evalPVEHeartbeat cfg : result (list Alert) :=
  if GlobalPVEHeartbeatMinutes cfg <=? 0 then Ok [] else
  data ← ensureAlertData cfg;
  Ok (flat_map (pve_heartbeat_one cfg data) (PVEServers data)).

Definition missing_vm_alert (sv : PVEServer) (c : VMBackupConfig) : Alert :=
  let name := if str_empty (vm_VMName c) then "VM " +:+ vm_VMID c else vm_VMName c in
  with_vm (ParseInt (vm_VMID c)).1 name
    (new_alert now "pve" (pves_ID sv) (pves_DisplayName sv)
      (pve_id "pve_missing_vm" sv +:+ ":" +:+ vm_VMID c)
      AlertTypePVEMissingVM AlertSeverityCritical "VM sin backup"
      (name +:+ ": no aparece en el último job")).

Definition pve_missing_vm_one data (sv : PVEServer) : list Alert :=
  match PVEReports data !! pves_ID sv with
  | None => []
  | Some rep =>
      match get (PVETasks data) (pver_ID rep) with
      | [] => []
      | (first :: _) as tasks =>
          let configs := get (PVEBackupConfigs data) (pves_ID sv) in
          let jobDay := Weekday local (UnixTime (task_StartTime first)) in
          let seenVMIDs : gset string :=
            list_to_set ((λ t, Itoa (task_VMID t)) <$> tasks) in
          omap (λ c,
            if vm_IsExcluded c || negb (VMScheduledForDay c jobDay) ||
               bool_decide (vm_VMID c ∈ seenVMIDs)
            then None else Some (missing_vm_alert sv c)) configs
      end
  end.

Definition evalPVEMissingVM cfg : result (list Alert) :=
  data ← ensureAlertData cfg;
  Ok (flat_map (pve_missing_vm_one data) (PVEServers data)).

Definition unknown_vm_alert (sv : PVEServer) (t : PVEBackupTask) : Alert :=
  let name := vm_label (task_VMName t) (task_VMID t) in
  with_vm (task_VMID t) name
    (new_alert now "pve" (pves_ID sv) (pves_DisplayName sv)
      (pve_id "pve_unknown_vm" sv +:+ ":" +:+ Itoa (task_VMID t))
      AlertTypePVEUnknownVM AlertSeverityWarning "VM no contemplada"
      (name +:+ ": aparece en el job pero no está en el backup config")).

Definition pve_unknown_vm_one data (sv : PVEServer) : list Alert :=
  match PVEReports data !! pves_ID sv with
  | None => []
  | Some rep =>
      let tasks := get (PVETasks data) (pver_ID rep) in
      let configs := get (PVEBackupConfigs data) (pves_ID sv) in
      if is_nil configs then [] else
      let configured : gset string := list_to_set (vm_VMID <$> configs) in
      omap (λ t,
        if bool_decide (Itoa (task_VMID t) ∈ configured) then None
        else Some (unknown_vm_alert sv t)) tasks
  end.

Definition evalPVEUnknownVM cfg : result (list Alert) :=
  data ← ensureAlertData cfg;
  Ok (flat_map (pve_unknown_vm_one data) (PVEServers data)).

(** *** Swap *)

Definition swap_alert (serverType : string) (id : Z) (name alertID : string)
    (swapAlert : option Z) (hb : ServerHeartbeat)
    (rep : option (HostSwap * Time)) : list Alert :=
  if bool_decide (swapAlert = Some 0) then [] else
  let '(reportSwap, reportTime) :=
    default (Build_HostSwap 0 0 false, zeroTime) rep in
  let '(swap, known) :=
    currentHostSwap hb reportSwap reportTime (bool_decide (is_Some rep)) in
  if negb known || negb (sw_Enabled swap) then [] else
  [with_value (alertFmtBytes (sw_Used swap)) "swap desactivada"
    (new_alert now serverType id name alertID AlertTypeSwap
      AlertSeverityWarning "Swap activa"
      (hostSwapMessage (sw_Used swap) (sw_Total swap)))].

Definition pve_swap_one cfg data (sv : PVEServer) : list Alert :=
  swap_alert "pve" (pves_ID sv) (pves_DisplayName sv) (pve_id "swap" sv)
    (PVEConfigs cfg !! pves_ID sv ≫= pac_SwapAlert)
    (get (PVEHeartbeats data) (pves_ID sv))
    ((λ rep, (Build_HostSwap (pver_SwapTotal rep) (pver_SwapUsed rep)
                (pver_SwapEnabled rep), pver_ReportedAt rep)) <$>
      PVEReports data !! pves_ID sv).

Definition pbs_swap_one cfg data (sv : PBSServer) : list Alert :=
  swap_alert "pbs" (pbss_ID sv) (pbss_DisplayName sv) (pbs_id "swap" sv)
    (PBSConfigs cfg !! pbss_ID sv ≫= bac_SwapAlert)
    (get (PBSHeartbeats data) (pbss_ID sv))
    ((λ rep, (Build_HostSwap (pbsr_SwapTotal rep) (pbsr_SwapUsed rep)
                (pbsr_SwapEnabled rep), pbsr_ReportedAt rep)) <$>
      PBSReports data !! pbss_ID sv).

Definition evalHostSwap cfg : result (list Alert) :=
  data ← ensureAlertData cfg;
  Ok (flat_map (pve_swap_one cfg data) (PVEServers data) ++
      flat_map (pbs_swap_one cfg data) (PBSServers data)).

(** *** PBS *)

Definition pbs_report_stale_one cfg data (sv : PBSServer) : list Alert :=
  let staleHours := default (GlobalStaleHours cfg)
                      (PBSConfigs cfg !! pbss_ID sv ≫= bac_StaleHours) in
  let alert message :=
    new_alert now "pbs" (pbss_ID sv) (pbss_DisplayName sv)
      (pbs_id "pbs_report_stale" sv) AlertTypePBSReportStale
      AlertSeverityCritical "Sin reporte" message in
  if staleHours =? 0 then [] else
  match PBSReports data !! pbss_ID sv with
  | None => [alert reasonNone]
  | Some rep =>
      let age := Sub now (pbsr_ReportedAt rep) in
      if age <=? wrap64 (staleHours * Hour) then [] else
      [with_value (alertFmtAge age) (Itoa staleHours +:+ "h")
        (alert ("Último reporte hace " +:+ alertFmtAge age +:+ " (umbral " +:+
                Itoa staleHours +:+ "h)"))]
  end.

Definition evalPBSReportStale cfg : result (list Alert) :=
  data ← ensureAlertData cfg;
  Ok (flat_map (pbs_report_stale_one cfg data) (PBSServers data)).

Definition pbs_heartbeat_one cfg data (sv : PBSServer) : list Alert :=
  match PBSHeartbeats data !! pbss_ID sv with
  | None => []
  | Some hb =>
      heartbeat_alert cfg "pbs" (pbss_ID sv) (pbss_DisplayName sv)
        (pbs_id "pbs_heartbeat" sv) AlertTypePBSHeartbeat
        "No se recibe señal del servidor PBS desde hace " (hb_LastSeenAt hb)
  end.

Definition evalPBSHeartbeat cfg : result (list Alert) :=
  if GlobalPVEHeartbeatMinutes cfg <=? 0 then Ok [] else
  data ← ensureAlertData cfg;
  Ok (flat_map (pbs_heartbeat_one cfg data) (PBSServers data)).

(** The datastores of a server's latest report. *)
Definition latest_stores data (sv : PBSServer) : list PBSStore :=
  match PBSReports data !! pbss_ID sv with
  | None => []
  | Some rep => get (PBSStores data) (pbsr_ID rep)
  end.

Definition pbs_disk_one cfg data (sv : PBSServer) : list Alert :=
  let threshold := default (GlobalDiskPct cfg)
                     (bac_DiskPct (get (PBSConfigs cfg) (pbss_ID sv))) in
  if threshold =? 0 then [] else
  omap (λ ds,
    if ds_Total ds =? 0 then None else
    let pct := percent (ds_Used ds) (ds_Total ds) in
    if pct <? threshold then None else
    Some (with_value (Itoa pct) (Itoa threshold +:+ "%")
      (with_store (ds_Store ds)
        (new_alert now "pbs" (pbss_ID sv) (pbss_DisplayName sv)
          (pbs_id "disk" sv +:+ ":" +:+ ds_Store ds) AlertTypeDisk
          (alertDiskSeverity pct) "Disco casi lleno"
          (pbsDiskMessage pct (ds_Used ds) (ds_Total ds)
            (ds_EstimatedFullDate ds) now))))) (latest_stores data sv).

Definition evalPBSDisk cfg : result (list Alert) :=
  data ← ensureAlertData cfg;
  Ok (flat_map (pbs_disk_one cfg data) (PBSServers data)).

Definition pbs_fill_one cfg data (sv : PBSServer) : list Alert :=
  match bac_DaysUntilFull (get (PBSConfigs cfg) (pbss_ID sv)) with
  | None => []
  | Some threshold =>
      if threshold =? 0 then [] else
      omap (λ ds,
        if ds_EstimatedFullDate ds =? 0 then None else
        let fullTime := UnixTime (ds_EstimatedFullDate ds) in
        if negb (After fullTime now) then None else
        let daysLeft := days_until fullTime now in
        if threshold <=? daysLeft then None else
        Some (with_value (Itoa daysLeft +:+ " días") (Itoa threshold +:+ " días")
          (with_store (ds_Store ds)
            (new_alert now "pbs" (pbss_ID sv) (pbss_DisplayName sv)
              (pbs_id "pbs_fill" sv +:+ ":" +:+ ds_Store ds) AlertTypePBSFill
              (if daysLeft <? 7 then AlertSeverityCritical else AlertSeverityWarning)
              "Disco se llena pronto"
              ("Se llenará en " +:+ Itoa daysLeft +:+ " días (" +:+
                Format02Jan local fullTime +:+ ")"))))) (latest_stores data sv)
  end.

Definition evalPBSFill cfg : result (list Alert) :=
  data ← ensureAlertData cfg;
  Ok (flat_map (pbs_fill_one cfg data) (PBSServers data)).

Definition evalPBSStale cfg : result (list Alert) := Ok [].

Definition pbs_verify_one cfg data (sv : PBSServer) : list Alert :=
  if negb (bac_VerifyAlert (get (PBSConfigs cfg) (pbss_ID sv))) then [] else
  flat_map (λ ds,
    omap (λ sn,
      if str_empty (sn_VerificationState sn) ||
         bool_decide (sn_VerificationState sn = "ok") then None else
      Some (with_value (sn_VerificationState sn) ""
        (with_store (ds_Store ds)
          (new_alert now "pbs" (pbss_ID sv) (pbss_DisplayName sv)
            (pbs_id "pbs_verify" sv +:+ ":" +:+ ds_Store ds +:+ ":" +:+
              sn_BackupType sn +:+ "/" +:+ sn_BackupID sn)
            AlertTypePBSVerify AlertSeverityWarning "Verificación fallida"
            (sn_BackupType sn +:+ "/" +:+ sn_BackupID sn +:+ ": verificación " +:+
              sn_VerificationState sn)))))
      (get (PBSSnapshots data) (ds_ID ds))) (latest_stores data sv).

Definition evalPBSVerify cfg : result (list Alert) :=
  data ← ensureAlertData cfg;
  Ok (flat_map (pbs_verify_one cfg data) (PBSServers data)).

Definition pbs_task_failures_one data (sv : PBSServer) : list Alert :=
  match PBSReports data !! pbss_ID sv with
  | None => []
  | Some report =>
      omap (λ task,
        if negb (PBSTaskFailed task) then None else
        let '(alertType, title, message, storeName) := pbsTaskFailureAlert task in
        Some (with_value (ptask_Status task) ""
          (with_store storeName
            (new_alert now "pbs" (pbss_ID sv) (pbss_DisplayName sv)
              (pbsTaskAlertID alertType (pbss_ID sv) task) alertType
              AlertSeverityCritical title message))))
        (get (PBSTasks data) (pbsr_ID report))
  end.

Definition evalPBSTaskFailures cfg : result (list Alert) :=
  data ← ensureAlertData cfg;
  Ok (flat_map (pbs_task_failures_one data) (PBSServers data)).

(** *** Windows *)

Definition windows_disk_one cfg data (sv : WindowsServer) : list Alert :=
  let threshold := default (GlobalWindowsDiskPct cfg)
                     (WindowsConfigs cfg !! wins_ID sv ≫= wac_DiskPct) in
  if threshold <=? 0 then [] else
  match get (WindowsReports data) (wins_ID sv) with
  | [] => []
  | report :: _ =>
      omap (λ disk,
        if negb (isWindowsLogicalAlertDisk disk) then None
        else if disk_Total disk <=? 0 then None else
        let pct := percent (disk_Used disk) (disk_Total disk) in
        if pct <? threshold then None else
        Some (with_value (Itoa pct +:+ "%") (Itoa threshold +:+ "%")
          (with_store (disk_Name disk)
            (new_alert now "windows" (wins_ID sv) (wins_DisplayName sv)
              (windows_id "disk" sv +:+ ":" +:+ disk_Name disk) AlertTypeDisk
              AlertSeverityCritical "Disco casi lleno"
              (disk_Name disk +:+ " al " +:+ Itoa pct +:+ "% (" +:+
                alertFmtBytes (disk_Free disk) +:+ " libre)")))))
        (get (WindowsDisks data) (winr_ID report))
  end.

Definition evalWindowsDisk cfg : result (list Alert) :=
  data ← ensureAlertData cfg;
  Ok (flat_map (windows_disk_one cfg data) (WindowsServers data)).

(** The last heartbeat, or the last report when there is no heartbeat. *)
Definition windows_last_seen data (sv : WindowsServer) : Time :=
  let lastSeen := default zeroTime
                    (hb_LastSeenAt <$> WindowsHeartbeats data !! wins_ID sv) in
  if IsZero lastSeen then
    match get (WindowsReports data) (wins_ID sv) with
    | report :: _ => winr_ReportedAt report
    | [] => lastSeen
    end
  else lastSeen.

Definition windows_heartbeat_one cfg data (sv : WindowsServer) : list Alert :=
  let lastSeen := windows_last_seen data sv in
  if IsZero lastSeen then [] else
  heartbeat_alert cfg "windows" (wins_ID sv) (wins_DisplayName sv)
    (windows_id "windows_heartbeat" sv) AlertTypeWindowsHeartbeat
    "No se recibe senal del servidor Windows desde hace " lastSeen.

Definition evalWindowsHeartbeat cfg : result (list Alert) :=
  if GlobalPVEHeartbeatMinutes cfg <=? 0 then Ok [] else
  data ← ensureAlertData cfg;
  Ok (flat_map (windows_heartbeat_one cfg data) (WindowsServers data)).

Definition health_fine (health : string) : bool :=
  str_empty health || bool_decide (health = "ok") ||
  bool_decide (health = "healthy") || bool_decide (health = "normal").

Definition windows_disk_health_one data (sv : WindowsServer) : list Alert :=
  match get (WindowsReports data) (wins_ID sv) with
  | [] => []
  | report :: _ =>
      omap (λ disk,
        if negb (isWindowsLogicalAlertDisk disk) then None
        else if health_fine (TrimSpace (ToLower (disk_Health disk))) then None else
        Some (with_value (disk_Health disk) ""
          (with_store (disk_Name disk)
            (new_alert now "windows" (wins_ID sv) (wins_DisplayName sv)
              (windows_id "windows_disk_health" sv +:+ ":" +:+ disk_Name disk)
              AlertTypeWindowsDiskHealth AlertSeverityCritical "Salud de disco"
              (disk_Name disk +:+ " informa estado " +:+ disk_Health disk)))))
        (get (WindowsDisks data) (winr_ID report))
  end.

Definition evalWindowsDiskHealth cfg : result (list Alert) :=
  data ← ensureAlertData cfg;
  Ok (flat_map (windows_disk_health_one data) (WindowsServers data)).

Definition volume_name (disk : WindowsDisk) : string :=
  ToUpper (TrimSpace (disk_Name disk)).

Definition missing_volume_alert (sv : WindowsServer) (name : string) : Alert :=
  with_value name ""
    (with_store name
      (new_alert now "windows" (wins_ID sv) (wins_DisplayName sv)
        (windows_id "windows_volume_missing" sv +:+ ":" +:+ name)
        AlertTypeWindowsVolumeGone AlertSeverityCritical "Volumen no detectado"
        (name +:+
          " aparecía en el reporte anterior y no aparece en el último reporte"))).

Definition windows_missing_volume_one data (sv : WindowsServer) : list Alert :=
  match get (WindowsReports data) (wins_ID sv) with
  | latest :: before :: _ =>
      let current := get (WindowsDisks data) (winr_ID latest) in
      let previous := get (WindowsDisks data) (winr_ID before) in
      let currentNames : gset string :=
        list_to_set (omap (λ disk,
          if isWindowsLogicalAlertDisk disk then Some (volume_name disk)
          else None) current) in
      omap (λ disk,
        if negb (isWindowsLogicalAlertDisk disk) then None
        else if bool_decide (volume_name disk ∈ currentNames) then None
        else Some (missing_volume_alert sv (volume_name disk))) previous
  | _ => []
  end.

Definition evalWindowsMissingVolume cfg : result (list Alert) :=
  data ← ensureAlertData cfg;
  Ok (flat_map (windows_missing_volume_one data) (WindowsServers data)).

(** *** The registry and its run *)

Definition evaluators : list (AlertConfigs → result (list Alert)) := [
  evalPVEDisk; evalPVEBackupErrors; evalPVEBackupSize; evalPVEMissingVM;
  evalPVEUnknownVM; evalPVEStale; evalPVEHeartbeat; evalHostSwap;
  evalPBSReportStale; evalPBSHeartbeat; evalPBSDisk; evalPBSFill;
  evalPBSVerify; evalPBSTaskFailures; evalWindowsDisk; evalWindowsHeartbeat;
  evalWindowsDiskHealth; evalWindowsMissingVolume ].

(** The loop of [RunAll], on [all] and [evaluatorErrors]. *)
Fixpoint run_evaluators (cfg : AlertConfigs)
    (evals : list (AlertConfigs → result (list Alert)))
    (all : list Alert) (errs : list error) : list Alert * list error :=
  match evals with
  | [] => (all, errs)
  | eval :: evals =>
      match eval cfg with
      | Err e => run_evaluators cfg evals all (errs ++ [e])
      | Ok alerts => run_evaluators cfg evals (all ++ alerts) errs
      end
  end.

Definition set_data cfg data : AlertConfigs := {|
  GlobalDiskPct := GlobalDiskPct cfg;
  GlobalWindowsDiskPct := GlobalWindowsDiskPct cfg;
  GlobalStaleHours := GlobalStaleHours cfg;
  GlobalBackupErr := GlobalBackupErr cfg;
  GlobalPVEExpectedFinishTime := GlobalPVEExpectedFinishTime cfg;
  GlobalPVEHeartbeatMinutes := GlobalPVEHeartbeatMinutes cfg;
  Report := Report cfg; PVEConfigs := PVEConfigs cfg;
  PVEVMConfigs := PVEVMConfigs cfg; PBSConfigs := PBSConfigs cfg;
  WindowsConfigs := WindowsConfigs cfg; Data := Some data |}.

Definition set_report cfg (rep : option ReportService) : AlertConfigs := {|
  GlobalDiskPct := GlobalDiskPct cfg;
  GlobalWindowsDiskPct := GlobalWindowsDiskPct cfg;
  GlobalStaleHours := GlobalStaleHours cfg;
  GlobalBackupErr := GlobalBackupErr cfg;
  GlobalPVEExpectedFinishTime := GlobalPVEExpectedFinishTime cfg;
  GlobalPVEHeartbeatMinutes := GlobalPVEHeartbeatMinutes cfg;
  Report := rep; PVEConfigs := PVEConfigs cfg;
  PVEVMConfigs := PVEVMConfigs cfg; PBSConfigs := PBSConfigs cfg;
  WindowsConfigs := WindowsConfigs cfg; Data := Data cfg |}.

Definition RunAll cfg : list Alert * option error :=
  match ensureAlertData cfg with
  | Err e => ([], Some e)
  | Ok data =>
      let '(all, errs) := run_evaluators (set_data cfg data) evaluators [] [] in
      (all, match errs with [] => None | _ => Some (ErrPartial (ErrJoin errs)) end)
  end.

Definition CurrentAlertsRaw (rep : option ReportService) :
    list Alert * option error :=
  match LoadAlertConfigs with
  | Err e => ([], Some e)
  | Ok cfg => RunAll (set_report cfg rep)
  end.
End evaluators.

(** [errors.As(err, &partial)] walks the tree of wrapped errors. *)
Fixpoint IsPartialAlertsError (err : error) : bool :=
  match err with
  | ErrMsg _ => false
  | ErrWrap _ inner => IsPartialAlertsError inner
  | ErrJoin errs => existsb IsPartialAlertsError errs
  | ErrPartial _ => true
  | ErrPushHTTP _ => false
  end.

Definition is_partial (err : option error) : bool :=
  match err with Some e => IsPartialAlertsError e | None => false end.

(** ** What the users of an evaluation see *)

Section views.
Context `{!MapRange, !ReadStore}.

Definition in_maintenance (maintenance : gmap string ServerMaintenance)
    (a : Alert) : bool :=
  bool_decide (is_Some
    (maintenance !! ServerMaintenanceKey (al_ServerType a) (al_ServerID a))).

(** With the answer of the query for the servers in maintenance. *)
Definition filter_maintenance (answer : result (gmap string ServerMaintenance))
    (alerts : list Alert) : list Alert :=
  match answer with
  | Err _ => alerts
  | Ok maintenance =>
      if bool_decide (maintenance = ∅) then alerts
      else List.filter (λ a, negb (in_maintenance maintenance a)) alerts
  end.

Definition FilterMaintenanceAlerts (alerts : list Alert) : list Alert :=
  if is_nil alerts then alerts
  else filter_maintenance GetActiveServerMaintenances alerts.

Definition CurrentAlerts (now : Time) (local : Location)
    (rep : option ReportService) : result (list Alert) :=
  let '(alerts, err) := CurrentAlertsRaw now local rep in
  match err with
  | Some e => if IsPartialAlertsError e then Ok (FilterMaintenanceAlerts alerts)
              else Err e
  | None => Ok (FilterMaintenanceAlerts alerts)
  end.

Definition ActivePersistedAlerts : result (list Alert) :=
  all ← ListPresentAlerts;
  let all := FilterMaintenanceAlerts all in
  let supps := ignore_err ∅ GetActiveSuppressions in
  Ok (List.filter (λ a, negb (bool_decide (is_Some (supps !! al_ID a)))) all).

(** The loop of [ActiveAlertCounts]: critical and warning. *)
Definition count_step (n : Z * Z) (a : Alert) : Z * Z :=
  if bool_decide (al_Severity a = AlertSeverityCritical)
  then (n.1 + 1, n.2) else (n.1, n.2 + 1).

Definition ActiveAlertCounts : Z * Z :=
  match ActivePersistedAlerts with
  | Err _ => (0, 0)
  | Ok all => fold_left count_step all (0, 0)
  end.
End views.

(** ** The run, unfolded *)

(** What the evaluators of the registry return once the snapshot is loaded: a normal form
    of [RunAll] to reason about its alerts one evaluator at a time ([run_all_alerts]). *)
Definition alert_lists (now : Time) (local : Location) (cfg : AlertConfigs)
    (data : AlertData) : list (list Alert) :=
  let hb {A} (l : list A) := if GlobalPVEHeartbeatMinutes cfg <=? 0 then [] else l in
  [
    flat_map (pve_disk_one now cfg data) (PVEServers data);
    flat_map (pve_backup_errors_one now cfg data) (PVEServers data);
    flat_map (pve_backup_size_one now cfg data) (PVEServers data);
    flat_map (pve_missing_vm_one now local data) (PVEServers data);
    flat_map (pve_unknown_vm_one now data) (PVEServers data);
    flat_map (pve_stale_one now cfg data) (PVEServers data);
    hb (flat_map (pve_heartbeat_one now cfg data) (PVEServers data));
    flat_map (pve_swap_one now cfg data) (PVEServers data) ++
      flat_map (pbs_swap_one now cfg data) (PBSServers data);
    flat_map (pbs_report_stale_one now cfg data) (PBSServers data);
    hb (flat_map (pbs_heartbeat_one now cfg data) (PBSServers data));
    flat_map (pbs_disk_one now cfg data) (PBSServers data);
    flat_map (pbs_fill_one now local cfg data) (PBSServers data);
    flat_map (pbs_verify_one now cfg data) (PBSServers data);
    flat_map (pbs_task_failures_one now data) (PBSServers data);
    flat_map (windows_disk_one now cfg data) (WindowsServers data);
    hb (flat_map (windows_heartbeat_one now cfg data) (WindowsServers data));
    flat_map (windows_disk_health_one now data) (WindowsServers data);
    flat_map (windows_missing_volume_one now data) (WindowsServers data) ].

Definition all_alerts (now : Time) (local : Location) (cfg : AlertConfigs)
    (data : AlertData) : list Alert := concat (alert_lists now local cfg data).

Definition alert_types : list string := [
  AlertTypeDisk; AlertTypeBackupError; AlertTypeBackupSize; AlertTypePBSFill;
  AlertTypePBSVerify; AlertTypePBSSyncFailed; AlertTypePBSGCFailed;
  AlertTypePVEStale; AlertTypePVEHeartbeat; AlertTypePBSReportStale;
  AlertTypePBSHeartbeat; AlertTypePVEMissingVM; AlertTypePVEUnknownVM;
  AlertTypeSwap; AlertTypeWindowsHeartbeat; AlertTypeWindowsDiskHealth;
  AlertTypeWindowsVolumeGone ].

(** An alert names a server of the snapshot. *)
Definition of_server (data : AlertData) (a : Alert) : Prop :=
  (al_ServerType a = "pve" ∧ ∃ sv, sv ∈ PVEServers data ∧
     al_ServerID a = pves_ID sv ∧ al_ServerName a = pves_DisplayName sv) ∨
  (al_ServerType a = "pbs" ∧ ∃ sv, sv ∈ PBSServers data ∧
     al_ServerID a = pbss_ID sv ∧ al_ServerName a = pbss_DisplayName sv) ∨
  (al_ServerType a = "windows" ∧ ∃ sv, sv ∈ WindowsServers data ∧
     al_ServerID a = wins_ID sv ∧ al_ServerName a = wins_DisplayName sv).

(** [suffix] is empty or starts with a colon. *)
Definition id_suffix (suffix : string) : Prop :=
  match suffix with EmptyString => True | String c _ => c = ":"%char end.

Record alert_wf (now : Time) (data : AlertData) (a : Alert) : Prop := {
  wf_type : al_Type a ∈ alert_types;
  wf_severity : al_Severity a = AlertSeverityCritical ∨
                al_Severity a = AlertSeverityWarning;
  wf_server : of_server data a;
  wf_id : ∃ suffix, id_suffix suffix ∧
    al_ID a = al_Type a +:+ ":" +:+ al_ServerType a +:+ ":" +:+
              Itoa (al_ServerID a) +:+ suffix;
  wf_detected : al_DetectedAt a = now
}.

(** ** Lemmas: the run *)

Section run_lemmas.
Context `{!MapRange, !ReadStore} (now : Time) (local : Location).

Lemma ensureAlertData_set cfg data : ensureAlertData (set_data cfg data) = Ok data.
Proof. done. Qed.

Lemma run_evaluators_ok cfg evals lists all errs :
  Forall2 (λ eval alerts, eval cfg = Ok alerts) evals lists →
  run_evaluators cfg evals all errs = (all ++ concat lists, errs).
Proof.
  intros Hall. revert all. induction Hall as [|eval alerts evals lists He _ IH];
    intros all; simpl; [by rewrite app_nil_r|].
  by rewrite He, IH, app_assoc.
Qed.

Lemma evaluators_ok cfg data :
  Data cfg = Some data →
  Forall2 (λ eval alerts, eval cfg = Ok alerts) (evaluators now local)
    (alert_lists now local cfg data).
Proof.
  intros Hd. assert (ensureAlertData cfg = Ok data) as Hc
    by (unfold ensureAlertData; by rewrite Hd).
  unfold evaluators, alert_lists, evalPVEDisk, evalPVEBackupErrors,
    evalPVEBackupSize, evalPVEMissingVM, evalPVEUnknownVM, evalPVEStale,
    evalPVEHeartbeat, evalHostSwap, evalPBSReportStale, evalPBSHeartbeat,
    evalPBSDisk, evalPBSFill, evalPBSVerify, evalPBSTaskFailures,
    evalWindowsDisk, evalWindowsHeartbeat, evalWindowsDiskHealth,
    evalWindowsMissingVolume.
  repeat apply Forall2_cons_2; try apply Forall2_nil_2; cbv beta;
    rewrite ?Hc; try reflexivity; by case_match.
Qed.

Lemma run_all_alerts cfg data :
  run_evaluators (set_data cfg data) (evaluators now local) [] [] =
  (all_alerts now local cfg data, []).
Proof. exact (run_evaluators_ok _ _ _ [] [] (evaluators_ok (set_data cfg data) data eq_refl)). Qed.
End run_lemmas.

(** ** Lemmas: well-formed alerts *)

Lemma alert_type_no_colon t : t ∈ alert_types → has_byte ":" t = false.
Proof. revert t. apply Forall_forall. repeat constructor. Qed.

#[export] Hint Resolve alert_type_no_colon : probak.

(** Every branch of an evaluator's body ends in the alerts of one or no case:
    [alert_case H] takes [H : a ∈ body] to one branch. *)
Ltac alert_case H :=
  unfold heartbeat_alert, pve_swap_one, pbs_swap_one, swap_alert,
    pbsTaskFailureAlert in H; cbv zeta in H;
  repeat match type of H with
  | _ ∈ [] => by apply not_elem_of_nil in H
  | _ ∈ [_] => apply list_elem_of_singleton in H
  | _ ∈ omap _ _ => apply list_elem_of_omap in H as (? & ? & H)
  | _ ∈ flat_map _ _ => apply elem_of_flat_map in H as (? & ? & H)
  | _ ∈ _ ++ _ => apply elem_of_app in H as [H|H]
  | None = Some _ => discriminate H
  | Some _ = Some _ => apply (inj Some) in H
  | match (if ?b then _ else _) with _ => _ end = _ => destruct b eqn:?
  | _ ∈ (if ?b then _ else _) => destruct b eqn:?
  | (if ?b then _ else _) = _ => destruct b eqn:?
  | _ ∈ match ?x with _ => _ end => destruct x eqn:?
  | match ?x with _ => _ end = _ => destruct x eqn:?
  end.

(** The identifier of a literal alert. *)
Ltac id_shape :=
  unfold pve_id, pbs_id, windows_id, pbsTaskAlertID; autorewrite with probak_str;
  first [ exists ""; split; [done|]; rewrite app_nil_r_str; reflexivity
        | eexists (String ":" _); split; [reflexivity|];
          autorewrite with probak_str; reflexivity ].

Lemma severity_if (b : bool) :
  (if b then AlertSeverityCritical else AlertSeverityWarning) = AlertSeverityCritical ∨
  (if b then AlertSeverityCritical else AlertSeverityWarning) = AlertSeverityWarning.
Proof. destruct b; auto. Qed.

Ltac wf_alert :=
  split;
    [ apply list_elem_of_In; cbn; tauto
    | cbn; first [by left | by right | by apply severity_if]
    | unfold of_server; cbn; eauto 8
    | cbn; id_shape
    | reflexivity ].

Section wf.
Context (now : Time) (local : Location) (cfg : AlertConfigs) (data : AlertData).

Let wf_all {S} (servers : list S) (one : S → list Alert) : Prop :=
  Forall (alert_wf now data) (flat_map one servers).

Lemma wf_all_intro {S} (servers : list S) (one : S → list Alert) :
  (∀ sv a, sv ∈ servers → a ∈ one sv → alert_wf now data a) → wf_all servers one.
Proof.
  intros H. apply Forall_forall. intros a (sv & Hsv & Ha)%elem_of_flat_map. eauto.
Qed.

Ltac wf_evaluator f :=
  apply wf_all_intro; intros sv a Hsv Ha; unfold f in Ha; cbv zeta in Ha;
  alert_case Ha; subst a; wf_alert.

Lemma pve_disk_wf : wf_all (PVEServers data) (pve_disk_one now cfg data).
Proof. wf_evaluator pve_disk_one. Qed.

Lemma pve_backup_errors_wf :
  wf_all (PVEServers data) (pve_backup_errors_one now cfg data).
Proof. wf_evaluator pve_backup_errors_one. Qed.

Lemma pve_backup_size_wf :
  wf_all (PVEServers data) (pve_backup_size_one now cfg data).
Proof. wf_evaluator pve_backup_size_one. Qed.

Lemma pve_missing_vm_wf :
  wf_all (PVEServers data) (pve_missing_vm_one now local data).
Proof. wf_evaluator pve_missing_vm_one. Qed.

Lemma pve_unknown_vm_wf : wf_all (PVEServers data) (pve_unknown_vm_one now data).
Proof. wf_evaluator pve_unknown_vm_one. Qed.

Lemma pve_stale_wf : wf_all (PVEServers data) (pve_stale_one now cfg data).
Proof. wf_evaluator pve_stale_one. Qed.

Lemma pve_heartbeat_wf : wf_all (PVEServers data) (pve_heartbeat_one now cfg data).
Proof. wf_evaluator pve_heartbeat_one. Qed.

Lemma pve_swap_wf : wf_all (PVEServers data) (pve_swap_one now cfg data).
Proof. wf_evaluator pve_swap_one. Qed.

Lemma pbs_swap_wf : wf_all (PBSServers data) (pbs_swap_one now cfg data).
Proof. wf_evaluator pbs_swap_one. Qed.

Lemma pbs_report_stale_wf :
  wf_all (PBSServers data) (pbs_report_stale_one now cfg data).
Proof. wf_evaluator pbs_report_stale_one. Qed.

Lemma pbs_heartbeat_wf : wf_all (PBSServers data) (pbs_heartbeat_one now cfg data).
Proof. wf_evaluator pbs_heartbeat_one. Qed.

Lemma pbs_disk_wf : wf_all (PBSServers data) (pbs_disk_one now cfg data).
Proof. wf_evaluator pbs_disk_one. Qed.

Lemma pbs_fill_wf : wf_all (PBSServers data) (pbs_fill_one now local cfg data).
Proof. wf_evaluator pbs_fill_one. Qed.

Lemma pbs_verify_wf : wf_all (PBSServers data) (pbs_verify_one now cfg data).
Proof. wf_evaluator pbs_verify_one. Qed.

Lemma pbs_task_failures_wf :
  wf_all (PBSServers data) (pbs_task_failures_one now data).
Proof. wf_evaluator pbs_task_failures_one. Qed.

Lemma windows_disk_wf : wf_all (WindowsServers data) (windows_disk_one now cfg data).
Proof. wf_evaluator windows_disk_one. Qed.

Lemma windows_heartbeat_wf :
  wf_all (WindowsServers data) (windows_heartbeat_one now cfg data).
Proof. wf_evaluator windows_heartbeat_one. Qed.

Lemma windows_disk_health_wf :
  wf_all (WindowsServers data) (windows_disk_health_one now data).
Proof. wf_evaluator windows_disk_health_one. Qed.

Lemma windows_missing_volume_wf :
  wf_all (WindowsServers data) (windows_missing_volume_one now data).
Proof. wf_evaluator windows_missing_volume_one. Qed.
End wf.

Lemma all_alerts_wf now local cfg data :
  Forall (alert_wf now data) (all_alerts now local cfg data).
Proof.
  unfold all_alerts. apply Forall_concat. unfold alert_lists.
  repeat apply Forall_cons_2; try apply Forall_nil_2;
    repeat match goal with |- context [if ?b then _ else _] => destruct b end;
    try apply Forall_nil_2; try apply Forall_app_2;
    auto using pve_disk_wf, pve_backup_errors_wf, pve_backup_size_wf,
      pve_missing_vm_wf, pve_unknown_vm_wf, pve_stale_wf, pve_heartbeat_wf,
      pve_swap_wf, pbs_swap_wf, pbs_report_stale_wf, pbs_heartbeat_wf,
      pbs_disk_wf, pbs_fill_wf, pbs_verify_wf, pbs_task_failures_wf,
      windows_disk_wf, windows_heartbeat_wf, windows_disk_health_wf,
      windows_missing_volume_wf.
Qed.

(** ** Lemmas: one evaluator at a time *)

Lemma is_nil_false {A} (l : list A) : is_nil l = false ↔ l ≠ [].
Proof. by destruct l. Qed.

(** A server for which a backup schedule exists but holds no active VM. *)
Definition all_inactive (configs : list VMBackupConfig) : bool :=
  negb (is_nil configs) && negb (HasActiveVMBackupConfigs configs).

(** [a ∈ []] against a description no branch satisfies. *)
Ltac no_elem :=
  split; [by intros ?%not_elem_of_nil|intros];
  repeat match goal with
  | H : ∃ _, _ |- _ => destruct H
  | H : _ ∧ _ |- _ => destruct H
  | H : _ ∨ _ |- _ => destruct H
  end; congruence.

Section evaluator_lemmas.
Context `{!MapRange, !ReadStore} (now : Time) (local : Location).
Context (cfg : AlertConfigs) (data : AlertData).

Lemma elem_of_pve_missing_vm_one sv a :
  a ∈ pve_missing_vm_one now local data sv ↔
  ∃ rep first tasks c, PVEReports data !! pves_ID sv = Some rep ∧
    get (PVETasks data) (pver_ID rep) = first :: tasks ∧
    c ∈ get (PVEBackupConfigs data) (pves_ID sv) ∧
    vm_IsExcluded c = false ∧
    VMScheduledForDay c (Weekday local (UnixTime (task_StartTime first))) = true ∧
    (∀ t, t ∈ first :: tasks → Itoa (task_VMID t) ≠ vm_VMID c) ∧
    a = missing_vm_alert now sv c.
Proof.
  unfold pve_missing_vm_one.
  destruct (PVEReports data !! pves_ID sv) as [rep|]; [|no_elem].
  destruct (get (PVETasks data) (pver_ID rep)) as [|first tasks] eqn:Ht; [no_elem|].
  rewrite list_elem_of_omap. split.
  - intros (c & Hc & Ha). destruct (vm_IsExcluded c) eqn:He; [done|].
    destruct (VMScheduledForDay c _) eqn:Hs; [|done]. cbn [orb negb] in Ha.
    case_bool_decide as Hb; [done|]. apply (inj Some) in Ha as <-.
    exists rep, first, tasks, c. split_and!; try done.
    intros t Ht' Heq. apply Hb, elem_of_list_to_set, list_elem_of_fmap. by exists t.
  - intros (rep' & first' & tasks' & c & [= <-] & Ht' & Hc & He & Hs & Hn & ->).
    rewrite Ht in Ht'. injection Ht' as <- <-.
    exists c. split; [done|]. rewrite He, Hs. cbn [orb negb].
    rewrite bool_decide_false; [done|].
    intros (t & Heq & Hin)%elem_of_list_to_set%list_elem_of_fmap. by eapply Hn.
Qed.

Lemma elem_of_pve_unknown_vm_one sv a :
  a ∈ pve_unknown_vm_one now data sv ↔
  ∃ rep t, PVEReports data !! pves_ID sv = Some rep ∧
    t ∈ get (PVETasks data) (pver_ID rep) ∧
    get (PVEBackupConfigs data) (pves_ID sv) ≠ [] ∧
    (∀ c, c ∈ get (PVEBackupConfigs data) (pves_ID sv) →
      vm_VMID c ≠ Itoa (task_VMID t)) ∧
    a = unknown_vm_alert now sv t.
Proof.
  unfold pve_unknown_vm_one.
  destruct (PVEReports data !! pves_ID sv) as [rep|]; [|no_elem].
  destruct (is_nil _) eqn:Hnil.
  { destruct (get (PVEBackupConfigs data) _) eqn:Hc; [|done].
    split; [by intros ?%not_elem_of_nil|]. by intros (? & ? & _ & _ & ? & _). }
  apply is_nil_false in Hnil. rewrite list_elem_of_omap. split.
  - intros (t & Ht & Ha). case_bool_decide as Hb; simplify_eq.
    exists rep, t. split_and!; try done. intros c Hc Heq. apply Hb.
    apply elem_of_list_to_set, list_elem_of_fmap. by exists c.
  - intros (rep' & t & [= <-] & Ht & _ & Hn & ->). exists t. split; [done|].
    rewrite bool_decide_false; [done|].
    intros (c & Heq & Hin)%elem_of_list_to_set%list_elem_of_fmap. by eapply Hn.
Qed.

(** A job alert: no task failed, the job did, and its alerts are on. *)
Definition job_failed (sv : PVEServer) (rep : PVEReport) : Prop :=
  (∀ t, t ∈ get (PVETasks data) (pver_ID rep) →
    pveBackupStatusAlertable (task_Status t) = false) ∧
  pveBackupStatusAlertable (TrimSpace (pver_BackupStatus rep)) = true ∧
  resolveBackupErr (get (PVEConfigs cfg) (pves_ID sv)) None
    (GlobalBackupErr cfg) = true.

(** A task alert: the task failed, its VM takes part in the schedule and its
    alerts are on. *)
Definition vm_failed (sv : PVEServer) (t : PVEBackupTask) : Prop :=
  pveBackupStatusAlertable (task_Status t) = true ∧
  pveVMBackupExcluded (get (PVEBackupConfigs data) (pves_ID sv)) (task_VMID t)
    = false ∧
  resolveBackupErr (get (PVEConfigs cfg) (pves_ID sv))
    (findVMConfig (get (PVEVMConfigs cfg) (pves_ID sv)) (task_VMID t))
    (GlobalBackupErr cfg) = true.

Definition vm_failed_alert (sv : PVEServer) (t : PVEBackupTask) : Alert :=
  let name := vm_label (task_VMName t) (task_VMID t) in
  with_vm (task_VMID t) name
    (new_alert now "pve" (pves_ID sv) (pves_DisplayName sv)
      (pve_id "backup_error" sv +:+ ":" +:+ Itoa (task_VMID t))
      AlertTypeBackupError AlertSeverityCritical "Backup fallido"
      (name +:+ ": " +:+ task_Status t)).

Lemma elem_of_pve_backup_errors_one sv a :
  a ∈ pve_backup_errors_one now cfg data sv ↔
  ∃ rep, PVEReports data !! pves_ID sv = Some rep ∧
    all_inactive (get (PVEBackupConfigs data) (pves_ID sv)) = false ∧
    ((job_failed sv rep ∧
       a = job_alert now sv (TrimSpace (pver_BackupStatus rep))) ∨
     ∃ t, t ∈ get (PVETasks data) (pver_ID rep) ∧ vm_failed sv t ∧
       a = vm_failed_alert sv t).
Proof.
  unfold pve_backup_errors_one, all_inactive.
  destruct (negb (is_nil _) && _) eqn:Hact; [no_elem|].
  destruct (PVEReports data !! pves_ID sv) as [rep|]; [|no_elem].
  rewrite exists_Some_eq. unfold job_failed. cbv zeta.
  set (tasks := get (PVETasks data) (pver_ID rep)).
  set (status := TrimSpace (pver_BackupStatus rep)). clearbody tasks status.
  set (on := resolveBackupErr (get (PVEConfigs cfg) (pves_ID sv)) None _).
  assert (a ∈ (if negb (existsb (λ t, pveBackupStatusAlertable (task_Status t)) tasks)
      && pveBackupStatusAlertable status && on then [job_alert now sv status] else [])
    ↔ ((∀ t, t ∈ tasks → pveBackupStatusAlertable (task_Status t) = false) ∧
       pveBackupStatusAlertable status = true ∧ on = true) ∧
      a = job_alert now sv status) as Hjob.
  { rewrite <-existsb_false_iff.
    destruct (existsb _ tasks), (pveBackupStatusAlertable status), on; simpl;
      rewrite ?list_elem_of_singleton, ?elem_of_nil; intuition congruence. }
  transitivity (a ∈ (if negb (existsb (λ t, pveBackupStatusAlertable (task_Status t)) tasks)
      && pveBackupStatusAlertable status && on then [job_alert now sv status] else []) ∨
    ∃ t, t ∈ tasks ∧ vm_failed sv t ∧ a = vm_failed_alert sv t);
    [|rewrite Hjob; intuition].
  clear Hjob. destruct (is_nil tasks) eqn:Hnil.
  - destruct tasks; [|done]. simpl. destruct (pveBackupStatusAlertable status), on;
      simpl; (split; [by left|]); intros [?|(t & []%not_elem_of_nil & _)]; done.
  - rewrite elem_of_app, Logic.or_comm. apply or_iff_compat_l.
    rewrite list_elem_of_omap. apply exist_proper. intros t.
    apply and_iff_compat_l. unfold vm_failed, vm_failed_alert.
    destruct (pveBackupStatusAlertable _), (pveVMBackupExcluded _ _),
      (resolveBackupErr _ (findVMConfig _ _) _); simpl; intuition congruence.
Qed.

Lemma elem_of_windows_missing_volume_one sv a :
  a ∈ windows_missing_volume_one now data sv ↔
  ∃ latest prev rest disk,
    get (WindowsReports data) (wins_ID sv) = latest :: prev :: rest ∧
    disk ∈ get (WindowsDisks data) (winr_ID prev) ∧
    isWindowsLogicalAlertDisk disk = true ∧
    (∀ disk', disk' ∈ get (WindowsDisks data) (winr_ID latest) →
      isWindowsLogicalAlertDisk disk' = true →
      volume_name disk' ≠ volume_name disk) ∧
    a = missing_volume_alert now sv (volume_name disk).
Proof.
  unfold windows_missing_volume_one.
  destruct (get (WindowsReports data) (wins_ID sv)) as [|latest [|prev rest]];
    [no_elem..|].
  rewrite list_elem_of_omap. split.
  - intros (disk & Hd & Ha). exists latest, prev, rest, disk.
    destruct (isWindowsLogicalAlertDisk disk) eqn:Hl; [|done]. simpl in Ha.
    case_bool_decide as Hb; simplify_eq. split_and!; try done.
    intros disk' Hd' Hl' Heq. apply Hb. apply elem_of_list_to_set, list_elem_of_omap.
    exists disk'. by rewrite Hl', Heq.
  - intros (? & ? & ? & disk & [= <- <- <-] & Hd & Hl & Hn & ->). exists disk.
    split; [done|]. rewrite Hl. simpl. rewrite bool_decide_false; [done|].
    intros (disk' & Hd' & Hs)%elem_of_list_to_set%list_elem_of_omap.
    destruct (isWindowsLogicalAlertDisk disk') eqn:Hl'; simplify_eq. by eapply Hn.
Qed.

(** The comparison of [Sub], which saturates, is exact below its maximum. *)
Lemma heartbeat_alert_nonempty serverType id name alertID alertType prefix t :
  0 < GlobalPVEHeartbeatMinutes cfg → GlobalPVEHeartbeatMinutes cfg * Minute < MaxInt64 →
  (∃ a, a ∈ heartbeat_alert now cfg serverType id name alertID alertType prefix t) ↔
  GlobalPVEHeartbeatMinutes cfg * Minute < now - t.
Proof.
  intros Hpos Hmax. unfold heartbeat_alert, heartbeat_threshold.
  rewrite wrap64_id by (unfold in_int64, MinInt64, MaxInt64, Minute, Second in *; lia).
  unfold Sub, sat64.
  destruct (_ <=? _) eqn:Hc; bool_to_prop.
  - split; [set_solver|]. unfold MinInt64, MaxInt64, Minute, Second in *. lia.
  - split; [intros _|eauto with probak].
    unfold MinInt64, MaxInt64, Minute, Second in *. lia.
Qed.
End evaluator_lemmas.

Lemma has_byte_app_cons c s t : has_byte c (s +:+ String c t) = true.
Proof. rewrite has_byte_app. simpl. by rewrite bool_decide_true, orb_true_r. Qed.

Lemma suffix_inj c s1 s2 x1 x2 :
  has_byte c s1 = false → has_byte c s2 = false →
  match x1 with EmptyString => True | String a _ => a = c end →
  match x2 with EmptyString => True | String a _ => a = c end →
  s1 +:+ x1 = s2 +:+ x2 → s1 = s2.
Proof.
  intros H1 H2 Hx1 Hx2 Heq. destruct x1 as [|a x1], x2 as [|b x2]; subst.
  - by rewrite !app_nil_r_str in Heq.
  - rewrite app_nil_r_str in Heq. subst. by rewrite has_byte_app_cons in H1.
  - rewrite app_nil_r_str in Heq. subst. by rewrite has_byte_app_cons in H2.
  - by apply app_sep_inj in Heq as [-> _].
Qed.

Lemma alert_wf_server_type now data a :
  alert_wf now data a → has_byte ":" (al_ServerType a) = false.
Proof. intros [_ _ [[-> _]|[[-> _]|[-> _]]] _ _]; done. Qed.

Lemma alert_wf_before now data a :
  alert_wf now data a → before ":" (al_ID a) = al_Type a.
Proof.
  intros [Ht _ _ (suffix & _ & ->) _].
  apply before_app. by apply alert_type_no_colon.
Qed.

Lemma lookup_fold_insert {A B} (key : A → Z) (f : Z → B) l (m : gmap Z B) k :
  k ∈ key <$> l →
  fold_left (λ m x, <[key x := f (key x)]> m) l m !! k = Some (f k).
Proof.
  assert (∀ m : gmap Z B, k ∈ key <$> l ∨ m !! k = Some (f k) →
    fold_left (λ m x, <[key x := f (key x)]> m) l m !! k = Some (f k)) as Hkeep; [|auto].
  induction l as [|x l IH]; simpl; intros m' Hm'.
  { destruct Hm' as [[]%not_elem_of_nil|]; done. }
  apply IH. destruct (decide (key x = k)) as [<-|Hne].
  - right. by rewrite lookup_insert_eq.
  - rewrite lookup_insert_ne by done. rewrite elem_of_cons in Hm'. naive_solver.
Qed.

Lemma FilterMaintenanceAlerts_Ok `{!ReadStore} m alerts :
  GetActiveServerMaintenances = Ok m →
  FilterMaintenanceAlerts alerts = List.filter (λ a, negb (in_maintenance m a)) alerts.
Proof.
  intros Hm. unfold FilterMaintenanceAlerts, filter_maintenance. rewrite Hm.
  destruct (is_nil alerts) eqn:Hn; [by destruct alerts|].
  case_bool_decide as He; [|done]. subst m. symmetry. apply filter_bool_true.
  intros a. unfold in_maintenance. rewrite lookup_empty.
  rewrite bool_decide_false; [done|]. apply is_Some_None.
Qed.

Lemma count_step_fold alerts n :
  fold_left count_step alerts n =
  (n.1 + Z.of_nat (length (filter (λ a, al_Severity a = AlertSeverityCritical) alerts)),
   n.2 + Z.of_nat (length alerts) -
     Z.of_nat (length (filter (λ a, al_Severity a = AlertSeverityCritical) alerts))).
Proof.
  revert n. induction alerts as [|a alerts IH]; intros [c w]; simpl.
  { by rewrite !Z.add_0_r, Z.sub_0_r. }
  rewrite IH, filter_cons. unfold count_step.
  rewrite (bool_decide_decide (_ = _)). case_decide; simpl; f_equal; lia.
Qed.

(** ** Properties *)

Section properties.
Context `{!MapRange, !ReadStore} (now : Time) (local : Location).

(** C18: every alert of a run names a known type and severity, a server of the
    snapshot with its display name, and starts its identifier with
    [type:serverType:serverID]; the part before the first colon is the type,
    which is how a persisted alert gets its type back. *)
Theorem RunAll_well_formed (cfg : AlertConfigs) (data : AlertData)
    (Hdata : ensureAlertData cfg = Ok data) (a : Alert)
    (Ha : a ∈ (RunAll now local cfg).1) :
  alert_wf now data a ∧ before ":" (al_ID a) = al_Type a.
Proof.
  unfold RunAll in Ha. rewrite Hdata, run_all_alerts in Ha. simpl in Ha.
  pose proof (all_alerts_wf now local cfg data) as Hwf.
  rewrite Forall_forall in Hwf. specialize (Hwf a Ha).
  split; [done|]. by eapply alert_wf_before.
Qed.

(** an alert identifier determines the alert's type and server: alerts of
    any two runs with the same identifier agree on both. *)
Theorem alert_ID_identifies (cfg1 cfg2 : AlertConfigs) (now2 : Time) (a b : Alert)
    (Ha : a ∈ (RunAll now local cfg1).1) (Hb : b ∈ (RunAll now2 local cfg2).1)
    (Hid : al_ID a = al_ID b) :
  al_Type a = al_Type b ∧ al_ServerType a = al_ServerType b ∧
  al_ServerID a = al_ServerID b.
Proof.
  assert (∀ t cfg x, x ∈ (RunAll t local cfg).1 → ∃ data, alert_wf t data x) as Hwf.
  { intros t cfg x Hx. unfold RunAll in Hx.
    destruct (ensureAlertData cfg) as [data|e]; [|by apply not_elem_of_nil in Hx].
    rewrite run_all_alerts in Hx. exists data.
    by apply (proj1 (Forall_forall _ _) (all_alerts_wf t local cfg data)). }
  apply Hwf in Ha as [da Ha], Hb as [db Hb].
  pose proof (alert_wf_server_type _ _ _ Ha) as Sa.
  pose proof (alert_wf_server_type _ _ _ Hb) as Sb.
  destruct Ha as [Ta _ _ (xa & Xa & Ia) _], Hb as [Tb _ _ (xb & Xb & Ib) _].
  rewrite Ia, Ib in Hid. apply app_sep_inj in Hid as [-> Hid];
    [|by apply alert_type_no_colon..].
  apply app_sep_inj in Hid as [-> Hid]; [|done..].
  apply suffix_inj with (c := ":"%char) in Hid; [|apply has_colon_Itoa..|done|done].
  by apply (inj Itoa) in Hid.
Qed.

(** C17: reconciliation of a backup job with its schedule: a VM is reported
    missing exactly when it is scheduled, not excluded, on the weekday the
    latest job started and no task names it; a task is reported unknown
    exactly when the server has a schedule and no entry names its VM. *)
Theorem missing_and_unknown_VMs (cfg : AlertConfigs) (data : AlertData)
    (Hdata : ensureAlertData cfg = Ok data) :
  ∃ missing unknown,
    evalPVEMissingVM now local cfg = Ok missing ∧
    evalPVEUnknownVM now cfg = Ok unknown ∧
    (∀ a, a ∈ missing ↔ ∃ sv rep first tasks c, sv ∈ PVEServers data ∧
      PVEReports data !! pves_ID sv = Some rep ∧
      get (PVETasks data) (pver_ID rep) = first :: tasks ∧
      c ∈ get (PVEBackupConfigs data) (pves_ID sv) ∧
      vm_IsExcluded c = false ∧
      VMScheduledForDay c (Weekday local (UnixTime (task_StartTime first))) = true ∧
      (∀ t, t ∈ first :: tasks → Itoa (task_VMID t) ≠ vm_VMID c) ∧
      a = missing_vm_alert now sv c) ∧
    (∀ a, a ∈ unknown ↔ ∃ sv rep t, sv ∈ PVEServers data ∧
      PVEReports data !! pves_ID sv = Some rep ∧
      t ∈ get (PVETasks data) (pver_ID rep) ∧
      get (PVEBackupConfigs data) (pves_ID sv) ≠ [] ∧
      (∀ c, c ∈ get (PVEBackupConfigs data) (pves_ID sv) →
        vm_VMID c ≠ Itoa (task_VMID t)) ∧
      a = unknown_vm_alert now sv t).
Proof.
  unfold evalPVEMissingVM, evalPVEUnknownVM. rewrite Hdata.
  eexists _, _. split_and!; [done|done|..]; intros a; rewrite elem_of_flat_map.
  - setoid_rewrite elem_of_pve_missing_vm_one. naive_solver.
  - setoid_rewrite elem_of_pve_unknown_vm_one. naive_solver.
Qed.

(** C22: backup failures: a server with an active schedule (or none) raises one
    alert for the job when the job failed and no task did, and one for each
    failed task whose VM is not excluded; the VM's setting wins over the
    server's, which wins over the global one.  Warnings never raise one. *)
Theorem backup_error_alerts (cfg : AlertConfigs) (data : AlertData)
    (Hdata : ensureAlertData cfg = Ok data) :
  ∃ alerts, evalPVEBackupErrors now cfg = Ok alerts ∧
    ∀ a, a ∈ alerts ↔ ∃ sv rep, sv ∈ PVEServers data ∧
      PVEReports data !! pves_ID sv = Some rep ∧
      all_inactive (get (PVEBackupConfigs data) (pves_ID sv)) = false ∧
      ((job_failed cfg data sv rep ∧
         a = job_alert now sv (TrimSpace (pver_BackupStatus rep))) ∨
       ∃ t, t ∈ get (PVETasks data) (pver_ID rep) ∧ vm_failed cfg data sv t ∧
         a = vm_failed_alert now sv t).
Proof.
  unfold evalPVEBackupErrors. rewrite Hdata. eexists. split; [done|].
  intros a. rewrite elem_of_flat_map.
  setoid_rewrite elem_of_pve_backup_errors_one. naive_solver.
Qed.

(** a Windows volume is reported gone exactly when a logical fixed disk of
    the previous report has no counterpart, up to case and surrounding spaces,
    among those of the latest report. *)
Theorem windows_missing_volumes (cfg : AlertConfigs) (data : AlertData)
    (Hdata : ensureAlertData cfg = Ok data) :
  ∃ alerts, evalWindowsMissingVolume now cfg = Ok alerts ∧
    ∀ a, a ∈ alerts ↔ ∃ sv latest prev rest disk, sv ∈ WindowsServers data ∧
      get (WindowsReports data) (wins_ID sv) = latest :: prev :: rest ∧
      disk ∈ get (WindowsDisks data) (winr_ID prev) ∧
      isWindowsLogicalAlertDisk disk = true ∧
      (∀ disk', disk' ∈ get (WindowsDisks data) (winr_ID latest) →
        isWindowsLogicalAlertDisk disk' = true →
        volume_name disk' ≠ volume_name disk) ∧
      a = missing_volume_alert now sv (volume_name disk).
Proof.
  unfold evalWindowsMissingVolume. rewrite Hdata. eexists. split; [done|].
  intros a. rewrite elem_of_flat_map.
  setoid_rewrite elem_of_windows_missing_volume_one. naive_solver.
Qed.

(** a Windows server is offline exactly when the last heartbeat, or the
    latest report when there is no heartbeat, is older than the configured
    minutes; a server that never gave a sign raises nothing, and a setting of
    0 or less disables the check. *)
Theorem windows_heartbeat_alerts (cfg : AlertConfigs) (data : AlertData)
    (Hdata : ensureAlertData cfg = Ok data)
    (Hmax : GlobalPVEHeartbeatMinutes cfg * Minute < MaxInt64) :
  ∃ alerts, evalWindowsHeartbeat now cfg = Ok alerts ∧
    ∀ id, (∃ a, a ∈ alerts ∧ al_ServerID a = id) ↔
      0 < GlobalPVEHeartbeatMinutes cfg ∧
      ∃ sv, sv ∈ WindowsServers data ∧ wins_ID sv = id ∧
        windows_last_seen data sv ≠ zeroTime ∧
        GlobalPVEHeartbeatMinutes cfg * Minute < now - windows_last_seen data sv.
Proof.
  unfold evalWindowsHeartbeat. rewrite Hdata.
  destruct (_ <=? 0) eqn:Hpos; bool_to_prop.
  { eexists. split; [done|]. intros id. split; [by intros (? & []%not_elem_of_nil & _)|lia]. }
  eexists. split; [done|]. intros id.
  assert (∀ sv, (∃ a, a ∈ windows_heartbeat_one now cfg data sv) ↔
    windows_last_seen data sv ≠ zeroTime ∧
    GlobalPVEHeartbeatMinutes cfg * Minute < now - windows_last_seen data sv) as Hone.
  { intros sv. unfold windows_heartbeat_one, IsZero. cbv zeta.
    destruct (Z.eqb_spec (windows_last_seen data sv) zeroTime).
    - split; [by intros (? & []%not_elem_of_nil)|tauto].
    - rewrite heartbeat_alert_nonempty by done. tauto. }
  assert (∀ sv a, a ∈ windows_heartbeat_one now cfg data sv →
    al_ServerID a = wins_ID sv) as Hid.
  { intros sv a Ha. unfold windows_heartbeat_one in Ha. cbv zeta in Ha.
    alert_case Ha. by subst a. }
  setoid_rewrite elem_of_flat_map. split.
  - intros (a & (sv & Hsv & Ha) & <-). split; [lia|]. exists sv.
    split; [done|]. split; [by rewrite (Hid sv a Ha)|]. apply Hone. eauto.
  - intros (_ & sv & Hsv & <- & Hseen). apply Hone in Hseen as [a Ha].
    exists a. split; [eauto|]. by apply Hid.
Qed.

(** the loaded configuration resolves every server of the snapshot: its own
    settings as stored, "inherit" for a server without settings, and PBS
    verification alerts on unless they were switched off. *)
Theorem LoadAlertConfigs_resolves (cfg : AlertConfigs)
    (Hload : LoadAlertConfigs = Ok cfg) :
  ∃ data pve pbs windows, loadAlertData = Ok data ∧ Data cfg = Some data ∧
    ListPVEAlertConfigs = Ok pve ∧ ListPBSAlertConfigs = Ok pbs ∧
    ListWindowsAlertConfigs = Ok windows ∧
    (∀ sv, sv ∈ PVEServers data → ∃ c, PVEConfigs cfg !! pves_ID sv = Some c ∧
      pac_ServerID c = pves_ID sv ∧
      pac_DiskPct c = pac_DiskPct (get pve (pves_ID sv)) ∧
      pac_BackupErr c = pac_BackupErr (get pve (pves_ID sv)) ∧
      pac_SwapAlert c = pac_SwapAlert (get pve (pves_ID sv))) ∧
    (∀ sv, sv ∈ PBSServers data → ∃ c, PBSConfigs cfg !! pbss_ID sv = Some c ∧
      bac_DiskPct c = (pbs !! pbss_ID sv ≫= bac_DiskPct) ∧
      (bac_VerifyAlert c = false ↔
        ∃ s, pbs !! pbss_ID sv = Some s ∧ bac_VerifyAlert s = false)) ∧
    (∀ sv, sv ∈ WindowsServers data → ∃ c,
      WindowsConfigs cfg !! wins_ID sv = Some c ∧
      wac_DiskPct c = (windows !! wins_ID sv ≫= wac_DiskPct)).
Proof.
  unfold LoadAlertConfigs in Hload.
  apply result_bind_Ok in Hload as (email & _ & Hload).
  apply result_bind_Ok in Hload as (data & Hdata & Hload).
  apply result_bind_Ok in Hload as (pve & Hpve & Hload).
  apply result_bind_Ok in Hload as (pveVM & _ & Hload). cbv zeta in Hload.
  apply result_bind_Ok in Hload as (pbs & Hpbs & Hload).
  apply result_bind_Ok in Hload as (windows & Hwin & Hload).
  injection Hload as <-. exists data, pve, pbs, windows. simpl.
  split_and!; [done..| | |]; intros sv Hsv; eexists;
    (split; [apply lookup_fold_insert, list_elem_of_fmap; by exists sv|]);
    unfold resolved_pbs, resolved_windows, get; simpl; [done|..].
  - destruct (pbs !! pbss_ID sv); naive_solver.
  - by destruct (windows !! wins_ID sv).
Qed.

(** an alert is shown exactly when its server is not in maintenance; the
    order is kept, and nothing is hidden when the maintenances cannot be
    read. *)
Theorem FilterMaintenanceAlerts_spec (alerts : list Alert) :
  match GetActiveServerMaintenances with
  | Err _ => FilterMaintenanceAlerts alerts = alerts
  | Ok m =>
      FilterMaintenanceAlerts alerts `sublist_of` alerts ∧
      ∀ a, a ∈ FilterMaintenanceAlerts alerts ↔ a ∈ alerts ∧
        m !! ServerMaintenanceKey (al_ServerType a) (al_ServerID a) = None
  end.
Proof.
  destruct GetActiveServerMaintenances as [m|e] eqn:Hm.
  - rewrite (FilterMaintenanceAlerts_Ok m) by done.
    split; [apply filter_bool_sublist|]. intros a.
    rewrite elem_of_filter_bool. unfold in_maintenance.
    by rewrite negb_true_iff, bool_decide_eq_false, <-eq_None_not_Some.
  - unfold FilterMaintenanceAlerts, filter_maintenance. rewrite Hm. by destruct (is_nil alerts).
Qed.

(** the badge counts every active alert once: those of severity critical,
    and all the others; both are 0 when the alerts cannot be read. *)
Theorem ActiveAlertCounts_total :
  match ActivePersistedAlerts with
  | Err _ => ActiveAlertCounts = (0, 0)
  | Ok all => ActiveAlertCounts.1 =
        Z.of_nat (length (filter (λ a, al_Severity a = AlertSeverityCritical) all)) ∧
      ActiveAlertCounts.1 + ActiveAlertCounts.2 = Z.of_nat (length all)
  end.
Proof.
  unfold ActiveAlertCounts. destruct ActivePersistedAlerts as [all|]; [|done].
  rewrite count_step_fold. simpl. lia.
Qed.
End properties.

(** ** Examples *)

(** A PVE server whose job of Monday January 1, 2024 backed up VM 101, which the
    schedule does not know, with an error, and missed VM 100; and a Windows
    server silent for two hours that lost its volume [d:]. *)
Definition ex_report : PVEReport :=
  Build_PVEReport 3 7 (UnixTime (19723 * 86400)) false "" "OK" 0 0 0 0 0 false.
Definition ex_task : PVEBackupTask :=
  Build_PVEBackupTask 1 3 101 "" "job errors" (19723 * 86400) (19723 * 86400) 60 0 "".
Definition ex_windows : WindowsServer :=
  Build_WindowsServer 4 "win" "WIN" "10.0.0.3" "" "1.0" "w" 2 false 0 0.
Definition ex_disk (report : Z) (name : string) : WindowsDisk :=
  Build_WindowsDisk 1 report name "" "NTFS" "Fixed" 100 10 90 "ok".
Definition ex_now : Time := UnixTime (19723 * 86400 + 7200).

Definition ex_data : AlertData := {|
  PVEServers := [ex_server]; PVEReports := {[7 := ex_report]};
  PVEStorages := ∅; PVEStorageInfos := ∅; PVETasks := {[3 := [ex_task]]};
  PVEBackupConfigs := {[7 := [ex_vm]]}; PVEHeartbeats := ∅; PBSServers := [];
  PBSReports := ∅; PBSStores := ∅; PBSSnapshots := ∅; PBSTasks := ∅;
  PBSHeartbeats := ∅; WindowsServers := [ex_windows];
  WindowsReports := {[4 := [Build_WindowsReport 2 4 (UnixTime (19723 * 86400)) false;
                            Build_WindowsReport 1 4 (UnixTime (19722 * 86400)) false]]};
  WindowsDisks := {[2 := [ex_disk 2 "C:"]; 1 := [ex_disk 1 "c:"; ex_disk 1 "d:"]]};
  WindowsHeartbeats := ∅ |}.

Definition ex_cfg (data : AlertData) : AlertConfigs := {|
  GlobalDiskPct := 29; GlobalWindowsDiskPct := 90; GlobalStaleHours := 48;
  GlobalBackupErr := true; GlobalPVEExpectedFinishTime := "07:55";
  GlobalPVEHeartbeatMinutes := 15; Report := None; PVEConfigs := ∅;
  PVEVMConfigs := ∅; PBSConfigs := ∅; WindowsConfigs := ∅; Data := Some data |}.

Definition ex_store : ReadStore :=
  static_store defaultEmailConfig [ex_server] {[7 := [ex_vm]]} {[7 := ex_report]}
    {[3 := [ex_task]]}
    {["pve:7" := Build_ServerMaintenance "pve" 7 (UnixTime (19724 * 86400)) "" true]}
    [].

#[local] Existing Instance ex_store.

Definition ex_missing : Alert := missing_vm_alert ex_now ex_server ex_vm.

Lemma ex_missing_in : ex_missing ∈ (RunAll ex_now UTC (ex_cfg ex_data)).1.
Proof. apply list_elem_of_In. vm_compute. tauto. Qed.

Lemma RunAll_well_formed_witness :
  ensureAlertData (ex_cfg ex_data) = Ok ex_data ∧
  ex_missing ∈ (RunAll ex_now UTC (ex_cfg ex_data)).1 ∧
  alert_wf ex_now ex_data ex_missing ∧ before ":" (al_ID ex_missing) = al_Type ex_missing.
Proof.
  split; [done|]. split; [apply ex_missing_in|].
  apply (RunAll_well_formed ex_now UTC (ex_cfg ex_data) ex_data eq_refl).
  apply ex_missing_in.
Defined.

Lemma alert_ID_identifies_witness :
  ex_missing ∈ (RunAll ex_now UTC (ex_cfg ex_data)).1 ∧
  al_Type ex_missing = al_Type ex_missing ∧
  al_ServerType ex_missing = al_ServerType ex_missing ∧
  al_ServerID ex_missing = al_ServerID ex_missing.
Proof.
  split; [apply ex_missing_in|].
  apply (alert_ID_identifies ex_now UTC (ex_cfg ex_data) (ex_cfg ex_data) ex_now);
    [apply ex_missing_in|apply ex_missing_in|done].
Defined.

Lemma missing_and_unknown_VMs_witness :
  al_ID <$> ignore_err [] (evalPVEMissingVM ex_now UTC (ex_cfg ex_data)) =
    ["pve_missing_vm:pve:7:100"] ∧
  al_ID <$> ignore_err [] (evalPVEUnknownVM ex_now (ex_cfg ex_data)) =
    ["pve_unknown_vm:pve:7:101"] ∧
  ∃ missing unknown, evalPVEMissingVM ex_now UTC (ex_cfg ex_data) = Ok missing ∧
    evalPVEUnknownVM ex_now (ex_cfg ex_data) = Ok unknown.
Proof.
  split; [vm_compute; reflexivity|]. split; [vm_compute; reflexivity|].
  destruct (missing_and_unknown_VMs ex_now UTC (ex_cfg ex_data) ex_data eq_refl)
    as (missing & unknown & Hm & Hu & _ & _). by exists missing, unknown.
Defined.

Lemma backup_error_alerts_witness :
  al_ID <$> ignore_err [] (evalPVEBackupErrors ex_now (ex_cfg ex_data)) =
    ["backup_error:pve:7:101"] ∧
  ∃ alerts, evalPVEBackupErrors ex_now (ex_cfg ex_data) = Ok alerts.
Proof.
  split; [vm_compute; reflexivity|].
  destruct (backup_error_alerts ex_now (ex_cfg ex_data) ex_data eq_refl)
    as (alerts & Ha & _). by exists alerts.
Defined.

Lemma windows_missing_volumes_witness :
  al_ID <$> ignore_err [] (evalWindowsMissingVolume ex_now (ex_cfg ex_data)) =
    ["windows_volume_missing:windows:4:D:"] ∧
  ∃ alerts, evalWindowsMissingVolume ex_now (ex_cfg ex_data) = Ok alerts.
Proof.
  split; [vm_compute; reflexivity|].
  destruct (windows_missing_volumes ex_now (ex_cfg ex_data) ex_data eq_refl)
    as (alerts & Ha & _). by exists alerts.
Defined.

Lemma windows_heartbeat_alerts_witness :
  GlobalPVEHeartbeatMinutes (ex_cfg ex_data) * Minute < MaxInt64 ∧
  al_Message <$> ignore_err [] (evalWindowsHeartbeat ex_now (ex_cfg ex_data)) =
    ["No se recibe senal del servidor Windows desde hace 2h"] ∧
  ∃ alerts, evalWindowsHeartbeat ex_now (ex_cfg ex_data) = Ok alerts.
Proof.
  split; [done|]. split; [vm_compute; reflexivity|].
  destruct (windows_heartbeat_alerts ex_now (ex_cfg ex_data) ex_data eq_refl)
    as (alerts & Ha & _); [done|]. by exists alerts.
Defined.

Lemma LoadAlertConfigs_resolves_witness :
  ∃ cfg, LoadAlertConfigs = Ok cfg ∧ ∃ data, Data cfg = Some data ∧
    PVEServers data = [ex_server].
Proof.
  destruct LoadAlertConfigs as [cfg|e] eqn:Hc; [|by vm_compute in Hc].
  exists cfg. split; [done|].
  destruct (LoadAlertConfigs_resolves cfg Hc)
    as (data & _ & _ & _ & Hl & Hd & _). exists data. split; [done|].
  vm_compute in Hl. by injection Hl as <-.
Defined.

(** A PVE server whose backup storage uses 29 of 100 bytes. *)
Definition ex_disk_data : AlertData := {|
  PVEServers := [ex_server]; PVEReports := {[7 := ex_report]};
  PVEStorages := {[3 := [Build_PVEStorage 9 3 "local" "/" "backup" "dir" "" false "" "" ""]]};
  PVEStorageInfos := {[9 := Build_PVEStorageInfo 1 9 100 29 71 (Float 0) true true 0]};
  PVETasks := ∅; PVEBackupConfigs := ∅; PVEHeartbeats := ∅; PBSServers := [];
  PBSReports := ∅; PBSStores := ∅; PBSSnapshots := ∅; PBSTasks := ∅;
  PBSHeartbeats := ∅; WindowsServers := []; WindowsReports := ∅;
  WindowsDisks := ∅; WindowsHeartbeats := ∅ |}.

(** the disk percentage is truncated after a rounded floating-point product,
    so a storage that uses exactly 29 of 100 bytes counts as 28 % and raises no
    alert at a threshold of 29 %. *)
Theorem disk_at_threshold_missed :
  evalPVEDisk ex_now (ex_cfg ex_disk_data) = Ok [] ∧
  GlobalDiskPct (ex_cfg ex_disk_data) = 29 ∧ percent 29 100 = 28.
Proof. vm_compute. done. Qed.
