(* ===== verification/Sql.v ===== *)
(** * Database programs

    A store method is a sequence of statements and transactions on the tables.
    [prog] is that sequence: a statement is a partial function on the tables (an
    error is a violated constraint), its continuation receives its result, so a
    method can propagate, wrap or drop an error.  The pool has one connection
    ([SetMaxOpenConns(1)] in [internal/db/db.go]), so a transaction is never
    interleaved with another statement.  A [Local] step changes memory and cannot
    fail; the services use it next to the statements.

    [exec] runs a program against a list of driver faults: one entry for each
    statement, begin and commit; [None], or the end of the list, is success.  A
    transaction whose body or commit fails, or that returns before its commit,
    leaves the tables as they were, which is what [defer tx.Rollback()] does. *)
From stdpp Require Import sorting.
From S2P Require Import Prelude.

Section prog.
Context {T : Type}.

Inductive prog : Type → Type :=
| Ret {A} (r : result A) : prog A
| Stmt {A B} (f : T → result (B * T)) (k : result B → prog A) : prog A
| Tx {A B} (p : prog B) (commit : B → bool) (k : result B → prog A) : prog A
| Local {A B} (f : T → B * T) (k : B → prog A) : prog A.

(** Sequencing on the outcome, errors included. *)
Fixpoint andThen {A B} (p : prog A) : (result A → prog B) → prog B :=
  match p in prog A return (result A → prog B) → prog B with
  | Ret r => λ f, f r
  | Stmt g k => λ f, Stmt g (λ b, andThen (k b) f)
  | Tx q c k => λ f, Tx q c (λ b, andThen (k b) f)
  | Local g k => λ f, Local g (λ b, andThen (k b) f)
  end.

(** [if err != nil { return err }]. *)
#[global] Instance prog_bind : MBind prog := λ A B f p,
  andThen p (λ r, match r with Ok a => f a | Err e => Ret (Err e) end).
#[global] Instance prog_ret : MRet prog := λ A a, Ret (Ok a).

Definition fail {A} (e : error) : prog A := Ret (Err e).
Definition stmt {A} (f : T → result (A * T)) : prog A := Stmt f Ret.
Definition exec_sql (f : T → T) : prog () := stmt (λ t, Ok ((), f t)).
Definition query {A} (f : T → A) : prog A := stmt (λ t, Ok (f t, t)).
Definition tx {A} (p : prog A) : prog A := Tx p (λ _, true) Ret.
(** A transaction that may return without an error before [tx.Commit()]. *)
Definition tx_if {A} (commit : A → bool) (p : prog A) : prog A := Tx p commit Ret.
Definition local {A} (f : T → A * T) : prog A := Local f (λ a, Ret (Ok a)).
Definition modify (f : T → T) : prog () := local (λ t, ((), f t)).

(** [fmt.Errorf("msg: %w", err)] around the errors of [p]. *)
Definition wrap_err {A} (msg : string) (p : prog A) : prog A :=
  andThen p (λ r, match r with Ok a => Ret (Ok a) | Err e => fail (ErrWrap msg e) end).

(** [for _, x := range l { if err := f(x); err != nil { return err } }]. *)
Fixpoint for_each {A} (l : list A) (f : A → prog ()) : prog () :=
  match l with
  | [] => mret ()
  | x :: l => f x ≫= λ _, for_each l f
  end.

(** ** Execution *)

Definition fault (io : list (option error)) : option error :=
  match io with [] => None | f :: _ => f end.

Fixpoint exec {A} (p : prog A) (io : list (option error)) (t : T) :
    result A * T * list (option error) :=
  match p in prog A return result A * T * list (option error) with
  | Ret r => (r, t, io)
  | Stmt f k =>
      match fault io with
      | Some e => exec (k (Err e)) (tail io) t
      | None =>
          match f t with
          | Err e => exec (k (Err e)) (tail io) t
          | Ok (b, t') => exec (k (Ok b)) (tail io) t'
          end
      end
  | Tx q commit k =>
      match fault io with
      | Some e => exec (k (Err e)) (tail io) t
      | None =>
          let '(r, t', io') := exec q (tail io) t in
          match r with
          | Err e => exec (k (Err e)) io' t
          | Ok b =>
              if negb (commit b) then exec (k (Ok b)) io' t else
              match fault io' with
              | Some e => exec (k (Err e)) (tail io') t
              | None => exec (k (Ok b)) (tail io') t'
              end
          end
      end
  | Local f k => let '(b, t') := f t in exec (k b) io t'
  end.

(** The run of a program when the driver never fails. *)
Definition run {A} (p : prog A) (t : T) : result A * T := (exec p [] t).1.

(** ** Lemmas *)

Lemma exec_andThen {A B} (p : prog A) (f : result A → prog B) io t :
  exec (andThen p f) io t =
  let '(r, t', io') := exec p io t in exec (f r) io' t'.
Proof.
  revert io t f. induction p as [A r|A C g k IH|A C q IHq c k IH|A C g k IH];
    intros io t f; simpl.
  - done.
  - destruct (fault io); [by rewrite IH|]. destruct (g t) as [[b t']|e]; by rewrite IH.
  - destruct (fault io); [by rewrite IH|].
    destruct (exec q (tail io) t) as [[[b|e] t'] io']; [|by rewrite IH].
    destruct (negb (c b)); [by rewrite IH|]. destruct (fault io'); by rewrite IH.
  - destruct (g t) as [b t']. by rewrite IH.
Qed.

Lemma exec_no_faults {A} (p : prog A) t : (exec p [] t).2 = [].
Proof.
  revert t. induction p as [A r|A C g k IH|A C q IHq c k IH|A C g k IH];
    intros t; simpl; [done|..].
  - destruct (g t) as [[b t']|e]; apply IH.
  - specialize (IHq t). destruct (exec q [] t) as [[[b|e] t'] io']; simpl in *; subst;
      [|apply IH]. destruct (negb (c b)); apply IH.
  - destruct (g t) as [b t']. apply IH.
Qed.

Lemma run_andThen {A B} (p : prog A) (f : result A → prog B) t :
  run (andThen p f) t = let '(r, t') := run p t in run (f r) t'.
Proof.
  unfold run. rewrite exec_andThen. pose proof (exec_no_faults p t) as Hio.
  destruct (exec p [] t) as [[r t'] io']. simpl in *. by subst.
Qed.

Lemma run_bind {A B} (p : prog A) (f : A → prog B) t :
  run (p ≫= f) t =
  match run p t with
  | (Ok a, t') => run (f a) t'
  | (Err e, t') => (Err e, t')
  end.
Proof.
  unfold mbind, prog_bind. rewrite run_andThen. by destruct (run p t) as [[a|e] t'].
Qed.

Lemma run_stmt {A} (f : T → result (A * T)) t :
  run (stmt f) t = match f t with Ok (a, t') => (Ok a, t') | Err e => (Err e, t) end.
Proof. unfold run; simpl. by destruct (f t) as [[a t']|e]. Qed.

Lemma run_exec_sql (f : T → T) t : run (exec_sql f) t = (Ok (), f t).
Proof. done. Qed.

Lemma run_query {A} (f : T → A) t : run (query f) t = (Ok (f t), t).
Proof. done. Qed.

Lemma run_ret {A} (r : result A) t : run (Ret r) t = (r, t).
Proof. done. Qed.

Lemma run_mret {A} (a : A) t : run (mret a : prog A) t = (Ok a, t).
Proof. done. Qed.

Lemma run_local {A} (f : T → A * T) t : run (local f) t = (Ok (f t).1, (f t).2).
Proof. unfold run; simpl. by destruct (f t). Qed.

Lemma run_tx {A} (p : prog A) t :
  run (tx p) t = match run p t with (Ok a, t') => (Ok a, t') | (Err e, _) => (Err e, t) end.
Proof.
  unfold run; simpl. pose proof (exec_no_faults p t) as Hio.
  destruct (exec p [] t) as [[[a|e] t'] io']; simpl in *; by subst.
Qed.

Lemma run_tx_if {A} (commit : A → bool) (p : prog A) t :
  run (tx_if commit p) t =
  match run p t with
  | (Ok a, t') => (Ok a, if commit a then t' else t)
  | (Err e, _) => (Err e, t)
  end.
Proof.
  unfold run; simpl. pose proof (exec_no_faults p t) as Hio.
  destruct (exec p [] t) as [[[a|e] t'] io']; simpl in *; subst; [|done].
  by destruct (commit a).
Qed.

Lemma run_wrap_err {A} msg (p : prog A) t :
  run (wrap_err msg p) t =
  match run p t with (Ok a, t') => (Ok a, t') | (Err e, t') => (Err (ErrWrap msg e), t') end.
Proof. unfold wrap_err. rewrite run_andThen. by destruct (run p t) as [[a|e] t']. Qed.

Lemma run_for_each {A} (l : list A) (f : A → prog ()) (g : T → A → T) t :
  (∀ t x, run (f x) t = (Ok (), g t x)) →
  run (for_each l f) t = (Ok (), fold_left g l t).
Proof.
  intros Hf. revert t. induction l as [|x l IH]; intros t; simpl; [done|].
  by rewrite run_bind, Hf, IH.
Qed.

(** A transaction is atomic under every fault: when it fails the tables are
    unchanged. *)
Lemma exec_tx_atomic {A} (p : prog A) io t e t' io' :
  exec (tx p) io t = (Err e, t', io') → t' = t.
Proof.
  simpl. destruct (fault io); [by intros [= _ <- _]|].
  destruct (exec p (tail io) t) as [[[a|e'] u] io1]; [|by intros [= _ <- _]].
  destruct (fault io1); by intros [= _ <- _].
Qed.

(** *** Programs that stop at their first error *)

Inductive strict : ∀ {A}, prog A → Prop :=
| strict_Ret {A} (r : result A) : strict (Ret r)
| strict_Stmt {A B} (f : T → result (B * T)) (k : result B → prog A) :
    (∀ e, ∃ e', k (Err e) = Ret (Err e')) → (∀ b, strict (k (Ok b))) → strict (Stmt f k)
| strict_Tx {A B} (p : prog B) (c : B → bool) (k : result B → prog A) :
    strict p → (∀ e, ∃ e', k (Err e) = Ret (Err e')) → (∀ b, strict (k (Ok b))) →
    strict (Tx p c k)
| strict_Local {A B} (f : T → B * T) (k : B → prog A) :
    (∀ b, strict (k b)) → strict (Local f k).

(** When such a program succeeds, no fault was met: it did what it does on a
    driver that never fails. *)
Lemma strict_Ok {A} (p : prog A) io t a t' io' :
  strict p → exec p io t = (Ok a, t', io') → run p t = (Ok a, t').
Proof.
  intros Hp. unfold run. revert io t a t' io'.
  induction Hp as [A r|A B f k He _ IH|A B p c k Hp IHp He _ IH|A B f k _ IH];
    intros io t a t' io'; simpl.
  - by intros [= -> -> _].
  - destruct (fault io) as [e|].
    { destruct (He e) as [e' ->]. done. }
    destruct (f t) as [[b u]|e]; [apply IH|]. by destruct (He e) as [e' ->].
  - destruct (fault io) as [e|].
    { destruct (He e) as [e' ->]. done. }
    destruct (exec p (tail io) t) as [[[b|e] u] io1] eqn:Hq;
      [|by destruct (He e) as [e' ->]].
    apply IHp in Hq. pose proof (exec_no_faults p t) as Hio.
    destruct (exec p [] t) as [[r1 u1] io2]. simpl in *. simplify_eq.
    destruct (negb (c b)); [apply IH|].
    destruct (fault io1) as [e|]; [by destruct (He e) as [e' ->]|]. apply IH.
  - destruct (f t) as [b u]. apply IH.
Qed.

Lemma strict_andThen {A B} (p : prog A) (f : result A → prog B) :
  strict p → (∀ e, ∃ e', f (Err e) = Ret (Err e')) → (∀ a, strict (f (Ok a))) →
  strict (andThen p f).
Proof.
  intros Hp. revert f.
  induction Hp as [A r|A C g k He _ IH|A C p c k Hp _ He _ IH|A C g k _ IH];
    intros f Hfe Hfo; simpl.
  - destruct r as [a|e]; [done|]. destruct (Hfe e) as [e' ->]. constructor.
  - constructor; [|auto]. intros e. destruct (He e) as [e' ->]. apply Hfe.
  - constructor; [done| |auto]. intros e. destruct (He e) as [e' ->]. apply Hfe.
  - constructor. auto.
Qed.

Lemma strict_bind {A B} (p : prog A) (f : A → prog B) :
  strict p → (∀ a, strict (f a)) → strict (p ≫= f).
Proof. intros Hp Hf. apply strict_andThen; eauto. Qed.

Lemma strict_stmt {A} (f : T → result (A * T)) : strict (stmt f).
Proof. repeat constructor; eauto. Qed.

Lemma strict_tx {A} (p : prog A) : strict p → strict (tx p).
Proof. intros Hp. constructor; [done|eauto|constructor]. Qed.

Lemma strict_tx_if {A} (c : A → bool) (p : prog A) : strict p → strict (tx_if c p).
Proof. intros Hp. constructor; [done|eauto|constructor]. Qed.

Lemma strict_wrap_err {A} msg (p : prog A) : strict p → strict (wrap_err msg p).
Proof. intros Hp. apply strict_andThen; [done|eauto|constructor]. Qed.

Lemma strict_for_each {A} (l : list A) (f : A → prog ()) :
  (∀ x, strict (f x)) → strict (for_each l f).
Proof.
  intros Hf. induction l as [|x l IH]; simpl; [constructor|].
  apply strict_bind; auto.
Qed.

(** *** Invariants: preserved by every statement, so by every run, whatever the
    faults *)

Inductive preserves (I : T → Prop) : ∀ {A}, prog A → Prop :=
| preserves_Ret {A} (r : result A) : preserves I (Ret r)
| preserves_Stmt {A B} (f : T → result (B * T)) (k : result B → prog A) :
    (∀ t b t', I t → f t = Ok (b, t') → I t') → (∀ r, preserves I (k r)) →
    preserves I (Stmt f k)
| preserves_Tx {A B} (p : prog B) (c : B → bool) (k : result B → prog A) :
    preserves I p → (∀ r, preserves I (k r)) → preserves I (Tx p c k)
| preserves_Local {A B} (f : T → B * T) (k : B → prog A) :
    (∀ t, I t → I (f t).2) → (∀ b, preserves I (k b)) → preserves I (Local f k).

Lemma exec_preserves (I : T → Prop) {A} (p : prog A) io t :
  preserves I p → I t → I (exec p io t).1.2.
Proof.
  intros Hp. revert io t.
  induction Hp as [A r|A B f k Hf _ IH|A B p c k _ IHp _ IH|A B f k Hf _ IH];
    intros io t Ht; simpl; [done|..].
  - destruct (fault io); [by apply IH|]. destruct (f t) as [[b u]|e] eqn:Hft; eauto.
  - destruct (fault io); [by apply IH|]. specialize (IHp (tail io) t Ht).
    destruct (exec p (tail io) t) as [[[b|e] u] io1]; simpl in *; [|by apply IH].
    destruct (negb (c b)); [by apply IH|]. destruct (fault io1); by apply IH.
  - specialize (Hf t Ht). destruct (f t) as [b u]. by apply IH.
Qed.

Lemma preserves_andThen (I : T → Prop) {A B} (p : prog A) (f : result A → prog B) :
  preserves I p → (∀ r, preserves I (f r)) → preserves I (andThen p f).
Proof. intros Hp. revert f. induction Hp; intros g Hg; simpl; [done|..]; constructor; eauto. Qed.

Lemma preserves_bind (I : T → Prop) {A B} (p : prog A) (f : A → prog B) :
  preserves I p → (∀ a, preserves I (f a)) → preserves I (p ≫= f).
Proof.
  intros Hp Hf. apply preserves_andThen; [done|]. intros [a|e]; [done|constructor].
Qed.

Lemma preserves_stmt (I : T → Prop) {A} (f : T → result (A * T)) :
  (∀ t a t', I t → f t = Ok (a, t') → I t') → preserves I (stmt f).
Proof. intros Hf. constructor; [done|constructor]. Qed.

Lemma preserves_exec_sql (I : T → Prop) (f : T → T) :
  (∀ t, I t → I (f t)) → preserves I (exec_sql f).
Proof. intros Hf. apply preserves_stmt. intros t [] t' Ht [= <-]. auto. Qed.

Lemma preserves_query (I : T → Prop) {A} (f : T → A) : preserves I (query f).
Proof. apply preserves_stmt. by intros t a t' Ht [= _ <-]. Qed.

Lemma preserves_tx (I : T → Prop) {A} (p : prog A) : preserves I p → preserves I (tx p).
Proof. intros Hp. constructor; [done|constructor]. Qed.

Lemma preserves_tx_if (I : T → Prop) {A} (c : A → bool) (p : prog A) :
  preserves I p → preserves I (tx_if c p).
Proof. intros Hp. constructor; [done|constructor]. Qed.

Lemma preserves_wrap_err (I : T → Prop) {A} msg (p : prog A) :
  preserves I p → preserves I (wrap_err msg p).
Proof. intros Hp. apply preserves_andThen; [done|]. intros [a|e]; constructor. Qed.

Lemma preserves_for_each (I : T → Prop) {A} (l : list A) (f : A → prog ()) :
  (∀ x, preserves I (f x)) → preserves I (for_each l f).
Proof.
  intros Hf. induction l as [|x l IH]; simpl; [constructor|]. by apply preserves_bind.
Qed.
(** *** Postconditions under every fault *)

(** [always p Q t]: however the driver fails, [p] run from [t] ends in [Q]. *)
Definition always {A} (p : prog A) (Q : result A → T → Prop) (t : T) : Prop :=
  ∀ io, let '(r, t', _) := exec p io t in Q r t'.

Lemma always_Ret {A} (r : result A) (Q : result A → T → Prop) t :
  Q r t → always (Ret r) Q t.
Proof. by intros HQ io. Qed.

Lemma always_andThen {A B} (p : prog A) (f : result A → prog B) Q t :
  always p (λ r t', always (f r) Q t') t → always (andThen p f) Q t.
Proof.
  intros Hp io. specialize (Hp io). rewrite exec_andThen.
  destruct (exec p io t) as [[r t'] io']. apply Hp.
Qed.

Lemma always_bind {A B} (p : prog A) (f : A → prog B) (Q : result B → T → Prop) t :
  always p (λ r t', match r with Ok a => always (f a) Q t' | Err e => Q (Err e) t' end) t →
  always (p ≫= f) Q t.
Proof.
  intros Hp. apply always_andThen. intros io. specialize (Hp io).
  destruct (exec p io t) as [[[a|e] t'] io']; [done|]. by apply always_Ret.
Qed.

Lemma always_mono {A} (p : prog A) (Q Q' : result A → T → Prop) t :
  always p Q t → (∀ r t', Q r t' → Q' r t') → always p Q' t.
Proof.
  intros Hp HQ io. specialize (Hp io). destruct (exec p io t) as [[r t'] io']. auto.
Qed.

Lemma always_and {A} (p : prog A) (Q Q' : result A → T → Prop) t :
  always p Q t → always p Q' t → always p (λ r t', Q r t' ∧ Q' r t') t.
Proof.
  intros HQ HQ' io. specialize (HQ io). specialize (HQ' io).
  by destruct (exec p io t) as [[r t'] io'].
Qed.

Lemma always_stmt {A} (f : T → result (A * T)) (Q : result A → T → Prop) t :
  (∀ e, Q (Err e) t) → (∀ a t', f t = Ok (a, t') → Q (Ok a) t') → always (stmt f) Q t.
Proof.
  intros He Ho io. simpl. destruct (fault io); [apply He|].
  destruct (f t) as [[a t']|e]; [by apply Ho|apply He].
Qed.

Lemma always_local {A} (f : T → A * T) (Q : result A → T → Prop) t :
  Q (Ok (f t).1) (f t).2 → always (local f) Q t.
Proof. intros HQ io. simpl. by destruct (f t). Qed.

Lemma always_query {A} (f : T → A) (Q : result A → T → Prop) t :
  (∀ e, Q (Err e) t) → Q (Ok (f t)) t → always (query f) Q t.
Proof. intros He Ho. apply always_stmt; [done|]. by intros a t' [= <- <-]. Qed.

Lemma always_wrap_err {A} msg (p : prog A) (Q : result A → T → Prop) t :
  always p (λ r t', match r with Ok a => Q (Ok a) t' | Err e => Q (Err (ErrWrap msg e)) t' end) t →
  always (wrap_err msg p) Q t.
Proof.
  intros Hp. apply always_andThen. eapply always_mono; [exact Hp|].
  intros [a|e] t' HQ; by apply always_Ret.
Qed.

(** A run without faults is one of the runs. *)
Lemma always_run {A} (p : prog A) (Q : result A → T → Prop) t :
  always p Q t → Q (run p t).1 (run p t).2.
Proof.
  intros Hp. specialize (Hp []). unfold run.
  by destruct (exec p [] t) as [[r t'] io].
Qed.

(** A program that keeps [I] ends in [I]. *)
Lemma always_preserves (I : T → Prop) {A} (p : prog A) t :
  preserves I p → I t → always p (λ _ t', I t') t.
Proof.
  intros Hp Ht io. pose proof (exec_preserves I p io t Hp Ht) as HI.
  by destruct (exec p io t) as [[r t'] io'].
Qed.

(** *** Steps along a relation *)

(** [along J R p]: from a state of [J], [p] ends in [J] again and has moved along [R],
    however the driver fails. *)
Section along.
Context (J : T → Prop) (R : T → T → Prop).
Context `{!PreOrder R}.

Definition along {A} (p : prog A) : Prop := ∀ t, J t → always p (λ _ t', J t' ∧ R t t') t.

Lemma along_Ret {A} (r : result A) : along (Ret r).
Proof. intros t Ht. by apply always_Ret. Qed.

Lemma along_andThen {A B} (p : prog A) (f : result A → prog B) :
  along p → (∀ r, along (f r)) → along (andThen p f).
Proof.
  intros Hp Hf t Ht. apply always_andThen. eapply always_mono; [by apply Hp|].
  intros r t' [Ht' HR]. eapply always_mono; [by apply Hf|]. intros r' u [Hu HR'].
  split; [done|]. by transitivity t'.
Qed.

Lemma along_bind {A B} (p : prog A) (f : A → prog B) :
  along p → (∀ a, along (f a)) → along (p ≫= f).
Proof. intros Hp Hf. apply along_andThen; [done|]. intros [a|e]; [apply Hf|apply along_Ret]. Qed.

Lemma along_wrap_err {A} msg (p : prog A) : along p → along (wrap_err msg p).
Proof. intros Hp. apply along_andThen; [done|]. intros [a|e]; apply along_Ret. Qed.

Lemma along_stmt {A} (f : T → result (A * T)) :
  (∀ t a t', J t → f t = Ok (a, t') → J t' ∧ R t t') → along (stmt f).
Proof. intros Hf t Ht. apply always_stmt; [done|]. intros a t'. by apply Hf. Qed.

Lemma along_query {A} (f : T → A) : along (query f).
Proof. apply along_stmt. by intros t a t' Ht [= _ <-]. Qed.

Lemma along_tx_if {A} (c : A → bool) (p : prog A) : along p → along (tx_if c p).
Proof.
  intros Hp t Ht io. cbn [tx_if exec]. destruct (fault io); [done|].
  specialize (Hp t Ht (tail io)). destruct (exec p (tail io) t) as [[[b|e] t'] io']; [|done].
  destruct (negb (c b)); [done|]. by destruct (fault io').
Qed.

Lemma along_for_each {A} (l : list A) (f : A → prog ()) :
  (∀ x, along (f x)) → along (for_each l f).
Proof.
  intros Hf. induction l as [|x l IH]; simpl; [apply along_Ret|]. by apply along_bind.
Qed.
End along.
End prog.

Arguments prog T : clear implicits.

#[export] Hint Constructors strict : probak.
#[export] Hint Resolve preserves_Ret preserves_bind preserves_query preserves_tx
  preserves_tx_if preserves_wrap_err preserves_for_each : probak.
#[export] Hint Resolve strict_bind strict_stmt strict_tx strict_tx_if strict_wrap_err
  strict_for_each : probak.

Create Rewrite HintDb probak_run.
#[export] Hint Rewrite @run_bind @run_stmt @run_exec_sql @run_query @run_ret @run_mret @run_local
  @run_tx @run_tx_if @run_wrap_err : probak_run.

(** ** A program on one part of a larger state *)

Section lift.
Context {S T : Type} (get_part : T → S) (set_part : S → T → T).

Fixpoint lift {A} (p : prog S A) : prog T A :=
  match p in prog _ A return prog T A with
  | Ret r => Ret r
  | Stmt f k => Stmt (λ t,
      match f (get_part t) with
      | Ok (b, s) => Ok (b, set_part s t)
      | Err e => Err e
      end) (λ r, lift (k r))
  | Tx q c k => Tx (lift q) c (λ r, lift (k r))
  | Local f k => Local (λ t,
      let '(b, s) := f (get_part t) in (b, set_part s t)) (λ b, lift (k b))
  end.

Hypothesis get_set : ∀ s t, get_part (set_part s t) = s.
Hypothesis set_get : ∀ t, set_part (get_part t) t = t.
Hypothesis set_set : ∀ s s' t, set_part s (set_part s' t) = set_part s t.

Lemma exec_lift {A} (p : prog S A) io t :
  exec (lift p) io t =
  let '(r, s, io') := exec p io (get_part t) in (r, set_part s t, io').
Proof.
  revert io t. induction p as [A r|A B f k IH|A B q IHq c k IH|A B f k IH];
    intros io t; simpl.
  - by rewrite set_get.
  - destruct (fault io); [apply IH|].
    destruct (f (get_part t)) as [[b s]|e]; [|apply IH].
    rewrite IH, get_set. destruct (exec (k (Ok b)) (tail io) s) as [[r s'] io'].
    by rewrite set_set.
  - destruct (fault io); [apply IH|]. rewrite IHq.
    destruct (exec q (tail io) (get_part t)) as [[[b|e] s] io1]; [|apply IH].
    destruct (negb (c b)); [apply IH|]. destruct (fault io1); [apply IH|]. rewrite IH, get_set.
    destruct (exec (k (Ok b)) (tail io1) s) as [[r s'] io'].
    by rewrite set_set.
  - destruct (f (get_part t)) as [b s]. rewrite IH, get_set.
    destruct (exec (k b) io s) as [[r s'] io']. by rewrite set_set.
Qed.

Lemma run_lift {A} (p : prog S A) t :
  run (lift p) t = let '(r, s) := run p (get_part t) in (r, set_part s t).
Proof.
  unfold run. rewrite exec_lift. by destruct (exec p [] (get_part t)) as [[r s] io].
Qed.

(** An invariant of the part is an invariant of the whole. *)
Lemma preserves_lift (I : T → Prop) (J : S → Prop) {A} (p : prog S A) :
  (∀ t, I t → J (get_part t)) → (∀ t s, I t → J s → I (set_part s t)) →
  preserves J p → preserves I (lift p).
Proof.
  intros Hget Hset Hp. induction Hp as [A r|A B f k Hf _ IH|A B p c k _ IHp _ IH|A B f k Hf _ IH];
    simpl; constructor; try done.
  - intros t b t' Ht. destruct (f (get_part t)) as [[b' s]|e] eqn:Hfs; [|done].
    intros [= <- <-]. eauto.
  - intros t Ht. specialize (Hf (get_part t) (Hget t Ht)).
    destruct (f (get_part t)) as [b s]. simpl in *. auto.
Qed.

Lemma strict_lift {A} (p : prog S A) : strict p → strict (lift p).
Proof.
  induction 1 as [A r|A B f k He _ IH|A B p c k _ IHp He _ IH|A B f k _ IH]; simpl; constructor;
    try done; intros e; destruct (He e) as [e' ->]; by exists e'.
Qed.

Lemma always_lift {A} (p : prog S A) (Q : result A → T → Prop) t :
  always p (λ r s, Q r (set_part s t)) (get_part t) → always (lift p) Q t.
Proof.
  intros Hp io. rewrite exec_lift. specialize (Hp io).
  by destruct (exec p io (get_part t)) as [[r s] io'].
Qed.
End lift.

(** ** Tables: [UPDATE], [DELETE] and [SELECT] on a keyed table *)

Section tables.
Context `{Countable K} {R : Type}.

Definition update_where (cond : K → R → bool) (f : R → R) (m : gmap K R) : gmap K R :=
  map_imap (λ k r, Some (if cond k r then f r else r)) m.

Definition delete_where (cond : K → R → bool) (m : gmap K R) : gmap K R :=
  map_imap (λ k r, if cond k r then None else Some r) m.

Lemma lookup_update_where cond f m k :
  update_where cond f m !! k = (λ r, if cond k r then f r else r) <$> m !! k.
Proof. unfold update_where. rewrite map_lookup_imap. by destruct (m !! k). Qed.

Lemma lookup_delete_where cond m k :
  delete_where cond m !! k =
  r ← m !! k; if cond k r then None else Some r.
Proof. unfold delete_where. by rewrite map_lookup_imap. Qed.
End tables.

(** ** [ORDER BY]: SQL leaves the order of equal keys open

    An [SqlOrder] is one choice of the order of ties. *)
Class SqlOrder := {
  order_by : ∀ {A} (le : A → A → bool), list A → list A;
  order_by_perm : ∀ {A} (le : A → A → bool) (l : list A), order_by le l ≡ₚ l;
  order_by_sorted : ∀ {A} (le : A → A → bool) (l : list A),
    (∀ x y, le x y = true ∨ le y x = true) →
    (∀ x y z, le x y = true → le y z = true → le x z = true) →
    StronglySorted (λ x y, le x y = true) (order_by le l)
}.

Definition bool_rel {A} (le : A → A → bool) (x y : A) : Prop := le x y = true.

#[export] Instance bool_rel_dec {A} (le : A → A → bool) : RelDecision (bool_rel le).
Proof. intros x y. unfold bool_rel. apply _. Defined.

#[export] Program Instance merge_sort_order : SqlOrder | 100 :=
  {| order_by := λ A le l, merge_sort (bool_rel le) l |}.
Next Obligation. intros A le l. apply merge_sort_Permutation. Qed.
Next Obligation.
  intros A le l Htot Htrans.
  assert (Transitive (bool_rel le)) by exact Htrans.
  assert (Total (bool_rel le)) by exact Htot.
  by apply (StronglySorted_merge_sort (bool_rel le)).
Qed.
