(* ===== verification/SqlText.v ===== *)
(** * Text functions of SQLite

    [LIKE], with and without [ESCAPE], [lower] and [TRIM], as the statements of
    [internal/store] use them: they know the letters of ASCII only. *)
From Stdlib Require Import Ascii.
From S2P Require Import Prelude GoStrings.

(** Texts are UTF-8: a character is a byte that starts one, with the bytes that continue it. *)
Definition continues (c : ascii) : bool := (128 <=? byte c) && (byte c <? 192).

Fixpoint skip_continued (s : string) : string :=
  match s with
  | EmptyString => EmptyString
  | String c s' => if continues c then skip_continued s' else s
  end.

(** The letters of ASCII match without case, [%] any text, [_] any character. *)
Fixpoint like (pattern s : string) : bool :=
  match pattern with
  | EmptyString => str_empty s
  | String c p =>
      if byte c =? 37 then
        (fix any (s : string) : bool :=
           like p s || match s with EmptyString => false | String _ s => any s end) s
      else match s with
           | EmptyString => false
           | String d s =>
               if byte c =? 95 then negb (continues d) && like p (skip_continued s)
               else bool_decide (lower_ascii c = lower_ascii d) && like p s
           end
  end.

(** [LIKE pattern ESCAPE '\']: after a backslash a byte stands for itself. *)
Fixpoint like_escape (pattern s : string) : bool :=
  match pattern with
  | EmptyString => str_empty s
  | String c p =>
      if byte c =? 92 then
        match p, s with
        | String e p, String d s => bool_decide (lower_ascii e = lower_ascii d) && like_escape p s
        | _, _ => false
        end
      else if byte c =? 37 then
        (fix any (s : string) : bool :=
           like_escape p s || match s with EmptyString => false | String _ s => any s end) s
      else match s with
           | EmptyString => false
           | String d s =>
               if byte c =? 95 then negb (continues d) && like_escape p (skip_continued s)
               else bool_decide (lower_ascii c = lower_ascii d) && like_escape p s
           end
  end.

(** [lower(x)]. *)
Definition sql_lower (s : string) : string := map_bytes lower_ascii s.

(** [TRIM(x)] removes spaces only; this is [TRIM(x) = '']. *)
Fixpoint blank (s : string) : bool :=
  match s with EmptyString => true | String c s => (byte c =? 32) && blank s end.

(** ** Lemmas *)

Lemma space_is_space c : byte c = 32 → is_ascii_space c = true.
Proof. by destruct c as [[] [] [] [] [] [] [] []]. Qed.

Lemma blank_TrimSpace s : blank s = true → TrimSpace s = "".
Proof.
  intros Hb. unfold TrimSpace.
  enough (trim_left s = "") as -> by done. induction s as [|c s IH]; [done|].
  simpl in Hb. apply andb_true_iff in Hb as [Hc%Z.eqb_eq Hb].
  cbn [trim_left]. rewrite (space_is_space c Hc). auto.
Qed.

Lemma like_escape_percent p s :
  like_escape (String "%"%char p) s =
  like_escape p s ||
  match s with EmptyString => false | String _ s => like_escape (String "%"%char p) s end.
Proof. by destruct s. Qed.

Lemma like_escape_any p s :
  like_escape (String "%"%char p) s = true ↔ ∃ a t, s = a +:+ t ∧ like_escape p t = true.
Proof.
  split.
  - induction s as [|c s IH]; rewrite like_escape_percent; intros [Hp|Hs]%orb_true_iff; [|done| |].
    + by exists "", "".
    + by exists "", (String c s).
    + destruct (IH Hs) as (a & t & -> & Ht). by exists (String c a), t.
  - intros (a & t & -> & Ht). induction a as [|c a IH].
    + by rewrite app_nil_l_str, like_escape_percent, Ht.
    + rewrite app_cons_str, like_escape_percent, IH. apply orb_true_r.
Qed.
