(* ===== verification/Interleave.v ===== *)
(** * Concurrent database programs

    Requests run at the same time; the one connection of the pool lets them take
    turns, a statement or a whole transaction at a time, and any of these can fail.
    [run_pool] runs numbered programs along a schedule that names, for every
    turn, the program and the answers of the driver.

    [guar R p Q t] says that [p], started after [t], takes only steps along [R], and
    ends in [Q], as long as the other programs take steps along [R] too; then the
    same holds in every pool of such programs ([run_pool_guar]). *)
From S2P Require Import Prelude Sql.

Section interleave.
Context {T : Type}.
Implicit Types (t s : T) (io : list (option error)).

(** ** Pools *)

(** The next turn of a program; a finished one stays. *)
Definition turn {A} (p : prog T A) io t : prog T A * T :=
  match p in prog _ A return prog T A * T with
  | Ret r => (Ret r, t)
  | Stmt f k =>
      match fault io with
      | Some e => (k (Err e), t)
      | None => match f t with Err e => (k (Err e), t) | Ok (b, t') => (k (Ok b), t') end
      end
  | Tx q commit k =>
      let '(r, t', _) := exec (Tx q commit Ret) io t in (k r, t')
  | Local f k => let '(b, t') := f t in (k b, t')
  end.

(** The programs by number. *)
Definition pool (A : Type) : Type := nat → prog T A.

Definition pool_turn {A} (pt : pool A * T) (sched : nat * list (option error)) : pool A * T :=
  let '(ps, t) := pt in let '(n, io) := sched in
  let '(p', t') := turn (ps n) io t in (λ i, if decide (i = n) then p' else ps i, t').

Definition run_pool {A} (sched : list (nat * list (option error))) (ps : pool A) (t : T) :
    pool A * T := fold_left pool_turn sched (ps, t).

(** The answer of a finished program. *)
Definition finished {A} (p : prog T A) : option (result A) :=
  match p with Ret r => Some r | _ => None end.

Lemma finished_Some {A} (p : prog T A) r : finished p = Some r → p = Ret r.
Proof. destruct p; [|done..]. by intros [= ->]. Qed.

(** ** Guarantees *)

Section guarantee.
Context (R : T → T → Prop).
Context `{!PreOrder R}.

Fixpoint guar {A} (p : prog T A) : (result A → T → Prop) → T → Prop :=
  match p in prog _ A return (result A → T → Prop) → T → Prop with
  | Ret r => λ Q t, ∀ s, R t s → Q r s
  | Stmt f k => λ Q t, ∀ s, R t s →
      match f s with
      | Ok (b, s') => R s s' ∧ guar (k (Ok b)) Q s'
      | Err e => guar (k (Err e)) Q s
      end ∧ ∀ e, guar (k (Err e)) Q s
  | Tx q commit k => λ Q t, ∀ s io, R t s →
      let '(r, s', _) := exec (Tx q commit Ret) io s in R s s' ∧ guar (k r) Q s'
  | Local f k => λ Q t, ∀ s, R t s → R s (f s).2 ∧ guar (k (f s).1) Q (f s).2
  end.

Lemma guar_mono {A} (p : prog T A) (Q Q' : result A → T → Prop) t s :
  R t s → (∀ r u, R s u → Q r u → Q' r u) → guar p Q t → guar p Q' s.
Proof.
  revert Q Q' t s. induction p as [A r|A C g k IH|A C q IHq c k IH|A C g k IH];
    intros Q Q' t s Hts HQ; simpl.
  - intros Hp u Hu. apply HQ; [done|]. apply Hp. by transitivity s.
  - intros Hp u Hu. destruct (Hp u) as [Hok Herr]; [by transitivity s|].
    assert (∀ r v, R u v → Q r v → Q' r v) as HQu by (intros r v Hv; apply HQ; by transitivity u).
    split.
    + destruct (g u) as [[b u']|e].
      * destruct Hok as [Hr Hk]. split; [done|]. eapply IH; [reflexivity| |exact Hk].
        intros r v Hv. apply HQu. by transitivity u'.
      * eapply IH; [reflexivity|exact HQu|exact Hok].
    + intros e. eapply IH; [reflexivity|exact HQu|apply Herr].
  - intros Hp u io Hu. specialize (Hp u io). simpl in Hp.
    destruct (match fault io with Some e => _ | None => _ end) as [[r u'] io'].
    destruct Hp as [Hr Hk]; [by transitivity s|]. split; [done|].
    eapply IH; [reflexivity| |exact Hk]. intros r' v Hv. apply HQ. by do 2 (etransitivity; [eassumption|]).
  - intros Hp u Hu. destruct (Hp u) as [Hr Hk]; [by transitivity s|]. split; [done|].
    eapply IH; [reflexivity| |exact Hk]. intros r v Hv. apply HQ. by do 2 (etransitivity; [eassumption|]).
Qed.

Lemma guar_later {A} (p : prog T A) Q t s : R t s → guar p Q t → guar p Q s.
Proof. intros Hts. by eapply guar_mono. Qed.

Lemma guar_weaken {A} (p : prog T A) (Q Q' : result A → T → Prop) t :
  guar p Q t → (∀ r u, R t u → Q r u → Q' r u) → guar p Q' t.
Proof. intros Hp HQ. by eapply guar_mono; [reflexivity| |]. Qed.

Lemma guar_Ret {A} (r : result A) Q t : (∀ s, R t s → Q r s) → guar (Ret r) Q t.
Proof. done. Qed.

Lemma guar_andThen {A B} (p : prog T A) (f : result A → prog T B) Q Q' t :
  guar p Q' t → (∀ r s, R t s → Q' r s → guar (f r) Q s) → guar (andThen p f) Q t.
Proof.
  revert f Q Q' t. induction p as [A r|A C g k IH|A C q IHq c k IH|A C g k IH];
    intros f Q Q' t; simpl.
  - intros Hp Hf. apply Hf; [reflexivity|]. apply Hp. reflexivity.
  - intros Hp Hf s Hs. destruct (Hp s Hs) as [Hok Herr]. split.
    + destruct (g s) as [[b s']|e].
      * destruct Hok as [Hr Hk]. split; [done|]. apply (IH _ _ _ Q'); [done|].
        intros r u Hu. apply Hf. by do 2 (etransitivity; [eassumption|]).
      * apply (IH _ _ _ Q'); [done|]. intros r u Hu. apply Hf. by transitivity s.
    + intros e. apply (IH _ _ _ Q'); [done|]. intros r u Hu. apply Hf. by transitivity s.
  - intros Hp Hf s io Hs. specialize (Hp s io Hs). simpl in Hp.
    destruct (match fault io with Some e => _ | None => _ end) as [[r s'] io'].
    destruct Hp as [Hr Hk]. split; [done|]. apply (IH _ _ _ Q'); [done|].
    intros r' u Hu. apply Hf. by do 2 (etransitivity; [eassumption|]).
  - intros Hp Hf s Hs. destruct (Hp s Hs) as [Hr Hk]. split; [done|]. apply (IH _ _ _ Q'); [done|].
    intros r u Hu. apply Hf. by do 2 (etransitivity; [eassumption|]).
Qed.

Lemma guar_bind {A B} (p : prog T A) (f : A → prog T B) (Q : result B → T → Prop)
    (Q' : A → T → Prop) t :
  guar p (λ r s, match r with Ok a => Q' a s | Err e => ∀ u, R s u → Q (Err e) u end) t →
  (∀ a s, R t s → Q' a s → guar (f a) Q s) → guar (p ≫= f) Q t.
Proof.
  intros Hp Hf. eapply guar_andThen; [exact Hp|]. intros [a|e] s Hs HQ; [by apply Hf|].
  by apply guar_Ret.
Qed.

Lemma guar_stmt {A} (f : T → result (A * T)) (Q : result A → T → Prop) t :
  (∀ s, R t s → match f s with
     | Ok (a, s') => R s s' ∧ ∀ u, R s' u → Q (Ok a) u
     | Err e => True
     end) →
  (∀ e u, R t u → Q (Err e) u) → guar (stmt f) Q t.
Proof.
  intros Hok Herr s Hs. specialize (Hok s Hs). split; [|intros e u Hu; apply Herr; by transitivity s].
  destruct (f s) as [[a s']|e]; [done|]. intros u Hu. apply Herr. by transitivity s.
Qed.

Lemma guar_query {A} (f : T → A) (Q : result A → T → Prop) t :
  (∀ s u, R t s → R s u → Q (Ok (f s)) u) → (∀ e u, R t u → Q (Err e) u) →
  guar (query f) Q t.
Proof.
  intros Hok Herr. apply guar_stmt; [|done]. intros s Hs. split; [reflexivity|]. intros u Hu.
  by eapply Hok.
Qed.

Lemma guar_wrap_err {A} msg (p : prog T A) (Q : result A → T → Prop) t :
  guar p (λ r s, ∀ u, R s u → Q (match r with Ok a => Ok a | Err e => Err (ErrWrap msg e) end) u) t →
  guar (wrap_err msg p) Q t.
Proof.
  intros Hp. eapply guar_andThen; [exact Hp|]. intros [a|e] s Hs HQ; by apply guar_Ret.
Qed.

(** Steps along [R], whatever the program answers. *)
Definition respects {A} (p : prog T A) : Prop := ∀ t, guar p (λ _ _, True) t.

Lemma respects_Ret {A} (r : result A) : respects (Ret r).
Proof. intros t s _. done. Qed.

Lemma respects_stmt {A} (f : T → result (A * T)) :
  (∀ s a s', f s = Ok (a, s') → R s s') → respects (stmt f).
Proof.
  intros Hf t. apply guar_stmt; [|done]. intros s _. destruct (f s) as [[a s']|] eqn:He; [|done].
  split; [by eapply Hf|done].
Qed.

Lemma respects_bind {A B} (p : prog T A) (f : A → prog T B) :
  respects p → (∀ a, respects (f a)) → respects (p ≫= f).
Proof.
  intros Hp Hf t. apply (guar_bind _ _ _ (λ _ _, True)); [|intros; apply Hf].
  eapply guar_weaken; [apply Hp|]. by intros [].
Qed.

Lemma respects_wrap_err {A} msg (p : prog T A) : respects p → respects (wrap_err msg p).
Proof. intros Hp t. apply guar_wrap_err. eapply guar_weaken; [apply Hp|done]. Qed.

(** ** Soundness *)

Lemma turn_guar {A} (p : prog T A) Q io t :
  guar p Q t → R t (turn p io t).2 ∧ guar (turn p io t).1 Q (turn p io t).2.
Proof.
  destruct p as [A r|A C g k|A C q c k|A C g k]; intros Hp.
  - split; [reflexivity|done].
  - destruct (Hp t) as [Hok Herr]; [reflexivity|]. cbn [turn].
    destruct (fault io) as [e|]; [split; [reflexivity|apply Herr]|].
    destruct (g t) as [[b t']|e]; [done|]. split; [reflexivity|done].
  - specialize (Hp t io). cbn [turn]. destruct (exec (Tx q c Ret) io t) as [[r t'] io'].
    by apply Hp.
  - destruct (Hp t) as [Hr Hk]; [reflexivity|]. cbn [turn]. by destruct (g t) as [b t'].
Qed.

Lemma pool_turn_guar {A} (Qs : nat → result A → T → Prop) (ps : pool A) t sched :
  (∀ i, guar (ps i) (Qs i) t) →
  R t (pool_turn (ps, t) sched).2 ∧
  ∀ i, guar ((pool_turn (ps, t) sched).1 i) (Qs i) (pool_turn (ps, t) sched).2.
Proof.
  intros Hps. unfold pool_turn. destruct sched as [n io].
  pose proof (turn_guar (ps n) (Qs n) io t (Hps n)) as [Hr Hg].
  destruct (turn (ps n) io t) as [p' t']. cbn [fst snd] in *. split; [done|].
  intros i. destruct (decide (i = n)) as [->|Hne]; [done|]. by eapply guar_later.
Qed.

(** In a pool of programs with guarantees, a finished program has kept its own. *)
Lemma run_pool_guar {A} (Qs : nat → result A → T → Prop) sched (ps : pool A) t :
  (∀ i, guar (ps i) (Qs i) t) →
  R t (run_pool sched ps t).2 ∧
  ∀ i r, (run_pool sched ps t).1 i = Ret r → Qs i r (run_pool sched ps t).2.
Proof.
  unfold run_pool. revert ps t. induction sched as [|s sched IH]; intros ps t Hps.
  - split; [reflexivity|]. intros i r Hi. specialize (Hps i). cbn [fold_left fst snd] in *.
    rewrite Hi in Hps. apply Hps. reflexivity.
  - cbn [fold_left]. pose proof (pool_turn_guar Qs ps t s Hps) as [Hr Hg].
    destruct (pool_turn (ps, t) s) as [ps' t']. cbn [fst snd] in *.
    destruct (IH ps' t' Hg) as [Hr' Hg']. split; [by transitivity t'|done].
Qed.
End guarantee.
End interleave.
