(* ===== verification/AlertState.v ===== *)
(** * Persisted alert states: [internal/store/alert_state.go]

    The tables [alert_states], [alert_state_events] and
    [telegram_alert_deliveries], with [suppressions.go], [maintenance.go],
    [email_batch.go], the statements of [telegram.go] on destinations and
    deliveries, what the foreign keys do to them when an account changes, and the
    part of [reset.go] on these tables.

    A [DATETIME] column is the instant it denotes; [CURRENT_TIMESTAMP] has a
    resolution of one second.  Boolean columns hold 0 or 1. *)
From Stdlib Require Import Ascii.
From Stdlib Require String.
From stdpp Require Import sorting.
From S2P Require Import Prelude GoStrings GoNum GoTime Domain StoreReads Sql SqlText.

(** ** Rows *)

Record AlertState := {
  st_IsPresent : bool; st_Severity : string; st_Title : string;
  st_Message : string; st_ServerName : string; st_ServerType : string;
  st_ServerID : Z; st_StoreName : string; st_VMID : Z; st_VMName : string;
  st_FirstSeen : Time; st_LastSeen : Time; st_Updated : Time;
  st_LastEmail : option Time; st_LastPush : option Time;
  st_EmailPending : bool; st_PushPending : bool }.

Record Delivery := {
  dl_ActiveSent : option Time; dl_ResolutionSent : option Time }.

(** The columns [syncAlertStates] reads. *)
Record alertStateRow := {
  row_AlertID : string; row_IsPresent : bool; row_Severity : string;
  row_Title : string; row_Message : string; row_ServerName : string;
  row_ServerType : string; row_ServerID : Z; row_StoreName : string;
  row_VMID : Z; row_VMName : string }.

Record Tables := {
  states : gmap string AlertState;
  events : list AlertStateEvent;
  next_event : Z;
  deliveries : gmap (string * Z) Delivery;
  destinations : list TelegramDestination;
  suppressions : gmap string (Z * string);
  maintenances : gmap (string * Z) (Z * string);
  batch : option Z
}.

Definition set_states (f : gmap string AlertState → gmap string AlertState)
    (t : Tables) : Tables :=
  {| states := f (states t); events := events t; next_event := next_event t;
     deliveries := deliveries t; destinations := destinations t;
     suppressions := suppressions t; maintenances := maintenances t;
     batch := batch t |}.

Definition set_deliveries
    (f : gmap (string * Z) Delivery → gmap (string * Z) Delivery) (t : Tables) :
    Tables :=
  {| states := states t; events := events t; next_event := next_event t;
     deliveries := f (deliveries t); destinations := destinations t;
     suppressions := suppressions t; maintenances := maintenances t;
     batch := batch t |}.

Definition set_events (f : list AlertStateEvent → list AlertStateEvent)
    (t : Tables) : Tables :=
  {| states := states t; events := f (events t); next_event := next_event t;
     deliveries := deliveries t; destinations := destinations t;
     suppressions := suppressions t; maintenances := maintenances t;
     batch := batch t |}.

Definition set_suppressions (f : gmap string (Z * string) → gmap string (Z * string))
    (t : Tables) : Tables :=
  {| states := states t; events := events t; next_event := next_event t;
     deliveries := deliveries t; destinations := destinations t;
     suppressions := f (suppressions t); maintenances := maintenances t;
     batch := batch t |}.

Definition set_maintenances
    (f : gmap (string * Z) (Z * string) → gmap (string * Z) (Z * string))
    (t : Tables) : Tables :=
  {| states := states t; events := events t; next_event := next_event t;
     deliveries := deliveries t; destinations := destinations t;
     suppressions := suppressions t; maintenances := f (maintenances t);
     batch := batch t |}.

Definition set_batch (b : option Z) (t : Tables) : Tables :=
  {| states := states t; events := events t; next_event := next_event t;
     deliveries := deliveries t; destinations := destinations t;
     suppressions := suppressions t; maintenances := maintenances t;
     batch := b |}.

Definition set_destinations (f : list TelegramDestination → list TelegramDestination)
    (t : Tables) : Tables :=
  {| states := states t; events := events t; next_event := next_event t;
     deliveries := deliveries t; destinations := f (destinations t);
     suppressions := suppressions t; maintenances := maintenances t;
     batch := batch t |}.

(** ** Row changes of the statements *)

Definition new_state (a : Alert) (now : Time) : AlertState := {|
  st_IsPresent := true; st_Severity := al_Severity a; st_Title := al_Title a;
  st_Message := al_Message a; st_ServerName := al_ServerName a;
  st_ServerType := al_ServerType a; st_ServerID := al_ServerID a;
  st_StoreName := al_StoreName a; st_VMID := al_VMID a; st_VMName := al_VMName a;
  st_FirstSeen := now; st_LastSeen := now; st_Updated := now;
  st_LastEmail := None; st_LastPush := None; st_EmailPending := false;
  st_PushPending := false |}.

Definition seen_state (a : Alert) (now : Time) (r : AlertState) : AlertState := {|
  st_IsPresent := true; st_Severity := al_Severity a; st_Title := al_Title a;
  st_Message := al_Message a; st_ServerName := al_ServerName a;
  st_ServerType := al_ServerType a; st_ServerID := al_ServerID a;
  st_StoreName := al_StoreName a; st_VMID := al_VMID a; st_VMName := al_VMName a;
  st_FirstSeen := st_FirstSeen r; st_LastSeen := now; st_Updated := now;
  st_LastEmail := st_LastEmail r; st_LastPush := st_LastPush r;
  st_EmailPending := false; st_PushPending := false |}.

(** The [CASE] of the resolution: a critical alert that was notified leaves a
    notice pending. *)
Definition pending_after (sent : option Time) (severity : string) (pending : bool) :
    bool :=
  if bool_decide (sent ≠ None) && bool_decide (severity = AlertSeverityCritical)
  then true else pending.

Definition resolved_state (now : Time) (r : AlertState) : AlertState := {|
  st_IsPresent := false; st_Severity := st_Severity r; st_Title := st_Title r;
  st_Message := st_Message r; st_ServerName := st_ServerName r;
  st_ServerType := st_ServerType r; st_ServerID := st_ServerID r;
  st_StoreName := st_StoreName r; st_VMID := st_VMID r; st_VMName := st_VMName r;
  st_FirstSeen := st_FirstSeen r; st_LastSeen := st_LastSeen r; st_Updated := now;
  st_LastEmail := None; st_LastPush := None;
  st_EmailPending :=
    pending_after (st_LastEmail r) (st_Severity r) (st_EmailPending r);
  st_PushPending :=
    pending_after (st_LastPush r) (st_Severity r) (st_PushPending r) |}.

(** [SET last_critical_email_at, last_critical_push_at, resolution_email_pending,
    resolution_push_pending, updated_at]. *)
Definition mark_state (email push : option Time → option Time)
    (emailPending pushPending : bool → bool) (now : Time) (r : AlertState) :
    AlertState := {|
  st_IsPresent := st_IsPresent r; st_Severity := st_Severity r;
  st_Title := st_Title r; st_Message := st_Message r;
  st_ServerName := st_ServerName r; st_ServerType := st_ServerType r;
  st_ServerID := st_ServerID r; st_StoreName := st_StoreName r;
  st_VMID := st_VMID r; st_VMName := st_VMName r;
  st_FirstSeen := st_FirstSeen r; st_LastSeen := st_LastSeen r; st_Updated := now;
  st_LastEmail := email (st_LastEmail r); st_LastPush := push (st_LastPush r);
  st_EmailPending := emailPending (st_EmailPending r);
  st_PushPending := pushPending (st_PushPending r) |}.

(** ** Events *)

Definition alertEventFromAlert (a : Alert) (eventType note : string) :
    AlertStateEvent := {|
  ev_ID := 0; ev_AlertID := al_ID a; ev_EventType := eventType;
  ev_Severity := al_Severity a; ev_Title := al_Title a;
  ev_Message := al_Message a; ev_ServerName := al_ServerName a;
  ev_ServerType := al_ServerType a; ev_ServerID := al_ServerID a;
  ev_StoreName := al_StoreName a; ev_VMID := al_VMID a; ev_VMName := al_VMName a;
  ev_Note := note; ev_CreatedAt := zeroTime |}.

Definition alertEventFromState (s : alertStateRow) (eventType note : string) :
    AlertStateEvent := {|
  ev_ID := 0; ev_AlertID := row_AlertID s; ev_EventType := eventType;
  ev_Severity := row_Severity s; ev_Title := row_Title s;
  ev_Message := row_Message s; ev_ServerName := row_ServerName s;
  ev_ServerType := row_ServerType s; ev_ServerID := row_ServerID s;
  ev_StoreName := row_StoreName s; ev_VMID := row_VMID s;
  ev_VMName := row_VMName s; ev_Note := note; ev_CreatedAt := zeroTime |}.

Definition CurrentTimestamp (now : Time) : Time := UnixTime (Unix now).

(** The row stored for an event: the next id and the creation time. *)
Definition stored_event (id : Z) (now : Time) (e : AlertStateEvent) :
    AlertStateEvent := {|
  ev_ID := id; ev_AlertID := ev_AlertID e; ev_EventType := ev_EventType e;
  ev_Severity := ev_Severity e; ev_Title := ev_Title e;
  ev_Message := ev_Message e; ev_ServerName := ev_ServerName e;
  ev_ServerType := ev_ServerType e; ev_ServerID := ev_ServerID e;
  ev_StoreName := ev_StoreName e; ev_VMID := ev_VMID e; ev_VMName := ev_VMName e;
  ev_Note := ev_Note e; ev_CreatedAt := CurrentTimestamp now |}.

Definition push_event (now : Time) (e : AlertStateEvent) (t : Tables) : Tables :=
  {| states := states t;
     events := (events t ++ [stored_event (next_event t) now e]);
     next_event := next_event t + 1; deliveries := deliveries t;
     destinations := destinations t; suppressions := suppressions t;
     maintenances := maintenances t; batch := batch t |}.

Definition InsertAlertStateEvent (now : Time) (entry : AlertStateEvent) :
    prog Tables () := exec_sql (push_event now entry).

Definition insertAlertEvent (now : Time) (entry : AlertStateEvent) : prog Tables () :=
  wrap_err "insert alert event" (exec_sql (push_event now entry)).

(** ** [syncAlertStates] *)

Definition err_unique : error := ErrMsg "UNIQUE constraint failed".
Definition err_foreign_key : error := ErrMsg "FOREIGN KEY constraint failed".
Definition err_no_rows : error := ErrMsg "sql: no rows in result set".

Definition insertAlertState (a : Alert) (now : Time) : prog Tables () :=
  stmt (λ t, match states t !! al_ID a with
             | Some _ => Err err_unique
             | None => Ok ((), set_states <[al_ID a := new_state a now]> t)
             end).

Definition updateAlertState (a : Alert) (now : Time) : prog Tables () :=
  exec_sql (set_states
    (update_where (λ k _, bool_decide (k = al_ID a)) (seen_state a now))).

Definition delete_deliveries (alertID : string) : prog Tables () :=
  exec_sql (set_deliveries (delete_where (λ k _, bool_decide (k.1 = alertID)))).

Definition resolve_state (alertID : string) (now : Time) : prog Tables () :=
  exec_sql (set_states
    (update_where (λ k _, bool_decide (k = alertID)) (resolved_state now))).

Definition row_of_state (alertID : string) (r : AlertState) : alertStateRow := {|
  row_AlertID := alertID; row_IsPresent := st_IsPresent r;
  row_Severity := st_Severity r; row_Title := st_Title r;
  row_Message := st_Message r; row_ServerName := st_ServerName r;
  row_ServerType := st_ServerType r; row_ServerID := st_ServerID r;
  row_StoreName := st_StoreName r; row_VMID := st_VMID r;
  row_VMName := st_VMName r |}.

(** The body of the loop over the alerts of the evaluation. *)
Definition sync_alert (existing : gmap string alertStateRow) (now : Time) (a : Alert) :
    prog Tables () :=
  match existing !! al_ID a with
  | None =>
      _ ← insertAlertState a now;
      insertAlertEvent now (alertEventFromAlert a "appeared" "")
  | Some state =>
      _ ← (if row_IsPresent state then mret () else
             _ ← insertAlertEvent now (alertEventFromAlert a "appeared" "");
             delete_deliveries (al_ID a));
      updateAlertState a now
  end.

(** The body of the loop over the rows read at the start. *)
Definition sync_missing (current : gset string) (resolveMissing : bool) (now : Time)
    (row : string * alertStateRow) : prog Tables () :=
  let '(alertID, state) := row in
  if negb resolveMissing || negb (row_IsPresent state) then mret ()
  else if bool_decide (alertID ∈ current) then mret ()
  else
    _ ← resolve_state alertID now;
    insertAlertEvent now (alertEventFromState state "resolved" "").

Definition syncAlertStates `{!MapRange} (alerts : list Alert) (resolveMissing : bool)
    (now : Time) : prog Tables () :=
  tx (existing ← query (λ t, map_imap (λ k r, Some (row_of_state k r)) (states t));
      _ ← for_each alerts (sync_alert existing now);
      for_each (range existing)
        (sync_missing (list_to_set (al_ID <$> alerts)) resolveMissing now)).

Definition SyncAlertStates `{!MapRange} alerts now := syncAlertStates alerts true now.
Definition SyncPartialAlertStates `{!MapRange} alerts now :=
  syncAlertStates alerts false now.

(** ** Reading the states *)

Definition state_alert (alertType : string) (detected : Time)
    (row : string * AlertState) : Alert :=
  let '(alertID, r) := row in {|
  al_ID := alertID; al_ServerName := st_ServerName r;
  al_ServerID := st_ServerID r; al_ServerType := st_ServerType r;
  al_StoreName := st_StoreName r; al_VMID := st_VMID r; al_VMName := st_VMName r;
  al_Type := alertType; al_Severity := st_Severity r; al_Title := st_Title r;
  al_Message := st_Message r; al_Value := ""; al_Threshold := "";
  al_DetectedAt := detected |}.

(** [alert.ID[:idx]] when the first colon is at [idx > 0], else the whole id. *)
Definition type_of_id (alertID : string) : string :=
  let prefix := before ":" alertID in
  if str_empty prefix then alertID else prefix.

Section reads.
Context `{!SqlOrder}.

(** [SELECT ... WHERE cond ORDER BY ...]. *)
Definition select_states (cond : string → AlertState → bool)
    (le : string * AlertState → string * AlertState → bool) (t : Tables) :
    list (string * AlertState) :=
  order_by le (List.filter (λ row, cond row.1 row.2) (map_to_list (states t))).

Definition by_id (x y : string * AlertState) : bool := String.leb x.1 y.1.
Definition by_updated_desc (x y : string * AlertState) : bool :=
  st_Updated y.2 <=? st_Updated x.2.

Definition ListPresentAlerts_prog : prog Tables (list Alert) :=
  query (λ t, (λ row, state_alert (type_of_id row.1) (st_LastSeen row.2) row) <$>
    select_states (λ _ r, st_IsPresent r) by_id t).

(** The resolved alerts of which [pending] is set; [strings.Split(id, ":")[0]]. *)
Definition list_pending (pending : AlertState → bool) : prog Tables (list Alert) :=
  query (λ t, (λ row, state_alert (before ":" row.1) zeroTime row) <$>
    select_states (λ _ r, pending r && negb (st_IsPresent r)) by_updated_desc t).

Definition ListPendingAlertResolutionEmails := list_pending st_EmailPending.
Definition ListPendingAlertResolutionPushes := list_pending st_PushPending.

Definition ListPendingAlertResolutionTelegrams (destinationID : Z) :
    prog Tables (list Alert) :=
  query (λ t, (λ row, state_alert (before ":" row.1) zeroTime row) <$>
    select_states (λ k r, negb (st_IsPresent r) &&
      match deliveries t !! (k, destinationID) with
      | Some d => bool_decide (is_Some (dl_ActiveSent d)) &&
                  bool_decide (dl_ResolutionSent d = None)
      | None => false
      end) by_updated_desc t).

(** [LIMIT ? OFFSET ?] after [ORDER BY created_at DESC]. *)
Definition event_limit (limit : Z) : Z :=
  if (limit <=? 0) || (500 <? limit) then 100 else limit.

Definition by_created_desc (x y : AlertStateEvent) : bool :=
  ev_CreatedAt y <=? ev_CreatedAt x.

Definition ListAlertStateEventsPage (limit offset : Z) :
    prog Tables (list AlertStateEvent) :=
  let limit := event_limit limit in
  let offset := if offset <? 0 then 0 else offset in
  query (λ t, take (Z.to_nat limit)
    (drop (Z.to_nat offset) (order_by by_created_desc (events t)))).

Definition ListAlertStateEvents (limit : Z) := ListAlertStateEventsPage limit 0.

Definition ListAlertStateEventsForAlert (alertID : string) (limit : Z) :
    prog Tables (list AlertStateEvent) :=
  query (λ t, take (Z.to_nat (event_limit limit)) (order_by by_created_desc
    (List.filter (λ e, bool_decide (ev_AlertID e = alertID)) (events t)))).
End reads.

Definition CountAlertStateEvents : prog Tables Z :=
  query (λ t, Z.of_nat (length (events t))).

Definition GetAlertStateEventInfo (alertID : string) : prog Tables AlertStateEvent :=
  stmt (λ t, match states t !! alertID with
             | None => Err err_no_rows
             | Some r =>
                 Ok (alertEventFromState (row_of_state alertID r) "" "", t)
             end).

Definition in_ids (alertIDs : list string) (k : string) : bool :=
  bool_decide (k ∈ alertIDs).

(** The ids among [alertIDs] of present states of which [sent] holds. *)
Definition list_sent (sent : AlertState → option Time) (alertIDs : list string) :
    prog Tables (gset string) :=
  if is_nil alertIDs then mret ∅ else
  query (λ t, dom (filter (λ kr, in_ids alertIDs kr.1 && st_IsPresent kr.2 &&
    bool_decide (is_Some (sent kr.2)) = true) (states t))).

Definition ListCriticalEmailSentAlertIDs := list_sent st_LastEmail.
Definition ListCriticalPushSentAlertIDs := list_sent st_LastPush.

Definition ListCriticalTelegramSentAlertIDs (destinationID : Z)
    (alertIDs : list string) : prog Tables (gset string) :=
  if is_nil alertIDs then mret ∅ else
  query (λ t, list_to_set (List.filter (λ k,
    match deliveries t !! (k, destinationID) with
    | Some d => bool_decide (is_Some (dl_ActiveSent d))
    | None => false
    end) alertIDs)).

Definition GetAlertCriticalEmailSentAt (alertID : string) :
    prog Tables (Time * bool) :=
  query (λ t,
    match states t !! alertID with
    | Some r => if st_IsPresent r
                then (default zeroTime (st_LastEmail r),
                      bool_decide (is_Some (st_LastEmail r)))
                else (zeroTime, false)
    | None => (zeroTime, false)
    end).

(** ** Marking deliveries *)

Definition keep {A} (x : A) : A := x.

Definition MarkAlertCriticalEmailSent (alertID : string) (sentAt : Time) :
    prog Tables () :=
  exec_sql (set_states (update_where (λ k _, bool_decide (k = alertID))
    (mark_state (λ _, Some sentAt) keep keep keep sentAt))).

Definition MarkAlertCriticalEmailsSent (alertIDs : list string) (sentAt : Time) :
    prog Tables () :=
  if is_nil alertIDs then mret () else
  exec_sql (set_states (update_where (λ k _, in_ids alertIDs k)
    (mark_state (λ _, Some sentAt) keep keep keep sentAt))).

Definition MarkAlertCriticalPushesSent (alertIDs : list string) (sentAt : Time) :
    prog Tables () :=
  if is_nil alertIDs then mret () else
  exec_sql (set_states (update_where (λ k r, st_IsPresent r && in_ids alertIDs k)
    (mark_state keep (λ _, Some sentAt) keep keep sentAt))).

Definition MarkAlertResolutionEmailSent (alertID : string) (sentAt : Time) :
    prog Tables () :=
  exec_sql (set_states (update_where (λ k _, bool_decide (k = alertID))
    (mark_state keep keep (λ _, false) keep sentAt))).

Definition MarkAlertResolutionEmailsSent (alertIDs : list string) (sentAt : Time) :
    prog Tables () :=
  if is_nil alertIDs then mret () else
  exec_sql (set_states (update_where (λ k _, in_ids alertIDs k)
    (mark_state keep keep (λ _, false) keep sentAt))).

Definition MarkAlertResolutionPushesSent (alertIDs : list string) (sentAt : Time) :
    prog Tables () :=
  if is_nil alertIDs then mret () else
  exec_sql (set_states
    (update_where (λ k r, negb (st_IsPresent r) && in_ids alertIDs k)
      (mark_state keep keep keep (λ _, false) sentAt))).

(** One [INSERT ... ON CONFLICT DO UPDATE] with its two foreign keys. *)
Definition upsert_delivery (destinationID : Z) (sentAt : Time) (alertID : string) :
    prog Tables () :=
  stmt (λ t,
    if bool_decide (is_Some (states t !! alertID)) &&
       existsb (λ d, tgd_ID d =? destinationID) (destinations t)
    then Ok ((), set_deliveries
           <[(alertID, destinationID) := Build_Delivery (Some sentAt) None]> t)
    else Err err_foreign_key).

Definition MarkAlertCriticalTelegramsSent (destinationID : Z)
    (alertIDs : list string) (sentAt : Time) : prog Tables () :=
  if is_nil alertIDs then mret () else
  tx (for_each alertIDs (upsert_delivery destinationID sentAt)).

Definition MarkAlertResolutionTelegramsSent (destinationID : Z)
    (alertIDs : list string) (sentAt : Time) : prog Tables () :=
  if is_nil alertIDs then mret () else
  exec_sql (set_deliveries
    (update_where (λ k _, bool_decide (k.2 = destinationID) && in_ids alertIDs k.1)
      (λ d, Build_Delivery (dl_ActiveSent d) (Some sentAt)))).

(** The destinations of active users, in the order of their names. *)
Definition ListActiveTelegramDestinations : prog Tables (list TelegramDestination) :=
  query (λ t, List.filter tgd_UserIsActive (destinations t)).

(** *** Pairing

    A row of [destinations] is one of [telegram_destinations] with the name and the
    state of its account, as [listTelegramDestinations] joins them, in the order of the
    names. *)

Definition owned_by (userID : Z) (d : TelegramDestination) : bool := tgd_UserID d =? userID.

Fixpoint insert_named (d : TelegramDestination) (l : list TelegramDestination) :
    list TelegramDestination :=
  match l with
  | [] => [d]
  | x :: l' => if String.ltb (tgd_Username d) (tgd_Username x) then d :: l else x :: insert_named d l'
  end.

(** The columns that pairing again sets. *)
Definition relink (chatID chatTitle : string) (now : Time) (d : TelegramDestination) :
    TelegramDestination := {|
  tgd_ID := tgd_ID d; tgd_UserID := tgd_UserID d; tgd_Username := tgd_Username d;
  tgd_UserIsActive := tgd_UserIsActive d; tgd_ChatID := chatID; tgd_ChatTitle := chatTitle;
  tgd_ChatType := "private"; tgd_CreatedAt := tgd_CreatedAt d;
  tgd_UpdatedAt := CurrentTimestamp now |}.

(** [username] and [active] are those of the account, and [next] is the number that
    AUTOINCREMENT has for a new row.  Accounts and chats have one destination each. *)
Definition UpsertTelegramDestination (username : string) (active : bool) (next : Z) (now : Time)
    (userID : Z) (chatID chatTitle : string) : prog Tables Z :=
  _ ← stmt (λ t,
    if existsb (λ d, negb (owned_by userID d) && bool_decide (tgd_ChatID d = chatID)) (destinations t)
    then Err err_unique
    else if existsb (owned_by userID) (destinations t)
    then Ok ((), set_destinations
                   (fmap (λ d, if owned_by userID d then relink chatID chatTitle now d else d)) t)
    else if existsb (λ d, tgd_ID d =? next) (destinations t) then Err err_unique
    else Ok ((), set_destinations (insert_named
           {| tgd_ID := next; tgd_UserID := userID; tgd_Username := username;
              tgd_UserIsActive := active; tgd_ChatID := chatID; tgd_ChatTitle := chatTitle;
              tgd_ChatType := "private"; tgd_CreatedAt := CurrentTimestamp now;
              tgd_UpdatedAt := CurrentTimestamp now |}) t));
  stmt (λ t, match List.find (owned_by userID) (destinations t) with
             | Some d => Ok (tgd_ID d, t)
             | None => Err err_no_rows
             end).

(** [DELETE FROM telegram_destinations]: the deliveries to a destination go with it (the
    foreign key cascades). *)
Definition delete_destinations (cond : TelegramDestination → bool) (t : Tables) : Tables :=
  set_deliveries (delete_where (λ k _,
      existsb (λ d, (tgd_ID d =? k.2) && cond d) (destinations t)))
    (set_destinations (List.filter (λ d, negb (cond d))) t).

Definition DeleteTelegramDestinationForUser (userID : Z) : prog Tables () :=
  exec_sql (delete_destinations (owned_by userID)).

Definition DeleteAllTelegramDestinations : prog Tables () :=
  exec_sql (delete_destinations (λ _, true)).

(** The rows of [telegram_delivery_status] and [telegram_config] are not of these tables. *)
Definition DeleteTelegramConfig : prog Tables () :=
  tx (_ ← exec_sql id;
      _ ← exec_sql (set_deliveries (λ _, ∅));
      _ ← exec_sql (delete_destinations (λ _, true));
      exec_sql id).

Definition with_account (username : string) (active : bool) (d : TelegramDestination) :
    TelegramDestination := {|
  tgd_ID := tgd_ID d; tgd_UserID := tgd_UserID d; tgd_Username := username;
  tgd_UserIsActive := active; tgd_ChatID := tgd_ChatID d; tgd_ChatTitle := tgd_ChatTitle d;
  tgd_ChatType := tgd_ChatType d; tgd_CreatedAt := tgd_CreatedAt d; tgd_UpdatedAt := tgd_UpdatedAt d |}.

(** What changes with an account: its name, its state, or everything when it is deleted
    ([ON DELETE CASCADE]). *)
Definition rename_account (userID : Z) (username : string) (t : Tables) : Tables :=
  let renamed d := if owned_by userID d then with_account username (tgd_UserIsActive d) d else d in
  set_destinations (foldr (λ d, insert_named (renamed d)) []) t.

Definition activate_account (userID : Z) (active : bool) (t : Tables) : Tables :=
  set_destinations
    (fmap (λ d, if owned_by userID d then with_account (tgd_Username d) active d else d)) t.

Definition delete_account (userID : Z) : Tables → Tables := delete_destinations (owned_by userID).

(** ** Pruning *)

(** No Telegram destination still waits for the resolution of [alertID]. *)
Definition telegram_waiting (t : Tables) (alertID : string) : bool :=
  existsb (λ kd, bool_decide (kd.1.1 = alertID) &&
      bool_decide (is_Some (dl_ActiveSent kd.2)) &&
      bool_decide (dl_ResolutionSent kd.2 = None)) (map_to_list (deliveries t)).

Definition prunable (t : Tables) (cutoff : Time) (alertID : string) (r : AlertState) :
    bool :=
  negb (st_IsPresent r) && negb (st_EmailPending r) && negb (st_PushPending r) &&
  (st_Updated r <? cutoff) && negb (telegram_waiting t alertID).

(** [DELETE FROM alert_states]: its deliveries go with a state (the foreign key
    cascades). *)
Definition delete_states (cond : string → AlertState → bool) (t : Tables) : Tables :=
  set_deliveries (delete_where (λ k _,
      match states t !! k.1 with Some r => cond k.1 r | None => false end))
    (set_states (delete_where cond) t).

Definition DeleteOldAlertHistory (cutoff : Time) : prog Tables (Z * Z) :=
  tx (nevents ← wrap_err "delete alert events" (stmt (λ t,
        let old e := ev_CreatedAt e <? CurrentTimestamp cutoff in
        Ok (Z.of_nat (length (List.filter old (events t))),
            set_events (List.filter (λ e, negb (old e))) t)));
      nstates ← wrap_err "delete resolved alert states" (stmt (λ t,
        Ok (Z.of_nat (length (List.filter (λ kr, prunable t cutoff kr.1 kr.2)
              (map_to_list (states t)))),
            delete_states (prunable t cutoff) t)));
      mret (nevents, nstates)).

(** ** [reset.go] *)

(** The statements of [ResetAllData] on these tables, in its order; the others are on
    tables of their own. *)
Definition ResetAllData_alerts : prog Tables () :=
  tx (for_each
    [("alert_state_events", set_events (λ _, []));
     ("alert_states", delete_states (λ _ _, true));
     ("alert_email_batch", set_batch None);
     ("alert_suppressions", set_suppressions (λ _, ∅));
     ("server_maintenance", set_maintenances (λ _, ∅));
     ("telegram_alert_deliveries", set_deliveries (λ _, ∅));
     ("telegram_destinations", delete_destinations (λ _, true))]
    (λ '(table, delete_rows), wrap_err ("reset " +:+ table) (exec_sql delete_rows))).

(** ** [suppressions.go] *)

Record AlertSuppression := {
  sup_AlertID : string; sup_Until : Time; sup_Reason : string; sup_Active : bool }.

Definition UpsertAlertSuppression (alertID : string) (until : Time) (reason : string) :
    prog Tables () :=
  exec_sql (set_suppressions <[alertID := (Unix until, reason)]>).

Definition DeleteAlertSuppression (alertID : string) : prog Tables () :=
  exec_sql (set_suppressions (delete alertID)).

Definition GetActiveSuppressions_prog (now : Time) : prog Tables (gmap string Time) :=
  query (λ t, map_imap (λ _ (s : Z * string),
    if Unix now <? s.1 then Some (UnixTime s.1) else None) (suppressions t)).

Definition GetAlertSuppression (alertID : string) (now : Time) :
    prog Tables AlertSuppression :=
  stmt (λ t,
    match suppressions t !! alertID with
    | None => Err err_no_rows
    | Some (until, reason) =>
        Ok (Build_AlertSuppression alertID (UnixTime until) reason
              (After (UnixTime until) now), t)
    end).

(** [server_delete.go]: the suppressions of a server that is removed. *)
Definition deleteAlertSuppressionsForServer (serverType : string) (serverID : Z) :
    prog Tables () :=
  let exact := "%:" +:+ serverType +:+ ":" +:+ Itoa serverID in
  let prefix := exact +:+ ":%" in
  wrap_err "alert_suppressions delete" (exec_sql (set_suppressions
    (delete_where (λ id _, like exact id || like prefix id)))).

(** ** [maintenance.go] *)

Definition UpsertServerMaintenance (serverType : string) (serverID : Z)
    (until : Time) (reason : string) : prog Tables () :=
  exec_sql (set_maintenances
    <[(TrimSpace serverType, serverID) := (Unix until, TrimSpace reason)]>).

Definition DeleteServerMaintenance (serverType : string) (serverID : Z) :
    prog Tables () :=
  exec_sql (set_maintenances (delete (serverType, serverID))).

Definition scanServerMaintenance (now : Time) (serverType : string) (serverID : Z)
    (row : Z * string) : ServerMaintenance := {|
  mt_ServerType := serverType; mt_ServerID := serverID;
  mt_Until := UnixTime row.1; mt_Reason := row.2;
  mt_Active := After (UnixTime row.1) now |}.

Definition GetServerMaintenance (serverType : string) (serverID : Z) (now : Time) :
    prog Tables ServerMaintenance :=
  stmt (λ t,
    match maintenances t !! (serverType, serverID) with
    | None => Err err_no_rows
    | Some row => Ok (scanServerMaintenance now serverType serverID row, t)
    end).

Definition active_maintenance (now : Time) (m : gmap string ServerMaintenance)
    (row : string * Z * (Z * string)) : gmap string ServerMaintenance :=
  let mt := scanServerMaintenance now row.1.1 row.1.2 row.2 in
  if mt_Active mt
  then <[ServerMaintenanceKey (mt_ServerType mt) (mt_ServerID mt) := mt]> m else m.

Definition GetActiveServerMaintenances_prog (now : Time) :
    prog Tables (gmap string ServerMaintenance) :=
  query (λ t, fold_left (active_maintenance now)
    (List.filter (λ row, Unix now <? row.2.1) (map_to_list (maintenances t))) ∅).

(** ** [email_batch.go] *)

Definition ClearAlertEmailBatch : prog Tables () := exec_sql (set_batch None).

(** The boolean is returned next to the error by the first branch; the caller
    looks at the error first. *)
Definition AlertEmailBatchDue (minutes : Z) (pending : bool) (now : Time) :
    prog Tables bool :=
  if negb pending || (minutes =? 0) then
    _ ← exec_sql (set_batch None); mret pending
  else
    _ ← exec_sql (λ t, match batch t with
                       | Some _ => t
                       | None => set_batch (Some (Unix now)) t
                       end);
    since ← stmt (λ t, match batch t with
                       | Some since => Ok (since, t)
                       | None => Err err_no_rows
                       end);
    mret (negb (Before now (AddDur (UnixTime since) (wrap64 (minutes * Minute))))).

(** ** Reference definitions for the theorems *)

Definition alert_at (alerts : list Alert) (k : string) : option Alert :=
  find (λ a, bool_decide (al_ID a = k)) alerts.

(** The state of an alert after an evaluation: [old] is its row before, [new] its
    alert in the evaluation. *)
Definition sync_row (now : Time) (resolveMissing : bool) (old : option AlertState)
    (new : option Alert) : option AlertState :=
  match old, new with
  | None, None => None
  | None, Some a => Some (new_state a now)
  | Some r, Some a => Some (seen_state a now r)
  | Some r, None =>
      Some (if resolveMissing && st_IsPresent r then resolved_state now r else r)
  end.

Definition present (t : Tables) (k : string) : bool :=
  match states t !! k with Some r => st_IsPresent r | None => false end.

(** The alerts that were not present before, and the present states that the
    evaluation no longer holds. *)
Definition appeared (t : Tables) (alerts : list Alert) : list string :=
  List.filter (λ k, negb (present t k)) (al_ID <$> alerts).

Definition vanished (t : Tables) (alerts : list Alert) : list string :=
  List.filter (λ k, present t k && negb (in_ids (al_ID <$> alerts) k))
    (map_to_list (states t)).*1.

Definition event_key (e : AlertStateEvent) : string * string :=
  (ev_AlertID e, ev_EventType e).

(** ** Lemmas: the loop over the alerts *)

Definition existing_of (t : Tables) : gmap string alertStateRow :=
  map_imap (λ k r, Some (row_of_state k r)) (states t).

Lemma lookup_existing t k : existing_of t !! k = row_of_state k <$> states t !! k.
Proof. unfold existing_of. rewrite map_lookup_imap. by destruct (states t !! k). Qed.

(** What one iteration does to the tables when it succeeds. *)
Definition sync_alert_pure (t0 : Tables) (now : Time) (t : Tables) (a : Alert) : Tables :=
  match states t0 !! al_ID a with
  | None =>
      push_event now (alertEventFromAlert a "appeared" "")
        (set_states <[al_ID a := new_state a now]> t)
  | Some r =>
      set_states (update_where (λ k _, bool_decide (k = al_ID a)) (seen_state a now))
        (if st_IsPresent r then t else
         set_deliveries (delete_where (λ k _, bool_decide (k.1 = al_ID a)))
           (push_event now (alertEventFromAlert a "appeared" "") t))
  end.

Lemma run_sync_alert t0 now t a :
  states t !! al_ID a = states t0 !! al_ID a →
  run (sync_alert (existing_of t0) now a) t = (Ok (), sync_alert_pure t0 now t a).
Proof.
  intros Heq. unfold sync_alert, sync_alert_pure, insertAlertState,
    insertAlertEvent, delete_deliveries, updateAlertState.
  rewrite lookup_existing.
  destruct (states t0 !! al_ID a) as [r|] eqn:Hr;
    cbn [fmap option_fmap option_map row_of_state row_IsPresent].
  - destruct (st_IsPresent r); autorewrite with probak_run; done.
  - autorewrite with probak_run. by rewrite Heq.
Qed.

Lemma states_sync_alert_pure t0 now t a k :
  states t !! al_ID a = states t0 !! al_ID a →
  states (sync_alert_pure t0 now t a) !! k =
  if decide (k = al_ID a)
  then sync_row now true (states t0 !! k) (Some a) else states t !! k.
Proof.
  intros Heq. unfold sync_alert_pure. case_decide as Hk.
  - subst k. destruct (states t0 !! al_ID a) as [r|] eqn:Hr; simpl.
    + rewrite lookup_update_where. destruct (st_IsPresent r); simpl;
        rewrite Heq; simpl; by rewrite bool_decide_true.
    + by rewrite lookup_insert_eq.
  - destruct (states t0 !! al_ID a) as [r|]; simpl.
    + rewrite lookup_update_where. destruct (st_IsPresent r); simpl;
        destruct (states t !! k); simpl; by rewrite ?bool_decide_false.
    + by rewrite lookup_insert_ne.
Qed.

Lemma run_sync_alerts t0 now alerts t :
  NoDup (al_ID <$> alerts) →
  (∀ a, a ∈ alerts → states t !! al_ID a = states t0 !! al_ID a) →
  run (for_each alerts (sync_alert (existing_of t0) now)) t =
    (Ok (), fold_left (sync_alert_pure t0 now) alerts t) ∧
  ∀ k, states (fold_left (sync_alert_pure t0 now) alerts t) !! k =
    match alert_at alerts k with
    | Some a => sync_row now true (states t0 !! k) (Some a)
    | None => states t !! k
    end.
Proof.
  revert t. induction alerts as [|a alerts IH]; intros t Hnd Heq; simpl; [done|].
  apply NoDup_cons in Hnd as [Ha Hnd].
  pose proof (Heq a ltac:(by left)) as Hat.
  destruct (IH (sync_alert_pure t0 now t a) Hnd) as [Hrun Hst].
  { intros b Hb. rewrite states_sync_alert_pure by done. rewrite decide_False.
    - apply Heq. by right.
    - intros Hid. apply Ha. apply list_elem_of_fmap. by exists b. }
  split; [by rewrite run_bind, run_sync_alert, Hrun|].
  intros k. rewrite Hst. destruct (alert_at alerts k) as [b|] eqn:Hk.
  - destruct (decide (al_ID a = k)) as [<-|Hne]; [|by rewrite bool_decide_false].
    exfalso. apply Ha. apply find_some in Hk as [Hin Hb]. bool_to_prop.
    apply list_elem_of_fmap. exists b. by rewrite list_elem_of_In.
  - rewrite states_sync_alert_pure by done.
    destruct (decide (al_ID a = k)) as [<-|Hne].
    + by rewrite decide_True, bool_decide_true.
    + by rewrite decide_False, bool_decide_false.
Qed.

Definition with_events (keys : list (string * string)) (t t' : Tables) : Prop :=
  ∃ new, events t' = (events t ++ new) ∧ event_key <$> new = keys.

Lemma with_events_refl t : with_events [] t t.
Proof. exists []. by rewrite app_nil_r. Qed.

Lemma with_events_trans k1 k2 t1 t2 t3 :
  with_events k1 t1 t2 → with_events k2 t2 t3 → with_events (k1 ++ k2) t1 t3.
Proof.
  intros (n1 & H1 & <-) (n2 & H2 & <-). exists (n1 ++ n2).
  by rewrite H2, H1, app_assoc, fmap_app.
Qed.

Lemma with_events_push now e t :
  with_events [(ev_AlertID e, ev_EventType e)] t (push_event now e t).
Proof. by exists [stored_event (next_event t) now e]. Qed.

Lemma events_sync_alerts t0 now alerts t :
  with_events ((λ k, (k, "appeared")) <$> appeared t0 alerts) t
    (fold_left (sync_alert_pure t0 now) alerts t).
Proof.
  revert t. induction alerts as [|a alerts IH]; intros t; [apply with_events_refl|].
  unfold appeared. cbn [fmap list_fmap List.filter fold_left].
  specialize (IH (sync_alert_pure t0 now t a)). unfold sync_alert_pure at 1.
  unfold sync_alert_pure in IH at 1. unfold present at 1.
  destruct (states t0 !! al_ID a) as [r|]; [destruct (st_IsPresent r)|]; simpl.
  - exact IH.
  - exact (with_events_trans [_] _ _ _ _ (with_events_push now _ t) IH).
  - exact (with_events_trans [_] _ _ _ _ (with_events_push now _ _) IH).
Qed.

(** The deliveries of an alert that comes back are forgotten. *)
Definition returned (t0 : Tables) (alerts : list Alert) (k : string) : bool :=
  existsb (λ a, bool_decide (al_ID a = k) &&
    match states t0 !! k with Some r => negb (st_IsPresent r) | None => false end) alerts.

Lemma deliveries_sync_alerts t0 now alerts t k d :
  deliveries (fold_left (sync_alert_pure t0 now) alerts t) !! (k, d) =
  if returned t0 alerts k then None else deliveries t !! (k, d).
Proof.
  revert t. induction alerts as [|a alerts IH]; intros t; [done|].
  cbn [fold_left returned existsb]. fold (returned t0 alerts k). rewrite IH.
  destruct (returned t0 alerts k); [by rewrite orb_true_r|]. rewrite orb_false_r.
  unfold sync_alert_pure.
  destruct (decide (al_ID a = k)) as [<-|Hne].
  - rewrite bool_decide_true by done. cbn [andb].
    destruct (states t0 !! al_ID a) as [r|]; [|done].
    destruct (st_IsPresent r); simpl; [done|]. rewrite lookup_delete_where. simpl.
    rewrite bool_decide_true by done. by destruct (deliveries t !! _).
  - rewrite bool_decide_false by done. cbn [andb].
    destruct (states t0 !! al_ID a) as [r|]; [|done].
    destruct (st_IsPresent r); simpl; [done|]. rewrite lookup_delete_where. simpl.
    rewrite bool_decide_false by congruence. by destruct (deliveries t !! _).
Qed.

Definition same_others (t t' : Tables) : Prop :=
  destinations t' = destinations t ∧ suppressions t' = suppressions t ∧
  maintenances t' = maintenances t ∧ batch t' = batch t.

Lemma others_sync_alerts t0 now alerts t :
  same_others t (fold_left (sync_alert_pure t0 now) alerts t).
Proof.
  unfold same_others. revert t. induction alerts as [|a alerts IH]; intros t; [done|].
  cbn [fold_left]. destruct (IH (sync_alert_pure t0 now t a)) as (-> & -> & -> & ->).
  unfold sync_alert_pure.
  destruct (states t0 !! al_ID a) as [r|]; [destruct (st_IsPresent r)|]; done.
Qed.

(** ** Lemmas: the loop over the rows read at the start *)

Definition missing_row (alerts : list Alert) (resolveMissing : bool)
    (row : string * alertStateRow) : bool :=
  resolveMissing && row_IsPresent row.2 && negb (in_ids (al_ID <$> alerts) row.1).

Definition sync_missing_pure (alerts : list Alert) (resolveMissing : bool) (now : Time)
    (t : Tables) (row : string * alertStateRow) : Tables :=
  if missing_row alerts resolveMissing row then
    push_event now (alertEventFromState row.2 "resolved" "")
      (set_states (update_where (λ k _, bool_decide (k = row.1)) (resolved_state now)) t)
  else t.

Lemma run_sync_missing alerts resolveMissing now t row :
  run (sync_missing (list_to_set (al_ID <$> alerts)) resolveMissing now row) t =
  (Ok (), sync_missing_pure alerts resolveMissing now t row).
Proof.
  destruct row as [k s]. unfold sync_missing, sync_missing_pure, missing_row, in_ids,
    resolve_state, insertAlertEvent. cbn [fst snd].
  rewrite (bool_decide_ext (k ∈ _) (k ∈ al_ID <$> alerts)) by apply elem_of_list_to_set.
  destruct resolveMissing, (row_IsPresent s), (bool_decide (k ∈ _)); cbn [andb orb negb];
    autorewrite with probak_run; done.
Qed.

Lemma sync_missing_fold alerts resolveMissing now rows t :
  NoDup rows.*1 →
  let t' := fold_left (sync_missing_pure alerts resolveMissing now) rows t in
  (∀ k, states t' !! k =
    if existsb (λ row, bool_decide (row.1 = k) && missing_row alerts resolveMissing row) rows
    then resolved_state now <$> states t !! k else states t !! k) ∧
  with_events ((λ row, (row_AlertID row.2, "resolved")) <$>
    List.filter (missing_row alerts resolveMissing) rows) t t' ∧
  deliveries t' = deliveries t ∧ same_others t t'.
Proof.
  cbv zeta. revert t. induction rows as [|row rows IH]; intros t Hnd.
  { split_and!; try done. apply with_events_refl. }
  cbn [fold_left existsb List.filter]. rewrite fmap_cons in Hnd.
  apply NoDup_cons in Hnd as [Hrow Hnd].
  set (t1 := sync_missing_pure alerts resolveMissing now t row).
  destruct (IH t1 Hnd) as (Hst & Hev & Hdl & Hot). clear IH.
  assert (t1 = sync_missing_pure alerts resolveMissing now t row) as Ht1 by done.
  clearbody t1. unfold sync_missing_pure in Ht1.
  destruct (missing_row alerts resolveMissing row) eqn:Hm; subst t1.
  - split_and!; [|exact (with_events_trans [_] _ _ _ _ (with_events_push now _ _) Hev)
      |exact Hdl|exact Hot].
    intros k. rewrite Hst. cbn [states push_event set_states].
    rewrite lookup_update_where. destruct (decide (row.1 = k)) as [<-|Hne].
    + rewrite (bool_decide_true (row.1 = row.1)) by done. cbn [andb orb].
      rewrite (proj2 (existsb_false_iff _ _)); [by destruct (states t !! row.1)|].
      intros x Hx. rewrite bool_decide_false; [done|].
      intros Heq. apply Hrow. rewrite <-Heq. apply list_elem_of_fmap. eauto.
    + rewrite (bool_decide_false (row.1 = k)), (bool_decide_false (k = row.1)) by done.
      cbn [andb orb]. by destruct (states t !! k).
  - split_and!; [|exact Hev|exact Hdl|exact Hot].
    intros k. by rewrite Hst, andb_false_r.
Qed.

(** ** Lemmas: a whole evaluation *)

Lemma alert_at_None alerts k : alert_at alerts k = None ↔ in_ids (al_ID <$> alerts) k = false.
Proof.
  unfold alert_at, in_ids. rewrite bool_decide_eq_false. split.
  - intros Hn (a & -> & Ha)%list_elem_of_fmap. apply list_elem_of_In in Ha.
    eapply find_none in Hn; [|done]. by rewrite bool_decide_true in Hn.
  - intros Hn. destruct (find _ _) as [a|] eqn:Hf; [|done]. exfalso. apply Hn.
    apply find_some in Hf as [Ha Hk]. bool_to_prop. apply list_elem_of_fmap.
    exists a. by rewrite list_elem_of_In.
Qed.

Lemma alert_at_NoDup alerts a :
  NoDup (al_ID <$> alerts) → a ∈ alerts → alert_at alerts (al_ID a) = Some a.
Proof.
  induction alerts as [|b alerts IH]; [by intros _ ?%not_elem_of_nil|].
  rewrite fmap_cons. intros [Hb Hnd]%NoDup_cons Ha. unfold alert_at. simpl.
  apply elem_of_cons in Ha as [->|Ha]; [by rewrite bool_decide_true|].
  rewrite bool_decide_false; [by apply IH|]. intros Heq. apply Hb.
  rewrite Heq. apply list_elem_of_fmap. eauto.
Qed.

Lemma elem_of_existing `{!MapRange} t k s :
  (k, s) ∈ range (existing_of t) ↔ ∃ r, states t !! k = Some r ∧ s = row_of_state k r.
Proof.
  rewrite elem_of_range, lookup_existing, fmap_Some. done.
Qed.

Lemma missing_row_state alerts resolveMissing k r :
  missing_row alerts resolveMissing (k, row_of_state k r) =
  resolveMissing && st_IsPresent r && negb (in_ids (al_ID <$> alerts) k).
Proof. done. Qed.

Lemma existsb_missing `{!MapRange} t alerts resolveMissing k :
  existsb (λ row, bool_decide (row.1 = k) && missing_row alerts resolveMissing row)
    (range (existing_of t)) =
  resolveMissing && present t k && negb (in_ids (al_ID <$> alerts) k).
Proof.
  apply eq_true_iff_eq. rewrite existsb_exists. unfold present. split.
  - intros ([k' s] & Hin & Hb). apply list_elem_of_In, elem_of_existing in Hin
      as (r & Hr & ->). apply andb_true_iff in Hb as [Hk Hm]. bool_to_prop.
    simpl in Hk. subst k'. by rewrite Hr, <-missing_row_state.
  - destruct (states t !! k) as [r|] eqn:Hr; [|by destruct resolveMissing].
    intros Hb. exists (k, row_of_state k r).
    rewrite missing_row_state, Hb, bool_decide_true by done. split; [|done].
    apply list_elem_of_In, elem_of_existing. eauto.
Qed.

Lemma vanished_missing `{!MapRange} t alerts :
  row_AlertID ∘ snd <$> List.filter (missing_row alerts true) (range (existing_of t))
  ≡ₚ vanished t alerts.
Proof.
  assert (row_AlertID ∘ snd <$> List.filter (missing_row alerts true) (range (existing_of t))
    = (List.filter (missing_row alerts true) (range (existing_of t))).*1) as ->.
  { apply list_fmap_ext. intros i [k s] Hi. apply list_elem_of_lookup_2 in Hi.
    apply elem_of_filter_bool in Hi as [Hi _].
    by apply elem_of_existing in Hi as (r & _ & ->). }
  apply NoDup_Permutation.
  - eapply sublist_NoDup; [apply (NoDup_range_fst (existing_of t))|].
    apply sublist_fmap, filter_bool_sublist.
  - apply NoDup_filter_bool, NoDup_fst_map_to_list.
  - intros k. unfold vanished. rewrite elem_of_filter_bool, !list_elem_of_fmap. split.
    + intros ([k' s] & -> & [Hin Hm]%elem_of_filter_bool). simpl.
      apply elem_of_existing in Hin as (r & Hr & ->).
      rewrite missing_row_state in Hm. unfold present. rewrite Hr. split; [|done].
      exists (k', r). by rewrite elem_of_map_to_list.
    + intros [([k' r] & -> & Hr) Hb]. apply elem_of_map_to_list in Hr. simpl in *.
      unfold present in Hb. rewrite Hr in Hb. exists (k', row_of_state k' r).
      split; [done|]. apply elem_of_filter_bool. rewrite missing_row_state.
      split; [|done]. apply elem_of_existing. eauto.
Qed.

(** What one evaluation does to the tables. *)
Record synced (now : Time) (resolveMissing : bool) (alerts : list Alert)
    (t t' : Tables) : Prop := {
  synced_states k : states t' !! k =
    sync_row now resolveMissing (states t !! k) (alert_at alerts k);
  synced_events : ∃ gone, with_events
    (((λ k, (k, "appeared")) <$> appeared t alerts) ++
     ((λ k, (k, "resolved")) <$> gone)) t t' ∧
    gone ≡ₚ (if resolveMissing then vanished t alerts else []);
  synced_deliveries k d : deliveries t' !! (k, d) =
    if returned t alerts k then None else deliveries t !! (k, d);
  synced_others : same_others t t'
}.

Lemma run_syncAlertStates `{!MapRange} now resolveMissing alerts t :
  NoDup (al_ID <$> alerts) →
  ∃ t', run (syncAlertStates alerts resolveMissing now) t = (Ok (), t') ∧
    synced now resolveMissing alerts t t'.
Proof.
  intros Hnd. destruct (run_sync_alerts t now alerts t Hnd) as [Hrun Hst]; [done|].
  pose proof (events_sync_alerts t now alerts t) as Hev.
  pose proof (deliveries_sync_alerts t now alerts t) as Hdl.
  pose proof (others_sync_alerts t now alerts t) as Hot.
  set (t1 := fold_left _ _ _) in *. clearbody t1.
  destruct (sync_missing_fold alerts resolveMissing now (range (existing_of t)) t1)
    as (Hst2 & Hev2 & Hdl2 & Hot2); [apply NoDup_range_fst|].
  set (t2 := fold_left _ _ _) in *.
  assert (run (syncAlertStates alerts resolveMissing now) t = (Ok (), t2)) as Hall.
  { unfold syncAlertStates. rewrite run_tx, run_bind, run_query.
    fold (existing_of t). rewrite run_bind, Hrun.
    rewrite (run_for_each _ _ (sync_missing_pure alerts resolveMissing now)); [done|].
    intros u row. apply run_sync_missing. }
  exists t2. split; [done|]. clearbody t2. split.
  - intros k. rewrite Hst2, existsb_missing, Hst.
    destruct (alert_at alerts k) as [a|] eqn:Hk.
    + assert (in_ids (al_ID <$> alerts) k = true) as ->.
      { apply not_false_iff_true. intros Hin. apply alert_at_None in Hin. congruence. }
      rewrite andb_false_r. by destruct (states t !! k).
    + apply alert_at_None in Hk. rewrite Hk, andb_true_r. unfold present.
      destruct (states t !! k) as [r|]; [|by destruct resolveMissing]. simpl.
      by destruct (resolveMissing && st_IsPresent r).
  - exists (row_AlertID ∘ snd <$>
      List.filter (missing_row alerts resolveMissing) (range (existing_of t))).
    split.
    + eapply with_events_trans; [exact Hev|]. rewrite <-list_fmap_compose. exact Hev2.
    + destruct resolveMissing; [apply vanished_missing|].
      by rewrite filter_bool_none.
  - intros k d. by rewrite Hdl2, Hdl.
  - destruct Hot as (? & ? & ? & ?), Hot2 as (? & ? & ? & ?).
    unfold same_others. split_and!; congruence.
Qed.

Lemma strict_sync_alert existing now a : strict (sync_alert existing now a).
Proof.
  unfold sync_alert, insertAlertState, insertAlertEvent, delete_deliveries,
    updateAlertState. destruct (existing !! al_ID a) as [s|];
    [destruct (row_IsPresent s)|]; eauto 10 with probak.
Qed.

Lemma strict_syncAlertStates `{!MapRange} alerts resolveMissing now :
  strict (syncAlertStates alerts resolveMissing now).
Proof.
  unfold syncAlertStates. apply strict_tx, strict_bind; [apply strict_stmt|].
  intros existing. apply strict_bind.
  - apply strict_for_each. intros a. apply strict_sync_alert.
  - intros _. apply strict_for_each. intros [k s]. unfold sync_missing, resolve_state,
      insertAlertEvent. repeat case_match; eauto 8 with probak.
Qed.

Lemma present_synced now resolveMissing alerts t t' k :
  synced now resolveMissing alerts t t' →
  present t' k = in_ids (al_ID <$> alerts) k ||
                 (negb resolveMissing && present t k).
Proof.
  intros Hs. unfold present. rewrite (synced_states _ _ _ _ _ Hs).
  destruct (alert_at alerts k) as [a|] eqn:Hk.
  - assert (in_ids (al_ID <$> alerts) k = true) as ->.
    { apply not_false_iff_true. intros Hin. apply alert_at_None in Hin. congruence. }
    by destruct (states t !! k).
  - apply alert_at_None in Hk. rewrite Hk. cbn [orb].
    destruct (states t !! k) as [r|]; [|by destruct resolveMissing].
    cbn [sync_row]. destruct resolveMissing, (st_IsPresent r) eqn:Hr; done.
Qed.

(** *** An identifier that appears twice *)

Lemma run_for_each_app {A} (l1 l2 : list A) (f : A → prog Tables ()) t :
  run (for_each (l1 ++ l2) f) t =
  match run (for_each l1 f) t with
  | (Ok _, t') => run (for_each l2 f) t'
  | (Err e, t') => (Err e, t')
  end.
Proof.
  revert t. induction l1 as [|x l1 IH]; intros t; simpl; [done|].
  rewrite !run_bind. destruct (run (f x) t) as [[[]|e] t1]; [apply IH|done].
Qed.

Lemma is_Some_update_where cond f (m : gmap string AlertState) k :
  is_Some (m !! k) → is_Some (update_where cond f m !! k).
Proof. rewrite lookup_update_where, fmap_is_Some. done. Qed.

Lemma run_sync_alert_cases t0 now t a :
  (∀ k, is_Some (states t0 !! k) → is_Some (states t !! k)) →
  (states t0 !! al_ID a = None ∧ is_Some (states t !! al_ID a) ∧
   run (sync_alert (existing_of t0) now a) t = (Err err_unique, t)) ∨
  (run (sync_alert (existing_of t0) now a) t = (Ok (), sync_alert_pure t0 now t a) ∧
   ∀ k, is_Some (states t !! k) ∨ k = al_ID a →
     is_Some (states (sync_alert_pure t0 now t a) !! k)).
Proof.
  intros Hsub. unfold sync_alert, sync_alert_pure, insertAlertState,
    insertAlertEvent, delete_deliveries, updateAlertState.
  rewrite lookup_existing. destruct (states t0 !! al_ID a) as [r|] eqn:Hr;
    cbn [fmap option_fmap option_map row_of_state row_IsPresent].
  - right. split; [destruct (st_IsPresent r); by autorewrite with probak_run|].
    intros k Hk. apply is_Some_update_where.
    destruct Hk as [Hk|Hk]; [by destruct (st_IsPresent r)|].
    subst k. pose proof (Hsub (al_ID a) ltac:(by rewrite Hr)).
    by destruct (st_IsPresent r).
  - autorewrite with probak_run. destruct (states t !! al_ID a) as [r|] eqn:Ht.
    + left. eauto.
    + right. split; [done|]. intros k Hk. simpl.
      destruct (decide (k = al_ID a)) as [->|]; [by rewrite lookup_insert_eq|].
      rewrite lookup_insert_ne by done. naive_solver.
Qed.

Lemma run_sync_alerts_cases t0 now alerts t :
  (∀ k, is_Some (states t0 !! k) → is_Some (states t !! k)) →
  (∃ t', run (for_each alerts (sync_alert (existing_of t0) now)) t =
    (Err err_unique, t')) ∨
  ∃ t', run (for_each alerts (sync_alert (existing_of t0) now)) t = (Ok (), t') ∧
    ∀ k, is_Some (states t !! k) ∨ k ∈ al_ID <$> alerts → is_Some (states t' !! k).
Proof.
  revert t. induction alerts as [|a alerts IH]; intros t Hsub; simpl.
  { right. exists t. split; [done|]. intros k [?|?]; [done|]. by apply not_elem_of_nil in H. }
  rewrite run_bind.
  destruct (run_sync_alert_cases t0 now t a Hsub) as [(_ & _ & ->)|[-> Hk]]; [eauto|].
  destruct (IH (sync_alert_pure t0 now t a)) as [[t' ->]|(t' & -> & Hk')]; [|eauto|].
  { intros k Hs. apply Hk. left. by apply Hsub. }
  right. exists t'. split; [done|]. intros k [Hs|Hs]; apply Hk'.
  - left. apply Hk. by left.
  - apply elem_of_cons in Hs as [->|Hs]; [left; apply Hk; by right|by right].
Qed.

Lemma sync_duplicate `{!MapRange} now resolveMissing l1 l2 l3 a b t :
  al_ID a = al_ID b → states t !! al_ID a = None →
  run (syncAlertStates (l1 ++ a :: l2 ++ b :: l3) resolveMissing now) t =
  (Err err_unique, t).
Proof.
  intros Hab Hnew. unfold syncAlertStates. rewrite run_tx, run_bind, run_query.
  fold (existing_of t). rewrite run_bind.
  change (l1 ++ a :: l2 ++ b :: l3) with (l1 ++ (a :: l2) ++ b :: l3).
  rewrite app_assoc, run_for_each_app.
  destruct (run_sync_alerts_cases t now (l1 ++ a :: l2) t) as [[t' ->]|(t' & -> & Hk)];
    [done|done|]. simpl. rewrite run_bind.
  assert (is_Some (states t' !! al_ID b)) as [r Hr].
  { apply Hk. right. rewrite <-Hab, fmap_app, fmap_cons. set_solver. }
  rewrite <-Hab in Hr. unfold sync_alert, insertAlertState.
  rewrite lookup_existing, <-Hab, Hnew. cbn [fmap option_fmap option_map].
  autorewrite with probak_run. by rewrite Hr.
Qed.

(** ** The notification ledger: a step relation over the store's operations *)

Inductive store_op : Type :=
| OpSync (alerts : list Alert) (resolveMissing : bool) (now : Time)
| OpMarkEmails (alertIDs : list string) (sentAt : Time)
| OpMarkPushes (alertIDs : list string) (sentAt : Time)
| OpMarkTelegrams (destinationID : Z) (alertIDs : list string) (sentAt : Time)
| OpMarkResolutionEmails (alertIDs : list string) (sentAt : Time)
| OpMarkResolutionPushes (alertIDs : list string) (sentAt : Time)
| OpMarkResolutionTelegrams (destinationID : Z) (alertIDs : list string) (sentAt : Time)
| OpInsertEvent (now : Time) (entry : AlertStateEvent)
| OpSuppress (alertID : string) (until : Time) (reason : string)
| OpUnsuppress (alertID : string)
| OpMaintain (serverType : string) (serverID : Z) (until : Time) (reason : string)
| OpUnmaintain (serverType : string) (serverID : Z)
| OpBatchDue (minutes : Z) (pending : bool) (now : Time)
| OpClearBatch
| OpPrune (cutoff : Time)
| OpPair (username : string) (active : bool) (next : Z) (now : Time) (userID : Z)
    (chatID chatTitle : string)
| OpUnpair (userID : Z)
| OpUnpairAll
| OpForgetBot
| OpRename (userID : Z) (username : string)
| OpActivate (userID : Z) (active : bool)
| OpDeleteUser (userID : Z)
| OpUnsuppressServer (serverType : string) (serverID : Z)
| OpReset.

Definition ignore {A} (p : prog Tables A) : prog Tables () := p ≫= λ _, mret ().

Definition op_prog `{!MapRange} (op : store_op) : prog Tables () :=
  match op with
  | OpSync alerts resolveMissing now => syncAlertStates alerts resolveMissing now
  | OpMarkEmails ids at_ => MarkAlertCriticalEmailsSent ids at_
  | OpMarkPushes ids at_ => MarkAlertCriticalPushesSent ids at_
  | OpMarkTelegrams d ids at_ => MarkAlertCriticalTelegramsSent d ids at_
  | OpMarkResolutionEmails ids at_ => MarkAlertResolutionEmailsSent ids at_
  | OpMarkResolutionPushes ids at_ => MarkAlertResolutionPushesSent ids at_
  | OpMarkResolutionTelegrams d ids at_ => MarkAlertResolutionTelegramsSent d ids at_
  | OpInsertEvent now entry => InsertAlertStateEvent now entry
  | OpSuppress k until reason => UpsertAlertSuppression k until reason
  | OpUnsuppress k => DeleteAlertSuppression k
  | OpMaintain ty id until reason => UpsertServerMaintenance ty id until reason
  | OpUnmaintain ty id => DeleteServerMaintenance ty id
  | OpBatchDue minutes pending now => ignore (AlertEmailBatchDue minutes pending now)
  | OpClearBatch => ClearAlertEmailBatch
  | OpPrune cutoff => ignore (DeleteOldAlertHistory cutoff)
  | OpPair username active next now userID chatID chatTitle =>
      ignore (UpsertTelegramDestination username active next now userID chatID chatTitle)
  | OpUnpair userID => DeleteTelegramDestinationForUser userID
  | OpUnpairAll => DeleteAllTelegramDestinations
  | OpForgetBot => DeleteTelegramConfig
  | OpRename userID username => exec_sql (rename_account userID username)
  | OpActivate userID active => exec_sql (activate_account userID active)
  | OpDeleteUser userID => exec_sql (delete_account userID)
  | OpUnsuppressServer ty id => deleteAlertSuppressionsForServer ty id
  | OpReset => ResetAllData_alerts
  end.

(** One operation, under any driver faults. *)
Inductive store_step `{!MapRange} (t : Tables) : Tables → Prop :=
| store_step_intro op io : store_step t (exec (op_prog op) io t).1.2.

Record ledger_ok (t : Tables) : Prop := {
  (** The foreign keys of [telegram_alert_deliveries]. *)
  ledger_fk k d x : deliveries t !! (k, d) = Some x →
    is_Some (states t !! k) ∧ existsb (λ dest, tgd_ID dest =? d) (destinations t) = true;
  (** A resolution is pending only for an alert that is not present. *)
  ledger_pending k r : states t !! k = Some r → st_IsPresent r = true →
    st_EmailPending r = false ∧ st_PushPending r = false;
  (** Only a present alert counts as pushed. *)
  ledger_push k r : states t !! k = Some r → st_IsPresent r = false →
    st_LastPush r = None;
  (** The unique columns of [telegram_destinations]. *)
  ledger_ids : NoDup (tgd_ID <$> destinations t);
  ledger_users : NoDup (tgd_UserID <$> destinations t);
  ledger_chats : NoDup (tgd_ChatID <$> destinations t)
}.

(** *** Every statement keeps the ledger *)

Lemma ledger_same_tables t t' :
  states t' = states t → deliveries t' = deliveries t →
  destinations t' = destinations t → ledger_ok t → ledger_ok t'.
Proof. intros Hs Hd Hn []. split; rewrite ?Hs, ?Hd, ?Hn; eauto. Qed.

(** A change of rows that keeps the rows apart. *)
Lemma ledger_states f t :
  (∀ k, is_Some (states t !! k) → is_Some (f (states t) !! k)) →
  (∀ k r, f (states t) !! k = Some r →
    (st_IsPresent r = true → st_EmailPending r = false ∧ st_PushPending r = false) ∧
    (st_IsPresent r = false → st_LastPush r = None)) →
  ledger_ok t → ledger_ok (set_states f t).
Proof.
  intros Hsub Hrow [F P Q]. split; simpl; try done.
  - intros k d x Hx. destruct (F k d x Hx). auto.
  - intros k r Hr. apply (Hrow k r Hr).
  - intros k r Hr. apply (Hrow k r Hr).
Qed.

Lemma ledger_update_where cond f t :
  (∀ k r, states t !! k = Some r → cond k r = true →
    (st_IsPresent (f r) = true →
      st_EmailPending (f r) = false ∧ st_PushPending (f r) = false) ∧
    (st_IsPresent (f r) = false → st_LastPush (f r) = None)) →
  ledger_ok t → ledger_ok (set_states (update_where cond f) t).
Proof.
  intros Hf Hok. apply ledger_states; [|intros k r'|done].
  - intros k. apply is_Some_update_where.
  - rewrite lookup_update_where. intros (r & Hr & ->)%fmap_Some.
    destruct (cond k r) eqn:Hc; [by apply (Hf k)|].
    split; [by apply (ledger_pending t Hok k)|by apply (ledger_push t Hok k)].
Qed.

Lemma ledger_push_event now e t : ledger_ok t → ledger_ok (push_event now e t).
Proof. by apply ledger_same_tables. Qed.

Lemma ledger_deliveries f t :
  (∀ k d x, f (deliveries t) !! (k, d) = Some x →
    is_Some (states t !! k) ∧
    existsb (λ dest, tgd_ID dest =? d) (destinations t) = true) →
  ledger_ok t → ledger_ok (set_deliveries f t).
Proof. intros Hf []. by split. Qed.

Lemma ledger_delete_deliveries cond t :
  ledger_ok t → ledger_ok (set_deliveries (delete_where cond) t).
Proof.
  intros Hok. apply ledger_deliveries; [|done]. intros k d x.
  rewrite lookup_delete_where. intros (y & Hy & _)%bind_Some.
  by apply (ledger_fk t Hok k d y).
Qed.

Lemma ledger_delete_states cond t : ledger_ok t → ledger_ok (delete_states cond t).
Proof.
  intros [F P Q]. split; simpl; try done.
  - intros k d x. rewrite !lookup_delete_where. intros (y & Hy & Hx)%bind_Some.
    simpl in Hx. destruct (F k d y Hy) as [[r Hr] Hd].
    rewrite Hr in Hx. rewrite Hr. simpl. destruct (cond k r); [done|eauto].
  - intros k r. rewrite lookup_delete_where. intros (y & Hy & Hx)%bind_Some.
    destruct (cond k y); [done|]. injection Hx as <-. eauto.
  - intros k r. rewrite lookup_delete_where. intros (y & Hy & Hx)%bind_Some.
    destruct (cond k y); [done|]. injection Hx as <-. eauto.
Qed.

Lemma existsb_id l d : existsb (λ x, tgd_ID x =? d) l = true ↔ d ∈ tgd_ID <$> l.
Proof.
  rewrite existsb_exists, list_elem_of_fmap. setoid_rewrite list_elem_of_In. setoid_rewrite Z.eqb_eq.
  naive_solver.
Qed.

(** Destinations that keep their numbers. *)
Lemma ledger_destinations f t :
  (∀ d, d ∈ tgd_ID <$> destinations t → d ∈ tgd_ID <$> f (destinations t)) →
  NoDup (tgd_ID <$> f (destinations t)) → NoDup (tgd_UserID <$> f (destinations t)) →
  NoDup (tgd_ChatID <$> f (destinations t)) → ledger_ok t → ledger_ok (set_destinations f t).
Proof.
  intros Hsub Hi Hu Hc [F P Q]. split; try done. simpl. intros k d x Hx.
  destruct (F k d x Hx) as [? Hd]. split; [done|]. by apply existsb_id, Hsub, existsb_id.
Qed.

Lemma ledger_delete_destinations cond t : ledger_ok t → ledger_ok (delete_destinations cond t).
Proof.
  intros [F P Q I U C].
  assert (∀ {B} (g : TelegramDestination → B), NoDup (g <$> destinations t) →
    NoDup (g <$> List.filter (λ d, negb (cond d)) (destinations t))) as Hsub.
  { intros B g Hn. eapply sublist_NoDup; [exact Hn|]. apply sublist_fmap, filter_bool_sublist. }
  split; simpl; [|done|done|by apply Hsub..].
  intros k d x. rewrite lookup_delete_where. intros (y & Hy & Hx)%bind_Some. simpl in Hx.
  destruct (existsb _ _) eqn:He in Hx; [done|]. destruct (F k d y Hy) as [? Hd]. split; [done|].
  rewrite existsb_id, list_elem_of_fmap in Hd. destruct Hd as (z & -> & Hz).
  rewrite existsb_false_iff in He. specialize (He z Hz). simpl in He.
  rewrite Z.eqb_refl in He. simpl in He.
  apply existsb_id, list_elem_of_fmap. exists z. split; [done|].
  apply elem_of_filter_bool. by rewrite He.
Qed.

Lemma insert_named_perm d l : insert_named d l ≡ₚ d :: l.
Proof.
  induction l as [|x l IH]; [done|]. simpl. destruct (String.ltb _ _); [done|].
  rewrite IH. constructor.
Qed.

Lemma ledger_mapped (g : TelegramDestination → TelegramDestination) f t :
  (∀ l, f l ≡ₚ g <$> l) →
  (∀ d, tgd_ID (g d) = tgd_ID d ∧ tgd_UserID (g d) = tgd_UserID d) →
  NoDup (tgd_ChatID <$> (g <$> destinations t)) →
  ledger_ok t → ledger_ok (set_destinations f t).
Proof.
  intros Hf Hg Hc Hok.
  assert (∀ l : list TelegramDestination, tgd_ID <$> (g <$> l) = tgd_ID <$> l ∧ tgd_UserID <$> (g <$> l) = tgd_UserID <$> l) as Hl.
  { intros l. rewrite <-!list_fmap_compose. split; apply list_fmap_ext; intros; apply Hg. }
  destruct (Hl (destinations t)) as [Hi Hu].
  apply ledger_destinations; [intros d; by rewrite Hf, Hi| | | |done]; rewrite Hf, ?Hi, ?Hu;
    [apply Hok|apply Hok|done].
Qed.

Lemma chats_kept (h : TelegramDestination → TelegramDestination) (l : list TelegramDestination) :
  (∀ d, tgd_ChatID (h d) = tgd_ChatID d) → tgd_ChatID <$> (h <$> l) = tgd_ChatID <$> l.
Proof. intros Hh. rewrite <-list_fmap_compose. apply list_fmap_ext. intros i x _. apply Hh. Qed.

Lemma ledger_renamed userID username t : ledger_ok t → ledger_ok (rename_account userID username t).
Proof.
  intros Hok. unfold rename_account. cbv zeta.
  set (g := λ d, if owned_by userID d then with_account username (tgd_UserIsActive d) d else d).
  apply (ledger_mapped g); [| | |exact Hok].
  - intros l. induction l as [|d l IH]; [done|]. simpl. by rewrite insert_named_perm, IH.
  - intros d. unfold g. by case_match.
  - rewrite chats_kept; [apply Hok|]. intros d. unfold g. by case_match.
Qed.

Lemma preserves_insertAlertEvent now e : preserves ledger_ok (insertAlertEvent now e).
Proof.
  apply preserves_wrap_err, preserves_exec_sql. intros t. apply ledger_push_event.
Qed.

Lemma preserves_insertAlertState a now : preserves ledger_ok (insertAlertState a now).
Proof.
  apply preserves_stmt. intros t [] t' Hok Hf.
  destruct (states t !! al_ID a) eqn:Hk; [done|]. injection Hf as <-.
  apply ledger_states; [| |done].
  - intros k Hs. destruct (decide (k = al_ID a)) as [->|].
    + rewrite lookup_insert_eq. eauto.
    + by rewrite lookup_insert_ne.
  - intros k r. destruct (decide (k = al_ID a)) as [->|].
    + rewrite lookup_insert_eq. by intros [= <-].
    + rewrite lookup_insert_ne by done. intros Hr.
      split; [by apply (ledger_pending t Hok k)|by apply (ledger_push t Hok k)].
Qed.

Lemma preserves_mark cond email push emailPending pushPending now :
  (∀ k r, cond k r = true →
    (st_IsPresent r = true → emailPending (st_EmailPending r) = st_EmailPending r ∨
       emailPending (st_EmailPending r) = false) ∧
    (st_IsPresent r = true → pushPending (st_PushPending r) = st_PushPending r ∨
       pushPending (st_PushPending r) = false) ∧
    (st_IsPresent r = false → push (st_LastPush r) = st_LastPush r)) →
  preserves ledger_ok (exec_sql (set_states (update_where cond
    (mark_state email push emailPending pushPending now)))).
Proof.
  intros Hc. apply preserves_exec_sql. intros t Hok.
  apply ledger_update_where; [|done]. intros k r Hr Hk.
  destruct (Hc k r Hk) as (He & Hp & Hl). simpl. split.
  - intros Hpres. destruct (ledger_pending t Hok k r Hr Hpres).
    destruct (He Hpres), (Hp Hpres); split; congruence.
  - intros Habs. rewrite Hl by done. by apply (ledger_push t Hok k).
Qed.

Ltac ledger_mark :=
  case_match; [constructor|]; apply preserves_mark; intros ? ? ?; unfold keep;
  split_and!; auto; intros; simplify_eq; bool_to_prop; congruence.

(** A chat that is nobody else's. *)
Lemma relinked_chats userID chatID chatTitle now l :
  existsb (λ d, negb (owned_by userID d) && bool_decide (tgd_ChatID d = chatID)) l = false →
  NoDup (tgd_UserID <$> l) → NoDup (tgd_ChatID <$> l) →
  NoDup (tgd_ChatID <$> ((λ d, if owned_by userID d then relink chatID chatTitle now d else d) <$> l)).
Proof.
  intros Hfree Hu Hc. set (g := λ d, if owned_by userID d then relink chatID chatTitle now d else d).
  assert (∀ d, d ∈ l → tgd_ChatID (g d) = if owned_by userID d then chatID else tgd_ChatID d) as Hg
    by (intros d _; unfold g; by case_match).
  rewrite existsb_false_iff in Hfree. induction l as [|d l IH]; [constructor|].
  simpl in *. apply NoDup_cons in Hu as [Hnu Hu]. apply NoDup_cons in Hc as [Hnc Hc].
  constructor; [|apply IH; try done; intros x Hx; [by apply Hfree; right|by apply Hg; right]].
  rewrite Hg by by left. intros (y & Hy & (x & -> & Hx)%list_elem_of_fmap)%list_elem_of_fmap.
  rewrite Hg in Hy by by right. pose proof (Hfree x ltac:(by right)) as Hfx.
  pose proof (Hfree d ltac:(by left)) as Hfd. unfold owned_by in *.
  destruct (Z.eqb_spec (tgd_UserID d) userID) as [Hd|Hd], (Z.eqb_spec (tgd_UserID x) userID) as [Hxu|Hxu];
    simpl in Hfx, Hfd.
  - apply Hnu, list_elem_of_fmap. exists x. split; [congruence|done].
  - apply bool_decide_eq_false in Hfx. congruence.
  - apply bool_decide_eq_false in Hfd. congruence.
  - apply Hnc, list_elem_of_fmap. exists x. split; [congruence|done].
Qed.

Lemma preserves_pair username active next now userID chatID chatTitle :
  preserves ledger_ok (UpsertTelegramDestination username active next now userID chatID chatTitle).
Proof.
  apply preserves_bind; [|intros []; apply preserves_stmt; intros t z t' Hok Hf; case_match; by simplify_eq].
  apply preserves_stmt. intros t [] t' Hok Hf.
  destruct (existsb _ _) eqn:Hfree in Hf; [done|].
  destruct (existsb (owned_by userID) _) eqn:Hown in Hf.
  { injection Hf as <-. set (g := λ d, if owned_by userID d then relink chatID chatTitle now d else d).
    apply (ledger_mapped g); [done|intros d; unfold g; by case_match| |done].
    apply relinked_chats; [done|apply Hok|apply Hok]. }
  destruct (existsb _ _) eqn:Hid in Hf; [done|]. injection Hf as <-.
  assert (∀ {B} (h : TelegramDestination → B) d l, h <$> insert_named d l ≡ₚ h d :: (h <$> l)) as Hin
    by (intros B h d l; by rewrite insert_named_perm).
  apply ledger_destinations; rewrite ?Hin; try done.
  - intros d Hd. rewrite Hin. by right.
  - constructor; [|apply Hok]. intros Hx%existsb_id. simpl in Hx. congruence.
  - constructor; [|apply Hok]. intros (d & Hd & Hx)%list_elem_of_fmap.
    rewrite existsb_false_iff in Hown. specialize (Hown d Hx). unfold owned_by in Hown.
    simpl in Hd. rewrite Hd, Z.eqb_refl in Hown. done.
  - constructor; [|apply Hok]. intros (d & Hd & Hx)%list_elem_of_fmap.
    rewrite existsb_false_iff in Hfree, Hown. specialize (Hown d Hx). specialize (Hfree d Hx).
    rewrite Hown in Hfree. simpl in Hd, Hfree. by rewrite bool_decide_true in Hfree.
Qed.

Lemma preserves_op `{!MapRange} op : preserves ledger_ok (op_prog op).
Proof.
  destruct op; simpl.
  - unfold syncAlertStates. apply preserves_tx, preserves_bind; [apply preserves_query|].
    intros existing. apply preserves_bind; [|intros []]; apply preserves_for_each.
    + intros a. unfold sync_alert. destruct (existing !! al_ID a) as [s|].
      * apply preserves_bind.
        { case_match; [constructor|]. apply preserves_bind; [apply preserves_insertAlertEvent|].
          intros []. apply preserves_exec_sql, ledger_delete_deliveries. }
        intros []. apply preserves_exec_sql. intros t.
        by apply ledger_update_where.
      * apply preserves_bind; [apply preserves_insertAlertState|].
        intros []. apply preserves_insertAlertEvent.
    + intros [k s]. unfold sync_missing.
      case_match; [constructor|]. case_match; [constructor|].
      apply preserves_bind; [|intros []; apply preserves_insertAlertEvent].
      apply preserves_exec_sql. intros t. by apply ledger_update_where.
  - unfold MarkAlertCriticalEmailsSent. ledger_mark.
  - unfold MarkAlertCriticalPushesSent. ledger_mark.
  - unfold MarkAlertCriticalTelegramsSent. case_match; [constructor|].
    apply preserves_tx, preserves_for_each. intros k. apply preserves_stmt.
    intros t [] t' Hok Hf. destruct (_ && _) eqn:Hb; [|done]. injection Hf as <-.
    bool_to_prop. apply ledger_deliveries; [|done]. intros k' d x.
    destruct (decide ((k', d) = (k, destinationID))) as [[= -> ->]|Hne]; [done|].
    rewrite lookup_insert_ne by done. by apply (ledger_fk t Hok).
  - unfold MarkAlertResolutionEmailsSent. ledger_mark.
  - unfold MarkAlertResolutionPushesSent. ledger_mark.
  - unfold MarkAlertResolutionTelegramsSent. case_match; [constructor|].
    apply preserves_exec_sql. intros t Hok. apply ledger_deliveries; [|done].
    intros k d x. rewrite lookup_update_where. intros (y & Hy & _)%fmap_Some.
    by apply (ledger_fk t Hok k d y).
  - apply preserves_exec_sql. intros t. apply ledger_push_event.
  - apply preserves_exec_sql. intros t. by apply ledger_same_tables.
  - apply preserves_exec_sql. intros t. by apply ledger_same_tables.
  - apply preserves_exec_sql. intros t. by apply ledger_same_tables.
  - apply preserves_exec_sql. intros t. by apply ledger_same_tables.
  - unfold ignore, AlertEmailBatchDue. apply preserves_bind; [|constructor].
    case_match; (apply preserves_bind; [apply preserves_exec_sql|intros []]);
      [intros t; by apply ledger_same_tables|constructor| |].
    + intros t Hok. case_match; [done|]. by apply (ledger_same_tables t).
    + apply preserves_bind; [|constructor]. apply preserves_stmt.
      intros t z t' Hok Hf. case_match; [|done]. by injection Hf as _ <-.
  - apply preserves_exec_sql. intros t. by apply ledger_same_tables.
  - unfold ignore, DeleteOldAlertHistory. apply preserves_bind; [|constructor].
    apply preserves_tx, preserves_bind; [|intros n; apply preserves_bind; [|constructor]];
      apply preserves_wrap_err, preserves_stmt; intros t z t' Hok [= _ <-].
    + by apply (ledger_same_tables t).
    + by apply ledger_delete_states.
  - unfold ignore. apply preserves_bind; [apply preserves_pair|constructor].
  - apply preserves_exec_sql. intros t. apply ledger_delete_destinations.
  - apply preserves_exec_sql. intros t. apply ledger_delete_destinations.
  - apply preserves_tx. repeat (apply preserves_bind; [|intros []]); apply preserves_exec_sql; intros t; [done| |apply ledger_delete_destinations|done].
    intros Hok. by apply ledger_deliveries.
  - apply preserves_exec_sql. intros t. apply ledger_renamed.
  - apply preserves_exec_sql. intros t Hok. unfold activate_account.
    set (g := λ d, if owned_by userID d then with_account (tgd_Username d) active d else d). apply (ledger_mapped g); [done| | |exact Hok].
    + intros d. unfold g. by case_match.
    + rewrite chats_kept; [apply Hok|]. intros d. unfold g. by case_match.
  - apply preserves_exec_sql. intros t. apply ledger_delete_destinations.
  - apply preserves_wrap_err, preserves_exec_sql. intros t. by apply ledger_same_tables.
  - apply preserves_tx. repeat (apply preserves_bind; [apply preserves_wrap_err, preserves_exec_sql|intros []]);
      [intros t Hok; by apply (ledger_same_tables t)|intros t; apply ledger_delete_states
      |intros t Hok; by apply (ledger_same_tables t)..| | |constructor].
    + intros t Hok. by apply ledger_deliveries.
    + intros t. apply ledger_delete_destinations.
Qed.

(** ** Properties *)

(** C19: an evaluation with distinct identifiers always succeeds on a working
    database; every state becomes the prescribed one, one event is logged for
    each alert that appears and, after a complete evaluation, for each that
    vanishes, and only the deliveries of returning alerts are forgotten. *)
Theorem syncAlertStates_spec `{!MapRange} (now : Time) (resolveMissing : bool)
    (alerts : list Alert) (t : Tables) (Hnd : NoDup (al_ID <$> alerts)) :
  ∃ t', run (syncAlertStates alerts resolveMissing now) t = (Ok (), t') ∧
    synced now resolveMissing alerts t t'.
Proof. by apply run_syncAlertStates. Qed.

(** after a complete evaluation the present alerts are exactly those of the
    evaluation; after a partial one, those and the ones present before: a failed
    evaluator never makes an alert look resolved. *)
Theorem sync_present `{!MapRange} (now : Time) (alerts : list Alert) (t t' : Tables)
    (Hnd : NoDup (al_ID <$> alerts)) :
  (run (SyncAlertStates alerts now) t = (Ok (), t') →
   ∀ k, present t' k = true ↔ k ∈ al_ID <$> alerts) ∧
  (run (SyncPartialAlertStates alerts now) t = (Ok (), t') →
   ∀ k, present t' k = true ↔ k ∈ al_ID <$> alerts ∨ present t k = true).
Proof.
  unfold SyncAlertStates, SyncPartialAlertStates. split; intros Hrun k.
  - destruct (run_syncAlertStates now true alerts t Hnd) as (u & Hu & Hs).
    rewrite Hu in Hrun. injection Hrun as <-.
    rewrite (present_synced _ _ _ _ _ _ Hs). unfold in_ids.
    by rewrite orb_false_r, bool_decide_eq_true.
  - destruct (run_syncAlertStates now false alerts t Hnd) as (u & Hu & Hs).
    rewrite Hu in Hrun. injection Hrun as <-.
    rewrite (present_synced _ _ _ _ _ _ Hs). unfold in_ids.
    by rewrite orb_true_iff, bool_decide_eq_true.
Qed.

(** a synchronisation is atomic under every failure of the database driver:
    it either reports success and did its whole work, or reports an error and
    left every table as it was. *)
Theorem sync_atomic `{!MapRange} (now : Time) (resolveMissing : bool)
    (alerts : list Alert) (io : list (option error)) (t : Tables) :
  let '(r, t', _) := exec (syncAlertStates alerts resolveMissing now) io t in
  match r with
  | Ok _ => run (syncAlertStates alerts resolveMissing now) t = (Ok (), t')
  | Err _ => t' = t
  end.
Proof.
  destruct (exec _ io t) as [[[[]|e] t'] io'] eqn:Hx.
  - eapply strict_Ok; [apply strict_syncAlertStates|exact Hx].
  - by eapply exec_tx_atomic.
Qed.

(** an evaluation that holds a new identifier twice is refused as a whole: the
    second insertion violates the primary key and nothing is recorded. *)
Theorem sync_rejects_duplicate_id `{!MapRange} (now : Time) (resolveMissing : bool)
    (l1 l2 l3 : list Alert) (a b : Alert) (t : Tables)
    (Hab : al_ID a = al_ID b) (Hnew : states t !! al_ID a = None) :
  run (syncAlertStates (l1 ++ a :: l2 ++ b :: l3) resolveMissing now) t =
  (Err err_unique, t).
Proof. by apply sync_duplicate. Qed.

(** repeating an evaluation logs nothing and forgets no delivery: events
    record transitions, not evaluations. *)
Theorem sync_repeat_silent `{!MapRange} (now1 now2 : Time) (r1 r2 : bool)
    (alerts : list Alert) (t t1 t2 : Tables) (Hnd : NoDup (al_ID <$> alerts))
    (H1 : run (SyncAlertStates alerts now1) t = (Ok (), t1))
    (H2 : run (syncAlertStates alerts r2 now2) t1 = (Ok (), t2)) :
  events t2 = events t1 ∧ deliveries t2 = deliveries t1.
Proof.
  destruct (run_syncAlertStates now1 true alerts t Hnd) as (u1 & Hu1 & Hs1).
  unfold SyncAlertStates in H1. rewrite Hu1 in H1. injection H1 as <-.
  destruct (run_syncAlertStates now2 r2 alerts u1 Hnd) as (u2 & Hu2 & Hs2).
  rewrite Hu2 in H2. injection H2 as <-.
  assert (∀ k, present u1 k = in_ids (al_ID <$> alerts) k) as Hp.
  { intros k. by rewrite (present_synced _ _ _ _ _ _ Hs1), orb_false_r. }
  split.
  - destruct (synced_events _ _ _ _ _ Hs2) as (gone & (new & -> & Hkeys) & Hgone).
    assert (appeared u1 alerts = []) as Happ.
    { unfold appeared. apply filter_bool_empty. intros k Hk. rewrite Hp. unfold in_ids.
      by rewrite bool_decide_true. }
    assert (gone = []) as ->.
    { destruct r2; [|by apply Permutation_nil_r in Hgone].
      assert (vanished u1 alerts = []) as Hv; [|rewrite Hv in Hgone; by apply Permutation_nil_r in Hgone].
      apply filter_bool_empty. intros k _. rewrite Hp. by destruct (in_ids _ k). }
    rewrite Happ in Hkeys. apply fmap_nil_inv in Hkeys as ->. by rewrite app_nil_r.
  - apply map_eq. intros [k d]. rewrite (synced_deliveries _ _ _ _ _ Hs2).
    assert (returned u1 alerts k = false) as ->; [|done].
    apply existsb_false_iff. intros a Ha.
    destruct (decide (al_ID a = k)) as [<-|]; [|by rewrite bool_decide_false].
    specialize (Hp (al_ID a)). unfold present, in_ids in Hp.
    rewrite (bool_decide_true (al_ID a ∈ _)) in Hp by (apply list_elem_of_fmap; eauto).
    destruct (states u1 !! al_ID a) as [r|]; [|done].
    by rewrite Hp, andb_false_r.
Qed.

(** C20: the notification ledger is consistent in every state the store can reach,
    whatever operations run and whichever statements fail, those on the accounts
    and the Telegram pairings included: a Telegram delivery always refers to an
    existing alert and destination, a resolution notice is pending only for an
    alert that is not present, only a present alert counts as pushed, and an
    account and a chat have at most one destination. *)
Theorem ledger_invariant `{!MapRange} (t t' : Tables)
    (Hstart : ledger_ok t) (Hsteps : rtc store_step t t') : ledger_ok t'.
Proof.
  induction Hsteps as [t|t u t' Hstep _ IH]; [done|]. apply IH. clear IH.
  destruct Hstep as [op io]. by apply exec_preserves; [apply preserves_op|].
Qed.

Lemma length_filter_bool_delete (cond : string → AlertState → bool) m :
  Z.of_nat (length (List.filter (λ kr, cond kr.1 kr.2) (map_to_list m))) +
  Z.of_nat (size (delete_where cond m)) = Z.of_nat (size m).
Proof.
  assert (map_to_list (delete_where cond m) ≡ₚ
    List.filter (λ kr, negb (cond kr.1 kr.2)) (map_to_list m)) as Hp.
  { apply NoDup_Permutation; [apply NoDup_map_to_list| |].
    - apply NoDup_filter_bool, NoDup_map_to_list.
    - intros [k r]. rewrite elem_of_map_to_list, elem_of_filter_bool,
        elem_of_map_to_list, lookup_delete_where. simpl.
      destruct (m !! k) as [r'|]; simpl; [|naive_solver].
      split; [destruct (cond k r') eqn:Hc; [done|]; intros [= <-]; by rewrite Hc|].
      intros [[= <-] Hc]. by destruct (cond k r'). }
  rewrite <-(length_map_to_list (delete_where cond m)), <-(length_map_to_list m), Hp.
  apply length_filter_bool_split.
Qed.

Lemma prunable_false t cutoff k r :
  prunable t cutoff k r = false ↔
  st_IsPresent r = true ∨ st_EmailPending r = true ∨ st_PushPending r = true ∨
  cutoff ≤ st_Updated r ∨ telegram_waiting t k = true.
Proof.
  unfold prunable. rewrite !andb_false_iff, !negb_false_iff, Z.ltb_ge. tauto.
Qed.

(** pruning removes exactly the events older than the cutoff and the states
    that are absent, not updated since, and owe no resolution notice on email,
    push or Telegram; a present or pending alert is never lost, and the reported
    counts are the numbers of rows removed. *)
Theorem DeleteOldAlertHistory_spec (cutoff : Time) (t : Tables) :
  ∃ nevents nstates t',
    run (DeleteOldAlertHistory cutoff) t = (Ok (nevents, nstates), t') ∧
    (∀ e, e ∈ events t' ↔ e ∈ events t ∧ CurrentTimestamp cutoff ≤ ev_CreatedAt e) ∧
    (∀ k r, states t' !! k = Some r ↔ states t !! k = Some r ∧
      (st_IsPresent r = true ∨ st_EmailPending r = true ∨ st_PushPending r = true ∨
       cutoff ≤ st_Updated r ∨ telegram_waiting t k = true)) ∧
    nevents + Z.of_nat (length (events t')) = Z.of_nat (length (events t)) ∧
    nstates + Z.of_nat (size (states t')) = Z.of_nat (size (states t)).
Proof.
  unfold DeleteOldAlertHistory. autorewrite with probak_run. cbn [fst snd].
  set (t1 := set_events _ t). eexists _, _, _. split; [done|].
  assert (∀ k r, prunable t1 cutoff k r = prunable t cutoff k r) as Hpr by done.
  split_and!; simpl.
  - intros e. rewrite elem_of_filter_bool, negb_true_iff, Z.ltb_ge. done.
  - intros k r. rewrite lookup_delete_where. subst t1. simpl.
    destruct (states t !! k) as [r'|]; simpl; [|naive_solver].
    rewrite Hpr. pose proof (prunable_false t cutoff k r') as Hf.
    destruct (prunable t cutoff k r').
    + split; [done|]. intros [[= <-] Hor]. by apply Hf in Hor.
    + split; [|by intros [? _]]. intros [= <-]. split; [done|]. by apply Hf.
  - apply (length_filter_bool_split (λ e, ev_CreatedAt e <? CurrentTimestamp cutoff)).
  - apply (length_filter_bool_delete (prunable t1 cutoff) (states t)).
Qed.

(** the batch window opens at the first pending update and is kept while
    updates stay pending; the digest is due once the configured minutes have
    passed since then, at once when batching is off, and never when nothing is
    pending, which also closes the window. *)
Theorem AlertEmailBatchDue_spec (minutes now : Z) (pending : bool) (t : Tables)
    (Hminutes : 0 ≤ minutes ≤ 15) :
  let since := default (Unix now) (batch t) in
  run (AlertEmailBatchDue minutes pending now) t =
  if pending && negb (minutes =? 0)
  then (Ok (bool_decide (UnixTime since + minutes * Minute ≤ now)),
        set_batch (Some since) t)
  else (Ok pending, set_batch None t).
Proof.
  cbv zeta. unfold AlertEmailBatchDue.
  destruct pending; cbn [negb orb andb]; [|by autorewrite with probak_run].
  destruct (Z.eqb_spec minutes 0) as [->|Hne]; cbn [negb];
    [by autorewrite with probak_run|].
  rewrite wrap64_id by (unfold in_int64, MinInt64, MaxInt64, Minute, Second; lia).
  assert (∀ s, negb (Before now (AddDur (UnixTime s) (minutes * Minute))) =
    bool_decide (UnixTime s + minutes * Minute ≤ now)) as Hb.
  { intros s. unfold Before, AddDur. case_bool_decide; destruct (_ <? _) eqn:?;
      bool_to_prop; simpl; (done || lia). }
  rewrite run_bind, run_exec_sql, run_bind, run_stmt.
  destruct (batch t) as [s|] eqn:Ht.
  - rewrite Ht. unfold mret, prog_ret. rewrite run_ret, Hb. cbn [default].
    f_equal. unfold set_batch. destruct t; simpl in *; by subst.
  - cbn [batch set_batch]. unfold mret, prog_ret. by rewrite run_ret, Hb.
Qed.

(** persisting an evaluation and reading it back gives the same alerts, up to
    their order and less the value and threshold columns the table does not
    have: the type is recovered from the identifier. *)
Theorem ListPresentAlerts_roundtrip `{!MapRange, !SqlOrder} (now : Time)
    (alerts : list Alert) (t t' : Tables) (Hnd : NoDup (al_ID <$> alerts))
    (Htype : ∀ a, a ∈ alerts → type_of_id (al_ID a) = al_Type a)
    (Hsync : run (SyncAlertStates alerts now) t = (Ok (), t')) :
  ∃ read, run ListPresentAlerts_prog t' = (Ok read, t') ∧
    read ≡ₚ (λ a, state_alert (al_Type a) now (al_ID a, new_state a now)) <$> alerts.
Proof.
  destruct (run_syncAlertStates now true alerts t Hnd) as (u & Hu & Hs).
  unfold SyncAlertStates in Hsync. rewrite Hu in Hsync. injection Hsync as <-.
  eexists. split; [apply run_query|]. unfold select_states.
  rewrite order_by_perm. apply NoDup_Permutation.
  - apply (NoDup_fmap_1 al_ID). rewrite <-list_fmap_compose.
    assert (al_ID ∘ (λ row : string * AlertState,
        state_alert (type_of_id row.1) (st_LastSeen row.2) row) <$>
      List.filter (λ row, st_IsPresent row.2) (map_to_list (states u)) =
      (List.filter (λ row, st_IsPresent row.2) (map_to_list (states u))).*1) as ->
      by (by apply list_fmap_ext; intros ? []).
    eapply sublist_NoDup; [apply (NoDup_fst_map_to_list (states u))|].
    apply sublist_fmap, filter_bool_sublist.
  - apply (NoDup_fmap_1 al_ID). by rewrite <-list_fmap_compose.
  - intros a. rewrite !list_elem_of_fmap. split.
    + intros ([k r] & -> & [Hkr Hpr]%elem_of_filter_bool). simpl in *.
      apply elem_of_map_to_list in Hkr.
      rewrite (synced_states _ _ _ _ _ Hs) in Hkr.
      destruct (alert_at alerts k) as [b|] eqn:Hb.
      * apply find_some in Hb as [Hin Hk]. apply list_elem_of_In in Hin.
        bool_to_prop. subst k. exists b. split; [|done].
        rewrite Htype by done. by destruct (states t !! al_ID b); simplify_eq/=.
      * exfalso. destruct (states t !! k) as [r0|]; simplify_eq/=.
        destruct (st_IsPresent r0) eqn:Hr0; simplify_eq/=. congruence.
    + intros (b & -> & Hb). exists (al_ID b, match states t !! al_ID b with
        | Some r => seen_state b now r | None => new_state b now end).
      assert (alert_at alerts (al_ID b) = Some b) as Hat by by apply alert_at_NoDup.
      split.
      * simpl. rewrite Htype by done. by destruct (states t !! al_ID b).
      * apply elem_of_filter_bool. rewrite elem_of_map_to_list,
          (synced_states _ _ _ _ _ Hs), Hat. by destruct (states t !! al_ID b).
Qed.

Lemma elem_of_list_pending `{!SqlOrder} pending t k :
  (∃ read, run (list_pending pending) t = (Ok read, t) ∧ k ∈ al_ID <$> read) ↔
  ∃ r, states t !! k = Some r ∧ pending r = true ∧ st_IsPresent r = false.
Proof.
  unfold list_pending. rewrite run_query. split.
  - intros (read & [= <-] & Hk). rewrite <-list_fmap_compose in Hk.
    apply list_elem_of_fmap in Hk as ([k' r] & -> & Hin). unfold select_states in Hin.
    rewrite order_by_perm in Hin. apply elem_of_filter_bool in Hin as [Hin Hb].
    apply elem_of_map_to_list in Hin. simpl in *. bool_to_prop. eauto.
  - intros (r & Hr & Hp & Ha). eexists. split; [done|].
    rewrite <-list_fmap_compose. apply list_elem_of_fmap. exists (k, r).
    split; [done|]. unfold select_states. rewrite order_by_perm.
    apply elem_of_filter_bool. simpl. rewrite Hp, Ha. split; [|done].
    by apply elem_of_map_to_list.
Qed.

(** when a present alert vanishes from a complete evaluation, a resolution
    email is owed exactly if the alert is critical and had been emailed; marking
    the notice as sent settles it. *)
Theorem resolution_email_owed `{!MapRange, !SqlOrder} (now sentAt : Time)
    (alerts : list Alert) (t t1 t2 : Tables) (k : string) (r : AlertState)
    (ids : list string) (Hledger : ledger_ok t) (Hnd : NoDup (al_ID <$> alerts))
    (Hr : states t !! k = Some r) (Hpresent : st_IsPresent r = true)
    (Hgone : k ∉ al_ID <$> alerts)
    (Hsync : run (SyncAlertStates alerts now) t = (Ok (), t1)) (Hids : k ∈ ids)
    (Hmark : run (MarkAlertResolutionEmailsSent ids sentAt) t1 = (Ok (), t2)) :
  ((∃ read, run ListPendingAlertResolutionEmails t1 = (Ok read, t1) ∧
      k ∈ al_ID <$> read) ↔
    st_LastEmail r ≠ None ∧ st_Severity r = AlertSeverityCritical) ∧
  ¬ ∃ read, run ListPendingAlertResolutionEmails t2 = (Ok read, t2) ∧
      k ∈ al_ID <$> read.
Proof.
  destruct (run_syncAlertStates now true alerts t Hnd) as (u & Hu & Hs).
  unfold SyncAlertStates in Hsync. rewrite Hu in Hsync. injection Hsync as <-.
  destruct (ledger_pending t Hledger k r Hr Hpresent) as [Hnot _].
  assert (states u !! k = Some (resolved_state now r)) as Hk.
  { rewrite (synced_states _ _ _ _ _ Hs), Hr.
    rewrite (proj2 (alert_at_None alerts k)) by (by apply bool_decide_eq_false).
    simpl. by rewrite Hpresent. }
  unfold ListPendingAlertResolutionEmails. rewrite !elem_of_list_pending. split.
  - rewrite Hk. split.
    + intros (r' & [= <-] & Hp & _). simpl in Hp. unfold pending_after in Hp.
      rewrite Hnot in Hp. destruct (_ && _) eqn:Hb; [|done]. by bool_to_prop.
    + intros [He Hc]. eexists. split; [done|]. simpl. unfold pending_after.
      by rewrite !bool_decide_true.
  - unfold MarkAlertResolutionEmailsSent in Hmark.
    destruct ids as [|i ids]; [by apply not_elem_of_nil in Hids|]. cbn [is_nil] in Hmark.
    rewrite run_exec_sql in Hmark. injection Hmark as <-. intros (r' & Hr' & Hp & _).
    simpl in Hr'. rewrite lookup_update_where, Hk in Hr'. simpl in Hr'.
    unfold in_ids in Hr'. rewrite bool_decide_true in Hr' by done.
    by injection Hr' as <-.
Qed.

(** ** Examples *)

Definition ex_critical : Alert :=
  Build_Alert "swap:pve:7" "pve" 7 "pve" "" 0 "" "swap" "critical" "Swap" "" "" "" 0.

Definition empty_tables : Tables := {|
  states := ∅; events := []; next_event := 1; deliveries := ∅; destinations := [];
  suppressions := ∅; maintenances := ∅; batch := None |}.

Definition ex_synced : Tables := (run (SyncAlertStates [ex_critical] Second) empty_tables).2.
Definition ex_mailed : Tables :=
  (run (MarkAlertCriticalEmailsSent ["swap:pve:7"] Minute) ex_synced).2.

Lemma ex_NoDup : NoDup (al_ID <$> [ex_critical]).
Proof. apply NoDup_singleton. Qed.

Lemma empty_ledger : ledger_ok empty_tables.
Proof. split; try done; constructor. Qed.

(** An alert is sent to the paired account, which pairs another chat. *)
Definition ex_ops : list store_op :=
  [OpSync [ex_critical] true Second; OpPair "ana" true 1 Second 4 "100" "Ana";
   OpMarkTelegrams 1 ["swap:pve:7"] Minute; OpPair "ana" true 2 Minute 4 "200" "Ana"].

Definition ex_paired : Tables := fold_left (λ t op, (exec (op_prog op) [] t).1.2) ex_ops empty_tables.

(** an email recorded as sent after its alert was resolved counts for the
    alert's next appearance: the email mark, unlike the push mark, also applies
    to alerts that are not present, so the returning critical alert is taken as
    already emailed. *)
Theorem email_mark_outlives_resolution :
  let history mark :=
    _ ← SyncAlertStates [ex_critical] Second;
    _ ← SyncAlertStates [] (2 * Second);
    _ ← mark ["swap:pve:7"] (3 * Second);
    _ ← SyncAlertStates [ex_critical] (4 * Second);
    emails ← ListCriticalEmailSentAlertIDs ["swap:pve:7"];
    pushes ← ListCriticalPushSentAlertIDs ["swap:pve:7"];
    mret (elements emails, elements pushes) in
  (run (history MarkAlertCriticalEmailsSent) empty_tables).1 = Ok (["swap:pve:7"], []) ∧
  (run (history MarkAlertCriticalPushesSent) empty_tables).1 = Ok ([], []).
Proof. vm_compute. done. Qed.

Lemma syncAlertStates_spec_witness :
  NoDup (al_ID <$> [ex_critical]) ∧
  ∃ t', run (syncAlertStates [ex_critical] true Second) empty_tables = (Ok (), t') ∧
    synced Second true [ex_critical] empty_tables t'.
Proof.
  split; [apply ex_NoDup|]. apply (syncAlertStates_spec Second true _ empty_tables), ex_NoDup.
Defined.

Lemma sync_present_witness :
  run (SyncAlertStates [ex_critical] Second) empty_tables = (Ok (), ex_synced) ∧
  ∀ k, present ex_synced k = true ↔ k ∈ al_ID <$> [ex_critical].
Proof.
  split; [vm_compute; reflexivity|].
  apply (sync_present Second [ex_critical] empty_tables ex_synced ex_NoDup).
  vm_compute. reflexivity.
Defined.

Lemma sync_rejects_duplicate_id_witness :
  states empty_tables !! al_ID ex_critical = None ∧
  run (syncAlertStates [ex_critical; ex_critical] true Second) empty_tables =
    (Err err_unique, empty_tables).
Proof.
  split; [done|].
  by apply (sync_rejects_duplicate_id Second true [] [] [] ex_critical ex_critical).
Defined.

Lemma sync_repeat_silent_witness :
  ∃ t2, run (syncAlertStates [ex_critical] true Minute) ex_synced = (Ok (), t2) ∧
    events t2 = events ex_synced ∧ deliveries t2 = deliveries ex_synced.
Proof.
  exists (run (syncAlertStates [ex_critical] true Minute) ex_synced).2.
  split; [vm_compute; reflexivity|].
  apply (sync_repeat_silent Second Minute true true [ex_critical] empty_tables);
    [apply ex_NoDup|vm_compute; reflexivity..].
Defined.

Lemma ledger_invariant_witness :
  rtc store_step empty_tables ex_paired ∧ ledger_ok ex_paired ∧
  deliveries ex_paired !! ("swap:pve:7", 1) = Some (Build_Delivery (Some Minute) None) ∧
  (tgd_ChatID <$> destinations ex_paired) = ["200"].
Proof.
  assert (rtc store_step empty_tables ex_paired) as Hs.
  { unfold ex_paired, ex_ops. cbn [fold_left].
    do 4 (eapply rtc_l; [eapply (store_step_intro _ _ [])|]). apply rtc_refl. }
  split; [exact Hs|]. split; [|split; vm_compute; reflexivity].
  apply (ledger_invariant empty_tables); [apply empty_ledger|exact Hs].
Defined.

Lemma AlertEmailBatchDue_spec_witness :
  0 ≤ 5 ≤ 15 ∧
  run (AlertEmailBatchDue 5 true Minute) empty_tables =
    (Ok false, set_batch (Some 60) empty_tables).
Proof.
  split; [lia|].
  rewrite (AlertEmailBatchDue_spec 5 Minute true empty_tables ltac:(lia)).
  vm_compute. reflexivity.
Defined.

Lemma ListPresentAlerts_roundtrip_witness :
  ∃ read, run ListPresentAlerts_prog ex_synced = (Ok read, ex_synced) ∧
    read ≡ₚ (λ a, state_alert (al_Type a) Second (al_ID a, new_state a Second))
      <$> [ex_critical].
Proof.
  apply (ListPresentAlerts_roundtrip Second [ex_critical] empty_tables);
    [apply ex_NoDup| |vm_compute; reflexivity].
  intros a ->%list_elem_of_singleton. vm_compute. reflexivity.
Defined.

Lemma resolution_email_owed_witness :
  let t1 := (run (SyncAlertStates [] (2 * Minute)) ex_mailed).2 in
  ∃ read, run ListPendingAlertResolutionEmails t1 = (Ok read, t1) ∧
    "swap:pve:7" ∈ al_ID <$> read.
Proof.
  cbv zeta. eapply (resolution_email_owed (2 * Minute) (3 * Minute) [] ex_mailed
    _ _ "swap:pve:7" _ ["swap:pve:7"]);
    [|apply NoDup_nil_2|vm_compute; reflexivity|reflexivity|apply not_elem_of_nil
     |vm_compute; reflexivity|by left|vm_compute; reflexivity|].
  - apply (exec_preserves ledger_ok (op_prog (OpMarkEmails ["swap:pve:7"] Minute)) []);
      [apply preserves_op|].
    apply (exec_preserves ledger_ok (op_prog (OpSync [ex_critical] true Second)) []);
      [apply preserves_op|apply empty_ledger].
  - by vm_compute.
Defined.
