(* ===== verification/Channels.v ===== *)
(** * The notification channels: email, Web Push and Telegram

    [internal/service/pushsender.go], [telegramsender.go], the retry pause of
    [immediate_notifications.go], and the tables of [internal/store/push.go] and
    [telegram.go] they use.

    A [World] is the database together with what has left the process.  A
    delivery to a push service or Telegram is a statement: it either fails, and
    nothing was delivered, or leaves its message in the world.  A mail is two: the
    mail server takes the message, and the session is ended, which may fail when the
    message is on its way already ([Notify.sendSMTP]).
    The text of an email is not rendered: a [Mail] holds the alerts it lists. *)
From Stdlib Require Import Ascii.
From Stdlib Require String.
From S2P Require Import Prelude GoStrings GoUtf8 GoNum GoTime Domain StoreReads Sql AlertState.

(** ** The retry pause after an SMTP failure *)

Record smtpBackoff := { until : Time; delay : Duration }.

Definition smtpBackoffMin : Duration := Minute.
Definition smtpBackoffMax : Duration := 30 * Minute.

Definition active (b : smtpBackoff) (now : Time) : bool := Before now (until b).

Definition record (err : option error) (now : Time) (b : smtpBackoff) : smtpBackoff :=
  match err with
  | None => {| until := zeroTime; delay := 0 |}
  | Some _ =>
      let d := Z.min (Z.max (wrap64 (delay b * 2)) smtpBackoffMin) smtpBackoffMax in
      {| until := AddDur now d; delay := d |}
  end.

(** ** The world *)

Record Mail := {
  ml_Recipients : list string; ml_Subject : string;
  ml_Active : list Alert; ml_Resolved : list Alert }.

Record PushNotification := {
  pn_Title : string; pn_Body : string; pn_Tag : string; pn_Icon : string;
  pn_URL : string; pn_Severity : string }.

Record PushSubscription := {
  ps_ID : Z; ps_UserID : Z; ps_Endpoint : string; ps_P256DH : string;
  ps_Auth : string; ps_UserAgent : string; ps_CreatedAt : Time;
  ps_LastSeenAt : Time }.

Record PushConfig := { pc_PublicKey : string; pc_PrivateKey : string; pc_Subject : string }.

Record TelegramConfig := {
  tc_BotToken : string; tc_BotUsername : string; tc_IsEnabled : bool }.

Record TelegramDeliveryStatus := {
  tds_LastAttemptAt : option Time; tds_LastSuccessAt : option Time;
  tds_LastError : string }.

(** The payload of [sendMessage]; [tm_Button] is the link under the message. *)
Record TelegramMessage := {
  tm_ChatID : string; tm_Text : string; tm_Button : option string }.

Record World := {
  w_tables : Tables;
  w_mails : list Mail;
  w_backoff : smtpBackoff;
  w_push_config : option PushConfig;
  w_subscriptions : list PushSubscription;
  w_active_users : gset Z;
  w_pushed : list (PushSubscription * PushNotification);
  w_telegram_config : option TelegramConfig;
  w_telegram_status : option TelegramDeliveryStatus;
  w_messages : list TelegramMessage;
  (** [ReportService.notificationMu]. *)
  w_locked : bool
}.

Definition set_tables (t : Tables) (w : World) : World :=
  Build_World t (w_mails w) (w_backoff w) (w_push_config w) (w_subscriptions w)
    (w_active_users w) (w_pushed w) (w_telegram_config w) (w_telegram_status w)
    (w_messages w) (w_locked w).
Definition add_mail (m : Mail) (w : World) : World :=
  Build_World (w_tables w) (w_mails w ++ [m]) (w_backoff w) (w_push_config w)
    (w_subscriptions w) (w_active_users w) (w_pushed w) (w_telegram_config w)
    (w_telegram_status w) (w_messages w) (w_locked w).
Definition set_backoff (f : smtpBackoff → smtpBackoff) (w : World) : World :=
  Build_World (w_tables w) (w_mails w) (f (w_backoff w)) (w_push_config w)
    (w_subscriptions w) (w_active_users w) (w_pushed w) (w_telegram_config w)
    (w_telegram_status w) (w_messages w) (w_locked w).
Definition set_subscriptions (f : list PushSubscription → list PushSubscription)
    (w : World) : World :=
  Build_World (w_tables w) (w_mails w) (w_backoff w) (w_push_config w)
    (f (w_subscriptions w)) (w_active_users w) (w_pushed w) (w_telegram_config w)
    (w_telegram_status w) (w_messages w) (w_locked w).
Definition add_push (sub : PushSubscription) (n : PushNotification) (w : World) : World :=
  Build_World (w_tables w) (w_mails w) (w_backoff w) (w_push_config w)
    (w_subscriptions w) (w_active_users w) (w_pushed w ++ [(sub, n)])
    (w_telegram_config w) (w_telegram_status w) (w_messages w) (w_locked w).
Definition set_status (s : TelegramDeliveryStatus) (w : World) : World :=
  Build_World (w_tables w) (w_mails w) (w_backoff w) (w_push_config w)
    (w_subscriptions w) (w_active_users w) (w_pushed w) (w_telegram_config w)
    (Some s) (w_messages w) (w_locked w).
Definition add_message (m : TelegramMessage) (w : World) : World :=
  Build_World (w_tables w) (w_mails w) (w_backoff w) (w_push_config w)
    (w_subscriptions w) (w_active_users w) (w_pushed w) (w_telegram_config w)
    (w_telegram_status w) (w_messages w ++ [m]) (w_locked w).
Definition set_locked (b : bool) (w : World) : World :=
  Build_World (w_tables w) (w_mails w) (w_backoff w) (w_push_config w)
    (w_subscriptions w) (w_active_users w) (w_pushed w) (w_telegram_config w)
    (w_telegram_status w) (w_messages w) b.

(** A store method inside a service. *)
Definition db {A} (p : prog Tables A) : prog World A := lift w_tables set_tables p.

(** ** Web Push *)

(** [GetPushConfig]: zero keys before the first generation.  The getter of the
    sender logs an error and returns zero keys as well. *)
Definition no_keys : PushConfig := Build_PushConfig "" "" "".
Definition GetPushConfig : prog World PushConfig :=
  query (λ w, default no_keys (w_push_config w)).
Definition push_getter : prog World PushConfig :=
  andThen GetPushConfig (λ r, mret (ignore_err no_keys r)).

Definition has_keys (cfg : PushConfig) : bool :=
  negb (str_empty (pc_PublicKey cfg)) && negb (str_empty (pc_PrivateKey cfg)).

Definition ListAllPushSubscriptions : prog World (list PushSubscription) :=
  query (λ w, List.filter (λ s, bool_decide (ps_UserID s ∈ w_active_users w))
    (w_subscriptions w)).
Definition ListPushSubscriptionsByUser `{!SqlOrder} (userID : Z) :
    prog World (list PushSubscription) :=
  query (λ w, order_by (λ x y, ps_LastSeenAt y <=? ps_LastSeenAt x)
    (List.filter (λ s, ps_UserID s =? userID) (w_subscriptions w))).
Definition CountPushSubscriptions : prog World Z :=
  query (λ w, Z.of_nat (length (w_subscriptions w))).
Definition RemovePushSubscription (userID : Z) (endpoint : string) : prog World () :=
  exec_sql (set_subscriptions (List.filter (λ s,
    negb (bool_decide (ps_Endpoint s = endpoint) && (ps_UserID s =? userID))))).
Definition DeletePushSubscriptionsByUser (userID : Z) : prog World () :=
  exec_sql (set_subscriptions (List.filter (λ s, negb (ps_UserID s =? userID)))).

Definition push_ready : prog World bool :=
  cfg ← push_getter;
  if negb (has_keys cfg) then mret false
  else andThen CountPushSubscriptions (λ r, mret (0 <? ignore_err 0 r)).

(** [buildPushPayload] without the JSON encoding. *)
Definition buildPushPayload (alerts : list Alert) (linkURL : string) (resolved : bool)
    (now : Time) : PushNotification :=
  let count s := Itoa (Z.of_nat (length alerts)) +:+ s in
  let '(title, body, severity) :=
    match alerts with
    | [a] =>
        (if str_empty (al_ServerName a) then al_Title a else al_ServerName a,
         if str_empty (al_Message a) then al_Title a else al_Message a,
         al_Severity a)
    | _ =>
        let critical := Z.of_nat (length (List.filter
          (λ a, bool_decide (al_Severity a = AlertSeverityCritical)) alerts)) in
        (if 0 <? critical then Itoa critical +:+ " alerta(s) crítica(s)"
         else count " alerta(s) activa(s)",
         count " alerta(s) activa(s)", "info")
    end in
  let '(title, body, severity) :=
    if negb resolved then (title, body, severity) else
    match alerts with
    | [a] =>
        (if str_empty (al_ServerName a) then "Probakgo" else al_ServerName a,
         "Alerta resuelta: " +:+ al_Title a, "info")
    | _ => (count " alerta(s) resuelta(s)",
            "Las condiciones críticas han vuelto a la normalidad", "info")
    end in
  {| pn_Title := title; pn_Body := body;
     pn_Tag := match alerts with
               | [a] => al_ID a
               | _ => "batch:" +:+ Itoa (Unix now)
               end;
     pn_Icon := "/static/icons/icon-192.png"; pn_URL := linkURL;
     pn_Severity := severity |}.

(** [errors.As(err, &httpErr)] with the status 404 or 410. *)
Fixpoint is_gone (err : error) : bool :=
  match err with
  | ErrMsg _ => false
  | ErrWrap _ inner => is_gone inner
  | ErrJoin errs => existsb is_gone errs
  | ErrPartial inner => is_gone inner
  | ErrPushHTTP status => (status =? 404) || (status =? 410)
  end.

Definition pruneIfGone (sub : PushSubscription) (err : error) : prog World () :=
  if is_gone err
  then andThen (RemovePushSubscription (ps_UserID sub) (ps_Endpoint sub))
         (λ _, mret ())
  else mret ().

Definition deliverFn (sub : PushSubscription) (n : PushNotification) : prog World () :=
  exec_sql (add_push sub n).

(** The fan-out, one subscription after the other; the number delivered. *)
Fixpoint deliver_all (n : PushNotification) (subs : list PushSubscription)
    (delivered : Z) : prog World Z :=
  match subs with
  | [] => mret delivered
  | sub :: subs =>
      andThen (deliverFn sub n) (λ r,
        match r with
        | Ok _ => deliver_all n subs (delivered + 1)
        | Err e => _ ← pruneIfGone sub e; deliver_all n subs delivered
        end)
  end.

Definition send (alerts : list Alert) (linkURL : string) (resolved : bool)
    (now : Time) : prog World Z :=
  if is_nil alerts then mret 0 else
  cfg ← push_getter;
  if negb (has_keys cfg) then mret 0 else
  andThen ListAllPushSubscriptions (λ r,
    match r with
    | Err _ => mret 0
    | Ok [] => mret 0
    | Ok subs => deliver_all (buildPushPayload alerts linkURL resolved now) subs 0
    end).

(** ** Telegram *)

Definition GetTelegramConfig : prog World TelegramConfig :=
  query (λ w, default (Build_TelegramConfig "" "" false) (w_telegram_config w)).

Fixpoint all_bytes (p : ascii → bool) (s : string) : bool :=
  match s with EmptyString => true | String c s' => p c && all_bytes p s' end.

Definition between (lo hi : Z) (s : string) : bool :=
  (lo <=? str_len s) && (str_len s <=? hi).

Definition is_digit (c : ascii) : bool := (48 <=? byte c) && (byte c <=? 57).
Definition is_word (c : ascii) : bool :=
  is_digit c || ((65 <=? byte c) && (byte c <=? 90)) ||
  ((97 <=? byte c) && (byte c <=? 122)) || (byte c =? 95).

(** The text after the first colon. *)
Fixpoint after_colon (s : string) : option string :=
  match s with
  | EmptyString => None
  | String c s' => if bool_decide (c = ":"%char) then Some s' else after_colon s'
  end.

(** [^[0-9]{5,20}:[A-Za-z0-9_-]{20,128}$] on the trimmed token. *)
Definition token_matches (token : string) : bool :=
  match after_colon token with
  | None => false
  | Some secret =>
      let bot := before ":" token in
      all_bytes is_digit bot && between 5 20 bot &&
      all_bytes (λ c, is_word c || (byte c =? 45)) secret && between 20 128 secret
  end.

Definition validateTelegramToken (token : string) : option error :=
  if token_matches (TrimSpace token) then None
  else Some (ErrMsg "token de Telegram no valido").

(** [^-?[0-9]{1,20}$|^@[A-Za-z0-9_]{5,64}$]. *)
Definition chat_matches (chat : string) : bool :=
  match chat with
  | String "@"%char name => all_bytes is_word name && between 5 64 name
  | String "-"%char digits => all_bytes is_digit digits && between 1 20 digits
  | _ => all_bytes is_digit chat && between 1 20 chat
  end.

Definition ValidateTelegramChatID (chatID : string) : option error :=
  let chatID := TrimSpace chatID in
  if str_empty chatID then Some (ErrMsg "falta el destino de Telegram")
  else if negb (chat_matches chatID) then Some (ErrMsg "chat_id de Telegram no valido")
  else None.

(** [strings.TrimLeft(s, "/")] and [strings.TrimRight(s, "/")]. *)
Fixpoint trim_slashes (s : string) : string :=
  match s with String "/"%char s' => trim_slashes s' | _ => s end.
Definition trim_right_slashes (s : string) : string :=
  String.rev (trim_slashes (String.rev s)).

(** The entry of one alert. *)
Definition telegram_entry (a : Alert) (resolved : bool) : string :=
  let nl := String "010" EmptyString in
  nl +:+ nl +:+
  (if str_empty (al_ServerName a) then "Servidor" else al_ServerName a) +:+
  (if str_empty (al_ServerType a) then "" else " · " +:+ ToUpper (al_ServerType a)) +:+
  nl +:+ al_Title a +:+
  (if str_empty (al_Message a) || bool_decide (al_Message a = al_Title a) then ""
   else nl +:+ al_Message a) +:+
  (if resolved || (str_empty (al_Value a) && str_empty (al_Threshold a)) then ""
   else nl +:+
     (if str_empty (al_Value a) then "" else "Valor: " +:+ al_Value a) +:+
     (if str_empty (al_Value a) || str_empty (al_Threshold a) then "" else " · ") +:+
     (if str_empty (al_Threshold a) then "" else "Umbral: " +:+ al_Threshold a)).

(** The loop: [b] is the text so far, [alerts] what is left. *)
Fixpoint telegram_entries (resolved : bool) (b : string) (alerts : list Alert) : string :=
  match alerts with
  | [] => b
  | a :: rest =>
      let candidate := telegram_entry a resolved in
      if 3800 <? RuneCount b + RuneCount candidate
      then b +:+ String "010" (String "010" ("… y " +:+
             Itoa (Z.of_nat (length alerts)) +:+ " alerta(s) más"))
      else telegram_entries resolved (b +:+ candidate) rest
  end.

Definition telegram_header (n : Z) (resolved : bool) : string :=
  if resolved then "✅ Probakgo: " +:+ Itoa n +:+ " alerta(s) resuelta(s)"
  else "🚨 Probakgo: " +:+ Itoa n +:+ " alerta(s) crítica(s)".

Definition buildTelegramAlertMessage (alerts : list Alert) (resolved : bool) : string :=
  telegram_entries resolved (telegram_header (Z.of_nat (length alerts)) resolved) alerts.

(** [if err := check; err != nil { return err }]. *)
Definition check (err : option error) : prog World () :=
  match err with None => mret () | Some e => fail e end.

Section telegram.
Context `{!ReadStore}.

(** [sendMessage] with the request of [call]. *)
Definition sendMessage (cfg : TelegramConfig) (destination : TelegramDestination)
    (text linkURL : string) : prog World () :=
  let button :=
    if str_empty linkURL then None else
    match GetEmailConfig with
    | Ok emailCfg =>
        if str_empty (ec_PublicAPIURL emailCfg) then None
        else Some (trim_right_slashes (ec_PublicAPIURL emailCfg) +:+ "/" +:+
                   trim_slashes linkURL)
    | Err _ => None
    end in
  _ ← check (validateTelegramToken (tc_BotToken cfg));
  exec_sql (add_message (Build_TelegramMessage (tgd_ChatID destination) text button)).

Definition telegram_ready : prog World bool :=
  andThen GetTelegramConfig (λ r,
    match r with
    | Err _ => mret false
    | Ok cfg =>
        if negb (tc_IsEnabled cfg) ||
           bool_decide (validateTelegramToken (tc_BotToken cfg) ≠ None)
        then mret false
        else andThen (db ListActiveTelegramDestinations) (λ r,
               mret (negb (is_nil (ignore_err [] r))))
    end).

Definition SendAlerts (destination : TelegramDestination) (alerts : list Alert)
    (linkURL : string) (resolved : bool) : prog World () :=
  if is_nil alerts then mret () else
  cfg ← wrap_err "leer configuracion de Telegram" GetTelegramConfig;
  if negb (tc_IsEnabled cfg) then mret () else
  _ ← check (validateTelegramToken (tc_BotToken cfg));
  _ ← check (ValidateTelegramChatID (tgd_ChatID destination));
  sendMessage cfg destination (buildTelegramAlertMessage alerts resolved) linkURL.

(** The text recorded for an error: at most 500 characters. *)
Definition delivery_error (deliveryErr : option error) : string :=
  match deliveryErr with
  | None => ""
  | Some e =>
      let lastError := TrimSpace (Error e) in
      if 500 <? RuneCount lastError then take_runes 500 lastError else lastError
  end.

Definition RecordTelegramDelivery (deliveryErr : option error) (now : Time) :
    prog World () :=
  let lastError := delivery_error deliveryErr in
  exec_sql (λ w, set_status
    (let now := Some (CurrentTimestamp now) in
     if str_empty lastError then Build_TelegramDeliveryStatus now now ""
     else Build_TelegramDeliveryStatus now
            (w_telegram_status w ≫= tds_LastSuccessAt) lastError) w).

(** A failure to record is only logged. *)
Definition recordDelivery (deliveryErr : option error) (now : Time) : prog World () :=
  andThen (RecordTelegramDelivery deliveryErr now) (λ _, mret ()).
End telegram.

(** ** Lemmas *)

Lemma w_tables_set t w : w_tables (set_tables t w) = t.
Proof. done. Qed.

Lemma set_tables_id w : set_tables (w_tables w) w = w.
Proof. by destruct w. Qed.

Lemma set_tables_twice t u w : set_tables t (set_tables u w) = set_tables t w.
Proof. done. Qed.

Lemma run_db {A} (p : prog Tables A) w :
  run (db p) w = let '(r, t) := run p (w_tables w) in (r, set_tables t w).
Proof. apply run_lift; [done|apply set_tables_id|done]. Qed.

Lemma always_db {A} (p : prog Tables A) (Q : result A → World → Prop) w :
  always p (λ r t, Q r (set_tables t w)) (w_tables w) → always (db p) Q w.
Proof. apply always_lift; [done|apply set_tables_id|done]. Qed.

(** *** Lengths of texts *)

Lemma length_pretty_N_go k (x : N) s :
  (x < 10 ^ N.of_nat k)%N → (String.length (pretty_N_go x s) ≤ k + String.length s)%nat.
Proof.
  revert x s. induction k as [|k IH]; intros x s Hx.
  - assert (x = 0)%N as -> by (change (10 ^ N.of_nat 0)%N with 1%N in Hx; lia).
    by rewrite pretty_N_go_0.
  - destruct (decide (x = 0)%N) as [->|Hne]; [rewrite pretty_N_go_0; lia|].
    rewrite pretty_N_go_step by lia.
    etrans; [apply IH|simpl; lia].
    apply N.Div0.div_lt_upper_bound. rewrite Nat2N.inj_succ, N.pow_succ_r' in Hx. lia.
Qed.

Lemma RuneCount_Itoa n : 0 ≤ n < 10 ^ 19 → RuneCount (Itoa n) ≤ 19.
Proof.
  intros Hn. etrans; [apply RuneCount_le_length|]. unfold str_len, Itoa.
  destruct n as [|p|p]; [vm_compute; congruence| |lia].
  change (pretty (Z.pos p)) with (pretty (N.pos p)). unfold pretty, pretty_N.
  rewrite decide_False by done.
  pose proof (length_pretty_N_go 19 (N.pos p) ""
    ltac:(change (10 ^ N.of_nat 19)%N with (10 ^ 19)%N; lia)) as H.
  change (String.length "") with 0%nat in H. lia.
Qed.

(** *** The Telegram text *)

Definition entries_text (resolved : bool) (alerts : list Alert) : string :=
  foldr (λ a s, telegram_entry a resolved +:+ s) "" alerts.

(** What is written when the entries of [rest] do not fit. *)
Definition overflow_notice (rest : list Alert) : string :=
  if is_nil rest then "" else
  String "010" (String "010" ("… y " +:+ Itoa (Z.of_nat (length rest)) +:+
    " alerta(s) más")).

Lemma telegram_entries_split resolved b alerts :
  RuneCount b ≤ 3800 →
  ∃ shown rest, alerts = shown ++ rest ∧
    telegram_entries resolved b alerts =
      (b +:+ entries_text resolved shown) +:+ overflow_notice rest ∧
    RuneCount (b +:+ entries_text resolved shown) ≤ 3800.
Proof.
  revert b. induction alerts as [|a alerts IH]; intros b Hb.
  { exists [], []. simpl. by rewrite !app_nil_r_str. }
  cbn [telegram_entries]. destruct (Z.ltb_spec 3800
    (RuneCount b + RuneCount (telegram_entry a resolved))) as [Hlt|Hle].
  - exists [], (a :: alerts). split; [done|]. cbn [entries_text foldr].
    by rewrite !app_nil_r_str.
  - destruct (IH (b +:+ telegram_entry a resolved)) as (shown & rest & -> & -> & Hs).
    { pose proof (RuneCount_app b (telegram_entry a resolved)). lia. }
    exists (a :: shown), rest. split; [done|]. cbn [entries_text foldr].
    by rewrite <-!app_assoc_str in *.
Qed.

Lemma RuneCount_notice rest :
  Z.of_nat (length rest) < 10 ^ 19 → RuneCount (overflow_notice rest) ≤ 39.
Proof.
  intros Hr. unfold overflow_notice. destruct (is_nil rest); [vm_compute; congruence|].
  set (n := Z.of_nat (length rest)) in *.
  change (String "010" (String "010" ("… y " +:+ Itoa n +:+ " alerta(s) más")))
    with (String "010" (String "010" "… y ") +:+ (Itoa n +:+ " alerta(s) más")).
  etrans; [apply RuneCount_app|]. pose proof (RuneCount_app (Itoa n) " alerta(s) más").
  pose proof (RuneCount_Itoa n ltac:(lia)).
  assert (RuneCount (String "010" (String "010" "… y ")) = 6) as -> by by vm_compute.
  assert (RuneCount " alerta(s) más" = 14) as Hm by by vm_compute. lia.
Qed.

Lemma RuneCount_header n resolved :
  0 ≤ n < 10 ^ 19 → RuneCount (telegram_header n resolved) ≤ 3800.
Proof.
  intros Hn. unfold telegram_header. pose proof (RuneCount_Itoa n Hn).
  destruct resolved; (etrans; [apply RuneCount_app|]).
  - pose proof (RuneCount_app (Itoa n) " alerta(s) resuelta(s)").
    assert (RuneCount "✅ Probakgo: " = 12) as -> by by vm_compute.
    assert (RuneCount " alerta(s) resuelta(s)" = 22) by by vm_compute. lia.
  - pose proof (RuneCount_app (Itoa n) " alerta(s) crítica(s)").
    assert (RuneCount "🚨 Probakgo: " = 12) as -> by by vm_compute.
    assert (RuneCount " alerta(s) crítica(s)" = 21) by by vm_compute. lia.
Qed.

(** *** Push deliveries *)

Lemma exec_pruneIfGone sub e io w r w' io' :
  exec (pruneIfGone sub e) io w = (r, w', io') →
  r = Ok () ∧ (∃ used, io = used ++ io') ∧
  (∃ f, w' = set_subscriptions (List.filter f) w) ∧
  (is_gone e = false → w_subscriptions w' = w_subscriptions w).
Proof.
  assert (w = set_subscriptions (List.filter (λ _, true)) w) as Hid.
  { destruct w; unfold set_subscriptions; simpl. by rewrite filter_bool_true. }
  unfold pruneIfGone. destruct (is_gone e) eqn:Hg.
  - unfold RemovePushSubscription, exec_sql, stmt. simpl. destruct (fault io) eqn:Hf.
    + intros [= <- <- <-]. split; [done|]. split; [|by split; [eexists|]].
      destruct io as [|f io]; [done|]. by exists [f].
    + intros [= <- <- <-]. split; [done|]. split; [|by split; [eexists|]].
      destruct io as [|f io]; [by exists []|]. by exists [f].
  - intros [= <- <- <-]. split; [done|]. split; [by exists []|]. split; [by eexists|done].
Qed.

(** Only the push tables and the push log differ. *)
Record push_frame (w w' : World) : Prop := {
  pf_tables : w_tables w' = w_tables w;
  pf_mails : w_mails w' = w_mails w;
  pf_backoff : w_backoff w' = w_backoff w;
  pf_messages : w_messages w' = w_messages w;
  pf_telegram : w_telegram_config w' = w_telegram_config w;
  pf_users : w_active_users w' = w_active_users w;
  pf_locked : w_locked w' = w_locked w;
  pf_subs : w_subscriptions w' `sublist_of` w_subscriptions w
}.

Lemma push_frame_refl w : push_frame w w.
Proof. by split. Qed.

Lemma push_frame_trans w1 w2 w3 : push_frame w1 w2 → push_frame w2 w3 → push_frame w1 w3.
Proof. intros [] []. split; try congruence. by etrans. Qed.

Lemma push_frame_subscriptions f w :
  push_frame w (set_subscriptions (List.filter f) w).
Proof. split; try done. apply filter_bool_sublist. Qed.

Lemma push_frame_add sub n w : push_frame w (add_push sub n w).
Proof. by split. Qed.

Definition no_gone (io : list (option error)) : Prop :=
  ∀ e, Some e ∈ io → is_gone e = false.

Lemma no_gone_app io1 io2 : no_gone (io1 ++ io2) → no_gone io2.
Proof. intros H e He. apply H. apply elem_of_app. by right. Qed.

(** What a fan-out leaves. *)
Record delivered_to (n : PushNotification) (sent : list PushSubscription)
    (w w' : World) : Prop := {
  dt_frame : push_frame w w';
  dt_pushed : w_pushed w' = w_pushed w ++ ((λ s, (s, n)) <$> sent)
}.

Lemma exec_deliver_all n subs k io w :
  let '(r, w', io') := exec (deliver_all n subs k) io w in
  ∃ sent, r = Ok (k + Z.of_nat (length sent)) ∧ sent `sublist_of` subs ∧
    delivered_to n sent w w' ∧
    (no_gone io → w_subscriptions w' = w_subscriptions w).
Proof.
  revert k io w. induction subs as [|s subs IH]; intros k io w.
  { exists []. cbn. rewrite Z.add_0_r. split_and!; try done.
    split; [apply push_frame_refl|]. by rewrite app_nil_r. }
  cbn [deliver_all]. unfold deliverFn, exec_sql, stmt. simpl.
  destruct (fault io) as [e|] eqn:Hf.
  - unfold mbind, prog_bind. rewrite exec_andThen.
    destruct (exec (pruneIfGone s e) (tail io) w) as [[r1 w1] io1] eqn:Hp.
    apply exec_pruneIfGone in Hp as (-> & [used Hio] & [f ->] & Hg).
    specialize (IH k io1 (set_subscriptions (List.filter f) w)).
    destruct (exec (deliver_all n subs k) io1 _) as [[r w'] io'].
    destruct IH as (sent & -> & Hsub & [Hfr Hpush] & Hkeep). exists sent.
    split_and!; [done|by apply sublist_cons| |].
    + split; [|done]. eapply push_frame_trans; [apply push_frame_subscriptions|done].
    + intros Hng. rewrite Hkeep.
      * apply Hg, Hng. destruct io as [|f0 io]; [done|]. simpl in Hf. subst f0.
        by left.
      * destruct io as [|f0 io]; [done|]. simpl in Hio. subst io.
        apply (no_gone_app (f0 :: used)). by simpl.
  - specialize (IH (k + 1) (tail io) (add_push s n w)).
    destruct (exec (deliver_all n subs (k + 1)) (tail io) _) as [[r w'] io'].
    destruct IH as (sent & -> & Hsub & [Hfr Hpush] & Hkeep). exists (s :: sent).
    split_and!.
    + f_equal. simpl. lia.
    + by constructor.
    + split; [eapply push_frame_trans; [apply push_frame_add|done]|].
      rewrite Hpush. simpl. by rewrite <-app_assoc.
    + intros Hng. apply Hkeep. destruct io as [|f0 io]; [done|].
      by apply (no_gone_app [f0]).
Qed.

Lemma exec_query {A} (f : World → A) io w :
  ∃ r io', exec (query f) io w = (r, w, io') ∧ (∃ used, io = used ++ io') ∧
    (r = Ok (f w) ∨ ∃ e, r = Err e).
Proof.
  unfold query, stmt. simpl. destruct io as [|[e|] io]; simpl.
  - eexists _, []. split; [done|]. split; [by exists []|by left].
  - eexists _, io. split; [done|]. split; [by exists [Some e]|eauto].
  - eexists _, io. split; [done|]. split; [by exists [None]|by left].
Qed.

(** ** Properties *)

(** the Telegram text lists a prefix of the alerts, each in full, and says how
    many are left out; it never exceeds the 4096 characters Telegram accepts. *)
Theorem telegram_message_spec (alerts : list Alert) (resolved : bool)
    (Hlen : Z.of_nat (length alerts) < 10 ^ 19) :
  ∃ shown rest, alerts = shown ++ rest ∧
    buildTelegramAlertMessage alerts resolved =
      (telegram_header (Z.of_nat (length alerts)) resolved +:+
       entries_text resolved shown) +:+ overflow_notice rest ∧
    RuneCount (buildTelegramAlertMessage alerts resolved) ≤ 4096.
Proof.
  unfold buildTelegramAlertMessage.
  destruct (telegram_entries_split resolved
    (telegram_header (Z.of_nat (length alerts)) resolved) alerts)
    as (shown & rest & Heq & -> & Hs); [apply RuneCount_header; lia|].
  exists shown, rest. split; [done|]. split; [done|].
  etrans; [apply RuneCount_app|].
  assert (length alerts = length shown + length rest)%nat as Hl
    by by rewrite Heq, length_app.
  pose proof (RuneCount_notice rest ltac:(lia)). lia.
Qed.

(** a push fan-out reports exactly the number of subscriptions of active users
    it delivered to, touches nothing else, and removes a subscription only when
    a push service answered that it is gone: no other failure loses one. *)
Theorem push_send_spec (alerts : list Alert) (link : string) (resolved : bool)
    (now : Time) (io : list (option error)) (w : World) :
  let '(r, w', _) := exec (send alerts link resolved now) io w in
  ∃ sent, r = Ok (Z.of_nat (length sent)) ∧
    sent `sublist_of` w_subscriptions w ∧
    Forall (λ s, ps_UserID s ∈ w_active_users w) sent ∧
    delivered_to (buildPushPayload alerts link resolved now) sent w w' ∧
    (no_gone io → w_subscriptions w' = w_subscriptions w).
Proof.
  assert (∃ sent, @Ok Z 0 = Ok (Z.of_nat (length sent)) ∧
    sent `sublist_of` w_subscriptions w ∧
    Forall (λ s, ps_UserID s ∈ w_active_users w) sent ∧
    delivered_to (buildPushPayload alerts link resolved now) sent w w ∧
    (no_gone io → w_subscriptions w = w_subscriptions w)) as Hnone.
  { exists []. split_and!; [done|apply sublist_nil_l|constructor| |done].
    split; [apply push_frame_refl|]. by rewrite app_nil_r. }
  unfold send. destruct (is_nil alerts); [exact Hnone|].
  unfold push_getter, mbind, prog_bind. rewrite !exec_andThen.
  destruct (exec_query (λ w, default no_keys (w_push_config w)) io w)
    as (r & io1 & Hq & [used ->] & _). unfold GetPushConfig. rewrite Hq.
  unfold mret, prog_ret. cbn [exec].
  destruct (negb (has_keys _)); [exact Hnone|]. rewrite exec_andThen.
  unfold ListAllPushSubscriptions.
  destruct (exec_query (λ w, List.filter (λ s, bool_decide (ps_UserID s ∈ w_active_users w))
    (w_subscriptions w)) io1 w) as (r2 & io2 & Hq2 & [used2 ->] & Hr2).
  rewrite Hq2. destruct Hr2 as [-> | [e ->]]; [|exact Hnone].
  destruct (List.filter _ _) as [|s subs] eqn:Hsubs; [exact Hnone|].
  pose proof (exec_deliver_all (buildPushPayload alerts link resolved now)
    (s :: subs) 0 io2 w) as Hd.
  destruct (exec (deliver_all _ _ _) io2 w) as [[r3 w'] io3].
  destruct Hd as (sent & -> & Hsub & Hdt & Hkeep). exists sent. rewrite <-Hsubs in Hsub.
  split; [done|]. split; [etrans; [exact Hsub|apply filter_bool_sublist]|].
  split; [|split; [done|]].
  - apply Forall_forall. intros x Hx. eapply elem_of_submseteq in Hx; [|apply sublist_submseteq, Hsub].
    apply elem_of_filter_bool in Hx as [_ Hx]. by bool_to_prop.
  - intros Hng. apply Hkeep. by apply no_gone_app, no_gone_app in Hng.
Qed.

(** after [n + 1] failed deliveries in a row email pauses for [2^n] minutes, at
    most thirty, from the last failure; one success ends the pause. *)
Theorem backoff_doubles (n : nat) (e : error) (now later : Time) :
  let failed := Nat.iter (S n) (record (Some e) now) (Build_smtpBackoff zeroTime 0) in
  delay failed = Z.min (2 ^ Z.of_nat n * Minute) (30 * Minute) ∧
  (active failed later = true ↔ later < now + delay failed) ∧
  (zeroTime ≤ later → active (record None now failed) later = false).
Proof.
  cbv zeta. split; [|split].
  - induction n as [|n IH]; [done|].
    change (Nat.iter (S (S n)) ?f ?x) with (f (Nat.iter (S n) f x)).
    set (b := Nat.iter (S n) _ _) in *. unfold record. cbn [delay]. rewrite IH.
    rewrite wrap64_id.
    + rewrite Nat2Z.inj_succ, Z.pow_succ_r by lia.
      unfold smtpBackoffMin, smtpBackoffMax, Minute, Second.
      pose proof (Z.pow_pos_nonneg 2 (Z.of_nat n)). lia.
    + unfold in_int64, MinInt64, MaxInt64, Minute, Second.
      pose proof (Z.pow_pos_nonneg 2 (Z.of_nat n)). lia.
  - change (Nat.iter (S n) ?f ?x) with (f (Nat.iter n f x)). unfold active, Before.
    unfold record. cbn [until delay]. unfold AddDur. by rewrite Z.ltb_lt.
  - unfold active, Before, record. cbn [until]. rewrite Z.ltb_ge. done.
Qed.

Lemma telegram_message_spec_witness :
  let alerts := [ex_critical; ex_critical] in
  Z.of_nat (length alerts) < 10 ^ 19 ∧
  RuneCount (buildTelegramAlertMessage alerts false) ≤ 4096.
Proof.
  cbv zeta. split; [vm_compute; reflexivity|].
  destruct (telegram_message_spec [ex_critical; ex_critical] false
    ltac:(vm_compute; reflexivity)) as (_ & _ & _ & _ & H). exact H.
Defined.
