(* ===== verification/Notify.v ===== *)
(** * Immediate notifications: [internal/service/immediate_notifications.go]

    One evaluation of the alerts, its persistence, and the three channels.  One
    [now] stands for the clock readings of a run.  The goroutine that serves the
    push channel runs before the others: it writes columns and tables they do not
    read. *)
From Stdlib Require Import Ascii.
From Stdlib Require String.
From S2P Require Import Prelude GoStrings GoUtf8 GoNum GoTime Domain StoreReads Staleness AlertEngine Sql AlertState Channels.

(** ** Selection *)

Definition alertIDs (alerts : list Alert) : list string := al_ID <$> alerts.

Definition alertLink (alerts : list Alert) : string :=
  match alerts with
  | [a] =>
      if bool_decide (al_ServerType a ∈ ["pve"; "pbs"; "windows"]) && (0 <? al_ServerID a)
      then "/servers/" +:+ al_ServerType a +:+ "/" +:+ Itoa (al_ServerID a)
      else "/alerts"
  | _ => "/alerts"
  end.

(** [shouldSendImmediateCriticalEmail] of [email.go]. *)
Definition shouldSendImmediateCriticalEmail (a : Alert) : bool :=
  bool_decide (al_Severity a = AlertSeverityCritical) &&
  negb (bool_decide (al_Type a ∈ [AlertTypePBSReportStale; AlertTypePBSStale])).

Definition candidate (suppressed : gmap string Time) (a : Alert) : bool :=
  shouldSendImmediateCriticalEmail a &&
  negb (bool_decide (is_Some (suppressed !! al_ID a))).

Definition criticalAlertsPending (alerts : list Alert) (suppressed : gmap string Time)
    (sentLookup : list string → prog Tables (gset string)) : prog World (list Alert) :=
  let candidates := List.filter (candidate suppressed) alerts in
  sent ← wrap_err "get critical notification state"
    (db (sentLookup (alertIDs candidates)));
  mret (List.filter (λ a, negb (bool_decide (al_ID a ∈ sent))) candidates).

Definition criticalAlertsPendingEmail alerts suppressed :=
  criticalAlertsPending alerts suppressed ListCriticalEmailSentAlertIDs.
Definition criticalAlertsPendingPush alerts suppressed :=
  criticalAlertsPending alerts suppressed ListCriticalPushSentAlertIDs.
Definition criticalAlertsPendingTelegram destinationID alerts suppressed :=
  criticalAlertsPending alerts suppressed
    (ListCriticalTelegramSentAlertIDs destinationID).

(** ** Email *)

(** [parseRecipients] of [email.go]: the parts between commas. *)
Fixpoint split_on (c : ascii) (s : string) : list string :=
  match s with
  | EmptyString => [EmptyString]
  | String a s' =>
      let parts := split_on c s' in
      if bool_decide (a = c) then EmptyString :: parts
      else match parts with
           | [] => [String a EmptyString]
           | part :: parts => String a part :: parts
           end
  end.

Definition parseRecipients (raw : string) : list string :=
  List.filter (λ s, negb (str_empty s)) (TrimSpace <$> split_on "," raw).

Definition result_err {A} (r : result A) : option error :=
  match r with Ok _ => None | Err e => Some e end.

(** [sendSMTP] of [email.go]: a session that fails before the server has taken the
    message sends nothing; one whose last command fails has sent it, and returns the
    error all the same. *)
Definition sendSMTP (m : Mail) : prog World () :=
  _ ← exec_sql (add_mail m); exec_sql id.

(** The closure [deliver]: one SMTP session, and its outcome in the pause. *)
Definition deliver (recipients : list string) (subject : string)
    (selected resolved : list Alert) (now : Time) : prog World () :=
  andThen (sendSMTP (Build_Mail recipients subject selected resolved))
    (λ r, _ ← modify (set_backoff (record (result_err r) now)); Ret r).

Section dispatch.
Context `{!MapRange, !SqlOrder, !ReadStore}.

Definition dispatchImmediateEmail (cfg : EmailConfig) (recipients : list string)
    (alerts : list Alert) (suppressed : gmap string Time) (now : Time) :
    prog World () :=
  selected ← criticalAlertsPendingEmail alerts suppressed;
  resolved ← wrap_err "list resolved critical alerts"
    (db ListPendingAlertResolutionEmails);
  due ← wrap_err "check email batch" (db (AlertEmailBatchDue
    (ec_AlertEmailBatchMinutes cfg) (negb (is_nil selected && is_nil resolved)) now));
  paused ← local (λ w, (active (w_backoff w) now, w));
  if negb due || paused then mret () else
  let n := Itoa (Z.of_nat (length selected)) in
  let m := Itoa (Z.of_nat (length resolved)) in
  _ ← (if 0 <? ec_AlertEmailBatchMinutes cfg then
         _ ← deliver recipients ("Probakgo incidencias: " +:+ n +:+
               " activa(s), " +:+ m +:+ " resuelta(s)") selected resolved now;
         _ ← db (MarkAlertCriticalEmailsSent (alertIDs selected) now);
         db (MarkAlertResolutionEmailsSent (alertIDs resolved) now)
       else
         _ ← (if is_nil selected then mret () else
                _ ← deliver recipients ("Probakgo alerta crítica: " +:+ n +:+
                      " alerta(s) activa(s)") selected [] now;
                db (MarkAlertCriticalEmailsSent (alertIDs selected) now));
         if is_nil resolved then mret () else
           _ ← deliver recipients ("Probakgo alerta resuelta: " +:+ m +:+
                 " alerta(s)") [] resolved now;
           db (MarkAlertResolutionEmailsSent (alertIDs resolved) now));
  db ClearAlertEmailBatch.

(** ** Push: failures are logged *)

Definition dispatchPush (alerts : list Alert) (linkURL : string) (resolved : bool)
    (now : Time) : prog World () :=
  delivered ← send alerts linkURL resolved now;
  if delivered =? 0 then mret () else
  andThen (db (if resolved then MarkAlertResolutionPushesSent (alertIDs alerts) now
               else MarkAlertCriticalPushesSent (alertIDs alerts) now))
    (λ _, mret ()).

(** The body of the push goroutine. *)
Definition push_channel (alerts : list Alert) (suppressed : gmap string Time)
    (now : Time) : prog World () :=
  _ ← andThen (criticalAlertsPendingPush alerts suppressed) (λ r,
        match r with
        | Ok (_ :: _ as selected) =>
            dispatchPush selected (alertLink selected) false now
        | _ => mret ()
        end);
  andThen (db ListPendingAlertResolutionPushes) (λ r,
    match r with
    | Ok (_ :: _ as resolved) => dispatchPush resolved "/alerts" true now
    | _ => mret ()
    end).

(** ** Telegram *)

(** The messages of one half of the loop body: the error to join, if any, and
    whether a delivery was attempted. *)
Definition telegram_half (username marking : string)
    (pending : result (list Alert)) (pending_error : error → error)
    (deliver : list Alert → prog World ()) (mark : list string → prog Tables ()) :
    prog World (option error * bool) :=
  match pending with
  | Err e => mret (Some (pending_error e), true)
  | Ok [] => mret (None, false)
  | Ok alerts =>
      andThen (deliver alerts) (λ r,
        match r with
        | Err e => mret (Some (ErrWrap username e), true)
        | Ok _ =>
            andThen (db (mark (alertIDs alerts))) (λ r,
              mret (ErrWrap (username +:+ ": " +:+ marking) <$> result_err r, true))
        end)
  end.

Definition join_error (deliveryErr err : option error) : option error :=
  match err with None => deliveryErr | Some _ => Join [deliveryErr; err] end.

(** The body of the loop over the destinations. *)
Definition dispatchTelegram_one (alerts : list Alert) (suppressed : gmap string Time)
    (now : Time) (destination : TelegramDestination) (st : option error * bool) :
    prog World (option error * bool) :=
  let username := tgd_Username destination in
  active ← andThen
    (criticalAlertsPendingTelegram (tgd_ID destination) alerts suppressed)
    (λ pending, telegram_half username "mark critical Telegram sent" pending
       (ErrWrap username)
       (λ selected, SendAlerts destination selected (alertLink selected) false)
       (λ ids, MarkAlertCriticalTelegramsSent (tgd_ID destination) ids now));
  resolved ← andThen (db (ListPendingAlertResolutionTelegrams (tgd_ID destination)))
    (λ pending, telegram_half username "mark resolution Telegram sent" pending
       (ErrWrap (username +:+ ": list resolved Telegram alerts"))
       (λ selected, SendAlerts destination selected "/alerts" true)
       (λ ids, MarkAlertResolutionTelegramsSent (tgd_ID destination) ids now));
  mret (join_error (join_error st.1 active.1) resolved.1,
        st.2 || active.2 || resolved.2).

Fixpoint dispatchTelegram_all (alerts : list Alert) (suppressed : gmap string Time)
    (now : Time) (destinations : list TelegramDestination) (st : option error * bool) :
    prog World (option error * bool) :=
  match destinations with
  | [] => mret st
  | d :: destinations =>
      st ← dispatchTelegram_one alerts suppressed now d st;
      dispatchTelegram_all alerts suppressed now destinations st
  end.

(** The error a run reports. *)
Definition finish (err : option error) : prog World () :=
  match err with None => mret () | Some e => fail e end.

(** [ready]: the sender is not nil after the check of the caller. *)
Definition dispatchTelegram (ready : bool) (alerts : list Alert)
    (suppressed : gmap string Time) (now : Time) : prog World () :=
  if negb ready then mret () else
  andThen (db ListActiveTelegramDestinations) (λ r,
    match r with
    | Err e => _ ← recordDelivery (Some e) now;
               fail (ErrWrap "list active Telegram users" e)
    | Ok destinations =>
        '(deliveryErr, attempted) ←
          dispatchTelegram_all alerts suppressed now destinations (None, false);
        _ ← (if attempted : bool then recordDelivery deliveryErr now else mret ());
        finish deliveryErr
    end).

(** ** The run *)

(** [SyncAlertStatesFor] of [alertengine.go]. *)
Definition SyncAlertStatesFor (alerts : list Alert) (runErr : option error)
    (now : Time) : prog Tables () :=
  if is_partial runErr then SyncPartialAlertStates alerts now
  else SyncAlertStates alerts now.

(** The checks of the email settings. *)
Definition email_recipients (cfg : EmailConfig) : result (list string) :=
  if str_empty (ec_SMTPUser cfg) || str_empty (ec_SMTPPass cfg)
  then Err (ErrMsg "SMTP credentials not configured")
  else
    let recipients := parseRecipients (ec_Recipients cfg) in
    if is_nil recipients then Err (ErrMsg "no email recipients configured")
    else Ok recipients.

(** The deliveries, once the evaluation is recorded. *)
Definition deliver_channels (cfg : EmailConfig) (push telegram : bool)
    (alerts : list Alert) (suppressed : gmap string Time) (runErr : option error)
    (now : Time) : prog World () :=
  andThen (if push then push_channel alerts suppressed now else mret ()) (λ _,
  andThen (dispatchTelegram telegram alerts suppressed now) (λ r,
    let telegramErr := result_err r in
    if negb (ec_CriticalAlertsEnabled cfg) then finish (Join [runErr; telegramErr])
    else
      match email_recipients cfg with
      | Err e => finish (Join [runErr; telegramErr; Some e])
      | Ok recipients =>
          andThen (dispatchImmediateEmail cfg recipients alerts suppressed now)
            (λ r, finish (Join [runErr; telegramErr; result_err r]))
      end)).

Definition run_alerts (local : Location) (rep : option ReportService)
    (senders : bool * bool) (now : Time) : prog World () :=
  match GetEmailConfig with
  | Err e => fail (ErrWrap "get email config" e)
  | Ok cfg =>
      push ← (if senders.1 then push_ready else mret false);
      telegram ← (if senders.2 then telegram_ready else mret false);
      match LoadAlertConfigs with
      | Err e => fail (ErrWrap "load alert config" e)
      | Ok alertCfg =>
          let '(rawAlerts, runErr) := RunAll now local (set_report alertCfg rep) in
          match runErr with
          | Some e =>
              if negb (IsPartialAlertsError e) then fail (ErrWrap "run alerts" e)
              else mret ()
          | None => mret ()
          end ≫= λ _,
          andThen (db (SyncAlertStatesFor rawAlerts runErr now)) (λ r,
            match r with
            | Err e => finish (Join [runErr; Some (ErrWrap "sync alert states" e)])
            | Ok _ =>
                if negb (ec_CriticalAlertsEnabled cfg) && negb push && negb telegram
                then finish runErr
                else
                  andThen (if is_nil rawAlerts then mret ∅
                           else db (GetActiveServerMaintenances_prog now))
                    (λ maintenance,
                     andThen (db (GetActiveSuppressions_prog now)) (λ suppressed,
                       deliver_channels cfg push telegram
                         (filter_maintenance maintenance rawAlerts)
                         (ignore_err ∅ suppressed) runErr now))
            end)
      end
  end.

(** [senders]: whether the push and the Telegram sender are installed. *)
Definition sendImmediateCriticalAlerts (loc : Location) (rep : option ReportService)
    (senders : bool * bool) (now : Time) : prog World () :=
  match rep with
  | None => run_alerts loc rep senders now
  | Some _ =>
      locked ← local (λ w, (negb (w_locked w), set_locked true w));
      if negb locked then mret () else
      andThen (run_alerts loc rep senders now)
        (λ r, _ ← modify (set_locked false); Ret r)
  end.
End dispatch.

(** ** Reference definitions for the theorems *)

(** The columns of an alert the email channel looks at. *)
Definition email_row (w : World) (k : string) : option (bool * option Time * bool) :=
  (λ r, (st_IsPresent r, st_LastEmail r, st_EmailPending r)) <$>
    states (w_tables w) !! k.

Definition marked (w : World) (k : string) : Prop :=
  ∃ p t q, email_row w k = Some (p, Some t, q).
Definition owed (w : World) (k : string) : Prop :=
  ∃ p t, email_row w k = Some (p, t, true).

(** A message sent between [w] and [w'] lists the alert [k]. *)
Definition mailed (part : Mail → list Alert) (w w' : World) (k : string) : Prop :=
  ∃ new m, w_mails w' = w_mails w ++ new ∧ m ∈ new ∧ k ∈ alertIDs (part m).

(** The marks of the email channel account for the messages sent. *)
Record account (w w' : World) : Prop := {
  ac_mails : ∃ new, w_mails w' = w_mails w ++ new;
  ac_present k : (λ row, row.1.1) <$> email_row w' k = (λ row, row.1.1) <$> email_row w k;
  ac_marked k : marked w' k → marked w k ∨ mailed ml_Active w w' k;
  ac_owed k : owed w k → owed w' k ∨ mailed ml_Resolved w w' k
}.

(** The alert [k] counts as emailed: it is present and marked. *)
Definition emailed (t : Tables) (k : string) : bool :=
  match states t !! k with
  | Some r => st_IsPresent r && bool_decide (is_Some (st_LastEmail r))
  | None => false
  end.

(** A message sent since [w] lists the alert [a] to the recipients. *)
Definition listed (recipients : list string) (w : World) (a : Alert) (w' : World) : Prop :=
  ∃ new m, w_mails w' = w_mails w ++ new ∧ m ∈ new ∧ ml_Recipients m = recipients ∧
    a ∈ ml_Active m.

Definition delivered (recipients : list string) (w : World) (a : Alert) (w' : World) : Prop :=
  listed recipients w a w' ∧ marked w' (al_ID a).






(** What the email channel sees is the same. *)
Record same_email (w w' : World) : Prop := {
  se_mails : w_mails w' = w_mails w;
  se_backoff : w_backoff w' = w_backoff w;
  se_batch : batch (w_tables w') = batch (w_tables w);
  se_rows k : email_row w' k = email_row w k
}.

(** ** Lemmas: accounts *)

Lemma same_email_refl w : same_email w w.
Proof. by split. Qed.

Lemma mailed_app part w w' w'' k new :
  w_mails w'' = w_mails w' ++ new → mailed part w w' k → mailed part w w'' k.
Proof.
  intros Hnew (new' & m & Heq & Hm & Hk). exists (new' ++ new), m.
  rewrite Hnew, Heq, app_assoc. split; [done|]. split; [|done].
  apply elem_of_app. by left.
Qed.

Lemma account_refl w : account w w.
Proof. split; auto. exists []. by rewrite app_nil_r. Qed.

Lemma account_same w w' w'' : account w w' → same_email w' w'' → account w w''.
Proof.
  intros [(new & Hm) Hp Hk Ho] [Hm' _ _ Hr].
  assert (w_mails w'' = w_mails w' ++ []) as Hnil by (by rewrite app_nil_r).
  split.
  - exists new. congruence.
  - intros k. by rewrite Hr.
  - intros k. unfold marked. rewrite Hr. intros H. destruct (Hk k H) as [?|?]; [by left|].
    right. by eapply mailed_app.
  - intros k H. unfold owed. rewrite Hr. destruct (Ho k H) as [?|?]; [by left|].
    right. by eapply mailed_app.
Qed.

(** A message more. *)
Lemma account_mail w w' m : account w w' → account w (add_mail m w').
Proof.
  intros [(new & Hm) Hp Hk Ho]. split.
  - exists (new ++ [m]). simpl. by rewrite Hm, app_assoc.
  - exact Hp.
  - intros k H. destruct (Hk k H) as [?|?]; [by left|]. right. by eapply mailed_app.
  - intros k H. destruct (Ho k H) as [?|?]; [by left|]. right. by eapply mailed_app.
Qed.

Lemma mailed_add part w w' m k :
  account w w' → k ∈ alertIDs (part m) → mailed part w (add_mail m w') k.
Proof.
  intros [(new & Hm) _ _ _] Hk. exists (new ++ [m]), m. simpl. rewrite Hm, app_assoc.
  split; [done|]. split; [|done]. apply elem_of_app. right. by left.
Qed.

(** Marking rows that were mailed. *)
Lemma email_row_update cond f w k :
  email_row (set_tables (set_states (update_where cond f) (w_tables w)) w) k =
  (λ r, let r := if cond k r then f r else r in
        (st_IsPresent r, st_LastEmail r, st_EmailPending r)) <$> states (w_tables w) !! k.
Proof.
  unfold email_row. simpl. rewrite lookup_update_where.
  by destruct (states (w_tables w) !! k).
Qed.

Lemma account_mark_active w w' ids now :
  account w w' → (∀ k, k ∈ ids → mailed ml_Active w w' k) →
  account w (set_tables (set_states (update_where (λ k _, in_ids ids k)
    (mark_state (λ _, Some now) keep keep keep now)) (w_tables w')) w').
Proof.
  intros [Hm Hp Hk Ho] Hids. split.
  - exact Hm.
  - intros k. rewrite <-Hp, email_row_update. unfold email_row.
    destruct (states (w_tables w') !! k) as [r|]; [|done]. simpl.
    by destruct (in_ids ids k).
  - intros k (p & t & q & H). rewrite email_row_update in H.
    destruct (in_ids ids k) eqn:Hin.
    + right. apply Hids. unfold in_ids in Hin. by bool_to_prop.
    + apply (Hk k). exists p, t, q. exact H.
  - intros k H. destruct (Ho k H) as [(p & t & H')|?]; [left|by right].
    unfold owed. rewrite email_row_update. unfold email_row in H'.
    destruct (states (w_tables w') !! k) as [r|]; [|done]. simpl in *.
    injection H' as <- <- Hq. destruct (in_ids ids k); simpl; unfold keep;
      rewrite Hq; eauto.
Qed.

Lemma account_mark_resolved w w' ids now :
  account w w' → (∀ k, k ∈ ids → mailed ml_Resolved w w' k) →
  account w (set_tables (set_states (update_where (λ k _, in_ids ids k)
    (mark_state keep keep (λ _, false) keep now)) (w_tables w')) w').
Proof.
  intros [Hm Hp Hk Ho] Hids. split.
  - exact Hm.
  - intros k. rewrite <-Hp, email_row_update. unfold email_row.
    destruct (states (w_tables w') !! k) as [r|]; [|done]. simpl.
    by destruct (in_ids ids k).
  - intros k (p & t & q & H). rewrite email_row_update in H. apply (Hk k).
    unfold marked, email_row. destruct (states (w_tables w') !! k) as [r|]; [|done].
    simpl in *. destruct (in_ids ids k); simplify_eq/=; unfold keep in *;
      match goal with E : st_LastEmail r = _ |- _ => rewrite E end; eauto.
  - intros k H. destruct (in_ids ids k) eqn:Hin.
    + right. apply Hids. unfold in_ids in Hin. by bool_to_prop.
    + destruct (Ho k H) as [(p & t & H')|?]; [left|by right].
      unfold owed. rewrite email_row_update, Hin. eauto.
Qed.

(** ** Lemmas: selection *)

(** [lookup] answers which of the given alerts are marked in [sent], with one
    query or with none. *)
Definition looks_up (lookup : list string → prog Tables (gset string))
    (sent : Tables → string → bool) : Prop :=
  ∀ ids, ∃ f, (∀ t k, k ∈ f t ↔ k ∈ ids ∧ sent t k = true) ∧
    (lookup ids = query f ∨ ∀ t, lookup ids = Ret (Ok (f t))).

Lemma always_looks_up lookup sent ids t (Q : result (gset string) → Tables → Prop) :
  looks_up lookup sent → (∀ e, Q (Err e) t) →
  (∀ s, (∀ k, k ∈ s ↔ k ∈ ids ∧ sent t k = true) → Q (Ok s) t) →
  always (lookup ids) Q t.
Proof.
  intros Hl He Ho. destruct (Hl ids) as (f & Hf & [-> | H]).
  - apply always_query; [done|]. by apply Ho.
  - rewrite (H t). by apply always_Ret, Ho.
Qed.

Lemma run_looks_up lookup sent ids t :
  looks_up lookup sent →
  ∃ s, run (lookup ids) t = (Ok s, t) ∧ ∀ k, k ∈ s ↔ k ∈ ids ∧ sent t k = true.
Proof.
  intros Hl. destruct (Hl ids) as (f & Hf & [-> | H]); exists (f t); [by rewrite run_query|].
  by rewrite (H t), run_ret.
Qed.

Definition pushed (t : Tables) (k : string) : bool :=
  match states t !! k with
  | Some r => st_IsPresent r && bool_decide (is_Some (st_LastPush r))
  | None => false
  end.
Definition telegrammed (destinationID : Z) (t : Tables) (k : string) : bool :=
  match deliveries t !! (k, destinationID) with
  | Some d => bool_decide (is_Some (dl_ActiveSent d))
  | None => false
  end.

Lemma looks_up_nil (sent : Tables → string → bool) :
  ∀ t k, k ∈ (∅ : gset string) ↔ k ∈ [] ∧ sent t k = true.
Proof. intros t k. split; [set_solver|]. intros [H _]. by apply not_elem_of_nil in H. Qed.

Lemma looks_up_list_sent (sent : AlertState → option Time) :
  looks_up (list_sent sent) (λ t k, match states t !! k with
    | Some r => st_IsPresent r && bool_decide (is_Some (sent r)) | None => false end).
Proof.
  intros ids. unfold list_sent. destruct ids as [|k0 ids]; cbn [is_nil].
  { exists (λ _, ∅). split; [apply looks_up_nil|by right]. }
  set (ids' := k0 :: ids) in *. clearbody ids'. clear k0 ids.
  eexists. split; [|by left]. intros t k. rewrite elem_of_dom.
  unfold is_Some. setoid_rewrite map_lookup_filter_Some. simpl. unfold in_ids. split.
  - intros (r & Hr & Hb). bool_to_prop. rewrite Hr, H1. by rewrite bool_decide_true.
  - intros [Hin Hb]. destruct (states t !! k) as [r|]; [|done].
    exists r. split; [done|]. rewrite bool_decide_true by done. by simpl.
Qed.

Lemma looks_up_telegram destinationID :
  looks_up (ListCriticalTelegramSentAlertIDs destinationID) (telegrammed destinationID).
Proof.
  intros ids. unfold ListCriticalTelegramSentAlertIDs.
  destruct ids as [|k0 ids]; cbn [is_nil].
  { exists (λ _, ∅). split; [apply looks_up_nil|by right]. }
  eexists. split; [|by left]. intros t k. unfold telegrammed.
  by rewrite elem_of_list_to_set, elem_of_filter_bool.
Qed.

(** What a channel still has to send. *)
Definition to_send (sent : string → bool) (suppressed : gmap string Time)
    (alerts : list Alert) : list Alert :=
  List.filter (λ a, candidate suppressed a && negb (sent (al_ID a))) alerts.

Lemma to_send_lookup sent suppressed alerts (s : gset string) :
  (∀ k, k ∈ s ↔ k ∈ alertIDs (List.filter (candidate suppressed) alerts) ∧
    sent k = true) →
  List.filter (λ a, negb (bool_decide (al_ID a ∈ s)))
    (List.filter (candidate suppressed) alerts) = to_send sent suppressed alerts.
Proof.
  unfold to_send, alertIDs. intros Hs.
  assert (∀ a, a ∈ alerts → candidate suppressed a = true →
    bool_decide (al_ID a ∈ s) = sent (al_ID a)) as Heq.
  { intros a Ha Hc. apply eq_true_iff_eq. rewrite bool_decide_eq_true, Hs.
    split; [by intros [_ ?]|]. intros Hx. split; [|done].
    apply list_elem_of_fmap. exists a. split; [done|]. by apply elem_of_filter_bool. }
  clear Hs. induction alerts as [|a alerts IH]; [done|]. simpl.
  rewrite <-IH by (intros; apply Heq; [by right|done]).
  destruct (candidate suppressed a) eqn:Hc; [|done]. simpl.
  rewrite Heq by (by left || done). by destruct (sent (al_ID a)).
Qed.

Lemma always_pending lookup sent alerts suppressed w
    (Q : result (list Alert) → World → Prop) :
  looks_up lookup sent → (∀ e, Q (Err e) w) →
  Q (Ok (to_send (sent (w_tables w)) suppressed alerts)) w →
  always (criticalAlertsPending alerts suppressed lookup) Q w.
Proof.
  intros Hl He Ho. unfold criticalAlertsPending. apply always_bind, always_wrap_err,
    always_db, (always_looks_up _ _ _ _ _ Hl);
    [intros e; rewrite set_tables_id; apply He|].
  intros s Hs. rewrite set_tables_id. apply always_Ret. by rewrite (to_send_lookup _ _ _ s Hs).
Qed.

Lemma run_pending lookup sent alerts suppressed w :
  looks_up lookup sent →
  run (criticalAlertsPending alerts suppressed lookup) w =
  (Ok (to_send (sent (w_tables w)) suppressed alerts), w).
Proof.
  intros Hl. unfold criticalAlertsPending. rewrite run_bind, run_wrap_err, run_db.
  destruct (run_looks_up lookup sent (alertIDs (List.filter (candidate suppressed) alerts))
    (w_tables w) Hl) as (s & -> & Hs).
  unfold mret, prog_ret. by rewrite run_ret, set_tables_id, (to_send_lookup _ _ _ s Hs).
Qed.

Lemma elem_of_to_send sent suppressed alerts a :
  a ∈ to_send sent suppressed alerts ↔
  a ∈ alerts ∧ candidate suppressed a = true ∧ sent (al_ID a) = false.
Proof.
  unfold to_send. rewrite elem_of_filter_bool, andb_true_iff, negb_true_iff. tauto.
Qed.

(** ** Lemmas: the email channel *)

Lemma always_deliver recipients subject selected resolved now w
    (Q : result () → World → Prop) :
  (∀ e b, Q (Err e) (set_backoff (λ _, b) w)) →
  (∀ e b, Q (Err e) (set_backoff (λ _, b)
    (add_mail (Build_Mail recipients subject selected resolved) w))) →
  (∀ b, Q (Ok ()) (set_backoff (λ _, b)
    (add_mail (Build_Mail recipients subject selected resolved) w))) →
  always (deliver recipients subject selected resolved now) Q w.
Proof.
  intros He Hq Ho. apply always_andThen, always_bind, always_stmt.
  - intros e. apply always_bind, always_local, always_Ret, He.
  - intros [] w' [= <-]. apply always_stmt.
    + intros e. apply always_bind, always_local, always_Ret, Hq.
    + intros [] w' [= <-]. apply always_bind, always_local, always_Ret, Ho.
Qed.

Lemma account_backoff w w' f : account w w' → account w (set_backoff f w').
Proof. intros []. by split. Qed.

Lemma account_set_batch w w' b :
  account w w' → account w (set_tables (set_batch b (w_tables w')) w').
Proof. intros []. by split. Qed.


(** *** What is known of the email channel at each step of a dispatch *)

(** [sel]: the active alerts of the messages sent since [w0] are among it. *)
Record email_step (sel : list Alert) (w0 w : World) : Prop := {
  es_account : account w0 w;
  es_within : ∃ new, w_mails w = w_mails w0 ++ new ∧ Forall (λ m, ml_Active m ⊆ sel) new
}.

Lemma email_step_refl sel w : email_step sel w w.
Proof. split; [apply account_refl|]. exists []. by rewrite app_nil_r. Qed.

Lemma email_step_weaken sel w0 w w' :
  email_step sel w0 w → account w0 w' → w_mails w' = w_mails w → email_step sel w0 w'.
Proof. intros [_ (new & Hw & Hf)] Ha Hm. split; [done|]. exists new. by rewrite Hm. Qed.

Lemma email_step_backoff sel w0 w f :
  email_step sel w0 w → email_step sel w0 (set_backoff f w).
Proof. intros H. eapply email_step_weaken; [done|by apply account_backoff, H|done]. Qed.

Lemma email_step_mail sel w0 w m :
  ml_Active m ⊆ sel → email_step sel w0 w → email_step sel w0 (add_mail m w).
Proof.
  intros Hm [Ha (new & Hw & Hf)]. split; [by apply account_mail|].
  exists (new ++ [m]). simpl. rewrite Hw, app_assoc. split; [done|].
  apply Forall_app. auto.
Qed.

Section steps.
Context (sel : list Alert) (w0 : World).

Lemma step_deliver recipients subject selected resolved now w :
  email_step sel w0 w → selected ⊆ sel →
  always (deliver recipients subject selected resolved now) (λ r w',
    email_step sel w0 w' ∧ (r = Ok () →
      (∀ k, k ∈ alertIDs selected → mailed ml_Active w0 w' k) ∧
      (∀ k, k ∈ alertIDs resolved → mailed ml_Resolved w0 w' k))) w.
Proof.
  intros Hs Hsel. apply always_deliver.
  - intros e b. split; [by apply email_step_backoff|done].
  - intros e b. split; [by apply email_step_backoff, email_step_mail|done].
  - intros b. split; [by apply email_step_backoff, email_step_mail|]. intros _.
    set (m := Build_Mail recipients subject selected resolved).
    split; intros k Hk; [apply (mailed_add ml_Active _ _ m)|apply (mailed_add ml_Resolved _ _ m)];
      by try apply Hs.
Qed.

Lemma step_mark_active ids now w :
  email_step sel w0 w → (∀ k, k ∈ ids → mailed ml_Active w0 w k) →
  always (db (MarkAlertCriticalEmailsSent ids now)) (λ _ w',
    email_step sel w0 w' ∧ w_mails w' = w_mails w) w.
Proof.
  intros Hs Hids. apply always_db. unfold MarkAlertCriticalEmailsSent.
  assert (email_step sel w0 (set_tables (w_tables w) w)) by by rewrite set_tables_id.
  destruct (is_nil ids); [by apply always_Ret|].
  apply always_stmt; intros; simplify_eq/=; (split; [|done]); [done|].
  eapply email_step_weaken; [done|by apply account_mark_active; [apply Hs|]|done].
Qed.

Lemma step_mark_resolved ids now w :
  email_step sel w0 w → (∀ k, k ∈ ids → mailed ml_Resolved w0 w k) →
  always (db (MarkAlertResolutionEmailsSent ids now)) (λ _ w', email_step sel w0 w') w.
Proof.
  intros Hs Hids. apply always_db. unfold MarkAlertResolutionEmailsSent.
  assert (email_step sel w0 (set_tables (w_tables w) w)) by by rewrite set_tables_id.
  destruct (is_nil ids); [by apply always_Ret|].
  apply always_stmt; intros; simplify_eq/=; [done|].
  eapply email_step_weaken; [done|by apply account_mark_resolved; [apply Hs|]|done].
Qed.

(** A method of the store that changes at most the batch. *)
Lemma step_batch {A} (p : prog Tables A) w :
  (∀ t, preserves (λ t', ∃ b, t' = set_batch b t) p) →
  email_step sel w0 w → always (db p) (λ _ w', email_step sel w0 w') w.
Proof.
  intros Hp Hs. apply always_db. eapply always_mono.
  - apply (always_preserves _ p _ (Hp (w_tables w))). exists (batch (w_tables w)).
    by destruct (w_tables w).
  - intros r t [b ->]. eapply email_step_weaken; [done|by apply account_set_batch, Hs|done].
Qed.
End steps.

Lemma preserves_batch_due minutes pending now t :
  preserves (λ t', ∃ b, t' = set_batch b t) (AlertEmailBatchDue minutes pending now).
Proof.
  unfold AlertEmailBatchDue. case_match; (apply preserves_bind; [|intros []]).
  - apply preserves_exec_sql. intros t' [b ->]. by exists None.
  - constructor.
  - apply preserves_exec_sql. intros t' [b ->]. destruct (batch _); eexists; done.
  - apply preserves_bind; [|constructor]. apply preserves_stmt.
    intros t' s t'' Ht' Hs. case_match; [|done]. by injection Hs as _ <-.
Qed.

Lemma preserves_clear_batch t :
  preserves (λ t', ∃ b, t' = set_batch b t) ClearAlertEmailBatch.
Proof. apply preserves_exec_sql. intros t' [b ->]. by exists None. Qed.

(** Under every fault, a dispatch sends only pending alerts, and marks only what it
    sent. *)
Lemma always_dispatch `{!SqlOrder} cfg recipients alerts suppressed now w0 w :
  let sel := to_send (emailed (w_tables w)) suppressed alerts in
  email_step sel w0 w →
  always (dispatchImmediateEmail cfg recipients alerts suppressed now)
    (λ _ w', email_step sel w0 w') w.
Proof.
  cbv zeta. set (sel := to_send _ _ _). intros Hr. unfold dispatchImmediateEmail.
  apply always_bind, (always_pending _ emailed);
    [apply (looks_up_list_sent st_LastEmail)|done|].
  fold sel. apply always_bind, always_wrap_err, always_db, always_query;
    rewrite set_tables_id; [done|].
  set (resolved := _ <$> _). clearbody resolved.
  apply always_bind, always_wrap_err. eapply always_mono;
    [apply step_batch, Hr; intros; apply preserves_batch_due|].
  clear Hr. intros [due|e] w1 Hs; [|done].
  apply always_bind, always_local. cbn [fst snd].
  destruct (negb due || _); [by apply always_Ret|].
  apply always_bind. eapply always_mono with (Q := λ _ w', email_step sel w0 w').
  2:{ intros [[]|e] w2 Hs2; [|done].
      apply step_batch; [intros; apply preserves_clear_batch|done]. }
  destruct (0 <? ec_AlertEmailBatchMinutes cfg).
  - apply always_bind. eapply always_mono; [by apply step_deliver|].
    intros [[]|e] w2 [Hs2 Hm]; [|done]. destruct (Hm eq_refl) as [Ha Hres].
    apply always_bind. eapply always_mono; [by apply step_mark_active|].
    intros [[]|e] w3 [Hs3 Hw3]; [|done]. apply step_mark_resolved; [done|].
    intros k Hk. destruct (Hres k Hk) as (new & m & Hnew & ?). exists new, m.
    by rewrite Hw3.
  - apply always_bind. eapply always_mono with (Q := λ _ w', email_step sel w0 w').
    + destruct (is_nil sel); [by apply always_Ret|].
      apply always_bind. eapply always_mono; [by apply step_deliver|].
      intros [[]|e] w2 [Hs2 Hm]; [|done]. eapply always_mono;
        [apply step_mark_active; [done|]; by apply (Hm eq_refl)|by intros ? ? []].
    + intros [[]|e] w2 Hs2; [|done]. destruct (is_nil resolved); [by apply always_Ret|].
      apply always_bind. eapply always_mono; [apply step_deliver; [done|]|].
      { intros a Ha. by apply not_elem_of_nil in Ha. }
      intros [[]|e] w3 [Hs3 Hm]; [|done]. apply step_mark_resolved; [done|].
      by apply (Hm eq_refl).
Qed.

(** *** A dispatch without an error has reached the alert, unless it waits *)

Section reaches.
Context (to : list string) (w0 : World) (a : Alert).







End reaches.





(** *** Without faults no step of a dispatch fails *)









(** ** Lemmas: the other channels do not touch the email channel *)

Definition same_email_tables (t t' : Tables) : Prop :=
  batch t' = batch t ∧ ∀ k,
    (λ r, (st_IsPresent r, st_LastEmail r, st_EmailPending r)) <$> states t' !! k =
    (λ r, (st_IsPresent r, st_LastEmail r, st_EmailPending r)) <$> states t !! k.

Lemma preserves_same_db (w0 : World) {A} (p : prog Tables A) :
  preserves (same_email_tables (w_tables w0)) p → preserves (same_email w0) (db p).
Proof.
  apply preserves_lift.
  - intros w [_ _ Hb Hr]. by split.
  - intros w t [Hm Hk Hb Hr] [Hb' Hr']. by split.
Qed.

Lemma preserves_push_mark (w0 : World) cond push pushPending now :
  preserves (same_email w0) (db (exec_sql (set_states (update_where cond
    (mark_state keep push keep pushPending now))))).
Proof.
  apply preserves_same_db, preserves_exec_sql. intros t [Hb Hr]. split; [done|].
  intros k. rewrite <-Hr. simpl. rewrite lookup_update_where.
  destruct (states t !! k) as [r|]; [|done]. simpl. by destruct (cond k r).
Qed.

Lemma preserves_deliveries (w0 : World) (f : gmap (string * Z) Delivery → gmap (string * Z) Delivery) :
  preserves (same_email_tables (w_tables w0)) (exec_sql (set_deliveries f)).
Proof. apply preserves_exec_sql. by intros t [Hb Hr]. Qed.

Lemma preserves_same_exec (w0 : World) (f : World → World) :
  (∀ w, w_tables (f w) = w_tables w ∧ w_mails (f w) = w_mails w ∧
        w_backoff (f w) = w_backoff w) →
  preserves (same_email w0) (exec_sql f).
Proof.
  intros Hf. apply preserves_exec_sql. intros w [Hm Hk Hb Hr].
  destruct (Hf w) as (Ht & Hm' & Hk'). split; unfold email_row in *; rewrite ?Ht; congruence.
Qed.

Ltac keeps :=
  repeat first
    [ apply preserves_Ret | apply preserves_query
    | apply preserves_same_db, preserves_query
    | apply preserves_push_mark
    | apply preserves_same_exec; by intros
    | apply preserves_wrap_err
    | apply preserves_bind; [|intros ?]
    | apply preserves_andThen; [|intros ?]
    | progress unfold mret, prog_ret, finish
    | case_match ].

Section frames.
Context (w0 : World).

Lemma same_pending lookup alerts suppressed :
  (∀ ids, preserves (same_email_tables (w_tables w0)) (lookup ids)) →
  preserves (same_email w0) (criticalAlertsPending alerts suppressed lookup).
Proof.
  intros Hl. unfold criticalAlertsPending. apply preserves_bind; [|intros ?; constructor].
  apply preserves_wrap_err, preserves_same_db, Hl.
Qed.

Lemma same_list_sent sent ids :
  preserves (same_email_tables (w_tables w0)) (list_sent sent ids).
Proof. unfold list_sent. keeps. Qed.

Lemma same_telegram_sent d ids :
  preserves (same_email_tables (w_tables w0)) (ListCriticalTelegramSentAlertIDs d ids).
Proof. unfold ListCriticalTelegramSentAlertIDs. keeps. Qed.

Lemma same_deliver_all n subs k : preserves (same_email w0) (deliver_all n subs k).
Proof.
  revert k. induction subs as [|s subs IH]; intros k; cbn [deliver_all]; [keeps|].
  apply preserves_andThen; [unfold deliverFn; keeps|]. intros [[]|e]; [apply IH|].
  apply preserves_bind; [|intros; apply IH].
  unfold pruneIfGone, RemovePushSubscription. keeps.
Qed.

Lemma same_send alerts link resolved now :
  preserves (same_email w0) (send alerts link resolved now).
Proof.
  unfold send, push_getter, GetPushConfig, ListAllPushSubscriptions.
  case_match; [constructor|]. apply preserves_bind; [keeps|]. intros cfg.
  case_match; [constructor|]. apply preserves_andThen; [keeps|].
  intros [[|s subs]|e]; [constructor|apply same_deliver_all|constructor].
Qed.

Lemma same_dispatchPush alerts link resolved now :
  preserves (same_email w0) (dispatchPush alerts link resolved now).
Proof.
  unfold dispatchPush. apply preserves_bind; [apply same_send|]. intros n.
  unfold MarkAlertResolutionPushesSent, MarkAlertCriticalPushesSent. keeps.
Qed.

Lemma same_push `{!SqlOrder} alerts suppressed now :
  preserves (same_email w0) (push_channel alerts suppressed now).
Proof.
  unfold push_channel. apply preserves_bind; [|intros _].
  - apply preserves_andThen; [apply same_pending; intros; apply same_list_sent|].
    intros [[|a l]|e]; [constructor|apply same_dispatchPush|constructor].
  - apply preserves_andThen; [apply preserves_same_db, preserves_query|].
    intros [[|a l]|e]; [constructor|apply same_dispatchPush|constructor].
Qed.

Lemma same_half username marking pending f deliver mark :
  (∀ l, preserves (same_email w0) (deliver l)) →
  (∀ ids, preserves (same_email_tables (w_tables w0)) (mark ids)) →
  preserves (same_email w0) (telegram_half username marking pending f deliver mark).
Proof.
  intros Hd Hm. unfold telegram_half. keeps; [apply Hd|]. apply preserves_same_db, Hm.
Qed.

Context `{!MapRange, !SqlOrder, !ReadStore}.

Lemma same_SendAlerts d alerts link resolved :
  preserves (same_email w0) (SendAlerts d alerts link resolved).
Proof.
  unfold SendAlerts, GetTelegramConfig, sendMessage, check, fail. keeps.
Qed.

Lemma same_telegram_one alerts suppressed now d st :
  preserves (same_email w0) (dispatchTelegram_one alerts suppressed now d st).
Proof.
  unfold dispatchTelegram_one. apply preserves_bind; [|intros a].
  - apply preserves_andThen; [apply same_pending; intros; apply same_telegram_sent|].
    intros r. apply same_half; [intros; apply same_SendAlerts|]. intros ids.
    unfold MarkAlertCriticalTelegramsSent. case_match; [constructor|].
    apply preserves_tx, preserves_for_each. intros k. apply preserves_stmt.
    intros t [] t' [Hb Hr]. case_match; [|done]. by intros [= <-].
  - apply preserves_bind; [|intros; constructor].
    apply preserves_andThen; [unfold ListPendingAlertResolutionTelegrams; keeps|].
    intros r. apply same_half; [intros; apply same_SendAlerts|]. intros ids.
    unfold MarkAlertResolutionTelegramsSent. case_match; [constructor|].
    apply preserves_deliveries.
Qed.

Lemma same_recordDelivery err now : preserves (same_email w0) (recordDelivery err now).
Proof. unfold recordDelivery, RecordTelegramDelivery. keeps. Qed.

Lemma same_telegram ready alerts suppressed now :
  preserves (same_email w0) (dispatchTelegram ready alerts suppressed now).
Proof.
  unfold dispatchTelegram. destruct (negb ready); [constructor|].
  apply preserves_andThen; [unfold ListActiveTelegramDestinations; keeps|].
  intros [ds|e].
  - apply preserves_bind.
    + generalize (@None error, false) as st. induction ds as [|d ds IH]; intros st;
        cbn [dispatchTelegram_all]; [constructor|].
      apply preserves_bind; [apply same_telegram_one|intros st'; apply IH].
    + intros [err attempted]. apply preserves_bind; [|intros _; unfold finish, fail; keeps].
      case_match; [apply same_recordDelivery|constructor].
  - apply preserves_bind; [apply same_recordDelivery|intros; constructor].
Qed.
End frames.

(** ** Lemmas: the run *)

(** A synchronisation either failed and changed nothing, or did its whole work. *)
Lemma always_sync `{!MapRange} raw runErr now w (Q : result () → World → Prop) :
  NoDup (al_ID <$> raw) → (∀ e, Q (Err e) w) →
  (∀ t, synced now (negb (is_partial runErr)) raw (w_tables w) t → Q (Ok ()) (set_tables t w)) →
  always (db (SyncAlertStatesFor raw runErr now)) Q w.
Proof.
  intros Hnd He Ho. apply always_db. intros io. unfold SyncAlertStatesFor.
  assert ((if is_partial runErr then SyncPartialAlertStates raw now
    else SyncAlertStates raw now) = syncAlertStates raw (negb (is_partial runErr)) now)
    as -> by by destruct (is_partial runErr).
  destruct (exec _ io (w_tables w)) as [[[[]|e] t'] io'] eqn:Hx.
  - apply strict_Ok in Hx; [|apply strict_syncAlertStates].
    destruct (run_syncAlertStates now (negb (is_partial runErr)) raw (w_tables w) Hnd)
      as (u & Hu & Hs). rewrite Hu in Hx. injection Hx as <-. by apply Ho.
  - apply exec_tx_atomic in Hx as ->. rewrite set_tables_id. apply He.
Qed.

Lemma emailed_row w k :
  emailed (w_tables w) k =
  match email_row w k with Some (true, Some _, _) => true | _ => false end.
Proof.
  unfold emailed, email_row. destruct (states (w_tables w) !! k) as [r|]; [|done].
  simpl. by destruct (st_IsPresent r), (st_LastEmail r).
Qed.

Lemma to_send_ext f g suppressed alerts :
  (∀ k, f k = g k) → to_send f suppressed alerts = to_send g suppressed alerts.
Proof. intros H. unfold to_send. induction alerts as [|a l IH]; [done|]. simpl. by rewrite IH, H. Qed.

Lemma filter_maintenance_subset answer alerts : filter_maintenance answer alerts ⊆ alerts.
Proof.
  unfold filter_maintenance. repeat case_match; try done. apply sublist_subseteq,
    filter_bool_sublist.
Qed.

Section run.
Context `{!MapRange, !SqlOrder, !ReadStore}.

Lemma always_channels cfg push telegram alerts suppressed runErr now w :
  always (deliver_channels cfg push telegram alerts suppressed runErr now)
    (λ _ w', email_step (to_send (emailed (w_tables w)) suppressed alerts) w w') w.
Proof.
  unfold deliver_channels. apply always_andThen.
  eapply always_mono; [apply (always_preserves (same_email w)); [|apply same_email_refl]|].
  { destruct push; [apply same_push|constructor]. }
  intros r0 w1 Hpush. apply always_andThen.
  eapply always_mono; [apply (always_preserves (same_email w)); [apply same_telegram|exact Hpush]|].
  clear Hpush w1. intros r w1 Hw1. cbv zeta.
  set (sel := to_send _ _ _).
  assert (email_step sel w w1) as Hs.
  { split; [eapply account_same; [apply account_refl|exact Hw1]|].
    exists []. rewrite app_nil_r. split; [apply Hw1|constructor]. }
  assert (∀ err w', email_step sel w w' →
    always (finish err) (λ _ w', email_step sel w w') w') as Hfin.
  { intros [e|] w'; intros; by apply always_Ret. }
  destruct (negb _); [by apply Hfin|]. destruct (email_recipients cfg); [|by apply Hfin].
  apply always_andThen.
  assert (sel = to_send (emailed (w_tables w1)) suppressed alerts) as Hsel.
  { apply to_send_ext. intros k. by rewrite !emailed_row, (se_rows _ _ Hw1). }
  eapply always_mono; [apply (always_dispatch _ _ _ _ _ w); rewrite <-Hsel; exact Hs|].
  rewrite <-Hsel. intros r' w' Hs'. by apply Hfin.
Qed.

(** The raw alerts of a run. *)
Definition evaluated (loc : Location) (rep : option ReportService) (now : Time) :
    list Alert :=
  match LoadAlertConfigs with
  | Ok cfg => (RunAll now loc (set_report cfg rep)).1
  | Err _ => []
  end.

(** The channels worked on the recorded evaluation. *)
Definition after_sync (now : Time) (raw : list Alert) (w w' : World) : Prop :=
  ∃ complete t alerts suppressed, synced now complete raw (w_tables w) t ∧
    alerts ⊆ raw ∧
    email_step (to_send (emailed t) suppressed alerts) (set_tables t w) w'.

Lemma always_push_ready w (Q : result bool → World → Prop) :
  (∀ b, Q (Ok b) w) → always push_ready Q w.
Proof.
  intros HQ. unfold push_ready, push_getter. apply always_bind, always_andThen.
  apply always_query; intros; apply always_Ret; cbn beta iota;
    (destruct (negb _); [by apply always_Ret|]); apply always_andThen, always_query;
    intros; by apply always_Ret.
Qed.

Lemma always_telegram_ready w (Q : result bool → World → Prop) :
  (∀ b, Q (Ok b) w) → always telegram_ready Q w.
Proof.
  intros HQ. unfold telegram_ready. apply always_andThen, always_query;
    [intros; by apply always_Ret|].
  case_match; [by apply always_Ret|]. apply always_andThen, always_db, always_query;
    rewrite set_tables_id; intros; by apply always_Ret.
Qed.

Lemma always_run_alerts loc rep senders now w :
  NoDup (al_ID <$> evaluated loc rep now) →
  always (run_alerts loc rep senders now)
    (λ _ w', w' = w ∨ after_sync now (evaluated loc rep now) w w') w.
Proof.
  unfold evaluated, run_alerts. intros Hnd.
  destruct GetEmailConfig as [cfg|e]; [|apply always_Ret; by left].
  apply always_bind. apply always_mono with (Q := λ _ w', w' = w).
  { destruct senders.1; [by apply always_push_ready|by apply always_Ret]. }
  intros [push|e] w1 ->; [|by left].
  apply always_bind. apply always_mono with (Q := λ _ w', w' = w).
  { destruct senders.2; [by apply always_telegram_ready|by apply always_Ret]. }
  intros [telegram|e] w1 ->; [|by left].
  destruct LoadAlertConfigs as [acfg|e]; [|apply always_Ret; by left].
  destruct (RunAll now loc (set_report acfg rep)) as [raw runErr]. cbn [fst] in Hnd |- *.
  assert (∀ err w', (w' = w ∨ after_sync now raw w w') → always (finish err)
    (λ _ w', w' = w ∨ after_sync now raw w w') w') as Hfin.
  { intros [e|] w'; intros; by apply always_Ret. }
  apply always_bind. apply always_mono with (Q := λ _ w', w' = w).
  { repeat case_match; by apply always_Ret. }
  intros [[]|e] w1 ->; [|by left].
  apply always_andThen, always_sync; [done|intros e; apply Hfin; by left|].
  intros t Ht. set (w2 := set_tables t w).
  assert (after_sync now raw w w2) as Hsync.
  { eexists _, t, raw, ∅. split; [done|]. split; [done|]. apply email_step_refl. }
  destruct (negb _ && _ && _); [apply Hfin; by right|].
  apply always_andThen. apply always_mono with (Q := λ _ w', w' = w2).
  { destruct (is_nil raw); [by apply always_Ret|].
    apply always_db, always_query; by rewrite ?set_tables_id. }
  intros maintenance w3 ->. apply always_andThen, always_db, always_query; intros;
    rewrite set_tables_id; (eapply always_mono; [apply always_channels|]);
    intros r' w4 Hs; right; eexists _, t, (filter_maintenance maintenance raw), _;
    (split; [done|]); (split; [apply filter_maintenance_subset|]); exact Hs.
Qed.

Lemma always_send_alerts loc rep senders now w :
  NoDup (al_ID <$> evaluated loc rep now) →
  always (sendImmediateCriticalAlerts loc rep senders now)
    (λ _ w', ∃ b b' w1, w' = set_locked b w1 ∧
      (w1 = set_locked b' w ∨
       after_sync now (evaluated loc rep now) (set_locked b' w) w1)) w.
Proof.
  intros Hnd. unfold sendImmediateCriticalAlerts. destruct rep as [rp|].
  - apply always_bind, always_local. cbn [fst snd]. destruct (negb (negb _)).
    { apply always_Ret. exists true, true, (set_locked true w). split; [done|by left]. }
    apply always_andThen. eapply always_mono; [by apply always_run_alerts|].
    intros r w' Hw. apply always_bind, always_local, always_Ret. cbn [fst snd].
    exists false, true, w'. by split.
  - eapply always_mono; [by apply always_run_alerts|]. intros r w' Hw.
    exists (w_locked w'), (w_locked w), w'. destruct w', w. by split.
Qed.
End run.





Section run_without_faults.
Context `{!MapRange, !SqlOrder, !ReadStore}.

Lemma run_ready (senders : bool * bool) w :
  (∃ b, run (if senders.1 then push_ready else mret false) w = (Ok b, w)) ∧
  (∃ b, run (if senders.2 then telegram_ready else mret false) w = (Ok b, w)).
Proof.
  assert (∀ p : prog World bool, always p (λ r w', w' = w ∧ ∃ b, r = Ok b) w →
    ∃ b, run p w = (Ok b, w)) as Hp.
  { intros p Hq. apply always_run in Hq as [Hw [b Hb]]. exists b.
    destruct (run p w). simpl in *. by subst. }
  split; apply Hp.
  - destruct senders.1; [apply always_push_ready|apply always_Ret]; eauto.
  - destruct senders.2; [apply always_telegram_ready|apply always_Ret]; eauto.
Qed.






Section channels.
Context (cfg : EmailConfig) (recipients : list string) (runErr : option error) (now : Time)
  (a : Alert).
Context (Hen : ec_CriticalAlertsEnabled cfg = true).
Context (Hrec : email_recipients cfg = Ok recipients).


End channels.

Section reaching.
Context (cfg : EmailConfig) (acfg : AlertConfigs) (recipients : list string) (loc : Location)
  (rep : option ReportService) (senders : bool * bool) (now : Time) (raw : list Alert)
  (runErr : option error) (a : Alert).
Context (Hcfg : GetEmailConfig = Ok cfg) (Hacfg : LoadAlertConfigs = Ok acfg).
Context (Hraw : RunAll now loc (set_report acfg rep) = (raw, runErr)).
Context (Hpartial : runErr = None ∨ is_partial runErr = true).
Context (Hnd : NoDup (al_ID <$> raw)) (Hen : ec_CriticalAlertsEnabled cfg = true).
Context (Hrec : email_recipients cfg = Ok recipients).
Context (Ha : a ∈ raw) (Hcrit : shouldSendImmediateCriticalEmail a = true).




End reaching.
End run_without_faults.

(** ** Properties *)

Section properties.
Context `{!MapRange, !SqlOrder, !ReadStore}.


(** C2: an alert recorded as emailed is never listed as active in another email
    while it stays so, whatever fails during the run. *)
Theorem no_resend (loc : Location) (rep : option ReportService)
    (senders : bool * bool) (now : Time) (w : World) (k : string)
    (io : list (option error))
    (Hnd : NoDup (al_ID <$> evaluated loc rep now)) (Hmarked : marked w k) :
  let w' := (exec (sendImmediateCriticalAlerts loc rep senders now) io w).1.2 in
  ¬ mailed ml_Active w w' k.
Proof.
  cbv zeta. pose proof (always_send_alerts loc rep senders now w Hnd io) as H3.
  destruct (exec _ io w) as [[r w'] io']. cbn [fst snd].
  destruct H3 as (b & b' & w1 & -> & [-> | Hafter]);
    intros (new & m & Heq & Hm & Hk).
  - assert (new = []) as -> by (apply (app_inv_head (w_mails w)); by rewrite app_nil_r).
    by apply not_elem_of_nil in Hm.
  - destruct Hafter as (complete & t & alerts & suppressed & Hsync & Hsub & [_ (new' & Hw & Hf)]).
    change (w_mails w1 = w_mails w ++ new) in Heq.
    change (w_mails w1 = w_mails w ++ new') in Hw.
    assert (new' = new) as -> by (apply (app_inv_head (w_mails w)); congruence).
    rewrite Forall_forall in Hf. specialize (Hf m Hm).
    apply list_elem_of_fmap in Hk as (a & -> & Ha).
    apply Hf, elem_of_to_send in Ha as (Hin & _ & Hsent).
    apply Hsub in Hin. destruct Hmarked as (p & at_ & q & Hrow).
    unfold email_row in Hrow. unfold emailed in Hsent.
    rewrite (synced_states _ _ _ _ _ Hsync), (alert_at_NoDup _ a Hnd Hin) in Hsent.
    change (w_tables (set_locked b' w)) with (w_tables w) in Hsent.
    destruct (states (w_tables w) !! al_ID a) as [row|]; [|done].
    simpl in Hrow, Hsent. injection Hrow as _ Hl _. by rewrite Hl in Hsent.
Qed.

(** C3: whatever fails during a run, an alert is recorded as emailed only if an
    email sent in this run lists it as active or it was recorded before; and an
    owed resolution notice is settled only by an email that lists it as resolved,
    or because the alert is present again. *)
Theorem no_mark_without_mail (loc : Location) (rep : option ReportService)
    (senders : bool * bool) (now : Time) (w : World) (k : string)
    (io : list (option error)) (Hnd : NoDup (al_ID <$> evaluated loc rep now)) :
  let w' := (exec (sendImmediateCriticalAlerts loc rep senders now) io w).1.2 in
  (marked w' k → marked w k ∨ mailed ml_Active w w' k) ∧
  (owed w k → owed w' k ∨ mailed ml_Resolved w w' k ∨ k ∈ alertIDs (evaluated loc rep now)).
Proof.
  cbv zeta. pose proof (always_send_alerts loc rep senders now w Hnd io) as H3.
  destruct (exec _ io w) as [[r w'] io']. cbn [fst snd].
  destruct H3 as (b & b' & w1 & -> & [-> | Hafter]); [split; by left|].
  destruct Hafter as (complete & t & alerts & suppressed & Hsync & _ & [[_ _ Hmark Howed] _]).
  pose proof (synced_states _ _ _ _ _ Hsync k) as Hst.
  change (w_tables (set_locked b' w)) with (w_tables w) in Hst. split.
  - intros Hm. destruct (Hmark k Hm) as [(p & at_ & q & Hrow)|?]; [left|by right].
    unfold email_row in Hrow. simpl in Hrow. rewrite Hst in Hrow.
    unfold marked, email_row.
    destruct (states (w_tables w) !! k) as [row|], (alert_at _ k) as [a|]; simpl in *;
      [ | |by simplify_eq|done].
    + injection Hrow as <- Hl <-. rewrite Hl. eauto.
    + destruct (complete && st_IsPresent row); simpl in Hrow; injection Hrow as <- Hl <-;
        [done|]. rewrite Hl. eauto.
  - intros (p & at_ & Hrow). unfold email_row in Hrow.
    destruct (alert_at (evaluated loc rep now) k) as [a|] eqn:Hat.
    { do 2 right. apply find_some in Hat as [Hin Hk]. bool_to_prop. subst k.
      apply list_elem_of_fmap. exists a. split; [done|]. by apply list_elem_of_In. }
    destruct (states (w_tables w) !! k) as [row|]; [|done]. simpl in Hrow.
    injection Hrow as _ _ Hq.
    assert (owed (set_tables t (set_locked b' w)) k) as Ho.
    { unfold owed, email_row. simpl. rewrite Hst. simpl.
      destruct (complete && st_IsPresent row); simpl; [|rewrite Hq; eauto].
      unfold pending_after. rewrite Hq. destruct (_ && _); eauto. }
    destruct (Howed k Ho) as [?|?]; [by left|by right; left].
Qed.

(** each channel sends exactly the alerts that are critical, of an immediate
    type, not suppressed and not marked on that channel (by email and push only
    while present; on Telegram, for that destination), in the evaluation's
    order. *)
Theorem pending_selection (alerts : list Alert) (suppressed : gmap string Time)
    (destinationID : Z) (w : World) :
  run (criticalAlertsPendingEmail alerts suppressed) w =
    (Ok (to_send (emailed (w_tables w)) suppressed alerts), w) ∧
  run (criticalAlertsPendingPush alerts suppressed) w =
    (Ok (to_send (pushed (w_tables w)) suppressed alerts), w) ∧
  run (criticalAlertsPendingTelegram destinationID alerts suppressed) w =
    (Ok (to_send (telegrammed destinationID (w_tables w)) suppressed alerts), w) ∧
  ∀ sent a, a ∈ to_send sent suppressed alerts ↔
    a ∈ alerts ∧ al_Severity a = AlertSeverityCritical ∧
    al_Type a ∉ [AlertTypePBSReportStale; AlertTypePBSStale] ∧
    suppressed !! al_ID a = None ∧ sent (al_ID a) = false.
Proof.
  split_and!.
  - apply (run_pending _ emailed), (looks_up_list_sent st_LastEmail).
  - apply (run_pending _ pushed), (looks_up_list_sent st_LastPush).
  - apply (run_pending _ (telegrammed destinationID)), looks_up_telegram.
  - intros sent a. rewrite elem_of_to_send.
    unfold candidate, shouldSendImmediateCriticalEmail.
    rewrite !andb_true_iff, !negb_true_iff, bool_decide_eq_true, !bool_decide_eq_false.
    rewrite <-eq_None_not_Some. tauto.
Qed.

(** while email pauses after a failure nothing is sent or marked, and a run that
    starts while another one works on the same service does nothing at all. *)
Theorem pauses_respected (cfg : EmailConfig) (recipients : list string)
    (alerts : list Alert) (suppressed : gmap string Time) (loc : Location)
    (rep : ReportService) (senders : bool * bool) (now : Time) (w : World)
    (io : list (option error)) :
  (active (w_backoff w) now = true →
   let w' := (exec (dispatchImmediateEmail cfg recipients alerts suppressed now) io w).1.2 in
   w_mails w' = w_mails w ∧ states (w_tables w') = states (w_tables w)) ∧
  (w_locked w = true →
   exec (sendImmediateCriticalAlerts loc (Some rep) senders now) io w = (Ok (), w, io)).
Proof.
  split; [intros Hactive; cbv zeta|intros Hl].
  - assert (always (dispatchImmediateEmail cfg recipients alerts suppressed now)
      (λ _ w', w_mails w' = w_mails w ∧ states (w_tables w') = states (w_tables w)) w) as H2.
    2:{ specialize (H2 io). by destruct (exec _ io w) as [[r w'] io']. }
    unfold dispatchImmediateEmail. apply always_bind, (always_pending _ emailed);
      [apply (looks_up_list_sent st_LastEmail)|done|].
    apply always_bind, always_wrap_err, always_db, always_query;
      rewrite set_tables_id; [done|].
    apply always_bind, always_wrap_err, always_db. eapply always_mono.
    { apply (always_preserves _ _ _ (preserves_batch_due _ _ _ (w_tables w))).
      exists (batch (w_tables w)). by destruct (w_tables w). }
    intros [due|e] t [b ->]; [|done]. apply always_bind, always_local. cbn [fst snd].
    change (w_backoff (set_tables _ w)) with (w_backoff w). rewrite Hactive, orb_true_r.
    by apply always_Ret.
  - unfold sendImmediateCriticalAlerts, local. simpl. rewrite Hl. simpl.
    f_equal. f_equal. by destruct w; simpl in *; subst.
Qed.

(** when two new alerts of an evaluation carry the same identifier, the run ends
    with an error before any delivery: no channel is told of any alert. *)
Theorem collision_silences_run (cfg : EmailConfig) (acfg : AlertConfigs)
    (loc : Location) (rep : option ReportService) (senders : bool * bool) (now : Time)
    (w : World) (l1 l2 l3 : list Alert) (a b : Alert)
    (Hcfg : GetEmailConfig = Ok cfg) (Hacfg : LoadAlertConfigs = Ok acfg)
    (Hraw : RunAll now loc (set_report acfg rep) = (l1 ++ a :: l2 ++ b :: l3, None))
    (Hab : al_ID a = al_ID b) (Hnew : states (w_tables w) !! al_ID a = None)
    (Hfree : w_locked w = false) :
  run (sendImmediateCriticalAlerts loc rep senders now) w =
  (Err (ErrJoin [ErrWrap "sync alert states" err_unique]), w).
Proof.
  assert (∀ w', w_tables w' = w_tables w →
    run (run_alerts loc rep senders now) w' =
    (Err (ErrJoin [ErrWrap "sync alert states" err_unique]), w')) as Hrun.
  { intros w' Ht. unfold run_alerts. rewrite Hcfg, Hacfg, Hraw.
    destruct (run_ready senders w') as [[b1 Hb1] [b2 Hb2]].
    rewrite run_bind, Hb1, run_bind, Hb2, run_bind, run_mret, run_andThen, run_db.
    unfold SyncAlertStatesFor, SyncAlertStates. cbn [is_partial].
    rewrite sync_duplicate by (done || by rewrite Ht). rewrite set_tables_id. done. }
  unfold sendImmediateCriticalAlerts. destruct rep as [rp|]; [|by apply Hrun].
  rewrite run_bind, run_local. cbn [fst snd]. rewrite Hfree. cbn [negb].
  rewrite run_andThen, Hrun by done. rewrite run_bind. unfold modify.
  rewrite run_local. cbn [fst snd]. rewrite run_ret. f_equal.
  destruct w; simpl in *; by subst.
Qed.
End properties.

(** ** Examples *)

(** Server 7 reports the failed backup of VM 101 once, or twice. *)
Definition ex_email : EmailConfig := {|
  ec_ID := 1; ec_SMTPHost := "smtp.example.org"; ec_SMTPPort := 465;
  ec_SMTPUser := "u"; ec_SMTPPass := "p"; ec_Recipients := " ops@example.org,";
  ec_IsEnabled := true; ec_SendTime := "08:00"; ec_RetentionMonths := 3;
  ec_RetentionEnabled := true; ec_AlertDiskPct := 85; ec_AlertWindowsDiskPct := 90;
  ec_AlertBackupErr := true; ec_AlertPBSStaleHours := 48;
  ec_AlertPVEExpectedFinishTime := "07:55"; ec_PublicAPIURL := "";
  ec_VPNOnlyAccess := false; ec_AlertPVEHeartbeatMinutes := 15;
  ec_AlertEmailBatchMinutes := 0; ec_CriticalAlertsEnabled := true;
  ec_EnforceTOTPNonReaders := false; ec_SensitiveActionsRequireTOTP := false |}.

Definition failing_store (tasks : list PVEBackupTask) : ReadStore :=
  static_store ex_email [ex_server] ∅ {[7 := ex_report]} {[3 := tasks]} ∅ [].

Definition ex_config (tasks : list PVEBackupTask) : AlertConfigs :=
  match @LoadAlertConfigs _ (failing_store tasks) with
  | Ok cfg => cfg | Err _ => ex_cfg ex_data end.

Definition empty_world : World := {|
  w_tables := empty_tables; w_mails := [];
  w_backoff := Build_smtpBackoff zeroTime 0; w_push_config := None;
  w_subscriptions := []; w_active_users := ∅; w_pushed := [];
  w_telegram_config := None; w_telegram_status := None; w_messages := [];
  w_locked := false |}.

Definition ex_run (tasks : list PVEBackupTask) : prog World () :=
  @sendImmediateCriticalAlerts _ _ (failing_store tasks) UTC None (true, true) ex_now.

Definition ex_failed : Alert :=
  hd ex_critical (@evaluated _ (failing_store [ex_task]) UTC None ex_now).

Definition ex_mailed_world : World := (run (ex_run [ex_task]) empty_world).2.

Lemma ex_raw :
  @RunAll _ (failing_store [ex_task]) ex_now UTC (set_report (ex_config [ex_task]) None) =
  ([ex_failed], None).
Proof. vm_compute. reflexivity. Qed.

Lemma ex_evaluated_NoDup :
  NoDup (al_ID <$> @evaluated _ (failing_store [ex_task]) UTC None ex_now).
Proof. vm_compute. apply NoDup_singleton. Qed.


(** when the mail server has taken the message and the farewell of the session fails, the
    run returns an error without recording the alert as emailed, and the next run after the
    pause mails it again. *)
Theorem failed_quit_mails_twice :
  let run_at := @sendImmediateCriticalAlerts _ _ (failing_store [ex_task]) UTC None (true, true) in
  let listed w := alertIDs ∘ ml_Active <$> w_mails w in
  let '(r, w, _) :=
    exec (run_at ex_now) (repeat None 13 ++ [Some (ErrMsg "connection reset")]) empty_world in
  let w' := (run (run_at (ex_now + 10 * Minute)) w).2 in
  r = Err (ErrJoin [ErrMsg "connection reset"]) ∧ emailed (w_tables w) (al_ID ex_failed) = false ∧
  listed w = [[al_ID ex_failed]] ∧ listed w' = [[al_ID ex_failed]; [al_ID ex_failed]].
Proof. vm_compute. done. Qed.

Lemma no_resend_witness :
  marked ex_mailed_world (al_ID ex_failed) ∧
  ¬ mailed ml_Active ex_mailed_world
    (exec (ex_run [ex_task]) [None; Some (ErrMsg "disk I/O error")] ex_mailed_world).1.2
    (al_ID ex_failed).
Proof.
  assert (marked ex_mailed_world (al_ID ex_failed)) as Hm
    by (vm_compute; repeat eexists).
  split; [exact Hm|].
  apply (@no_resend _ _ (failing_store [ex_task]) UTC None (true, true) ex_now
    ex_mailed_world (al_ID ex_failed) [None; Some (ErrMsg "disk I/O error")]
    ex_evaluated_NoDup Hm).
Defined.

Lemma no_mark_without_mail_witness :
  marked ex_mailed_world (al_ID ex_failed) ∧
  (marked empty_world (al_ID ex_failed) ∨
   mailed ml_Active empty_world ex_mailed_world (al_ID ex_failed)).
Proof.
  assert (marked ex_mailed_world (al_ID ex_failed)) as Hm
    by (vm_compute; repeat eexists).
  split; [exact Hm|].
  exact (proj1 (@no_mark_without_mail _ _ (failing_store [ex_task]) UTC None (true, true)
    ex_now empty_world (al_ID ex_failed) [] ex_evaluated_NoDup) Hm).
Defined.

Lemma collision_silences_run_witness :
  run (ex_run [ex_task; ex_task]) empty_world =
  (Err (ErrJoin [ErrWrap "sync alert states" err_unique]), empty_world).
Proof.
  apply (@collision_silences_run _ _ (failing_store [ex_task; ex_task]) ex_email
    (ex_config [ex_task; ex_task]) UTC None (true, true) ex_now empty_world
    [] [] [] ex_failed ex_failed); vm_compute; reflexivity.
Defined.

Lemma pauses_respected_witness :
  let w := set_locked true (set_backoff (record (Some err_no_rows) ex_now) empty_world) in
  active (w_backoff w) ex_now = true ∧ w_locked w = true ∧
  exec (@sendImmediateCriticalAlerts _ _ (failing_store []) UTC
    (Some ex_service) (true, true) ex_now) [] w = (Ok (), w, []).
Proof.
  cbv zeta. split; [vm_compute; reflexivity|]. split; [reflexivity|].
  apply (@pauses_respected _ _ (failing_store []) ex_email [] [] ∅ UTC ex_service
    (true, true) ex_now _ []). reflexivity.
Defined.
