(* ===== verification/Banhammer.v ===== *)
(** * Progressive login bans: [internal/ratelimit/banhammer.go]

    The ban state machine with its table [ip_bans] ([internal/store/ip_bans.go]).
    The mutex makes each operation one step on the memory; the write to the table
    that may follow can fail, and its error is dropped.  The table keeps times to
    the second, the precision of RFC 3339. *)
From Stdlib Require Import Ascii.
From Stdlib Require String.
From S2P Require Import Prelude GoStrings GoNum GoTime GoNetip Sql.

(** ** Data *)

Definition permanentExpiry : Time := Date UTC 9999 1 1 0 0.
Arguments permanentExpiry : simpl never.

Record IPBan := {
  ban_IP : string; ban_BanCount : Z; ban_BanExpiry : option Time;
  ban_BannedAt : Time }.

Record ipState := {
  failures : list Time; banExpiry : Time; banCount : Z; bannedAt : Time }.

(** What [NewBanhammer] and [SetTrustedNetworks] fix; [stored] is
    [b.store != nil]. *)
Record Config := {
  maxFails : Z; window : Duration; banDurs : list Duration;
  trusted : list Prefix; proxies : list Prefix; stored : bool }.

Definition NewBanhammer (maxFails : Z) (window : Duration) (stored : bool)
    (banDurs : list Duration) : Config := {|
  maxFails := maxFails; window := window;
  banDurs := if is_nil banDurs then [24 * Hour] else banDurs;
  trusted := []; proxies := []; stored := stored |}.

Definition SetTrustedNetworks (trusted proxies : list Prefix) (b : Config) : Config := {|
  maxFails := maxFails b; window := window b; banDurs := banDurs b;
  trusted := trusted; proxies := proxies; stored := stored b |}.

(** A row of [ip_bans]: the count, the expiry and the time of the ban, in
    seconds. *)
Record BanRow := { row_count : Z; row_expiry : option Z; row_banned_at : Z }.

Record Bans := { states : gmap string ipState; table : gmap string BanRow }.

Definition set_states (f : gmap string ipState → gmap string ipState) (w : Bans) : Bans :=
  {| states := f (states w); table := table w |}.
Definition set_table (f : gmap string BanRow → gmap string BanRow) (w : Bans) : Bans :=
  {| states := states w; table := f (table w) |}.

(** ** The table *)

Definition UpsertIPBan (b : IPBan) : prog Bans () :=
  exec_sql (set_table <[ban_IP b := {|
    row_count := ban_BanCount b; row_expiry := Unix <$> ban_BanExpiry b;
    row_banned_at := Unix (ban_BannedAt b) |}]>).

Definition DeleteIPBan (ip : string) : prog Bans () :=
  exec_sql (set_table (delete ip)).

Definition by_banned_at_desc (x y : string * BanRow) : bool :=
  row_banned_at y.2 <=? row_banned_at x.2.

Definition ban_of_row (r : string * BanRow) : IPBan := {|
  ban_IP := r.1; ban_BanCount := row_count r.2;
  ban_BanExpiry := UnixTime <$> row_expiry r.2;
  ban_BannedAt := UnixTime (row_banned_at r.2) |}.

Definition ListIPBans `{!SqlOrder} : prog Bans (list IPBan) :=
  query (λ w, ban_of_row <$> order_by by_banned_at_desc (map_to_list (table w))).

(** ** Keys *)

Definition isTrusted (b : Config) (ip : string) : bool :=
  match ParseAddr ip with
  | None => false
  | Some addr =>
      let addr := Unmap addr in
      negb (existsb (λ p, prefix_contains p addr) (proxies b)) &&
      existsb (λ p, prefix_contains p addr) (trusted b)
  end.

Definition BanKey (ip : string) : string :=
  match ParseAddr ip with
  | Some (V6 groups _ as addr) => if Is4In6 addr then ip else prefix64_string groups
  | _ => ip
  end.

Definition UnbanKeys (ip : string) : list string :=
  if bool_decide (BanKey ip = ip) then [ip] else [ip; BanKey ip].

(** ** Operations *)

Definition banDurFor (b : Config) (count : Z) : Duration :=
  if Z.of_nat (length (banDurs b)) <=? count then List.last (banDurs b) 0
  else nth (Z.to_nat count) (banDurs b) 0.

Definition new_ipState : ipState :=
  {| failures := []; banExpiry := zeroTime; banCount := 0; bannedAt := zeroTime |}.

(** [getOrCreate]. *)
Definition state_of (w : Bans) (key : string) : ipState :=
  default new_ipState (states w !! key).

(** [!s.banExpiry.IsZero() && (permanent || now.Before(s.banExpiry))]. *)
Definition in_ban (s : ipState) (now : Time) : bool :=
  negb (IsZero (banExpiry s)) &&
  (Equal (banExpiry s) permanentExpiry || Before now (banExpiry s)).

Definition recent (b : Config) (now : Time) (s : ipState) : list Time :=
  List.filter (λ t, After t (AddDur now (- window b))) (failures s).

(** The state after the ban that follows [s]. *)
Definition banned_state (b : Config) (now : Time) (s : ipState) : ipState :=
  let dur := banDurFor b (banCount s) in
  {| failures := []; banExpiry := if dur =? 0 then permanentExpiry else AddDur now dur;
     banCount := banCount s + 1; bannedAt := now |}.

Definition persisted (b : Config) (now : Time) (key : string) (s : ipState) : IPBan := {|
  ban_IP := key; ban_BanCount := banCount s + 1;
  ban_BanExpiry := let dur := banDurFor b (banCount s) in
                   if dur =? 0 then None else Some (AddDur now dur);
  ban_BannedAt := now |}.

(** The part of [RecordFailure] under the mutex: the ban to persist, if any. *)
Definition record_step (b : Config) (key : string) (now : Time) (w : Bans) :
    option IPBan * Bans :=
  let s := state_of w key in
  if in_ban s now then (None, set_states <[key := s]> w)
  else
    let valid := recent b now s ++ [now] in
    if Z.of_nat (length valid) <? maxFails b then
      (None, set_states <[key := {|
         failures := valid; banExpiry := banExpiry s; banCount := banCount s;
         bannedAt := bannedAt s |}]> w)
    else
      (Some (persisted b now key s), set_states <[key := banned_state b now s]> w).

Definition RecordFailure (b : Config) (ip : string) (now : Time) : prog Bans bool :=
  if isTrusted b ip then mret false else
  ban ← local (record_step b (BanKey ip) now);
  match ban with
  | None => mret false
  | Some ban =>
      if stored b then andThen (UpsertIPBan ban) (λ _, mret true) else mret true
  end.

Definition clear_failures (s : ipState) : ipState :=
  {| failures := []; banExpiry := banExpiry s; banCount := banCount s;
     bannedAt := bannedAt s |}.

Definition ClearFailures (ip : string) : prog Bans () :=
  modify (set_states (alter clear_failures (BanKey ip))).

(** The answer for a key; an expired ban is forgotten, not its count. *)
Definition banned_step (key : string) (now : Time) (w : Bans) : (bool * Duration) * Bans :=
  match states w !! key with
  | None => ((false, 0), w)
  | Some s =>
      if IsZero (banExpiry s) then ((false, 0), w)
      else if Equal (banExpiry s) permanentExpiry then ((true, -1), w)
      else
        let remaining := Sub (banExpiry s) now in
        if remaining <=? 0 then
          ((false, 0), set_states <[key := {|
             failures := []; banExpiry := zeroTime; banCount := banCount s;
             bannedAt := bannedAt s |}]> w)
        else ((true, remaining), w)
  end.

Definition IsBanned (b : Config) (ip : string) (now : Time) : prog Bans (bool * Duration) :=
  if isTrusted b ip then mret (false, 0) else local (banned_step (BanKey ip) now).

Definition UnbanIP (b : Config) (ip : string) : prog Bans () :=
  for_each (UnbanKeys ip) (λ key,
    _ ← modify (set_states (delete key));
    if stored b then andThen (DeleteIPBan key) (λ _, mret ()) else mret ()).

(** One entry of [cleanupAt]. *)
Definition cleanup_entry (b : Config) (now : Time) (s : ipState) : option ipState :=
  if in_ban s now then Some s else
  let hasRecent := existsb (λ t, After t (AddDur now (- window b))) (failures s) in
  if negb hasRecent && (banCount s =? 0) then None
  else if negb hasRecent then Some (clear_failures s) else Some s.

Definition cleanupAt (b : Config) (now : Time) : prog Bans () :=
  modify (set_states (omap (cleanup_entry b now))).

(** [Load]: the rows become states of a fresh process. *)
Definition loaded_state (now : Time) (ban : IPBan) : ipState := {|
  failures := [];
  banExpiry := match ban_BanExpiry ban with
               | None => permanentExpiry
               | Some e => if After e now then e else zeroTime
               end;
  banCount := ban_BanCount ban; bannedAt := ban_BannedAt ban |}.

Definition Load `{!SqlOrder} (b : Config) (now : Time) : prog Bans () :=
  if negb (stored b) then mret () else
  bans ← ListIPBans;
  modify (set_states (λ m, fold_left (λ m ban, <[ban_IP ban := loaded_state now ban]> m) bans m)).

Definition ListBanned `{!MapRange} (now : Time) : prog Bans (list IPBan) :=
  local (λ w, (omap (λ '(ip, s),
    if IsZero (banExpiry s) then None
    else if negb (Equal (banExpiry s) permanentExpiry) && After now (banExpiry s) then None
    else Some {| ban_IP := ip; ban_BanCount := banCount s;
                 ban_BanExpiry := if Equal (banExpiry s) permanentExpiry then None
                                  else Some (banExpiry s);
                 ban_BannedAt := bannedAt s |}) (range (states w)), w)).

(** ** Traces: the operations of a process, with failures of the table *)

Inductive ban_op : Type :=
| OpFail (ip : string) (now : Time)
| OpClear (ip : string)
| OpCheck (ip : string) (now : Time)
| OpUnban (ip : string)
| OpCleanup (now : Time).

Definition op_prog (b : Config) (op : ban_op) : prog Bans () :=
  match op with
  | OpFail ip now => RecordFailure b ip now ≫= λ _, mret ()
  | OpClear ip => ClearFailures ip
  | OpCheck ip now => IsBanned b ip now ≫= λ _, mret ()
  | OpUnban ip => UnbanIP b ip
  | OpCleanup now => cleanupAt b now
  end.

(** [reached b trace w]: [w] after the operations [trace], the last one first. *)
Inductive reached (b : Config) : list ban_op → Bans → Prop :=
| reached_start t : reached b [] {| states := ∅; table := t |}
| reached_step trace w op io :
    reached b trace w → reached b (op :: trace) (exec (op_prog b op) io w).1.2.

(** The times of the failures recorded for a key. *)
Definition failed_at (b : Config) (key : string) (trace : list ban_op) : list Time :=
  omap (λ op, match op with
    | OpFail ip now => if bool_decide (BanKey ip = key) && negb (isTrusted b ip)
                       then Some now else None
    | _ => None
    end) trace.

(** The failures of one address, one after the other. *)
Fixpoint record_all (b : Config) (ip : string) (ts : list Time) : prog Bans (list bool) :=
  match ts with
  | [] => mret []
  | t :: ts => r ← RecordFailure b ip t; rs ← record_all b ip ts; mret (r :: rs)
  end.

(** ** Lemmas *)

(** An operation on the memory of some keys, whatever happens to the table. *)
Lemma exec_RecordFailure b ip now io w :
  isTrusted b ip = false →
  ∃ t io', exec (RecordFailure b ip now) io w =
    (Ok (match (record_step b (BanKey ip) now w).1 with Some _ => true | None => false end),
     {| states := states (record_step b (BanKey ip) now w).2; table := t |}, io').
Proof.
  intros Ht. unfold RecordFailure. rewrite Ht. unfold mbind, prog_bind.
  rewrite exec_andThen. unfold local. cbn [exec].
  assert (table (record_step b (BanKey ip) now w).2 = table w) as Htab
    by by unfold record_step; repeat case_match.
  destruct (record_step b (BanKey ip) now w) as [[ban|] [st tb]] eqn:Hr; cbn [fst snd] in *.
  - destruct (stored b).
    + rewrite exec_andThen. unfold UpsertIPBan, exec_sql, stmt. cbn [exec].
      destruct (fault io); by eexists _, _.
    + by eexists _, _.
  - by eexists _, _.
Qed.

Lemma states_UnbanIP b ip io w :
  ∃ t io', exec (UnbanIP b ip) io w =
    (Ok (), {| states := fold_left (λ m k, delete k m) (UnbanKeys ip) (states w); table := t |}, io').
Proof.
  unfold UnbanIP. generalize (UnbanKeys ip) as keys. intros keys. revert io w.
  induction keys as [|k keys IH]; intros io w; cbn [for_each].
  { destruct w. by eexists _, _. }
  unfold mbind, prog_bind at 1. rewrite exec_andThen. unfold mbind, prog_bind.
  rewrite exec_andThen. unfold modify, local. cbn [exec].
  destruct (stored b).
  - rewrite exec_andThen. unfold DeleteIPBan, exec_sql, stmt. cbn [exec].
    destruct (fault io); [apply (IH _ (set_states _ w))|].
    apply (IH _ (set_table _ (set_states _ w))).
  - apply (IH _ (set_states _ w)).
Qed.

Lemma state_of_insert w key s k :
  state_of (set_states <[key := s]> w) k = if decide (k = key) then s else state_of w k.
Proof.
  unfold state_of. simpl. case_decide as Hk; [subst; by rewrite lookup_insert_eq|].
  by rewrite lookup_insert_ne.
Qed.

(** The memory after one operation, key by key. *)
Lemma record_step_state b key now w k :
  state_of (record_step b key now w).2 k =
  if decide (k = key) then
    let s := state_of w key in
    if in_ban s now then s
    else if Z.of_nat (length (recent b now s ++ [now])) <? maxFails b
    then {| failures := recent b now s ++ [now]; banExpiry := banExpiry s;
            banCount := banCount s; bannedAt := bannedAt s |}
    else banned_state b now s
  else state_of w k.
Proof.
  unfold record_step. destruct (in_ban _ _); [|destruct (_ <? _)]; cbn [snd];
    by rewrite state_of_insert.
Qed.

Lemma record_step_bans b key now w :
  (∃ ban, (record_step b key now w).1 = Some ban) ↔
  in_ban (state_of w key) now = false ∧
  maxFails b ≤ Z.of_nat (length (recent b now (state_of w key) ++ [now])).
Proof.
  unfold record_step. destruct (in_ban _ _); [naive_solver|].
  destruct (Z.ltb_spec (Z.of_nat (length (recent b now (state_of w key) ++ [now])))
    (maxFails b)); cbn [fst]; split; try (by intros [? ?]); try (intros [_ ?]; lia); eauto.
Qed.

Lemma banned_step_state key now w k :
  state_of (banned_step key now w).2 k = state_of w k ∨
  k = key ∧ state_of (banned_step key now w).2 k =
    {| failures := []; banExpiry := zeroTime; banCount := banCount (state_of w key);
       bannedAt := bannedAt (state_of w key) |}.
Proof.
  unfold banned_step. destruct (states w !! key) as [s|] eqn:Hs; [|by left].
  repeat (case_match; [by left|]). case_match; [|by left]. cbn [snd].
  rewrite state_of_insert. case_decide; [|by left]. right. split; [done|].
  unfold state_of. by rewrite Hs.
Qed.

Lemma state_of_alter f w key k :
  f new_ipState = new_ipState →
  state_of (set_states (alter f key) w) k =
  if decide (k = key) then f (state_of w k) else state_of w k.
Proof.
  intros Hf. unfold state_of. simpl. case_decide as Hk.
  - subst. rewrite lookup_alter_eq. by destruct (states w !! key).
  - by rewrite lookup_alter_ne.
Qed.

Lemma cleanup_state b now w k :
  let s := state_of w k in
  let s' := state_of (set_states (omap (cleanup_entry b now)) w) k in
  s' = s ∨ s' = clear_failures s ∨ banCount s = 0 ∧ s' = new_ipState.
Proof.
  cbv zeta. unfold state_of. simpl. rewrite lookup_omap.
  destruct (states w !! k) as [s|]; [|by left]. simpl. unfold cleanup_entry.
  destruct (in_ban s now); [by left|].
  destruct (negb _ && (banCount s =? 0)) eqn:Hc; simpl.
  - right. right. bool_to_prop. by split; [lia|].
  - destruct (negb _); [by right; left|by left].
Qed.

Lemma state_of_table w t k : state_of {| states := states w; table := t |} k = state_of w k.
Proof. done. Qed.

Lemma state_of_deletes keys m t k :
  state_of {| states := fold_left (λ m k, delete k m) keys m; table := t |} k =
  if decide (k ∈ keys) then new_ipState else state_of {| states := m; table := t |} k.
Proof.
  unfold state_of. simpl. revert m. induction keys as [|k' keys IH]; intros m; simpl; [done|].
  rewrite IH. destruct (decide (k ∈ keys)) as [Hin|Hout].
  - rewrite decide_True; [done|by right].
  - destruct (decide (k = k')) as [->|Hne].
    + rewrite lookup_delete_eq, decide_True; [done|by left].
    + rewrite lookup_delete_ne by done. rewrite decide_False; [done|].
      by rewrite elem_of_cons; intros [?|?].
Qed.

(** One operation, key by key: what becomes of the failures and of the count. *)
Lemma op_state b op io w k :
  let w' := (exec (op_prog b op) io w).1.2 in
  failures (state_of w' k) `sublist_of` failures (state_of w k) ++ failed_at b k [op] ∧
  ((∀ ip, op = OpUnban ip → k ∉ UnbanKeys ip) →
   banCount (state_of w k) ≤ banCount (state_of w' k)).
Proof.
  cbv zeta. destruct op as [ip now|ip|ip now|ip|now]; cbn [op_prog].
  - unfold mbind, prog_bind. rewrite exec_andThen. unfold failed_at. simpl.
    destruct (isTrusted b ip) eqn:Ht.
    { unfold RecordFailure. rewrite Ht. simpl. rewrite andb_false_r. simpl.
      rewrite app_nil_r. split; [done|lia]. }
    destruct (exec_RecordFailure b ip now io w Ht) as (t & io' & ->). simpl.
    rewrite state_of_table, record_step_state, andb_true_r. case_decide as Hk.
    + subst k. rewrite bool_decide_true by done. cbn [option_map]. cbv zeta.
      destruct (in_ban _ _); [split; [by apply sublist_inserts_r|lia]|].
      destruct (_ <? _); simpl; (split; [|lia]).
      * apply sublist_app; [apply filter_bool_sublist|done].
      * apply sublist_nil_l.
    + rewrite bool_decide_false by done. rewrite app_nil_r. split; [done|lia].
  - unfold failed_at. simpl. rewrite app_nil_r.
    unfold ClearFailures, modify, local. cbn [exec fst snd].
    rewrite state_of_alter by done. case_decide; simpl; (split; [|lia]); [apply sublist_nil_l|done].
  - unfold failed_at. simpl. rewrite app_nil_r. unfold IsBanned.
    destruct (isTrusted b ip); [simpl; split; [done|lia]|].
    unfold mbind, prog_bind. rewrite exec_andThen. unfold local. cbn [exec].
    destruct (banned_step (BanKey ip) now w) as [r w'] eqn:Hs.
    pose proof (banned_step_state (BanKey ip) now w k) as H. rewrite Hs in H. simpl in H |- *.
    destruct H as [-> | [-> ->]]; simpl; (split; [|lia]); [done|apply sublist_nil_l].
  - unfold failed_at. simpl. rewrite app_nil_r.
    destruct (states_UnbanIP b ip io w) as (t & io' & ->). simpl.
    rewrite state_of_deletes. case_decide as Hk; simpl.
    + split; [apply sublist_nil_l|]. intros H. by destruct (H ip eq_refl Hk).
    + split; [done|unfold state_of; simpl; lia].
  - unfold failed_at. simpl. rewrite app_nil_r.
    destruct (cleanup_state b now w k) as [H|[H|[H0 H]]]; unfold cleanupAt; simpl;
      rewrite H; simpl; (split; [|lia]); [done|apply sublist_nil_l..].
Qed.

Lemma reached_failures b trace w k :
  reached b trace w → failures (state_of w k) `sublist_of` rev (failed_at b k trace).
Proof.
  induction 1 as [t|trace w op io _ IH]; [apply sublist_nil_l|].
  destruct (op_state b op io w k) as [Hf _]. etrans; [exact Hf|].
  assert (failed_at b k (op :: trace) = failed_at b k [op] ++ failed_at b k trace) as ->.
  { unfold failed_at. simpl. by destruct op; simpl; try case_match. }
  rewrite rev_app_distr. apply sublist_app; [exact IH|].
  unfold failed_at. simpl. by destruct op; simpl; try case_match.
Qed.

(** *** A series of failures *)

Lemma exec_record_all b ip last ts io w :
  isTrusted b ip = false →
  (∀ t, t ∈ ts → last - window b < t ≤ last) →
  (∀ t, t ∈ failures (state_of w (BanKey ip)) → last - window b < t) →
  banExpiry (state_of w (BanKey ip)) = zeroTime →
  Z.of_nat (length (failures (state_of w (BanKey ip))) + length ts) = maxFails b →
  ts ≠ [] → List.last ts 0 = last →
  ∃ w' io', exec (record_all b ip ts) io w =
    (Ok (replicate (length ts - 1) false ++ [true]), w', io') ∧
    ∃ s, state_of w' (BanKey ip) = banned_state b last s ∧
         banCount s = banCount (state_of w (BanKey ip)).
Proof.
  intros Htr. revert io w. induction ts as [|t ts IH]; intros io w Hts Hold Hexp Hlen Hne Hlast;
    [done|]. cbn [record_all]. unfold mbind at 1, prog_bind at 1. rewrite exec_andThen.
  destruct (exec_RecordFailure b ip t io w Htr) as (tb & io1 & ->).
  set (w1 := Build_Bans _ tb).
  pose proof (record_step_state b (BanKey ip) t w (BanKey ip)) as Hs.
  change (state_of (record_step b (BanKey ip) t w).2 (BanKey ip))
    with (state_of w1 (BanKey ip)) in Hs.
  rewrite decide_True in Hs by done. cbv zeta in Hs.
  pose proof (record_step_bans b (BanKey ip) t w) as Hban.
  set (s := state_of w (BanKey ip)) in *.
  assert (in_ban s t = false) as Hnb by (unfold in_ban; by rewrite Hexp).
  assert (recent b t s = failures s) as Hrec.
  { apply filter_bool_all. intros x Hx. unfold After, AddDur. apply Z.ltb_lt.
    specialize (Hold x Hx). specialize (Hts t ltac:(by left)). lia. }
  rewrite Hnb, Hrec in *. rewrite length_app in *. cbn [length] in Hs, Hban, Hlen |- *.
  unfold mbind, prog_bind. rewrite exec_andThen.
  destruct ts as [|t2 ts].
  - cbn [record_all exec]. cbn [length] in Hlen.
    destruct (Z.ltb_spec (Z.of_nat (length (failures s) + 1)) (maxFails b)); [lia|].
    destruct (record_step b (BanKey ip) t w).1; [|destruct Hban as [_ Hb]; destruct Hb; [split; [done|lia]|done]].
    simpl in Hlast. subst last. eexists _, _. split; [done|]. exists s. by rewrite Hs.
  - cbn [length] in Hlen.
    destruct (Z.ltb_spec (Z.of_nat (length (failures s) + 1)) (maxFails b)); [|lia].
    destruct (record_step b (BanKey ip) t w).1; [destruct Hban as [[_ ?] _]; [by eexists|lia]|].
    destruct (IH io1 w1) as (w' & io' & Hx & s' & Hs' & Hc).
    + intros x Hx. apply Hts. by right.
    + rewrite Hs. simpl. intros x [Hx| ->%list_elem_of_singleton]%elem_of_app;
        [by apply Hold|]. specialize (Hts t ltac:(by left)). lia.
    + by rewrite Hs.
    + rewrite Hs. simpl. rewrite length_app. simpl. lia.
    + done.
    + done.
    + rewrite Hx. simpl. rewrite Nat.sub_0_r. eexists _, _. split; [done|].
      exists s'. split; [done|]. rewrite Hc, Hs. done.
Qed.

(** ** Memory and table agree while no write fails *)

(** A state with its row: [clock] is the time of the last operation. *)
Definition row_agrees (clock : Time) (s : ipState) (row : BanRow) : Prop :=
  row_count row = banCount s ∧ 0 < banCount s ∧
  (banExpiry s = permanentExpiry ∧ row_expiry row = None ∨
   zeroTime < banExpiry s < permanentExpiry ∧ row_expiry row = Some (Unix (banExpiry s)) ∨
   banExpiry s = zeroTime ∧ ∃ sec, row_expiry row = Some sec ∧ UnixTime sec ≤ clock).

Definition key_agrees (clock : Time) (s : option ipState) (row : option BanRow) : Prop :=
  match s, row with
  | None, None => True
  | Some s, None => banCount s = 0 ∧ banExpiry s = zeroTime
  | Some s, Some row => row_agrees clock s row
  | None, Some _ => False
  end.

Definition agree (clock : Time) (w : Bans) : Prop :=
  ∀ k, key_agrees clock (states w !! k) (table w !! k).

Definition op_time (clock : Time) (op : ban_op) : Time :=
  match op with
  | OpFail _ now | OpCheck _ now | OpCleanup now => now
  | OpClear _ | OpUnban _ => clock
  end.

(** A process starts with the table of its predecessor. *)
Definition restart `{!SqlOrder} (b : Config) (now : Time) (w : Bans) : Bans :=
  (run (Load b now) {| states := ∅; table := table w |}).2.

(** The states reached on a working database, at a time after 1970 that leaves
    room for the longest ban before the year 9999. *)
Inductive running `{!SqlOrder} (b : Config) : Time → Bans → Prop :=
| running_start : running b 0 {| states := ∅; table := ∅ |}
| running_op clock w op :
    running b clock w → clock ≤ op_time clock op →
    (∀ d, d ∈ banDurs b → op_time clock op + d < permanentExpiry) →
    running b (op_time clock op) (run (op_prog b op) w).2
| running_restart clock w now :
    running b clock w → clock ≤ now → running b now (restart b now w).

Lemma zeroTime_neg : zeroTime < 0.
Proof. done. Qed.

Lemma zero_not_permanent : zeroTime ≠ permanentExpiry.
Proof. vm_compute. congruence. Qed.

Lemma Unix_le e : UnixTime (Unix e) ≤ e < UnixTime (Unix e) + Second.
Proof. unfold UnixTime, Unix, Second. pose proof (Z.div_mod e 1000000000). pose proof (Z.mod_pos_bound e 1000000000). lia. Qed.

Lemma key_agrees_later clock clock' s row :
  clock ≤ clock' → key_agrees clock s row → key_agrees clock' s row.
Proof.
  destruct s as [s|], row as [row|]; simpl; try done. unfold row_agrees.
  intros Hc (H1 & H2 & [?|[?|(? & sec & ? & ?)]]); split_and!; auto.
  right. right. split; [done|]. exists sec. split; [done|lia].
Qed.

(** A change of the failures only. *)
Lemma key_agrees_failures clock s s' row :
  banCount s' = banCount s → banExpiry s' = banExpiry s →
  key_agrees clock (Some s) row → key_agrees clock (Some s') row.
Proof. intros Hc He. destruct row; simpl; unfold row_agrees; by rewrite Hc, He. Qed.

Section agreement.
Context `{!SqlOrder} (b : Config) (Hstored : stored b = true).
Context (Hdurs : ∀ d, d ∈ banDurs b → 0 ≤ d).

Lemma banDurFor_in count : banDurFor b count = 0 ∨ banDurFor b count ∈ banDurs b.
Proof.
  unfold banDurFor. destruct (_ <=? count).
  - induction (banDurs b) as [|d l IH]; [by left|]. destruct l as [|d2 l].
    + right. by left.
    + destruct (IH ltac:(intros x Hx; apply Hdurs; by right)) as [Hin|Hin]; [by left|].
      right. by right.
  - destruct (nth_in_or_default (Z.to_nat count) (banDurs b) 0) as [Hin| ->]; [right|by left].
    by apply list_elem_of_In.
Qed.

Lemma agree_fail clock ip now w :
  agree clock w → clock ≤ now → 0 ≤ now → (∀ d, d ∈ banDurs b → now + d < permanentExpiry) →
  agree now (run (RecordFailure b ip now) w).2.
Proof.
  intros Ha Hclock Hnow Hroom. unfold RecordFailure.
  destruct (isTrusted b ip).
  { intros k. by apply (key_agrees_later clock). }
  rewrite run_bind, run_local. set (key := BanKey ip). unfold record_step.
  assert (∀ s', banCount s' = banCount (state_of w key) →
    banExpiry s' = banExpiry (state_of w key) → agree now (set_states <[key := s']> w)) as Hkeep.
  { intros s' Hc He k. simpl. destruct (decide (k = key)) as [->|Hne].
    - rewrite lookup_insert_eq. specialize (Ha key). unfold state_of in *.
      destruct (states w !! key) as [s|]; simpl in *.
      + by apply (key_agrees_failures _ s), (key_agrees_later clock).
      + destruct (table w !! key); [done|]. by rewrite Hc, He.
    - rewrite lookup_insert_ne by done. by apply (key_agrees_later clock). }
  destruct (in_ban _ _); [by apply Hkeep|]. destruct (_ <? _); [by apply Hkeep|].
  cbn [fst snd]. rewrite Hstored, run_andThen. unfold UpsertIPBan. rewrite run_exec_sql, run_mret.
  cbn [snd]. intros k. simpl. destruct (decide (k = key)) as [->|Hne].
  - rewrite !lookup_insert_eq. simpl. unfold row_agrees. simpl.
    assert (0 ≤ banCount (state_of w key)) as Hcount.
    { specialize (Ha key). unfold state_of. destruct (states w !! key) as [s|]; simpl; [|lia].
      destruct (table w !! key); simpl in Ha; unfold row_agrees in Ha; lia. }
    split; [done|]. split; [lia|].
    destruct (Z.eqb_spec (banDurFor b (banCount (state_of w key))) 0) as [Hz|Hz]; [by left|].
    right. left. destruct (banDurFor_in (banCount (state_of w key))) as [Hin|Hin]; [done|].
    pose proof (Hroom _ Hin). pose proof (Hdurs _ Hin). pose proof zeroTime_neg.
    unfold AddDur. split; [lia|done].
  - rewrite !lookup_insert_ne by done. by apply (key_agrees_later clock).
Qed.

Lemma agree_check clock ip now w :
  agree clock w → clock ≤ now → agree now (run (IsBanned b ip now) w).2.
Proof.
  intros Ha Hclock. assert (agree now w) as Ha'.
  { intros k. by apply (key_agrees_later clock). }
  unfold IsBanned. destruct (isTrusted b ip); [done|]. rewrite run_local. cbn [snd].
  unfold banned_step. destruct (states w !! BanKey ip) as [s|] eqn:Hs; [|done].
  destruct (IsZero (banExpiry s)) eqn:Hz; [done|].
  destruct (Equal (banExpiry s) permanentExpiry) eqn:Hp; [done|].
  destruct (Z.leb_spec (Sub (banExpiry s) now) 0) as [Hle|]; [|done].
  intros k. simpl. destruct (decide (k = BanKey ip)) as [->|Hne].
  - rewrite lookup_insert_eq. specialize (Ha (BanKey ip)). rewrite Hs in Ha.
    unfold IsZero, Equal in *. bool_to_prop.
    destruct (table w !! BanKey ip) as [row|]; simpl in *; [|by split; [lia|]].
    destruct Ha as (Hc & Hpos & [[? _]|[[? Hrow]|[? _]]]); [done| |done].
    split; [done|]. split; [done|]. right. right. split; [done|].
    eexists. split; [exact Hrow|]. pose proof (Unix_le (banExpiry s)).
    unfold Sub, sat64, MinInt64, MaxInt64 in Hle. lia.
  - rewrite lookup_insert_ne by done. apply Ha'.
Qed.

Lemma run_unban_key key w :
  run (_ ← modify (set_states (delete key));
       if stored b then andThen (DeleteIPBan key) (λ _, mret ()) else mret ()) w =
  (Ok (), set_table (delete key) (set_states (delete key) w)).
Proof.
  rewrite run_bind. unfold modify. rewrite run_local, Hstored, run_andThen.
  unfold DeleteIPBan. by rewrite run_exec_sql, run_mret.
Qed.

Lemma agree_unban clock ip w : agree clock w → agree clock (run (UnbanIP b ip) w).2.
Proof.
  unfold UnbanIP. generalize (UnbanKeys ip) as keys. intros keys. revert w.
  induction keys as [|key keys IH]; intros w Ha; cbn [for_each]; [done|].
  rewrite run_bind, run_unban_key. apply IH.
  intros k. simpl. destruct (decide (k = key)) as [->|Hne].
  - by rewrite !lookup_delete_eq.
  - rewrite !lookup_delete_ne by done. apply Ha.
Qed.

Lemma agree_cleanup clock now w : agree clock w → agree clock (run (cleanupAt b now) w).2.
Proof.
  intros Ha k. unfold cleanupAt, modify. rewrite run_local. simpl. rewrite lookup_omap.
  specialize (Ha k). destruct (states w !! k) as [s|]; simpl; [|done].
  unfold cleanup_entry. destruct (in_ban s now); [done|].
  destruct (negb _ && (banCount s =? 0)) eqn:Hc; simpl.
  - bool_to_prop. destruct (table w !! k); [|done]. simpl in Ha. unfold row_agrees in Ha. lia.
  - destruct (negb _); [|done]. by apply (key_agrees_failures _ s).
Qed.

Lemma agree_op clock op w :
  agree clock w → 0 ≤ clock → clock ≤ op_time clock op →
  (∀ d, d ∈ banDurs b → op_time clock op + d < permanentExpiry) →
  agree (op_time clock op) (run (op_prog b op) w).2.
Proof.
  intros Ha H0 Hclock Hroom.
  assert (agree (op_time clock op) w) as Ha' by (intros k; by apply (key_agrees_later clock)).
  destruct op as [ip now|ip|ip now|ip|now]; cbn [op_prog op_time] in *.
  - rewrite run_bind. pose proof (agree_fail clock ip now w Ha Hclock ltac:(lia) Hroom) as Hr.
    destruct (run (RecordFailure b ip now) w) as [[r|e] w']; [by rewrite run_mret|done].
  - unfold ClearFailures, modify. rewrite run_local. intros k. simpl.
    destruct (decide (k = BanKey ip)) as [->|Hne]; [|by rewrite lookup_alter_ne].
    rewrite lookup_alter_eq. specialize (Ha (BanKey ip)).
    destruct (states w !! BanKey ip) as [s|]; [|done]. by apply (key_agrees_failures _ s).
  - rewrite run_bind. pose proof (agree_check clock ip now w Ha Hclock) as Hr.
    destruct (run (IsBanned b ip now) w) as [[r|e] w']; [by rewrite run_mret|done].
  - by apply agree_unban.
  - by apply agree_cleanup.
Qed.

(** The states a process loads. *)
Lemma lookup_insert_all (f : IPBan → ipState) l (m : gmap string ipState) k :
  NoDup (ban_IP <$> l) →
  fold_left (λ m ban, <[ban_IP ban := f ban]> m) l m !! k =
  match find (λ ban, bool_decide (ban_IP ban = k)) l with
  | Some ban => Some (f ban)
  | None => m !! k
  end.
Proof.
  revert m. induction l as [|ban l IH]; intros m Hnd; simpl; [done|].
  rewrite fmap_cons in Hnd. apply NoDup_cons in Hnd as [Hban Hnd]. rewrite IH by done.
  destruct (decide (ban_IP ban = k)) as [<-|Hne].
  - rewrite bool_decide_true by done. rewrite lookup_insert_eq.
    destruct (find _ l) as [ban'|] eqn:Hf; [|done]. exfalso. apply Hban.
    apply find_some in Hf as [Hin Hk]. bool_to_prop. rewrite <-Hk.
    apply list_elem_of_fmap. exists ban'. by rewrite list_elem_of_In.
  - rewrite bool_decide_false by done. by rewrite lookup_insert_ne.
Qed.

Lemma states_restart now w k :
  states (restart b now w) !! k =
    (λ row, loaded_state now (ban_of_row (k, row))) <$> table w !! k ∧
  table (restart b now w) = table w.
Proof.
  unfold restart, Load. rewrite Hstored. cbn [negb]. rewrite run_bind.
  unfold ListIPBans. rewrite run_query. unfold modify. rewrite run_local. cbn [snd].
  split; [|done]. simpl.
  assert (ban_IP <$> (ban_of_row <$> order_by by_banned_at_desc (map_to_list (table w))) =
    (order_by by_banned_at_desc (map_to_list (table w))).*1) as Hips.
  { rewrite <-list_fmap_compose. by apply list_fmap_ext. }
  rewrite lookup_insert_all.
  2:{ rewrite Hips, order_by_perm. apply NoDup_fst_map_to_list. }
  destruct (find _ _) as [ban|] eqn:Hf.
  - apply find_some in Hf as [Hin Hk]. bool_to_prop. apply list_elem_of_In in Hin.
    apply list_elem_of_fmap in Hin as ([k' row] & -> & Hin). simpl in Hk. subst k'.
    rewrite order_by_perm in Hin. apply elem_of_map_to_list in Hin. by rewrite Hin.
  - rewrite lookup_empty. destruct (table w !! k) as [row|] eqn:Hr; [|done]. exfalso.
    eapply find_none in Hf; [|apply list_elem_of_In, list_elem_of_fmap; exists (k, row);
      split; [done|]; rewrite order_by_perm; by apply elem_of_map_to_list].
    by rewrite bool_decide_true in Hf.
Qed.

Lemma agree_restart clock now w : agree clock w → clock ≤ now → 0 ≤ clock →
  agree now (restart b now w).
Proof.
  intros Ha Hclock H0 k. destruct (states_restart now w k) as [-> ->].
  specialize (Ha k). destruct (table w !! k) as [row|]; simpl; [|done].
  destruct (states w !! k) as [s|]; simpl in Ha; [|done]. destruct Ha as (Hc & Hpos & He).
  split; [done|]. split; [simpl; lia|]. unfold loaded_state, ban_of_row. simpl.
  destruct He as [[_ ->]|[[Hr ->]|[Hz (sec & -> & Hsec)]]]; simpl.
  - by left.
  - unfold After. destruct (Z.ltb_spec now (UnixTime (Unix (banExpiry s)))) as [Hlt|Hge].
    + right. left. pose proof (Unix_le (banExpiry s)). pose proof zeroTime_neg.
      split; [lia|]. f_equal. unfold Unix at 2, UnixTime, Second.
      by rewrite Z.div_mul by lia.
    + right. right. split; [done|]. by eexists.
  - unfold After. destruct (Z.ltb_spec now (UnixTime sec)); [lia|].
    right. right. split; [done|]. exists sec. split; [done|lia].
Qed.

Lemma running_agree clock w : running b clock w → agree clock w ∧ 0 ≤ clock.
Proof.
  induction 1 as [|clock w op _ [IH H0] Hclock Hroom|clock w now _ [IH H0] Hclock].
  - split; [|lia]. intros k. simpl. by rewrite !lookup_empty.
  - split; [by apply agree_op|lia].
  - split; [by apply (agree_restart clock)|lia].
Qed.
End agreement.

(** ** Properties *)

(** for a client outside the trusted networks and without earlier failures,
    [maxFails] failed logins within one window ban it at the last one and not
    before, for the first duration or forever, even when the ban cannot be
    written to the database. *)
Theorem ban_after_maxFails (b : Config) (ip : string) (last : Time) (ts : list Time)
    (io : list (option error)) (w : Bans)
    (Htrusted : isTrusted b ip = false) (Hnew : states w !! BanKey ip = None)
    (Hwindow : ∀ t, t ∈ ts → last - window b < t ≤ last)
    (Hlength : Z.of_nat (length ts) = maxFails b) (Hsome : ts ≠ [])
    (Hlast : List.last ts 0 = last)
    (Htimes : 0 ≤ last) (Hdur : 0 ≤ banDurFor b 0)
    (Hroom : last + banDurFor b 0 < permanentExpiry) :
  ∃ w' io', exec (record_all b ip ts) io w =
    (Ok (replicate (length ts - 1) false ++ [true]), w', io') ∧
    ∀ now, ∃ remaining, (run (IsBanned b ip now) w').1 =
      Ok (bool_decide (banDurFor b 0 = 0 ∨ now < last + banDurFor b 0), remaining).
Proof.
  assert (state_of w (BanKey ip) = new_ipState) as Hs by (unfold state_of; by rewrite Hnew).
  destruct (exec_record_all b ip last ts io w) as (w' & io' & Hx & s & Hs' & Hc);
    rewrite ?Hs; try done.
  { intros t Ht. by apply not_elem_of_nil in Ht. }
  exists w', io'. split; [done|]. intros now. unfold IsBanned. rewrite Htrusted, run_local.
  cbn [fst]. unfold banned_step. rewrite Hs in Hc. cbn [banCount new_ipState] in Hc.
  assert (banExpiry (state_of w' (BanKey ip)) =
    if banDurFor b 0 =? 0 then permanentExpiry else AddDur last (banDurFor b 0)) as He.
  { rewrite Hs'. unfold banned_state. cbn [banExpiry]. by rewrite Hc. }
  unfold state_of in He. destruct (states w' !! BanKey ip) as [s'|] eqn:Hl; simpl in He.
  2:{ exfalso. revert He. pose proof zeroTime_neg. pose proof zero_not_permanent.
      unfold AddDur. case_match; [done|lia]. }
  rewrite He. destruct (Z.eqb_spec (banDurFor b 0) 0) as [Hz|Hz].
  { rewrite bool_decide_true by (by left). unfold IsZero, Equal.
    rewrite (proj2 (Z.eqb_neq permanentExpiry zeroTime)) by (by apply not_eq_sym, zero_not_permanent).
    rewrite Z.eqb_refl. eauto. }
  unfold IsZero, Equal, AddDur. pose proof zeroTime_neg.
  rewrite (proj2 (Z.eqb_neq (last + banDurFor b 0) zeroTime)) by lia.
  rewrite (proj2 (Z.eqb_neq (last + banDurFor b 0) permanentExpiry)) by lia.
  destruct (Z.leb_spec (Sub (last + banDurFor b 0) now) 0) as [Hle|Hgt];
    unfold Sub, sat64, MinInt64, MaxInt64 in *.
  - rewrite bool_decide_false by lia. eauto.
  - rewrite bool_decide_true by lia. eauto.
Qed.

(** no client is banned early: whenever a failure bans an address, the address
    is not trusted and the process saw at least [maxFails] failures of its key
    within the window, this one included, whatever was cleared, checked, unbanned
    or cleaned up in between and whichever writes failed. *)
Theorem ban_needs_failures (b : Config) (trace : list ban_op) (w : Bans)
    (ip : string) (now : Time) (io : list (option error))
    (Hreached : reached b trace w)
    (Hbanned : (exec (RecordFailure b ip now) io w).1.1 = Ok true) :
  isTrusted b ip = false ∧
  maxFails b ≤ 1 + Z.of_nat (length (List.filter (λ t, now - window b <? t)
    (failed_at b (BanKey ip) trace))).
Proof.
  destruct (isTrusted b ip) eqn:Ht.
  { unfold RecordFailure in Hbanned. by rewrite Ht in Hbanned. }
  split; [done|]. destruct (exec_RecordFailure b ip now io w Ht) as (t & io' & Hx).
  rewrite Hx in Hbanned. cbn [fst] in Hbanned.
  destruct (record_step b (BanKey ip) now w).1 eqn:Hr; [|done].
  assert (∃ ban, (record_step b (BanKey ip) now w).1 = Some ban) as Hsome by eauto.
  apply record_step_bans in Hsome as [_ Hn]. rewrite length_app in Hn. cbn [length] in Hn.
  pose proof (reached_failures b trace w (BanKey ip) Hreached) as Hsub.
  assert (length (recent b now (state_of w (BanKey ip))) ≤
    length (List.filter (λ t, (now - window b <? t)%Z) (rev (failed_at b (BanKey ip) trace))))%nat
    as Hle.
  { unfold recent, After, AddDur. apply sublist_length. apply filter_bool_sublist_mono.
    exact Hsub. }
  rewrite filter_bool_rev, length_rev in Hle. lia.
Qed.

(** The configured duration for a client that was banned [n] times. *)
Lemma banDurFor_configured b n :
  banDurs b ≠ [] → 0 ≤ n →
  banDurs b !! Z.to_nat n = Some (banDurFor b n) ∨
  Z.of_nat (length (banDurs b)) ≤ n ∧ last (banDurs b) = Some (banDurFor b n).
Proof.
  intros Hne Hn. unfold banDurFor. destruct (Z.leb_spec (Z.of_nat (length (banDurs b))) n) as [Hl|Hl].
  - right. split; [done|]. clear Hl. induction (banDurs b) as [|d l IH]; [done|].
    destruct l as [|d2 l]; [done|]. by apply IH.
  - left. destruct (lookup_lt_is_Some_2 (banDurs b) (Z.to_nat n)) as [d Hd]; [lia|].
    rewrite Hd. f_equal. symmetry. by apply nth_lookup_Some.
Qed.

(** A ban in the memory, and its end. *)
Definition runs_until (s : ipState) (now dur : Z) : Prop :=
  banExpiry s = if dur =? 0 then permanentExpiry else AddDur now dur.

Lemma in_ban_until s now dur later :
  0 ≤ now → 0 ≤ dur → now + dur < permanentExpiry → runs_until s now dur →
  in_ban s later = true ↔ dur = 0 ∨ later < now + dur.
Proof.
  intros Hnow Hdur Hroom Hs. unfold in_ban. rewrite Hs. pose proof zeroTime_neg.
  destruct (Z.eqb_spec dur 0) as [Hz|Hz].
  - unfold IsZero, Equal. rewrite Z.eqb_refl, orb_true_l, andb_true_r, negb_true_iff, Z.eqb_neq.
    split; [by left|]. intros _. apply not_eq_sym, zero_not_permanent.
  - unfold IsZero, Equal, Before, AddDur.
    rewrite (proj2 (Z.eqb_neq (now + dur) zeroTime)) by lia.
    rewrite (proj2 (Z.eqb_neq (now + dur) permanentExpiry)) by lia.
    cbn [negb andb orb]. rewrite Z.ltb_lt. lia.
Qed.

(** The answer to a client is whether its ban runs. *)
Lemma IsBanned_in_ban b ip now io w s :
  isTrusted b ip = false → states w !! BanKey ip = Some s →
  (∃ r, (exec (IsBanned b ip now) io w).1.1 = Ok (true, r)) ↔ in_ban s now = true.
Proof.
  intros Ht Hs. unfold IsBanned. rewrite Ht. unfold local. cbn [exec].
  destruct (banned_step (BanKey ip) now w) as [answer w'] eqn:Hb. cbn [exec fst].
  unfold banned_step in Hb. rewrite Hs in Hb. unfold in_ban.
  destruct (IsZero (banExpiry s)); cbn [negb andb].
  { injection Hb as <- <-. split; [by intros [r [=]]|done]. }
  destruct (Equal (banExpiry s) permanentExpiry); cbn [orb].
  { injection Hb as <- <-. split; [done|eauto]. }
  unfold Before. destruct (Z.leb_spec (Sub (banExpiry s) now) 0) as [Hle|Hgt];
    injection Hb as <- <-; unfold Sub, sat64, MinInt64, MaxInt64 in *;
    destruct (Z.ltb_spec now (banExpiry s)); try lia; (split; [by intros [r [=]]|]); try done; eauto.
Qed.

(** C26: bans escalate: the ban of a client already banned [n] times lasts the
    configured duration number [n] (from zero), the last one when there are not as many,
    and for ever when that is zero; it is its ban number [n + 1].  Nothing is counted
    while it runs: a failure from the same addresses then changes neither the memory nor
    the table.  No operation but an unban of the client lowers the number of bans. *)
Theorem escalation (b : Config) (ip : string) (now : Time)
    (io io' : list (option error)) (w w' : Bans)
    (Hbanned : exec (RecordFailure b ip now) io w = (Ok true, w', io'))
    (Htimes : 0 ≤ now) (Hsome : banDurs b ≠ []) (Hdurs : ∀ d, d ∈ banDurs b → 0 ≤ d)
    (Hroom : ∀ d, d ∈ banDurs b → now + d < permanentExpiry)
    (Hcount : 0 ≤ banCount (state_of w (BanKey ip))) :
  let n := banCount (state_of w (BanKey ip)) in
  banCount (state_of w' (BanKey ip)) = n + 1 ∧
  (∃ dur, (banDurs b !! Z.to_nat n = Some dur ∨
           Z.of_nat (length (banDurs b)) ≤ n ∧ last (banDurs b) = Some dur) ∧
    ∀ later faults,
      ((∃ r, (exec (IsBanned b ip later) faults w').1.1 = Ok (true, r)) ↔
        dur = 0 ∨ later < now + dur) ∧
      (dur = 0 ∨ later < now + dur → ∀ ip', BanKey ip' = BanKey ip →
        exec (RecordFailure b ip' later) faults w' = (Ok false, w', faults))) ∧
  ∀ op k faults, (∀ ip', op = OpUnban ip' → k ∉ UnbanKeys ip') →
    banCount (state_of w' k) ≤ banCount (state_of (exec (op_prog b op) faults w').1.2 k).
Proof.
  cbv zeta. destruct (isTrusted b ip) eqn:Ht.
  { unfold RecordFailure in Hbanned. by rewrite Ht in Hbanned. }
  destruct (exec_RecordFailure b ip now io w Ht) as (t & io2 & Hx).
  rewrite Hx in Hbanned. injection Hbanned as Hr Hw _.
  set (n := banCount (state_of w (BanKey ip))) in *. set (s := banned_state b now (state_of w (BanKey ip))).
  assert (states w' !! BanKey ip = Some s) as Hs.
  { subst w'. cbn [states]. revert Hr. unfold record_step.
    destruct (in_ban _ _); [done|]. destruct (_ <? _); [done|]. intros _.
    cbn [snd states set_states]. by rewrite lookup_insert_eq. }
  assert (state_of w' (BanKey ip) = s) as Hst by (unfold state_of; by rewrite Hs).
  assert (banDurFor b n ∈ banDurs b) as Hin.
  { destruct (banDurFor_configured b n Hsome Hcount) as [Hl|[_ Hl]];
      [by eapply list_elem_of_lookup_2|by apply last_Some_elem_of]. }
  pose proof (λ later, in_ban_until s now (banDurFor b n) later Htimes (Hdurs _ Hin) (Hroom _ Hin)
    eq_refl) as Hruns.
  split_and!; [by rewrite Hst| |intros op k faults Hop; by apply op_state].
  exists (banDurFor b n). split; [by apply banDurFor_configured|]. intros later faults. split.
  - rewrite <-Hruns. by apply IsBanned_in_ban.
  - intros Hlater ip' Hip. unfold RecordFailure. destruct (isTrusted b ip'); [done|].
    unfold mbind, prog_bind. rewrite exec_andThen. unfold local. cbn [exec]. unfold record_step.
    rewrite Hip, Hst, (proj2 (Hruns later) Hlater). cbn [exec].
    unfold set_states. rewrite insert_id by done. by destruct w'.
Qed.

(** bans survive a restart: on a working database the process that loads the
    table knows every ban count, keeps every permanent ban and every temporary
    ban with a second or more to run, and bans nobody else. *)
Theorem restart_keeps_bans `{!SqlOrder} (b : Config) (clock now : Time) (w : Bans)
    (ip : string) (Hstored : stored b = true) (Hdurs : ∀ d, d ∈ banDurs b → 0 ≤ d)
    (Hrunning : running b clock w) (Hnow : clock ≤ now) :
  let w' := restart b now w in
  banCount (state_of w' (BanKey ip)) = banCount (state_of w (BanKey ip)) ∧
  (∀ r, (run (IsBanned b ip now) w').1 = Ok (true, r) →
    ∃ r', (run (IsBanned b ip now) w).1 = Ok (true, r')) ∧
  (∀ r, (run (IsBanned b ip now) w).1 = Ok (true, r) → r = -1 ∨ Second ≤ r →
    ∃ r', (run (IsBanned b ip now) w').1 = Ok (true, r')).
Proof.
  cbv zeta. destruct (running_agree b Hstored Hdurs clock w Hrunning) as [Ha H0].
  specialize (Ha (BanKey ip)).
  destruct (states_restart b Hstored now w (BanKey ip)) as [Hst _].
  unfold IsBanned, state_of. rewrite Hst.
  destruct (isTrusted b ip).
  { rewrite !run_mret. cbn [fst]. split; [|by split].
    destruct (states w !! BanKey ip) as [s|], (table w !! BanKey ip) as [row|]; simpl in *;
      try done; [destruct Ha as [Hc _]|destruct Ha as [Hc _]]; by rewrite Hc. }
  rewrite !run_local. cbn [fst]. unfold banned_step. rewrite Hst.
  pose proof zeroTime_neg. pose proof zero_not_permanent.
  destruct (states w !! BanKey ip) as [s|], (table w !! BanKey ip) as [row|]; simpl in *;
    try done; [|destruct Ha as [-> ->]; by simpl].
  destruct Ha as (Hc & Hpos & He). rewrite Hc. split; [done|].
  destruct He as [[-> ->]|[[Hr ->]|[-> (sec & -> & Hsec)]]]; simpl; unfold IsZero, Equal, After.
  - split; eauto.
  - pose proof (Unix_le (banExpiry s)).
    rewrite (proj2 (Z.eqb_neq (banExpiry s) zeroTime)) by lia.
    rewrite (proj2 (Z.eqb_neq (banExpiry s) permanentExpiry)) by lia.
    destruct (Z.ltb_spec now (UnixTime (Unix (banExpiry s)))) as [Hlt|Hge].
    + rewrite (proj2 (Z.eqb_neq (UnixTime _) zeroTime)) by lia.
      rewrite (proj2 (Z.eqb_neq (UnixTime _) permanentExpiry)) by lia.
      unfold Sub, sat64, MinInt64, MaxInt64.
      rewrite !(proj2 (Z.leb_gt _ 0)) by lia. split; eauto.
    + split; [by rewrite ?Z.eqb_refl|]. intros r.
      unfold Sub, sat64, MinInt64, MaxInt64, Second in *.
      destruct (_ <=? 0) eqn:Hle; [done|]. bool_to_prop. intros [= <-] [?|?]; lia.
  - rewrite ?Z.eqb_refl. destruct (Z.ltb_spec now (UnixTime sec)); [lia|].
    rewrite ?Z.eqb_refl. split; by intros r [=].
Qed.

(** two IPv6 addresses share a ban key exactly when their first 64 bits agree,
    however they are written. *)
Theorem BanKey_groups (ip1 ip2 : string) (g1 g2 : list Z) (zone1 zone2 : string)
    (H1 : ParseAddr ip1 = Some (V6 g1 zone1)) (H2 : ParseAddr ip2 = Some (V6 g2 zone2))
    (Hmapped1 : Is4In6 (V6 g1 zone1) = false) (Hmapped2 : Is4In6 (V6 g2 zone2) = false) :
  BanKey ip1 = BanKey ip2 ↔ take 4 g1 = take 4 g2.
Proof.
  unfold BanKey. rewrite H1, H2, Hmapped1, Hmapped2.
  apply ParseAddr_groups in H1 as [Hg1 Hl1], H2 as [Hg2 Hl2].
  by apply prefix64_string_inj.
Qed.

(** ** Examples: the settings of [web/router.go] *)

Definition ex_config : Config :=
  NewBanhammer 3 (30 * Minute) true [24 * Hour; 7 * 24 * Hour; 0].

Definition ex_ip : string := "198.51.100.1".
Definition ex_empty : Bans := {| states := ∅; table := ∅ |}.
Definition ex_times : list Time := [Minute; 2 * Minute; 3 * Minute].
Definition ex_failures : list ban_op := OpFail ex_ip <$> [2 * Minute; Minute].
Definition ex_failed : Bans :=
  (exec (op_prog ex_config (OpFail ex_ip (2 * Minute))) []
    (exec (op_prog ex_config (OpFail ex_ip Minute)) [] ex_empty).1.2).1.2.
Definition ex_banned : Bans :=
  (run (op_prog ex_config (OpFail ex_ip (3 * Minute))) ex_failed).2.

Lemma ex_durs d : d ∈ banDurs ex_config → d = 24 * Hour ∨ d = 7 * 24 * Hour ∨ d = 0.
Proof.
  change (banDurs ex_config) with [24 * Hour; 7 * 24 * Hour; 0]. rewrite !elem_of_cons, elem_of_nil. tauto.
Qed.

Lemma ex_durs_nonneg d : d ∈ banDurs ex_config → 0 ≤ d.
Proof. intros [-> |[-> | ->]]%ex_durs; unfold Hour, Minute, Second; lia. Qed.

Lemma ex_room d : d ∈ banDurs ex_config → 3 * Minute + d < permanentExpiry.
Proof. intros [-> |[-> | ->]]%ex_durs; vm_compute; reflexivity. Qed.

Lemma ex_running : running ex_config (3 * Minute) ex_banned.
Proof.
  assert (∀ clock w t, running ex_config clock w → clock ≤ t → t ≤ 3 * Minute →
    running ex_config t (run (op_prog ex_config (OpFail ex_ip t)) w).2) as Hstep.
  { intros clock w t Hr Hle Ht. apply (running_op ex_config clock w (OpFail ex_ip t) Hr Hle).
    intros d Hd. pose proof (ex_room d Hd). simpl. lia. }
  apply (Hstep (2 * Minute)); [|unfold Minute, Second; lia..].
  apply (Hstep Minute); [|unfold Minute, Second; lia..].
  apply (Hstep 0); [|unfold Minute, Second; lia..]. apply running_start.
Qed.

Lemma ban_after_maxFails_witness :
  ∃ w' io', exec (record_all ex_config ex_ip ex_times)
      [Some (ErrMsg "disk I/O error")] ex_empty =
    (Ok [false; false; true], w', io') ∧
    ∃ remaining, (run (IsBanned ex_config ex_ip (4 * Minute)) w').1 = Ok (true, remaining).
Proof.
  destruct (ban_after_maxFails ex_config ex_ip (3 * Minute) ex_times
    [Some (ErrMsg "disk I/O error")] ex_empty) as (w' & io' & Hx & Hb);
    [vm_compute; reflexivity|vm_compute; reflexivity| |reflexivity|discriminate|reflexivity
    |unfold Minute, Second; lia|vm_compute; discriminate|vm_compute; reflexivity|].
  - intros t Ht. unfold ex_times in Ht. rewrite !elem_of_cons, elem_of_nil in Ht.
    unfold ex_config, NewBanhammer, window, Minute, Second in *. simpl in *. lia.
  - exists w', io'. split; [exact Hx|]. destruct (Hb (4 * Minute)) as [r Hr].
    exists r. rewrite Hr. vm_compute. reflexivity.
Defined.

Lemma ban_needs_failures_witness :
  reached ex_config ex_failures ex_failed ∧
  (exec (RecordFailure ex_config ex_ip (3 * Minute)) [] ex_failed).1.1 = Ok true ∧
  isTrusted ex_config ex_ip = false.
Proof.
  assert (reached ex_config ex_failures ex_failed) as Hr.
  { unfold ex_failures, ex_failed. cbn [fmap list_fmap]. repeat constructor. }
  assert ((exec (RecordFailure ex_config ex_ip (3 * Minute)) [] ex_failed).1.1 = Ok true)
    as Hb by (vm_compute; reflexivity).
  split; [exact Hr|]. split; [exact Hb|].
  exact (proj1 (ban_needs_failures ex_config ex_failures ex_failed ex_ip (3 * Minute) [] Hr Hb)).
Defined.

(** The first ban lasts a day; a failure within it is not counted. *)
Lemma escalation_witness :
  banCount (state_of ex_banned (BanKey ex_ip)) = 1 ∧
  (∃ r, (exec (IsBanned ex_config ex_ip (10 * Minute)) [] ex_banned).1.1 = Ok (true, r)) ∧
  exec (RecordFailure ex_config ex_ip (10 * Minute)) [] ex_banned = (Ok false, ex_banned, []).
Proof.
  destruct (escalation ex_config ex_ip (3 * Minute) [] [] ex_failed ex_banned)
    as (Hc & (dur & Hdur & Hb) & _);
    [vm_compute; reflexivity|vm_compute; congruence|done|apply ex_durs_nonneg|apply ex_room
    |vm_compute; congruence|].
  assert (dur = 24 * Hour) as ->.
  { destruct Hdur as [Hd|[Hn _]]; [|by vm_compute in Hn].
    vm_compute in Hd. injection Hd as <-. vm_compute. reflexivity. }
  destruct (Hb (10 * Minute) []) as [Hyes Hno]. assert (10 * Minute < 3 * Minute + 24 * Hour) as Hlt
    by (vm_compute; reflexivity).
  split; [exact Hc|]. split; [apply Hyes; right; exact Hlt|].
  apply Hno; [right; exact Hlt|reflexivity].
Defined.

Lemma restart_keeps_bans_witness :
  running ex_config (3 * Minute) ex_banned ∧
  ∃ r, (run (IsBanned ex_config ex_ip (10 * Minute))
    (restart ex_config (10 * Minute) ex_banned)).1 = Ok (true, r).
Proof.
  split; [exact ex_running|].
  destruct (restart_keeps_bans ex_config (3 * Minute) (10 * Minute) ex_banned ex_ip
    eq_refl ex_durs_nonneg ex_running) as (_ & _ & Hkeep);
    [unfold Minute, Second; lia|].
  apply (Hkeep (24 * Hour - 7 * Minute)); [vm_compute; reflexivity|right; unfold Hour, Minute, Second; lia].
Defined.

Lemma BanKey_groups_witness :
  BanKey "2001:db8:1:2::9" = BanKey "2001:0DB8:1:2:ffff::1%eth0" ∧
  BanKey "2001:db8:1:2::9" ≠ BanKey "2001:db8:1:3::9".
Proof.
  split.
  - by apply (BanKey_groups "2001:db8:1:2::9" "2001:0DB8:1:2:ffff::1%eth0"
      [0x2001; 0xdb8; 1; 2; 0; 0; 0; 9] [0x2001; 0xdb8; 1; 2; 0xffff; 0; 0; 1] "" "eth0").
  - intros Heq. apply (BanKey_groups "2001:db8:1:2::9" "2001:db8:1:3::9"
      [0x2001; 0xdb8; 1; 2; 0; 0; 0; 9] [0x2001; 0xdb8; 1; 3; 0; 0; 0; 9] "" "") in Heq;
      [discriminate Heq|reflexivity..].
Defined.
