(* ===== verification/Network.v ===== *)
(** * Network policy: [internal/netutil] and [ExtractIP] of [internal/ratelimit]

    Whose address a request counts for, which addresses the server may connect to on
    behalf of a browser, and which hosts look public.  [SplitHostPort], [JoinHostPort]
    and [ParseIP] of [net] and the predicates of [net/netip] are defined here; DNS and
    the dialer are arguments. *)
From Stdlib Require Import Ascii Btauto.
From S2P Require Import Prelude GoStrings GoNetip GoText Sql Banhammer.

(** ** [net] and [net/netip] *)

(** [hostport[i+1:]] and [hostport[:i]] for the last colon. *)
Definition last_colon (s : string) : option nat := LastIndex s ":".

Definition SplitHostPort (hostport : string) : result (string * string) :=
  let refuse msg := Err (ErrMsg msg) in
  match last_colon hostport with
  | None => refuse "missing port in address"
  | Some i =>
      let checked host opened closed :=
        if has_byte "[" opened then refuse "unexpected '[' in address"
        else if has_byte "]" closed then refuse "unexpected ']' in address"
        else Ok (host, str_drop_nat (S i) hostport) in
      if HasPrefix hostport "[" then
        match Index hostport "]" with
        | None => refuse "missing ']' in address"
        | Some end_ =>
            if Nat.eqb (S end_) (String.length hostport) then refuse "missing port in address"
            else if Nat.eqb (S end_) i
            then checked (str_take_nat (end_ - 1) (str_drop_nat 1 hostport))
                   (str_drop_nat 1 hostport) (str_drop_nat (S end_) hostport)
            else if HasPrefix (str_drop_nat (S end_) hostport) ":"
            then refuse "too many colons in address" else refuse "missing port in address"
        end
      else
        let host := str_take_nat i hostport in
        if has_byte ":" host then refuse "too many colons in address"
        else checked host hostport hostport
  end.

Definition JoinHostPort (host port : string) : string :=
  if has_byte ":" host then "[" +:+ host +:+ "]:" +:+ port else host +:+ ":" +:+ port.

Definition v4_string (fields : list Z) : string := JoinText "." (Itoa <$> fields).

(** [Addr.String]. *)
Definition AddrString (a : Addr) : string :=
  match a with
  | V4 fields => v4_string fields
  | V6 groups zone =>
      let text := if Is4In6 a then match Unmap a with V4 fields => "::ffff:" +:+ v4_string fields
                                                 | V6 _ _ => "" end
                  else v6_string groups in
      if str_empty zone then text else text +:+ "%" +:+ zone
  end.

Definition group (groups : list Z) (i : nat) : Z := nth i groups 0.

Definition IsLoopback (a : Addr) : bool :=
  match a with
  | V4 f => group f 0 =? 127
  | V6 g zone => bool_decide (g = [0; 0; 0; 0; 0; 0; 0; 1])
  end.

Definition IsMulticast (a : Addr) : bool :=
  match a with
  | V4 f => Z.land (group f 0) 0xf0 =? 0xe0
  | V6 g _ => Z.shiftr (group g 0) 8 =? 0xff
  end.

Definition IsLinkLocalUnicast (a : Addr) : bool :=
  match a with
  | V4 f => (group f 0 =? 169) && (group f 1 =? 254)
  | V6 g _ => Z.land (group g 0) 0xffc0 =? 0xfe80
  end.

Definition IsPrivate (a : Addr) : bool :=
  match a with
  | V4 f => (group f 0 =? 10) || ((group f 0 =? 172) && (Z.land (group f 1) 0xf0 =? 16)) ||
            ((group f 0 =? 192) && (group f 1 =? 168))
  | V6 g _ => Z.land (group g 0) 0xfe00 =? 0xfc00
  end.

Definition IsUnspecified (a : Addr) : bool :=
  match a with
  | V4 f => bool_decide (f = [0; 0; 0; 0])
  | V6 g zone => bool_decide (g = replicate 8 0) && str_empty zone
  end.

Definition IsGlobalUnicast (a : Addr) : bool :=
  negb (IsUnspecified a) &&
  negb (match a with V4 f => bool_decide (f = [255; 255; 255; 255]) | V6 _ _ => false end) &&
  negb (IsLoopback a) && negb (IsMulticast a) && negb (IsLinkLocalUnicast a).

Definition is_v6 (a : Addr) : bool := match a with V6 _ _ => true | V4 _ => false end.
Definition bit_len (a : Addr) : Z := (addr_value a).2.

(** [netip.ParsePrefix]; the numbers of bits are written without sign or leading zero. *)
Definition ParsePrefix (s : string) : option Prefix :=
  i ← LastIndex s "/";
  ip ← ParseAddr (str_take_nat i s);
  let bits := str_drop_nat (S i) s in
  if has_zone ip then None else
  let leading := match bits with
                 | String c (String _ _) => negb (is_digit c) || bool_decide (c = "0"%char)
                 | _ => false end in
  if leading then None else
  let '(n, ok) := ParseInt bits in
  if negb ok || (n <? 0) || (bit_len ip <? n) then None
  else Some {| pfx_addr := ip; pfx_bits := n |}.

(** The fields of width [w] of an address, with the bits behind the first [n] cleared. *)
Fixpoint mask_fields (w n : Z) (fields : list Z) : list Z :=
  match fields with
  | [] => []
  | f :: fields =>
      let keep := Z.max 0 (Z.min w n) in
      Z.shiftl (Z.shiftr f (w - keep)) (w - keep) :: mask_fields w (n - w) fields
  end.

Definition Masked (p : Prefix) : Prefix :=
  {| pfx_addr := match pfx_addr p with
                 | V4 f => V4 (mask_fields 8 (pfx_bits p) f)
                 | V6 g _ => V6 (mask_fields 16 (pfx_bits p) g) "" end;
     pfx_bits := pfx_bits p |}.

(** ** [publichttp.go] *)

(** [netip.MustParsePrefix]. *)
Definition MustParsePrefix (s : string) : list Prefix :=
  match ParsePrefix s with Some p => [p] | None => [] end.

Definition nonPublicRanges : list Prefix :=
  flat_map MustParsePrefix
    ["100.64.0.0/10"; "198.18.0.0/15"; "192.0.0.0/24"; "240.0.0.0/4"; "168.63.129.16/32";
     "64:ff9b::/96"; "64:ff9b:1::/48"; "2002::/16"; "2001::/32"].

Definition IsPublicIP (ip : Addr) : bool :=
  let ip := Unmap ip in
  negb (has_zone ip) && IsGlobalUnicast ip && negb (IsPrivate ip) && negb (IsLoopback ip) &&
  negb (IsLinkLocalUnicast ip) && negb (existsb (λ p, prefix_contains p ip) nonPublicRanges).

(** The dialer connects to a text address; the attempts so far are the state. *)
Definition dial (address : string) : prog (list string) () :=
  _ ← stmt (λ l, Ok ((), l ++ [address])); stmt (λ l, Ok ((), l)).

Fixpoint dial_each (port : string) (ips : list Addr) (lastErr : error) : prog (list string) string :=
  match ips with
  | [] => fail lastErr
  | ip :: ips =>
      let address := JoinHostPort (AddrString ip) port in
      andThen (dial address) (λ r,
        match r with Ok _ => mret address | Err e => dial_each port ips e end)
  end.

Definition dialPublicIPs (port : string) (ips : list Addr) : prog (list string) string :=
  match ips with
  | [] => fail (ErrMsg "push destination has no addresses")
  | _ =>
      if existsb (λ ip, negb (IsPublicIP ip)) ips
      then fail (ErrMsg "push destination resolves to a non-public address")
      else dial_each port ips (ErrMsg "")
  end.

(** [lookup] is the answer of the resolver. *)
Definition publicDialContext (lookup : string → result (list Addr)) (address : string) :
    prog (list string) string :=
  match SplitHostPort address with
  | Ok (host, "443") =>
      match lookup host with Ok ips => dialPublicIPs "443" ips | Err e => fail e end
  | _ => fail (ErrMsg "push destination must use HTTPS port 443")
  end.

(** ** Requests *)

(** The header has the lines of a name in their order. *)
Record NetRequest := {
  r_RemoteAddr : string; r_Host : string; r_TLS : bool; r_Header : gmap string (list string) }.

(** [r.Header.Get]: the first line of the name. *)
Definition header_get (key : string) (r : NetRequest) : string :=
  match r_Header r !! key with Some (v :: _) => v | _ => "" end.

(** ** [realip.go] *)

Definition parseTrustedProxyCIDRs (rawCIDRs : list string) : list Prefix :=
  omap (λ raw, Masked <$> ParsePrefix (TrimSpace raw)) rawCIDRs.

(** [strings.Trim(s, "[]")]. *)
Definition is_bracket (c : ascii) : bool := bool_decide (c = "["%char) || bool_decide (c = "]"%char).

Fixpoint drop_brackets (s : string) : string :=
  match s with String c t => if is_bracket c then drop_brackets t else s | EmptyString => s end.

Definition trim_brackets (s : string) : string :=
  String.rev (drop_brackets (String.rev (drop_brackets s))).

Definition remoteAddrIP (remoteAddr : string) : option Addr :=
  let host := match SplitHostPort remoteAddr with Ok (host, _) => host | Err _ => remoteAddr end in
  ParseAddr (trim_brackets host).

Definition isTrustedProxy (addr : Addr) (trusted : list Prefix) : bool :=
  existsb (λ p, prefix_contains p addr) trusted.

(** The last address of the parts, given from the last one back, that is not of a
    trusted proxy. *)
Fixpoint last_untrusted (trusted : list Prefix) (rev_parts : list string) : option Addr :=
  match rev_parts with
  | [] => None
  | part :: rest =>
      match ParseAddr (TrimSpace part) with
      | Some addr => if isTrustedProxy addr trusted then last_untrusted trusted rest else Some addr
      | None => last_untrusted trusted rest
      end
  end.

Definition forwardedClientIP (r : NetRequest) (trusted : list Prefix) : option Addr :=
  let forwarded := header_get "X-Forwarded-For" r in
  let from_list := if str_empty forwarded then None
                   else last_untrusted trusted (rev (Split "," forwarded)) in
  match from_list with
  | Some addr => Some addr
  | None => ParseAddr (TrimSpace (header_get "X-Real-Ip" r))
  end.

Definition forwarded_headers : list string :=
  ["X-Forwarded-For"; "X-Real-Ip"; "X-Forwarded-Host"; "X-Forwarded-Proto"].

Definition clearForwardedHeaders (r : NetRequest) : NetRequest :=
  {| r_RemoteAddr := r_RemoteAddr r; r_Host := r_Host r; r_TLS := r_TLS r;
     r_Header := fold_left (λ h key, delete key h) forwarded_headers (r_Header r) |}.

Definition set_remote (addr : string) (r : NetRequest) : NetRequest :=
  {| r_RemoteAddr := addr; r_Host := r_Host r; r_TLS := r_TLS r; r_Header := r_Header r |}.

(** The request that the next handler gets. *)
Definition TrustedProxyRealIP (rawCIDRs : list string) (r : NetRequest) : NetRequest :=
  let trusted := parseTrustedProxyCIDRs rawCIDRs in
  match remoteAddrIP (r_RemoteAddr r) with
  | None => clearForwardedHeaders r
  | Some peer =>
      if negb (isTrustedProxy peer trusted) then clearForwardedHeaders r else
      match forwardedClientIP r trusted with
      | Some client => set_remote (JoinHostPort (AddrString client) "0") r
      | None => r
      end
  end.

Definition ExtractIP (r : NetRequest) : string :=
  match SplitHostPort (r_RemoteAddr r) with Ok (host, _) => host | Err _ => r_RemoteAddr r end.

(** ** [host.go] *)

(** [strings.Split(s, ",")[0]]. *)
Definition first_part (s : string) : string := before "," s.

Definition normalizeHost (host : string) : string :=
  let host := TrimSpace (first_part host) in
  let host := match SplitHostPort host with Ok (h, _) => h | Err _ => host end in
  trim_brackets host.

Definition HostFromRequest (r : NetRequest) : string :=
  let forwarded := header_get "X-Forwarded-Host" r in
  normalizeHost (if negb (str_empty forwarded) then first_part forwarded else r_Host r).

Definition RequestScheme (r : NetRequest) : string :=
  let proto := header_get "X-Forwarded-Proto" r in
  if negb (str_empty proto) then ToLower (TrimSpace (first_part proto))
  else if r_TLS r then "https" else "http".

(** [net.ParseIP]: the address without a zone, an IPv4 one in either form. *)
Definition ParseIP (s : string) : option Addr :=
  a ← ParseAddr s; if has_zone a then None else Some (Unmap a).

Definition isCGNAT (ip : Addr) : bool :=
  match ip with
  | V4 f => (group f 0 =? 100) && (64 <=? group f 1) && (group f 1 <=? 127)
  | V6 _ _ => false
  end.

(** [strings.HasSuffix]. *)
Definition HasSuffix (s suffix : string) : bool := HasPrefix (String.rev s) (String.rev suffix).

Definition HostLooksPublic (host : string) : bool :=
  let host := normalizeHost host in
  if str_empty host then false
  else if EqualFold host "localhost" || HasSuffix (ToLower host) ".localhost" then false
  else match ParseIP host with
  | Some ip => negb (IsLoopback ip || IsPrivate ip || IsUnspecified ip || isCGNAT ip)
  | None => Contains host "."
  end.

Example split_ports :
  SplitHostPort "10.0.0.1:80" = Ok ("10.0.0.1", "80") ∧ SplitHostPort "[::1]:443" = Ok ("::1", "443") ∧
  is_ok (SplitHostPort "::1") = false ∧ is_ok (SplitHostPort "[::1]") = false ∧
  is_ok (SplitHostPort "host") = false ∧ SplitHostPort ":80" = Ok ("", "80") ∧
  is_ok (SplitHostPort "[::1]80:1") = false ∧
  (AddrString <$> ParseAddr "2001:db8::0:1") = Some "2001:db8::1" ∧
  (AddrString <$> ParseAddr "::ffff:10.0.0.1") = Some "::ffff:10.0.0.1" ∧ length nonPublicRanges = 9%nat ∧
  (λ p, AddrString (pfx_addr (Masked p))) <$> ParsePrefix "2001:db8:ffff::1/41" = Some "2001:db8:ff80::" ∧
  HostLooksPublic <$> ["localhost"; "127.0.0.1:36748"; "100.64.2.10:36748"; "172.20.1.5"; "100.128.0.1";
    "probakgo"; "probakgo.empresa.info"; "8.8.8.8"; "[::1]:80"] =
    [false; false; false; false; true; false; true; true; false].
Proof. split_and!; vm_compute; reflexivity. Qed.

(** ** Lemmas: splitting what was joined *)

Lemma take_app_str s t : str_take_nat (String.length s) (s +:+ t) = s.
Proof. induction s as [|a s IH]; [by destruct t|]. simpl. by rewrite IH. Qed.

Lemma drop_app_str s t : str_drop_nat (String.length s) (s +:+ t) = t.
Proof. by induction s as [|a s IH]. Qed.

Lemma drop_past_str c s t : str_drop_nat (S (String.length s)) (s +:+ String c t) = t.
Proof. by induction s as [|a s IH]. Qed.

Lemma LastIndex_none c s : has_byte c s = false → LastIndex s (String c "") = None.
Proof.
  induction s as [|a s IH]; [done|]. simpl. intros [Ha Hs]%orb_false_iff.
  rewrite (IH Hs). apply bool_decide_eq_false in Ha. by rewrite bool_decide_false.
Qed.

Lemma LastIndex_last c s t :
  has_byte c t = false → LastIndex (s +:+ String c t) (String c "") = Some (String.length s).
Proof.
  intros Ht. induction s as [|a s IH]; simpl.
  - rewrite LastIndex_none by done. rewrite bool_decide_true by done. by destruct t.
  - change (String a (s +:+ String c t)) with (String a s +:+ String c t). by rewrite IH.
Qed.

Lemma Index_first c s t :
  has_byte c s = false → Index (s +:+ String c t) (String c "") = Some (String.length s).
Proof.
  induction s as [|a s IH]; simpl.
  - intros _. rewrite bool_decide_true by done. by destruct t.
  - intros [Ha Hs]%orb_false_iff. apply bool_decide_eq_false in Ha.
    rewrite bool_decide_false by done. by rewrite IH.
Qed.

(** A text without brackets, and a port without colon or bracket, are read back. *)
Lemma split_joined_host host port :
  has_byte "[" host = false → has_byte "]" host = false →
  has_byte ":" port = false → has_byte "[" port = false → has_byte "]" port = false →
  SplitHostPort (JoinHostPort host port) = Ok (host, port).
Proof.
  intros Ho Hc Hp1 Hp2 Hp3. unfold JoinHostPort, SplitHostPort, last_colon.
  destruct (has_byte ":" host) eqn:Hcolon.
  - set (s := "[" +:+ host +:+ "]").
    assert ("[" +:+ host +:+ "]:" +:+ port = s +:+ String ":" port) as Hs
      by (unfold s; by rewrite !app_assoc_str).
    rewrite Hs, LastIndex_last by done.
    assert (Index (s +:+ String ":" port) "]" = Some (String.length ("[" +:+ host))) as ->.
    { rewrite <-Hs. change ("[" +:+ host +:+ "]:" +:+ port)
        with ("[" +:+ (host +:+ String "]" (String ":" port))).
      rewrite <-app_assoc_str. apply Index_first. by rewrite has_byte_app, Hc. }
    assert (String.length s = S (String.length ("[" +:+ host))) as Hls.
    { unfold s. rewrite <-app_assoc_str, str_length_app. simpl. lia. }
    rewrite <-Hs. change (HasPrefix ("[" +:+ host +:+ "]:" +:+ port) "[") with
      (HasPrefix (host +:+ "]:" +:+ port) ""). assert (∀ t, HasPrefix t "" = true) as -> by by intros [].
    change (str_drop_nat 1 ("[" +:+ host +:+ "]:" +:+ port)) with (host +:+ "]:" +:+ port).
    rewrite Hs.
    rewrite <-Hls. rewrite (proj2 (Nat.eqb_neq _ _)).
    2:{ rewrite str_length_app. simpl. lia. }
    rewrite Nat.eqb_refl, drop_app_str, str_length_app.
    assert (host +:+ "]:" +:+ port = host +:+ String "]" (String ":" port)) as -> by done.
    replace (String.length "[" + String.length host - 1)%nat with (String.length host) by (simpl; lia).
    rewrite take_app_str, drop_past_str.
    assert (has_byte "[" (host +:+ String "]" (String ":" port)) = false) as ->
      by (rewrite has_byte_app, Ho; exact Hp2).
    assert (has_byte "]" (String ":" port) = false) as -> by exact Hp3. done.
  - assert (host +:+ ":" +:+ port = host +:+ String ":" port) as -> by done.
    rewrite LastIndex_last, take_app_str, drop_past_str, Hcolon by done.
    assert (∀ c, has_byte c host = false → has_byte c port = false → c ≠ ":"%char →
      has_byte c (host +:+ String ":" port) = false) as Hno.
    { intros c Hh Hp Hne. rewrite has_byte_app, Hh. simpl. rewrite Hp.
      by rewrite bool_decide_false by congruence. }
    rewrite (Hno "["%char), (Hno "]"%char) by done.
    assert (HasPrefix (host +:+ String ":" port) "[" = false) as ->; [|done].
    destruct host as [|c host]; [done|]. rewrite app_cons_str. simpl in Ho |- *.
    apply orb_false_iff in Ho as [Hb _]. by rewrite Hb.
Qed.

(** *** The text of an address holds no bracket *)

Definition bracket_free (s : string) : bool := negb (has_byte "[" s) && negb (has_byte "]" s).

Lemma bracket_free_app s t : bracket_free (s +:+ t) = bracket_free s && bracket_free t.
Proof.
  unfold bracket_free. rewrite !has_byte_app.
  by destruct (has_byte "[" s), (has_byte "]" s), (has_byte "[" t), (has_byte "]" t).
Qed.

Lemma bracket_free_concat sep (l : list string) :
  bracket_free sep = true → Forall (λ s, bracket_free s = true) l →
  bracket_free (JoinText sep l) = true.
Proof.
  intros Hsep Hl. induction Hl as [|s l Hs Hl IH]; [done|]. destruct l as [|t l]; [done|].
  change (JoinText sep (s :: t :: l)) with (s +:+ sep +:+ JoinText sep (t :: l)).
  by rewrite !bracket_free_app, Hs, Hsep, IH.
Qed.

Lemma bracket_free_Itoa n : bracket_free (Itoa n) = true.
Proof. unfold bracket_free. by rewrite !has_byte_Itoa. Qed.

Lemma bracket_free_v4 fields : bracket_free (v4_string fields) = true.
Proof.
  apply bracket_free_concat; [done|]. rewrite Forall_fmap. apply Forall_true. intros n. apply bracket_free_Itoa.
Qed.

Lemma bracket_free_hex g : bracket_free (append_hex g) = true.
Proof.
  assert (∀ n, bracket_free (String (hex_digit (n mod 16)) "") = true) as Hd.
  { intros n. assert (0 ≤ n mod 16 < 16) as Hn by (apply Z.mod_pos_bound; lia).
    assert (forallb (λ k, bracket_free (String (hex_digit k) "")) (seqZ 0 16) = true) as Hall
      by (vm_compute; reflexivity).
    rewrite forallb_forall in Hall. apply Hall, list_elem_of_In, elem_of_seqZ. lia. }
  unfold append_hex. rewrite !bracket_free_app. rewrite Hd.
  by destruct (g <? 0x1000), (g <? 0x100), (g <? 0x10); rewrite ?Hd.
Qed.

Lemma bracket_free_join_hex groups : bracket_free (join_hex groups) = true.
Proof.
  destruct groups as [|g groups]; [done|]. simpl.
  pose proof (bracket_free_hex g) as Hacc. revert Hacc. generalize (append_hex g).
  induction groups as [|h groups IH]; intros acc Hacc; [done|]. simpl. apply IH.
  rewrite bracket_free_app, Hacc. exact (bracket_free_hex h).
Qed.

Lemma bracket_free_AddrString a : has_zone a = false → bracket_free (AddrString a) = true.
Proof.
  destruct a as [fields|groups zone]; [intros _; apply bracket_free_v4|].
  cbn [has_zone AddrString]. intros Hz%negb_false_iff. rewrite Hz.
  destruct (Is4In6 _) eqn:H4.
  - cbn [Unmap]. rewrite H4. rewrite bracket_free_app. by rewrite bracket_free_v4.
  - unfold v6_string. destruct (longest_run _ _ _) as [start [|n]];
      rewrite ?bracket_free_app, ?bracket_free_join_hex; done.
Qed.

(** The address that the middleware writes is the one that the guards read. *)
Lemma extract_set_remote a r :
  has_zone a = false → ExtractIP (set_remote (JoinHostPort (AddrString a) "0") r) = AddrString a.
Proof.
  intros [Ho Hc]%bracket_free_AddrString%andb_true_iff. apply negb_true_iff in Ho, Hc.
  unfold ExtractIP, set_remote. cbn [r_RemoteAddr]. by rewrite split_joined_host.
Qed.

(** ** Whose address a request counts for *)

(** The headers that a proxy may set. *)
Lemma header_get_cleared key r :
  key ∈ forwarded_headers → header_get key (clearForwardedHeaders r) = "".
Proof.
  intros Hk. unfold header_get, clearForwardedHeaders. cbn [r_Header fold_left forwarded_headers].
  unfold forwarded_headers in Hk. rewrite !elem_of_cons in Hk.
  destruct Hk as [->|[->|[->|[->|Hk]]]]; [simpl_map; done..|]. by apply not_elem_of_nil in Hk.
Qed.

Lemma last_untrusted_skip trusted parts rest :
  Forall (λ part, ∃ a, ParseAddr (TrimSpace part) = Some a ∧ isTrustedProxy a trusted = true) parts →
  last_untrusted trusted (parts ++ rest) = last_untrusted trusted rest.
Proof. induction 1 as [|part parts (a & Hp & Ht) _ IH]; [done|]. simpl. by rewrite Hp, Ht. Qed.

Lemma Split_nonempty c s : Split c s ≠ [].
Proof. destruct s as [|a s]; [done|]. simpl. destruct (decide _); [done|]. by destruct (Split c s). Qed.

Lemma Split_app_any c s t : Split c (s +:+ String c t) = Split c s ++ Split c t.
Proof.
  induction s as [|a s IH]; simpl; [by rewrite decide_True|].
  destruct (decide (a = c)); [by rewrite IH|]. rewrite IH. pose proof (Split_nonempty c s). by destruct (Split c s).
Qed.

(** who connects without a trusted proxy in between is known by the address of the
    connection: nothing in the headers changes the address that bans and limits go by,
    and the host and the scheme are those of the request itself. *)
Theorem direct_client_not_spoofed (rawCIDRs : list string) (r : NetRequest) :
  match remoteAddrIP (r_RemoteAddr r) with
  | Some peer => isTrustedProxy peer (parseTrustedProxyCIDRs rawCIDRs) = false
  | None => True
  end →
  let r' := TrustedProxyRealIP rawCIDRs r in
  ExtractIP r' = ExtractIP r ∧ BanKey (ExtractIP r') = BanKey (ExtractIP r) ∧
  HostFromRequest r' = normalizeHost (r_Host r) ∧
  RequestScheme r' = (if r_TLS r then "https" else "http").
Proof.
  intros Hpeer r'. assert (r' = clearForwardedHeaders r) as ->.
  { unfold r', TrustedProxyRealIP. destruct (remoteAddrIP _); [by rewrite Hpeer|done]. }
  split; [done|]. split; [done|]. unfold HostFromRequest, RequestScheme.
  rewrite !header_get_cleared by (unfold forwarded_headers; set_solver). done.
Qed.

(** C28: who connects through trusted proxies is known by the address that the first of
    them saw: whatever list of addresses the client sends along, and whatever else is in
    the headers. *)
Theorem proxied_client_not_spoofed (rawCIDRs : list string) (r : NetRequest) (peer client : Addr)
    (front seen : string) (hops : list string) (more : list string) :
  let trusted := parseTrustedProxyCIDRs rawCIDRs in
  remoteAddrIP (r_RemoteAddr r) = Some peer → isTrustedProxy peer trusted = true →
  Forall (λ part, has_byte "," part = false) (seen :: hops) →
  Forall (λ hop, ∃ a, ParseAddr (TrimSpace hop) = Some a ∧ isTrustedProxy a trusted = true) hops →
  ParseAddr (TrimSpace seen) = Some client → isTrustedProxy client trusted = false →
  has_zone client = false →
  (front = "" ∨ ∃ spoofed, front = spoofed +:+ ",") →
  r_Header r !! "X-Forwarded-For" = Some ((front +:+ JoinText "," (seen :: hops)) :: more) →
  ExtractIP (TrustedProxyRealIP rawCIDRs r) = AddrString client.
Proof.
  intros trusted Hpeer Htp Hcomma Hhops Hseen Hunt Hzone Hfront Hh. unfold TrustedProxyRealIP.
  rewrite Hpeer. fold trusted. rewrite Htp. cbn [negb].
  assert (forwardedClientIP r trusted = Some client) as ->; [|by apply extract_set_remote].
  unfold forwardedClientIP, header_get. rewrite Hh.
  destruct (str_empty _) eqn:Hempty.
  { apply bool_decide_eq_true in Hempty. assert (seen = "") as ->; [|discriminate Hseen].
    destruct front; [|discriminate Hempty]. destruct hops, seen; done. }
  assert (∃ before, Split "," (front +:+ JoinText "," (seen :: hops)) = before ++ seen :: hops)
    as (before & ->).
  { destruct Hfront as [->|(spoofed & ->)]; [exists []; by apply Split_joined|].
    exists (Split "," spoofed). rewrite app_assoc_str.
    change ("," +:+ JoinText "," (seen :: hops)) with (String "," (JoinText "," (seen :: hops))).
    rewrite Split_app_any. f_equal. by apply Split_joined. }
  rewrite rev_app_distr. cbn [rev].
  rewrite <-app_assoc, last_untrusted_skip; [cbn; by rewrite Hseen, Hunt|].
  apply Forall_rev in Hhops. exact Hhops.
Qed.

(** ** Where the server connects to *)

Definition wf_addr (a : Addr) : Prop :=
  match a with
  | V4 f => Forall is_octet f ∧ length f = 4%nat
  | V6 g _ => Forall is_group g ∧ length g = 8%nat
  end.

Lemma wf_Unmap a : wf_addr a → wf_addr (Unmap a).
Proof.
  destruct a as [f|g zone]; [done|]. cbn [Unmap]. destruct (Is4In6 _); [|done].
  intros [Hg Hl]. assert (∀ i, is_group (default 0 (g !! i))) as Hi.
  { intros i. destruct (g !! i) as [x|] eqn:Hx; [|done].
    by apply (proj1 (Forall_lookup _ _) Hg i). }
  pose proof (Hi 6%nat) as H6. pose proof (Hi 7%nat) as H7. unfold is_group in *.
  split; [|done]. unfold is_octet.
  repeat (apply Forall_cons; split; [Z.div_mod_to_equations; lia|]). constructor.
Qed.

Lemma contains_div p a x n y :
  addr_value (pfx_addr p) = (x, n) → addr_value a = (y, n) → has_zone a = false →
  0 ≤ x → 0 ≤ y → 0 ≤ pfx_bits p ≤ n →
  prefix_contains p a = (y / 2^(n - pfx_bits p) =? x / 2^(n - pfx_bits p)).
Proof.
  intros Hx Hy Hz Hx0 Hy0 Hb. unfold prefix_contains. rewrite Hx, Hy, Hz, Z.eqb_refl. cbn [negb andb].
  rewrite Z.shiftr_lxor, !Z.shiftr_div_pow2 by lia.
  apply eq_iff_eq_true. rewrite !Z.eqb_eq, Z.lxor_eq_0_iff. split; congruence.
Qed.

(** The ranges of addresses with a special meaning that the server does not connect to. *)
Definition special_ranges : list Prefix :=
  flat_map MustParsePrefix
    ["0.0.0.0/32"; "10.0.0.0/8"; "100.64.0.0/10"; "127.0.0.0/8"; "168.63.129.16/32";
     "169.254.0.0/16"; "172.16.0.0/12"; "192.0.0.0/24"; "192.168.0.0/16"; "198.18.0.0/15";
     "224.0.0.0/4"; "240.0.0.0/4";
     "::/128"; "::1/128"; "64:ff9b::/96"; "64:ff9b:1::/48"; "2001::/32"; "2002::/16"; "fc00::/7";
     "fe80::/10"; "ff00::/8"].

Definition special (a : Addr) : bool := existsb (λ p, prefix_contains p a) special_ranges.

Fixpoint all_up (f : Z → bool) (n : nat) (z : Z) : bool :=
  match n with O => true | S n => f z && all_up f n (z + 1) end.

Lemma all_up_spec f n z g : all_up f n z = true → z ≤ g < z + Z.of_nat n → f g = true.
Proof.
  revert z. induction n as [|n IH]; intros z; cbn [all_up]; [lia|].
  intros [Hz Hn]%andb_true_iff Hg. destruct (decide (g = z)) as [->|]; [done|].
  apply (IH (z + 1)); [done|lia].
Qed.

Definition masks_fine (g : Z) : bool :=
  (Z.land g 0xf0 =? 16 * ((g / 16) mod 16)) && (Z.land g 0xffc0 =? 64 * (g / 64)) &&
  (Z.land g 0xfe00 =? 512 * (g / 512)).

Lemma all_masks_fine : all_up masks_fine (Z.to_nat 0x10000) 0 = true.
Proof. vm_compute. reflexivity. Qed.

Lemma land_masks g :
  is_group g → Z.land g 0xf0 = 16 * ((g / 16) mod 16) ∧ Z.land g 0xffc0 = 64 * (g / 64) ∧
  Z.land g 0xfe00 = 512 * (g / 512) ∧ Z.shiftr g 8 = g / 256.
Proof.
  intros Hg. assert (masks_fine g = true) as Hall.
  { apply (all_up_spec _ _ 0 g all_masks_fine). unfold is_group in Hg. lia. }
  unfold masks_fine in Hall. rewrite !andb_true_iff, !Z.eqb_eq in Hall. destruct Hall as [[H1 H2] H3].
  split_and!; [done..|]. by apply Z.shiftr_div_pow2.
Qed.

(** An IPv4 range by the first fields of its addresses. *)
Lemma contains_v4 p q r t n a b c d :
  Forall is_octet [p; q; r; t] → Forall is_octet [a; b; c; d] → 0 ≤ n ≤ 32 →
  let value w x y z := ((w * 256 + x) * 256 + y) * 256 + z in
  prefix_contains {| pfx_addr := V4 [p; q; r; t]; pfx_bits := n |} (V4 [a; b; c; d]) =
  (value a b c d / 2^(32 - n) =? value p q r t / 2^(32 - n)).
Proof.
  intros Hp Ha Hn value. rewrite !Forall_cons in Hp, Ha. unfold is_octet in Hp, Ha.
  rewrite (contains_div _ _ (value p q r t) 32 (value a b c d));
    cbn [pfx_addr pfx_bits addr_value fold_left]; unfold value; try (f_equal; lia); lia || done.
Qed.

Section v4_ranges.
Context (a b c d : Z).
Context (Ha : 0 ≤ a < 256) (Hb : 0 ≤ b < 256) (Hc : 0 ≤ c < 256) (Hd : 0 ≤ d < 256).
#[local] Notation within p q r t n :=
  (prefix_contains {| pfx_addr := V4 [p; q; r; t]; pfx_bits := n |} (V4 [a; b; c; d])).

Ltac v4_range :=
  rewrite contains_v4; [|repeat (constructor; [unfold is_octet; lia|]); constructor..|lia];
  apply eq_iff_eq_true; rewrite ?andb_true_iff, !Z.eqb_eq;
  cbn [Z.sub Z.add Z.opp Z.pos_sub Z.pow Z.pow_pos Pos.iter Z.mul Pos.mul Pos.add Pos.pred_double];
  Z.div_mod_to_equations; lia.

Lemma within_unspecified : within 0 0 0 0 32 = (a =? 0) && ((b =? 0) && ((c =? 0) && (d =? 0))).
Proof. v4_range. Qed.
Lemma within_10 : within 10 0 0 0 8 = (a =? 10).
Proof. v4_range. Qed.
Lemma within_127 : within 127 0 0 0 8 = (a =? 127).
Proof. v4_range. Qed.
Lemma within_169_254 : within 169 254 0 0 16 = (a =? 169) && (b =? 254).
Proof. v4_range. Qed.
Lemma within_172_16 : within 172 16 0 0 12 = (a =? 172) && (16 * ((b / 16) mod 16) =? 16).
Proof. v4_range. Qed.
Lemma within_192_168 : within 192 168 0 0 16 = (a =? 192) && (b =? 168).
Proof. v4_range. Qed.
Lemma within_224 : within 224 0 0 0 4 = (16 * ((a / 16) mod 16) =? 224).
Proof. v4_range. Qed.

Lemma public_v4_fields : IsPublicIP (V4 [a; b; c; d]) = negb (special (V4 [a; b; c; d])).
Proof.
  assert (is_group a ∧ is_group b) as [Ga Gb] by (unfold is_group; lia).
  unfold IsPublicIP, special. cbn [Unmap has_zone negb andb].
  change nonPublicRanges with ltac:(let l := eval vm_compute in nonPublicRanges in exact l).
  change special_ranges with ltac:(let l := eval vm_compute in special_ranges in exact l).
  cbn [existsb].
  assert (∀ x g z n, prefix_contains {| pfx_addr := V6 g z; pfx_bits := n |} (V4 x) = false) as H6.
  { intros x g z n. unfold prefix_contains. cbn [pfx_addr addr_value]. by rewrite andb_false_r. }
  rewrite !H6, !orb_false_r. clear H6.
  unfold IsGlobalUnicast, IsUnspecified, IsPrivate, IsLoopback, IsMulticast, IsLinkLocalUnicast, group.
  cbn [nth]. destruct (land_masks a Ga) as (-> & _). destruct (land_masks b Gb) as (-> & _).
  rewrite within_unspecified, within_10, within_127, within_169_254, within_172_16,
    within_192_168, within_224.
  assert (bool_decide ([a; b; c; d] = [0; 0; 0; 0]) =
    (a =? 0) && ((b =? 0) && ((c =? 0) && (d =? 0)))) as ->.
  { apply eq_iff_eq_true. rewrite bool_decide_eq_true, !andb_true_iff, !Z.eqb_eq.
    split; [by intros [= -> -> -> ->]|]. by intros (-> & -> & -> & ->). }
  case_bool_decide as Hb255.
  - injection Hb255 as -> -> -> ->. vm_compute. reflexivity.
  - btauto.
Qed.
End v4_ranges.

(** An IPv6 range by the groups of its addresses. *)
Lemma contains_v6 p a n x y :
  addr_value (V6 p "") = (x, 128) → addr_value (V6 a "") = (y, 128) → 0 ≤ x → 0 ≤ y → 0 ≤ n ≤ 128 →
  prefix_contains {| pfx_addr := V6 p ""; pfx_bits := n |} (V6 a "") =
  (y / 2^(128 - n) =? x / 2^(128 - n)).
Proof. intros Hx Hy Hx0 Hy0 Hn. by apply contains_div. Qed.

Lemma fold_groups l n : fold_left (λ n g, 65536 * n + g) l n = n * 65536^(Z.of_nat (length l)) + fold_left (λ n g, 65536 * n + g) l 0.
Proof.
  revert n. induction l as [|g l IH]; intros n; [cbn; lia|]. cbn [fold_left length].
  rewrite IH, (IH (65536 * 0 + g)). rewrite Nat2Z.inj_succ, Z.pow_succ_r by lia. ring.
Qed.

Lemma fold_groups_range l :
  Forall is_group l → 0 ≤ fold_left (λ n g, 65536 * n + g) l 0 < 65536^(Z.of_nat (length l)).
Proof.
  induction 1 as [|g l Hg Hl IH]; [cbn; lia|]. cbn [fold_left length]. rewrite fold_groups.
  rewrite Nat2Z.inj_succ, Z.pow_succ_r by lia. unfold is_group in Hg. nia.
Qed.

Section v6_ranges.
Context (g : Z) (l : list Z) (Hg : is_group g) (Hl : Forall is_group l) (Hlen : length l = 7%nat).

#[local] Notation within p n :=
  (prefix_contains {| pfx_addr := V6 p ""; pfx_bits := n |} (V6 (g :: l) "")).

(** The first group, and the number that the others make. *)
Lemma first_group : ∃ rest, 0 ≤ rest < 2^112 ∧
  addr_value (V6 (g :: l) "") = (g * 2^112 + rest, 128).
Proof.
  exists (fold_left (λ n g, 65536 * n + g) l 0). pose proof (fold_groups_range l Hl) as Hr.
  rewrite Hlen in Hr. split; [exact Hr|]. cbn [addr_value fold_left]. rewrite fold_groups, Hlen.
  change (65536 ^ Z.of_nat 7) with (2^112). f_equal.
Qed.

Ltac v6_range :=
  destruct first_group as (rest & Hrest & Hv); unfold is_group in *;
  erewrite contains_v6; [|by vm_compute|exact Hv|lia..];
  apply eq_iff_eq_true; rewrite !Z.eqb_eq;
  cbn [Z.sub Z.add Z.opp Z.pos_sub Z.pow Z.pow_pos Pos.iter Z.mul Pos.mul Pos.add Pos.pred_double] in *;
  Z.div_mod_to_equations; lia.

Lemma within_fc00 : within [0xfc00; 0; 0; 0; 0; 0; 0; 0] 7 = (512 * (g / 512) =? 0xfc00).
Proof. v6_range. Qed.
Lemma within_fe80 : within [0xfe80; 0; 0; 0; 0; 0; 0; 0] 10 = (64 * (g / 64) =? 0xfe80).
Proof. v6_range. Qed.
Lemma within_ff00 : within [0xff00; 0; 0; 0; 0; 0; 0; 0] 8 = (g / 256 =? 0xff).
Proof. v6_range. Qed.
End v6_ranges.

Lemma fold_groups_inj l1 l2 :
  Forall is_group l1 → Forall is_group l2 → length l1 = length l2 →
  fold_left (λ n g, 65536 * n + g) l1 0 = fold_left (λ n g, 65536 * n + g) l2 0 → l1 = l2.
Proof.
  intros H1. revert l2. induction H1 as [|g1 l1 Hg1 Hl1 IH]; intros l2 H2 Hlen Heq; [by destruct l2|].
  destruct l2 as [|g2 l2]; [done|]. apply Forall_cons in H2 as [Hg2 Hl2]. injection Hlen as Hlen.
  cbn [fold_left] in Heq. rewrite fold_groups, (fold_groups l2 (65536 * 0 + g2)) in Heq.
  pose proof (fold_groups_range l1 Hl1) as R1. pose proof (fold_groups_range l2 Hl2) as R2.
  rewrite Hlen in *. set (B := 65536 ^ Z.of_nat (length l2)) in *.
  destruct (Z.div_mod_unique B g1 g2 (fold_left (λ n g, 65536 * n + g) l1 0)
    (fold_left (λ n g, 65536 * n + g) l2 0)) as [Hg Hr]; [lia|lia|lia|].
  f_equal; [done|]. by apply IH.
Qed.

(** A range of one address. *)
Lemma within_single p a :
  Forall is_group p → Forall is_group a → length p = 8%nat → length a = 8%nat →
  prefix_contains {| pfx_addr := V6 p ""; pfx_bits := 128 |} (V6 a "") = bool_decide (a = p).
Proof.
  intros Hp Ha Hlp Hla. erewrite contains_v6; [|done|done|by apply fold_groups_range|by apply fold_groups_range|lia].
  change (128 - 128) with 0. rewrite Z.pow_0_r, !Z.div_1_r. apply eq_iff_eq_true.
  rewrite Z.eqb_eq, bool_decide_eq_true. split; [|by intros ->].
  apply fold_groups_inj; [done|done|congruence].
Qed.

Lemma public_v6 g l :
  is_group g → Forall is_group l → length l = 7%nat → Is4In6 (V6 (g :: l) "") = false →
  IsPublicIP (V6 (g :: l) "") = negb (special (V6 (g :: l) "")).
Proof.
  intros Hg Hl Hlen H4. unfold IsPublicIP, special. cbn [Unmap]. rewrite H4. cbn [has_zone].
  change (negb (negb (str_empty ""))) with true. cbn [andb].
  change nonPublicRanges with ltac:(let l := eval vm_compute in nonPublicRanges in exact l).
  change special_ranges with ltac:(let l := eval vm_compute in special_ranges in exact l).
  cbn [existsb].
  assert (∀ x z n, prefix_contains {| pfx_addr := V4 x; pfx_bits := n |} (V6 (g :: l) z) = false) as H6.
  { intros x z n. unfold prefix_contains. cbn [pfx_addr addr_value]. by rewrite andb_false_r. }
  rewrite !H6, !orb_false_l, !orb_false_r. clear H6.
  rewrite within_fc00, within_fe80, within_ff00 by done.
  assert (Forall is_group (g :: l) ∧ length (g :: l) = 8%nat) as [Hf Hln]
    by (split; [by constructor|cbn; lia]).
  assert (Forall is_group [0; 0; 0; 0; 0; 0; 0; 0] ∧ Forall is_group [0; 0; 0; 0; 0; 0; 0; 1])
    as [H0 H1] by (split; repeat (constructor; [unfold is_group; lia|]); constructor).
  rewrite (within_single _ _ H0 Hf eq_refl Hln), (within_single _ _ H1 Hf eq_refl Hln).
  unfold IsGlobalUnicast, IsUnspecified, IsPrivate, IsLoopback, IsMulticast, IsLinkLocalUnicast, group.
  cbn [nth]. destruct (land_masks g Hg) as (_ & -> & -> & ->).
  change (replicate 8 0) with [0; 0; 0; 0; 0; 0; 0; 0].
  change (str_empty "") with true. btauto.
Qed.

(** an address is one that the server connects to exactly when, as an IPv4 address if
    it is one in the form of IPv6, it is outside every range with a special meaning:
    loopback, private and shared networks, link local, multicast, reserved, the address
    of the platform, and the translations of IPv4 addresses into IPv6. *)
Theorem IsPublicIP_spec (a : Addr) :
  wf_addr a → has_zone (Unmap a) = false → IsPublicIP a = negb (special (Unmap a)).
Proof.
  intros Hwf%wf_Unmap Hz.
  assert (Unmap (Unmap a) = Unmap a) as Hu.
  { destruct a as [f|g z]; [done|]. cbn [Unmap]. destruct (Is4In6 (V6 g z)) eqn:H4; [done|].
    cbn [Unmap]. by rewrite H4. }
  assert (IsPublicIP a = IsPublicIP (Unmap a)) as -> by (unfold IsPublicIP; by rewrite Hu).
  destruct (Unmap a) as [f|g z]; destruct Hwf as [Hf Hl].
  - destruct f as [|x [|y [|v [|w [|]]]]]; try discriminate Hl. rewrite !Forall_cons in Hf.
    unfold is_octet in Hf. destruct Hf as (? & ? & ? & ? & _). by apply public_v4_fields.
  - destruct g as [|g l]; [done|]. apply Forall_cons in Hf as [Hg Hgl]. injection Hl as Hl.
    cbn [has_zone] in Hz. apply negb_false_iff, bool_decide_eq_true in Hz as ->.
    apply public_v6; [done..|]. cbn [Unmap] in Hu. by destruct (Is4In6 _).
Qed.

(** ** The dialer *)

Definition target (port : string) (ip : Addr) : string := JoinHostPort (AddrString ip) port.

Lemma always_dial_each port ips e l :
  always (dial_each port ips e) (λ r l', ∃ tried, tried `sublist_of` ips ∧
    l' = l ++ (target port <$> tried) ∧
    ∀ address, r = Ok address → ∃ ip, ip ∈ ips ∧ address = target port ip) l.
Proof.
  revert e l. induction ips as [|ip ips IH]; intros e l.
  { apply always_Ret. exists []. by rewrite app_nil_r. }
  assert (∀ e' l', l' = l ∨ l' = l ++ [target port ip] → always (dial_each port ips e') (λ r l',
    ∃ tried, tried `sublist_of` ip :: ips ∧ l' = l ++ (target port <$> tried) ∧
    ∀ address, r = Ok address → ∃ ip', ip' ∈ ip :: ips ∧ address = target port ip') l') as Hnext.
  { intros e' l' Hl'. eapply always_mono; [apply IH|]. intros r l'' (tried & Hsub & -> & Hr).
    destruct Hl' as [-> | ->]; [exists tried|exists (ip :: tried); rewrite <-app_assoc];
      (split; [by constructor|split; [done|]]);
      intros address Ha; destruct (Hr address Ha) as (ip' & Hin & ->); exists ip'; (split; [by right|done]). }
  cbn [dial_each]. fold (target port ip). apply always_andThen, always_bind, always_stmt.
  - intros e'. apply Hnext. by left.
  - intros [] l' [= <-]. apply always_stmt; [intros e'; apply Hnext; by right|].
    intros [] l' [= <-]. apply always_Ret. exists [ip]. split; [by constructor; apply sublist_nil_l|].
    split; [done|]. intros address [= <-]. exists ip. split; [by left|done].
Qed.

(** C29: for a destination that a browser names, the server only ever connects to port 443
    of public addresses: the addresses that the resolver gives are checked, all of them
    before the first connection, and the connection goes to the text of a checked
    address, so that no second look-up can replace it. *)
Theorem push_dials_public_only (lookup : string → result (list Addr)) (address : string) :
  always (publicDialContext lookup address) (λ r dialed,
    (dialed = [] ∧ ∀ a, r ≠ Ok a) ∨
    ∃ host ips tried, SplitHostPort address = Ok (host, "443") ∧ lookup host = Ok ips ∧
      Forall (λ ip, IsPublicIP ip = true) ips ∧ tried `sublist_of` ips ∧
      dialed = target "443" <$> tried ∧
      ∀ a, r = Ok a → ∃ ip, ip ∈ ips ∧ a = target "443" ip) [].
Proof.
  unfold publicDialContext.
  destruct (SplitHostPort address) as [[host port]|e] eqn:Hs; [|apply always_Ret; by left].
  destruct (decide (port = "443")) as [->|Hp]; cycle 1.
  { assert (always (fail (ErrMsg "push destination must use HTTPS port 443") : prog (list string) string)
      (λ r dialed, dialed = [] ∧ ∀ a, r ≠ Ok a) []) as Hfail by (by apply always_Ret).
    repeat case_match; simplify_eq; eapply always_mono; try exact Hfail; intros r l H; by left. }
  destruct (lookup host) as [ips|e] eqn:Hl; [|apply always_Ret; by left].
  unfold dialPublicIPs. destruct ips as [|ip ips]; [apply always_Ret; by left|].
  destruct (existsb _ _) eqn:Hpub; [apply always_Ret; by left|].
  eapply always_mono; [apply always_dial_each|]. intros r l (tried & Hsub & -> & Hr). right.
  exists host, (ip :: ips), tried. split_and!; try done. apply Forall_forall. intros x Hx.
  rewrite existsb_false_iff in Hpub. by apply negb_false_iff, Hpub.
Qed.

(** ** Examples *)

Module NetworkExamples.
Definition request (remote : string) (headers : list (string * list string)) : NetRequest :=
  {| r_RemoteAddr := remote; r_Host := "probakgo.lan"; r_TLS := true; r_Header := list_to_map headers |}.

Definition proxies : list string := ["10.0.0.0/8"; "not a network"].

Definition forged : list (string * list string) :=
  [("X-Forwarded-For", ["1.1.1.1"]); ("X-Real-Ip", ["2.2.2.2"]); ("X-Forwarded-Proto", ["http"])].

(** A client that forges a list, seen by one proxy and passed on by another. *)
Definition proxied : NetRequest :=
  request "10.0.0.2:5000" [("X-Forwarded-For", ["1.1.1.1, 127.0.0.1,203.0.113.7, 10.0.0.1"])].

(** A proxy that adds a line of its own instead of appending to the one it got. *)
Definition two_lines : NetRequest :=
  request "10.0.0.2:5000" [("X-Forwarded-For", ["1.1.1.1"; "203.0.113.7"])].
End NetworkExamples.

(** A proxy that adds its own line to the header leaves the choice of the address to the
    client: only the first line is read, which is the line that the client sent. *)
Theorem second_header_line_unread :
  ExtractIP (TrustedProxyRealIP NetworkExamples.proxies NetworkExamples.two_lines) = "1.1.1.1".
Proof. vm_compute. reflexivity. Qed.

Lemma direct_client_not_spoofed_witness :
  ExtractIP (TrustedProxyRealIP NetworkExamples.proxies
    (NetworkExamples.request "203.0.113.7:4000" NetworkExamples.forged)) = "203.0.113.7" ∧
  RequestScheme (TrustedProxyRealIP NetworkExamples.proxies
    (NetworkExamples.request "203.0.113.7:4000" NetworkExamples.forged)) = "https".
Proof.
  split; [vm_compute; reflexivity|].
  exact (proj2 (proj2 (proj2 (direct_client_not_spoofed NetworkExamples.proxies
    (NetworkExamples.request "203.0.113.7:4000" NetworkExamples.forged)
    ltac:(vm_compute; reflexivity))))).
Defined.

Lemma proxied_client_not_spoofed_witness :
  ExtractIP (TrustedProxyRealIP NetworkExamples.proxies NetworkExamples.proxied) =
  AddrString (V4 [203; 0; 113; 7]).
Proof.
  apply (proxied_client_not_spoofed NetworkExamples.proxies NetworkExamples.proxied
    (V4 [10; 0; 0; 2]) (V4 [203; 0; 113; 7]) "1.1.1.1, 127.0.0.1," "203.0.113.7" [" 10.0.0.1"] []).
  - vm_compute. reflexivity.
  - vm_compute. reflexivity.
  - repeat constructor.
  - constructor; [|constructor]. exists (V4 [10; 0; 0; 1]). split; vm_compute; reflexivity.
  - vm_compute. reflexivity.
  - vm_compute. reflexivity.
  - reflexivity.
  - right. exists "1.1.1.1, 127.0.0.1". vm_compute. reflexivity.
  - vm_compute. reflexivity.
Defined.

Lemma IsPublicIP_spec_witness :
  (IsPublicIP (V4 [169; 254; 169; 254]) = false ∧ IsPublicIP (V4 [8; 8; 8; 8]) = true) ∧
  IsPublicIP (V6 [0; 0; 0; 0; 0; 0xffff; 0x7f00; 1] "") = negb (special (V4 [127; 0; 0; 1])).
Proof.
  split; [split; vm_compute; reflexivity|].
  apply (IsPublicIP_spec (V6 [0; 0; 0; 0; 0; 0xffff; 0x7f00; 1] ""));
    [|vm_compute; reflexivity]. split; [|reflexivity].
  repeat (constructor; [split; [discriminate|reflexivity]|]). constructor.
Defined.
