(* ===== verification/Limiter.v ===== *)
(** * The fixed-window rate limiter: [internal/ratelimit/ratelimit.go]

    The mutex makes every operation one step on the map of buckets; the clock
    readings of consecutive steps never decrease. *)
From S2P Require Import Prelude GoNum GoTime.

Record bucket := { count : Z; reset : Time }.

(** [max] and [window] are fixed by [New]. *)
Record Limiter := { max : Z; window : Duration }.

Notation Buckets := (gmap string bucket).

Definition allow (l : Limiter) (ip : string) (now : Time) (m : Buckets) : bool * Buckets :=
  let fresh := <[ip := {| count := 1; reset := AddDur now (window l) |}]> m in
  match m !! ip with
  | None => (true, fresh)
  | Some b =>
      if After now (reset b) then (true, fresh)
      else
        let n := wrap64 (count b + 1) in
        (n <=? max l, <[ip := {| count := n; reset := reset b |}]> m)
  end.

Definition AllowKey := allow.

Definition Blocked (l : Limiter) (key : string) (now : Time) (m : Buckets) : bool :=
  match m !! key with
  | None => false
  | Some b => Before now (reset b) && (max l <=? count b)
  end.

(** One tick of [cleanup]. *)
Definition cleanup (now : Time) (m : Buckets) : Buckets :=
  omap (λ b, if After now (reset b) then None else Some b) m.

(** ** Traces *)

Inductive limiter_op : Type :=
| OpAllow (key : string) (now : Time)
| OpTick (now : Time).

Definition op_time (op : limiter_op) : Time :=
  match op with OpAllow _ now | OpTick now => now end.

Definition op_step (l : Limiter) (op : limiter_op) (m : Buckets) : bool * Buckets :=
  match op with
  | OpAllow key now => AllowKey l key now m
  | OpTick now => (false, cleanup now m)
  end.

(** [history l k n clock m log]: [m] after [n] operations up to [clock]; [log] holds
    the times at which a call for [k] was allowed, the last one first. *)
Inductive history (l : Limiter) (k : string) :
    nat → Time → Buckets → list Time → Prop :=
| history_start clock : history l k 0 clock ∅ []
| history_step n clock m log op :
    history l k n clock m log → clock ≤ op_time op →
    history l k (S n) (op_time op) (op_step l op m).2
      (match op with
       | OpAllow key now =>
           if bool_decide (key = k) && (op_step l op m).1 then now :: log else log
       | OpTick _ => log
       end).

(** The calls of [log] between [x] and [x + window]. *)
Definition within (l : Limiter) (x : Time) (log : list Time) : list Time :=
  List.filter (λ t, (x <=? t) && (t <=? x + window l)) log.

(** ** The invariant: the log is split at the start [s] of the last bucket *)

Record split_at (l : Limiter) (clock s : Time) (b : option bucket)
    (cur old : list Time) : Prop := {
  sp_cur : Forall (λ t, s ≤ t ≤ s + window l) cur;
  sp_old : Forall (λ t, t < s) old;
  sp_max : Z.of_nat (length cur) ≤ max l;
  (** What an interval that reaches [s] holds of the older calls. *)
  sp_reach x : s ≤ x + window l →
    Z.of_nat (length (List.filter (λ t, x <=? t) old)) ≤ max l;
  sp_older x : Z.of_nat (length (within l x old)) ≤ 2 * max l;
  sp_bucket : match b with
    | Some b => reset b = s + window l ∧ 1 ≤ count b ∧
                Z.of_nat (length cur) = Z.min (count b) (max l)
    | None => s + window l < clock
    end
}.

Lemma length_filter_le (f : Time → bool) l : (length (List.filter f l) ≤ length l)%nat.
Proof. apply sublist_length, filter_bool_sublist. Qed.

Lemma length_filter_both (f g : Time → bool) l :
  (length (List.filter (λ t, f t && g t) l) ≤ length (List.filter f l))%nat.
Proof. induction l as [|t l IH]; simpl; [lia|]. destruct (f t), (g t); simpl; lia. Qed.

(** Every interval of one window holds at most two buckets' worth of calls. *)
Lemma split_within l clock s b cur old x :
  split_at l clock s b cur old → 0 ≤ max l →
  Z.of_nat (length (within l x (cur ++ old))) ≤ 2 * max l.
Proof.
  intros [Hcur Hold Hmax Hreach Holder _] H0. unfold within in *.
  rewrite filter_bool_app, length_app.
  destruct (Z.ltb_spec (x + window l) s) as [Hlt|Hge].
  - rewrite (filter_bool_empty _ cur); [simpl; apply Holder|].
    intros t Ht. rewrite Forall_forall in Hcur. specialize (Hcur t Ht).
    apply andb_false_iff. right. apply Z.leb_gt. lia.
  - pose proof (length_filter_le (λ t, (x <=? t) && (t <=? x + window l)) cur).
    specialize (Hreach x Hge).
    pose proof (length_filter_both (λ t, x <=? t) (λ t, t <=? x + window l) old). lia.
Qed.

(** A new bucket at [now] closes the last one. *)
Lemma split_fresh l clock s b cur old now :
  split_at l clock s b cur old → 1 ≤ max l → 0 ≤ window l → s + window l < now →
  split_at l now now (Some {| count := 1; reset := now + window l |}) [now] (cur ++ old).
Proof.
  intros Hsp Hmax Hw Hnow. pose proof (λ x, split_within l clock s b cur old x Hsp) as Hwithin.
  destruct Hsp as [Hcur Hold Hm Hreach Holder _]. split; simpl.
  - constructor; [lia|constructor].
  - apply Forall_app. split; [eapply Forall_impl; [exact Hcur|]|eapply Forall_impl; [exact Hold|]];
      simpl; intros t Ht; lia.
  - lia.
  - intros x Hx. rewrite filter_bool_app, length_app.
    rewrite (filter_bool_empty _ old).
    + pose proof (length_filter_le (λ t, x <=? t) cur). simpl. lia.
    + intros t Ht. rewrite Forall_forall in Hold. specialize (Hold t Ht).
      apply Z.leb_gt. lia.
  - intros x. apply Hwithin; lia.
  - lia.
Qed.

Lemma split_later l clock clock' s b cur old :
  clock ≤ clock' → split_at l clock s b cur old → split_at l clock' s b cur old.
Proof. intros Hc [? ? ? ? ? Hb]. split; auto. destruct b; [done|lia]. Qed.

(** Either nothing was allowed yet, or the log is split at a bucket. *)
Definition invariant (l : Limiter) (k : string) (clock : Time) (m : Buckets)
    (log : list Time) : Prop :=
  m !! k = None ∧ log = [] ∨
  ∃ s cur old, log = cur ++ old ∧ split_at l clock s (m !! k) cur old ∧ s ≤ clock.

(** A bucket counts at most the operations so far. *)
Definition counted (n : nat) (m : Buckets) : Prop :=
  map_Forall (λ _ b, 1 ≤ count b ≤ Z.of_nat n) m.

Lemma invariant_allow l k n clock m log now :
  1 ≤ max l → 0 ≤ window l → clock ≤ now → counted n m → Z.of_nat n < MaxInt64 →
  invariant l k clock m log →
  invariant l k now (allow l k now m).2 (if (allow l k now m).1 then now :: log else log).
Proof.
  intros Hmax Hw Hclock Hcount Hn Hinv. right. unfold allow, After, AddDur.
  assert (Hfresh : ∀ s cur old b, split_at l clock s b cur old → s + window l < now →
    ∃ s' cur' old', now :: cur ++ old = cur' ++ old' ∧
      split_at l now s' (Some {| count := 1; reset := now + window l |}) cur' old' ∧ s' ≤ now).
  { intros s cur old b Hsp Hs. exists now, [now], (cur ++ old).
    split; [done|]. split; [|lia]. eapply split_fresh; [done|lia..]. }
  destruct Hinv as [[Hk ->]|(s & cur & old & -> & Hsp & Hs)].
  - rewrite Hk. cbn [fst snd]. rewrite lookup_insert_eq. exists now, [now], [].
    split; [done|]. split; [|lia]. split; cbn [length]; try lia.
    + repeat constructor; lia.
    + constructor.
    + intros x Hx. cbn. lia.
    + intros x. cbn. lia.
    + cbn. lia.
  - destruct (m !! k) as [b|] eqn:Hk.
    + pose proof (sp_bucket _ _ _ _ _ _ Hsp) as (Hr & Hc1 & Hc).
      pose proof (map_Forall_lookup_1 _ _ _ _ Hcount Hk) as Hb. cbn in Hb.
      destruct (Z.ltb_spec (reset b) now) as [Hlt|Hge]; cbn [fst snd];
        rewrite lookup_insert_eq; [eapply Hfresh; [done|lia]|].
      rewrite wrap64_id by (unfold in_int64, MinInt64; unfold MaxInt64 in *; lia).
      destruct Hsp as [Hcur Hold Hm Hreach Holder _].
      destruct (Z.leb_spec (count b + 1) (max l)).
      * exists s, (now :: cur), old. split; [done|]. split; [|lia].
        split; cbn [length count reset]; try done; try lia.
        constructor; [lia|done].
      * exists s, cur, old. split; [done|]. split; [|lia].
        split; cbn [length count reset]; try done; lia.
    + pose proof (sp_bucket _ _ _ _ _ _ Hsp) as Hend. cbn in Hend.
      cbn [fst snd]. rewrite lookup_insert_eq. eapply Hfresh; [done|lia].
Qed.

(** What an operation that is not a call for [k] does to [k]'s bucket. *)
Lemma op_step_other l op m k :
  match op with OpAllow key _ => key ≠ k | OpTick _ => True end →
  (op_step l op m).2 !! k = m !! k ∨
  (op_step l op m).2 !! k = None ∧ ∃ b, m !! k = Some b ∧ reset b < op_time op.
Proof.
  destruct op as [key now|now]; cbn; intros Hk.
  - left. unfold AllowKey, allow.
    destruct (m !! key); [destruct (After _ _)|]; cbn [snd]; by rewrite lookup_insert_ne.
  - unfold cleanup. rewrite lookup_omap. destruct (m !! k) as [b|] eqn:E; [|by left].
    cbn. unfold After. destruct (Z.ltb_spec (reset b) now); [right; eauto|by left].
Qed.

Lemma invariant_other l k clock m log op :
  clock ≤ op_time op →
  match op with OpAllow key _ => key ≠ k | OpTick _ => True end →
  invariant l k clock m log → invariant l k (op_time op) (op_step l op m).2 log.
Proof.
  intros Hclock Hk Hinv. destruct (op_step_other l op m k Hk) as [Eq|(Eq & b & Hb & Hr)];
    unfold invariant in *; rewrite Eq.
  - destruct Hinv as [?|(s & cur & old & ? & Hsp & ?)]; [by left|right].
    exists s, cur, old. split; [done|]. split; [by eapply split_later|lia].
  - destruct Hinv as [[? _]|(s & cur & old & ? & Hsp & ?)]; [congruence|right].
    exists s, cur, old. split; [done|]. split; [|lia].
    rewrite Hb in Hsp. destruct Hsp as [? ? ? ? ? (Hreset & _)]. split; auto. lia.
Qed.

Lemma counted_step l n m op :
  counted n m → Z.of_nat (S n) ≤ MaxInt64 → counted (S n) (op_step l op m).2.
Proof.
  intros Hc Hn. assert (Hw : counted (S n) m).
  { eapply map_Forall_impl; [exact Hc|]. cbn. intros _ b Hb. lia. }
  destruct op as [key now|now]; cbn.
  - unfold AllowKey, allow.
    assert (Hfresh : counted (S n) (<[key := {| count := 1; reset := AddDur now (window l) |}]> m)).
    { apply map_Forall_insert_2; [cbn; lia|done]. }
    destruct (m !! key) as [b|] eqn:E; [destruct (After _ _)|]; cbn [snd]; try done.
    pose proof (map_Forall_lookup_1 _ _ _ _ Hc E) as Hb. cbn in Hb.
    apply map_Forall_insert_2; [cbn|done].
    rewrite wrap64_id by (unfold in_int64, MinInt64; unfold MaxInt64 in *; lia). lia.
  - intros k b. unfold cleanup. rewrite lookup_omap.
    destruct (m !! k) as [b'|] eqn:E; cbn; [|done]. destruct (After _ _); [done|].
    intros [= ->]. by apply (map_Forall_lookup_1 _ _ _ _ Hw E).
Qed.

Lemma history_invariant l k n clock m log :
  history l k n clock m log → 1 ≤ max l → 0 ≤ window l → Z.of_nat n ≤ MaxInt64 →
  invariant l k clock m log ∧ counted n m.
Proof.
  induction 1 as [clock|n clock m log op Hh IH Hclock]; intros Hmax Hw Hn.
  - split; [left; split; [apply lookup_empty|done]|apply map_Forall_empty].
  - destruct IH as [Hinv Hc]; [done..|lia|]. split; [|by apply counted_step].
    destruct op as [key now|now]; cbn [op_time] in *.
    + destruct (bool_decide_reflect (key = k)) as [->|Hk]; cbn [andb].
      * eapply invariant_allow; [done..| |done]; lia.
      * by eapply (invariant_other l k clock m log (OpAllow key now)).
    + by eapply (invariant_other l k clock m log (OpTick now)).
Qed.

Lemma history_log l k n clock m log :
  history l k n clock m log → Forall (λ t, t ≤ clock) log.
Proof.
  induction 1 as [clock|n clock m log op Hh IH Hclock]; [constructor|].
  assert (Forall (λ t, t ≤ op_time op) log)
    by (eapply Forall_impl; [exact IH|cbn; intros; lia]).
  destruct op as [key now|now]; [|done]. destruct (_ && _); [|done]. constructor; [cbn; lia|done].
Qed.

(** Whatever the calls, for whatever keys, and whenever the buckets are swept, no
    interval as long as the window holds more than twice [max] allowed calls of a key;
    and a call is refused only when [max] calls of the same key were allowed in the
    window that ends at it. *)
Theorem window_limit l k n clock m log now :
  history l k n clock m log → 1 ≤ max l → 0 ≤ window l → Z.of_nat n < MaxInt64 →
  clock ≤ now →
  (∀ x, Z.of_nat (length (within l x log)) ≤ 2 * max l) ∧
  ((AllowKey l k now m).1 = false →
   max l ≤ Z.of_nat (length (within l (now - window l) log))).
Proof.
  intros Hh Hmax Hw Hn Hnow. pose proof (history_log _ _ _ _ _ _ Hh) as Hlog.
  destruct (history_invariant _ _ _ _ _ _ Hh) as [Hinv Hc]; [done..|lia|].
  destruct Hinv as [[Hk ->]|(s & cur & old & -> & Hsp & Hs)].
  { split; [intros x; cbn; lia|]. unfold AllowKey, allow. by rewrite Hk. }
  split; [intros x; eapply split_within; [done|lia]|].
  unfold AllowKey, allow. destruct (m !! k) as [b|] eqn:Hk; [|done].
  pose proof (map_Forall_lookup_1 _ _ _ _ Hc Hk) as Hb. cbn in Hb.
  destruct Hsp as [Hcur _ _ _ _ (Hr & Hc1 & Hlen)]. unfold After.
  destruct (Z.ltb_spec (reset b) now) as [|Hge]; cbn [fst]; [done|].
  rewrite wrap64_id by (unfold in_int64, MinInt64; unfold MaxInt64 in *; lia).
  intros Hfull%Z.leb_gt. unfold within. rewrite filter_bool_app, length_app.
  apply Forall_app in Hlog as [Hlog _].
  rewrite (filter_bool_all _ cur); [lia|].
  rewrite Forall_forall in Hcur, Hlog. intros t Ht. specialize (Hcur t Ht).
  specialize (Hlog t Ht). cbn in *. apply andb_true_iff. rewrite !Z.leb_le. lia.
Qed.

(** ** Witness: one call per ten nanoseconds *)

Definition ex_limiter : Limiter := {| max := 1; window := 10 |}.
Definition ex_key : string := "192.0.2.7".

Lemma history_call l k n clock m log key now log' :
  history l k n clock m log → clock ≤ now →
  (if bool_decide (key = k) && (allow l key now m).1 then now :: log else log) = log' →
  history l k (S n) now (allow l key now m).2 log'.
Proof. intros Hh Hc <-. by apply (history_step l k n clock m log (OpAllow key now)). Qed.

Lemma window_limit_witness :
  ∃ m, history ex_limiter ex_key 3 11 m [11; 0] ∧
  Z.of_nat (length (within ex_limiter 1 [11; 0])) ≤ 2 ∧
  1 ≤ Z.of_nat (length (within ex_limiter 2 [11; 0])).
Proof.
  assert (Hh : history ex_limiter ex_key 3 11
    (allow ex_limiter ex_key 11 (cleanup 5 (allow ex_limiter ex_key 0 ∅).2)).2 [11; 0]).
  { eapply (history_call _ _ 2 5 _ [0]); [|done|vm_compute; reflexivity].
    eapply (history_step _ _ 1 0 _ [0] (OpTick 5)); [|done].
    eapply (history_call _ _ 0 0 _ []); [constructor|done|vm_compute; reflexivity]. }
  eexists. split; [exact Hh|].
  destruct (window_limit _ _ _ _ _ _ 12 Hh) as [Hmax Hrefused];
    [done|done|done|done|]. split; [apply Hmax|].
  apply Hrefused. vm_compute. reflexivity.
Defined.
