(* ===== verification/Challenges.v ===== *)
(** * Pending second-factor logins: [internal/session/challenge.go]

    The table of challenges is guarded by one mutex.  A locked section is one step
    on the table; [SetPending2FA] has up to three of them, and the sections of
    concurrent requests interleave in any order.  What the random source, the
    session cookie and its [Save] answer are arguments. *)
From S2P Require Import Prelude GoStrings GoNum GoTime GoNetip.

Definition challengeLifetime : Duration := 5 * Minute.

Record loginChallenge := {
  userID : Z; version : Z; next : string; expires : Time; attempts : Z }.

Notation Items := (gmap string loginChallenge).

(** [encoding/hex.EncodeToString]. *)
Definition hex_digits (b : Z) : string :=
  String (hex_digit (b / 16)) (String (hex_digit (b mod 16)) EmptyString).
Definition EncodeToString (raw : list Z) : string :=
  foldr (λ b s, hex_digits b +:+ s) EmptyString raw.

(** What [getSession] finds in a request: the store was initialised, the cookie
    decoded, and the string under [pending_2fa_token]. *)
Record Request := {
  store_ready : bool; session_err : bool; pending_token : option string }.

Definition challengeToken (r : Request) : string :=
  if negb (store_ready r) then EmptyString
  else if session_err r then EmptyString
  else default EmptyString (pending_token r).

(** ** The locked sections *)

Definition resetChallenges (_ : Items) : Items := ∅.

(** The purge of expired challenges and the insertion; [false]: too many. *)
Definition insert_section (token : string) (now : Time) (user : Z) (nxt : string) (ver : Z)
    (items : Items) : bool * Items :=
  let live : Items := omap (λ c, if negb (After (expires c) now) then None else Some c) items in
  if 10000 <=? Z.of_nat (size live) then (false, live)
  else (true, <[token := {| userID := user; version := ver; next := nxt;
                            expires := AddDur now challengeLifetime; attempts := 0 |}]> live).

Definition delete_section (token : string) (items : Items) : Items := delete token items.

Definition get_section (token : string) (now : Time) (items : Items) :
    Z * string * Z * bool :=
  match items !! token with
  | Some c => (userID c, next c, version c, After (expires c) now)
  | None => (0, EmptyString, 0, false)
  end.

Definition consume_section (token : string) (user ver : Z) (now : Time) (items : Items) :
    bool * Items :=
  (match items !! token with
   | Some c => (userID c =? user) && (version c =? ver) && After (expires c) now
   | None => false
   end, delete token items).

Definition allow_section (token : string) (now : Time) (items : Items) : bool * Items :=
  match items !! token with
  | Some c =>
      if negb (After (expires c) now) || (5 <=? attempts c) then (false, delete token items)
      else (true, <[token := {| userID := userID c; version := version c; next := next c;
                                expires := expires c;
                                attempts := wrap64 (attempts c + 1) |}]> items)
  | None => (false, delete token items)
  end.

(** ** The functions of the package *)

Definition discardChallenge (r : Request) (items : Items) : Items :=
  delete_section (challengeToken r) items.

(** [raw] is the answer of [rand.Read], [saved] that of [sess.Save]; [Ok token] is
    the value the saved session holds. *)
Definition SetPending2FA (r : Request) (raw : result (list Z)) (saved : result ())
    (now : Time) (user : Z) (nxt : string) (ver : Z) (items : Items) :
    result string * Items :=
  match raw with
  | Err e => (Err e, items)
  | Ok raw =>
      let token := EncodeToString raw in
      let (fits, items) := insert_section token now user nxt ver items in
      if negb fits then (Err (ErrMsg "too many pending logins"), items)
      else
        let items := discardChallenge r items in
        match saved with
        | Err e => (Err e, delete_section token items)
        | Ok _ => (Ok token, items)
        end
  end.

Definition GetPending2FA (r : Request) := get_section (challengeToken r).
Definition ConsumePending2FA (r : Request) := consume_section (challengeToken r).
Definition AllowPending2FAAttempt (r : Request) := allow_section (challengeToken r).

(** ** Interleavings *)

Inductive section : Type :=
| SecReset
| SecInsert (token : string) (now : Time) (user : Z) (nxt : string) (ver : Z)
| SecDelete (token : string)
| SecGet (token : string) (now : Time)
| SecConsume (token : string) (user ver : Z) (now : Time)
| SecAllow (token : string) (now : Time).

Definition section_step (s : section) (items : Items) : bool * Items :=
  match s with
  | SecReset => (true, resetChallenges items)
  | SecInsert token now user nxt ver => insert_section token now user nxt ver items
  | SecDelete token => (true, delete_section token items)
  | SecGet token now => ((get_section token now items).2, items)
  | SecConsume token user ver now => consume_section token user ver now items
  | SecAllow token now => allow_section token now items
  end.

(** The table and the answers after a sequence of sections. *)
Fixpoint outcomes (trace : list section) (items : Items) : list (section * bool) :=
  match trace with
  | [] => []
  | s :: trace => (s, (section_step s items).1) :: outcomes trace (section_step s items).2
  end.
Definition table_after (trace : list section) (items : Items) : Items :=
  fold_left (λ items s, (section_step s items).2) trace items.

(** How often [token] was issued, spent, and granted an attempt. *)
Definition count_outcomes (f : section → bool) (l : list (section * bool)) : Z :=
  Z.of_nat (length (List.filter (λ o, f o.1 && o.2) l)).
Definition issues (token : string) (s : section) : bool :=
  match s with SecInsert t _ _ _ _ => bool_decide (t = token) | _ => false end.
Definition spends (token : string) (s : section) : bool :=
  match s with SecConsume t _ _ _ => bool_decide (t = token) | _ => false end.
Definition tries (token : string) (s : section) : bool :=
  match s with SecAllow t _ => bool_decide (t = token) | _ => false end.

(** The answers [token] gives a client: read, spend and try. *)
Definition uses (token : string) (s : section) : bool :=
  match s with
  | SecGet t _ | SecConsume t _ _ _ | SecAllow t _ => bool_decide (t = token)
  | _ => false
  end.

(** The locked sections of [SetPending2FA], in order. *)
Definition set_sections (r : Request) (raw : result (list Z)) (saved : result ())
    (now : Time) (user : Z) (nxt : string) (ver : Z) (items : Items) : list section :=
  match raw with
  | Err _ => []
  | Ok raw =>
      let token := EncodeToString raw in
      SecInsert token now user nxt ver ::
      (if (insert_section token now user nxt ver items).1
       then SecDelete (challengeToken r) ::
            match saved with Ok _ => [] | Err _ => [SecDelete token] end
       else [])
  end.

Lemma SetPending2FA_sections r raw saved now user nxt ver items :
  (SetPending2FA r raw saved now user nxt ver items).2 =
  table_after (set_sections r raw saved now user nxt ver items) items.
Proof.
  destruct raw as [raw|e]; [|done]. unfold SetPending2FA, set_sections, table_after.
  cbn [fold_left section_step].
  destruct (insert_section _ _ _ _ _ _) as [[] items']; [|done]. by destruct saved.
Qed.

(** ** The potential of a token *)

(** What is left of a token: one use, and [5 - attempts] tries. *)
Definition present (o : option loginChallenge) : Z :=
  match o with Some _ => 1 | None => 0 end.
Definition tries_left (o : option loginChallenge) : Z :=
  match o with Some c => 5 - attempts c | None => 0 end.

Definition in_bounds (items : Items) : Prop :=
  map_Forall (λ _ c, 0 ≤ attempts c ≤ 5) items ∧ Z.of_nat (size items) ≤ 10000.

Definition flag (b : bool) : Z := if b then 1 else 0.

Lemma size_omap_le (f : loginChallenge → option loginChallenge) (items : Items) :
  (size (omap f items : Items) ≤ size items)%nat.
Proof.
  rewrite <-!size_dom. apply subseteq_size. intros k.
  rewrite !elem_of_dom, lookup_omap. destruct (items !! k); [eauto|intros [? [=]]].
Qed.

Lemma size_insert_le (items : Items) token c :
  (size (<[token := c]> items) ≤ S (size items))%nat.
Proof. rewrite map_size_insert. destruct (items !! token); unfold id; lia. Qed.

(** The effect of a section on the entry of [token]. *)
Lemma insert_section_spec token now user nxt ver items t :
  in_bounds items →
  let '(fits, items') := insert_section token now user nxt ver items in
  in_bounds items' ∧
  items' !! t = (if fits && bool_decide (t = token)
    then Some {| userID := user; version := ver; next := nxt;
                 expires := now + challengeLifetime; attempts := 0 |}
    else c ← items !! t; if negb (After (expires c) now) then None else Some c).
Proof.
  intros [Ha Hs]. unfold insert_section.
  set (live := omap _ _).
  assert (Hlive : map_Forall (λ _ c, 0 ≤ attempts c ≤ 5) live).
  { intros k c. unfold live. rewrite lookup_omap, bind_Some. intros (c' & Hc & Heq).
    destruct (negb _); simplify_eq. by apply (Ha k). }
  destruct (Z.leb_spec 10000 (Z.of_nat (size live))) as [Hfull|Hfit]; cbn [andb].
  - split; [split; [done|]|unfold live; by rewrite lookup_omap].
    pose proof (size_omap_le (λ c, if negb (After (expires c) now) then None else Some c) items).
    fold live in H. lia.
  - split; [split|].
    + apply map_Forall_insert_2; [cbn; lia|done].
    + etrans; [apply inj_le, size_insert_le|lia].
    + destruct (bool_decide_reflect (t = token)) as [->|Hne].
      * by rewrite lookup_insert_eq.
      * rewrite lookup_insert_ne by done. unfold live. by rewrite lookup_omap.
Qed.

(** The entry of [t] lost nothing but, perhaps, itself. *)
Definition weaker (o o' : option loginChallenge) : Prop :=
  present o ≤ present o' ∧ tries_left o ≤ tries_left o'.

Lemma in_bounds_entry items t c : in_bounds items → items !! t = Some c → 0 ≤ attempts c ≤ 5.
Proof. intros [Ha _]. apply Ha. Qed.

Lemma weaker_None items t : in_bounds items → weaker None (items !! t).
Proof.
  intros Hb. destruct (items !! t) as [c|] eqn:E; [|done].
  pose proof (in_bounds_entry _ _ _ Hb E). split; cbn; lia.
Qed.

Lemma in_bounds_delete items token t :
  in_bounds items →
  in_bounds (delete token items) ∧ weaker (delete token items !! t) (items !! t).
Proof.
  intros Hb. split.
  - destruct Hb as [Ha Hs]. split; [by apply map_Forall_delete|].
    etrans; [|exact Hs]. rewrite map_size_delete. destruct (items !! token); unfold id; lia.
  - destruct (decide (token = t)) as [->|].
    + rewrite lookup_delete_eq. by apply weaker_None.
    + by rewrite lookup_delete_ne.
Qed.

(** A section leaves the bounds, and pays for what it grants with the potential. *)
Definition pays (s : section) (t : string) (items : Items) : Prop :=
  let '(ok, items') := section_step s items in
  in_bounds items' ∧
  flag (spends t s && ok) + present (items' !! t) ≤
    present (items !! t) + flag (issues t s && ok) ∧
  flag (tries t s && ok) + tries_left (items' !! t) ≤
    tries_left (items !! t) + 5 * flag (issues t s && ok).

Lemma insert_pays token now user nxt ver items t :
  in_bounds items → pays (SecInsert token now user nxt ver) t items.
Proof.
  intros Hb. unfold pays. cbn [section_step].
  pose proof (insert_section_spec token now user nxt ver items t Hb) as Hspec.
  pose proof (weaker_None items t Hb) as [Hp Hl]. cbn in Hp, Hl.
  destruct (insert_section _ _ _ _ _ _) as [ok items']. destruct Hspec as [? ->].
  split; [done|]. cbn [spends tries issues andb flag].
  rewrite (bool_decide_ext (token = t) (t = token)) by done.
  destruct ok, (bool_decide_reflect (t = token)); cbn;
    destruct (items !! t) as [c|]; cbn in *; try destruct (negb _); cbn; lia.
Qed.

Lemma consume_pays token user ver now items t :
  in_bounds items → pays (SecConsume token user ver now) t items.
Proof.
  intros Hb. unfold pays. cbn [section_step]. unfold consume_section.
  destruct (in_bounds_delete items token t Hb) as (Hb' & Hp & Hl).
  split; [done|]. cbn [spends tries issues andb flag].
  destruct (bool_decide_reflect (token = t)) as [->|]; cbn [andb flag]; [|lia].
  rewrite lookup_delete_eq in *. destruct (items !! t); cbn in *; [|lia].
  destruct (_ && _); cbn; lia.
Qed.

Lemma allow_pays token now items t : in_bounds items → pays (SecAllow token now) t items.
Proof.
  intros Hb. unfold pays. cbn [section_step]. unfold allow_section.
  destruct (in_bounds_delete items token t Hb) as (Hb' & Hp & Hl).
  destruct (items !! token) as [c|] eqn:Ec; [destruct (negb _ || (5 <=? attempts c)) eqn:Efull|].
  - split; [done|]. rewrite !andb_false_r. cbn. lia.
  - apply orb_false_iff in Efull as [_ Ha%Z.leb_gt].
    pose proof (in_bounds_entry _ _ _ Hb Ec) as Hc.
    rewrite wrap64_id by (unfold in_int64, MinInt64, MaxInt64; lia).
    split; [split; [apply map_Forall_insert_2; [cbn; lia|apply Hb]|]|].
    { rewrite map_size_insert_Some by eauto. apply Hb. }
    cbn [spends tries issues andb flag]. destruct (bool_decide_reflect (token = t)) as [->|].
    + rewrite lookup_insert_eq, Ec. cbn. lia.
    + rewrite lookup_insert_ne by done. cbn. lia.
  - split; [done|]. rewrite !andb_false_r. cbn. lia.
Qed.

Lemma section_pays s items t : in_bounds items → pays s t items.
Proof.
  intros Hb. destruct s; [|by apply insert_pays|..|by apply consume_pays|by apply allow_pays].
  - pose proof (weaker_None items t Hb) as [Hp Hl]. unfold pays. cbn.
    unfold resetChallenges. rewrite lookup_empty.
    split; [split; [apply map_Forall_empty|by rewrite map_size_empty]|]. cbn in *. lia.
  - destruct (in_bounds_delete items token t Hb) as (Hb' & Hp & Hl). unfold pays. cbn.
    unfold delete_section. split; [done|]. lia.
  - unfold pays. cbn. split; [done|]. lia.
Qed.

Lemma in_bounds_empty : in_bounds ∅.
Proof. split; [apply map_Forall_empty|by rewrite map_size_empty]. Qed.

Lemma count_cons f o l :
  count_outcomes f (o :: l) = flag (f o.1 && o.2) + count_outcomes f l.
Proof.
  unfold count_outcomes. cbn [List.filter]. destruct (f o.1 && o.2); cbn [length flag]; lia.
Qed.

(** Over a whole interleaving. *)
Lemma trace_pays trace t : ∀ items, in_bounds items →
  in_bounds (table_after trace items) ∧
  count_outcomes (spends t) (outcomes trace items) ≤
    present (items !! t) + count_outcomes (issues t) (outcomes trace items) ∧
  count_outcomes (tries t) (outcomes trace items) ≤
    tries_left (items !! t) + 5 * count_outcomes (issues t) (outcomes trace items).
Proof.
  induction trace as [|s trace IH]; intros items Hb.
  - pose proof (weaker_None items t Hb) as [Hp Hl]. cbn in Hp, Hl.
    unfold count_outcomes. cbn. split; [done|]. lia.
  - pose proof (section_pays s items t Hb) as Hs. unfold pays in Hs.
    cbn [outcomes]. unfold table_after. cbn [fold_left]. rewrite !count_cons. cbn [fst snd].
    destruct (section_step s items) as [ok items']. destruct Hs as (Hb' & Hp & Hl).
    destruct (IH items' Hb') as (? & ? & ?). cbn [fst snd]. split; [done|]. lia.
Qed.

(** Every entry was inserted. *)
Definition inserted (past : list section) (items : Items) : Prop :=
  ∀ t c, items !! t = Some c → ∃ now,
    SecInsert t now (userID c) (next c) (version c) ∈ past ∧
    expires c = now + challengeLifetime.

Lemma inserted_step past s items :
  in_bounds items → inserted past items → inserted (past ++ [s]) (section_step s items).2.
Proof.
  intros Hb Hin.
  assert (Hold : ∀ t c c', items !! t = Some c → userID c' = userID c → next c' = next c →
    version c' = version c → expires c' = expires c → ∃ now,
    SecInsert t now (userID c') (next c') (version c') ∈ past ++ [s] ∧
    expires c' = now + challengeLifetime).
  { intros t c c' Hc -> -> -> ->. destruct (Hin t c Hc) as (now & ? & ?).
    exists now. split; [apply elem_of_app; by left|done]. }
  intros t c. destruct s; cbn [section_step snd].
  - by unfold resetChallenges.
  - pose proof (insert_section_spec token now user nxt ver items t Hb) as Hspec.
    destruct (insert_section _ _ _ _ _ _) as [ok items']. destruct Hspec as [_ Heq].
    cbn [snd]. rewrite Heq. destruct (ok && _) eqn:E.
    + apply andb_true_iff in E as [_ ->%bool_decide_eq_true]. intros [= <-]. cbn.
      exists now. split; [apply elem_of_app; right; by left|done].
    + intros (c' & Hc' & Hif)%bind_Some. destruct (negb _); simplify_eq. by eapply Hold.
  - unfold delete_section. intros [_ Hc]%lookup_delete_Some. by eapply Hold.
  - intros Hc. by eapply Hold.
  - unfold consume_section. cbn [snd]. intros [_ Hc]%lookup_delete_Some. by eapply Hold.
  - unfold allow_section. destruct (items !! token) as [c'|] eqn:Ec; [destruct (_ || _)|]; cbn [snd].
    + intros [_ Hc]%lookup_delete_Some. by eapply Hold.
    + intros [[<- <-]|[_ Hc]]%lookup_insert_Some; by eapply Hold.
    + intros [_ Hc]%lookup_delete_Some. by eapply Hold.
Qed.

Lemma table_after_snoc trace s items :
  table_after (trace ++ [s]) items = (section_step s (table_after trace items)).2.
Proof. unfold table_after. by rewrite fold_left_app. Qed.

Lemma inserted_trace trace : inserted trace (table_after trace ∅).
Proof.
  induction trace as [|s trace IH] using rev_ind; [done|].
  rewrite table_after_snoc. apply inserted_step; [|done].
  apply (trace_pays trace EmptyString ∅ in_bounds_empty).
Qed.

(** A token without an entry answers nothing until it is issued again. *)
Lemma dead_token trace t : ∀ items, in_bounds items → items !! t = None →
  Forall (λ s, issues t s = false) trace →
  Forall (λ o, uses t o.1 = true → o.2 = false) (outcomes trace items).
Proof.
  induction trace as [|s trace IH]; intros items Hb Hnone Hno; [constructor|].
  apply Forall_cons in Hno as [Hs Hno]. cbn [outcomes]. constructor.
  - cbn. destruct s; cbn; try done; intros ->%bool_decide_eq_true;
      unfold get_section, allow_section; by rewrite Hnone.
  - pose proof (section_pays s items t Hb) as Hpay. unfold pays in Hpay.
    destruct (section_step s items) as [ok items']. destruct Hpay as (Hb' & Hp & _).
    apply IH; [done| |done]. rewrite Hnone, Hs in Hp. cbn [andb flag present] in Hp.
    cbn. destruct (items' !! t); [|done]. cbn in Hp. destruct (spends t s && ok); cbn in Hp; lia.
Qed.

(** * Properties *)

(** However the requests of any clients interleave, a challenge is spent at most as
    often as it was issued; spending it succeeds only for the user and session version
    it was issued to and before its five minutes are over; and once a request tried to
    spend it, successfully or not, it answers nothing until it is issued again. *)
Theorem challenge_one_use (trace before after : list section) (token : string)
    (user ver : Z) (now : Time) :
  count_outcomes (spends token) (outcomes trace ∅) ≤
    count_outcomes (issues token) (outcomes trace ∅) ∧
  (trace = before ++ SecConsume token user ver now :: after →
   let '(ok, items) := section_step (SecConsume token user ver now) (table_after before ∅) in
   (ok = true → ∃ issued nxt,
     SecInsert token issued user nxt ver ∈ before ∧ now < issued + challengeLifetime) ∧
   (Forall (λ s, issues token s = false) after →
    Forall (λ o, uses token o.1 = true → o.2 = false) (outcomes after items))).
Proof.
  split.
  { destruct (trace_pays trace token ∅ in_bounds_empty) as (_ & Hp & _).
    rewrite lookup_empty in Hp. cbn in Hp. lia. }
  intros _. destruct (trace_pays before token ∅ in_bounds_empty) as (Hb & _).
  cbn [section_step]. unfold consume_section. split.
  - destruct (table_after before ∅ !! token) as [c|] eqn:Ec; [|done].
    intros [[<-%Z.eqb_eq <-%Z.eqb_eq]%andb_true_iff Hexp]%andb_true_iff.
    destruct (inserted_trace before token c Ec) as (issued & Hin & Heq).
    exists issued, (next c). split; [done|]. unfold After in Hexp.
    apply Z.ltb_lt in Hexp. lia.
  - apply dead_token; [by apply in_bounds_delete|apply lookup_delete_eq].
Qed.

(** However the requests of any clients interleave, each issue of a challenge grants
    at most five attempts at the second factor, all of them before the challenge
    expires, and the table never holds more than ten thousand challenges. *)
Theorem challenge_attempts (trace : list section) (token : string) (now : Time) :
  count_outcomes (tries token) (outcomes trace ∅) ≤
    5 * count_outcomes (issues token) (outcomes trace ∅) ∧
  ((section_step (SecAllow token now) (table_after trace ∅)).1 = true →
   ∃ issued user nxt ver,
     SecInsert token issued user nxt ver ∈ trace ∧ now < issued + challengeLifetime) ∧
  Z.of_nat (size (table_after trace ∅)) ≤ 10000.
Proof.
  destruct (trace_pays trace token ∅ in_bounds_empty) as ([_ Hsize] & _ & Ht).
  rewrite lookup_empty in Ht. cbn [tries_left] in Ht. split; [lia|]. split; [|done].
  cbn [section_step]. unfold allow_section.
  destruct (table_after trace ∅ !! token) as [c|] eqn:Ec; [|done].
  destruct (negb _ || _) eqn:E; [done|intros _].
  apply orb_false_iff in E as [Hexp%negb_false_iff _]. unfold After in Hexp.
  apply Z.ltb_lt in Hexp. destruct (inserted_trace trace token c Ec) as (issued & Hin & Heq).
  exists issued, (userID c), (next c), (version c). split; [done|lia].
Qed.

(** A password login that gets as far as the second factor leaves in the cookie a
    token whose challenge can be read back for five minutes, with the user, the
    session version and the destination it was issued for; and it takes the challenge
    of the cookie's previous token away. *)
Theorem SetPending2FA_GetPending2FA (r r' : Request) (raw : list Z) (now later : Time)
    (user ver : Z) (nxt token : string) (items items' : Items)
    (Hset : SetPending2FA r (Ok raw) (Ok ()) now user nxt ver items = (Ok token, items'))
    (Hnew : challengeToken r ≠ token)
    (Hcookie : challengeToken r' = token) :
  GetPending2FA r' later items' =
    (user, nxt, ver, bool_decide (later < now + challengeLifetime)) ∧
  (GetPending2FA r later items').2 = false.
Proof.
  unfold SetPending2FA, insert_section in Hset.
  destruct (10000 <=? _); cbn [negb] in Hset; [done|].
  injection Hset as <- <-. unfold GetPending2FA, get_section, discardChallenge, delete_section.
  rewrite Hcookie. rewrite lookup_delete_ne by done. rewrite lookup_insert_eq, lookup_delete_eq.
  split; [|done]. cbn. f_equal. unfold After, AddDur.
  destruct (Z.ltb_spec later (now + challengeLifetime)) as [|];
    [by rewrite bool_decide_true|rewrite bool_decide_false by lia; done].
Qed.

(** ** Witnesses *)

Definition ex_token : string := EncodeToString [0xab; 0x01].
Definition ex_trace : list section :=
  [SecInsert ex_token 0 7 "/" 1; SecAllow ex_token 1; SecConsume ex_token 7 1 2;
   SecConsume ex_token 7 1 3].

Lemma challenge_one_use_witness :
  (section_step (SecConsume ex_token 7 1 2) (table_after (take 2 ex_trace) ∅)).1 = true ∧
  (section_step (SecConsume ex_token 7 1 3) (table_after (take 3 ex_trace) ∅)).1 = false.
Proof.
  split; [vm_compute; reflexivity|].
  destruct (challenge_one_use ex_trace (take 2 ex_trace) (drop 3 ex_trace) ex_token 7 1 2)
    as [_ Hdead].
  specialize (Hdead eq_refl). destruct Hdead as [_ Hdead].
  assert (Hno : Forall (λ s, issues ex_token s = false) (drop 3 ex_trace))
    by (repeat constructor).
  apply Hdead in Hno. apply Forall_cons in Hno as [Hno _]. apply Hno. vm_compute. reflexivity.
Defined.

Lemma challenge_attempts_witness :
  ∃ issued user nxt ver,
    SecInsert ex_token issued user nxt ver ∈ take 1 ex_trace ∧ 1 < issued + challengeLifetime.
Proof.
  destruct (challenge_attempts (take 1 ex_trace) ex_token 1) as (_ & H & _).
  apply H. vm_compute. reflexivity.
Defined.

Definition ex_request : Request :=
  {| store_ready := true; session_err := false; pending_token := None |}.
Definition ex_next_request : Request :=
  {| store_ready := true; session_err := false; pending_token := Some ex_token |}.

Lemma SetPending2FA_GetPending2FA_witness :
  GetPending2FA ex_next_request Minute
    (SetPending2FA ex_request (Ok [0xab; 0x01]) (Ok ()) 0 7 "/" 1 ∅).2 =
  (7, "/"%string, 1, true).
Proof.
  destruct (SetPending2FA_GetPending2FA ex_request ex_next_request [0xab; 0x01] 0 Minute
    7 1 "/" ex_token ∅
    (SetPending2FA ex_request (Ok [0xab; 0x01]) (Ok ()) 0 7 "/" 1 ∅).2) as [Hget _];
    [vm_compute; reflexivity|vm_compute; discriminate|vm_compute; reflexivity|].
  rewrite Hget. vm_compute. reflexivity.
Defined.
