(* ===== verification/Validation.v ===== *)
(** * The reports the clients send, and their validation

    The payloads of [internal/domain/api.go] and the methods [Validate] of
    [internal/domain/validation.go].  An [int64] is a [Z], a pointer an [option], a
    [json.RawMessage] its text.  [Validate] returns [None] for the nil error. *)
From Stdlib Require Import Ascii.
From S2P Require Import Prelude GoStrings GoNum GoJson.

(** ** [api.go] *)

Record BackupTaskPayload := {
  btp_VMID : Z; btp_VMName : string; btp_Status : string; btp_StartTime : Z;
  btp_EndTime : Z; btp_Duration : Z; btp_Size : Z; btp_Filename : string }.

Record BackupStatus := {
  bs_Status : RawMessage; bs_StartTime : Z; bs_EndTime : Z; bs_Duration : Z }.

Definition StatusString (b : option BackupStatus) : string :=
  match b with
  | None => ""
  | Some b =>
      match Unmarshal_string (bs_Status b) with
      | Some s => s
      | None =>
          match Unmarshal_bool (bs_Status b) with
          | Some v => if v then "OK" else "ERROR"
          | None => bs_Status b
          end
      end
  end.

Record StorageInfoPayload := {
  sip_Total : Z; sip_Used : Z; sip_Avail : Z; sip_UsedPct : float64;
  sip_Active : bool; sip_Enabled : bool; sip_Lvl : Z }.

Record ContentDataPayload := {
  cdp_VMID : Z; cdp_Format : string; cdp_Size : Z; cdp_Content : string;
  cdp_VolID : string; cdp_CTime : Z; cdp_Subtype : string; cdp_Notes : string;
  cdp_Verification : string }.

Record StoragePayload := {
  stp_Digest : string; stp_PruneBackups : RawMessage; stp_Shared : bool;
  stp_Server : string; stp_Storage : string; stp_Path : string; stp_Content : string;
  stp_Type : string; stp_Status : string; stp_StorageInfo : list StorageInfoPayload;
  stp_ContentData : list ContentDataPayload }.

Record PVEReportRequest := {
  pvq_ReportID : string; pvq_Hostname : string; pvq_IPAddress : string;
  pvq_PublicIP : string; pvq_ClientVersion : string; pvq_MachineID : string;
  pvq_SwapTotal : Z; pvq_SwapUsed : Z; pvq_SwapEnabled : bool;
  pvq_LastBackupStatus : option BackupStatus; pvq_Storages : list StoragePayload;
  pvq_BackupTasks : list BackupTaskPayload }.

Record PBSGroupPayload := {
  gp_BackupType : string; gp_BackupID : string; gp_LastBackup : Z; gp_BackupCount : Z;
  gp_Owner : string; gp_Comment : string; gp_VerificationState : string; gp_Size : Z }.

Record GCStatusPayload := {
  gcp_DiskBytes : Z; gcp_DiskChunks : Z; gcp_IndexDataBytes : Z; gcp_IndexFileCount : Z;
  gcp_PendingBytes : Z; gcp_PendingChunks : Z; gcp_RemovedBad : Z; gcp_RemovedBytes : Z;
  gcp_RemovedChunks : Z; gcp_StillBad : Z; gcp_UPID : string }.

Record PBSDatastorePayload := {
  dsp_Store : string; dsp_Total : Z; dsp_Used : Z; dsp_Avail : Z;
  dsp_EstimatedFullDate : Z; dsp_MountStatus : string; dsp_HistoryStart : Z;
  dsp_HistoryDelta : Z; dsp_History : list (option float64);
  dsp_GCStatus : option GCStatusPayload; dsp_Groups : list PBSGroupPayload }.

Record PBSTaskPayload := {
  ptp_TaskType : string; ptp_JobID : string; ptp_Remote : string;
  ptp_RemoteStore : string; ptp_Store : string; ptp_Status : string;
  ptp_StartTime : Z; ptp_EndTime : Z; ptp_UPID : string }.

Record PBSInformation := {
  pbi_Data : list PBSDatastorePayload; pbi_Tasks : list PBSTaskPayload }.

Record PBSReportRequest := {
  pbq_ReportID : string; pbq_Hostname : string; pbq_IPAddress : string;
  pbq_PublicIP : string; pbq_ClientVersion : string; pbq_MachineID : string;
  pbq_SwapTotal : Z; pbq_SwapUsed : Z; pbq_SwapEnabled : bool;
  pbq_PBSInformation : PBSInformation }.

Record HeartbeatRequest := {
  hbq_Hostname : string; hbq_ServerType : string; hbq_IPAddress : string;
  hbq_PublicIP : string; hbq_ClientVersion : string; hbq_MachineID : string;
  hbq_SwapTotal : Z; hbq_SwapUsed : Z; hbq_SwapEnabled : option bool }.

Record WindowsDiskPayload := {
  wdp_Name : string; wdp_Label : string; wdp_FileSystem : string; wdp_DriveType : string;
  wdp_Total : Z; wdp_Used : Z; wdp_Free : Z; wdp_Health : string }.

Record WindowsReportRequest := {
  wnq_ReportID : string; wnq_Hostname : string; wnq_IPAddress : string;
  wnq_PublicIP : string; wnq_ClientVersion : string; wnq_MachineID : string;
  wnq_Disks : list WindowsDiskPayload }.

(** ** [validation.go] *)

Definition maxHostnameLength : Z := 255.
Definition maxReportIDLength : Z := 128.
Definition maxMetadataLength : Z := 512.

Definition len {A} (l : list A) : Z := Z.of_nat (length l).

(** [if bad { return fmt.Errorf(msg) }], and the statements after it. *)
Definition reject (bad : bool) (msg : string) (k : option error) : option error :=
  if bad then Some (ErrMsg msg) else k.

(** [if err := e; err != nil { return err }]. *)
Definition or_else (e k : option error) : option error :=
  match e with Some e => Some e | None => k end.

(** A loop whose body returns the first error it meets. *)
Fixpoint first_error {A} (f : A → option error) (l : list A) : option error :=
  match l with [] => None | x :: l => or_else (f x) (first_error f l) end.

(** Every byte of a character outside ASCII is one that is refused. *)
Definition report_id_byte (c : ascii) : bool :=
  let r := byte c in
  ((97 <=? r) && (r <=? 122)) || ((65 <=? r) && (r <=? 90)) ||
  ((48 <=? r) && (r <=? 57)) || has_byte c "._:-".

Fixpoint report_id_loop (value : string) : bool :=
  match value with
  | EmptyString => true
  | String c value => report_id_byte c && report_id_loop value
  end.

Definition validReportID (value : string) : bool :=
  report_id_loop value && negb (str_empty value).

Section validation.
Context `{!MapRange}.

Definition validateReportIdentity
    (reportID hostname ip publicIP clientVersion machineID : string) : option error :=
  reject (str_empty (TrimSpace hostname)) "hostname is required" (
  reject (maxHostnameLength <? str_len hostname) "hostname is too long" (
  reject ((maxReportIDLength <? str_len reportID) ||
          (negb (str_empty reportID) && negb (validReportID reportID)))
    "report_id is invalid" (
  first_error (λ '(name, value),
      reject (maxMetadataLength <? str_len value) (name +:+ " is too long") None)
    (range (list_to_map [("ip_address", ip); ("public_ip", publicIP);
       ("client_version", clientVersion); ("machine_id", machineID)] : gmap string string))))).

Definition validate_info (info : StorageInfoPayload) : option error :=
  reject ((sip_Total info <? 0) || (sip_Used info <? 0) || (sip_Avail info <? 0))
    "storage byte values cannot be negative" None.

Definition validate_content (content : ContentDataPayload) : option error :=
  reject ((cdp_VMID content <? 0) || (cdp_Size content <? 0))
    "storage content values cannot be negative" None.

Definition validate_task (task : BackupTaskPayload) : option error :=
  reject ((btp_VMID task <? 0) || (btp_StartTime task <? 0) || (btp_EndTime task <? 0) ||
          (btp_Duration task <? 0) || (btp_Size task <? 0))
    "backup task values cannot be negative" None.

(** The loop over the storages, with the variable [contentItems]. *)
Fixpoint validate_storages (contentItems : Z) (storages : list StoragePayload) :
    option error :=
  match storages with
  | [] => None
  | storage :: storages =>
      let contentItems' := contentItems + len (stp_ContentData storage) in
      reject (maxMetadataLength <? str_len (stp_Storage storage)) "storage name is too long" (
      reject (16 <? len (stp_StorageInfo storage)) "too many storage info entries" (
      reject (20000 <? contentItems') "too many storage content entries" (
      or_else (first_error validate_info (stp_StorageInfo storage)) (
      or_else (first_error validate_content (stp_ContentData storage))
        (validate_storages contentItems' storages)))))
  end.

Definition PVEReportRequest_Validate (r : PVEReportRequest) : option error :=
  or_else (validateReportIdentity (pvq_ReportID r) (pvq_Hostname r) (pvq_IPAddress r)
             (pvq_PublicIP r) (pvq_ClientVersion r) (pvq_MachineID r)) (
  reject ((pvq_SwapTotal r <? 0) || (pvq_SwapUsed r <? 0))
    "swap values cannot be negative" (
  reject (256 <? len (pvq_Storages r)) "too many storages" (
  reject (10000 <? len (pvq_BackupTasks r)) "too many backup tasks" (
  or_else (validate_storages 0 (pvq_Storages r))
    (first_error validate_task (pvq_BackupTasks r)))))).

Definition validate_group (group : PBSGroupPayload) : option error :=
  reject ((gp_LastBackup group <? 0) || (gp_BackupCount group <? 0) || (gp_Size group <? 0))
    "backup group values cannot be negative" None.

Fixpoint validate_datastores (groups : Z) (data : list PBSDatastorePayload) :
    option error :=
  match data with
  | [] => None
  | datastore :: data =>
      let groups' := groups + len (dsp_Groups datastore) in
      reject (maxMetadataLength <? str_len (dsp_Store datastore)) "datastore name is too long" (
      reject ((dsp_Total datastore <? 0) || (dsp_Used datastore <? 0) ||
              (dsp_Avail datastore <? 0)) "datastore byte values cannot be negative" (
      reject (10000 <? len (dsp_History datastore)) "datastore history is too large" (
      reject (50000 <? groups') "too many backup groups" (
      or_else (first_error validate_group (dsp_Groups datastore))
        (validate_datastores groups' data)))))
  end.

Definition PBSReportRequest_Validate (r : PBSReportRequest) : option error :=
  or_else (validateReportIdentity (pbq_ReportID r) (pbq_Hostname r) (pbq_IPAddress r)
             (pbq_PublicIP r) (pbq_ClientVersion r) (pbq_MachineID r)) (
  reject ((pbq_SwapTotal r <? 0) || (pbq_SwapUsed r <? 0))
    "swap values cannot be negative" (
  reject (256 <? len (pbi_Data (pbq_PBSInformation r))) "too many datastores" (
  reject (10000 <? len (pbi_Tasks (pbq_PBSInformation r))) "too many maintenance tasks"
    (validate_datastores 0 (pbi_Data (pbq_PBSInformation r)))))).

Definition validate_disk (disk : WindowsDiskPayload) : option error :=
  reject (maxMetadataLength <? str_len (wdp_Name disk)) "disk name is too long" (
  reject ((wdp_Total disk <? 0) || (wdp_Used disk <? 0) || (wdp_Free disk <? 0))
    "disk byte values cannot be negative" None).

Definition WindowsReportRequest_Validate (r : WindowsReportRequest) : option error :=
  or_else (validateReportIdentity (wnq_ReportID r) (wnq_Hostname r) (wnq_IPAddress r)
             (wnq_PublicIP r) (wnq_ClientVersion r) (wnq_MachineID r)) (
  reject (512 <? len (wnq_Disks r)) "too many disks"
    (first_error validate_disk (wnq_Disks r))).

Definition HeartbeatRequest_Validate (r : HeartbeatRequest) : option error :=
  or_else (validateReportIdentity "" (hbq_Hostname r) (hbq_IPAddress r)
             (hbq_PublicIP r) (hbq_ClientVersion r) (hbq_MachineID r)) (
  reject ((hbq_SwapTotal r <? 0) || (hbq_SwapUsed r <? 0))
    "swap values cannot be negative" None).
End validation.

(** ** What a report must satisfy *)

Definition short (s : string) : Prop := str_len s ≤ maxMetadataLength.

Definition identity_ok (reportID hostname ip publicIP clientVersion machineID : string) : Prop :=
  TrimSpace hostname ≠ "" ∧ str_len hostname ≤ maxHostnameLength ∧
  str_len reportID ≤ maxReportIDLength ∧ report_id_loop reportID = true ∧
  short ip ∧ short publicIP ∧ short clientVersion ∧ short machineID.

Definition info_ok (i : StorageInfoPayload) : Prop :=
  0 ≤ sip_Total i ∧ 0 ≤ sip_Used i ∧ 0 ≤ sip_Avail i.

Definition content_ok (c : ContentDataPayload) : Prop := 0 ≤ cdp_VMID c ∧ 0 ≤ cdp_Size c.

Definition task_ok (t : BackupTaskPayload) : Prop :=
  0 ≤ btp_VMID t ∧ 0 ≤ btp_StartTime t ∧ 0 ≤ btp_EndTime t ∧ 0 ≤ btp_Duration t ∧
  0 ≤ btp_Size t.

Definition storage_ok (s : StoragePayload) : Prop :=
  short (stp_Storage s) ∧ len (stp_StorageInfo s) ≤ 16 ∧
  Forall info_ok (stp_StorageInfo s) ∧ Forall content_ok (stp_ContentData s).

(** The number of elements of the lists [f x], for [x] in [l]. *)
Definition total {A B} (f : A → list B) (l : list A) : Z := len (flat_map f l).

Definition pve_report_ok (r : PVEReportRequest) : Prop :=
  identity_ok (pvq_ReportID r) (pvq_Hostname r) (pvq_IPAddress r) (pvq_PublicIP r)
    (pvq_ClientVersion r) (pvq_MachineID r) ∧
  0 ≤ pvq_SwapTotal r ∧ 0 ≤ pvq_SwapUsed r ∧ len (pvq_Storages r) ≤ 256 ∧
  len (pvq_BackupTasks r) ≤ 10000 ∧ Forall storage_ok (pvq_Storages r) ∧
  total stp_ContentData (pvq_Storages r) ≤ 20000 ∧ Forall task_ok (pvq_BackupTasks r).

Definition group_ok (g : PBSGroupPayload) : Prop :=
  0 ≤ gp_LastBackup g ∧ 0 ≤ gp_BackupCount g ∧ 0 ≤ gp_Size g.

Definition datastore_ok (d : PBSDatastorePayload) : Prop :=
  short (dsp_Store d) ∧ 0 ≤ dsp_Total d ∧ 0 ≤ dsp_Used d ∧ 0 ≤ dsp_Avail d ∧
  len (dsp_History d) ≤ 10000 ∧ Forall group_ok (dsp_Groups d).

Definition pbs_report_ok (r : PBSReportRequest) : Prop :=
  identity_ok (pbq_ReportID r) (pbq_Hostname r) (pbq_IPAddress r) (pbq_PublicIP r)
    (pbq_ClientVersion r) (pbq_MachineID r) ∧
  0 ≤ pbq_SwapTotal r ∧ 0 ≤ pbq_SwapUsed r ∧
  len (pbi_Data (pbq_PBSInformation r)) ≤ 256 ∧
  len (pbi_Tasks (pbq_PBSInformation r)) ≤ 10000 ∧
  Forall datastore_ok (pbi_Data (pbq_PBSInformation r)) ∧
  total dsp_Groups (pbi_Data (pbq_PBSInformation r)) ≤ 50000.

Definition disk_ok (d : WindowsDiskPayload) : Prop :=
  short (wdp_Name d) ∧ 0 ≤ wdp_Total d ∧ 0 ≤ wdp_Used d ∧ 0 ≤ wdp_Free d.

Definition windows_report_ok (r : WindowsReportRequest) : Prop :=
  identity_ok (wnq_ReportID r) (wnq_Hostname r) (wnq_IPAddress r) (wnq_PublicIP r)
    (wnq_ClientVersion r) (wnq_MachineID r) ∧
  len (wnq_Disks r) ≤ 512 ∧ Forall disk_ok (wnq_Disks r).

Definition heartbeat_ok (r : HeartbeatRequest) : Prop :=
  identity_ok "" (hbq_Hostname r) (hbq_IPAddress r) (hbq_PublicIP r) (hbq_ClientVersion r)
    (hbq_MachineID r) ∧
  0 ≤ hbq_SwapTotal r ∧ 0 ≤ hbq_SwapUsed r.

(** ** Lemmas *)

Lemma reject_None bad msg k : reject bad msg k = None ↔ bad = false ∧ k = None.
Proof. destruct bad; naive_solver. Qed.

Lemma or_else_None e k : or_else e k = None ↔ e = None ∧ k = None.
Proof. destruct e; naive_solver. Qed.

Lemma first_error_None {A} (f : A → option error) l :
  first_error f l = None ↔ Forall (λ x, f x = None) l.
Proof.
  induction l as [|x l IH]; simpl; [by split; constructor|].
  by rewrite or_else_None, IH, Forall_cons.
Qed.

Lemma ltb_false_le a b : (a <? b) = false ↔ b ≤ a.
Proof. apply Z.ltb_ge. Qed.

Lemma total_cons {A B} (f : A → list B) x l : total f (x :: l) = len (f x) + total f l.
Proof. unfold total, len. simpl. rewrite length_app. lia. Qed.

Lemma len_nonneg {A} (l : list A) : 0 ≤ len l.
Proof. unfold len. lia. Qed.

Lemma str_empty_false s : str_empty s = false ↔ s ≠ "".
Proof. unfold str_empty. by rewrite bool_decide_eq_false. Qed.

(** Turns a run of checks into the conjunction of their negations. *)
Create Rewrite HintDb probak_checks.
#[export] Hint Rewrite reject_None or_else_None @first_error_None orb_false_iff
  ltb_false_le negb_false_iff str_empty_false : probak_checks.

Section validation_spec.
Context `{!MapRange}.

Lemma validReportID_spec reportID :
  negb (str_empty reportID) && negb (validReportID reportID) = false ↔
  report_id_loop reportID = true.
Proof.
  unfold validReportID, str_empty.
  destruct (decide (reportID = "")) as [->|Hne]; [done|].
  rewrite bool_decide_false by done. simpl. rewrite andb_true_r.
  by rewrite negb_false_iff.
Qed.

(** Whatever the order of the four fields, they are all looked at. *)
Lemma validateReportIdentity_None reportID hostname ip publicIP clientVersion machineID :
  validateReportIdentity reportID hostname ip publicIP clientVersion machineID = None ↔
  identity_ok reportID hostname ip publicIP clientVersion machineID.
Proof.
  unfold validateReportIdentity, identity_ok, short.
  autorewrite with probak_checks. rewrite validReportID_spec, Forall_forall.
  assert ((∀ x : string * string, x ∈ range (list_to_map [("ip_address", ip);
      ("public_ip", publicIP); ("client_version", clientVersion);
      ("machine_id", machineID)] : gmap string string) →
      (let '(name, value) := x in
       reject (maxMetadataLength <? str_len value) (name +:+ " is too long") None) = None) ↔
    str_len ip ≤ maxMetadataLength ∧ str_len publicIP ≤ maxMetadataLength ∧
    str_len clientVersion ≤ maxMetadataLength ∧ str_len machineID ≤ maxMetadataLength) as Hr.
  { split.
    - intros Hall.
      assert (∀ n v, (list_to_map [("ip_address", ip); ("public_ip", publicIP);
        ("client_version", clientVersion); ("machine_id", machineID)] : gmap string string) !! n
          = Some v → str_len v ≤ maxMetadataLength) as Hv.
      { intros n v Hnv. apply elem_of_range in Hnv. specialize (Hall _ Hnv). simpl in Hall.
        by apply reject_None in Hall as [?%ltb_false_le _]. }
      split_and!; eapply Hv; apply elem_of_list_to_map_1; [by repeat constructor; set_solver| | | | | | | ];
        try (by repeat constructor; set_solver); set_solver.
    - intros (H1 & H2 & H3 & H4) [n v] Hnv. apply elem_of_range, elem_of_list_to_map_2 in Hnv.
      apply reject_None. split; [|done]. apply ltb_false_le. set_solver. }
  rewrite Hr. naive_solver.
Qed.

Lemma checked_list {A} (f : A → option error) (P : A → Prop) l :
  (∀ x, f x = None ↔ P x) → first_error f l = None ↔ Forall P l.
Proof. intros Hf. rewrite first_error_None. by apply Forall_iff. Qed.

Lemma validate_info_None i : validate_info i = None ↔ info_ok i.
Proof. unfold validate_info, info_ok. autorewrite with probak_checks. tauto. Qed.

Lemma validate_content_None c : validate_content c = None ↔ content_ok c.
Proof. unfold validate_content, content_ok. autorewrite with probak_checks. tauto. Qed.

Lemma validate_task_None t : validate_task t = None ↔ task_ok t.
Proof. unfold validate_task, task_ok. autorewrite with probak_checks. tauto. Qed.

Lemma validate_group_None g : validate_group g = None ↔ group_ok g.
Proof. unfold validate_group, group_ok. autorewrite with probak_checks. tauto. Qed.

Lemma validate_disk_None d : validate_disk d = None ↔ disk_ok d.
Proof. unfold validate_disk, disk_ok, short. autorewrite with probak_checks. tauto. Qed.

(** The running count is checked at every storage; it grows, so the last check
    implies the others. *)
Lemma validate_storages_None n storages :
  0 ≤ n ≤ 20000 →
  validate_storages n storages = None ↔
  Forall storage_ok storages ∧ n + total stp_ContentData storages ≤ 20000.
Proof.
  revert n. induction storages as [|s l IH]; intros n Hn; cbn [validate_storages].
  - unfold total, len. simpl. split; [split; [constructor|lia]|done].
  - autorewrite with probak_checks. rewrite Forall_cons, total_cons.
    rewrite <-!first_error_None, (checked_list _ _ _ validate_info_None),
      (checked_list _ _ _ validate_content_None).
    pose proof (len_nonneg (stp_ContentData s)).
    pose proof (len_nonneg (flat_map stp_ContentData l)).
    unfold storage_ok, short. fold (total stp_ContentData l) in *.
    destruct (decide (n + len (stp_ContentData s) ≤ 20000)); [|intuition lia].
    rewrite IH by lia. intuition lia.
Qed.

Lemma validate_datastores_None n data :
  0 ≤ n ≤ 50000 →
  validate_datastores n data = None ↔
  Forall datastore_ok data ∧ n + total dsp_Groups data ≤ 50000.
Proof.
  revert n. induction data as [|d l IH]; intros n Hn; cbn [validate_datastores].
  - unfold total, len. simpl. split; [split; [constructor|lia]|done].
  - autorewrite with probak_checks. rewrite Forall_cons, total_cons.
    rewrite <-first_error_None, (checked_list _ _ _ validate_group_None).
    pose proof (len_nonneg (dsp_Groups d)). pose proof (len_nonneg (flat_map dsp_Groups l)).
    unfold datastore_ok, short. fold (total dsp_Groups l) in *.
    destruct (decide (n + len (dsp_Groups d) ≤ 50000)); [|intuition lia].
    rewrite IH by lia. intuition lia.
Qed.

(** C27: a report is accepted exactly when it is well formed: an identity within the
    limits, a report token of the permitted characters, no negative count, size or
    time, and lists no longer than their bounds, in total over the storages where
    the bound is on the whole report.  The verdict does not depend on the order in
    which Go visits the map of the metadata fields. *)
Theorem Validate_accepts (pve : PVEReportRequest) (pbs : PBSReportRequest)
    (win : WindowsReportRequest) (hb : HeartbeatRequest) :
  (PVEReportRequest_Validate pve = None ↔ pve_report_ok pve) ∧
  (PBSReportRequest_Validate pbs = None ↔ pbs_report_ok pbs) ∧
  (WindowsReportRequest_Validate win = None ↔ windows_report_ok win) ∧
  (HeartbeatRequest_Validate hb = None ↔ heartbeat_ok hb).
Proof.
  unfold PVEReportRequest_Validate, pve_report_ok, PBSReportRequest_Validate, pbs_report_ok,
    WindowsReportRequest_Validate, windows_report_ok, HeartbeatRequest_Validate, heartbeat_ok.
  rewrite !or_else_None, !reject_None, !or_else_None, !orb_false_iff, !ltb_false_le,
    !validateReportIdentity_None, validate_storages_None, validate_datastores_None by lia.
  rewrite (checked_list _ _ _ validate_task_None), (checked_list _ _ _ validate_disk_None).
  rewrite !Z.add_0_l. tauto.
Qed.
End validation_spec.
