(* ===== verification/Secrets.v ===== *)
(** * Encrypted values: [internal/secretbox/secretbox.go]

    API keys and passwords are stored encrypted under a master key, with a keyed hash
    beside an API key to look it up by.  The primitives of [crypto] are the methods of
    [Crypto], with what the code relies on: what was sealed can be opened, and neither a
    seal nor a keyed hash is empty.
    [base64.RawURLEncoding] and [hex] are defined. *)
From Stdlib Require Import Ascii.
From S2P Require Import Prelude GoStrings.

(** ** [encoding/hex] *)

Fixpoint hex (s : string) : string :=
  match s with
  | EmptyString => EmptyString
  | String c s => String (hex_digit (byte c / 16)) (String (hex_digit (byte c mod 16)) (hex s))
  end.

(** ** [base64.RawURLEncoding] *)

Definition b64_alphabet : string :=
  "ABCDEFGHIJKLMNOPQRSTUVWXYZabcdefghijklmnopqrstuvwxyz0123456789-_".

Definition b64_char (v : Z) : ascii := default "A"%char (String.get (Z.to_nat v) b64_alphabet).

Definition b64_val (c : ascii) : option Z :=
  let b := byte c in
  if (65 <=? b) && (b <=? 90) then Some (b - 65) else
  if (97 <=? b) && (b <=? 122) then Some (b - 71) else
  if (48 <=? b) && (b <=? 57) then Some (b + 4) else
  if b =? 45 then Some 62 else if b =? 95 then Some 63 else None.

(** The lowest [n] characters of six bits of [x]. *)
Fixpoint sextets (n : nat) (x : Z) : string :=
  match n with
  | O => EmptyString
  | S n => String (b64_char ((x / 64 ^ Z.of_nat n) mod 64)) (sextets n x)
  end.

Fixpoint b64_encode (s : string) : string :=
  match s with
  | EmptyString => EmptyString
  | String a EmptyString => sextets 2 (byte a * 16)
  | String a (String b EmptyString) => sextets 3 ((byte a * 256 + byte b) * 4)
  | String a (String b (String c s)) =>
      sextets 4 ((byte a * 256 + byte b) * 256 + byte c) +:+ b64_encode s
  end.

Definition char_of (b : Z) : ascii := ascii_of_N (Z.to_N b).

(** [None] is a [CorruptInputError]. *)
Fixpoint b64_vals (l : list Z) : option string :=
  match l with
  | [] => Some EmptyString
  | [_] => None
  | [v1; v2] => Some (String (char_of ((v1 * 64 + v2) / 16)) EmptyString)
  | [v1; v2; v3] =>
      let x := (v1 * 64 + v2) * 64 + v3 in
      Some (String (char_of (x / 1024)) (String (char_of (x / 4 mod 256)) EmptyString))
  | v1 :: v2 :: v3 :: v4 :: l =>
      let x := ((v1 * 64 + v2) * 64 + v3) * 64 + v4 in
      s ← b64_vals l;
      Some (String (char_of (x / 65536)) (String (char_of (x / 256 mod 256))
        (String (char_of (x mod 256)) s)))
  end.

(** The decoder skips line ends. *)
Definition is_newline (c : ascii) : bool := (byte c =? 10) || (byte c =? 13).

Fixpoint b64_clean (s : string) : option (list Z) :=
  match s with
  | EmptyString => Some []
  | String c s =>
      if is_newline c then b64_clean s else
      v ← b64_val c; l ← b64_clean s; Some (v :: l)
  end.

Definition b64_decode (s : string) : option string := b64_clean s ≫= b64_vals.

(** ** Primitives *)

Class Crypto := {
  sha256 : string → string;
  hmac_sha256 : string → string → string;
  (** [gcm_seal key nonce plaintext additionalData], and its inverse. *)
  gcm_seal : string → string → string → string → string;
  gcm_open : string → string → string → string → result string;
  gcm_open_seal key nonce plain ad :
    gcm_open key nonce (gcm_seal key nonce plain ad) ad = Ok plain;
  gcm_seal_nonempty key nonce plain ad : gcm_seal key nonce plain ad ≠ "";
  hmac_nonempty key msg : hmac_sha256 key msg ≠ ""
}.

(** [aead.NonceSize()] of GCM. *)
Definition NonceSize : nat := 12.

(** ** [secretbox.go] *)

Definition prefix : string := "enc:v1:".

(** [aead] is the key of the cipher. *)
Record Box := { aead : string; lookupKey : string }.

Definition IsEncrypted (value : string) : bool := HasPrefix value prefix.

(** The [n]-th and later bytes. *)
Fixpoint str_drop (n : nat) (s : string) : string :=
  match n, s with
  | O, _ => s
  | S n, String _ s => str_drop n s
  | S _, EmptyString => EmptyString
  end.

Fixpoint str_take (n : nat) (s : string) : string :=
  match n, s with
  | O, _ | S _, EmptyString => EmptyString
  | S n, String c s => String c (str_take n s)
  end.

Section secretbox.
Context `{!Crypto}.

Definition New (masterKey : string) : result Box :=
  if str_len masterKey <? 32
  then Err (ErrMsg "data encryption key must contain at least 32 bytes")
  else Ok {| aead := sha256 ("probakgo:data-encryption:v1:" +:+ masterKey);
             lookupKey := sha256 ("probakgo:api-key-lookup:v1:" +:+ masterKey) |}.

(** [nonce] is the answer of the random source. *)
Definition Encrypt (b : Box) (nonce : result string) (value : string) : result string :=
  if str_empty value || IsEncrypted value then Ok value else
  match nonce with
  | Err e => Err (ErrWrap "generate encryption nonce" e)
  | Ok nonce =>
      let sealed := gcm_seal (aead b) nonce value prefix in
      Ok (prefix +:+ b64_encode (nonce +:+ sealed))
  end.

Definition Decrypt (b : Box) (value : string) : result string :=
  if str_empty value || negb (IsEncrypted value) then Ok value else
  match b64_decode (str_drop (String.length prefix) value) with
  | None => Err (ErrWrap "decode encrypted value" (ErrMsg "illegal base64 data"))
  | Some payload =>
      if (String.length payload <=? NonceSize)%nat
      then Err (ErrMsg "encrypted value is truncated") else
      match gcm_open (aead b) (str_take NonceSize payload) (str_drop NonceSize payload) prefix with
      | Err e => Err (ErrWrap "decrypt value" e)
      | Ok plain => Ok plain
      end
  end.

Definition LookupHash (b : Box) (value : string) : string :=
  hex (hmac_sha256 (lookupKey b) value).
End secretbox.

(** ** Lemmas *)

Lemma byte_range c : 0 ≤ byte c < 256.
Proof. unfold byte. pose proof (N_ascii_bounded c). lia. Qed.

Lemma char_of_byte c : char_of (byte c) = c.
Proof. unfold char_of, byte. by rewrite N2Z.id, ascii_N_embedding. Qed.

Lemma b64_val_char v :
  0 ≤ v < 64 → b64_val (b64_char v) = Some v ∧ is_newline (b64_char v) = false.
Proof.
  intros Hv. assert (forallb (λ v, bool_decide (b64_val (b64_char v) = Some v) &&
    negb (is_newline (b64_char v))) (seqZ 0 64) = true) as Hall by (vm_compute; reflexivity).
  rewrite forallb_forall in Hall. specialize (Hall v).
  rewrite andb_true_iff, bool_decide_eq_true, negb_true_iff in Hall. apply Hall.
  apply list_elem_of_In, elem_of_seqZ. lia.
Qed.

Lemma b64_clean_char v s :
  0 ≤ v < 64 → b64_clean (String (b64_char v) s) = (l ← b64_clean s; Some (v :: l)).
Proof. intros [Hv Hn]%b64_val_char. simpl. by rewrite Hn, Hv. Qed.

(** The values of the lowest [n] characters. *)
Fixpoint sextet_vals (n : nat) (x : Z) : list Z :=
  match n with
  | O => []
  | S n => (x / 64 ^ Z.of_nat n) mod 64 :: sextet_vals n x
  end.

Lemma b64_clean_sextets n x s :
  b64_clean (sextets n x +:+ s) = (l ← b64_clean s; Some (sextet_vals n x ++ l)).
Proof.
  induction n as [|n IH].
  - cbn [sextets sextet_vals app]. rewrite app_nil_l_str. by destruct (b64_clean s).
  - cbn [sextets sextet_vals]. rewrite app_cons_str, b64_clean_char, IH
      by (apply Z.mod_pos_bound; lia). by destruct (b64_clean s).
Qed.

(** The number that a list of values writes in base 64. *)
Definition of_vals (l : list Z) : Z := fold_left (λ x v, x * 64 + v) l 0.

Lemma fold_sextets n x y :
  fold_left (λ x v, x * 64 + v) (sextet_vals n x) y = y * 64 ^ Z.of_nat n + x mod 64 ^ Z.of_nat n.
Proof.
  revert y. induction n as [|n IH]; intros y; cbn [sextet_vals fold_left].
  - rewrite Z.mod_1_r. lia.
  - rewrite IH, Nat2Z.inj_succ, Z.pow_succ_r by lia.
    rewrite (Z.mul_comm 64), Z.rem_mul_r by (try apply Z.pow_nonzero; lia). lia.
Qed.

Lemma of_sextet_vals n x : 0 ≤ x < 64 ^ Z.of_nat n → of_vals (sextet_vals n x) = x.
Proof. intros Hx. unfold of_vals. rewrite fold_sextets, Z.mod_small by done. lia. Qed.

Lemma b64_vals_1 v1 v2 a :
  of_vals [v1; v2] = byte a * 16 → b64_vals [v1; v2] = Some (String a "").
Proof.
  unfold of_vals. cbn [fold_left b64_vals]. rewrite Z.add_0_l. intros ->.
  rewrite Z.div_mul by done. by rewrite char_of_byte.
Qed.

Lemma b64_vals_2 v1 v2 v3 a b :
  of_vals [v1; v2; v3] = (byte a * 256 + byte b) * 4 →
  b64_vals [v1; v2; v3] = Some (String a (String b "")).
Proof.
  unfold of_vals. cbn [fold_left b64_vals]. rewrite Z.add_0_l. intros ->.
  pose proof (byte_range b). rewrite Z.div_mul by done.
  replace ((byte a * 256 + byte b) * 4 / 1024) with (byte a)
    by (apply (Z.div_unique _ _ _ (byte b * 4)); lia).
  replace ((byte a * 256 + byte b) mod 256) with (byte b)
    by (apply (Z.mod_unique _ _ (byte a)); lia).
  by rewrite !char_of_byte.
Qed.

Lemma b64_vals_3 v1 v2 v3 v4 l a b c s :
  of_vals [v1; v2; v3; v4] = (byte a * 256 + byte b) * 256 + byte c → b64_vals l = Some s →
  b64_vals (v1 :: v2 :: v3 :: v4 :: l) = Some (String a (String b (String c s))).
Proof.
  intros Hx Hl. cbn [b64_vals]. rewrite Hl. cbn [mbind option_bind].
  unfold of_vals in Hx. cbn [fold_left] in Hx. rewrite Z.add_0_l in Hx. rewrite Hx.
  pose proof (byte_range b). pose proof (byte_range c).
  replace (((byte a * 256 + byte b) * 256 + byte c) / 65536) with (byte a)
    by (apply (Z.div_unique _ _ _ (byte b * 256 + byte c)); lia).
  replace (((byte a * 256 + byte b) * 256 + byte c) / 256) with (byte a * 256 + byte b)
    by (apply (Z.div_unique _ _ _ (byte c)); lia).
  replace ((byte a * 256 + byte b) mod 256) with (byte b)
    by (apply (Z.mod_unique _ _ (byte a)); lia).
  replace (((byte a * 256 + byte b) * 256 + byte c) mod 256) with (byte c)
    by (apply (Z.mod_unique _ _ (byte a * 256 + byte b)); lia).
  by rewrite !char_of_byte.
Qed.

Lemma b64_decode_encode s : b64_decode (b64_encode s) = Some s.
Proof.
  unfold b64_decode.
  assert (∀ n s, (String.length s ≤ n)%nat → b64_clean (b64_encode s) ≫= b64_vals = Some s)
    as Hall; [|by eapply Hall].
  clear s. induction n as [|n IH]; intros [|a [|b [|c s]]] Hn; simpl in Hn; try lia; try done;
    pose proof (byte_range a).
  - rewrite <-(app_nil_r_str (b64_encode _)). cbn [b64_encode]. rewrite b64_clean_sextets.
    cbn [b64_clean mbind option_bind app]. rewrite app_nil_r.
    apply b64_vals_1, (of_sextet_vals 2). lia.
  - pose proof (byte_range b).
    rewrite <-(app_nil_r_str (b64_encode _)). cbn [b64_encode]. rewrite b64_clean_sextets.
    cbn [b64_clean mbind option_bind app]. rewrite app_nil_r.
    apply b64_vals_2, (of_sextet_vals 3). lia.
  - pose proof (byte_range b). pose proof (byte_range c).
    cbn [b64_encode]. rewrite b64_clean_sextets. specialize (IH s ltac:(lia)).
    destruct (b64_clean (b64_encode s)) as [l|]; [|done]. cbn [mbind option_bind app] in *.
    apply b64_vals_3; [apply (of_sextet_vals 4); lia|done].
Qed.

Lemma str_drop_app s t : str_drop (String.length s) (s +:+ t) = t.
Proof. induction s as [|c s IH]; [by destruct t|]. rewrite app_cons_str. apply IH. Qed.

Lemma str_take_app s t : str_take (String.length s) (s +:+ t) = s.
Proof.
  induction s as [|c s IH]; [by destruct t|]. rewrite app_cons_str. cbn [String.length str_take].
  by rewrite IH.
Qed.

Section roundtrip.
Context `{!Crypto}.

Lemma LookupHash_nonempty b v : LookupHash b v ≠ "".
Proof.
  unfold LookupHash. pose proof (hmac_nonempty (lookupKey b) v). by destruct (hmac_sha256 _ _).
Qed.

Lemma Decrypt_sealed b n v :
  String.length n = NonceSize → IsEncrypted v = false → v ≠ "" →
  ∃ c, Encrypt b (Ok n) v = Ok c ∧ IsEncrypted c = true ∧ Decrypt b c = Ok v.
Proof.
  intros Hn He Hv. unfold Encrypt. rewrite He. unfold str_empty.
  rewrite bool_decide_false by done. cbn [orb]. eexists. split; [reflexivity|].
  assert (∀ s, IsEncrypted (prefix +:+ s) = true) as Hp by (intros; apply HasPrefix_app).
  split; [apply Hp|]. unfold Decrypt. rewrite Hp, str_drop_app, b64_decode_encode.
  unfold str_empty. rewrite bool_decide_false by done. cbn [orb negb]. rewrite <-Hn.
  rewrite str_take_app, str_drop_app, gcm_open_seal, str_length_app.
  pose proof (gcm_seal_nonempty (aead b) n v prefix) as Hs.
  destruct (gcm_seal (aead b) n v prefix) as [|x s] eqn:Hg; [done|]. simpl.
  rewrite (proj2 (Nat.leb_gt _ _)) by lia. done.
Qed.

(** every value that does not already look encrypted can be encrypted and is read
    back as it was, whatever nonce is drawn; an encrypted value is recognised, and is
    not encrypted a second time; and a value stored before there was a master key is
    still read as it is. *)
Theorem Encrypt_Decrypt (b : Box) (n n' v : string) :
  String.length n = NonceSize → IsEncrypted v = false →
  Decrypt b v = Ok v ∧
  ∃ c, Encrypt b (Ok n) v = Ok c ∧ Decrypt b c = Ok v ∧ Encrypt b (Ok n') c = Ok c ∧
    IsEncrypted c = negb (str_empty v).
Proof.
  intros Hn He. split; [unfold Decrypt; rewrite He; by rewrite orb_true_r|].
  destruct (decide (v = "")) as [->|Hv]; [by exists ""|].
  destruct (Decrypt_sealed b n v Hn He Hv) as (c & Hc & Hec & Hd). exists c.
  split_and!; [done|done| |].
  - unfold Encrypt. by rewrite Hec, orb_true_r.
  - rewrite Hec. unfold str_empty. by rewrite bool_decide_false.
Qed.
End roundtrip.

(** ** An instance, for the examples: a seal that hides nothing *)

Definition tag : string := "0123456789abcdef".

#[export] Program Instance plain_crypto : Crypto | 100 := {|
  sha256 s := s; hmac_sha256 k m := k +:+ String "|"%char m;
  gcm_seal _ _ p _ := tag +:+ p;
  gcm_open _ _ c _ := Ok (str_drop (String.length tag) c) |}.
Next Obligation. intros. cbv beta. by rewrite str_drop_app. Qed.
Next Obligation. done. Qed.
Next Obligation. intros key msg. cbv beta. by destruct key. Qed.

Definition example_box : Box := {| aead := "k1"; lookupKey := "k2" |}.

Lemma Encrypt_Decrypt_witness :
  Encrypt example_box (Ok "123456789012") "pbk-1" =
    Ok "enc:v1:MTIzNDU2Nzg5MDEyMDEyMzQ1Njc4OWFiY2RlZnBiay0x" ∧
  ∃ c, Encrypt example_box (Ok "123456789012") "pbk-1" = Ok c ∧
    Decrypt example_box c = Ok "pbk-1".
Proof.
  split; [reflexivity|].
  destruct (Encrypt_Decrypt example_box "123456789012" "" "pbk-1" eq_refl eq_refl)
    as (_ & c & Hc & Hd & _). by exists c.
Defined.
