(* ===== verification/Relational.v ===== *)
(** * Tables with keys, references and unique indexes

    What the program relies on from its database: a table maps row numbers to
    rows; [AUTOINCREMENT] never gives a number twice; an insertion or an update is
    refused when it breaks a unique index or refers to a missing row; a deletion
    is refused when a reference is left dangling, after the actions of
    [ON DELETE].  A [Schema] lists the tables, their references and their unique
    indexes; the statements below work for every schema, and keep every database
    well formed ([wf]). *)
From stdpp Require Import sorting.
From S2P Require Import Prelude Sql.

Record Table (R : Type) := { rows : gmap Z R; last_id : Z }.
Arguments Build_Table {R}.
Arguments rows {R}.
Arguments last_id {R}.

(** [ON DELETE]: refuse, delete the referring row, or clear its column. *)
Inductive fk_action (R : Type) : Type :=
| Restrict
| Cascade
| SetNull (clear : R → R).
Arguments Restrict {R}.
Arguments Cascade {R}.
Arguments SetNull {R}.

Record FK {table : Type} (R : Type) := {
  parent : table; column : R → option Z; on_delete : fk_action R }.
Arguments parent {table R}.
Arguments column {table R}.
Arguments on_delete {table R}.

(** One number, one row; stated as lemmas because the type of a row is only
    convertible to a record. *)
Lemma row_det {R} (m : gmap Z R) i r1 r2 : m !! i = Some r1 → m !! i = Some r2 → r1 = r2.
Proof. congruence. Qed.

Lemma row_none {R} (m : gmap Z R) i r : m !! i = None → m !! i = Some r → False.
Proof. congruence. Qed.

Class Schema := {
  table : Type;
  table_dec :: EqDecision table;
  tables : list table;
  Row : table → Type;
  rowid : ∀ t, Row t → Z;
  fks : ∀ t, list (FK (table := table) (Row t));
  clash : ∀ t, Row t → Row t → bool;
  clash_sym : ∀ t r1 r2, clash t r1 r2 = clash t r2 r1;
  elem_of_tables : ∀ t, t ∈ tables;
  clear_rowid : ∀ t fk f r, fk ∈ fks t → on_delete fk = SetNull f →
    rowid t (f r) = rowid t r;
  clear_clash : ∀ t fk f r1 r2, fk ∈ fks t → on_delete fk = SetNull f →
    clash t (f r1) r2 = true → clash t r1 r2 = true
}.

Section relational.
Context `{!Schema}.

Definition DB : Type := ∀ t : table, Table (Row t).

Definition empty_db : DB := λ t, {| rows := ∅; last_id := 0 |}.

Definition put (t : table) (v : Table (Row t)) (db : DB) : DB := λ u,
  match decide (t = u) with
  | left e => eq_rect t (λ u, Table (Row u)) v u e
  | right _ => db u
  end.

(** ** References and unique indexes *)

Definition present (db : DB) (t : table) (i : Z) : bool :=
  match rows (db t) !! i with Some _ => true | None => false end.

Definition refers_ok {t} (db : DB) (r : Row t) (fk : FK (Row t)) : bool :=
  match column fk r with None => true | Some i => present db (parent fk) i end.

Definition fks_ok {t} (db : DB) (r : Row t) : bool := forallb (refers_ok db r) (fks t).

Definition clashes (t : table) (m : gmap Z (Row t)) (k : Z) (r : Row t) : bool :=
  existsb (λ kr, negb (kr.1 =? k) && clash t r kr.2) (map_to_list m).

Definition ErrUnique : error := ErrMsg "UNIQUE constraint failed".
Definition ErrForeignKey : error := ErrMsg "FOREIGN KEY constraint failed".

(** ** Statements *)

(** The row [r] becomes row [id]. *)
Definition insert_at (t : table) (id : Z) (r : Row t) (db : DB) : result (Z * DB) :=
  if clashes t (rows (db t)) id r then Err ErrUnique
  else if fks_ok db r
  then Ok (id, put t {| rows := <[id := r]> (rows (db t));
                        last_id := Z.max id (last_id (db t)) |} db)
  else Err ErrForeignKey.

Definition next_id (db : DB) (t : table) : Z := last_id (db t) + 1.

(** [INSERT]: the result is [LastInsertId]. *)
Definition insert_stmt (t : table) (mk : Z → Row t) (db : DB) : result (Z * DB) :=
  insert_at t (next_id db t) (mk (next_id db t)) db.

Definition matching (t : table) (cond : Row t → bool) (db : DB) : list (Row t) :=
  List.filter cond (map_to_list (rows (db t))).*2.

(** [UPDATE]: the result is [RowsAffected]. *)
Definition updated (t : table) (cond : Row t → bool) (f : Row t → Row t) (db : DB) :
    gmap Z (Row t) :=
  update_where (λ _, cond) f (rows (db t)).

Definition update_stmt (t : table) (cond : Row t → bool) (f : Row t → Row t) (db : DB) :
    result (Z * DB) :=
  let m := updated t cond f db in
  let touched := List.filter (λ kr, cond kr.2) (map_to_list (rows (db t))) in
  if existsb (λ kr, clashes t m kr.1 (f kr.2)) touched then Err ErrUnique
  else if forallb (λ kr, fks_ok db (f kr.2)) touched
  then Ok (Z.of_nat (length touched), put t {| rows := m; last_id := last_id (db t) |} db)
  else Err ErrForeignKey.

(** [INSERT ... ON CONFLICT DO UPDATE]: [conflict] tells the row that holds the
    key of the conflict target. *)
Definition upsert_stmt (t : table) (conflict : Row t → bool) (mk : Z → Row t)
    (f : Row t → Row t) (db : DB) : result (Z * DB) :=
  match matching t conflict db with
  | [] => insert_stmt t mk db
  | _ => update_stmt t conflict f db
  end.

(** The same where the conflict target is the row number [k]. *)
Definition upsert_at (t : table) (k : Z) (r : Row t) (f : Row t → Row t) (db : DB) :
    result (Z * DB) :=
  if present db t k then update_stmt t (λ r, rowid t r =? k) f db else insert_at t k r db.

Definition delete_rows (t : table) (cond : Row t → bool) (db : DB) : DB :=
  put t {| rows := delete_where (λ _, cond) (rows (db t)); last_id := last_id (db t) |} db.

Definition on_delete_fk {t} (db : DB) (fk : FK (Row t)) : DB :=
  let dangling r := negb (refers_ok db r fk) in
  match on_delete fk with
  | Restrict => db
  | Cascade => delete_rows t dangling db
  | SetNull f =>
      put t {| rows := update_where (λ _, dangling) f (rows (db t));
               last_id := last_id (db t) |} db
  end.

(** The actions on the rows of [t] that lost what they refer to. *)
Definition on_delete_table (db : DB) (t : table) : DB := fold_left on_delete_fk (fks t) db.

Definition table_fks_ok (db : DB) (t : table) : bool :=
  forallb (λ kr, fks_ok db kr.2) (map_to_list (rows (db t))).

(** [DELETE]: [tables] lists what a table refers to before the table. *)
Definition delete_stmt (t : table) (cond : Row t → bool) (db : DB) : result (Z * DB) :=
  let db' := fold_left on_delete_table tables (delete_rows t cond db) in
  if forallb (table_fks_ok db') tables
  then Ok (Z.of_nat (length (matching t cond db)), db')
  else Err ErrForeignKey.

Definition INSERT (t : table) (mk : Z → Row t) : prog DB Z := stmt (insert_stmt t mk).
Definition UPDATE (t : table) (cond : Row t → bool) (f : Row t → Row t) : prog DB Z :=
  stmt (update_stmt t cond f).
Definition UPSERT (t : table) (conflict : Row t → bool) (mk : Z → Row t)
    (f : Row t → Row t) : prog DB Z := stmt (upsert_stmt t conflict mk f).
Definition UPSERT_AT (t : table) (k : Z) (r : Row t) (f : Row t → Row t) : prog DB Z :=
  stmt (upsert_at t k r f).
Definition DELETE (t : table) (cond : Row t → bool) : prog DB Z := stmt (delete_stmt t cond).

(** A deletion whose condition reads the database, in a subquery. *)
Definition DELETE_IN (t : table) (cond : DB → Row t → bool) : prog DB Z :=
  stmt (λ db, delete_stmt t (cond db) db).

(** [SELECT ... WHERE ... ORDER BY]; without [ORDER BY] every order is possible. *)
Definition select_from `{!SqlOrder} (t : table) (cond : Row t → bool)
    (le : Row t → Row t → bool) (db : DB) : list (Row t) :=
  order_by le (matching t cond db).

(** [LIMIT n OFFSET m]; a negative limit is no limit. *)
Definition limit_offset {A} (limit offset : Z) (l : list A) : list A :=
  let l := drop (Z.to_nat offset) l in
  if limit <? 0 then l else take (Z.to_nat limit) l.

(** [result[k] = append(result[k], x)] over the rows of an answer. *)
Definition group_by {A} (key : A → Z) (l : list A) : gmap Z (list A) :=
  fold_left (λ m x, <[key x := default [] (m !! key x) ++ [x]]> m) l ∅.

(** [result[k] = x] over the rows of an answer. *)
Definition index_by {A} (key : A → Z) (l : list A) : gmap Z A :=
  fold_left (λ m x, <[key x := x]> m) l ∅.

Definition in_ids (ids : list Z) (i : Z) : bool := existsb (Z.eqb i) ids.

Definition any_order {A} (x y : A) : bool := true.

(** ** Well-formed databases *)

Record wf (db : DB) : Prop := {
  wf_ids : ∀ t k r, rows (db t) !! k = Some r → rowid t r = k ∧ k ≤ last_id (db t);
  wf_fks : ∀ t k r, rows (db t) !! k = Some r → fks_ok db r = true;
  wf_unique : ∀ t k1 k2 r1 r2, k1 ≠ k2 → rows (db t) !! k1 = Some r1 →
    rows (db t) !! k2 = Some r2 → clash t r1 r2 = false }.

(** ** Lemmas *)

Lemma put_eq t v db : put t v db t = v.
Proof.
  unfold put. destruct (decide (t = t)) as [e|]; [|done].
  by rewrite (Eqdep_dec.UIP_dec (λ x y, decide (x = y)) e eq_refl).
Qed.

Lemma put_ne t u v db : t ≠ u → put t v db u = db u.
Proof. intros Hne. unfold put. by destruct (decide (t = u)). Qed.

Lemma present_spec db t i : present db t i = true ↔ is_Some (rows (db t) !! i).
Proof. unfold present. destruct (rows (db t) !! i); naive_solver. Qed.

Lemma present_Some db t i r : rows (db t) !! i = Some r → present db t i = true.
Proof. intros Hr. apply present_spec. eauto. Qed.

Lemma fks_ok_spec {t} db (r : Row t) :
  fks_ok db r = true ↔
  ∀ fk i, fk ∈ fks t → column fk r = Some i → present db (parent fk) i = true.
Proof.
  unfold fks_ok. rewrite forallb_forall. split.
  - intros Hok fk i Hfk Hi. specialize (Hok fk). unfold refers_ok in Hok.
    rewrite Hi in Hok. apply Hok. by apply list_elem_of_In.
  - intros Hok fk Hfk. unfold refers_ok. destruct (column fk r) as [i|] eqn:Hi; [|done].
    apply (Hok fk i); [by apply list_elem_of_In|done].
Qed.

Lemma fks_ok_mono {t} db db' (r : Row t) :
  (∀ u i, present db u i = true → present db' u i = true) →
  fks_ok db r = true → fks_ok db' r = true.
Proof. rewrite !fks_ok_spec. eauto. Qed.

Lemma clashes_false t (m : gmap Z (Row t)) k r :
  clashes t m k r = false ↔ ∀ k' r', k' ≠ k → m !! k' = Some r' → clash t r r' = false.
Proof.
  unfold clashes. rewrite existsb_false_iff. split.
  - intros Hf k' r' Hne Hr'. specialize (Hf (k', r')). simpl in Hf.
    rewrite (proj2 (Z.eqb_neq _ _) Hne) in Hf. simpl in Hf. apply Hf.
    by apply elem_of_map_to_list.
  - intros Hf [k' r'] Hr'. simpl. destruct (k' =? k) eqn:Hk; [done|]. simpl.
    apply Hf with k'; [by apply Z.eqb_neq|by apply elem_of_map_to_list].
Qed.

Lemma elem_of_matching t cond db r :
  r ∈ matching t cond db ↔ cond r = true ∧ ∃ k, rows (db t) !! k = Some r.
Proof.
  unfold matching. rewrite elem_of_filter_bool, list_elem_of_fmap. split.
  - intros [([k r'] & -> & Hr) Hc]. apply elem_of_map_to_list in Hr. eauto.
  - intros [Hc [k Hr]]. split; [|done]. exists (k, r). split; [done|].
    by apply elem_of_map_to_list.
Qed.

Lemma elem_of_select `{!SqlOrder} t cond le db r :
  r ∈ select_from t cond le db ↔ cond r = true ∧ ∃ k, rows (db t) !! k = Some r.
Proof. unfold select_from. by rewrite order_by_perm, elem_of_matching. Qed.

Lemma select_in `{!SqlOrder} t cond le db k r :
  rows (db t) !! k = Some r → cond r = true → r ∈ select_from t cond le db.
Proof. intros Hr Hc. apply elem_of_select. eauto. Qed.

Lemma select_out `{!SqlOrder} t cond le db r :
  r ∈ select_from t cond le db → ∃ k, rows (db t) !! k = Some r ∧ cond r = true.
Proof. rewrite elem_of_select. naive_solver. Qed.

Lemma matching_nil t cond db :
  matching t cond db = [] ↔ ∀ k r, rows (db t) !! k = Some r → cond r = false.
Proof.
  split.
  - intros Hn k r Hr. apply not_true_iff_false. intros Hc.
    assert (r ∈ matching t cond db) as Hin by (apply elem_of_matching; eauto).
    rewrite Hn in Hin. by apply not_elem_of_nil in Hin.
  - intros Hn. destruct (matching t cond db) as [|r l] eqn:Hl; [done|].
    assert (r ∈ matching t cond db) as Hin by (rewrite Hl; left).
    apply elem_of_matching in Hin as [Hc [k Hr]]. by rewrite (Hn k r Hr) in Hc.
Qed.

(** *** Well-formedness *)

Lemma wf_empty_db : wf empty_db.
Proof. by split. Qed.

Lemma wf_row db t k r i :
  wf db → rows (db t) !! k = Some r → rowid t r = i → k = i.
Proof. intros Hwf Hr <-. by apply (wf_ids _ Hwf) in Hr as [-> _]. Qed.

Lemma head_select `{!SqlOrder} t cond le db k r :
  rows (db t) !! k = Some r → cond r = true →
  (∀ j r', rows (db t) !! j = Some r' → cond r' = true → r' = r) →
  head (select_from t cond le db) = Some r.
Proof.
  intros Hr Hc Hu. pose proof (select_in t cond le db k r Hr Hc) as Hin.
  pose proof (select_out t cond le db) as Hout.
  destruct (select_from t cond le db) as [|r' l]; [by apply not_elem_of_nil in Hin|].
  destruct (Hout r') as (j & Hr' & Hc'); [left|]. simpl. f_equal. eauto.
Qed.

Lemma select_nil `{!SqlOrder} t cond le db :
  (∀ j r, rows (db t) !! j = Some r → cond r = false) → select_from t cond le db = [].
Proof.
  intros Hn. destruct (select_from t cond le db) as [|r l] eqn:Hs; [done|].
  destruct (select_out t cond le db r) as (j & Hr & Hc); [rewrite Hs; left|].
  by rewrite (Hn j r Hr) in Hc.
Qed.

(** The only row with the number [k]. *)
Lemma head_select_id `{!SqlOrder} (t : table) (id : Row t → Z) k db :
  wf db → (∀ r, rowid t r = id r) →
  head (select_from t (λ r, id r =? k) any_order db) = rows (db t) !! k.
Proof.
  intros Hwf Hid. set (cond := λ r : Row t, id r =? k).
  assert (∀ j r, rows (db t) !! j = Some r → cond r = true → j = k) as Hk.
  { intros j r Hr Hc%Z.eqb_eq. apply (wf_ids _ Hwf) in Hr as [<- _]. by rewrite Hid. }
  destruct (rows (db t) !! k) as [r|] eqn:Hr.
  - apply (head_select t cond any_order db k); [done| |].
    + apply Z.eqb_eq. rewrite <-Hid. by apply (wf_ids _ Hwf) in Hr as [? _].
    + intros j r' Hr' Hc. rewrite (Hk j r' Hr' Hc) in Hr'. congruence.
  - rewrite select_nil; [done|]. intros j r Hr'. destruct (cond r) eqn:Hc; [|done].
    rewrite (Hk j r Hr' Hc) in Hr'. congruence.
Qed.

Lemma wf_fresh db t : wf db → rows (db t) !! next_id db t = None.
Proof.
  intros Hwf. destruct (rows (db t) !! next_id db t) eqn:Hr; [|done].
  apply (wf_ids _ Hwf) in Hr as [_ Hr]. unfold next_id in Hr. lia.
Qed.

Lemma insert_at_Ok t id r db n db' :
  insert_at t id r db = Ok (n, db') →
  n = id ∧ clashes t (rows (db t)) id r = false ∧ fks_ok db r = true ∧
  db' = put t {| rows := <[id := r]> (rows (db t)); last_id := Z.max id (last_id (db t)) |} db.
Proof.
  unfold insert_at. destruct (clashes _ _ _ _); [done|]. destruct (fks_ok db r); [|done].
  by intros [= <- <-].
Qed.

Lemma wf_insert_at t id r db n db' :
  rowid t r = id → wf db → insert_at t id r db = Ok (n, db') → wf db'.
Proof.
  intros Hid [Hids Hfks Huniq] (-> & Hcl & Hok & ->)%insert_at_Ok.
  rewrite clashes_false in Hcl.
  assert (∀ u i, present db u i = true →
    present (put t {| rows := <[id := r]> (rows (db t)); last_id := Z.max id (last_id (db t)) |} db)
      u i = true) as Hmono.
  { intros u i. rewrite !present_spec. destruct (decide (t = u)) as [<-|Hne].
    - rewrite put_eq. simpl. intros Hi. apply lookup_insert_is_Some. destruct (decide (id = i)); auto.
    - by rewrite put_ne. }
  split.
  - intros u k r'. destruct (decide (t = u)) as [<-|Hne]; [|rewrite put_ne by done; auto].
    rewrite put_eq. simpl. rewrite lookup_insert_Some. intros [[<- <-]|[_ Hr']]; [split; [done|lia]|].
    apply Hids in Hr' as [-> Hle]. split; [done|lia].
  - intros u k r' Hr'. apply (fks_ok_mono db _ _ Hmono). revert r' Hr'.
    destruct (decide (t = u)) as [<-|Hne]; intros r'; [|rewrite put_ne by done; eauto].
    rewrite put_eq. simpl. rewrite lookup_insert_Some. intros [[<- <-]|[_ Hr']]; eauto.
  - intros u k1 k2 r1 r2 Hk. destruct (decide (t = u)) as [<-|Hne]; [|rewrite put_ne by done; eauto].
    rewrite put_eq. simpl. rewrite !lookup_insert_Some.
    intros [[<- <-]|[_ H1]] [[<- <-]|[_ H2]]; [done|eauto|rewrite clash_sym; eauto|eauto].
Qed.

Lemma wf_insert_stmt t mk db n db' :
  (∀ id, rowid t (mk id) = id) → wf db → insert_stmt t mk db = Ok (n, db') → wf db'.
Proof. intros Hmk. apply wf_insert_at, Hmk. Qed.

Lemma touched_spec t (cond : Row t → bool) db k r :
  (k, r) ∈ List.filter (λ kr, cond kr.2) (map_to_list (rows (db t))) ↔
  rows (db t) !! k = Some r ∧ cond r = true.
Proof. by rewrite elem_of_filter_bool, elem_of_map_to_list. Qed.

Lemma lookup_updated t (cond : Row t → bool) f db k :
  updated t cond f db !! k = (λ r, if cond r then f r else r) <$> rows (db t) !! k.
Proof. apply lookup_update_where. Qed.

Lemma update_stmt_Ok t cond f db n db' :
  update_stmt t cond f db = Ok (n, db') →
  (∀ k r, rows (db t) !! k = Some r → cond r = true →
    clashes t (updated t cond f db) k (f r) = false ∧ fks_ok db (f r) = true) ∧
  db' = put t {| rows := updated t cond f db; last_id := last_id (db t) |} db ∧
  n = Z.of_nat (length (List.filter (λ kr, cond kr.2) (map_to_list (rows (db t))))).
Proof.
  unfold update_stmt. destruct (existsb _ _) eqn:Hcl; [done|].
  destruct (forallb _ _) eqn:Hok; [|done]. intros [= <- <-].
  rewrite existsb_false_iff in Hcl. rewrite forallb_forall in Hok. split_and!; [|done|done].
  intros k r Hr Hc. specialize (Hcl (k, r)). specialize (Hok (k, r)).
  rewrite touched_spec in Hcl. rewrite <-list_elem_of_In, touched_spec in Hok. auto.
Qed.

Lemma update_stmt_intro t cond f db :
  (∀ k r, rows (db t) !! k = Some r → cond r = true →
    clashes t (updated t cond f db) k (f r) = false ∧ fks_ok db (f r) = true) →
  update_stmt t cond f db =
  Ok (Z.of_nat (length (List.filter (λ kr, cond kr.2) (map_to_list (rows (db t))))),
      put t {| rows := updated t cond f db; last_id := last_id (db t) |} db).
Proof.
  intros Hok. unfold update_stmt.
  assert (existsb (λ kr, clashes t (updated t cond f db) kr.1 (f kr.2))
    (List.filter (λ kr, cond kr.2) (map_to_list (rows (db t)))) = false) as ->.
  { apply existsb_false_iff. intros [k r] [Hr Hc]%touched_spec. by apply Hok. }
  assert (forallb (λ kr, fks_ok db (f kr.2))
    (List.filter (λ kr, cond kr.2) (map_to_list (rows (db t)))) = true) as ->; [|done].
  apply forallb_forall. intros [k r] Hkr. apply list_elem_of_In, touched_spec in Hkr as [Hr Hc].
  by apply (Hok k).
Qed.

Lemma wf_update_stmt t cond f db n db' :
  (∀ r, rowid t (f r) = rowid t r) → wf db → update_stmt t cond f db = Ok (n, db') → wf db'.
Proof.
  intros Hf [Hids Hfks Huniq] (Hok & -> & ->)%update_stmt_Ok.
  assert (∀ u i, present db u i = true →
    present (put t {| rows := updated t cond f db; last_id := last_id (db t) |} db) u i = true)
    as Hmono.
  { intros u i. rewrite !present_spec. destruct (decide (t = u)) as [<-|Hne]; [|by rewrite put_ne].
    rewrite put_eq. simpl. rewrite lookup_updated. by intros [r ->]. }
  split.
  - intros u k r'. destruct (decide (t = u)) as [<-|Hne]; [|rewrite put_ne by done; auto].
    rewrite put_eq. simpl. rewrite lookup_updated, fmap_Some. intros (r & Hr & ->).
    apply Hids in Hr as [<- Hle]. destruct (cond r); by rewrite ?Hf.
  - intros u k r' Hr'. apply (fks_ok_mono db _ _ Hmono). revert r' Hr'.
    destruct (decide (t = u)) as [<-|Hne]; intros r'; [|rewrite put_ne by done; eauto].
    rewrite put_eq. simpl. rewrite lookup_updated, fmap_Some. intros (r & Hr & ->).
    destruct (cond r) eqn:Hc; [by apply (Hok k)|eauto].
  - intros u k1 k2 r1 r2 Hk. destruct (decide (t = u)) as [<-|Hne]; [|rewrite put_ne by done; eauto].
    rewrite put_eq. simpl. rewrite !lookup_updated, !fmap_Some.
    assert (∀ k r k' r', k ≠ k' → rows (db t) !! k = Some r → cond r = true →
      rows (db t) !! k' = Some r' → clash t (f r) (if cond r' then f r' else r') = false) as Hc1.
    { intros k r k' r' Hne Hr Hc Hr'. destruct (Hok k r Hr Hc) as [Hcl _].
      rewrite clashes_false in Hcl. apply (Hcl k'); [done|]. by rewrite lookup_updated, Hr'. }
    intros (s1 & H1 & ->) (s2 & H2 & ->). destruct (cond s1) eqn:Hc; [by eapply (Hc1 k1)|].
    destruct (cond s2) eqn:Hc2; [|eauto]. rewrite clash_sym.
    specialize (Hc1 k2 s2 k1 s1). rewrite Hc in Hc1. auto.
Qed.

Lemma wf_upsert_stmt t conflict mk f db n db' :
  (∀ id, rowid t (mk id) = id) → (∀ r, rowid t (f r) = rowid t r) →
  wf db → upsert_stmt t conflict mk f db = Ok (n, db') → wf db'.
Proof.
  intros Hmk Hf Hwf. unfold upsert_stmt. destruct (matching t conflict db).
  - by apply wf_insert_stmt.
  - by apply wf_update_stmt.
Qed.

Lemma wf_upsert_at t k r f db n db' :
  rowid t r = k → (∀ r, rowid t (f r) = rowid t r) →
  wf db → upsert_at t k r f db = Ok (n, db') → wf db'.
Proof.
  intros Hk Hf Hwf. unfold upsert_at. destruct (present db t k).
  - by apply wf_update_stmt.
  - by apply wf_insert_at.
Qed.

(** What a deletion and its actions can do to the rows. *)
Definition shrinks (db db' : DB) : Prop := ∀ t,
  last_id (db' t) = last_id (db t) ∧
  ∀ k r', rows (db' t) !! k = Some r' → ∃ r, rows (db t) !! k = Some r ∧
    rowid t r' = rowid t r ∧ ∀ r2, clash t r' r2 = true → clash t r r2 = true.

Lemma shrinks_refl db : shrinks db db.
Proof. intros t. split; [done|]. intros k r ?. exists r. auto. Qed.

Lemma shrinks_trans db1 db2 db3 : shrinks db1 db2 → shrinks db2 db3 → shrinks db1 db3.
Proof.
  intros H12 H23 t. destruct (H12 t) as [L1 R1], (H23 t) as [L2 R2]. split; [congruence|].
  intros k r3 Hr3. destruct (R2 k r3 Hr3) as (r2 & Hr2 & E2 & C2).
  destruct (R1 k r2 Hr2) as (r1 & Hr1 & E1 & C1). exists r1. split_and!; [done|congruence|auto].
Qed.

Lemma shrinks_delete_rows t cond db : shrinks db (delete_rows t cond db).
Proof.
  intros u. unfold delete_rows. destruct (decide (t = u)) as [<-|Hne].
  - rewrite put_eq. split; [done|]. simpl. intros k r'.
    rewrite lookup_delete_where, bind_Some. intros (r & Hr & Hc).
    destruct (cond r); [done|]. injection Hc as [= <-]. eauto.
  - rewrite put_ne by done. apply shrinks_refl.
Qed.

Lemma shrinks_on_delete_fk t (fk : FK (Row t)) db :
  fk ∈ fks t → shrinks db (on_delete_fk db fk).
Proof.
  intros Hfk. unfold on_delete_fk. destruct (on_delete fk) as [| |f] eqn:Hf.
  - apply shrinks_refl.
  - apply shrinks_delete_rows.
  - intros u. destruct (decide (t = u)) as [<-|Hne]; [|rewrite put_ne by done; apply shrinks_refl].
    rewrite put_eq. split; [done|]. simpl. intros k r'.
    rewrite lookup_update_where, fmap_Some. intros (r & Hr & ->). exists r.
    split; [done|]. destruct (negb _); [|done]. split; [by eapply clear_rowid|].
    intros r2. by eapply clear_clash.
Qed.

Lemma shrinks_fold {A} (f : DB → A → DB) (l : list A) db :
  (∀ a db, a ∈ l → shrinks db (f db a)) → shrinks db (fold_left f l db).
Proof.
  revert db. induction l as [|a l IH]; intros db Hf; simpl; [apply shrinks_refl|].
  eapply shrinks_trans; [apply Hf; left|]. apply IH. intros b db' Hb. apply Hf. by right.
Qed.

Lemma shrinks_on_delete_table db t : shrinks db (on_delete_table db t).
Proof. apply shrinks_fold. intros fk db' Hfk. by apply shrinks_on_delete_fk. Qed.

Lemma table_fks_ok_spec db t :
  table_fks_ok db t = true ↔ ∀ k r, rows (db t) !! k = Some r → fks_ok db r = true.
Proof.
  unfold table_fks_ok. rewrite forallb_forall. split.
  - intros Hok k r Hr. apply (Hok (k, r)). apply list_elem_of_In. by apply elem_of_map_to_list.
  - intros Hok [k r] Hkr. apply list_elem_of_In, elem_of_map_to_list in Hkr. by apply (Hok k).
Qed.

Lemma wf_delete_stmt t cond db n db' : wf db → delete_stmt t cond db = Ok (n, db') → wf db'.
Proof.
  intros [Hids Hfks Huniq]. unfold delete_stmt. destruct (forallb _ _) eqn:Hok; [|done].
  intros [= _ <-]. rewrite forallb_forall in Hok.
  assert (shrinks db (fold_left on_delete_table tables (delete_rows t cond db))) as Hs.
  { eapply shrinks_trans; [apply shrinks_delete_rows|]. apply shrinks_fold.
    intros u db' _. apply shrinks_on_delete_table. }
  split.
  - intros u k r' Hr'. destruct (Hs u) as [Hl HR]. apply HR in Hr' as (r & Hr & -> & _).
    rewrite Hl. eauto.
  - intros u. apply table_fks_ok_spec, Hok, list_elem_of_In, elem_of_tables.
  - intros u k1 k2 r1 r2 Hk H1 H2. destruct (Hs u) as [_ HR].
    apply HR in H1 as (s1 & H1 & _ & C1). apply HR in H2 as (s2 & H2 & _ & C2).
    destruct (clash u r1 r2) eqn:Hc; [|done]. apply C1 in Hc.
    rewrite clash_sym in Hc. apply C2 in Hc. rewrite clash_sym in Hc.
    by rewrite (Huniq u k1 k2 s1 s2) in Hc.
Qed.

(** *** A deletion that leaves nothing dangling triggers no action *)

Definition no_dangling (db : DB) : Prop :=
  ∀ t k r, rows (db t) !! k = Some r → fks_ok db r = true.

Definition same_db (db1 db2 : DB) : Prop := ∀ t, db1 t = db2 t.

Lemma fks_ok_same {t} db1 db2 (r : Row t) : same_db db1 db2 → fks_ok db1 r = fks_ok db2 r.
Proof.
  intros Hs. unfold fks_ok. induction (fks t) as [|fk l IH]; simpl; [done|]. rewrite IH.
  f_equal. unfold refers_ok, present. destruct (column fk r); [|done]. by rewrite Hs.
Qed.

Lemma no_dangling_same db1 db2 : same_db db1 db2 → no_dangling db1 → no_dangling db2.
Proof. intros Hs Hn t k r Hr. rewrite <-(fks_ok_same db1 db2 r Hs), (Hn t k); [done|]. by rewrite Hs. Qed.

Lemma table_eta {R} (v : Table R) : {| rows := rows v; last_id := last_id v |} = v.
Proof. by destruct v. Qed.

Lemma put_same t v db : v = db t → same_db (put t v db) db.
Proof. intros -> u. destruct (decide (t = u)) as [<-|]; [by rewrite put_eq|by rewrite put_ne]. Qed.

Lemma on_delete_fk_same t (fk : FK (Row t)) db :
  fk ∈ fks t → no_dangling db → same_db (on_delete_fk db fk) db.
Proof.
  intros Hfk Hn. assert (∀ k r, rows (db t) !! k = Some r → refers_ok db r fk = true) as Hr.
  { intros k r Hr. specialize (Hn t k r Hr). unfold fks_ok in Hn. rewrite forallb_forall in Hn.
    by apply Hn, list_elem_of_In. }
  unfold on_delete_fk. destruct (on_delete fk) as [| |f]; [done|..];
    apply put_same; rewrite <-(table_eta (db t)) at 3; f_equal; apply map_eq; intros k.
  - rewrite lookup_delete_where. destruct (rows (db t) !! k) eqn:Hk; [|done].
    simpl. by rewrite (Hr k) by done.
  - rewrite lookup_update_where. destruct (rows (db t) !! k) eqn:Hk; [|done].
    simpl. by rewrite (Hr k) by done.
Qed.

Lemma fold_same {A} (f : DB → A → DB) (l : list A) db :
  (∀ a db, a ∈ l → no_dangling db → same_db (f db a) db) → no_dangling db →
  same_db (fold_left f l db) db.
Proof.
  revert db. induction l as [|a l IH]; intros db Hf Hn; simpl; [done|].
  pose proof (Hf a db ltac:(left) Hn) as Ha. intros t. rewrite IH; [apply Ha| |].
  - intros b db' Hb. apply Hf. by right.
  - eapply no_dangling_same; [|exact Hn]. intros u. by rewrite Ha.
Qed.

Lemma delete_stmt_plain t cond db :
  no_dangling (delete_rows t cond db) →
  ∃ db', delete_stmt t cond db = Ok (Z.of_nat (length (matching t cond db)), db') ∧
    same_db db' (delete_rows t cond db).
Proof.
  intros Hn. unfold delete_stmt.
  assert (same_db (fold_left on_delete_table tables (delete_rows t cond db))
            (delete_rows t cond db)) as Hs.
  { apply fold_same; [|done]. intros u db' _ Hn'. apply fold_same; [|done].
    intros fk db'' Hfk. by apply on_delete_fk_same. }
  set (db' := fold_left _ _ _) in *. exists db'. split; [|done].
  assert (forallb (table_fks_ok db') tables = true) as ->; [|done].
  apply forallb_forall. intros u _. apply table_fks_ok_spec. intros k r Hr.
  rewrite (fks_ok_same _ _ _ Hs). apply (Hn u k). by rewrite <-Hs.
Qed.

(** *** One row *)

Lemma rows_put_eq t m n db : rows (put t {| rows := m; last_id := n |} db t) = m.
Proof. by rewrite put_eq. Qed.

Lemma lookup_put_insert t id r n db u j (r' : Row u) :
  rows (put t {| rows := <[id := r]> (rows (db t)); last_id := n |} db u) !! j = Some r' →
  (∃ e : t = u, j = id ∧ r' = eq_rect t Row r u e) ∨ rows (db u) !! j = Some r'.
Proof.
  destruct (decide (t = u)) as [<-|Hne]; [|rewrite put_ne by done; by right].
  rewrite rows_put_eq, lookup_insert_Some. intros [[<- <-]|[_ ?]]; [left; by exists eq_refl|by right].
Qed.

Definition is_row (t : table) (id : Z) (r : Row t) : bool := rowid t r =? id.

Lemma is_row_lookup t id db k r :
  wf db → rows (db t) !! k = Some r → is_row t id r = true ↔ k = id.
Proof.
  intros Hwf Hr. apply (wf_ids _ Hwf) in Hr as [<- _]. unfold is_row. apply Z.eqb_eq.
Qed.

Lemma updated_row t id f db k :
  wf db →
  updated t (is_row t id) f db !! k =
  if decide (k = id) then f <$> rows (db t) !! k else rows (db t) !! k.
Proof.
  intros Hwf. rewrite lookup_updated. destruct (rows (db t) !! k) as [r|] eqn:Hr; simpl.
  - pose proof (is_row_lookup t id db k r Hwf Hr) as Hi. case_decide as Hk.
    + by rewrite (proj2 Hi Hk).
    + rewrite <-Hi in Hk. by apply not_true_is_false in Hk as ->.
  - by case_decide.
Qed.

Lemma update_row_intro t id f db r :
  wf db → rows (db t) !! id = Some r → fks_ok db (f r) = true →
  (∀ k r', k ≠ id → rows (db t) !! k = Some r' → clash t (f r) r' = false) →
  ∃ n, update_stmt t (is_row t id) f db =
    Ok (n, put t {| rows := <[id := f r]> (rows (db t)); last_id := last_id (db t) |} db).
Proof.
  intros Hwf Hr Hok Hcl.
  assert (updated t (is_row t id) f db = <[id := f r]> (rows (db t))) as Hu.
  { apply map_eq. intros k. rewrite updated_row by done. case_decide as Hk.
    - subst. by rewrite Hr, lookup_insert_eq.
    - by rewrite lookup_insert_ne. }
  eexists. rewrite <-Hu. apply update_stmt_intro. intros k r' Hr' Hi.
  apply (is_row_lookup t id db k r' Hwf Hr') in Hi as ->. simplify_eq. split; [|done].
  apply clashes_false. intros k' r'' Hne. rewrite Hu, lookup_insert_ne by done. eauto.
Qed.

(** *** Programs *)

Lemma preserves_INSERT t mk : (∀ id, rowid t (mk id) = id) → preserves wf (INSERT t mk).
Proof. intros Hmk. apply preserves_stmt. intros db n db' Hwf. by apply wf_insert_stmt. Qed.

Lemma preserves_UPDATE t cond f :
  (∀ r, rowid t (f r) = rowid t r) → preserves wf (UPDATE t cond f).
Proof. intros Hf. apply preserves_stmt. intros db n db' Hwf. by apply wf_update_stmt. Qed.

Lemma preserves_UPSERT t conflict mk f :
  (∀ id, rowid t (mk id) = id) → (∀ r, rowid t (f r) = rowid t r) →
  preserves wf (UPSERT t conflict mk f).
Proof. intros Hmk Hf. apply preserves_stmt. intros db n db' Hwf. by apply wf_upsert_stmt. Qed.

Lemma preserves_UPSERT_AT t k r f :
  rowid t r = k → (∀ r, rowid t (f r) = rowid t r) → preserves wf (UPSERT_AT t k r f).
Proof. intros Hk Hf. apply preserves_stmt. intros db n db' Hwf. by apply wf_upsert_at. Qed.

Lemma preserves_DELETE t cond : preserves wf (DELETE t cond).
Proof. apply preserves_stmt. intros db n db' Hwf. by apply wf_delete_stmt. Qed.

Lemma preserves_DELETE_IN t cond : preserves wf (DELETE_IN t cond).
Proof. apply preserves_stmt. intros db n db' Hwf. by apply wf_delete_stmt. Qed.

Lemma wf_run {A} (p : prog DB A) db : preserves wf p → wf db → wf (run p db).2.
Proof.
  intros Hp Hwf. pose proof (exec_preserves wf p [] db Hp Hwf) as Hx. unfold run.
  by destruct (exec p [] db) as [[r db'] io].
Qed.

Lemma run_INSERT t mk db :
  clashes t (rows (db t)) (next_id db t) (mk (next_id db t)) = false →
  fks_ok db (mk (next_id db t)) = true →
  run (INSERT t mk) db = (Ok (next_id db t),
    put t {| rows := <[next_id db t := mk (next_id db t)]> (rows (db t));
             last_id := next_id db t |} db).
Proof.
  intros Hcl Hok. unfold INSERT. rewrite run_stmt. unfold insert_stmt, insert_at.
  rewrite Hcl, Hok. do 3 f_equal. unfold next_id. lia.
Qed.

(** ** The rows of a table in the order of their numbers

    The abstract value of a table is the list of its rows, oldest first: an
    insertion appends to it and a deletion filters it.  [view] reads the rows that
    belong to a parent, without their numbers. *)

Definition id_le (t : table) (r1 r2 : Row t) : Prop := rowid t r1 ≤ rowid t r2.

#[local] Instance id_le_dec t : RelDecision (id_le t).
Proof. intros r1 r2. apply Z.le_dec. Defined.

Definition in_order (t : table) (db : DB) : list (Row t) :=
  merge_sort (id_le t) (map_to_list (rows (db t))).*2.

Definition view {B} (t : table) (f : Row t → Z) (val : Row t → B) (p : Z) (db : DB) : list B :=
  val <$> List.filter (λ r, f r =? p) (in_order t db).

Lemma elem_of_in_order t db r : r ∈ in_order t db ↔ ∃ k, rows (db t) !! k = Some r.
Proof.
  unfold in_order. rewrite merge_sort_Permutation, list_elem_of_fmap. split.
  - intros ([k r'] & -> & Hr). apply elem_of_map_to_list in Hr. eauto.
  - intros [k Hr]. exists (k, r). split; [done|]. by apply elem_of_map_to_list.
Qed.

Lemma in_order_sorted t db : StronglySorted (id_le t) (in_order t db).
Proof.
  apply StronglySorted_merge_sort; [intros ???; unfold id_le; lia|].
  intros r1 r2. unfold id_le. lia.
Qed.

(** A list with the rows of a well-formed table, in the order of their numbers. *)
Lemma in_order_unique t db l :
  wf db → l ≡ₚ (map_to_list (rows (db t))).*2 → StronglySorted (id_le t) l → l = in_order t db.
Proof.
  intros Hwf Hl Hs. eapply StronglySorted_unique_strong; [|exact Hs|apply in_order_sorted|].
  - intros r1 r2 H1 H2 H12 H21. rewrite Hl in H1. unfold in_order in H2.
    rewrite merge_sort_Permutation in H2.
    apply list_elem_of_fmap in H1 as ([k1 s1] & -> & H1), H2 as ([k2 s2] & -> & H2).
    apply elem_of_map_to_list in H1, H2. unfold id_le in *. simpl in *.
    pose proof (proj1 (wf_ids _ Hwf _ _ _ H1)). pose proof (proj1 (wf_ids _ Hwf _ _ _ H2)).
    assert (k1 = k2) as <- by lia. congruence.
  - unfold in_order. by rewrite merge_sort_Permutation.
Qed.

Lemma rows_delete t cond db k :
  rows (delete_rows t cond db t) !! k = (r ← rows (db t) !! k; if cond r then None else Some r).
Proof. unfold delete_rows. rewrite rows_put_eq. apply lookup_delete_where. Qed.

Lemma delete_rows_ne t u cond db : t ≠ u → delete_rows t cond db u = db u.
Proof. intros Hne. unfold delete_rows. by apply put_ne. Qed.

Lemma StronglySorted_filter_bool {A} (R : A → A → Prop) (f : A → bool) l :
  StronglySorted R l → StronglySorted R (List.filter f l).
Proof.
  induction 1 as [|x l Hl IH Hx]; simpl; [constructor|]. destruct (f x); [|done].
  constructor; [done|]. rewrite Forall_forall in *. intros y [Hy _]%elem_of_filter_bool. auto.
Qed.

Lemma filter_bool_perm {A} (f : A → bool) (l k : list A) :
  l ≡ₚ k → List.filter f l ≡ₚ List.filter f k.
Proof.
  induction 1 as [|x l k _ IH|x y l|l1 l2 l3 _ IH1 _ IH2]; simpl; [done|..].
  - destruct (f x); [by constructor|done].
  - destruct (f x), (f y); [apply perm_swap|done..].
  - by transitivity (List.filter f l2).
Qed.

Lemma map_to_list_delete_where {R} (cond : R → bool) (m : gmap Z R) :
  (map_to_list (delete_where (λ _, cond) m)).*2 ≡ₚ
  List.filter (λ r, negb (cond r)) (map_to_list m).*2.
Proof.
  assert (map_to_list (delete_where (λ _, cond) m) ≡ₚ
    List.filter (λ kr, negb (cond kr.2)) (map_to_list m)) as ->.
  { apply NoDup_Permutation.
    - apply NoDup_map_to_list.
    - apply NoDup_filter_bool, NoDup_map_to_list.
    - intros [k r]. rewrite elem_of_filter_bool, !elem_of_map_to_list, lookup_delete_where.
      simpl. destruct (m !! k) as [r'|]; simpl; [|naive_solver].
      destruct (cond r') eqn:Hc; split; intros Hx; destruct_and?; simplify_eq;
        rewrite ?Hc in *; try done; by rewrite Hc. }
  induction (map_to_list m) as [|[k r] l IH]; simpl; [done|].
  destruct (cond r); simpl; by rewrite IH.
Qed.

Lemma in_order_delete t cond db :
  wf db → in_order t (delete_rows t cond db) = List.filter (λ r, negb (cond r)) (in_order t db).
Proof.
  intros Hwf. symmetry.
  eapply StronglySorted_unique_strong with (R := id_le t);
    [|apply StronglySorted_filter_bool, in_order_sorted|apply in_order_sorted|].
  - intros r1 r2 [[k1 H1]%elem_of_in_order _]%elem_of_filter_bool [k2 H2]%elem_of_in_order H12 H21.
    rewrite rows_delete, bind_Some in H2. destruct H2 as (s & H2 & Hs).
    destruct (cond s); [done|]. injection Hs as ->. unfold id_le in *.
    pose proof (proj1 (wf_ids _ Hwf _ _ _ H1)). pose proof (proj1 (wf_ids _ Hwf _ _ _ H2)).
    assert (k1 = k2) as <- by lia. congruence.
  - unfold in_order. etrans; [apply filter_bool_perm, merge_sort_Permutation|].
    symmetry. etrans; [apply merge_sort_Permutation|]. unfold delete_rows.
    rewrite rows_put_eq. apply map_to_list_delete_where.
Qed.

(** What a successful insertion does. *)
Record inserted (t : table) (r : Row t) (db db' : DB) : Prop := {
  ins_wf : wf db';
  ins_order : in_order t db' = in_order t db ++ [r];
  ins_row : rows (db' t) !! rowid t r = Some r;
  ins_other : ∀ u, u ≠ t → db' u = db u;
  ins_present : ∀ u i, present db u i = true → present db' u i = true }.

Lemma INSERT_ok t mk db :
  wf db → (∀ id, rowid t (mk id) = id) →
  clashes t (rows (db t)) (next_id db t) (mk (next_id db t)) = false →
  fks_ok db (mk (next_id db t)) = true →
  ∃ db', run (INSERT t mk) db = (Ok (next_id db t), db') ∧
    inserted t (mk (next_id db t)) db db'.
Proof.
  intros Hwf Hmk Hcl Hok. set (id := next_id db t) in *.
  pose proof (run_INSERT t mk db Hcl Hok) as Hrun. fold id in Hrun.
  assert (wf (run (INSERT t mk) db).2) as Hwf' by (by apply wf_run; [apply preserves_INSERT|]).
  rewrite Hrun in Hwf'. simpl in Hwf'. eexists. split; [exact Hrun|].
  pose proof (wf_fresh db t Hwf) as Hnew. fold id in Hnew. split; [done| | | |].
  - symmetry. apply in_order_unique; [done|..].
    + rewrite rows_put_eq, map_to_list_insert by done. simpl.
      unfold in_order. rewrite merge_sort_Permutation. apply Permutation_app_comm.
    + apply StronglySorted_app. split_and!; [|apply in_order_sorted|repeat constructor].
      intros r1 r2 [k H1]%elem_of_in_order ->%list_elem_of_singleton. unfold id_le.
      apply (wf_ids _ Hwf) in H1 as [-> Hle]. rewrite Hmk. unfold id, next_id. lia.
  - rewrite rows_put_eq, Hmk. apply lookup_insert_eq.
  - intros u Hu. by apply put_ne.
  - intros u i. rewrite !present_spec. destruct (decide (t = u)) as [<-|]; [|by rewrite put_ne].
    rewrite rows_put_eq. intros Hi. apply lookup_insert_is_Some. destruct (decide (id = i)); auto.
Qed.

Lemma view_insert {B} t f (val : Row t → B) p r db db' :
  inserted t r db db' →
  view t f val p db' = view t f val p db ++ (if f r =? p then [val r] else []).
Proof.
  intros Hi. unfold view. rewrite (ins_order _ _ _ _ Hi), filter_bool_app, fmap_app. simpl.
  by destruct (f r =? p).
Qed.

Lemma in_order_frame t db db' : db' t = db t → in_order t db' = in_order t db.
Proof. unfold in_order. by intros ->. Qed.

Lemma view_frame {B} t f (val : Row t → B) p db db' :
  db' t = db t → view t f val p db' = view t f val p db.
Proof. intros Ht. unfold view. by rewrite (in_order_frame t db db'). Qed.

(** What a successful series of insertions under the parent [p] does. *)
Record appended {B} (t : table) (f : Row t → Z) (val : Row t → B) (p : Z) (l : list B)
    (db db' : DB) : Prop := {
  app_wf : wf db';
  app_view : ∀ p', view t f val p' db' = view t f val p' db ++ (if p' =? p then l else []);
  app_other : ∀ u, u ≠ t → db' u = db u;
  app_present : ∀ u i, present db u i = true → present db' u i = true }.

Lemma appended_nil {B} t f (val : Row t → B) p db : wf db → appended t f val p [] db db.
Proof. intros Hwf. split; [done| |done|done]. intros p'. destruct (p' =? p); by rewrite app_nil_r. Qed.

Lemma inserted_appended {B} t f (val : Row t → B) p r db db' l db'' :
  inserted t r db db' → f r = p → appended t f val p l db' db'' →
  appended t f val p (val r :: l) db db''.
Proof.
  intros Hi Hf Ha. split.
  - apply Ha.
  - intros p'. rewrite (app_view _ _ _ _ _ _ _ Ha), (view_insert t f val p' r db db' Hi), Hf.
    rewrite <-app_assoc, (Z.eqb_sym p p'). f_equal. by destruct (p' =? p).
  - intros u Hu. by rewrite (app_other _ _ _ _ _ _ _ Ha), (ins_other _ _ _ _ Hi).
  - intros u i Hu. by apply (app_present _ _ _ _ _ _ _ Ha), (ins_present _ _ _ _ Hi).
Qed.

(** A loop of insertions into a table without unique index, under a parent [p] that
    is there, succeeds and appends one row for each element. *)
Lemma run_insert_each {A B} t (f : Row t → Z) (val : Row t → B) (q : table) (p : Z)
    (mk : A → Z → Row t) (v : A → B) (g : A → prog DB ()) (l : list A) db :
  (∀ x db db' n, run (INSERT t (mk x)) db = (Ok n, db') → run (g x) db = (Ok (), db')) →
  (∀ x id, rowid t (mk x id) = id ∧ f (mk x id) = p ∧ val (mk x id) = v x) →
  (∀ r r', clash t r r' = false) →
  (∀ db x id, present db q p = true → fks_ok db (mk x id) = true) →
  wf db → present db q p = true →
  ∃ db', run (for_each l g) db = (Ok (), db') ∧ appended t f val p (v <$> l) db db'.
Proof.
  intros Hg Hmk Hcl Hfk. revert db. induction l as [|x l IH]; intros db Hwf Hp.
  { exists db. split; [done|]. by apply appended_nil. }
  destruct (INSERT_ok t (mk x) db Hwf) as (db1 & Hrun & Hi);
    [apply Hmk|by apply clashes_false|by apply Hfk|].
  destruct (IH db1) as (db2 & Hrun2 & Ha); [apply Hi|by apply (ins_present _ _ _ _ Hi)|].
  exists db2. split.
  - simpl. rewrite run_bind, (Hg _ _ _ _ Hrun). done.
  - simpl. destruct (Hmk x (next_id db t)) as (_ & Hf & Hv). rewrite <-Hv.
    by eapply inserted_appended.
Qed.

(** Nothing belongs to a row that does not exist. *)
Lemma view_absent {B} t f (val : Row t → B) p db fk :
  wf db → fk ∈ fks t → (∀ r, column fk r = Some (f r)) → present db (parent fk) p = false →
  view t f val p db = [].
Proof.
  intros Hwf Hfk Hcol Hp. unfold view. rewrite filter_bool_empty; [done|].
  intros r [k Hr]%elem_of_in_order. apply (wf_fks _ Hwf) in Hr.
  rewrite fks_ok_spec in Hr. specialize (Hr fk (f r) Hfk (Hcol r)).
  apply Z.eqb_neq. intros Heq. rewrite Heq, Hp in Hr. done.
Qed.

(** What a successful deletion of the rows that satisfy [c] does. *)
Record deleted (t : table) (c : Row t → bool) (db db' : DB) : Prop := {
  del_wf : wf db';
  del_order : in_order t db' = List.filter (λ r, negb (c r)) (in_order t db);
  del_rows : ∀ k, rows (db' t) !! k = (r ← rows (db t) !! k; if c r then None else Some r);
  del_other : ∀ u, u ≠ t → db' u = db u }.

Lemma in_order_same t db db' : rows (db' t) = rows (db t) → in_order t db' = in_order t db.
Proof. unfold in_order. by intros ->. Qed.

(** A deletion succeeds when no row that is left refers to one that goes. *)
Lemma DELETE_IN_ok t (cond : DB → Row t → bool) db :
  wf db →
  (∀ u fk, fk ∈ fks u → parent fk = t → ∀ k r i r0, rows (db u) !! k = Some r →
     column fk r = Some i → rows (db t) !! i = Some r0 → cond db r0 = false) →
  ∃ db', run (DELETE_IN t cond) db =
    (Ok (Z.of_nat (length (matching t (cond db) db))), db') ∧ deleted t (cond db) db db'.
Proof.
  intros Hwf Href. destruct (delete_stmt_plain t (cond db) db) as (db' & Hdel & Hsame).
  { intros u k r Hr. assert (rows (db u) !! k = Some r) as Hr0.
    { revert r Hr. destruct (decide (t = u)) as [<-|Hne]; intros r Hr.
      - rewrite rows_delete, bind_Some in Hr. destruct Hr as (r' & Hr' & Hc).
        by destruct (cond db r'); simplify_eq.
      - by rewrite delete_rows_ne in Hr. }
    rewrite fks_ok_spec. intros fk i Hfk Hi.
    pose proof (wf_fks _ Hwf u k r Hr0) as Hok. rewrite fks_ok_spec in Hok.
    specialize (Hok fk i Hfk Hi). rewrite present_spec in *. destruct Hok as [r0 Hok].
    destruct (decide (t = parent fk)) as [->|Hne]; [|by rewrite delete_rows_ne; eauto].
    exists r0. rewrite rows_delete, Hok. simpl. by rewrite (Href u fk Hfk eq_refl k r i r0). }
  exists db'. unfold DELETE_IN. rewrite run_stmt, Hdel. split; [done|]. split.
  - by eapply wf_delete_stmt.
  - rewrite <-in_order_delete by done. apply in_order_same. by rewrite Hsame.
  - intros k. rewrite Hsame. apply rows_delete.
  - intros u Hu. rewrite Hsame. by apply delete_rows_ne.
Qed.

Lemma filter_filter_bool {A} (f g : A → bool) (l : list A) :
  (∀ x, x ∈ l → f x = true → g x = true) → List.filter f (List.filter g l) = List.filter f l.
Proof.
  induction l as [|x l IH]; intros Hfg; simpl; [done|].
  assert (List.filter f (List.filter g l) = List.filter f l) as Hl
    by (apply IH; intros y Hy; apply Hfg; by right).
  specialize (Hfg x ltac:(left)). destruct (f x) eqn:Hf.
  - rewrite Hfg by done. simpl. by rewrite Hf, Hl.
  - destruct (g x); simpl; [by rewrite Hf|done].
Qed.

Lemma view_filtered {B} t f (val : Row t → B) p c db db' :
  in_order t db' = List.filter (λ r, negb (c r)) (in_order t db) →
  (∀ r, r ∈ in_order t db → f r = p → c r = false) →
  view t f val p db' = view t f val p db.
Proof.
  intros Hord Hc. unfold view. rewrite Hord, filter_filter_bool; [done|].
  intros r Hr Hp%Z.eqb_eq. by rewrite (Hc r Hr Hp).
Qed.

Lemma matching_same t c db db' : db' t = db t → matching t c db' = matching t c db.
Proof. unfold matching. by intros ->. Qed.

Lemma in_ids_spec ids i : in_ids ids i = true ↔ i ∈ ids.
Proof.
  unfold in_ids. rewrite existsb_exists. setoid_rewrite <-list_elem_of_In. split.
  - by intros (x & Hx & ->%Z.eqb_eq).
  - intros Hi. exists i. by rewrite Z.eqb_refl.
Qed.

(** The numbers of the rows a subquery selects. *)
Lemma in_matching_ids t (c : Row t → bool) db i r :
  wf db → rows (db t) !! i = Some r →
  in_ids (rowid t <$> matching t c db) i = c r.
Proof.
  intros Hwf Hr. apply eq_bool_prop_intro. rewrite !Is_true_true, in_ids_spec, list_elem_of_fmap.
  split.
  - intros (r' & Hi & Hr'). apply elem_of_matching in Hr' as [Hc [k Hk]].
    rewrite (wf_row db t k r' i Hwf Hk (eq_sym Hi)) in Hk. by rewrite (row_det _ _ _ _ Hr Hk).
  - intros Hc. exists r. split; [by apply (wf_ids _ Hwf) in Hr as [-> _]|].
    apply elem_of_matching. eauto.
Qed.

Lemma not_in_matching_ids t (c : Row t → bool) db i :
  wf db → rows (db t) !! i = None → in_ids (rowid t <$> matching t c db) i = false.
Proof.
  intros Hwf Hr. apply not_true_is_false. rewrite in_ids_spec, list_elem_of_fmap.
  intros (r' & Hi & Hr'). apply elem_of_matching in Hr' as [Hc [k Hk]].
  rewrite (wf_row db t k r' i Hwf Hk (eq_sym Hi)) in Hk. by rewrite Hr in Hk.
Qed.
End relational.

#[export] Hint Resolve preserves_INSERT preserves_UPDATE preserves_UPSERT preserves_UPSERT_AT
  preserves_DELETE : probak.
#[export] Hint Resolve wf_empty_db : probak.

(** Keeps [wf] through a program made of the statements above. *)
Ltac keeps_wf :=
  repeat first
    [ progress intros
    | lazymatch goal with
      | |- preserves _ (Ret _) => apply preserves_Ret
      | |- preserves _ (mret _) => apply preserves_Ret
      | |- preserves _ (fail _) => apply preserves_Ret
      | |- preserves _ (query _) => apply preserves_query
      | |- preserves _ (_ ≫= _) => apply preserves_bind
      | |- preserves _ (tx _) => apply preserves_tx
      | |- preserves _ (tx_if _ _) => apply preserves_tx_if
      | |- preserves _ (wrap_err _ _) => apply preserves_wrap_err
      | |- preserves _ (for_each _ _) => apply preserves_for_each
      | |- preserves _ (INSERT _ _) => apply preserves_INSERT; done
      | |- preserves _ (UPDATE _ _ _) => apply preserves_UPDATE; done
      | |- preserves _ (UPSERT _ _ _ _) => apply preserves_UPSERT; done
      | |- preserves _ (UPSERT_AT _ _ _ _) => apply preserves_UPSERT_AT; done
      | |- preserves _ (DELETE _ _) => apply preserves_DELETE
      | |- preserves _ (DELETE_IN _ _) => apply preserves_DELETE_IN
      | |- preserves _ (match ?x with _ => _ end) => destruct x
      end ].

(** Reads a table through the steps that left it alone: each hypothesis that says what
    a step does not touch is used from the last step back. *)
Ltac skip_back :=
  repeat match goal with
  | O : ∀ u, u ≠ _ → ?db' u = ?db u |- context [in_order ?t ?db'] =>
      rewrite (in_order_frame t db db') by (by apply O)
  end.
