(* ===== verification/Schema.v ===== *)
(** * The tables of servers, reports, settings and keys

    The schema of [internal/db/migrations], after the last migration, for the tables
    of API keys, servers, reports and their parts, heartbeats, alert settings and VM
    schedules: the rows, the references with their [ON DELETE], the unique indexes.
    A row of a table whose reader is a record of [internal/domain] is that record;
    a nullable column that is stored as [NULL] at some point is an [option]; the
    column [updated_at] of the alert settings, which nothing reads, is left out. *)
From S2P Require Import Prelude GoStrings GoNum GoTime Domain Sql Relational.

(** [internal/domain/models.go] *)
Record PBSGCStatus := {
  gc_ID : Z; gc_StoreID : Z; gc_DiskBytes : Z; gc_DiskChunks : Z;
  gc_IndexDataBytes : Z; gc_IndexFileCount : Z; gc_PendingBytes : Z;
  gc_PendingChunks : Z; gc_RemovedBad : Z; gc_RemovedBytes : Z;
  gc_RemovedChunks : Z; gc_StillBad : Z; gc_UPID : string }.

Record APIKey := {
  key_ID : Z; key_Key : string; key_Name : string; key_KeyType : string;
  key_IsActive : bool; key_MachineID : string; key_LastUsed : option Time;
  key_ServerName : string; key_ServerURL : string; key_CreatedAt : Time }.

(** ** Rows *)

Record APIKeyRow := {
  ak_ID : Z; ak_Key : string; ak_KeyHash : string; ak_Name : string; ak_KeyType : string;
  ak_IsActive : bool; ak_MachineID : option string; ak_LastUsed : option Time;
  ak_ServerName : option string; ak_ServerURL : string; ak_CreatedAt : Time }.

(** The last two flags are columns of [pve_servers] only. *)
Record ServerRow := {
  sr_ID : Z; sr_Name : string; sr_IP : option string; sr_PublicIP : option string;
  sr_ClientVersion : option string; sr_MachineID : option string;
  sr_APIKeyID : option Z; sr_IsDeleted : bool; sr_CreatedAt : Time;
  sr_UpdatedAt : Time; sr_InventoryKnown : bool; sr_HasBackupVMs : bool }.

(** A report with its column [report_id], the token of the client. *)
Record ReportRow (R : Type) := { rr_Report : R; rr_Token : string }.
Arguments Build_ReportRow {R}.
Arguments rr_Report {R}.
Arguments rr_Token {R}.

Record HistoryRow := {
  hist_ID : Z; hist_StoreID : Z; hist_Position : Z; hist_Value : option float64 }.

Record HeartbeatRow := {
  hbr_ID : Z; hbr_ServerType : string; hbr_ServerID : Z; hbr_Hostname : string;
  hbr_IP : string; hbr_PublicIP : string; hbr_ClientVersion : string;
  hbr_MachineID : string; hbr_SwapTotal : option Z; hbr_SwapUsed : option Z;
  hbr_SwapEnabled : option Z; hbr_LastSeenAt : Time; hbr_CreatedAt : Time;
  hbr_UpdatedAt : Time }.

Record VMConfigRow := {
  vcr_Config : VMBackupConfig; vcr_ServerType : string; vcr_ServerID : Z }.

(** The three kinds of servers: their tables differ in two columns and in the
    reference of their key. *)
Inductive server_kind : Type := PVE | PBS | Windows.

Inductive tbl : Type :=
| ApiKeys
| Servers (k : server_kind)
| Reports (k : server_kind)
| PveStorages | PveStorageInfos | PveStorageContents | PveBackupTasks
| PbsStores | PbsStoreHistory | PbsGcStatus | PbsSnapshots
| PbsMaintenanceTasks
| WindowsDisks
| ServerHeartbeats | PveAlertConfigs | PveVMAlertConfigs | PbsAlertConfigs
| WindowsAlertConfigs | VmBackupConfigs.

#[export] Instance server_kind_eq_dec : EqDecision server_kind.
Proof. solve_decision. Defined.

#[export] Instance tbl_eq_dec : EqDecision tbl.
Proof. solve_decision. Defined.

Definition report_of (k : server_kind) : Type :=
  match k with PVE => PVEReport | PBS => PBSReport | Windows => WindowsReport end.

Definition rep_ID {k} : report_of k → Z :=
  match k with PVE => pver_ID | PBS => pbsr_ID | Windows => winr_ID end.

Definition rep_ServerID {k} : report_of k → Z :=
  match k with PVE => pver_ServerID | PBS => pbsr_ServerID | Windows => winr_ServerID end.

Definition rep_ReportedAt {k} : report_of k → Time :=
  match k with
  | PVE => pver_ReportedAt | PBS => pbsr_ReportedAt | Windows => winr_ReportedAt
  end.

Definition tbl_row (t : tbl) : Type :=
  match t with
  | ApiKeys => APIKeyRow
  | Servers _ => ServerRow
  | Reports k => ReportRow (report_of k)
  | PveStorages => PVEStorage
  | PveStorageInfos => PVEStorageInfo
  | PveStorageContents => PVEStorageContent
  | PveBackupTasks => PVEBackupTask
  | PbsStores => PBSStore
  | PbsStoreHistory => HistoryRow
  | PbsGcStatus => PBSGCStatus
  | PbsSnapshots => PBSSnapshot
  | PbsMaintenanceTasks => PBSTask
  | WindowsDisks => WindowsDisk
  | ServerHeartbeats => HeartbeatRow
  | PveAlertConfigs => PVEAlertConfig
  | PveVMAlertConfigs => PVEVMAlertConfig
  | PbsAlertConfigs => PBSAlertConfig
  | WindowsAlertConfigs => WindowsAlertConfig
  | VmBackupConfigs => VMConfigRow
  end.

(** The column of [INTEGER PRIMARY KEY]. *)
Definition tbl_rowid (t : tbl) : tbl_row t → Z :=
  match t return tbl_row t → Z with
  | ApiKeys => ak_ID
  | Servers _ => sr_ID
  | Reports k => λ r, rep_ID (rr_Report r)
  | PveStorages => stg_ID
  | PveStorageInfos => info_ID
  | PveStorageContents => cnt_ID
  | PveBackupTasks => task_ID
  | PbsStores => ds_ID
  | PbsStoreHistory => hist_ID
  | PbsGcStatus => gc_ID
  | PbsSnapshots => sn_ID
  | PbsMaintenanceTasks => ptask_ID
  | WindowsDisks => disk_ID
  | ServerHeartbeats => hbr_ID
  | PveAlertConfigs => pac_ServerID
  | PveVMAlertConfigs => vac_ID
  | PbsAlertConfigs => bac_ServerID
  | WindowsAlertConfigs => wac_ServerID
  | VmBackupConfigs => λ r, vm_ID (vcr_Config r)
  end.

Definition clear_api_key (r : ServerRow) : ServerRow :=
  {| sr_ID := sr_ID r; sr_Name := sr_Name r; sr_IP := sr_IP r;
     sr_PublicIP := sr_PublicIP r; sr_ClientVersion := sr_ClientVersion r;
     sr_MachineID := sr_MachineID r; sr_APIKeyID := None;
     sr_IsDeleted := sr_IsDeleted r; sr_CreatedAt := sr_CreatedAt r;
     sr_UpdatedAt := sr_UpdatedAt r; sr_InventoryKnown := sr_InventoryKnown r;
     sr_HasBackupVMs := sr_HasBackupVMs r |}.

Definition ref {R} (p : tbl) (f : R → Z) : FK (table := tbl) R :=
  {| parent := p; column := λ r, Some (f r); on_delete := Restrict |}.

Definition ref_cascade {R} (p : tbl) (f : R → Z) : FK (table := tbl) R :=
  {| parent := p; column := λ r, Some (f r); on_delete := Cascade |}.

(** [REFERENCES]; the keys of PVE and PBS servers are plain columns. *)
Definition tbl_fks (t : tbl) : list (FK (table := tbl) (tbl_row t)) :=
  match t return list (FK (table := tbl) (tbl_row t)) with
  | Reports k =>
      [{| parent := Servers k; column := λ r, Some (rep_ServerID (rr_Report r));
          on_delete := match k with Windows => Cascade | _ => Restrict end |}]
  | PveStorages => [ref (Reports PVE) stg_ReportID]
  | PveStorageInfos => [ref PveStorages info_StorageID]
  | PveStorageContents => [ref PveStorages cnt_StorageID]
  | PveBackupTasks => [ref (Reports PVE) task_ReportID]
  | PbsStores => [ref (Reports PBS) ds_ReportID]
  | PbsStoreHistory => [ref PbsStores hist_StoreID]
  | PbsGcStatus => [ref PbsStores gc_StoreID]
  | PbsSnapshots => [ref PbsStores sn_StoreID]
  | PbsMaintenanceTasks => [ref (Reports PBS) ptask_ReportID]
  | Servers Windows =>
      [{| parent := ApiKeys; column := sr_APIKeyID; on_delete := SetNull clear_api_key |}]
  | WindowsDisks => [ref_cascade (Reports Windows) disk_ReportID]
  | PveAlertConfigs => [ref (Servers PVE) pac_ServerID]
  | PveVMAlertConfigs => [ref (Servers PVE) vac_ServerID]
  | PbsAlertConfigs => [ref (Servers PBS) bac_ServerID]
  | WindowsAlertConfigs => [ref_cascade (Servers Windows) wac_ServerID]
  | ApiKeys | Servers PVE | Servers PBS | ServerHeartbeats | VmBackupConfigs => []
  end.

(** ** Unique indexes *)

Definition same_api_key (r1 r2 : ServerRow) : bool :=
  match sr_APIKeyID r1, sr_APIKeyID r2 with Some k1, Some k2 => k1 =? k2 | _, _ => false end.

Definition str_eqb (s1 s2 : string) : bool := bool_decide (s1 = s2).

Definition same_token {R} (server : R → Z) (r1 r2 : ReportRow R) : bool :=
  (server (rr_Report r1) =? server (rr_Report r2)) &&
  str_eqb (rr_Token r1) (rr_Token r2) && negb (str_empty (rr_Token r1)).

Definition live_config (r : VMConfigRow) : bool :=
  (0 <? vcr_ServerID r) && negb (vm_IsDeleted (vcr_Config r)).

Definition tbl_clash (t : tbl) : tbl_row t → tbl_row t → bool :=
  match t return tbl_row t → tbl_row t → bool with
  | ApiKeys => λ r1 r2, str_eqb (ak_Key r1) (ak_Key r2) ||
      (str_eqb (ak_KeyHash r1) (ak_KeyHash r2) && negb (str_empty (ak_KeyHash r1)))
  | Servers _ => same_api_key
  | Reports k => same_token rep_ServerID
  | ServerHeartbeats => λ r1 r2, str_eqb (hbr_ServerType r1) (hbr_ServerType r2) &&
      (hbr_ServerID r1 =? hbr_ServerID r2)
  | PveVMAlertConfigs => λ r1 r2, (vac_ServerID r1 =? vac_ServerID r2) &&
      (vac_VMID r1 =? vac_VMID r2)
  | VmBackupConfigs => λ r1 r2, live_config r1 && live_config r2 &&
      str_eqb (vcr_ServerType r1) (vcr_ServerType r2) &&
      (vcr_ServerID r1 =? vcr_ServerID r2) &&
      str_eqb (vm_VMID (vcr_Config r1)) (vm_VMID (vcr_Config r2))
  | _ => λ _ _, false
  end.

(** ** The schema *)

(** What a table refers to comes before it. *)
Definition all_tables : list tbl :=
  [ApiKeys; Servers PVE; Reports PVE; PveStorages; PveStorageInfos; PveStorageContents;
   PveBackupTasks; Servers PBS; Reports PBS; PbsStores; PbsStoreHistory; PbsGcStatus;
   PbsSnapshots; PbsMaintenanceTasks; Servers Windows; Reports Windows; WindowsDisks;
   ServerHeartbeats; PveAlertConfigs; PveVMAlertConfigs; PbsAlertConfigs;
   WindowsAlertConfigs; VmBackupConfigs].

Lemma str_eqb_sym s1 s2 : str_eqb s1 s2 = str_eqb s2 s1.
Proof. unfold str_eqb. apply bool_decide_ext. naive_solver. Qed.

Lemma str_eqb_eq s1 s2 : str_eqb s1 s2 = true ↔ s1 = s2.
Proof. unfold str_eqb. apply bool_decide_eq_true. Qed.

Lemma str_eqb_empty s1 s2 :
  str_eqb s1 s2 && negb (str_empty s1) = str_eqb s2 s1 && negb (str_empty s2).
Proof.
  rewrite str_eqb_sym. destruct (str_eqb s2 s1) eqn:He; [|done].
  apply str_eqb_eq in He as ->. done.
Qed.

Lemma same_api_key_sym r1 r2 : same_api_key r1 r2 = same_api_key r2 r1.
Proof. unfold same_api_key. destruct (sr_APIKeyID r1), (sr_APIKeyID r2); auto using Z.eqb_sym. Qed.

Lemma same_token_sym {R} (server : R → Z) r1 r2 :
  same_token server r1 r2 = same_token server r2 r1.
Proof.
  unfold same_token. rewrite <-!andb_assoc, str_eqb_empty. f_equal. apply Z.eqb_sym.
Qed.

#[export] Program Instance probakgo_schema : Schema := {|
  table := tbl; tables := all_tables; Row := tbl_row; rowid := tbl_rowid;
  fks := tbl_fks; clash := tbl_clash |}.
Next Obligation.
  intros []; simpl; intros r1 r2;
    auto using same_api_key_sym, same_token_sym.
  - rewrite str_eqb_empty. f_equal. apply str_eqb_sym.
  - rewrite str_eqb_sym. f_equal. apply Z.eqb_sym.
  - f_equal; apply Z.eqb_sym.
  - rewrite (str_eqb_sym (vcr_ServerType r1)), (Z.eqb_sym (vcr_ServerID r1)),
      (str_eqb_sym (vm_VMID (vcr_Config r1))), (andb_comm (live_config r1)). done.
Qed.
Next Obligation. intros [|[]|[] | | | | | | | | | | | | | | | |]; unfold all_tables; set_solver. Qed.
Next Obligation. intros [|[]|[] | | | | | | | | | | | | | | | |] fk f r; simpl; set_solver. Qed.
Next Obligation.
  intros [|[]|[] | | | | | | | | | | | | | | | |] fk f r1 r2; simpl; try (by rewrite ?elem_of_nil, ?list_elem_of_singleton; intros; subst).
  intros ->%list_elem_of_singleton [= <-]. done.
Qed.

Canonical probakgo_schema.

(** [sqliteUTC] of [internal/store/store.go], and the value [CURRENT_TIMESTAMP] of a
    statement that runs at [t]: whole seconds. *)
Definition sqliteUTC (t : Time) : Time := UnixTime (Unix t).

Notation rows_of db t := (rows (db t)) (only parsing).

(** One case for each reference of the schema. *)
Ltac each_reference :=
  let Hfk := fresh "Hfk" in
  intros [|[]|[]| | | | | | | | | | | | | | | |] ? Hfk; simpl in Hfk;
  first [ by apply not_elem_of_nil in Hfk
        | apply list_elem_of_singleton in Hfk as ->; simpl; intros [=] ].
