(* ===== verification/Servers.v ===== *)
(** * Servers and the keys they belong to

    The server statements of [internal/store/pve.go], [pbs.go], [windows.go] and
    [server_identity.go].  The three tables are treated alike, so each operation is
    defined once, for a [server_kind], and named as the source names it for each
    kind.  [now] is the clock of the statement. *)
From S2P Require Import Prelude GoStrings GoNum GoTime Domain Sql Relational Schema.

(** The text of [sql.ErrNoRows]. *)
Definition ErrNoRows : error := ErrMsg "sql: no rows in result set".

(** What [row.Scan] answers for a [NULL] read into a [string]. *)
Definition ErrScanNull : error :=
  ErrMsg "sql: Scan error: converting NULL to string is unsupported".

Definition kind_name (k : server_kind) : string :=
  match k with PVE => "pve" | PBS => "pbs" | Windows => "windows" end.

(** ** Rows *)

Definition new_server (now : Time) (name ip publicIP clientVersion machineID : string)
    (apiKeyID : option Z) (id : Z) : ServerRow :=
  {| sr_ID := id; sr_Name := name; sr_IP := Some ip; sr_PublicIP := Some publicIP;
     sr_ClientVersion := Some clientVersion; sr_MachineID := Some machineID;
     sr_APIKeyID := apiKeyID; sr_IsDeleted := false; sr_CreatedAt := sqliteUTC now;
     sr_UpdatedAt := sqliteUTC now; sr_InventoryKnown := false; sr_HasBackupVMs := false |}.

(** [ip=?, public_ip=?, client_version=?, machine_id=?, updated_at=...], and the name
    and the key where the statement sets them. *)
Definition touch_server (now : Time) (name : option string)
    (ip publicIP clientVersion machineID : string) (apiKeyID : option Z) (r : ServerRow) :
    ServerRow :=
  {| sr_ID := sr_ID r; sr_Name := default (sr_Name r) name; sr_IP := Some ip;
     sr_PublicIP := Some publicIP; sr_ClientVersion := Some clientVersion;
     sr_MachineID := Some machineID;
     sr_APIKeyID := match apiKeyID with Some k => Some k | None => sr_APIKeyID r end;
     sr_IsDeleted := sr_IsDeleted r; sr_CreatedAt := sr_CreatedAt r;
     sr_UpdatedAt := sqliteUTC now; sr_InventoryKnown := sr_InventoryKnown r;
     sr_HasBackupVMs := sr_HasBackupVMs r |}.

Definition bind_server (now : Time) (apiKeyID : Z) (r : ServerRow) : ServerRow :=
  {| sr_ID := sr_ID r; sr_Name := sr_Name r; sr_IP := sr_IP r; sr_PublicIP := sr_PublicIP r;
     sr_ClientVersion := sr_ClientVersion r; sr_MachineID := sr_MachineID r;
     sr_APIKeyID := Some apiKeyID; sr_IsDeleted := sr_IsDeleted r;
     sr_CreatedAt := sr_CreatedAt r; sr_UpdatedAt := sqliteUTC now;
     sr_InventoryKnown := sr_InventoryKnown r; sr_HasBackupVMs := sr_HasBackupVMs r |}.

(** [INSERT INTO pve_servers (name, machine_id, api_key_id)]. *)
Definition bare_server (now : Time) (name machineID : string) (apiKeyID id : Z) : ServerRow :=
  {| sr_ID := id; sr_Name := name; sr_IP := None; sr_PublicIP := None;
     sr_ClientVersion := None; sr_MachineID := Some machineID;
     sr_APIKeyID := Some apiKeyID; sr_IsDeleted := false; sr_CreatedAt := sqliteUTC now;
     sr_UpdatedAt := sqliteUTC now; sr_InventoryKnown := false; sr_HasBackupVMs := false |}.

(** ** Conditions *)

Definition named (name : string) (r : ServerRow) : bool :=
  str_eqb (sr_Name r) name && negb (sr_IsDeleted r).

Definition opt_is {A} `{EqDecision A} (o : option A) (a : A) : bool := bool_decide (o = Some a).

Definition of_key (apiKeyID : Z) (r : ServerRow) : bool :=
  opt_is (sr_APIKeyID r) apiKeyID && negb (sr_IsDeleted r).

Definition is_null {A} (o : option A) : bool := match o with None => true | _ => false end.

(** [name = ? AND machine_id = ? AND api_key_id IS NULL AND is_deleted = 0]. *)
Definition legacy_of (name machineID : string) (r : ServerRow) : bool :=
  str_eqb (sr_Name r) name && opt_is (sr_MachineID r) machineID &&
  is_null (sr_APIKeyID r) && negb (sr_IsDeleted r).

(** [id = ?]. *)
Definition has_id (id : Z) (r : ServerRow) : bool := sr_ID r =? id.

Section servers.
Context `{!SqlOrder}.

(** [QueryRow(SELECT id FROM ... WHERE cond).Scan(&id)]: [None] is [ErrNoRows]. *)
Definition find_server (k : server_kind) (cond : ServerRow → bool) : prog DB (option Z) :=
  query (λ db, head (sr_ID <$> select_from (Servers k) cond any_order db)).

Definition upsert_server (k : server_kind) (now : Time)
    (name ip publicIP clientVersion machineID : string) : prog DB Z :=
  found ← find_server k (named name);
  match found with
  | None =>
      wrap_err ("insert " +:+ kind_name k +:+ "_server")
        (INSERT (Servers k) (new_server now name ip publicIP clientVersion machineID None))
  | Some id =>
      UPDATE (Servers k) (has_id id)
        (touch_server now None ip publicIP clientVersion machineID None) ≫= λ _, mret id
  end.

Definition upsert_server_for_key (k : server_kind) (now : Time) (apiKeyID : Z)
    (name ip publicIP clientVersion machineID : string) : prog DB Z :=
  if apiKeyID <=? 0 then upsert_server k now name ip publicIP clientVersion machineID else
  found ← find_server k (of_key apiKeyID);
  match found with
  | Some id =>
      UPDATE (Servers k) (has_id id)
        (touch_server now (Some name) ip publicIP clientVersion machineID None)
        ≫= λ _, mret id
  | None =>
      legacy ← find_server k (legacy_of name machineID);
      match legacy with
      | Some id =>
          UPDATE (Servers k) (has_id id)
            (touch_server now None ip publicIP clientVersion machineID (Some apiKeyID))
            ≫= λ _, mret id
      | None =>
          wrap_err ("insert " +:+ kind_name k +:+ "_server")
            (INSERT (Servers k)
              (new_server now name ip publicIP clientVersion machineID (Some apiKeyID)))
      end
  end.

Definition UpsertPVEServer := upsert_server PVE.
Definition UpsertPBSServer := upsert_server PBS.
Definition UpsertWindowsServer := upsert_server Windows.
Definition UpsertPVEServerForAPIKey := upsert_server_for_key PVE.
Definition UpsertPBSServerForAPIKey := upsert_server_for_key PBS.
Definition UpsertWindowsServerForAPIKey := upsert_server_for_key Windows.

Definition ResolvePVEServerForAPIKey (now : Time) (apiKeyID : Z) (name machineID : string) :
    prog DB Z :=
  if apiKeyID <=? 0 then fail (ErrMsg "api key id is required") else
  found ← find_server PVE (of_key apiKeyID);
  match found with
  | Some id => mret id
  | None =>
      legacy ← find_server PVE (legacy_of name machineID);
      match legacy with
      | Some id =>
          UPDATE (Servers PVE) (has_id id) (bind_server now apiKeyID) ≫= λ _, mret id
      | None =>
          wrap_err "insert pve_server"
            (INSERT (Servers PVE) (bare_server now name machineID apiKeyID))
      end
  end.

(** [ORDER BY api_key_id IS NULL]. *)
Definition bound_first (r1 r2 : ServerRow) : bool :=
  negb (is_null (sr_APIKeyID r1)) || is_null (sr_APIKeyID r2).

Definition FindPVEServerForAPIKey (apiKeyID : Z) (name machineID : string) :
    prog DB (option Z) :=
  query (λ db, head (sr_ID <$> select_from (Servers PVE)
    (λ r, negb (sr_IsDeleted r) && (opt_is (sr_APIKeyID r) apiKeyID ||
          (str_eqb (sr_Name r) name && opt_is (sr_MachineID r) machineID &&
           is_null (sr_APIKeyID r)))) bound_first db)).

Definition set_inventory (now : Time) (hasVMs : bool) (r : ServerRow) : ServerRow :=
  {| sr_ID := sr_ID r; sr_Name := sr_Name r; sr_IP := sr_IP r; sr_PublicIP := sr_PublicIP r;
     sr_ClientVersion := sr_ClientVersion r; sr_MachineID := sr_MachineID r;
     sr_APIKeyID := sr_APIKeyID r; sr_IsDeleted := sr_IsDeleted r;
     sr_CreatedAt := sr_CreatedAt r; sr_UpdatedAt := sqliteUTC now;
     sr_InventoryKnown := true; sr_HasBackupVMs := hasVMs |}.

Definition SetPVEBackupInventory (now : Time) (serverID : Z) (hasVMs : bool) : prog DB () :=
  rows ← UPDATE (Servers PVE) (λ r, has_id serverID r && negb (sr_IsDeleted r))
           (set_inventory now hasVMs);
  if rows =? 0 then fail ErrNoRows else mret ().

(** [UPDATE ... SET is_deleted=1, updated_at=?]: the bound [time.Time] keeps its
    nanoseconds. *)
Definition soft_delete (now : Time) (r : ServerRow) : ServerRow :=
  {| sr_ID := sr_ID r; sr_Name := sr_Name r; sr_IP := sr_IP r; sr_PublicIP := sr_PublicIP r;
     sr_ClientVersion := sr_ClientVersion r; sr_MachineID := sr_MachineID r;
     sr_APIKeyID := sr_APIKeyID r; sr_IsDeleted := true; sr_CreatedAt := sr_CreatedAt r;
     sr_UpdatedAt := now; sr_InventoryKnown := sr_InventoryKnown r;
     sr_HasBackupVMs := sr_HasBackupVMs r |}.

Definition delete_server (k : server_kind) (now : Time) (id : Z) : prog DB () :=
  UPDATE (Servers k) (has_id id) (soft_delete now) ≫= λ _, mret ().

Definition DeletePVEServer := delete_server PVE.
Definition DeletePBSServer := delete_server PBS.

(** ** Readers *)

(** [COALESCE(NULLIF(k.name, ''), s.name)] over [LEFT JOIN api_keys k ON k.id =
    s.api_key_id]. *)
Definition display_name (db : DB) (r : ServerRow) : string :=
  match sr_APIKeyID r ≫= λ i, rows_of db ApiKeys !! i with
  | Some k => if str_empty (ak_Name k) then sr_Name r else ak_Name k
  | None => sr_Name r
  end.

(** The four text columns are scanned into strings, which [NULL] does not fit. *)
Definition scan_text (r : ServerRow) : result (string * string * string * string) :=
  match sr_IP r, sr_PublicIP r, sr_ClientVersion r, sr_MachineID r with
  | Some ip, Some pub, Some ver, Some m => Ok (ip, pub, ver, m)
  | _, _, _, _ => Err ErrScanNull
  end.

Definition scan_pve (db : DB) (r : ServerRow) : result PVEServer :=
  '(ip, pub, ver, m) ← scan_text r;
  Ok {| pves_ID := sr_ID r; pves_Name := sr_Name r; pves_DisplayName := display_name db r;
        pves_IP := ip; pves_PublicIP := pub; pves_ClientVersion := ver;
        pves_MachineID := m; pves_APIKeyID := default 0 (sr_APIKeyID r);
        pves_BackupInventoryKnown := sr_InventoryKnown r;
        pves_HasBackupVMs := sr_HasBackupVMs r; pves_IsDeleted := sr_IsDeleted r;
        pves_CreatedAt := sr_CreatedAt r; pves_UpdatedAt := sr_UpdatedAt r |}.

Definition scan_pbs (db : DB) (r : ServerRow) : result PBSServer :=
  '(ip, pub, ver, m) ← scan_text r;
  Ok {| pbss_ID := sr_ID r; pbss_Name := sr_Name r; pbss_DisplayName := display_name db r;
        pbss_IP := ip; pbss_PublicIP := pub; pbss_ClientVersion := ver;
        pbss_MachineID := m; pbss_APIKeyID := default 0 (sr_APIKeyID r);
        pbss_IsDeleted := sr_IsDeleted r; pbss_CreatedAt := sr_CreatedAt r;
        pbss_UpdatedAt := sr_UpdatedAt r |}.

Definition scan_windows (db : DB) (r : ServerRow) : result WindowsServer :=
  '(ip, pub, ver, m) ← scan_text r;
  Ok {| wins_ID := sr_ID r; wins_Name := sr_Name r; wins_DisplayName := display_name db r;
        wins_IP := ip; wins_PublicIP := pub; wins_ClientVersion := ver;
        wins_MachineID := m; wins_APIKeyID := default 0 (sr_APIKeyID r);
        wins_IsDeleted := sr_IsDeleted r; wins_CreatedAt := sr_CreatedAt r;
        wins_UpdatedAt := sr_UpdatedAt r |}.

(** [for rows.Next() { if err := rows.Scan(...) ... }]. *)
Fixpoint scan_all {A B} (scan : A → result B) (l : list A) : result (list B) :=
  match l with
  | [] => Ok []
  | x :: l => y ← scan x; ys ← scan_all scan l; Ok (y :: ys)
  end.

(** [row.Scan] of a [QueryRow]. *)
Definition scan_first {A B} (scan : A → result B) (l : list A) : result B :=
  match l with [] => Err ErrNoRows | x :: _ => scan x end.

(** [ORDER BY display_name, s.id]; texts compare byte by byte. *)
Definition by_display_name (db : DB) (r1 r2 : ServerRow) : bool :=
  let n1 := display_name db r1 in let n2 := display_name db r2 in
  if str_eqb n1 n2 then sr_ID r1 <=? sr_ID r2 else String.leb n1 n2.

(** [ORDER BY s.api_key_id IS NULL, s.id]. *)
Definition bound_then_id (r1 r2 : ServerRow) : bool :=
  match is_null (sr_APIKeyID r1), is_null (sr_APIKeyID r2) with
  | false, true => true
  | true, false => false
  | _, _ => sr_ID r1 <=? sr_ID r2
  end.

Section readers.
Context {A : Type} (k : server_kind) (scan : DB → ServerRow → result A).

Definition list_servers (db : DB) : result (list A) :=
  scan_all (scan db)
    (select_from (Servers k) (λ r, negb (sr_IsDeleted r)) (by_display_name db) db).

Definition get_server (id : Z) (db : DB) : result A :=
  scan_first (scan db)
    (select_from (Servers k) (λ r, has_id id r && negb (sr_IsDeleted r)) any_order db).

Definition get_server_by_name (name : string) (db : DB) : result A :=
  scan_first (scan db) (select_from (Servers k) (named name) bound_then_id db).
End readers.

(** A read statement whose answer can be an error of its own. *)
Definition read {A} (f : DB → result A) : prog DB A :=
  stmt (λ db, match f db with Ok a => Ok (a, db) | Err e => Err e end).

Definition ListPVEServers := list_servers PVE scan_pve.
Definition ListPBSServers := list_servers PBS scan_pbs.
Definition ListWindowsServers := list_servers Windows scan_windows.
Definition GetPVEServer := get_server PVE scan_pve.
Definition GetPBSServer := get_server PBS scan_pbs.
Definition GetWindowsServer := get_server Windows scan_windows.
Definition GetPVEServerByName := get_server_by_name PVE scan_pve.
Definition GetPBSServerByName := get_server_by_name PBS scan_pbs.
Definition GetWindowsServerByName := get_server_by_name Windows scan_windows.

Definition GetWindowsServerByAPIKey (keyID : Z) : prog DB WindowsServer :=
  found ← find_server Windows (of_key keyID);
  match found with None => fail ErrNoRows | Some id => read (GetWindowsServer id) end.

Definition server_kind_of (serverType : string) : option server_kind :=
  if str_eqb serverType "pve" then Some PVE
  else if str_eqb serverType "pbs" then Some PBS
  else if str_eqb serverType "windows" then Some Windows else None.

Definition ServerPublicIPForAPIKey (serverType : string) (keyID : Z) : prog DB string :=
  match server_kind_of serverType with
  | None => fail (ErrMsg "invalid server type")
  | Some k =>
      found ← query (λ db, head ((λ r, default "" (sr_PublicIP r)) <$>
                select_from (Servers k) (of_key keyID) any_order db));
      match found with None => fail ErrNoRows | Some ip => mret ip end
  end.
End servers.

(** ** Lemmas *)

Lemma opt_is_true {A} `{EqDecision A} (o : option A) (a : A) : opt_is o a = true ↔ o = Some a.
Proof. apply bool_decide_eq_true. Qed.

Lemma is_null_true {A} (o : option A) : is_null o = true ↔ o = None.
Proof. by destruct o. Qed.

Lemma of_key_true key r :
  of_key key r = true ↔ sr_APIKeyID r = Some key ∧ sr_IsDeleted r = false.
Proof. unfold of_key. by rewrite andb_true_iff, opt_is_true, negb_true_iff. Qed.

Lemma legacy_of_true name m r :
  legacy_of name m r = true ↔
  sr_Name r = name ∧ sr_MachineID r = Some m ∧ sr_APIKeyID r = None ∧ sr_IsDeleted r = false.
Proof.
  unfold legacy_of. rewrite !andb_true_iff, str_eqb_eq, opt_is_true, is_null_true, negb_true_iff.
  tauto.
Qed.

(** Two rows of one table never have the same key. *)
Lemma server_key_unique k db i j r1 r2 key :
  wf db → rows_of db (Servers k) !! i = Some r1 → rows_of db (Servers k) !! j = Some r2 →
  sr_APIKeyID r1 = Some key → sr_APIKeyID r2 = Some key → i = j.
Proof.
  intros Hwf H1 H2 K1 K2. destruct (decide (i = j)) as [|Hne]; [done|].
  pose proof (wf_unique _ Hwf (Servers k) i j r1 r2 Hne H1 H2) as Hc.
  simpl in Hc. unfold same_api_key in Hc. rewrite K1, K2, Z.eqb_refl in Hc. done.
Qed.

Section server_lemmas.
Context `{!SqlOrder}.

Lemma find_server_Some k cond db id :
  wf db → head (sr_ID <$> select_from (Servers k) cond any_order db) = Some id →
  ∃ r, rows_of db (Servers k) !! id = Some r ∧ cond r = true.
Proof.
  intros Hwf Hh. destruct (select_from _ _ _ _) as [|r l] eqn:Hs; [done|].
  injection Hh as [= <-].
  assert (r ∈ select_from (Servers k) cond any_order db) as Hin by (rewrite Hs; left).
  apply elem_of_select in Hin as [Hc [i Hr]]. exists r. split; [|done].
  by rewrite (wf_row db (Servers k) i r _ Hwf Hr eq_refl) in Hr.
Qed.

Lemma find_server_None k cond db :
  head (sr_ID <$> select_from (Servers k) cond any_order db) = None →
  ∀ i r, rows_of db (Servers k) !! i = Some r → cond r = false.
Proof.
  intros Hh i r Hr. destruct (select_from _ _ _ _) as [|r' l] eqn:Hs; [|done].
  apply not_true_iff_false. intros Hc.
  assert (r ∈ select_from (Servers k) cond any_order db) as Hin
    by (apply elem_of_select; eauto).
  rewrite Hs in Hin. by apply not_elem_of_nil in Hin.
Qed.

(** What an update of one server does, when it succeeds. *)
Lemma update_server_always k id f (Q : result Z → DB → Prop) db r :
  wf db → rows_of db (Servers k) !! id = Some r →
  (∀ e, Q (Err e) db) →
  (∀ n, Q (Ok id) (put (Servers k) {| rows := <[id := f r]> (rows_of db (Servers k));
                                      last_id := n |} db)) →
  always (UPDATE (Servers k) (has_id id) f ≫= λ _, mret id) Q db.
Proof.
  intros Hwf Hr He Ho. apply always_bind, always_stmt; [done|].
  intros n db' Hu. apply always_Ret.
  apply update_stmt_Ok in Hu as (_ & -> & _).
  assert (updated (Servers k) (has_id id) f db = <[id := f r]> (rows_of db (Servers k))) as ->;
    [|apply Ho].
  apply map_eq. intros j. change (has_id id) with (is_row (Servers k) id).
  rewrite updated_row by done. case_decide as Hj.
  - subst. by rewrite Hr, lookup_insert_eq.
  - by rewrite lookup_insert_ne.
Qed.

(** What a login of a report or a heartbeat does to the table of servers: [id] is
    the server of the key afterwards, and nothing else changes. *)
Definition upserted (k : server_kind) (key : Z) (name machineID : string) (db : DB)
    (id : Z) (db' : DB) : Prop :=
  (∃ row, rows_of db' (Servers k) !! id = Some row ∧ sr_APIKeyID row = Some key ∧
     sr_Name row = name ∧ sr_MachineID row = Some machineID ∧ sr_IsDeleted row = false) ∧
  (∀ j, j ≠ id → rows_of db' (Servers k) !! j = rows_of db (Servers k) !! j) ∧
  (∀ old, rows_of db (Servers k) !! id = Some old →
     sr_APIKeyID old = Some key ∨ legacy_of name machineID old = true).

Lemma upserted_put k key name m (db : DB) id (r row : ServerRow) n :
  (∀ old, rows_of db (Servers k) !! id = Some old →
     sr_APIKeyID old = Some key ∨ legacy_of name m old = true) →
  r = row → sr_APIKeyID row = Some key → sr_Name row = name →
  sr_MachineID row = Some m → sr_IsDeleted row = false →
  let db' := put (Servers k) {| rows := <[id := r]> (rows_of db (Servers k)); last_id := n |} db in
  (∀ t, t ≠ Servers k → db' t = db t) ∧ upserted k key name m db id db'.
Proof.
  intros Hold -> Hk Hn Hm Hd db'. split; [intros t Ht; by apply put_ne|]. split_and!; [|..].
  - exists row. unfold db'. rewrite rows_put_eq. by rewrite lookup_insert_eq.
  - intros j Hj. unfold db'. rewrite rows_put_eq. by rewrite lookup_insert_ne.
  - done.
Qed.

Lemma upsert_step (k : server_kind) (now : Time) (key : Z)
    (name ip publicIP ver m : string) (db : DB) :
  0 < key → wf db →
  always (upsert_server_for_key k now key name ip publicIP ver m) (λ r db',
    (∀ t, t ≠ Servers k → db' t = db t) ∧
    match r with
    | Ok id => upserted k key name m db id db'
    | Err _ => db' = db
    end) db.
Proof.
  intros Hkey Hwf. unfold upsert_server_for_key.
  rewrite (proj2 (Z.leb_gt key 0)) by done.
  apply always_bind, always_query; [done|].
  destruct (head _) as [id|] eqn:Hf.
  { destruct (find_server_Some _ _ _ _ Hwf Hf) as (r & Hr & [Hk Hd]%of_key_true).
    eapply update_server_always; [done|exact Hr|done|]. intros n.
    eapply upserted_put; try done. intros old Hold. left. by rewrite (row_det _ _ _ _ Hold Hr). }
  clear Hf. apply always_bind, always_query; [done|].
  destruct (head _) as [id|] eqn:Hl.
  { destruct (find_server_Some _ _ _ _ Hwf Hl) as (r & Hr & Hleg).
    pose proof Hleg as (Hn & Hm & Hk & Hd)%legacy_of_true.
    eapply update_server_always; [done|exact Hr|done|]. intros n.
    eapply upserted_put; try done. intros old Hold. right. by rewrite (row_det _ _ _ _ Hold Hr). }
  apply always_wrap_err, always_stmt; [done|].
  intros id db' Hi. apply insert_at_Ok in Hi as (-> & _ & _ & ->).
  eapply upserted_put; try done. intros old Hold.
  by destruct (row_none _ _ _ (wf_fresh db (Servers k) Hwf) Hold).
Qed.

(** whatever fails, a report or heartbeat of an API key touches one server at
    most: the one already bound to the key, an unbound one of the same name and
    machine, or a new one; that server is bound to the key afterwards.  A server of
    another key is never touched, nor any other table, and a failed call changes
    nothing at all. *)
Theorem upsert_touches_own_server (k : server_kind) (now : Time) (key : Z)
    (name ip publicIP ver m : string) (db : DB) :
  0 < key → wf db →
  always (upsert_server_for_key k now key name ip publicIP ver m) (λ r db',
    (∀ t, t ≠ Servers k → db' t = db t) ∧
    match r with
    | Ok id => upserted k key name m db id db'
    | Err _ => db' = db
    end) db.
Proof. apply upsert_step. Qed.

Lemma server_fks_ok k db (r : ServerRow) :
  (∀ key, k = Windows → sr_APIKeyID r = Some key → present db ApiKeys key = true) →
  fks_ok (t := Servers k) db r = true.
Proof.
  intros Hk. apply fks_ok_spec. intros fk i Hfk Hi. destruct k; simpl in Hfk;
    try (by apply not_elem_of_nil in Hfk).
  apply list_elem_of_singleton in Hfk as ->. simpl in *. by apply Hk.
Qed.

Lemma server_clash_None k (r r' : ServerRow) :
  sr_APIKeyID r = None → clash (Servers k) r r' = false.
Proof. intros Hr. simpl. unfold same_api_key. by rewrite Hr. Qed.

Lemma server_clash_ne k (r r' : ServerRow) key :
  sr_APIKeyID r = Some key → sr_APIKeyID r' ≠ Some key → clash (Servers k) r r' = false.
Proof.
  intros Hr Hr'. simpl. unfold same_api_key. rewrite Hr.
  destruct (sr_APIKeyID r') as [key'|]; [|done]. apply Z.eqb_neq. naive_solver.
Qed.

Lemma run_update_server k id f db r :
  wf db → rows_of db (Servers k) !! id = Some r → fks_ok (t := Servers k) db (f r) = true →
  (∀ j r', j ≠ id → rows_of db (Servers k) !! j = Some r' → clash (Servers k) (f r) r' = false) →
  ∃ db', run (UPDATE (Servers k) (has_id id) f ≫= λ _, mret id) db = (Ok id, db') ∧
    rows_of db' (Servers k) = <[id := f r]> (rows_of db (Servers k)).
Proof.
  intros Hwf Hr Hok Hcl. pose proof (update_row_intro (Servers k) id f db r Hwf Hr Hok Hcl) as [n Hn].
  eexists. rewrite run_bind. unfold UPDATE. rewrite run_stmt.
  change (has_id id) with (is_row (Servers k) id). rewrite Hn. split; [done|].
  by rewrite rows_put_eq.
Qed.

(** A key is usable when its own row exists, where the table refers to it, and no
    deleted server still holds it. *)
Definition key_usable (k : server_kind) (key : Z) (db : DB) : Prop :=
  (k = Windows → present db ApiKeys key = true) ∧
  ∀ i r, rows_of db (Servers k) !! i = Some r → sr_APIKeyID r = Some key →
    sr_IsDeleted r = false.

Lemma key_usable_ok k key db (r : ServerRow) :
  key_usable k key db → sr_APIKeyID r = Some key → fks_ok (t := Servers k) db r = true.
Proof.
  intros [Hw _] Hk. apply server_fks_ok. intros key' Hwin Hk'. rewrite Hk in Hk'.
  injection Hk' as [= <-]. by apply Hw.
Qed.

(** Binding a key nobody holds yet breaks no index. *)
Lemma key_free_clash k key db (r : ServerRow) :
  key_usable k key db →
  (∀ i r, rows_of db (Servers k) !! i = Some r → of_key key r = false) →
  sr_APIKeyID r = Some key →
  ∀ j r', rows_of db (Servers k) !! j = Some r' → clash (Servers k) r r' = false.
Proof.
  intros [_ Hd] Hnone Hk j r' Hr'. apply (server_clash_ne k r r' key Hk). intros Hk'.
  specialize (Hnone j r' Hr'). specialize (Hd j r' Hr' Hk').
  by rewrite (proj2 (of_key_true key r') (conj Hk' Hd)) in Hnone.
Qed.

Lemma run_insert_server k mk db key :
  wf db → key_usable k key db →
  (∀ i r, rows_of db (Servers k) !! i = Some r → of_key key r = false) →
  (∀ id, sr_APIKeyID (mk id) = Some key) →
  ∃ db', run (INSERT (Servers k) mk) db = (Ok (next_id db (Servers k)), db') ∧
    rows_of db' (Servers k) =
      <[next_id db (Servers k) := mk (next_id db (Servers k))]> (rows_of db (Servers k)).
Proof.
  intros Hwf Huse Hnone Hmk. eexists. rewrite run_INSERT.
  - split; [done|]. by rewrite rows_put_eq.
  - apply clashes_false. intros j r' _. eapply key_free_clash; eauto.
  - eapply key_usable_ok; eauto.
Qed.

(** a report or heartbeat of a usable key always finds or makes its server when
    the database works, and always the same one: the server already bound to the
    key, as long as there is one. *)
Theorem upsert_finds_its_server (k : server_kind) (now : Time) (key : Z)
    (name ip publicIP ver m : string) (db : DB) :
  0 < key → wf db → key_usable k key db →
  ∃ id db', run (upsert_server_for_key k now key name ip publicIP ver m) db = (Ok id, db') ∧
    (∀ i r, rows_of db (Servers k) !! i = Some r → sr_APIKeyID r = Some key → id = i).
Proof.
  intros Hkey Hwf Huse. unfold upsert_server_for_key.
  rewrite (proj2 (Z.leb_gt key 0)) by done. unfold find_server.
  rewrite run_bind, run_query. destruct (head _) as [id|] eqn:Hf.
  { destruct (find_server_Some _ _ _ _ Hwf Hf) as (r & Hr & [Hk Hd]%of_key_true).
    destruct (run_update_server k id (touch_server now (Some name) ip publicIP ver m None) db r)
      as (db' & Hrun & _); [done|done|by eapply key_usable_ok| |].
    - intros j r' Hne Hr'. apply (server_clash_ne k _ r' key); [done|]. intros Hk'.
      by apply Hne, (server_key_unique k db j id r' r key).
    - exists id, db'. split; [done|]. intros i r' Hr' Hk'.
      by apply (server_key_unique k db id i r r' key). }
  pose proof (find_server_None _ _ _ Hf) as Hnone. clear Hf.
  assert (∀ i r, rows_of db (Servers k) !! i = Some r → sr_APIKeyID r ≠ Some key) as Hfree.
  { intros i r Hr Hk. specialize (Hnone i r Hr). destruct Huse as [_ Hd].
    by rewrite (proj2 (of_key_true key r) (conj Hk (Hd i r Hr Hk))) in Hnone. }
  rewrite run_bind, run_query. destruct (head _) as [id|] eqn:Hl.
  - destruct (find_server_Some _ _ _ _ Hwf Hl) as (r & Hr & Hleg).
    destruct (run_update_server k id (touch_server now None ip publicIP ver m (Some key)) db r)
      as (db' & Hrun & _); [done|done|by eapply key_usable_ok|by intros j r' _; eapply key_free_clash|].
    exists id, db'. split; [done|]. intros i r' Hr' Hk'. by destruct (Hfree i r' Hr').
  - destruct (run_insert_server k (new_server now name ip publicIP ver m (Some key)) db key)
      as (db' & Hrun & _); [done..|].
    eexists _, db'. rewrite run_wrap_err, Hrun. split; [done|].
    intros i r' Hr' Hk'. by destruct (Hfree i r' Hr').
Qed.

(** ** Reading the servers *)

Lemma is_ok_scan_all {A B} (scan : A → result B) l :
  is_ok (scan_all scan l) = forallb (λ x, is_ok (scan x)) l.
Proof.
  induction l as [|x l IH]; simpl; [done|]. rewrite <-IH.
  destruct (scan x); simpl; [|done]. by destruct (scan_all scan l).
Qed.

Lemma scan_all_ok {A B} (scan : A → result B) l :
  is_ok (scan_all scan l) = true ↔ ∀ x, x ∈ l → is_ok (scan x) = true.
Proof. rewrite is_ok_scan_all, forallb_forall. by setoid_rewrite list_elem_of_In. Qed.

Lemma scan_all_err {A B} (scan : A → result B) l e :
  (∀ x e', scan x = Err e' → e' = e) → scan_all scan l = Err e ∨ is_ok (scan_all scan l) = true.
Proof.
  intros He. induction l as [|x l IH]; simpl; [by right|].
  destruct (scan x) as [y|e'] eqn:Hx; simpl; [|left; by rewrite (He _ _ Hx)].
  destruct IH as [->|Hok]; [by left|]. destruct (scan_all scan l); simpl in *; [by right|done].
Qed.

(** No column read into a string is [NULL]. *)
Definition complete (r : ServerRow) : bool := is_ok (scan_text r).

Lemma scan_text_err r e : scan_text r = Err e → e = ErrScanNull.
Proof. unfold scan_text. by destruct (sr_IP r), (sr_PublicIP r), (sr_ClientVersion r), (sr_MachineID r); intros [=]. Qed.

Lemma scan_pve_text db r : is_ok (scan_pve db r) = complete r.
Proof. unfold scan_pve, complete. by destruct (scan_text r) as [[[[? ?] ?] ?]|]. Qed.

Lemma scan_pve_err db r e : scan_pve db r = Err e → e = ErrScanNull.
Proof.
  unfold scan_pve. destruct (scan_text r) as [[[[? ?] ?] ?]|e'] eqn:Hs; simpl; [done|].
  intros [= <-]. by eapply scan_text_err.
Qed.

Lemma ListPVEServers_ok db :
  is_ok (ListPVEServers db) = true ↔
  ∀ i r, rows_of db (Servers PVE) !! i = Some r → sr_IsDeleted r = false → complete r = true.
Proof.
  unfold ListPVEServers, list_servers. rewrite scan_all_ok. split.
  - intros Hall i r Hr Hd. rewrite <-(scan_pve_text db). apply Hall.
    apply (select_in (Servers PVE) _ _ db i r Hr). by rewrite Hd.
  - intros Hall r (i & Hr & Hd)%(select_out (Servers PVE)). rewrite scan_pve_text.
    apply (Hall i r Hr). by apply negb_true_iff.
Qed.

(** the schedule calls of a client whose key has no server yet create a server
    with [NULL] in three text columns ([ResolvePVEServerForAPIKey]); from then on
    every listing of the PVE servers fails, for all of them, until the client
    sends a report or a heartbeat. *)
Theorem resolved_server_breaks_listing (now : Time) (key : Z) (name m : string) (db : DB) :
  0 < key → wf db → key_usable PVE key db →
  (∀ i r, rows_of db (Servers PVE) !! i = Some r → sr_APIKeyID r ≠ Some key) →
  (∀ i r, rows_of db (Servers PVE) !! i = Some r → legacy_of name m r = false) →
  ∃ id db', run (ResolvePVEServerForAPIKey now key name m) db = (Ok id, db') ∧
    ListPVEServers db' = Err ErrScanNull ∧
    GetPVEServer id db' = Err ErrScanNull.
Proof.
  intros Hkey Hwf Huse Hfree Hnoleg. unfold ResolvePVEServerForAPIKey.
  rewrite (proj2 (Z.leb_gt key 0)) by done. unfold find_server.
  rewrite run_bind, run_query. destruct (head _) as [id|] eqn:Hf.
  { destruct (find_server_Some _ _ _ _ Hwf Hf) as (r & Hr & [Hk _]%of_key_true).
    by destruct (Hfree id r Hr). }
  pose proof (find_server_None _ _ _ Hf) as Hnone. clear Hf.
  rewrite run_bind, run_query. destruct (head _) as [id|] eqn:Hl.
  { destruct (find_server_Some _ _ _ _ Hwf Hl) as (r & Hr & Hleg).
    by rewrite (Hnoleg id r Hr) in Hleg. }
  clear Hl.
  destruct (run_insert_server PVE (bare_server now name m key) db key) as (db' & Hrun & Hrows);
    [done..|].
  assert (wf db') as Hwf'.
  { pose proof (exec_preserves wf (INSERT (Servers PVE) (bare_server now name m key)) [] db) as Hp.
    unfold run in Hrun. destruct (exec _ _ _) as [[r1 d1] io1]. simpl in *. simplify_eq.
    apply Hp; [|done]. by apply preserves_INSERT. }
  set (id := next_id db (Servers PVE)) in *.
  assert (rows_of db' (Servers PVE) !! id = Some (bare_server now name m key id)) as Hrow.
  { rewrite Hrows. apply lookup_insert_eq. }
  exists id, db'. rewrite run_wrap_err, Hrun. split_and!; [done| |].
  - edestruct (scan_all_err (scan_pve db')) as [He|Hok]; [apply scan_pve_err|exact He|].
    pose proof (proj1 (ListPVEServers_ok db') Hok id _ Hrow eq_refl). done.
  - unfold GetPVEServer, get_server.
    destruct (select_from _ _ _ _) as [|r l] eqn:Hs.
    + assert (bare_server now name m key id ∈ select_from (Servers PVE)
        (λ r, has_id id r && negb (sr_IsDeleted r)) any_order db') as Hin.
      { apply (select_in (Servers PVE) _ _ db' id _ Hrow). unfold has_id. simpl.
        by rewrite Z.eqb_refl. }
      rewrite Hs in Hin. by apply not_elem_of_nil in Hin.
    + assert (r ∈ select_from (Servers PVE)
        (λ r, has_id id r && negb (sr_IsDeleted r)) any_order db') as Hin by (rewrite Hs; left).
      apply (select_out (Servers PVE)) in Hin as (j & Hr & [Hi _]%andb_true_iff). apply Z.eqb_eq in Hi.
      rewrite (wf_row db' (Servers PVE) j r id Hwf' Hr Hi) in Hr.
      by rewrite (row_det _ _ _ _ Hr Hrow).
Qed.

(** *** Every server statement keeps the database well formed *)

Lemma preserves_upsert_server k now name ip publicIP ver m :
  preserves wf (upsert_server k now name ip publicIP ver m).
Proof. unfold upsert_server, find_server. keeps_wf. Qed.

Lemma preserves_upsert_server_for_key k now key name ip publicIP ver m :
  preserves wf (upsert_server_for_key k now key name ip publicIP ver m).
Proof.
  unfold upsert_server_for_key, find_server.
  destruct (key <=? 0); [apply preserves_upsert_server|keeps_wf].
Qed.

Lemma preserves_ResolvePVEServerForAPIKey now key name m :
  preserves wf (ResolvePVEServerForAPIKey now key name m).
Proof. unfold ResolvePVEServerForAPIKey, find_server, fail. keeps_wf. Qed.

Lemma preserves_SetPVEBackupInventory now id b :
  preserves wf (SetPVEBackupInventory now id b).
Proof. unfold SetPVEBackupInventory, fail. keeps_wf. Qed.

Lemma preserves_delete_server k now id : preserves wf (delete_server k now id).
Proof. unfold delete_server. keeps_wf. Qed.
End server_lemmas.

#[export] Hint Resolve preserves_upsert_server preserves_upsert_server_for_key
  preserves_ResolvePVEServerForAPIKey preserves_SetPVEBackupInventory
  preserves_delete_server : probak.

(** ** Examples *)

Module ServerExamples.
(** One server, of key 7. *)
Definition db0 : DB :=
  (run (UpsertPVEServerForAPIKey 0 7 "pve1" "10.0.0.1" "" "1.0" "m1") empty_db).2.

Lemma wf_db0 : wf db0.
Proof. apply wf_run; [apply preserves_upsert_server_for_key|apply wf_empty_db]. Qed.

Lemma db0_rows :
  rows_of db0 (Servers PVE) = {[1 := new_server 0 "pve1" "10.0.0.1" "" "1.0" "m1" (Some 7) 1]}.
Proof. by vm_compute. Qed.

Lemma db0_row i r :
  rows_of db0 (Servers PVE) !! i = Some r →
  i = 1 ∧ r = new_server 0 "pve1" "10.0.0.1" "" "1.0" "m1" (Some 7) 1.
Proof. rewrite db0_rows. by intros [<- <-]%lookup_singleton_Some. Qed.

Lemma db0_usable key : key_usable PVE key db0.
Proof. split; [done|]. by intros i r [-> ->]%db0_row. Qed.
End ServerExamples.

Lemma upsert_touches_own_server_witness :
  0 < 7 ∧ wf ServerExamples.db0 ∧
  always (UpsertPVEServerForAPIKey 5 7 "pve1b" "10.0.0.2" "" "1.1" "m1") (λ r db',
    (∀ t, t ≠ Servers PVE → db' t = ServerExamples.db0 t) ∧
    match r with
    | Ok id => upserted PVE 7 "pve1b" "m1" ServerExamples.db0 id db'
    | Err _ => db' = ServerExamples.db0
    end) ServerExamples.db0.
Proof.
  split; [lia|]. split; [apply ServerExamples.wf_db0|].
  apply (upsert_touches_own_server PVE 5 7); [lia|apply ServerExamples.wf_db0].
Defined.

Lemma upsert_finds_its_server_witness :
  ∃ id db', run (UpsertPVEServerForAPIKey 5 7 "pve1b" "10.0.0.2" "" "1.1" "m1")
    ServerExamples.db0 = (Ok id, db') ∧ id = 1.
Proof.
  destruct (upsert_finds_its_server PVE 5 7 "pve1b" "10.0.0.2" "" "1.1" "m1" ServerExamples.db0)
    as (id & db' & Hrun & Hid);
    [lia|apply ServerExamples.wf_db0|apply ServerExamples.db0_usable|].
  exists id, db'. split; [exact Hrun|].
  apply (Hid 1 (new_server 0 "pve1" "10.0.0.1" "" "1.0" "m1" (Some 7) 1)); [|reflexivity].
  rewrite ServerExamples.db0_rows. apply lookup_singleton_eq.
Defined.

Lemma resolved_server_breaks_listing_witness :
  is_ok (ListPVEServers ServerExamples.db0) = true ∧
  ∃ id db', run (ResolvePVEServerForAPIKey 5 8 "pve2" "m2") ServerExamples.db0 = (Ok id, db') ∧
    ListPVEServers db' = Err ErrScanNull ∧ GetPVEServer id db' = Err ErrScanNull.
Proof.
  split; [vm_compute; reflexivity|].
  apply (resolved_server_breaks_listing 5 8);
    [lia|apply ServerExamples.wf_db0|apply ServerExamples.db0_usable|..];
    by intros i r [-> ->]%ServerExamples.db0_row.
Defined.
