(* ===== verification/Keys.v ===== *)
(** * API keys: [internal/store/apikey.go] and [internal/service/auth.go]

    A key is looked up by its keyed hash or, for rows from before there was a master
    key, by its text; the first machine that uses a key is the only one that may.
    [secrets] is the box of the store, [None] without a master key; nonces, random
    bytes and clocks are arguments. *)
From Stdlib Require Import Ascii.
From S2P Require Import Prelude GoStrings GoNum GoTime Domain Sql SqlText Interleave Secrets Relational Schema Servers.

(** ** Rows *)

Definition machine_of (r : APIKeyRow) : string := default "" (ak_MachineID r).
Definition server_of (r : APIKeyRow) : string := default "" (ak_ServerName r).

Definition set_value (key hash : string) (r : APIKeyRow) : APIKeyRow :=
  {| ak_ID := ak_ID r; ak_Key := key; ak_KeyHash := hash; ak_Name := ak_Name r;
     ak_KeyType := ak_KeyType r; ak_IsActive := ak_IsActive r;
     ak_MachineID := ak_MachineID r; ak_LastUsed := ak_LastUsed r;
     ak_ServerName := ak_ServerName r; ak_ServerURL := ak_ServerURL r;
     ak_CreatedAt := ak_CreatedAt r |}.

Definition set_binding (machineID serverName : option string) (r : APIKeyRow) : APIKeyRow :=
  {| ak_ID := ak_ID r; ak_Key := ak_Key r; ak_KeyHash := ak_KeyHash r; ak_Name := ak_Name r;
     ak_KeyType := ak_KeyType r; ak_IsActive := ak_IsActive r;
     ak_MachineID := machineID; ak_LastUsed := ak_LastUsed r;
     ak_ServerName := serverName; ak_ServerURL := ak_ServerURL r;
     ak_CreatedAt := ak_CreatedAt r |}.

Definition set_usage (active : bool) (lastUsed : option Time) (r : APIKeyRow) : APIKeyRow :=
  {| ak_ID := ak_ID r; ak_Key := ak_Key r; ak_KeyHash := ak_KeyHash r; ak_Name := ak_Name r;
     ak_KeyType := ak_KeyType r; ak_IsActive := active;
     ak_MachineID := ak_MachineID r; ak_LastUsed := lastUsed;
     ak_ServerName := ak_ServerName r; ak_ServerURL := ak_ServerURL r;
     ak_CreatedAt := ak_CreatedAt r |}.

Definition set_labels (name serverName serverURL : string) (r : APIKeyRow) : APIKeyRow :=
  {| ak_ID := ak_ID r; ak_Key := ak_Key r; ak_KeyHash := ak_KeyHash r; ak_Name := name;
     ak_KeyType := ak_KeyType r; ak_IsActive := ak_IsActive r;
     ak_MachineID := ak_MachineID r; ak_LastUsed := ak_LastUsed r;
     ak_ServerName := Some serverName; ak_ServerURL := serverURL;
     ak_CreatedAt := ak_CreatedAt r |}.

Definition is_key (id : Z) (r : APIKeyRow) : bool := ak_ID r =? id.

(** ** Writes *)

Definition apiKeyLastUsedResolution : Z := Minute.

(** Both times are bound values, so they are texts of one format. *)
Definition used_before (limit : Time) (r : APIKeyRow) : bool :=
  match ak_LastUsed r with None => true | Some t => Before t limit end.

Definition UpdateAPIKeyLastUsed (now : Time) (id : Z) : prog DB () :=
  UPDATE ApiKeys (λ r, is_key id r && used_before (now - apiKeyLastUsedResolution) r)
    (λ r, set_usage (ak_IsActive r) (Some now) r) ≫= λ _, mret ().

(** Whether this call bound the key. *)
Definition BindAPIKeyMachineID (id : Z) (machineID : string) : prog DB bool :=
  n ← UPDATE ApiKeys (λ r, is_key id r && str_empty (machine_of r))
        (λ r, set_binding (Some machineID) (ak_ServerName r) r);
  mret (n =? 1).

Definition BindAPIKeyServerName (id : Z) (serverName : string) : prog DB bool :=
  n ← UPDATE ApiKeys (λ r, is_key id r && blank (server_of r))
        (λ r, set_binding (ak_MachineID r) (Some serverName) r);
  mret (n =? 1).

Definition UnbindAPIKeyServer (id : Z) : prog DB () :=
  UPDATE ApiKeys (is_key id) (set_binding (Some "") (Some "")) ≫= λ _, mret ().

Definition ToggleAPIKey (id : Z) : prog DB () :=
  UPDATE ApiKeys (is_key id) (λ r, set_usage (negb (ak_IsActive r)) (ak_LastUsed r) r) ≫= λ _,
  mret ().

(** An empty name is the name of the server. *)
Definition key_label (name serverName : string) : string :=
  if str_empty name then serverName else name.

Definition UpdateAPIKey (id : Z) (name serverName serverURL : string) : prog DB () :=
  let name := TrimSpace name in
  let serverName := TrimSpace serverName in
  let serverURL := TrimSpace serverURL in
  UPDATE ApiKeys (is_key id) (set_labels (key_label name serverName) serverName serverURL)
    ≫= λ _, mret ().

Definition DeleteAPIKey (id : Z) : prog DB () := DELETE ApiKeys (is_key id) ≫= λ _, mret ().

Definition new_key (now : Time) (key hash name serverName serverURL : string) (id : Z) :
    APIKeyRow :=
  {| ak_ID := id; ak_Key := key; ak_KeyHash := hash; ak_Name := name; ak_KeyType := "server";
     ak_IsActive := true; ak_MachineID := None; ak_LastUsed := None;
     ak_ServerName := Some serverName; ak_ServerURL := serverURL;
     ak_CreatedAt := sqliteUTC now |}.

(** [strings.NewReplacer] of the three bytes that [LIKE] reads. *)
Fixpoint likeEscaper (s : string) : string :=
  match s with
  | EmptyString => EmptyString
  | String c s =>
      if (byte c =? 92) || (byte c =? 37) || (byte c =? 95)
      then String "\"%char (String c (likeEscaper s)) else String c (likeEscaper s)
  end.

Definition newest_key (r1 r2 : APIKeyRow) : bool :=
  if ak_CreatedAt r1 =? ak_CreatedAt r2 then ak_ID r2 <=? ak_ID r1
  else ak_CreatedAt r2 <=? ak_CreatedAt r1.

Section apikey.
Context `{!Crypto, !SqlOrder}.
Context (secrets : option Box).

(** ** Reads *)

Definition scanAPIKey (r : APIKeyRow) : result APIKey :=
  key ← match secrets with
        | None => Ok (ak_Key r)
        | Some b =>
            match Decrypt b (ak_Key r) with
            | Ok key => Ok key
            | Err e => Err (ErrWrap ("decrypt API key " +:+ Itoa (ak_ID r)) e)
            end
        end;
  Ok {| key_ID := ak_ID r; key_Key := key; key_Name := ak_Name r; key_KeyType := ak_KeyType r;
        key_IsActive := ak_IsActive r; key_MachineID := machine_of r;
        key_LastUsed := ak_LastUsed r; key_ServerName := server_of r;
        key_ServerURL := ak_ServerURL r; key_CreatedAt := ak_CreatedAt r |}.

(** [QueryRow] and [Scan]; [None] is [sql.ErrNoRows]. *)
Definition find_key (cond : APIKeyRow → bool) : prog DB (option APIKey) :=
  stmt (λ db, match head (select_from ApiKeys cond any_order db) with
              | None => Ok (None, db)
              | Some r => k ← scanAPIKey r; Ok (Some k, db)
              end).

Definition GetAPIKey (id : Z) : prog DB APIKey :=
  k ← find_key (is_key id);
  match k with None => fail ErrNoRows | Some k => mret k end.

Definition protectAPIKeyValue (b : Box) (nonce : result string) (id : Z) (key : string) :
    prog DB () :=
  match Encrypt b nonce key with
  | Err e => fail e
  | Ok encrypted =>
      UPDATE ApiKeys (is_key id) (set_value encrypted (LookupHash b key)) ≫= λ _, mret ()
  end.

(** [key = ? AND key NOT LIKE 'enc:%']. *)
Definition plain_key (key : string) (r : APIKeyRow) : bool :=
  str_eqb (ak_Key r) key && negb (like "enc:%" (ak_Key r)).

Definition hashed_key (b : Box) (key : string) (r : APIKeyRow) : bool :=
  str_eqb (ak_KeyHash r) (LookupHash b key).

Definition GetAPIKeyByValue (nonce : result string) (key : string) : prog DB APIKey :=
  hashed ← match secrets with None => mret None | Some b => find_key (hashed_key b key) end;
  match hashed with
  | Some k => mret k
  | None =>
      if IsEncrypted key then fail ErrNoRows else
      plain ← find_key (plain_key key);
      match plain with
      | None => fail ErrNoRows
      | Some k =>
          match secrets with
          | None => mret k
          | Some b => protectAPIKeyValue b nonce (key_ID k) key ≫= λ _, mret k
          end
      end
  end.

(** [raw] is the answer of [rand.Read]. *)
Definition CreateAPIKey (now : Time) (raw nonce : result string)
    (name serverName serverURL : string) : prog DB APIKey :=
  match raw with
  | Err e => fail e
  | Ok raw =>
      let key := "pbk-" +:+ hex raw in
      let name := TrimSpace name in
      let serverName := TrimSpace serverName in
      let serverURL := TrimSpace serverURL in
      match (match secrets with None => Ok key | Some b => Encrypt b nonce key end) with
      | Err e => fail e
      | Ok storedKey =>
          let keyHash := match secrets with None => "" | Some b => LookupHash b key end in
          id ← INSERT ApiKeys
                 (new_key now storedKey keyHash (key_label name serverName) serverName serverURL);
          GetAPIKey id
      end
  end.

(** [lower] is [strings.ToLower]. *)
Definition key_search (lower : string → string) (query : string) (r : APIKeyRow) : bool :=
  let pattern := String "%"%char (likeEscaper (lower query) +:+ "%") in
  let matches (text : string) := like_escape pattern (sql_lower text) in
  let null_matches (text : option string) :=
    match text with None => false | Some text => matches text end in
  matches (ak_Name r) || null_matches (ak_ServerName r) || null_matches (ak_MachineID r) ||
  matches (ak_ServerURL r) ||
  match secrets with
  | Some b => HasPrefix query "pbk-" && hashed_key b query r
  | None => matches (ak_Key r)
  end ||
  ((str_eqb (lower query) "activa" || str_eqb (lower query) "activo" ||
    str_eqb (lower query) "active") && ak_IsActive r) ||
  ((str_eqb (lower query) "inactiva" || str_eqb (lower query) "inactivo" ||
    str_eqb (lower query) "inactive") && negb (ak_IsActive r)).

Definition ListAPIKeysPage (lower : string → string) (limit offset : Z) (query : string)
    (db : DB) : result (list APIKey) :=
  let offset := if offset <? 0 then 0 else offset in
  let query := TrimSpace query in
  let cond := if str_empty query then λ _, true else key_search lower query in
  let found := select_from ApiKeys cond newest_key db in
  scan_all scanAPIKey (if 0 <? limit then limit_offset limit offset found else found).

Definition ListAPIKeys (lower : string → string) (db : DB) : result (list APIKey) :=
  ListAPIKeysPage lower 0 0 "" db.

(** ** [internal/service/auth.go] *)

Definition ErrInvalidKey : error := ErrMsg "invalid or inactive API key".
Definition ErrKeyType : error := ErrMsg "key type not allowed for this endpoint".
(** [ErrMachineID] with the text after it. *)
Definition ErrMachineID (reason : string) : error :=
  ErrMsg ("machine ID mismatch: " +:+ reason).

Definition with_machine (machineID : string) (k : APIKey) : APIKey :=
  {| key_ID := key_ID k; key_Key := key_Key k; key_Name := key_Name k;
     key_KeyType := key_KeyType k; key_IsActive := key_IsActive k;
     key_MachineID := machineID; key_LastUsed := key_LastUsed k;
     key_ServerName := key_ServerName k; key_ServerURL := key_ServerURL k;
     key_CreatedAt := key_CreatedAt k |}.

(** The binding of a key to a machine, after it was found unbound. *)
Definition bind_machine (k : APIKey) (machineID : string) : prog DB APIKey :=
  bound ← wrap_err "bind machine id" (BindAPIKeyMachineID (key_ID k) machineID);
  if (bound : bool) then mret (with_machine machineID k) else
  andThen (GetAPIKey (key_ID k)) (λ r,
    match r with
    | Err _ => fail ErrInvalidKey
    | Ok current => mret (with_machine (key_MachineID current) k)
    end).

Definition ValidateServerKey (now : Time) (nonce : result string)
    (rawKey machineID : string) : prog DB APIKey :=
  andThen (GetAPIKeyByValue nonce rawKey) (λ r,
    match r with
    | Err _ => fail ErrInvalidKey
    | Ok k =>
        if negb (key_IsActive k) then fail ErrInvalidKey else
        if negb (str_eqb (key_KeyType k) "server") then fail ErrKeyType else
        if str_empty machineID then fail (ErrMachineID "missing X-Machine-ID") else
        k ← (if str_empty (key_MachineID k) then bind_machine k machineID else mret k);
        if negb (str_eqb (key_MachineID k) machineID)
        then fail (ErrMachineID "key bound to different machine") else
        andThen (UpdateAPIKeyLastUsed now (key_ID k)) (λ _, mret k)
    end).
End apikey.

(** [strings.CutPrefix] and [TrimSpace]. *)
Definition ExtractBearer (header : string) : string :=
  if HasPrefix header "Bearer " then TrimSpace (str_drop 7 header) else TrimSpace header.

(** ** What concurrent requests leave alone *)

(** A row that is bound to a machine, or to a server name, stays so. *)
Definition keeps (r r' : APIKeyRow) : Prop :=
  (machine_of r ≠ "" → machine_of r' = machine_of r) ∧
  (blank (server_of r) = false → server_of r' = server_of r).

Definition key_order (db db' : DB) : Prop :=
  wf db → wf db' ∧ ∀ id r, rows_of db ApiKeys !! id = Some r →
    ∃ r', rows_of db' ApiKeys !! id = Some r' ∧ keeps r r'.

#[export] Instance key_order_PreOrder : PreOrder key_order.
Proof.
  split.
  - intros db Hwf. split; [done|]. intros id r Hr. by exists r.
  - intros db1 db2 db3 H12 H23 Hwf. destruct (H12 Hwf) as [Hwf2 H1].
    destruct (H23 Hwf2) as [Hwf3 H2]. split; [done|]. intros id r1 Hr1.
    destruct (H1 id r1 Hr1) as (r2 & Hr2 & Hm & Hs).
    destruct (H2 id r2 Hr2) as (r3 & Hr3 & Hm' & Hs'). exists r3. split; [done|]. split.
    + intros Hne. rewrite <-(Hm Hne). apply Hm'. by rewrite Hm.
    + intros Hb. rewrite <-(Hs Hb). apply Hs'. by rewrite Hs.
Qed.

Lemma key_order_update cond f db n db' :
  (∀ r, ak_ID (f r) = ak_ID r) → (∀ r, cond r = true → keeps r (f r)) →
  update_stmt ApiKeys cond f db = Ok (n, db') → key_order db db'.
Proof.
  intros Hid Hk Hu Hwf. split; [by eapply (wf_update_stmt ApiKeys cond f)|].
  apply update_stmt_Ok in Hu as (_ & -> & _). intros id r Hr.
  exists (if cond r then f r else r). split.
  { rewrite (rows_put_eq ApiKeys), (lookup_updated ApiKeys). apply fmap_Some. by exists r. }
  destruct (cond r) eqn:Hc; [by apply Hk|]. by split.
Qed.

(** What was read of a key still holds, as far as it was bound. *)
Definition consistent (k : APIKey) (db : DB) : Prop :=
  ∃ r, rows_of db ApiKeys !! key_ID k = Some r ∧
    (key_MachineID k ≠ "" → machine_of r = key_MachineID k) ∧
    (blank (key_ServerName k) = false → server_of r = key_ServerName k).

Lemma consistent_later k db db' :
  wf db → key_order db db' → consistent k db → consistent k db'.
Proof.
  intros Hwf [_ Hkeep]%(λ H, H Hwf) (r & Hr & Hm & Hs).
  destruct (Hkeep _ _ Hr) as (r' & Hr' & Hm' & Hs'). exists r'. split; [done|]. split.
  - intros Hne. rewrite Hm'; rewrite Hm by done; done.
  - intros Hb. rewrite Hs'; rewrite Hs by done; done.
Qed.

Lemma key_order_wf db db' : key_order db db' → wf db → wf db'.
Proof. intros H Hwf. by apply H. Qed.

Section concurrent.
Context `{!Crypto, !SqlOrder}.
Context (secrets : option Box).

Lemma scanAPIKey_Ok r k :
  scanAPIKey secrets r = Ok k →
  key_ID k = ak_ID r ∧ key_MachineID k = machine_of r ∧ key_ServerName k = server_of r ∧
  key_IsActive k = ak_IsActive r ∧ key_KeyType k = ak_KeyType r.
Proof. unfold scanAPIKey. rewrite result_bind_Ok. by intros (key & _ & [= <-]). Qed.

Lemma find_key_Ok cond db k db' :
  (match head (select_from ApiKeys cond any_order db) with
   | None => Ok (None, db)
   | Some r => k ← scanAPIKey secrets r; Ok (Some k, db)
   end) = Ok (Some k, db') →
  db' = db ∧ ∃ id r, rows_of db ApiKeys !! id = Some r ∧ cond r = true ∧
    scanAPIKey secrets r = Ok k.
Proof.
  pose proof (select_out ApiKeys cond any_order db) as Hout.
  destruct (select_from ApiKeys cond any_order db) as [|r l]; [done|]. cbn [head].
  rewrite result_bind_Ok. intros (k' & Hk & [= -> ->]). split; [done|].
  destruct (Hout r) as (id & Hr & Hc); [left|]. eauto.
Qed.

Lemma consistent_read db id r k :
  wf db → rows_of db ApiKeys !! id = Some r → scanAPIKey secrets r = Ok k → consistent k db.
Proof.
  intros Hwf Hr (Hi & Hm & Hs & _)%scanAPIKey_Ok. exists r.
  destruct (wf_ids _ Hwf ApiKeys _ _ Hr) as [He _]. cbn [rowid probakgo_schema tbl_rowid] in He.
  rewrite Hi, He. by rewrite Hm, Hs.
Qed.

Lemma guar_find_key cond t :
  wf t →
  guar key_order (find_key secrets cond) (λ r u,
    match r with Ok (Some k) => consistent k u ∧ ∃ x, cond x = true ∧ scanAPIKey secrets x = Ok k
    | _ => True end) t.
Proof.
  intros Hwf. apply guar_stmt; [apply _| |done]. intros s Hs.
  pose proof (key_order_wf _ _ Hs Hwf) as Hwfs.
  destruct (match head _ with Some _ => _ | None => _ end) as [[[k|] s']|e] eqn:Hf; [| |done].
  - apply find_key_Ok in Hf as (-> & id & r & Hr & Hc & Hk). split; [reflexivity|].
    intros u Hu. split; [|eauto]. eapply consistent_later; [done|done|]. by eapply consistent_read.
  - assert (s' = s) as ->; [|by split; [reflexivity|]].
    destruct (head _) as [r|]; [|by injection Hf].
    apply result_bind_Ok in Hf as (k & _ & Hk). done.
Qed.

Lemma guar_GetAPIKey id t :
  wf t →
  guar key_order (GetAPIKey secrets id) (λ r u,
    match r with Ok k => consistent k u ∧ key_ID k = id | Err _ => True end) t.
Proof.
  intros Hwf. eapply guar_bind with (Q' := λ o u, match o with
    | Some k => consistent k u ∧ ∃ x, is_key id x = true ∧ scanAPIKey secrets x = Ok k
    | None => True end); [apply _| |].
  - eapply guar_weaken; [apply _|by apply guar_find_key|]. by intros [k|e] u Hu.
  - intros [k|] s Hs Hk; [|by intros u Hu]. apply guar_Ret. intros u Hu. destruct Hk as (Hc & x & Hx & Hk).
    split; [eapply consistent_later; [exact (key_order_wf _ _ Hs Hwf)|done|done]|].
    apply scanAPIKey_Ok in Hk as (-> & _). by apply Z.eqb_eq in Hx.
Qed.

Lemma guar_protect b nonce id key t :
  guar key_order (protectAPIKeyValue b nonce id key) (λ _ _, True) t.
Proof.
  unfold protectAPIKeyValue. destruct (Encrypt b nonce key) as [c|e]; [|by intros u Hu].
  apply respects_bind; [apply _| |done]. apply respects_stmt; [apply _|]. intros s n s'.
  apply key_order_update; [done|]. by intros r _.
Qed.

Lemma guar_GetAPIKeyByValue nonce key t :
  wf t →
  guar key_order (GetAPIKeyByValue secrets nonce key) (λ r u,
    match r with Ok k => consistent k u | Err _ => True end) t.
Proof.
  intros Hwf. eapply guar_bind with (Q' := λ o u, match o with Some k => consistent k u | _ => True end);
    [apply _| |].
  - destruct secrets as [b|] eqn:He; [|by intros s Hs].
    rewrite <-He. eapply guar_weaken; [apply _|by apply guar_find_key|].
    intros [[k|]|e] u Hu; [|done|done]. by intros [? _].
  - intros [k|] s Hs Hk.
    { apply guar_Ret. intros u Hu. eapply consistent_later; [exact (key_order_wf _ _ Hs Hwf)|done|done]. }
    pose proof (key_order_wf _ _ Hs Hwf) as Hwfs.
    destruct (IsEncrypted key); [by intros u Hu|].
    eapply guar_bind with (Q' := λ o u, match o with Some k => consistent k u | _ => True end);
      [apply _| |].
    + eapply guar_weaken; [apply _|by apply guar_find_key|].
      intros [[k|]|e] u Hu; [|done|done]. by intros [? _].
    + intros [k|] s' Hs' Hk'; [|by intros u Hu].
      pose proof (key_order_wf _ _ Hs' Hwfs) as Hwfs'.
      assert (∀ u, key_order s' u → consistent k u) as Hlater
        by (intros u Hu; by eapply consistent_later).
      destruct secrets as [b|]; [|intros u Hu; by apply Hlater].
      eapply guar_bind with (Q' := λ _ _, True); [apply _| |].
      * eapply guar_weaken; [apply _|apply guar_protect|]. by intros [].
      * intros _ s'' Hs'' _. apply guar_Ret. intros u Hu. apply Hlater. by transitivity s''.
Qed.
Lemma length_1_elem {A} (l : list A) : Z.of_nat (length l) = 1 → ∃ x, x ∈ l.
Proof. destruct l as [|x l]; [done|]. exists x. left. Qed.

(** The one row that an update of a key can change. *)
Lemma update_key_row cond f db n db' id :
  wf db → update_stmt ApiKeys (λ r, is_key id r && cond r) f db = Ok (n, db') → n = 1 →
  ∃ r, rows_of db ApiKeys !! id = Some r ∧ cond r = true ∧
    rows_of db' ApiKeys !! id = Some (f r).
Proof.
  intros Hwf (_ & -> & ->)%(update_stmt_Ok ApiKeys) Hn.
  apply length_1_elem in Hn as ([k r] & Hkr).
  apply (touched_spec ApiKeys (λ r, is_key id r && cond r)) in Hkr as [Hr [Hi Hc]%andb_true_iff].
  apply Z.eqb_eq in Hi. destruct (wf_ids _ Hwf ApiKeys _ _ Hr) as [He _].
  cbn [rowid probakgo_schema tbl_rowid] in He. assert (k = id) as -> by congruence.
  exists r. split_and!; [done|done|]. rewrite (rows_put_eq ApiKeys), (lookup_updated ApiKeys).
  apply fmap_Some. exists r. split; [done|]. unfold is_key. by rewrite Hi, Z.eqb_refl, Hc.
Qed.

Lemma keeps_machine m r : machine_of r = "" → keeps r (set_binding m (ak_ServerName r) r).
Proof. intros Hm. split; [by rewrite Hm|done]. Qed.

Lemma keeps_server s r : blank (server_of r) = true → keeps r (set_binding (ak_MachineID r) s r).
Proof. intros Hs. split; [done|by rewrite Hs]. Qed.

Lemma guar_BindAPIKeyMachineID k m t :
  wf t → consistent k t → m ≠ "" →
  guar key_order (BindAPIKeyMachineID (key_ID k) m) (λ r u,
    match r with Ok true => consistent (with_machine m k) u | _ => True end) t.
Proof.
  intros Hwf Hk Hm. unfold BindAPIKeyMachineID.
  eapply guar_bind with (Q' := λ n u, n = 1 → consistent (with_machine m k) u); [apply _| |].
  - apply guar_stmt; [apply _| |done]. intros s Hs.
    pose proof (key_order_wf _ _ Hs Hwf) as Hwfs.
    destruct (update_stmt _ _ _ s) as [[n s']|e] eqn:Hu; [|done].
    assert (key_order s s') as Hss'.
    { eapply key_order_update; [|  |exact Hu]; [done|].
      intros r [_ He%bool_decide_eq_true]%andb_true_iff. by apply keeps_machine. }
    split; [done|]. intros u Hsu ->.
    eapply consistent_later; [by apply Hss'|exact Hsu|].
    pose proof (consistent_later _ _ _ Hwf Hs Hk) as (r0 & Hr0 & _ & Hserv).
    apply update_key_row in Hu as (r & Hr & He & Hr'); [|done|done].
    assert (r0 = r) as -> by (by eapply row_det).
    eexists. split; [exact Hr'|]. cbn. split; [done|exact Hserv].
  - intros n s Hs HQ. apply guar_Ret. intros u Hu. destruct (Z.eqb_spec n 1) as [Hn|]; [|done].
    eapply consistent_later; [exact (key_order_wf _ _ Hs Hwf)|done|]. by apply HQ.
Qed.

Lemma guar_bind_machine k m t :
  wf t → consistent k t → m ≠ "" →
  guar key_order (bind_machine secrets k m) (λ r u,
    match r with
    | Ok k' => consistent k' u ∧ key_ID k' = key_ID k ∧ key_ServerName k' = key_ServerName k
    | Err _ => True end) t.
Proof.
  intros Hwf Hk Hm. unfold bind_machine.
  eapply guar_bind with (Q' := λ b u, if b : bool then consistent (with_machine m k) u else True);
    [apply _| |].
  - apply guar_wrap_err; [apply _|]. eapply guar_weaken; [apply _|by apply guar_BindAPIKeyMachineID|].
    intros [[]|e] u Hu; [|done|done]. intros Hc v Hv.
    eapply consistent_later; [exact (key_order_wf _ _ Hu Hwf)|done|done].
  - intros [] s Hs Hb; pose proof (key_order_wf _ _ Hs Hwf) as Hwfs.
    + apply guar_Ret. intros u Hu. split_and!; [|done|done]. by eapply consistent_later.
    + eapply guar_andThen; [apply _|by apply guar_GetAPIKey|]. intros [cur|e] s' Hs' Hcur; [|by intros u Hu].
      apply guar_Ret. intros u Hu. split_and!; [|done|done].
      eapply consistent_later; [exact (key_order_wf _ _ Hs' Hwfs)|exact Hu|].
      pose proof (consistent_later _ _ _ Hwfs Hs' (consistent_later _ _ _ Hwf Hs Hk))
        as (r0 & Hr0 & _ & Hserv).
      destruct Hcur as [(r & Hr & Hmach & _) Hid]. rewrite Hid in Hr.
      assert (r0 = r) as -> by (by eapply row_det). by exists r.
Qed.

Lemma guar_UpdateAPIKeyLastUsed now id t :
  guar key_order (UpdateAPIKeyLastUsed now id) (λ _ _, True) t.
Proof.
  apply respects_bind; [apply _| |intros ? ?; done]. apply respects_stmt; [apply _|].
  intros s n s'. apply key_order_update; [done|]. by intros r _.
Qed.

Lemma guar_ValidateServerKey now nonce rawKey m t :
  wf t →
  guar key_order (ValidateServerKey secrets now nonce rawKey m) (λ r u,
    match r with
    | Ok k => consistent k u ∧ key_MachineID k = m ∧ m ≠ ""
    | Err _ => True end) t.
Proof.
  intros Hwf. unfold ValidateServerKey.
  eapply guar_andThen; [apply _|by apply guar_GetAPIKeyByValue|].
  intros [k|e] s Hs Hk; [|by intros u Hu]. pose proof (key_order_wf _ _ Hs Hwf) as Hwfs.
  destruct (negb (key_IsActive k)); [by intros u Hu|].
  destruct (negb (str_eqb _ _)); [by intros u Hu|].
  unfold str_empty at 1. case_bool_decide as Hm; [by intros u Hu|].
  eapply guar_bind with (Q' := λ k' u, consistent k' u); [apply _| |].
  - destruct (str_empty (key_MachineID k)).
    + eapply guar_weaken; [apply _|by apply guar_bind_machine|]. intros [k'|e] u Hu; [|done].
      by intros [? _].
    + intros u Hu. by eapply consistent_later.
  - intros k' s' Hs' Hk'. pose proof (key_order_wf _ _ Hs' Hwfs) as Hwfs'.
    destruct (str_eqb (key_MachineID k') m) eqn:He; [|by intros u Hu]. apply str_eqb_eq in He.
    eapply guar_andThen; [apply _|apply guar_UpdateAPIKeyLastUsed|]. intros _ s'' Hs'' _.
    apply guar_Ret. intros u Hu. split_and!; [|done|done].
    eapply consistent_later; [exact Hwfs'|by transitivity s''|done].
Qed.
End concurrent.

(** ** What a request with a key does when it runs alone *)

(** What decides about a key: its machine, its server name, whether it is active, and
    its type. *)
Definition auth_of (r : APIKeyRow) : string * string * bool * string :=
  (machine_of r, server_of r, ak_IsActive r, ak_KeyType r).

Definition auths (db : DB) : gmap Z (string * string * bool * string) :=
  auth_of <$> (rows_of db ApiKeys : gmap Z APIKeyRow).

Definition only_keys (db db' : DB) : Prop := ∀ t, t ≠ ApiKeys → db' t = db t.

Lemma lookup_auths db id r :
  rows_of db ApiKeys !! id = Some r → auths db !! id = Some (auth_of r).
Proof. intros Hr. apply lookup_fmap_Some. eauto. Qed.

Lemma update_only_keys cond f db n db' :
  update_stmt ApiKeys cond f db = Ok (n, db') → only_keys db db'.
Proof. intros (_ & -> & _)%(update_stmt_Ok ApiKeys) t Ht. by rewrite put_ne. Qed.

Lemma update_auths cond f db n db' :
  (∀ r, cond r = true → auth_of (f r) = auth_of r) →
  update_stmt ApiKeys cond f db = Ok (n, db') → auths db' = auths db ∧ only_keys db db'.
Proof.
  intros Hf Hu. split; [|by eapply update_only_keys].
  apply (update_stmt_Ok ApiKeys) in Hu as (_ & -> & _). unfold auths. rewrite (rows_put_eq ApiKeys).
  apply map_eq. intros id. rewrite !lookup_fmap.
  pose proof (lookup_updated ApiKeys cond f db id) as Hl. cbn [Row probakgo_schema tbl_row] in *.
  rewrite Hl, <-option_fmap_compose. apply option_fmap_ext. intros r. simpl.
  destruct (cond r) eqn:Hc; [by apply Hf|done].
Qed.

Lemma single {A} (l : list A) x : NoDup l → x ∈ l → (∀ y, y ∈ l → y = x) → length l = 1%nat.
Proof.
  intros Hnd Hx Hu. destruct l as [|y l]; [by apply not_elem_of_nil in Hx|].
  destruct l as [|z l]; [done|]. exfalso. apply NoDup_cons in Hnd as [Hn _]. apply Hn.
  rewrite (Hu y), <-(Hu z); [left|right; left|left].
Qed.

Lemma key_row db id k r :
  wf db → rows_of db ApiKeys !! k = Some r → is_key id r = true ↔ k = id.
Proof.
  intros Hwf Hr. destruct (wf_ids _ Hwf ApiKeys _ _ Hr) as [He _].
  cbn [rowid probakgo_schema tbl_rowid] in He. unfold is_key. by rewrite Z.eqb_eq, He.
Qed.

(** What a bind does: it changes the row of the key, if that fits the condition. *)
Lemma update_auths_at cond f db n db' id :
  wf db → update_stmt ApiKeys (λ r, is_key id r && cond r) f db = Ok (n, db') →
  only_keys db db' ∧
  ((n = 1 ∧ ∃ r, rows_of db ApiKeys !! id = Some r ∧ cond r = true ∧
    auths db' = <[id := auth_of (f r)]> (auths db)) ∨
   (n = 0 ∧ auths db' = auths db ∧ ∀ r, rows_of db ApiKeys !! id = Some r → cond r = false)).
Proof.
  intros Hwf Hu. split; [by eapply update_only_keys|].
  apply (update_stmt_Ok ApiKeys) in Hu as (_ & -> & Hn).
  pose proof (λ k r, touched_spec ApiKeys (λ r, is_key id r && cond r) db k r) as Hts.
  assert (NoDup (List.filter (λ kr : Z * APIKeyRow, is_key id kr.2 && cond kr.2)
    (map_to_list (rows_of db ApiKeys)))) as Hnd by (apply NoDup_filter_bool, NoDup_map_to_list).
  set (l := List.filter _ _) in Hnd.
  assert (∀ k r, (k, r) ∈ l ↔ rows_of db ApiKeys !! k = Some r ∧ is_key id r && cond r = true)
    as Hl by exact Hts. clear Hts.
  assert (n = Z.of_nat (length l)) as -> by exact Hn. clear Hn. clearbody l.
  assert (∀ k, auths (put ApiKeys {| rows := updated ApiKeys (λ r, is_key id r && cond r) f db;
      last_id := last_id (db ApiKeys) |} db) !! k =
    (λ r, auth_of (if is_key id r && cond r then f r else r)) <$>
      (rows_of db ApiKeys : gmap Z APIKeyRow) !! k) as Ha.
  { intros k. unfold auths. rewrite (rows_put_eq ApiKeys), lookup_fmap.
    pose proof (lookup_updated ApiKeys (λ r, is_key id r && cond r) f db k) as Hk.
    cbn [Row probakgo_schema tbl_row] in *. by rewrite Hk, <-option_fmap_compose. }
  destruct l as [|[k r] l'] eqn:El.
  - right. split_and!; [done| |]; last first.
    { intros r Hr. apply not_true_iff_false. intros Hc. destruct (not_elem_of_nil (id, r)).
      apply Hl. split; [done|]. by rewrite (proj2 (key_row db id id r Hwf Hr) eq_refl), Hc. }
    apply map_eq. intros k. rewrite Ha. unfold auths. rewrite lookup_fmap.
    destruct ((rows_of db ApiKeys : gmap Z APIKeyRow) !! k) as [r|] eqn:Hr; [|done]. simpl.
    destruct (is_key id r && cond r) eqn:Hc; [|done].
    destruct (not_elem_of_nil (k, r)). by apply Hl.
  - left. destruct (proj1 (Hl k r)) as [Hr [Hi Hc]%andb_true_iff]; [left|].
    pose proof (proj1 (key_row db id k r Hwf Hr) Hi) as ->. split.
    + assert (length ((id, r) :: l') = 1%nat) as ->; [|done].
      apply (single _ (id, r)); [exact Hnd|left|].
      intros [k2 r2] [Hr2 [Hi2 _]%andb_true_iff]%Hl.
      pose proof (proj1 (key_row db id k2 r2 Hwf Hr2) Hi2) as ->. f_equal. by eapply row_det.
    + exists r. split_and!; [done|done|]. apply map_eq. intros k. rewrite Ha.
      destruct (decide (k = id)) as [->|Hne].
      * rewrite lookup_insert_eq. apply fmap_Some. exists r. split; [done|]. by rewrite Hi, Hc.
      * rewrite lookup_insert_ne by done. unfold auths. rewrite lookup_fmap.
        destruct ((rows_of db ApiKeys : gmap Z APIKeyRow) !! k) as [r2|] eqn:Hr2; [|done]. simpl.
        destruct (is_key id r2) eqn:Hi2; [|done].
        by apply (key_row db id k r2 Hwf Hr2) in Hi2.
Qed.

Section alone.
Context `{!Crypto, !SqlOrder}.
Context (secrets : option Box).

(** The text [rawKey] is the key of the row: its keyed hash is the stored one, or it is
    the stored text itself. *)
Definition presents (rawKey : string) (r : APIKeyRow) : Prop :=
  (∃ b, secrets = Some b ∧ ak_KeyHash r = LookupHash b rawKey) ∨
  (IsEncrypted rawKey = false ∧ ak_Key r = rawKey).

End alone.

(** The row that was read. *)
Definition read_from (cond : APIKeyRow → Prop) (db : DB) (k : APIKey) : Prop :=
  ∃ r, rows_of db ApiKeys !! key_ID k = Some r ∧ cond r ∧
    key_MachineID k = machine_of r ∧ key_ServerName k = server_of r ∧
    key_IsActive k = ak_IsActive r ∧ key_KeyType k = ak_KeyType r.

Section alone.
Context `{!Crypto, !SqlOrder}.
Context (secrets : option Box).

Lemma find_key_always cond db :
  wf db →
  always (find_key secrets cond) (λ r db', db' = db ∧
    match r with Ok (Some k) => read_from (λ x, cond x = true) db k | _ => True end) db.
Proof.
  intros Hwf. apply always_stmt; [done|]. intros [k|] db' Hf.
  - apply find_key_Ok in Hf as (-> & id & r & Hr & Hc & Hk). split; [done|]. exists r.
    pose proof (proj1 (wf_ids _ Hwf ApiKeys _ _ Hr)) as He.
    cbn [rowid probakgo_schema tbl_rowid] in He.
    apply scanAPIKey_Ok in Hk as (-> & ? & ? & ? & ?). by rewrite He.
  - split; [|done]. destruct (head _) as [r|]; [|by injection Hf].
    apply result_bind_Ok in Hf as (k & _ & Hk). done.
Qed.

Lemma GetAPIKey_always id db :
  wf db →
  always (GetAPIKey secrets id) (λ r db', db' = db ∧
    match r with Ok k => key_ID k = id ∧ read_from (λ _, True) db k | _ => True end) db.
Proof.
  intros Hwf. apply always_bind. eapply always_mono; [by apply find_key_always|].
  intros [[k|]|e] db' [-> Hk]; [|by apply always_Ret|done].
  apply always_Ret. split; [done|]. destruct Hk as (r & Hr & Hi & Hrest). split.
  - by apply (key_row db id _ r Hwf Hr) in Hi.
  - by exists r.
Qed.

(** An update that leaves alone what decides about a key. *)
Lemma harmless_update cond f db (Q : result () → DB → Prop) :
  wf db → (∀ r, ak_ID (f r) = ak_ID r) → (∀ r, cond r = true → auth_of (f r) = auth_of r) →
  (∀ e, Q (Err e) db) →
  (∀ db', wf db' → auths db' = auths db → only_keys db db' → Q (Ok ()) db') →
  always (UPDATE ApiKeys cond f ≫= λ _, mret ()) Q db.
Proof.
  intros Hwf Hid Hf He Ho. apply always_bind, always_stmt; [done|]. intros n db' Hu.
  apply always_Ret. destruct (update_auths cond f db n db' Hf Hu). apply Ho; [|done|done].
  by eapply (wf_update_stmt ApiKeys cond f).
Qed.

Definition harmless (db db' : DB) : Prop := wf db' ∧ auths db' = auths db ∧ only_keys db db'.

Lemma protect_always b nonce id key db :
  wf db → always (protectAPIKeyValue b nonce id key) (λ _ db', harmless db db') db.
Proof.
  intros Hwf. unfold protectAPIKeyValue.
  destruct (Encrypt b nonce key) as [c|e]; [|by apply always_Ret].
  by apply harmless_update.
Qed.

Lemma UpdateAPIKeyLastUsed_always now id db :
  wf db → always (UpdateAPIKeyLastUsed now id) (λ _ db', harmless db db') db.
Proof. intros Hwf. by apply harmless_update. Qed.

Lemma GetAPIKeyByValue_always nonce key db :
  wf db →
  always (GetAPIKeyByValue secrets nonce key) (λ r db', harmless db db' ∧
    match r with Ok k => read_from (presents secrets key) db k | _ => True end) db.
Proof.
  intros Hwf. apply always_bind.
  apply (always_mono _ (λ r db', db' = db ∧
    match r with Ok (Some k) => read_from (presents secrets key) db k | _ => True end)).
  { destruct secrets as [b|] eqn:Hs; [|by apply always_Ret]. rewrite <-Hs.
    eapply always_mono; [by apply find_key_always|]. intros [[k|]|e] db' [-> Hk]; try done.
    split; [done|]. destruct Hk as (r & Hr & Hh%str_eqb_eq & Hrest). exists r.
    split_and!; try apply Hrest; [done|]. left. by exists b. }
  intros [[k|]|e] db' [-> Hk]; [by apply always_Ret| |done].
  destruct (IsEncrypted key) eqn:He; [by apply always_Ret|].
  apply always_bind. eapply always_mono; [by apply find_key_always|].
  intros [[k|]|e] db' [-> Hk']; [|by apply always_Ret|done].
  assert (read_from (presents secrets key) db k) as Hread.
  { destruct Hk' as (r & Hr & [Hk'%str_eqb_eq _]%andb_true_iff & Hrest). exists r.
    split_and!; try apply Hrest; [done|]. by right. }
  destruct secrets as [b|]; [|by apply always_Ret].
  apply always_bind. eapply always_mono; [by apply protect_always|].
  intros [[]|e] db' Hp; [by apply always_Ret|done].
Qed.

Lemma bind_machine_always k m db m0 s act ty :
  wf db → auths db !! key_ID k = Some (m0, s, act, ty) →
  always (bind_machine secrets k m) (λ r db', wf db' ∧ only_keys db db' ∧
    match r with
    | Ok k' => key_ID k' = key_ID k ∧ key_ServerName k' = key_ServerName k ∧
        ((m0 = "" ∧ key_MachineID k' = m ∧ auths db' = <[key_ID k := (m, s, act, ty)]> (auths db)) ∨
         (key_MachineID k' = m0 ∧ auths db' = auths db))
    | Err _ => auths db' = auths db
    end) db.
Proof.
  intros Hwf Ha. unfold bind_machine.
  apply always_bind, always_wrap_err, always_bind, always_stmt; [done|]. intros n db' Hu.
  apply always_Ret.
  assert (wf db') as Hwf' by (by eapply (wf_update_stmt ApiKeys); [|exact Hwf|exact Hu]).
  apply update_auths_at in Hu as [Hok [(-> & r & Hr & Hm%bool_decide_eq_true & Hau)|(-> & Hau & _)]];
    [| |done].
  - apply always_Ret. split_and!; [done|done|done|done|]. left.
    rewrite (lookup_auths _ _ _ Hr) in Ha. injection Ha as <- <- <- <-. by split_and!.
  - apply always_andThen. eapply always_mono; [by apply GetAPIKey_always|].
    intros [cur|e] db2 [-> Hc]; apply always_Ret; [|done]. split_and!; [done..|]. right.
    split; [|done]. destruct Hc as (Hi & r & Hr & _ & Hmach & _). cbn [with_machine key_MachineID].
    apply lookup_auths in Hr. rewrite Hau, Hi, Ha in Hr. injection Hr as -> _ _ _. done.
Qed.

(** C24: a key is accepted only if it is that of a row, active, of the type for servers,
    and not bound to another machine than the one that asks; what is stored encrypted
    is not a key.  The call binds that one row to the machine and changes nothing else
    that decides about a key; a call that is refused, or that fails at any statement,
    changes nothing of that kind at all. *)
Theorem ValidateServerKey_spec (now : Time) (nonce : result string) (rawKey machineID : string)
    (db : DB) :
  wf db →
  always (ValidateServerKey secrets now nonce rawKey machineID) (λ r db', only_keys db db' ∧
    match r with
    | Ok k => ∃ row, rows_of db ApiKeys !! key_ID k = Some row ∧ presents secrets rawKey row ∧
        ak_IsActive row = true ∧ ak_KeyType row = "server" ∧ machineID ≠ "" ∧
        (machine_of row = "" ∨ machine_of row = machineID) ∧ key_MachineID k = machineID ∧
        key_ServerName k = server_of row ∧
        auths db' = <[key_ID k := (machineID, server_of row, true, "server")]> (auths db)
    | Err _ => auths db' = auths db
    end) db.
Proof.
  intros Hwf. unfold ValidateServerKey. apply always_andThen.
  eapply always_mono; [by apply GetAPIKeyByValue_always|].
  intros [k|e] db1 [(Hwf1 & Ha1 & Ho1) Hk]; [|by apply always_Ret].
  destruct Hk as (row & Hr & Hpres & Hm & Hs & Hact & Hty).
  pose proof (lookup_auths _ _ _ Hr) as Har.
  destruct (key_IsActive k) eqn:Hact'; [|by apply always_Ret].
  destruct (str_eqb (key_KeyType k) "server") eqn:Hty'; [|by apply always_Ret].
  unfold str_empty at 1. case_bool_decide as Hne; [by apply always_Ret|]. cbn [negb].
  apply str_eqb_eq in Hty'.
  assert (auths db1 !! key_ID k = Some (machine_of row, server_of row, true, "server")) as Har1
    by (rewrite Ha1, Har; unfold auth_of; congruence).
  apply always_bind.
  apply (always_mono _ (λ r db2, wf db2 ∧ only_keys db1 db2 ∧
    match r with
    | Ok k' => key_ID k' = key_ID k ∧ key_ServerName k' = key_ServerName k ∧
        ((machine_of row = "" ∧ key_MachineID k' = machineID ∧
          auths db2 = <[key_ID k := (machineID, server_of row, true, "server")]> (auths db1)) ∨
         (key_MachineID k' = machine_of row ∧ auths db2 = auths db1))
    | Err _ => auths db2 = auths db1 end)).
  { destruct (str_empty (key_MachineID k)); [by apply bind_machine_always|].
    apply always_Ret. split_and!; [done|done|done|done|]. by right. }
  intros [k'|e] db2 (Hwf2 & Ho2 & Hk'); [|split; [intros t Ht; by rewrite Ho2, Ho1|congruence]].
  destruct Hk' as (Hid & Hserv & Hcase).
  assert (only_keys db db2) as Ho by (intros t Ht; by rewrite Ho2, Ho1).
  destruct (str_eqb (key_MachineID k') machineID) eqn:Hm'; cbn [negb].
  - apply str_eqb_eq in Hm'. apply always_andThen.
    eapply always_mono; [by apply UpdateAPIKeyLastUsed_always|].
    intros r db3 (Hwf3 & Ha3 & Ho3). apply always_Ret.
    split; [intros t Ht; by rewrite Ho3, Ho|]. exists row. rewrite Hid, Hserv, Ha3.
    destruct Hcase as [(He & _ & Ha2)|[He Ha2]].
    + split_and!; [done|done|congruence|congruence|done|by left|done|done|]. by rewrite Ha2, Ha1.
    + rewrite Hm' in He. split_and!; [done|done|congruence|congruence|done|by right|done|done|].
      rewrite Ha2, Ha1. symmetry. apply insert_id. rewrite Har. unfold auth_of. congruence.
  - apply always_Ret. split; [done|]. destruct Hcase as [(_ & He & _)|[_ Ha2]]; [|congruence].
    rewrite He in Hm'. by rewrite (proj2 (str_eqb_eq _ _) eq_refl) in Hm'.
Qed.
End alone.

(** ** A new key *)

Section creation.
Context `{!Crypto, !SqlOrder}.
Context (secrets : option Box).

(** An update that keeps the value of every key violates no index. *)
Lemma quiet_update cond f db :
  wf db → (∀ r, ak_Key (f r) = ak_Key r ∧ ak_KeyHash (f r) = ak_KeyHash r) →
  ∃ n db', update_stmt ApiKeys cond f db = Ok (n, db').
Proof.
  intros Hwf Hf. do 2 eexists. apply (update_stmt_intro ApiKeys). intros k r Hr Hc.
  split; [|done]. apply (clashes_false ApiKeys). intros k' r' Hne Hr'.
  rewrite (lookup_updated ApiKeys) in Hr'. apply fmap_Some in Hr' as (r0 & Hr0 & ->).
  pose proof (wf_unique _ Hwf ApiKeys k k' r r0 (not_eq_sym Hne) Hr Hr0) as Hcl.
  cbn [clash probakgo_schema tbl_clash] in *. destruct (Hf r) as [-> ->].
  destruct (Hf r0) as [H1 H2]. destruct (cond r0); [by rewrite H1, H2|done].
Qed.

Lemma run_bind_machine k m db id row :
  wf db → rows_of db ApiKeys !! id = Some row → key_ID k = id → machine_of row = "" →
  ∃ db', run (bind_machine secrets k m) db = (Ok (with_machine m k), db').
Proof.
  intros Hwf Hr <- Hm.
  unfold bind_machine, BindAPIKeyMachineID, UPDATE.
  match goal with |- context [update_stmt ApiKeys ?c ?f] =>
    destruct (quiet_update c f db) as (n & db' & Hu); [done|done|] end.
  exists db'. rewrite run_bind, run_wrap_err, run_bind, run_stmt, Hu.
  apply update_auths_at in Hu as [_ [(-> & _)|(_ & _ & Hno)]]; [by rewrite run_mret| |done].
  specialize (Hno row Hr). by rewrite Hm in Hno.
Qed.

Lemma run_ValidateServerKey now nonce raw m db id row k :
  wf db → rows_of db ApiKeys !! id = Some row → ak_IsActive row = true →
  ak_KeyType row = "server" → machine_of row = "" → m ≠ "" →
  scanAPIKey secrets row = Ok k → run (GetAPIKeyByValue secrets nonce raw) db = (Ok k, db) →
  ∃ db', run (ValidateServerKey secrets now nonce raw m) db = (Ok (with_machine m k), db').
Proof.
  intros Hwf Hr Hact Hty Hm Hne (Hid & Hkm & _ & Hka & Hkt)%scanAPIKey_Ok Hget.
  assert (key_ID k = id) as Hki.
  { rewrite Hid. apply (wf_ids _ Hwf ApiKeys) in Hr as [He _]. exact He. }
  destruct (run_bind_machine k m db id row Hwf Hr Hki Hm) as [db1 Hb].
  destruct (run (UpdateAPIKeyLastUsed now (key_ID k)) db1) as [res db2] eqn:Hl. exists db2.
  unfold ValidateServerKey. rewrite run_andThen, Hget. cbn iota beta.
  rewrite Hka, Hact, Hkt, Hty. cbn [negb]. rewrite (proj2 (str_eqb_eq _ _) eq_refl). cbn [negb].
  unfold str_empty. rewrite (bool_decide_false (m = "")) by done.
  rewrite Hkm, Hm. rewrite (bool_decide_true ("" = "")) by done.
  rewrite run_bind, Hb. cbn [with_machine key_MachineID]. rewrite (proj2 (str_eqb_eq _ _) eq_refl).
  cbn [negb]. rewrite run_andThen. cbn [with_machine key_ID]. by rewrite Hl, run_mret.
Qed.
Definition stored_hash (key : string) : string :=
  match secrets with None => "" | Some b => LookupHash b key end.

(** Creating a key inserts one row, from which the answer is read. *)
Lemma run_CreateAPIKey now raw nonce name serverName serverURL db k db1 :
  wf db →
  run (CreateAPIKey secrets now (Ok raw) nonce name serverName serverURL) db = (Ok k, db1) →
  let key := "pbk-" +:+ hex raw in
  wf db1 ∧ ∃ row stored,
    match secrets with None => stored = key | Some b => Encrypt b nonce key = Ok stored end ∧
    rows_of db1 ApiKeys !! key_ID k = Some row ∧ scanAPIKey secrets row = Ok k ∧
    ak_Key row = stored ∧ ak_KeyHash row = stored_hash key ∧ ak_IsActive row = true ∧
    ak_KeyType row = "server" ∧ machine_of row = "".
Proof.
  intros Hwf Hrun key. unfold CreateAPIKey in Hrun. fold key in Hrun.
  destruct (match secrets with None => Ok key | Some b => Encrypt b nonce key end)
    as [stored|e] eqn:Hst; [|discriminate Hrun].
  fold (stored_hash key) in Hrun. rewrite run_bind in Hrun. unfold INSERT in Hrun.
  rewrite run_stmt in Hrun.
  match type of Hrun with context [insert_stmt ApiKeys ?mk db] =>
    destruct (insert_stmt ApiKeys mk db) as [[id db0]|e] eqn:Hins; [|done] end.
  assert (wf db0) as Hwf0 by (by eapply (wf_insert_stmt ApiKeys); [|exact Hwf|exact Hins]).
  apply (insert_at_Ok ApiKeys) in Hins as (-> & _ & _ & Hdb0).
  set (id := next_id db ApiKeys) in *.
  set (row := new_key now stored (stored_hash key) (key_label (TrimSpace name) (TrimSpace serverName))
    (TrimSpace serverName) (TrimSpace serverURL) id) in *.
  assert (rows_of db0 ApiKeys !! id = Some row) as Hr.
  { rewrite Hdb0, (rows_put_eq ApiKeys). apply lookup_insert_eq. }
  unfold GetAPIKey, find_key in Hrun. rewrite run_bind, run_stmt in Hrun.
  rewrite (head_select_id ApiKeys ak_ID id db0 Hwf0 (λ r, eq_refl)) in Hrun.
  destruct (rows (db0 ApiKeys) !! id) as [row'|] eqn:Hr'; [|done].
  injection Hr as ->. destruct (scanAPIKey secrets row) as [k'|e] eqn:Hscan; [|done].
  cbn [mbind result_bind] in Hrun. rewrite run_mret in Hrun. injection Hrun as -> <-.
  split; [done|]. exists row, stored. pose proof (scanAPIKey_Ok secrets _ _ Hscan) as (Hid & _).
  rewrite Hid. split_and!; [by destruct secrets; [|injection Hst]|exact Hr'|done..].
Qed.

(** Two rows with one hash, or one text, are one row. *)
Lemma same_key_row db i j r1 r2 :
  wf db → rows_of db ApiKeys !! i = Some r1 → rows_of db ApiKeys !! j = Some r2 →
  ak_Key r1 = ak_Key r2 ∨ (ak_KeyHash r1 = ak_KeyHash r2 ∧ ak_KeyHash r1 ≠ "") → r1 = r2.
Proof.
  intros Hwf H1 H2 Hsame. destruct (decide (i = j)) as [->|Hne]; [by eapply row_det|].
  pose proof (wf_unique _ Hwf ApiKeys i j r1 r2 Hne H1 H2) as Hcl.
  cbn [clash probakgo_schema tbl_clash] in Hcl. apply orb_false_iff in Hcl as [Hk Hh].
  destruct Hsame as [Hs|[Hs Hn]].
  - by rewrite (proj2 (str_eqb_eq _ _) Hs) in Hk.
  - rewrite (proj2 (str_eqb_eq _ _) Hs) in Hh. unfold str_empty in Hh.
    by rewrite bool_decide_false in Hh.
Qed.

Lemma run_find_key cond db id row k :
  rows_of db ApiKeys !! id = Some row → cond row = true → scanAPIKey secrets row = Ok k →
  (∀ j r, rows_of db ApiKeys !! j = Some r → cond r = true → r = row) →
  run (find_key secrets cond) db = (Ok (Some k), db).
Proof.
  intros Hr Hc Hk Hu. unfold find_key. rewrite run_stmt.
  rewrite (head_select ApiKeys cond any_order db id row Hr Hc Hu). by rewrite Hk.
Qed.

Lemma run_GetAPIKeyByValue nonce key db row stored k :
  wf db → rows_of db ApiKeys !! key_ID k = Some row → scanAPIKey secrets row = Ok k →
  ak_Key row = stored → ak_KeyHash row = stored_hash key → HasPrefix key "pbk-" = true →
  (secrets = None → stored = key) →
  run (GetAPIKeyByValue secrets nonce key) db = (Ok k, db).
Proof.
  intros Hwf Hr Hscan Hkey Hhash Hpre Hst. unfold GetAPIKeyByValue. rewrite run_bind.
  unfold stored_hash in Hhash. destruct secrets as [b|] eqn:Hs.
  - rewrite <-Hs in *.
    rewrite (run_find_key (hashed_key b key) db _ row k Hr); [by rewrite run_mret| |done|].
    + by apply str_eqb_eq.
    + intros j r Hr2 Hh%str_eqb_eq. eapply same_key_row; [done|exact Hr2|exact Hr|].
      right. rewrite Hhash, Hh. split; [done|]. apply LookupHash_nonempty.
  - rewrite run_mret. destruct key as [|c key]; [done|].
    cbn [HasPrefix] in Hpre. apply andb_true_iff in Hpre as [->%bool_decide_eq_true Hpre].
    cbn [IsEncrypted prefix HasPrefix]. rewrite bool_decide_false by done. cbn [andb].
    rewrite run_bind. specialize (Hst eq_refl). subst stored. rewrite <-Hs in *.
    rewrite (run_find_key (plain_key (String "p" key)) db _ row k Hr); [by rewrite run_mret| |done|].
    + unfold plain_key. rewrite Hst. by rewrite (proj2 (str_eqb_eq _ _) eq_refl).
    + intros j r Hr2 [Hk2%str_eqb_eq _]%andb_true_iff.
      eapply same_key_row; [done|exact Hr2|exact Hr|]. left. congruence.
Qed.

(** a key that was just created, shown once, is stored encrypted when there is a
    master key, and is then accepted as it was shown for the first machine that
    presents it, and bound to it. *)
Theorem created_key_works (now now' : Time) (raw nonce : string) (nonce' : result string)
    (name serverName serverURL machineID : string) (db : DB) (k : APIKey) :
  wf db → String.length nonce = NonceSize → machineID ≠ "" →
  (run (CreateAPIKey secrets now (Ok raw) (Ok nonce) name serverName serverURL) db).1 = Ok k →
  let db1 := (run (CreateAPIKey secrets now (Ok raw) (Ok nonce) name serverName serverURL) db).2 in
  key_Key k = "pbk-" +:+ hex raw ∧
  (∀ r, secrets ≠ None → rows_of db1 ApiKeys !! key_ID k = Some r → IsEncrypted (ak_Key r) = true) ∧
  ∃ k', (run (ValidateServerKey secrets now' nonce' (key_Key k) machineID) db1).1 = Ok k' ∧
    key_ID k' = key_ID k ∧ key_MachineID k' = machineID.
Proof.
  intros Hwf Hn Hm Hrun.
  destruct (run (CreateAPIKey _ _ _ _ _ _ _) db) as [res db1] eqn:Hc. cbn [fst snd] in *. subst res.
  apply run_CreateAPIKey in Hc as (Hwf1 & row & stored & Hst & Hr & Hscan & Hkey & Hhash & Hact & Hty & Hmach);
    [|done].
  set (key := "pbk-" +:+ hex raw) in *.
  assert (key_Key k = key ∧ (secrets ≠ None → IsEncrypted stored = true)) as [Hk Hs].
  { unfold scanAPIKey in Hscan. apply result_bind_Ok in Hscan as (v & Hv & [= <-]). cbn [key_Key].
    destruct secrets as [b|]; [|by injection Hv as <-; rewrite Hkey].
    destruct (Decrypt_sealed b nonce key Hn eq_refl) as (c & Hc & Hec & Hd); [done|].
    assert (stored = c) as -> by congruence. rewrite Hkey, Hd in Hv. by injection Hv as <-. }
  split; [done|]. split.
  { intros r Hne Hr2. rewrite (row_det _ _ _ _ Hr2 Hr), Hkey. by apply Hs. }
  assert (run (GetAPIKeyByValue secrets nonce' key) db1 = (Ok k, db1)) as Hget.
  { eapply run_GetAPIKeyByValue; [done|exact Hr|done|done|done|apply HasPrefix_app|].
    intros Hnone. by rewrite Hnone in Hst. }
  rewrite Hk. destruct (run_ValidateServerKey now' nonce' key machineID db1 (key_ID k) row k)
    as [db2 ->]; try done. by exists (with_machine machineID k).
Qed.
End creation.

(** ** Searching *)

Lemma like_escape_literal q p s :
  like_escape (likeEscaper q +:+ p) s = true ↔
  ∃ m t, s = m +:+ t ∧ sql_lower m = sql_lower q ∧ like_escape p t = true.
Proof.
  revert s. induction q as [|c q IH]; intros s.
  { cbn [likeEscaper]. rewrite app_nil_l_str. split.
    - intros Hp. by exists "", s.
    - intros (m & t & -> & Hm & Hp). by destruct m. }
  assert (like_escape (likeEscaper (String c q) +:+ p) s =
    match s with
    | EmptyString => false
    | String d s => bool_decide (lower_ascii c = lower_ascii d) && like_escape (likeEscaper q +:+ p) s
    end) as ->.
  { cbn [likeEscaper]. destruct ((byte c =? 92) || (byte c =? 37) || (byte c =? 95)) eqn:Hc.
    - rewrite !app_cons_str. destruct s; [done|]. done.
    - apply orb_false_iff in Hc as [[H1 H2]%orb_false_iff H3].
      rewrite app_cons_str. cbn [like_escape]. rewrite H1, H2, H3. by destruct s. }
  destruct s as [|d s].
  { split; [done|]. intros (m & t & He & Hm & _). destruct m; [done|by rewrite app_cons_str in He]. }
  rewrite andb_true_iff, bool_decide_eq_true, IH. split.
  - intros [Hd (m & t & -> & Hm & Hp)]. exists (String d m), t. rewrite app_cons_str.
    split_and!; [done| |done]. unfold sql_lower in *. simpl. by rewrite Hd, Hm.
  - intros (m & t & He & Hm & Hp). destruct m as [|e m]; [done|]. rewrite app_cons_str in He.
    injection He as -> ->. unfold sql_lower in *. simpl in Hm. injection Hm as Hd Hm.
    split; [done|]. by exists m, t.
Qed.

(** whatever a user types into the search box is looked for as it is: [%], [_] and
    backslashes in it stand for themselves, and the letters of ASCII match without
    case. *)
Theorem search_is_literal (query text : string) :
  like_escape (String "%"%char (likeEscaper query +:+ "%")) text = true ↔
  ∃ a m t, text = a +:+ m +:+ t ∧ sql_lower m = sql_lower query.
Proof.
  rewrite like_escape_any. split.
  - intros (a & u & -> & (m & t & -> & Hm & _)%like_escape_literal). by exists a, m, t.
  - intros (a & m & t & -> & Hm). exists a, (m +:+ t). split; [done|].
    apply like_escape_literal. exists m, t. split_and!; [done|done|].
    apply like_escape_any. exists t, "". by rewrite app_nil_r_str.
Qed.

(** The letters beyond ASCII: [strings.ToLower] changes them in the query and [lower] does
    not in the column, so a key named with a capital E with acute is not found by its
    own name. *)
Definition E_acute : string := String (char_of 195) (String (char_of 137) "").
Definition e_acute : string := String (char_of 195) (String (char_of 169) "").

Lemma search_misses_accents `{!Crypto} (lower : string → string) :
  lower E_acute = e_acute →
  key_search None lower E_acute (new_key 0 "pbk-1" "" E_acute "" "" 1) = false.
Proof. intros Hl. unfold key_search. rewrite Hl. vm_compute. reflexivity. Qed.

(** ** Examples *)

Module KeyExamples.
Definition secrets : option Box := Some example_box.

Definition created : result APIKey * DB :=
  run (CreateAPIKey secrets 5 (Ok "abc") (Ok "123456789012") "  " "pve1 " "") empty_db.

Definition db1 : DB := created.2.

Lemma wf_key_db1 : wf db1.
Proof.
  unfold db1, created. destruct (run (CreateAPIKey _ _ _ _ _ _ _) empty_db) as [res db'] eqn:Hc.
  destruct res as [k|e].
  - by apply run_CreateAPIKey in Hc as [? _]; [|apply wf_empty_db].
  - apply (f_equal fst) in Hc. vm_compute in Hc. done.
Qed.
End KeyExamples.

Lemma created_key_works_witness :
  ∃ k', (run (ValidateServerKey KeyExamples.secrets 9 (Ok "000000000000") "pbk-616263" "m1")
    KeyExamples.db1).1 = Ok k' ∧ key_MachineID k' = "m1".
Proof.
  assert (∃ k, KeyExamples.created.1 = Ok k ∧ key_Key k = "pbk-616263") as (k & Hk & Hv)
    by (eexists; split; vm_compute; reflexivity).
  destruct (created_key_works KeyExamples.secrets 5 9 "abc" "123456789012" (Ok "000000000000")
    "  " "pve1 " "" "m1" empty_db k wf_empty_db eq_refl) as (_ & _ & k' & Hrun & _ & Hm);
    [done|exact Hk|].
  rewrite Hv in Hrun. exists k'. split; [exact Hrun|exact Hm].
Defined.

Lemma ValidateServerKey_spec_witness :
  only_keys KeyExamples.db1
    (run (ValidateServerKey KeyExamples.secrets 9 (Ok "000000000000") "pbk-616263" "m1")
      KeyExamples.db1).2.
Proof.
  pose proof (always_run _ _ _ (ValidateServerKey_spec KeyExamples.secrets 9 (Ok "000000000000")
    "pbk-616263" "m1" KeyExamples.db1 KeyExamples.wf_key_db1)) as [Ho _]. exact Ho.
Defined.
