(* ===== verification/Reports.v ===== *)
(** * Reports: what the three kinds have in common

    The tables [pve_reports], [pbs_reports] and [windows_reports] are read, checked
    for a repeated token and pruned alike; the queries of [internal/store/pve.go],
    [pbs.go] and [windows.go] that do so are defined here for a [server_kind].  A
    read method is the function of the database it computes. *)
From stdpp Require Import sorting.
From S2P Require Import Prelude GoStrings GoNum GoTime Domain Sql Relational Schema Servers.

(** [SELECT 1 FROM ... WHERE server_id = ? AND report_id = ?]. *)
Definition has_token (k : server_kind) (serverID : Z) (token : string)
    (r : ReportRow (report_of k)) : bool :=
  (rep_ServerID (rr_Report r) =? serverID) && str_eqb (rr_Token r) token.

Definition token_known (k : server_kind) (serverID : Z) (token : string) : prog DB bool :=
  query (λ db, negb (is_nil (matching (Reports k) (has_token k serverID token) db))).

(** The transaction of the three [Insert...ReportData]: a known token ends it before
    the commit; [body] inserts the report. *)
Definition insert_report_data (k : server_kind) (serverID : Z) (token : string)
    (body : prog DB ()) : prog DB () :=
  tx_if id (
    known ← (if str_empty token then mret false else token_known k serverID token);
    if (known : bool) then mret false else body ≫= λ _, mret true)
  ≫= λ _, mret ().

(** ** Readers *)

Definition of_server (k : server_kind) (serverID : Z) (r : ReportRow (report_of k)) : bool :=
  rep_ServerID (rr_Report r) =? serverID.

(** [ORDER BY reported_at DESC]. *)
Definition newest (k : server_kind) (r1 r2 : ReportRow (report_of k)) : bool :=
  rep_ReportedAt (rr_Report r2) <=? rep_ReportedAt (rr_Report r1).

(** [ORDER BY reported_at DESC, id DESC]. *)
Definition newest_id (k : server_kind) (r1 r2 : ReportRow (report_of k)) : bool :=
  let t1 := rep_ReportedAt (rr_Report r1) in
  let t2 := rep_ReportedAt (rr_Report r2) in
  if t1 =? t2 then rep_ID (rr_Report r2) <=? rep_ID (rr_Report r1) else t2 <=? t1.

Section readers.
Context `{!SqlOrder}.

(** The reports of a server, newest first in one of the two orders. *)
Definition reports_of (k : server_kind) (order : ReportRow (report_of k) →
    ReportRow (report_of k) → bool) (serverID : Z) (db : DB) : list (report_of k) :=
  rr_Report <$> select_from (Reports k) (of_server k serverID) order db.

Definition reports_since (k : server_kind) (order : ReportRow (report_of k) →
    ReportRow (report_of k) → bool) (serverID : Z) (threshold : Time) (db : DB) :
    list (report_of k) :=
  rr_Report <$> select_from (Reports k)
    (λ r, of_server k serverID r && (sqliteUTC threshold <=? rep_ReportedAt (rr_Report r)))
    order db.

Definition latest_report (k : server_kind) (order : ReportRow (report_of k) →
    ReportRow (report_of k) → bool) (serverID : Z) (db : DB) : result (report_of k) :=
  scan_first Ok (reports_of k order serverID db).

(** [WHERE r.id = (SELECT r2.id ... ORDER BY r2.reported_at DESC, r2.id DESC LIMIT 1)]. *)
Definition is_latest (k : server_kind) (db : DB) (r : ReportRow (report_of k)) : bool :=
  match head (reports_of k (newest_id k) (rep_ServerID (rr_Report r)) db) with
  | Some r2 => rep_ID (rr_Report r) =? rep_ID r2
  | None => false
  end.

Definition latest_reports (k : server_kind) (db : DB) : gmap Z (report_of k) :=
  index_by rep_ServerID
    (rr_Report <$> select_from (Reports k) (is_latest k db) any_order db).

Definition count_reports (k : server_kind) (cond : ReportRow (report_of k) → bool)
    (db : DB) : Z := Z.of_nat (length (matching (Reports k) cond db)).
End readers.

(** ** Pruning *)

(** [reported_at < ?] with [sqliteUTC(cutoff)]. *)
Definition is_old (k : server_kind) (cutoff : Time) (r : ReportRow (report_of k)) : bool :=
  rep_ReportedAt (rr_Report r) <? sqliteUTC cutoff.

(** [SELECT id FROM ..._reports WHERE cond]. *)
Definition report_ids (k : server_kind) (cond : ReportRow (report_of k) → bool) (db : DB) :
    list Z := (λ r, rep_ID (rr_Report r)) <$> matching (Reports k) cond db.

Definition delete_reports (k : server_kind) (cond : ReportRow (report_of k) → bool) :
    prog DB Z := DELETE (Reports k) cond.

(** ** Lemmas *)

Lemma run_ret_unit {A} (p : prog DB A) db a db' :
  run p db = (Ok a, db') → run (p ≫= λ _, mret ()) db = (Ok (), db').
Proof. intros Hp. by rewrite run_bind, Hp. Qed.

Lemma run_wrap_ok {A} msg (p : prog DB A) db a db' :
  run p db = (Ok a, db') → run (wrap_err msg p) db = (Ok a, db').
Proof. intros Hp. by rewrite run_wrap_err, Hp. Qed.

(** A reference to a row that is there is no obstacle. *)
Lemma ref_ok {t : tbl} (p : tbl) (f : tbl_row t → Z) act db (r : tbl_row t) :
  fks t = [{| parent := p; column := λ r, Some (f r); on_delete := act |}] →
  present db p (f r) = true → fks_ok (t := t) db r = true.
Proof.
  intros Hfks Hp. apply fks_ok_spec. rewrite Hfks. intros fk i ->%list_elem_of_singleton [= <-].
  done.
Qed.

Lemma view_fresh {B} (t p : tbl) (f : tbl_row t → Z) (val : tbl_row t → B) act i db :
  fks t = [{| parent := p; column := λ r, Some (f r); on_delete := act |}] →
  wf db → present db p i = false → view t f val i db = [].
Proof.
  intros Hfks Hwf Hp.
  eapply (view_absent t f val i db {| parent := p; column := λ r, Some (f r); on_delete := act |});
    [done| |done|done]. rewrite Hfks. left.
Qed.

(** A report whose token is not there can be inserted under a server that is. *)
Lemma report_INSERT_ok k mk serverID token db :
  wf db → present db (Servers k) serverID = true →
  (∀ id, rep_ID (rr_Report (mk id)) = id ∧ rep_ServerID (rr_Report (mk id)) = serverID ∧
         rr_Token (mk id) = token) →
  (token = "" ∨ matching (Reports k) (has_token k serverID token) db = []) →
  ∃ db', run (INSERT (Reports k) mk) db = (Ok (next_id db (Reports k)), db') ∧
    inserted (Reports k) (mk (next_id db (Reports k))) db db'.
Proof.
  intros Hwf Hs Hmk Htok. destruct (Hmk (next_id db (Reports k))) as (_ & Hsrv & Ht).
  apply INSERT_ok; [done|apply Hmk| |].
  - apply clashes_false. intros k' r' _ Hr'. cbn [clash probakgo_schema tbl_clash].
    unfold same_token. rewrite Hsrv, Ht.
    destruct Htok as [->|Hnone]; [by rewrite !andb_false_r|].
    rewrite matching_nil in Hnone. specialize (Hnone k' r' Hr'). unfold has_token in Hnone.
    by rewrite (Z.eqb_sym serverID), (str_eqb_sym token), Hnone.
  - eapply (ref_ok (t := Reports k) (Servers k) (λ r, rep_ServerID (rr_Report r))); [done|].
    by rewrite Hsrv.
Qed.

(** The transaction around a body that stops at its first error. *)
Lemma strict_insert_report_data k serverID token body :
  strict body → strict (insert_report_data k serverID token body).
Proof.
  intros Hb. unfold insert_report_data, token_known. apply strict_bind; [|constructor].
  apply strict_tx_if, strict_bind.
  - destruct (str_empty token); [constructor|apply strict_stmt].
  - intros []; [constructor|]. apply strict_bind; [done|constructor].
Qed.

Definition known (k : server_kind) (serverID : Z) (token : string) (db : DB) : bool :=
  negb (str_empty token) && negb (is_nil (matching (Reports k) (has_token k serverID token) db)).

Lemma known_false k serverID token db :
  known k serverID token db = false →
  token = "" ∨ matching (Reports k) (has_token k serverID token) db = [].
Proof.
  unfold known, str_empty. destruct (decide (token = "")) as [|Hne]; [by left|].
  rewrite bool_decide_false by done. simpl. destruct (matching _ _ _); [by right|done].
Qed.

Lemma run_insert_report_data k serverID token body db :
  run (insert_report_data k serverID token body) db =
  if known k serverID token db then (Ok (), db)
  else match run body db with (Ok _, db') => (Ok (), db') | (Err e, _) => (Err e, db) end.
Proof.
  unfold insert_report_data, known, token_known. rewrite run_bind, run_tx_if, run_bind.
  assert (run (if str_empty token then mret false
               else query (λ db, negb (is_nil (matching (Reports k)
                      (has_token k serverID token) db)))) db =
    (Ok (negb (str_empty token) && negb (is_nil (matching (Reports k)
       (has_token k serverID token) db))), db)) as -> by by destruct (str_empty token).
  destruct (negb (str_empty token) && _); [done|].
  rewrite run_bind. by destruct (run body db) as [[[]|e] db'].
Qed.

(** A failed call leaves the database as it was. *)
Lemma insert_report_data_atomic k serverID token body io db e db' io' :
  exec (insert_report_data k serverID token body) io db = (Err e, db', io') → db' = db.
Proof.
  unfold insert_report_data, mbind, prog_bind. rewrite exec_andThen.
  destruct (exec (tx_if _ _) io db) as [[[b|e'] db1] io1] eqn:Hx; [done|].
  intros [= _ <- _]. revert Hx. cbn [tx_if exec]. destruct (fault io); [by intros [= _ <- _]|].
  destruct (exec _ (tail io) db) as [[[b|e2] u] io2]; [|by intros [= _ <- _]].
  destruct (negb (id b)); [done|]. destruct (fault io2); [by intros [= _ <- _]|done].
Qed.

Lemma preserves_insert_report_data k serverID token body :
  preserves wf body → preserves wf (insert_report_data k serverID token body).
Proof.
  intros Hb. unfold insert_report_data, token_known. apply preserves_bind; [|keeps_wf].
  apply preserves_tx_if, preserves_bind; [keeps_wf|]. intros []; [keeps_wf|].
  apply preserves_bind; [done|keeps_wf].
Qed.

(** Whether the token is there, on a list with one element for each report. *)
Lemma known_stored k {S} (row : S → ReportRow (report_of k))
    (mk : ReportRow (report_of k) → S) serverID token db :
  (∀ r, row (mk r) = r) →
  known k serverID token db =
  negb (str_empty token) &&
  existsb (λ s, has_token k serverID token (row s)) (mk <$> in_order (Reports k) db).
Proof.
  intros Hrow. unfold known. f_equal. rewrite existsb_fmap.
  apply eq_bool_prop_intro. rewrite !Is_true_true, negb_true_iff, existsb_exists. split.
  - destruct (matching _ _ _) as [|r l] eqn:Hm; [done|]. intros _.
    assert (r ∈ matching (Reports k) (has_token k serverID token) db) as Hr
      by (rewrite Hm; left).
    apply (elem_of_matching (Reports k)) in Hr as [Hk Hr]. exists r. split; [|by rewrite Hrow].
    apply list_elem_of_In. by apply (elem_of_in_order (Reports k)).
  - intros (r & Hr & Ht). apply list_elem_of_In in Hr.
    apply (elem_of_in_order (Reports k)) in Hr as [i Hr]. rewrite Hrow in Ht.
    destruct (matching _ _ _) as [|] eqn:Hm; [|done].
    rewrite matching_nil in Hm. discriminate (eq_trans (eq_sym Ht) (Hm i r Hr)).
Qed.

(** ** Parts added to a report *)

(** What the insertion of the parts [l] of [p] does to the tables [ts], of which [v]
    reads the parts of a parent. *)
Record extended {B} (ts : list tbl) (v : Z → DB → list B) (p : Z) (l : list B) (db db' : DB) :
    Prop := {
  ext_wf : wf db';
  ext_view : ∀ p', v p' db' = v p' db ++ (if p' =? p then l else []);
  ext_other : ∀ u, u ∉ ts → db' u = db u;
  ext_present : ∀ u i, present db u i = true → present db' u i = true }.

Lemma extended_nil {B} ts (v : Z → DB → list B) p db : wf db → extended ts v p [] db db.
Proof.
  intros Hwf. split; [done| |done|done]. intros p'. destruct (p' =? p); by rewrite app_nil_r.
Qed.

Lemma extended_trans {B} ts (v : Z → DB → list B) p l1 l2 db1 db2 db3 :
  extended ts v p l1 db1 db2 → extended ts v p l2 db2 db3 → extended ts v p (l1 ++ l2) db1 db3.
Proof.
  intros H12 H23. split.
  - apply H23.
  - intros p'. rewrite (ext_view _ _ _ _ _ _ H23), (ext_view _ _ _ _ _ _ H12), <-app_assoc.
    by destruct (p' =? p).
  - intros u Hu. by rewrite (ext_other _ _ _ _ _ _ H23), (ext_other _ _ _ _ _ _ H12).
  - intros u i Hp. by apply (ext_present _ _ _ _ _ _ H23), (ext_present _ _ _ _ _ _ H12).
Qed.

Lemma run_extend_each {A B} ts (v : Z → DB → list B) (t : tbl) p (val : A → B)
    (g : A → prog DB ()) (l : list A) db :
  (∀ x db, wf db → present db t p = true →
     ∃ db', run (g x) db = (Ok (), db') ∧ extended ts v p [val x] db db') →
  wf db → present db t p = true →
  ∃ db', run (for_each l g) db = (Ok (), db') ∧ extended ts v p (val <$> l) db db'.
Proof.
  intros Hg. revert db. induction l as [|x l IH]; intros db Hwf Hp.
  { exists db. split; [done|by apply extended_nil]. }
  destruct (Hg x db Hwf Hp) as (db1 & Hrun1 & H1).
  destruct (IH db1) as (db2 & Hrun2 & H2); [apply H1|by apply (ext_present _ _ _ _ _ _ H1)|].
  exists db2. split; [cbn [for_each]; by rewrite run_bind, Hrun1|].
  exact (extended_trans ts v p [val x] (val <$> l) db db1 db2 H1 H2).
Qed.

(** A row of a table is older than the next one. *)
Lemma old_row (t : tbl) db r : wf db → r ∈ in_order t db → rowid t r < next_id db t.
Proof.
  intros Hwf [k Hr]%elem_of_in_order. apply (wf_ids _ Hwf) in Hr as [<- Hle].
  unfold next_id. lia.
Qed.

(** ** What pruning removes *)

(** The report [i] goes. *)
Definition goes (k : server_kind) (cond : ReportRow (report_of k) → bool) (db : DB) : Z → bool :=
  in_ids (report_ids k cond db).

Lemma goes_row k cond db i r :
  wf db → rows_of db (Reports k) !! i = Some r → goes k cond db i = cond r.
Proof. intros Hwf Hr. exact (in_matching_ids (Reports k) cond db i r Hwf Hr). Qed.

Lemma filter_fmap_bool {A B} (f : A → B) (P : B → bool) (l : list A) :
  List.filter P (f <$> l) = f <$> List.filter (λ x, P (f x)) l.
Proof. induction l as [|x l IH]; simpl; [done|]. destruct (P (f x)); simpl; by f_equal. Qed.

(** The subqueries read tables that the deletions before them left alone. *)
Lemma goes_same k cond db db' :
  db' (Reports k) = db (Reports k) → goes k cond db' = goes k cond db.
Proof. intros Ht. unfold goes, report_ids. by rewrite (matching_same (Reports k) cond db db'). Qed.

Lemma length_matching k cond db :
  length (matching (Reports k) cond db) = length (List.filter cond (in_order (Reports k) db)).
Proof.
  unfold matching, in_order. apply Permutation_length, filter_bool_perm. symmetry.
  apply merge_sort_Permutation.
Qed.

Lemma filter_bool_ext {A} (f g : A → bool) (l : list A) :
  (∀ x, x ∈ l → f x = g x) → List.filter f l = List.filter g l.
Proof.
  induction l as [|x l IH]; intros Hfg; simpl; [done|].
  rewrite (Hfg x) by left. rewrite IH; [done|]. intros y Hy. apply Hfg. by right.
Qed.

(** ** Deletions that follow the references *)

(** [c] marks the rows that go: with a row go those that refer to it. *)
Definition closed (c : ∀ t : tbl, Row t → bool) (db : DB) : Prop :=
  ∀ (u : tbl) fk, fk ∈ fks (Schema := probakgo_schema) u → ∀ k r i r0,
    rows (db u) !! k = Some r → column fk r = Some i →
    rows (db (parent fk)) !! i = Some r0 → c (parent fk) r0 = true → c u r = true.

(** The marked rows of the tables [S] are gone; the other tables are as they were. *)
Record filtered (c : ∀ t : tbl, Row t → bool) (db0 : DB) (S : list tbl) (db : DB) : Prop := {
  fl_wf : wf db;
  fl_order : ∀ t, t ∈ S → in_order t db = List.filter (λ r, negb (c t r)) (in_order t db0);
  fl_rows : ∀ t k, t ∈ S →
    rows (db t) !! k = (r ← rows (db0 t) !! k; if c t r then None else Some r);
  fl_out : ∀ t, t ∉ S → db t = db0 t }.

Lemma filtered_start c db0 : wf db0 → filtered c db0 [] db0.
Proof.
  intros Hwf. split; [done| | |done]; intros t; [|intros k]; intros Ht; by apply not_elem_of_nil in Ht.
Qed.

(** The next table can be emptied of its marked rows once the tables that refer to it
    are; the condition of the statement may read the tables that are left. *)
Lemma filtered_step c db0 S db (t : tbl) (cond : DB → Row t → bool) :
  wf db0 → closed c db0 → filtered c db0 S db → t ∉ S →
  (∀ u fk, fk ∈ fks (Schema := probakgo_schema) u → parent fk = t → u ∈ S) →
  (∀ k r, rows (db0 t) !! k = Some r → cond db r = c t r) →
  ∃ db', run (DELETE_IN t cond) db = (Ok (Z.of_nat (length (matching t (cond db) db))), db') ∧
    filtered c db0 (t :: S) db'.
Proof.
  intros Hwf0 Hclosed Hfl Ht Href Hcond.
  pose proof (fl_out _ _ _ _ Hfl t Ht) as Hsame.
  destruct (DELETE_IN_ok t cond db (fl_wf _ _ _ _ Hfl)) as (db' & Hrun & Hd).
  { intros u fk Hfk Hp k r i r0 Hr Hi Hr0. subst t.
    pose proof (Href u fk Hfk eq_refl) as Hu.
    rewrite (fl_rows _ _ _ _ Hfl u k Hu), bind_Some in Hr. destruct Hr as (r' & Hr & Hc).
    destruct (c u r') eqn:Hcr; [done|]. injection Hc as ->. rewrite Hsame in Hr0.
    rewrite (Hcond i r0 Hr0). apply not_true_is_false. intros Hc0.
    by rewrite (Hclosed u fk Hfk k r i r0 Hr Hi Hr0 Hc0) in Hcr. }
  exists db'. split; [done|].
  assert (∀ r, r ∈ in_order t db0 → negb (cond db r) = negb (c t r)) as Hext.
  { intros r [k Hr]%elem_of_in_order. by rewrite (Hcond k r Hr). }
  split.
  - apply Hd.
  - intros u Hu. destruct (decide (u = t)) as [->|Hne].
    + rewrite (del_order _ _ _ _ Hd), (in_order_frame t db0 db Hsame).
      by apply filter_bool_ext.
    + rewrite (in_order_frame u db db') by (by apply (del_other _ _ _ _ Hd)).
      apply (fl_order _ _ _ _ Hfl). by apply elem_of_cons in Hu as [->|Hu].
  - intros u k Hu. destruct (decide (u = t)) as [->|Hne].
    + rewrite (del_rows _ _ _ _ Hd), Hsame. destruct (rows (db0 t) !! k) as [r|] eqn:Hr; [|done].
      simpl. by rewrite (Hcond k r Hr).
    + rewrite (del_other _ _ _ _ Hd u Hne). apply (fl_rows _ _ _ _ Hfl).
      by apply elem_of_cons in Hu as [->|Hu].
  - intros u Hu. apply not_elem_of_cons in Hu as [Hne Hu].
    rewrite (del_other _ _ _ _ Hd u Hne). by apply (fl_out _ _ _ _ Hfl).
Qed.
