(* ===== verification/PveReports.v ===== *)
(** * PVE reports: [internal/store/pve.go]

    The insertion of a report with its storages, their contents and its backup
    tasks, the queries on them, and the removal of old ones.  The abstract value of
    the tables is the list of the reports with their parts ([pve_reports]); the
    theorems say what an insertion adds to it and what pruning removes. *)
From stdpp Require Import sorting.
From S2P Require Import Prelude GoStrings GoNum GoTime GoJson Domain Validation Sql Relational Schema Servers Reports.

(** ** Insertions *)

Definition no_swap : HostSwap := {| sw_Total := 0; sw_Used := 0; sw_Enabled := false |}.

Definition new_pve_report (now : Time) (serverID : Z) (bs : option BackupStatus)
    (swap : HostSwap) (token : string) (id : Z) : ReportRow PVEReport :=
  {| rr_Report :=
       {| pver_ID := id; pver_ServerID := serverID; pver_ReportedAt := sqliteUTC now;
          pver_IsStale := false; pver_StaleReason := "";
          pver_BackupStatus := match bs with None => "" | _ => StatusString bs end;
          pver_BackupStarttime := match bs with None => 0 | Some b => bs_StartTime b end;
          pver_BackupEndtime := match bs with None => 0 | Some b => bs_EndTime b end;
          pver_BackupDuration := match bs with None => 0 | Some b => bs_Duration b end;
          pver_SwapTotal := sw_Total swap; pver_SwapUsed := sw_Used swap;
          pver_SwapEnabled := sw_Enabled swap |};
     rr_Token := token |}.

Definition insertPVEReportWithSwap (now : Time) (serverID : Z) (bs : option BackupStatus)
    (swap : HostSwap) (token : string) : prog DB Z :=
  wrap_err "insert pve_report"
    (INSERT (Reports PVE) (new_pve_report now serverID bs swap token)).

Definition InsertPVEReportWithSwap (now : Time) (serverID : Z) (bs : option BackupStatus)
    (swap : HostSwap) : prog DB Z := insertPVEReportWithSwap now serverID bs swap "".

Definition InsertPVEReport (now : Time) (serverID : Z) (bs : option BackupStatus) :
    prog DB Z := InsertPVEReportWithSwap now serverID bs no_swap.

Definition new_storage (reportID : Z) (st : StoragePayload) (id : Z) : PVEStorage :=
  {| stg_ID := id; stg_ReportID := reportID; stg_Storage := stp_Storage st;
     stg_Path := stp_Path st; stg_Content := stp_Content st; stg_Type := stp_Type st;
     stg_Status := stp_Status st; stg_Shared := stp_Shared st; stg_Server := stp_Server st;
     stg_Digest := stp_Digest st; stg_PruneBackups := Marshal_raw (stp_PruneBackups st) |}.

Definition insertPVEStorage (reportID : Z) (st : StoragePayload) : prog DB Z :=
  wrap_err "insert pve_storage" (INSERT PveStorages (new_storage reportID st)).

Definition new_info (storageID : Z) (info : StorageInfoPayload) (id : Z) : PVEStorageInfo :=
  {| info_ID := id; info_StorageID := storageID; info_Total := sip_Total info;
     info_Used := sip_Used info; info_Avail := sip_Avail info;
     info_UsedPct := sip_UsedPct info; info_Active := sip_Active info;
     info_Enabled := sip_Enabled info; info_Lvl := sip_Lvl info |}.

Definition insertPVEStorageInfo (storageID : Z) (info : StorageInfoPayload) : prog DB () :=
  INSERT PveStorageInfos (new_info storageID info) ≫= λ _, mret ().

Definition new_content (storageID : Z) (c : ContentDataPayload) (id : Z) : PVEStorageContent :=
  {| cnt_ID := id; cnt_StorageID := storageID; cnt_VMID := cdp_VMID c;
     cnt_Format := cdp_Format c; cnt_Size := cdp_Size c; cnt_Content := cdp_Content c;
     cnt_VolID := cdp_VolID c; cnt_CTime := cdp_CTime c; cnt_Subtype := cdp_Subtype c;
     cnt_Notes := cdp_Notes c; cnt_Verification := cdp_Verification c |}.

Definition insertPVEStorageContent (storageID : Z) (c : ContentDataPayload) : prog DB () :=
  INSERT PveStorageContents (new_content storageID c) ≫= λ _, mret ().

Definition new_task (reportID : Z) (t : BackupTaskPayload) (id : Z) : PVEBackupTask :=
  {| task_ID := id; task_ReportID := reportID; task_VMID := btp_VMID t;
     task_VMName := btp_VMName t; task_Status := btp_Status t;
     task_StartTime := btp_StartTime t; task_EndTime := btp_EndTime t;
     task_Duration := btp_Duration t; task_Size := btp_Size t;
     task_Filename := btp_Filename t |}.

Definition insertPVEBackupTask (reportID : Z) (t : BackupTaskPayload) : prog DB () :=
  INSERT PveBackupTasks (new_task reportID t) ≫= λ _, mret ().

Definition InsertPVEStorage := insertPVEStorage.
Definition InsertPVEStorageInfo := insertPVEStorageInfo.
Definition InsertPVEStorageContent := insertPVEStorageContent.
Definition InsertPVEBackupTask := insertPVEBackupTask.

(** The body of the loop over the storages. *)
Definition insert_storage (reportID : Z) (storage : StoragePayload) : prog DB () :=
  storageID ← wrap_err ("insert storage " +:+ stp_Storage storage)
                (insertPVEStorage reportID storage);
  for_each (stp_StorageInfo storage) (λ info,
    wrap_err "insert storage info" (insertPVEStorageInfo storageID info)) ≫= λ _,
  for_each (stp_ContentData storage) (λ content,
    wrap_err "insert storage content" (insertPVEStorageContent storageID content)).

Definition pve_report_body (now : Time) (serverID : Z) (req : PVEReportRequest) : prog DB () :=
  reportID ← insertPVEReportWithSwap now serverID (pvq_LastBackupStatus req)
    {| sw_Total := pvq_SwapTotal req; sw_Used := pvq_SwapUsed req;
       sw_Enabled := pvq_SwapEnabled req |} (pvq_ReportID req);
  for_each (pvq_Storages req) (insert_storage reportID) ≫= λ _,
  for_each (pvq_BackupTasks req) (λ task,
    wrap_err ("insert backup task vmid " +:+ Itoa (btp_VMID task))
      (insertPVEBackupTask reportID task)).

Definition InsertPVEReportData (now : Time) (serverID : Z) (req : PVEReportRequest) :
    prog DB () :=
  insert_report_data PVE serverID (pvq_ReportID req) (pve_report_body now serverID req).

(** [SavePVEReportForAPIKey] and [SavePVEReport] of [internal/service/report.go]. *)
Definition SavePVEReportForAPIKey `{!SqlOrder} (now : Time) (req : PVEReportRequest)
    (apiKeyID : Z) : prog DB () :=
  serverID ← wrap_err "upsert server" (
    if 0 <? apiKeyID
    then UpsertPVEServerForAPIKey now apiKeyID (pvq_Hostname req) (pvq_IPAddress req)
           (pvq_PublicIP req) (pvq_ClientVersion req) (pvq_MachineID req)
    else UpsertPVEServer now (pvq_Hostname req) (pvq_IPAddress req)
           (pvq_PublicIP req) (pvq_ClientVersion req) (pvq_MachineID req));
  wrap_err "insert report data" (InsertPVEReportData now serverID req).

Definition SavePVEReport `{!SqlOrder} (now : Time) (req : PVEReportRequest) : prog DB () :=
  SavePVEReportForAPIKey now req 0.

Definition MarkPVEReportStale (reportID : Z) (reason : string) : prog DB () :=
  UPDATE (Reports PVE) (λ r, pver_ID (rr_Report r) =? reportID) (λ r,
    let p := rr_Report r in
    {| rr_Report :=
         {| pver_ID := pver_ID p; pver_ServerID := pver_ServerID p;
            pver_ReportedAt := pver_ReportedAt p; pver_IsStale := true;
            pver_StaleReason := reason; pver_BackupStatus := pver_BackupStatus p;
            pver_BackupStarttime := pver_BackupStarttime p;
            pver_BackupEndtime := pver_BackupEndtime p;
            pver_BackupDuration := pver_BackupDuration p;
            pver_SwapTotal := pver_SwapTotal p; pver_SwapUsed := pver_SwapUsed p;
            pver_SwapEnabled := pver_SwapEnabled p |};
       rr_Token := rr_Token r |} : ReportRow PVEReport) ≫= λ _, mret ().

(** ** Queries *)

Section queries.
Context `{!SqlOrder}.

Definition GetLatestPVEReport := latest_report PVE (newest PVE).
Definition GetLatestPVEReports := latest_reports PVE.

Definition ListPVEReports (serverID limit : Z) (db : DB) : list PVEReport :=
  limit_offset limit 0 (reports_of PVE (newest PVE) serverID db).

Definition ListPVEReportsPage (serverID limit offset : Z) (db : DB) : list PVEReport :=
  limit_offset limit offset (reports_of PVE (newest PVE) serverID db).

Definition CountPVEReports (serverID : Z) (db : DB) : Z :=
  count_reports PVE (of_server PVE serverID) db.

(** [now] and [loc] are the clock and [time.Local]. *)
Definition ListPVEReportsByDays (loc : Location) (now : Time) (serverID days : Z) (db : DB) :
    list PVEReport :=
  reports_since PVE (newest PVE) serverID (AddDays loc now (- days)) db.

Definition ListPVEReportsByDaysPage (loc : Location) (now : Time)
    (serverID days limit offset : Z) (db : DB) : list PVEReport :=
  limit_offset limit offset (ListPVEReportsByDays loc now serverID days db).

Definition CountPVEReportsByDays (loc : Location) (now : Time) (serverID days : Z) (db : DB) :
    Z :=
  count_reports PVE (λ r, of_server PVE serverID r &&
    (sqliteUTC (AddDays loc now (- days)) <=? pver_ReportedAt (rr_Report r))) db.

(** [ORDER BY a, b]. *)
Definition lex_le {A} (key : A → Z) (le : A → A → bool) (x y : A) : bool :=
  if key x =? key y then le x y else key x <=? key y.

Definition GetPVEStoragesForReport (reportID : Z) (db : DB) : list PVEStorage :=
  select_from PveStorages (λ s, stg_ReportID s =? reportID) any_order db.

Definition GetPVEStoragesForReports (reportIDs : list Z) (db : DB) :
    gmap Z (list PVEStorage) :=
  if is_nil reportIDs then ∅ else
  group_by stg_ReportID
    (select_from PveStorages (λ s, in_ids reportIDs (stg_ReportID s))
      (lex_le stg_ReportID (λ s1 s2, String.leb (stg_Storage s1) (stg_Storage s2))) db).

Definition newest_content (c1 c2 : PVEStorageContent) : bool := cnt_CTime c2 <=? cnt_CTime c1.

Definition GetPVEStorageContent (storageID : Z) (db : DB) : list PVEStorageContent :=
  select_from PveStorageContents (λ c, cnt_StorageID c =? storageID) newest_content db.

Definition GetPVEStorageContentForStorages (storageIDs : list Z) (db : DB) :
    gmap Z (list PVEStorageContent) :=
  if is_nil storageIDs then ∅ else
  group_by cnt_StorageID
    (select_from PveStorageContents (λ c, in_ids storageIDs (cnt_StorageID c))
      (lex_le cnt_StorageID newest_content) db).

Definition GetPVEStorageInfo (storageID : Z) (db : DB) : result PVEStorageInfo :=
  scan_first Ok
    (select_from PveStorageInfos (λ i, info_StorageID i =? storageID) any_order db).

Definition GetPVEStorageInfoForStorages (storageIDs : list Z) (db : DB) :
    gmap Z PVEStorageInfo :=
  if is_nil storageIDs then ∅ else
  index_by info_StorageID
    (select_from PveStorageInfos (λ i, in_ids storageIDs (info_StorageID i)) any_order db).

Definition by_vmid (t1 t2 : PVEBackupTask) : bool := task_VMID t1 <=? task_VMID t2.

Definition GetPVEBackupTasksForReport (reportID : Z) (db : DB) : list PVEBackupTask :=
  select_from PveBackupTasks (λ t, task_ReportID t =? reportID) by_vmid db.

Definition GetPVEBackupTasksForReports (reportIDs : list Z) (db : DB) :
    gmap Z (list PVEBackupTask) :=
  if is_nil reportIDs then ∅ else
  group_by task_ReportID
    (select_from PveBackupTasks (λ t, in_ids reportIDs (task_ReportID t))
      (lex_le task_ReportID by_vmid) db).
End queries.

(** ** Pruning *)

(** [SELECT s.id FROM pve_storages s JOIN pve_reports r ON r.id = s.report_id WHERE ...]. *)
Definition storages_under (cond : ReportRow PVEReport → bool) (db : DB) : list Z :=
  stg_ID <$> matching PveStorages (λ s, in_ids (report_ids PVE cond db) (stg_ReportID s)) db.

Definition delete_pve_parts (cond : ReportRow PVEReport → bool) : prog DB () :=
  DELETE_IN PveStorageContents (λ db c, in_ids (storages_under cond db) (cnt_StorageID c)) ≫= λ _,
  DELETE_IN PveStorageInfos (λ db i, in_ids (storages_under cond db) (info_StorageID i)) ≫= λ _,
  DELETE_IN PveStorages (λ db s, in_ids (report_ids PVE cond db) (stg_ReportID s)) ≫= λ _,
  DELETE_IN PveBackupTasks (λ db t, in_ids (report_ids PVE cond db) (task_ReportID t)) ≫= λ _,
  mret ().

Definition DeleteOldPVEReports (cutoff : Time) : prog DB Z :=
  tx (delete_pve_parts (is_old PVE cutoff) ≫= λ _,
      delete_reports PVE (is_old PVE cutoff)).

(** ** The reports the tables stand for *)

Definition info_payload (i : PVEStorageInfo) : StorageInfoPayload :=
  {| sip_Total := info_Total i; sip_Used := info_Used i; sip_Avail := info_Avail i;
     sip_UsedPct := info_UsedPct i; sip_Active := info_Active i;
     sip_Enabled := info_Enabled i; sip_Lvl := info_Lvl i |}.

Definition content_payload (c : PVEStorageContent) : ContentDataPayload :=
  {| cdp_VMID := cnt_VMID c; cdp_Format := cnt_Format c; cdp_Size := cnt_Size c;
     cdp_Content := cnt_Content c; cdp_VolID := cnt_VolID c; cdp_CTime := cnt_CTime c;
     cdp_Subtype := cnt_Subtype c; cdp_Notes := cnt_Notes c;
     cdp_Verification := cnt_Verification c |}.

Definition task_payload (t : PVEBackupTask) : BackupTaskPayload :=
  {| btp_VMID := task_VMID t; btp_VMName := task_VMName t; btp_Status := task_Status t;
     btp_StartTime := task_StartTime t; btp_EndTime := task_EndTime t;
     btp_Duration := task_Duration t; btp_Size := task_Size t;
     btp_Filename := task_Filename t |}.

Definition infos_view := view PveStorageInfos info_StorageID info_payload.
Definition contents_view := view PveStorageContents cnt_StorageID content_payload.
Definition tasks_view := view PveBackupTasks task_ReportID task_payload.

Definition storage_payload (db : DB) (s : PVEStorage) : StoragePayload :=
  {| stp_Digest := stg_Digest s; stp_PruneBackups := stg_PruneBackups s;
     stp_Shared := stg_Shared s; stp_Server := stg_Server s; stp_Storage := stg_Storage s;
     stp_Path := stg_Path s; stp_Content := stg_Content s; stp_Type := stg_Type s;
     stp_Status := stg_Status s; stp_StorageInfo := infos_view (stg_ID s) db;
     stp_ContentData := contents_view (stg_ID s) db |}.

(** What is kept of a storage: its pruning rules are kept as compact text. *)
Definition kept_storage (s : StoragePayload) : StoragePayload :=
  {| stp_Digest := stp_Digest s; stp_PruneBackups := Marshal_raw (stp_PruneBackups s);
     stp_Shared := stp_Shared s; stp_Server := stp_Server s; stp_Storage := stp_Storage s;
     stp_Path := stp_Path s; stp_Content := stp_Content s; stp_Type := stp_Type s;
     stp_Status := stp_Status s; stp_StorageInfo := stp_StorageInfo s;
     stp_ContentData := stp_ContentData s |}.

Definition storages_view (reportID : Z) (db : DB) : list StoragePayload :=
  storage_payload db <$> List.filter (λ s, stg_ReportID s =? reportID) (in_order PveStorages db).

Record StoredPVE := {
  spv_Report : ReportRow PVEReport; spv_Storages : list StoragePayload;
  spv_Tasks : list BackupTaskPayload }.

Definition stored_pve (db : DB) (r : ReportRow PVEReport) : StoredPVE :=
  {| spv_Report := r; spv_Storages := storages_view (pver_ID (rr_Report r)) db;
     spv_Tasks := tasks_view (pver_ID (rr_Report r)) db |}.

Definition pve_reports (db : DB) : list StoredPVE :=
  stored_pve db <$> in_order (Reports PVE) db.

(** *** The specification of an insertion on that list *)

Definition stored_of (now : Time) (serverID : Z) (req : PVEReportRequest) (id : Z) : StoredPVE :=
  {| spv_Report := new_pve_report now serverID (pvq_LastBackupStatus req)
       {| sw_Total := pvq_SwapTotal req; sw_Used := pvq_SwapUsed req;
          sw_Enabled := pvq_SwapEnabled req |} (pvq_ReportID req) id;
     spv_Storages := kept_storage <$> pvq_Storages req; spv_Tasks := pvq_BackupTasks req |}.

Definition token_stored (serverID : Z) (token : string) (l : list StoredPVE) : bool :=
  negb (str_empty token) && existsb (λ s, has_token PVE serverID token (spv_Report s)) l.

Definition spec_insert (now : Time) (serverID : Z) (req : PVEReportRequest) (id : Z)
    (l : list StoredPVE) : list StoredPVE :=
  if token_stored serverID (pvq_ReportID req) l then l
  else l ++ [stored_of now serverID req id].

(** ** Lemmas *)

Definition storage_tables : list tbl := [PveStorages; PveStorageInfos; PveStorageContents].

(** What the insertion of storages under the report [R] does. *)
Definition storages_added := extended storage_tables storages_view.

Lemma not_in_storage_tables u :
  u ∉ storage_tables → u ≠ PveStorages ∧ u ≠ PveStorageInfos ∧ u ≠ PveStorageContents.
Proof. unfold storage_tables. set_solver. Qed.

Lemma storage_payload_frame db db' s :
  infos_view (stg_ID s) db' = infos_view (stg_ID s) db →
  contents_view (stg_ID s) db' = contents_view (stg_ID s) db →
  storage_payload db' s = storage_payload db s.
Proof. unfold storage_payload. by intros -> ->. Qed.

Lemma storages_view_frame R db db' :
  db' PveStorages = db PveStorages →
  (∀ s, s ∈ in_order PveStorages db → storage_payload db' s = storage_payload db s) →
  storages_view R db' = storages_view R db.
Proof.
  intros Ht Hs. unfold storages_view. rewrite (in_order_frame PveStorages db db' Ht).
  apply list_fmap_ext. intros i s Hi. apply list_elem_of_lookup_2 in Hi.
  apply elem_of_filter_bool in Hi as [Hi _]. by apply Hs.
Qed.

Lemma run_insert_storage R st db :
  wf db → present db (Reports PVE) R = true →
  ∃ db', run (insert_storage R st) db = (Ok (), db') ∧
    storages_added R [kept_storage st] db db'.
Proof.
  intros Hwf HR. set (sid := next_id db PveStorages).
  destruct (INSERT_ok PveStorages (new_storage R st) db Hwf) as (db1 & Hrun1 & Hi);
    [done|by apply clashes_false|by eapply (ref_ok (t := PveStorages) (Reports PVE) stg_ReportID)|].
  fold sid in Hrun1, Hi.
  assert (present db1 PveStorages sid = true) as Hsid.
  { eapply present_Some, (ins_row _ _ _ _ Hi). }
  destruct (run_insert_each PveStorageInfos info_StorageID info_payload PveStorages sid
    (λ x, new_info sid x) id (λ info, wrap_err "insert storage info" (insertPVEStorageInfo sid info))
    (stp_StorageInfo st) db1) as (db2 & Hrun2 & Ha2);
    [by intros; eapply run_wrap_ok, run_ret_unit|by intros []|done| |apply Hi|done|].
  { intros db' x i Hp. by eapply (ref_ok (t := PveStorageInfos) PveStorages info_StorageID). }
  destruct (run_insert_each PveStorageContents cnt_StorageID content_payload PveStorages sid
    (λ x, new_content sid x) id
    (λ c, wrap_err "insert storage content" (insertPVEStorageContent sid c))
    (stp_ContentData st) db2) as (db3 & Hrun3 & Ha3);
    [by intros; eapply run_wrap_ok, run_ret_unit|by intros []|done| |apply Ha2|
     by apply (app_present _ _ _ _ _ _ _ Ha2)|].
  { intros db' x i Hp. by eapply (ref_ok (t := PveStorageContents) PveStorages cnt_StorageID). }
  rewrite list_fmap_id in Ha2. rewrite list_fmap_id in Ha3.
  exists db3. split.
  { unfold insert_storage, insertPVEStorage. rewrite run_bind.
    erewrite run_wrap_ok by (by eapply run_wrap_ok). rewrite run_bind, Hrun2. done. }
  pose proof (app_other _ _ _ _ _ _ _ Ha3) as O3. pose proof (app_other _ _ _ _ _ _ _ Ha2) as O2.
  pose proof (ins_other _ _ _ _ Hi) as O1. split.
  - apply Ha3.
  - intros R'.
    assert (∀ p, infos_view p db3 =
      infos_view p db ++ (if p =? sid then stp_StorageInfo st else [])) as Hinfos.
    { intros p. unfold infos_view. rewrite (view_frame _ _ _ _ db2 db3) by (by apply O3).
      rewrite (app_view _ _ _ _ _ _ _ Ha2). f_equal. by apply view_frame, O1. }
    assert (∀ p, contents_view p db3 =
      contents_view p db ++ (if p =? sid then stp_ContentData st else [])) as Hcontents.
    { intros p. unfold contents_view. rewrite (app_view _ _ _ _ _ _ _ Ha3). f_equal.
      rewrite (view_frame _ _ _ _ db1 db2) by (by apply O2). by apply view_frame, O1. }
    assert (present db PveStorages sid = false) as Hfresh.
    { unfold present, sid. by rewrite wf_fresh. }
    assert (in_order PveStorages db3 = in_order PveStorages db ++ [new_storage R st sid]) as Hord.
    { rewrite (in_order_frame PveStorages db2 db3) by (by apply O3).
      rewrite (in_order_frame PveStorages db1 db2) by (by apply O2). apply Hi. }
    unfold storages_view. rewrite Hord, filter_bool_app, fmap_app. f_equal.
    + apply list_fmap_ext. intros i s Hs. apply list_elem_of_lookup_2 in Hs.
      apply elem_of_filter_bool in Hs as [Hs _]. apply (old_row PveStorages db s Hwf) in Hs. simpl in Hs.
      assert (stg_ID s =? sid = false) as Hne by (apply Z.eqb_neq; unfold sid; lia).
      apply storage_payload_frame; rewrite ?Hinfos, ?Hcontents, Hne; apply app_nil_r.
    + simpl. rewrite (Z.eqb_sym R' R). destruct (R =? R'); [|done]. simpl. f_equal.
      unfold storage_payload, kept_storage. simpl. rewrite Hinfos, Hcontents, !Z.eqb_refl.
      unfold infos_view, contents_view.
      by rewrite (view_fresh PveStorageInfos PveStorages _ _ Restrict),
        (view_fresh PveStorageContents PveStorages _ _ Restrict).
  - intros u (? & ? & ?)%not_in_storage_tables. by rewrite O3, O2, O1.
  - intros u i Hp. by apply (app_present _ _ _ _ _ _ _ Ha3), (app_present _ _ _ _ _ _ _ Ha2),
      (ins_present _ _ _ _ Hi).
Qed.

Lemma fresh_report_views db R :
  wf db → present db (Reports PVE) R = false → storages_view R db = [] ∧ tasks_view R db = [].
Proof.
  intros Hwf HR. split.
  - pose proof (view_fresh PveStorages (Reports PVE) stg_ReportID (λ s, s) Restrict R db
      eq_refl Hwf HR) as Hv. unfold view in Hv. rewrite list_fmap_id in Hv.
    exact (f_equal (fmap (storage_payload db)) Hv).
  - by apply (view_fresh PveBackupTasks (Reports PVE) _ _ Restrict).
Qed.

(** The whole report: one more in the list, the others as they were. *)
Lemma run_pve_report_body now serverID req db :
  wf db → present db (Servers PVE) serverID = true →
  known PVE serverID (pvq_ReportID req) db = false →
  ∃ db', run (pve_report_body now serverID req) db = (Ok (), db') ∧ wf db' ∧
    (∀ k, db' (Servers k) = db (Servers k)) ∧
    pve_reports db' = pve_reports db ++ [stored_of now serverID req (next_id db (Reports PVE))].
Proof.
  intros Hwf Hs Hnew%known_false. set (R := next_id db (Reports PVE)).
  set (row := new_pve_report now serverID (pvq_LastBackupStatus req)
    {| sw_Total := pvq_SwapTotal req; sw_Used := pvq_SwapUsed req;
       sw_Enabled := pvq_SwapEnabled req |} (pvq_ReportID req)).
  destruct (report_INSERT_ok PVE row serverID (pvq_ReportID req) db Hwf Hs)
    as (db1 & Hrun1 & Hi); [done|done|]. fold R in Hrun1, Hi.
  assert (present db1 (Reports PVE) R = true) as HR1.
  { eapply present_Some, (ins_row _ _ _ _ Hi). }
  destruct (run_extend_each storage_tables storages_view (Reports PVE) R kept_storage
    (insert_storage R) (pvq_Storages req) db1 (run_insert_storage R)) as (db2 & Hrun2 & H2);
    [apply Hi|done|].
  destruct (run_insert_each PveBackupTasks task_ReportID task_payload (Reports PVE) R
    (λ x, new_task R x) id (λ task, wrap_err ("insert backup task vmid " +:+ Itoa (btp_VMID task))
       (insertPVEBackupTask R task)) (pvq_BackupTasks req) db2) as (db3 & Hrun3 & H3);
    [by intros; eapply run_wrap_ok, run_ret_unit|by intros []|done| |apply H2|
     by apply (ext_present _ _ _ _ _ _ H2)|].
  { intros db' x i Hp. by eapply (ref_ok (t := PveBackupTasks) (Reports PVE) task_ReportID). }
  rewrite list_fmap_id in H3.
  exists db3. split_and!; [|apply H3| |].
  { unfold pve_report_body, insertPVEReportWithSwap. rewrite run_bind.
    rewrite (run_wrap_ok _ _ _ _ _ Hrun1). cbn beta iota. rewrite run_bind, Hrun2.
    exact Hrun3. }
  all: pose proof (app_other _ _ _ _ _ _ _ H3) as O3.
  all: pose proof (ext_other _ _ _ _ _ _ H2) as O2.
  all: pose proof (ins_other _ _ _ _ Hi) as O1.
  { intros k. rewrite O3, O2, O1 by set_solver. done. }
  assert (present db (Reports PVE) R = false) as Hfresh.
  { unfold present, R. by rewrite wf_fresh. }
  destruct (fresh_report_views db R Hwf Hfresh) as [Hs0 Ht0].
  assert (∀ R', storages_view R' db3 =
    storages_view R' db ++ (if R' =? R then kept_storage <$> pvq_Storages req else [])) as Hsv.
  { intros R'. rewrite (storages_view_frame R' db2 db3); [|by apply O3|].
    - rewrite (ext_view _ _ _ _ _ _ H2). f_equal.
      apply storages_view_frame; [by apply O1|]. intros s _.
      apply storage_payload_frame; by apply view_frame, O1.
    - intros s _. apply storage_payload_frame; by apply view_frame, O3. }
  assert (∀ R', tasks_view R' db3 =
    tasks_view R' db ++ (if R' =? R then pvq_BackupTasks req else [])) as Htv.
  { intros R'. unfold tasks_view. rewrite (app_view _ _ _ _ _ _ _ H3). f_equal.
    rewrite (view_frame _ _ _ _ db1 db2) by (by (apply O2; set_solver)). by apply view_frame, O1. }
  unfold pve_reports.
  rewrite (in_order_frame (Reports PVE) db2 db3) by (by apply O3).
  rewrite (in_order_frame (Reports PVE) db1 db2) by (by (apply O2; set_solver)).
  rewrite (ins_order _ _ _ _ Hi), fmap_app. f_equal.
  - apply list_fmap_ext. intros i r Hr. apply list_elem_of_lookup_2 in Hr.
    apply (elem_of_in_order (Reports PVE)) in Hr as [k Hr].
    apply (wf_ids _ Hwf) in Hr as [<- Hle]. simpl in Hle.
    assert (pver_ID (rr_Report r) =? R = false) as Hne by (apply Z.eqb_neq; unfold R, next_id; simpl; lia).
    unfold stored_pve. by rewrite Hsv, Htv, Hne, !app_nil_r.
  - simpl. unfold stored_pve, stored_of. fold row. simpl.
    by rewrite Hsv, Htv, !Z.eqb_refl, Hs0, Ht0.
Qed.

(** Whether the token is there, on the list of stored reports. *)
Lemma known_token_stored serverID token db :
  known PVE serverID token db = token_stored serverID token (pve_reports db).
Proof. by apply (known_stored PVE). Qed.

Lemma strict_pve_report_body now serverID req : strict (pve_report_body now serverID req).
Proof.
  unfold pve_report_body, insertPVEReportWithSwap, insert_storage, insertPVEStorage,
    insertPVEStorageInfo, insertPVEStorageContent, insertPVEBackupTask, INSERT.
  repeat first [progress intros | apply strict_bind | apply strict_wrap_err
    | apply strict_for_each | apply strict_stmt | constructor ].
Qed.

Lemma preserves_InsertPVEReportData now serverID req :
  preserves wf (InsertPVEReportData now serverID req).
Proof.
  apply preserves_insert_report_data. unfold pve_report_body, insertPVEReportWithSwap,
    insert_storage, insertPVEStorage, insertPVEStorageInfo, insertPVEStorageContent,
    insertPVEBackupTask. keeps_wf.
Qed.

(** One call, whatever fails. *)
Lemma InsertPVEReportData_step now serverID req db :
  wf db → present db (Servers PVE) serverID = true →
  is_ok (run (InsertPVEReportData now serverID req) db).1 = true ∧
  always (InsertPVEReportData now serverID req) (λ r db', wf db' ∧
    (∀ k, db' (Servers k) = db (Servers k)) ∧
    match r with
    | Ok _ => pve_reports db' =
        spec_insert now serverID req (next_id db (Reports PVE)) (pve_reports db)
    | Err _ => db' = db
    end) db.
Proof.
  intros Hwf Hs. unfold spec_insert. rewrite <-known_token_stored.
  assert (∃ db', run (InsertPVEReportData now serverID req) db = (Ok (), db') ∧
    (∀ k, db' (Servers k) = db (Servers k)) ∧
    pve_reports db' = if known PVE serverID (pvq_ReportID req) db then pve_reports db
      else pve_reports db ++ [stored_of now serverID req (next_id db (Reports PVE))])
    as (db' & Hrun & Hsrv & Hrep).
  { unfold InsertPVEReportData. rewrite run_insert_report_data.
    destruct (known PVE serverID (pvq_ReportID req) db) eqn:Hk; [by eexists|].
    destruct (run_pve_report_body now serverID req db Hwf Hs Hk) as (db' & -> & _ & Hk' & Hr).
    eauto. }
  split; [by rewrite Hrun|]. intros io.
  pose proof (exec_preserves wf (InsertPVEReportData now serverID req) io db
    (preserves_InsertPVEReportData _ _ _) Hwf) as Hwf'.
  destruct (exec (InsertPVEReportData now serverID req) io db) as [[[[]|e] db1] io'] eqn:Hx;
    (split; [done|]).
  - apply strict_Ok in Hx; [|apply strict_insert_report_data, strict_pve_report_body].
    rewrite Hrun in Hx. by simplify_eq.
  - by apply insert_report_data_atomic in Hx as ->.
Qed.

(** C4: on the list of stored reports, saving a PVE report is one atomic step of its
    specification: a report of a known token changes nothing, any other is added at
    the end exactly as sent (the pruning rules as compact text), and every other
    report stays as it was.  It never fails on a constraint; when the driver fails, at
    whichever statement, the database is exactly what it was. *)
Theorem InsertPVEReportData_refines (now : Time) (serverID : Z) (req : PVEReportRequest)
    (db : DB) :
  wf db → present db (Servers PVE) serverID = true →
  is_ok (run (InsertPVEReportData now serverID req) db).1 = true ∧
  always (InsertPVEReportData now serverID req) (λ r db', wf db' ∧
    match r with
    | Ok _ => pve_reports db' =
        spec_insert now serverID req (next_id db (Reports PVE)) (pve_reports db)
    | Err _ => db' = db
    end) db.
Proof.
  intros Hwf Hs. destruct (InsertPVEReportData_step now serverID req db Hwf Hs) as [Hok Hal].
  split; [done|]. eapply always_mono; [exact Hal|].
  intros r db' (Hwf' & _ & Hr). done.
Qed.

(** The tables of reports. *)
Definition pve_tables : list tbl :=
  [Reports PVE; PveBackupTasks; PveStorages; PveStorageInfos; PveStorageContents].

Lemma pve_reports_frame db db' :
  (∀ t, t ∈ pve_tables → db' t = db t) → pve_reports db' = pve_reports db.
Proof.
  intros Hf. unfold pve_tables in Hf. unfold pve_reports.
  rewrite (in_order_frame (Reports PVE) db db') by (apply Hf; set_solver).
  apply list_fmap_ext. intros i r _. unfold stored_pve. f_equal.
  - apply storages_view_frame; [apply Hf; set_solver|]. intros s _.
    apply storage_payload_frame; apply view_frame, Hf; set_solver.
  - apply view_frame, Hf; set_solver.
Qed.

(** ** A client that repeats its report until it is accepted *)

Section attempts.
Context `{!SqlOrder}.

Definition pve_server_of (key : Z) (db : DB) (id : Z) : Prop :=
  ∃ r, rows_of db (Servers PVE) !! id = Some r ∧ sr_APIKeyID r = Some key ∧
    sr_IsDeleted r = false.

(** One attempt: the report is stored for the server of the key, or not at all. *)
Lemma SavePVEReport_step now req key db :
  0 < key → wf db →
  always (SavePVEReportForAPIKey now req key) (λ r db', wf db' ∧
    match r with
    | Ok _ => ∃ id n, pve_server_of key db' id ∧ (∀ id0, pve_server_of key db id0 → id0 = id) ∧
        pve_reports db' = spec_insert now id req n (pve_reports db)
    | Err _ => pve_reports db' = pve_reports db ∧
        (∀ id0, pve_server_of key db id0 → pve_server_of key db' id0)
    end) db.
Proof.
  intros Hkey Hwf. unfold SavePVEReportForAPIKey. rewrite (proj2 (Z.ltb_lt 0 key)) by done.
  apply always_bind, always_wrap_err. eapply always_mono.
  { apply always_and; [|by apply upsert_step].
    by apply (always_preserves wf), Hwf; apply preserves_upsert_server_for_key. }
  intros [id|e] db1 (Hwf1 & Hother & Hup); [|by rewrite Hup].
  destruct Hup as ((row & Hrow & Hk & _ & _ & Hd) & Hsame & Hold).
  assert (present db1 (Servers PVE) id = true) as Hp by (by eapply present_Some).
  apply always_wrap_err. eapply always_mono;
    [apply (InsertPVEReportData_step now id req db1 Hwf1 Hp)|].
  assert (∀ id0, pve_server_of key db id0 → id0 = id) as Huniq.
  { intros id0 (r0 & Hr0 & Hk0 & Hd0). destruct (decide (id0 = id)) as [|Hne]; [done|].
    apply (server_key_unique PVE db1 id0 id r0 row key); [done| |done|done|done].
    exact (eq_trans (Hsame id0 Hne) Hr0). }
  intros [[]|e] db2 (Hwf2 & Hsrv & Hrep); (split; [done|]).
  - exists id, (next_id db1 (Reports PVE)). split_and!.
    + exists row. by rewrite Hsrv.
    + done.
    + rewrite Hrep, (pve_reports_frame db db1); [done|]. intros t Ht. apply Hother. set_solver.
  - subst db2. split; [apply pve_reports_frame; intros t Ht; apply Hother; set_solver|].
    intros id0 Hid0. rewrite (Huniq id0 Hid0). by exists row.
Qed.

(** The attempts, each at its time and with its failures. *)
Fixpoint save_attempts (req : PVEReportRequest) (key : Z)
    (l : list (Time * list (option error))) (db : DB) : list (result ()) * DB :=
  match l with
  | [] => ([], db)
  | (now, io) :: l =>
      let '(r, db1, _) := exec (SavePVEReportForAPIKey now req key) io db in
      let '(rs, db2) := save_attempts req key l db1 in (r :: rs, db2)
  end.

Lemma spec_insert_known now id req n l :
  token_stored id (pvq_ReportID req) l = true → spec_insert now id req n l = l.
Proof. unfold spec_insert. by intros ->. Qed.

Lemma token_stored_spec now id req n l :
  pvq_ReportID req ≠ "" → token_stored id (pvq_ReportID req) (spec_insert now id req n l) = true.
Proof.
  intros Hne. unfold spec_insert.
  destruct (token_stored id (pvq_ReportID req) l) eqn:Ht; [done|].
  unfold token_stored. rewrite existsb_app. simpl. unfold has_token. simpl.
  rewrite Z.eqb_refl. unfold str_empty, str_eqb. rewrite bool_decide_false by done.
  rewrite bool_decide_true by done. simpl. by rewrite !orb_true_r.
Qed.

Lemma save_attempts_done req key l db id :
  0 < key → wf db → pve_server_of key db id →
  token_stored id (pvq_ReportID req) (pve_reports db) = true →
  pve_reports (save_attempts req key l db).2 = pve_reports db.
Proof.
  intros Hkey. revert db. induction l as [|[now io] l IH]; intros db Hwf Hid Ht; [done|].
  simpl. pose proof (SavePVEReport_step now req key db Hkey Hwf io) as Hstep.
  destruct (exec _ io db) as [[r db1] io1]. specialize (IH db1).
  destruct (save_attempts req key l db1) as [rs db2]. simpl in *.
  destruct Hstep as [Hwf1 Hstep].
  assert (pve_reports db1 = pve_reports db ∧ pve_server_of key db1 id) as [Hr Hid1].
  { destruct r as [[]|e].
    - destruct Hstep as (id1 & n & Hid1 & Hu & ->). rewrite (Hu id Hid) in *.
      by rewrite spec_insert_known.
    - destruct Hstep. auto. }
  rewrite IH; [done|done|done|by rewrite Hr].
Qed.

(** C5: a client may repeat its report any number of times, at any times and with any
    failures in between: once one of the attempts was answered with success, the
    report is stored exactly once, with the content it was sent with; before, not at
    all.  A report token makes the attempts one report. *)
Theorem report_stored_exactly_once (req : PVEReportRequest) (key : Z)
    (l : list (Time * list (option error))) (db : DB) :
  0 < key → wf db → pvq_ReportID req ≠ "" →
  let '(rs, db') := save_attempts req key l db in
  if existsb is_ok rs
  then ∃ now id n, pve_reports db' = spec_insert now id req n (pve_reports db)
  else pve_reports db' = pve_reports db.
Proof.
  intros Hkey Hwf Htok. revert db Hwf. induction l as [|[now io] l IH]; intros db Hwf; [done|].
  simpl. pose proof (SavePVEReport_step now req key db Hkey Hwf io) as Hstep.
  destruct (exec _ io db) as [[r db1] io1]. destruct Hstep as [Hwf1 Hstep].
  specialize (IH db1 Hwf1).
  destruct (save_attempts req key l db1) as [rs db2] eqn:Hl. simpl.
  destruct r as [[]|e]; simpl.
  - destruct Hstep as (id & n & Hid & _ & Hr). exists now, id, n. rewrite <-Hr.
    pose proof (save_attempts_done req key l db1 id Hkey Hwf1 Hid) as Hdone.
    rewrite Hl in Hdone. apply Hdone. rewrite Hr. by apply token_stored_spec.
  - destruct Hstep as [<- _]. done.
Qed.
End attempts.

(** ** Pruning *)

Definition storage_goes (cond : ReportRow PVEReport → bool) (db : DB) : Z → bool :=
  in_ids (storages_under cond db).

(** The tables after the reports that satisfy [cond] and their parts were deleted, in
    whichever order. *)
Record pve_pruned (cond : ReportRow PVEReport → bool) (db db' : DB) : Prop := {
  pr_wf : wf db';
  pr_reports : in_order (Reports PVE) db' =
    List.filter (λ r, negb (cond r)) (in_order (Reports PVE) db);
  pr_storages : in_order PveStorages db' =
    List.filter (λ s, negb (goes PVE cond db (stg_ReportID s))) (in_order PveStorages db);
  pr_infos : in_order PveStorageInfos db' =
    List.filter (λ i, negb (storage_goes cond db (info_StorageID i))) (in_order PveStorageInfos db);
  pr_contents : in_order PveStorageContents db' =
    List.filter (λ c, negb (storage_goes cond db (cnt_StorageID c)))
      (in_order PveStorageContents db);
  pr_tasks : in_order PveBackupTasks db' =
    List.filter (λ t, negb (goes PVE cond db (task_ReportID t))) (in_order PveBackupTasks db) }.

Lemma storage_goes_row cond db i s :
  wf db → rows_of db PveStorages !! i = Some s →
  storage_goes cond db i = goes PVE cond db (stg_ReportID s).
Proof.
  intros Hwf Hs.
  exact (in_matching_ids PveStorages (λ s, goes PVE cond db (stg_ReportID s)) db i s Hwf Hs).
Qed.

(** What is left is exactly the other reports, with all their parts. *)
Lemma pve_pruned_reports cond db db' :
  wf db → pve_pruned cond db db' →
  pve_reports db' = List.filter (λ s, negb (cond (spv_Report s))) (pve_reports db).
Proof.
  intros Hwf Hp. unfold pve_reports. rewrite filter_fmap_bool, (pr_reports _ _ _ Hp). simpl.
  apply list_fmap_ext. intros i r Hr. apply list_elem_of_lookup_2 in Hr.
  apply (elem_of_filter_bool _ (in_order (Reports PVE) db)) in Hr as [Hr Hc%negb_true_iff].
  apply (elem_of_in_order (Reports PVE)) in Hr as [k Hr].
  pose proof (proj1 (wf_ids _ Hwf _ _ _ Hr)) as Hk. simpl in Hk.
  pose proof (goes_row PVE cond db k r Hwf Hr) as Hg. rewrite Hc in Hg.
  unfold stored_pve. f_equal; rewrite Hk.
  - unfold storages_view. rewrite (pr_storages _ _ _ Hp), filter_filter_bool.
    + apply list_fmap_ext. intros j s Hs. apply list_elem_of_lookup_2 in Hs.
      apply (elem_of_filter_bool _ (in_order PveStorages db)) in Hs as [Hs Hsk%Z.eqb_eq].
      apply (elem_of_in_order PveStorages) in Hs as [k' Hs].
      assert (storage_goes cond db (stg_ID s) = false) as Hsg.
      { rewrite (proj1 (wf_ids _ Hwf PveStorages _ _ Hs) : stg_ID s = k').
        by rewrite (storage_goes_row cond db k' s Hwf Hs), Hsk. }
      apply storage_payload_frame.
      * apply (view_filtered _ _ _ _ _ _ _ (pr_infos _ _ _ Hp)). by intros r' _ ->.
      * apply (view_filtered _ _ _ _ _ _ _ (pr_contents _ _ _ Hp)). by intros r' _ ->.
    + intros s _ ->%Z.eqb_eq. by rewrite Hg.
  - apply (view_filtered _ _ _ _ _ _ _ (pr_tasks _ _ _ Hp)). by intros r' _ ->.
Qed.

Lemma storage_goes_same cond db db' :
  db' (Reports PVE) = db (Reports PVE) → db' PveStorages = db PveStorages →
  storage_goes cond db' = storage_goes cond db.
Proof.
  intros Hr Hs. unfold storage_goes, storages_under. fold (goes PVE cond db') (goes PVE cond db).
  rewrite (goes_same PVE cond db db' Hr). by rewrite (matching_same PveStorages _ db db').
Qed.

(** What goes with the reports that satisfy [cond]. *)
Definition pve_marks (cond : ReportRow PVEReport → bool) (db0 : DB) (t : tbl) : Row t → bool :=
  match t return tbl_row t → bool with
  | Reports PVE => cond
  | PveStorages => λ s, goes PVE cond db0 (stg_ReportID s)
  | PveStorageInfos => λ i, storage_goes cond db0 (info_StorageID i)
  | PveStorageContents => λ c, storage_goes cond db0 (cnt_StorageID c)
  | PveBackupTasks => λ t, goes PVE cond db0 (task_ReportID t)
  | _ => λ _, false
  end.

Lemma closed_pve_marks cond db0 : wf db0 → closed (pve_marks cond db0) db0.
Proof.
  intros Hwf u fk Hfk j r i r0 Hr Hi Hr0 Hc.
  destruct u as [|[]|[]| | | | | | | | | | | | | | | |]; simpl in Hfk;
    try (by apply not_elem_of_nil in Hfk); apply list_elem_of_singleton in Hfk as ->;
    simpl in *; try done; injection Hi as <-.
  all: try (by rewrite (storage_goes_row cond db0 _ r0 Hwf Hr0)).
  all: exact (eq_trans (goes_row PVE cond db0 _ r0 Hwf Hr0) Hc).
Qed.

Lemma filtered_pve_pruned c cond db0 S db :
  filtered c db0 S db → pve_tables ⊆ S →
  (∀ t, t ∈ pve_tables → ∀ r, c t r = pve_marks cond db0 t r) → pve_pruned cond db0 db.
Proof.
  intros Hfl Hsub Hc.
  assert (∀ t, t ∈ pve_tables → in_order t db =
    List.filter (λ r, negb (pve_marks cond db0 t r)) (in_order t db0)) as Hord.
  { intros t Ht. rewrite (fl_order _ _ _ _ Hfl t) by set_solver. apply filter_bool_ext.
    intros r _. by rewrite Hc. }
  split; [apply Hfl|apply (Hord (Reports PVE))|apply (Hord PveStorages)
    |apply (Hord PveStorageInfos)|apply (Hord PveStorageContents)|apply (Hord PveBackupTasks)];
    unfold pve_tables; set_solver.
Qed.

(** Parts first, as pruning does it. *)
Lemma run_prune_pve cond db :
  wf db →
  ∃ db', run (delete_pve_parts cond ≫= λ _, delete_reports PVE cond) db =
    (Ok (Z.of_nat (length (matching (Reports PVE) cond db))), db') ∧
    filtered (pve_marks cond db) db pve_tables db'.
Proof.
  intros Hwf. pose proof (closed_pve_marks cond db Hwf) as Hcl.
  pose proof (filtered_start (pve_marks cond db) db Hwf) as F0.
  destruct (filtered_step _ db _ _ PveStorageContents
    (λ db c, storage_goes cond db (cnt_StorageID c)) Hwf Hcl F0) as (db1 & R1 & F1);
    [set_solver|each_reference|done|].
  destruct (filtered_step _ db _ _ PveStorageInfos
    (λ db i, storage_goes cond db (info_StorageID i)) Hwf Hcl F1) as (db2 & R2 & F2);
    [set_solver|each_reference| |].
  { intros k r _. by rewrite (storage_goes_same cond db) by (apply (fl_out _ _ _ _ F1); set_solver). }
  destruct (filtered_step _ db _ _ PveStorages
    (λ db s, goes PVE cond db (stg_ReportID s)) Hwf Hcl F2) as (db3 & R3 & F3);
    [set_solver|each_reference; set_solver| |].
  { intros k r _. by rewrite (goes_same PVE cond db) by (apply (fl_out _ _ _ _ F2); set_solver). }
  destruct (filtered_step _ db _ _ PveBackupTasks
    (λ db t, goes PVE cond db (task_ReportID t)) Hwf Hcl F3) as (db4 & R4 & F4);
    [set_solver|each_reference| |].
  { intros k r _. by rewrite (goes_same PVE cond db) by (apply (fl_out _ _ _ _ F3); set_solver). }
  destruct (filtered_step _ db _ _ (Reports PVE) (λ _, cond) Hwf Hcl F4) as (db5 & R5 & F5);
    [set_solver|each_reference; set_solver|done|].
  exists db5. split; [|done]. unfold delete_pve_parts. rewrite !run_bind. unfold storage_goes, goes in *.
  rewrite R1. cbn beta iota. rewrite !run_bind, R2. cbn beta iota. rewrite !run_bind, R3.
  cbn beta iota. rewrite run_bind, R4. cbn beta iota. rewrite run_mret.
  rewrite (matching_same (Reports PVE) cond db db4) in R5 by (apply (fl_out _ _ _ _ F4); set_solver).
  exact R5.
Qed.

Lemma strict_delete_pve_parts cond : strict (delete_pve_parts cond).
Proof. repeat constructor; eauto. Qed.

Lemma preserves_DeleteOldPVEReports cutoff : preserves wf (DeleteOldPVEReports cutoff).
Proof. unfold DeleteOldPVEReports, delete_pve_parts, delete_reports. keeps_wf. Qed.

Lemma DeleteOldPVEReports_step (cutoff : Time) (db : DB) :
  wf db →
  let old s := is_old PVE cutoff (spv_Report s) in
  is_ok (run (DeleteOldPVEReports cutoff) db).1 = true ∧
  always (DeleteOldPVEReports cutoff) (λ r db', wf db' ∧
    match r with
    | Ok n => n = len (List.filter old (pve_reports db)) ∧
        pve_reports db' = List.filter (λ s, negb (old s)) (pve_reports db) ∧
        ∀ t, t ∉ pve_tables → db' t = db t
    | Err _ => db' = db
    end) db.
Proof.
  intros Hwf old. destruct (run_prune_pve (is_old PVE cutoff) db Hwf) as (db' & Hrun & Hpr).
  assert (run (DeleteOldPVEReports cutoff) db =
    (Ok (len (List.filter old (pve_reports db))), db')) as Hall.
  { unfold DeleteOldPVEReports. rewrite run_tx, Hrun. do 2 f_equal. unfold len. f_equal.
    rewrite length_matching. unfold pve_reports. rewrite filter_fmap_bool. by rewrite length_fmap. }
  split; [by rewrite Hall|]. intros io.
  pose proof (exec_preserves wf _ io db (preserves_DeleteOldPVEReports cutoff) Hwf) as Hwf'.
  destruct (exec (DeleteOldPVEReports cutoff) io db) as [[[n|e] db1] io'] eqn:Hx; (split; [done|]).
  - apply strict_Ok in Hx.
    + rewrite Hall in Hx. simplify_eq. split_and!; [done| |apply Hpr].
      apply pve_pruned_reports; [done|]. by eapply filtered_pve_pruned.
    + apply strict_tx, strict_bind; [apply strict_delete_pve_parts|]. intros _. apply strict_stmt.
  - by apply exec_tx_atomic in Hx.
Qed.

(** pruning removes exactly the reports older than the cutoff, to the second, with
    everything that belongs to them, and counts them; every other report stays with
    all its storages and tasks, and so does every other table.  It never fails on a
    reference, and when the driver fails nothing is removed. *)
Theorem DeleteOldPVEReports_spec (cutoff : Time) (db : DB) :
  wf db →
  let old s := is_old PVE cutoff (spv_Report s) in
  is_ok (run (DeleteOldPVEReports cutoff) db).1 = true ∧
  always (DeleteOldPVEReports cutoff) (λ r db', wf db' ∧
    match r with
    | Ok n => n = len (List.filter old (pve_reports db)) ∧
        pve_reports db' = List.filter (λ s, negb (old s)) (pve_reports db) ∧
        ∀ t, t ∉ pve_tables → db' t = db t
    | Err _ => db' = db
    end) db.
Proof. apply DeleteOldPVEReports_step. Qed.

(** ** Examples *)

Module PveExamples.
Definition storage1 : StoragePayload :=
  {| stp_Digest := "d"; stp_PruneBackups := ""; stp_Shared := false; stp_Server := "";
     stp_Storage := "local"; stp_Path := "/var"; stp_Content := "backup"; stp_Type := "dir";
     stp_Status := "available";
     stp_StorageInfo := [{| sip_Total := 100; sip_Used := 40; sip_Avail := 60;
       sip_UsedPct := Float 40; sip_Active := true; sip_Enabled := true; sip_Lvl := 0 |}];
     stp_ContentData := [] |}.

Definition request (token : string) : PVEReportRequest :=
  {| pvq_ReportID := token; pvq_Hostname := "pve1"; pvq_IPAddress := "10.0.0.1";
     pvq_PublicIP := ""; pvq_ClientVersion := "1.0"; pvq_MachineID := "m1";
     pvq_SwapTotal := 0; pvq_SwapUsed := 0; pvq_SwapEnabled := false;
     pvq_LastBackupStatus := None; pvq_Storages := [storage1];
     pvq_BackupTasks := [{| btp_VMID := 100; btp_VMName := "web"; btp_Status := "OK";
       btp_StartTime := 1; btp_EndTime := 2; btp_Duration := 1; btp_Size := 10;
       btp_Filename := "" |}] |}.

(** Key 7 reports twice. *)
Definition db1 : DB :=
  (run (SavePVEReportForAPIKey (10 * Second) (request "a") 7 ≫= λ _,
        SavePVEReportForAPIKey (20 * Second) (request "b") 7) empty_db).2.

Lemma preserves_SavePVEReportForAPIKey now req key :
  preserves wf (SavePVEReportForAPIKey now req key).
Proof.
  unfold SavePVEReportForAPIKey. apply preserves_bind.
  - apply preserves_wrap_err. destruct (0 <? key).
    + apply preserves_upsert_server_for_key.
    + apply preserves_upsert_server.
  - intros id. apply preserves_wrap_err, preserves_InsertPVEReportData.
Qed.

Lemma wf_pve_db1 : wf db1.
Proof.
  apply wf_run; [|apply wf_empty_db].
  apply preserves_bind; intros; apply preserves_SavePVEReportForAPIKey.
Qed.
End PveExamples.

Lemma InsertPVEReportData_refines_witness :
  present PveExamples.db1 (Servers PVE) 1 = true ∧
  is_ok (run (InsertPVEReportData (30 * Second) 1 (PveExamples.request "c")) PveExamples.db1).1
    = true.
Proof.
  split; [vm_compute; reflexivity|].
  apply (InsertPVEReportData_refines (30 * Second) 1 (PveExamples.request "c") PveExamples.db1);
    [apply PveExamples.wf_pve_db1|vm_compute; reflexivity].
Defined.

Lemma report_stored_exactly_once_witness :
  ∃ now id n,
    pve_reports (save_attempts (PveExamples.request "c") 7
      [(30 * Second, [None; None; None; Some (ErrMsg "disk I/O error")]); (40 * Second, [])]
      PveExamples.db1).2 =
    spec_insert now id (PveExamples.request "c") n (pve_reports PveExamples.db1).
Proof.
  pose proof (report_stored_exactly_once (PveExamples.request "c") 7
    [(30 * Second, [None; None; None; Some (ErrMsg "disk I/O error")]); (40 * Second, [])]
    PveExamples.db1 ltac:(lia) PveExamples.wf_pve_db1 ltac:(discriminate)) as Honce.
  revert Honce. generalize (eq_refl : existsb is_ok (save_attempts (PveExamples.request "c") 7
    [(30 * Second, [None; None; None; Some (ErrMsg "disk I/O error")]); (40 * Second, [])]
    PveExamples.db1).1 = true).
  destruct (save_attempts _ _ _ _) as [rs db']. simpl. intros Hok. rewrite Hok. done.
Defined.

Lemma DeleteOldPVEReports_spec_witness :
  len (pve_reports PveExamples.db1) = 2 ∧
  is_ok (run (DeleteOldPVEReports (15 * Second)) PveExamples.db1).1 = true ∧
  len (pve_reports (run (DeleteOldPVEReports (15 * Second)) PveExamples.db1).2) = 1.
Proof.
  split; [vm_compute; reflexivity|]. split; [|vm_compute; reflexivity].
  apply (DeleteOldPVEReports_spec (15 * Second) PveExamples.db1), PveExamples.wf_pve_db1.
Defined.
