(* ===== verification/PbsReports.v ===== *)
(** * PBS reports: [internal/store/pbs.go]

    The insertion of a report with its datastores, their history, collection status
    and snapshots, and its maintenance tasks; the queries on them; the removal of old
    reports.  The abstract value of the tables is the list [pbs_reports]. *)
From stdpp Require Import sorting.
From S2P Require Import Prelude GoStrings GoNum GoTime Domain Validation Sql Relational Schema Servers Reports PveReports.

(** ** Insertions *)

Definition new_pbs_report (now : Time) (serverID : Z) (swap : HostSwap) (token : string)
    (id : Z) : ReportRow PBSReport :=
  {| rr_Report :=
       {| pbsr_ID := id; pbsr_ServerID := serverID; pbsr_ReportedAt := sqliteUTC now;
          pbsr_IsStale := false; pbsr_StaleReason := ""; pbsr_SwapTotal := sw_Total swap;
          pbsr_SwapUsed := sw_Used swap; pbsr_SwapEnabled := sw_Enabled swap |};
     rr_Token := token |}.

Definition insertPBSReportWithSwap (now : Time) (serverID : Z) (swap : HostSwap)
    (token : string) : prog DB Z :=
  wrap_err "insert pbs_report" (INSERT (Reports PBS) (new_pbs_report now serverID swap token)).

Definition InsertPBSReportWithSwap (now : Time) (serverID : Z) (swap : HostSwap) : prog DB Z :=
  insertPBSReportWithSwap now serverID swap "".

Definition InsertPBSReport (now : Time) (serverID : Z) : prog DB Z :=
  InsertPBSReportWithSwap now serverID no_swap.

Definition new_store (reportID : Z) (ds : PBSDatastorePayload) (id : Z) : PBSStore :=
  {| ds_ID := id; ds_ReportID := reportID; ds_Store := dsp_Store ds; ds_Total := dsp_Total ds;
     ds_Used := dsp_Used ds; ds_Avail := dsp_Avail ds;
     ds_EstimatedFullDate := dsp_EstimatedFullDate ds; ds_MountStatus := dsp_MountStatus ds;
     ds_HistoryStart := dsp_HistoryStart ds; ds_HistoryDelta := dsp_HistoryDelta ds |}.

Definition insertPBSStore (reportID : Z) (ds : PBSDatastorePayload) : prog DB Z :=
  wrap_err "insert pbs_store" (INSERT PbsStores (new_store reportID ds)).

Definition new_point (storeID : Z) (iv : Z * option float64) (id : Z) : HistoryRow :=
  {| hist_ID := id; hist_StoreID := storeID; hist_Position := iv.1; hist_Value := iv.2 |}.

(** [for i, v := range history]. *)
Definition indexed {A} (l : list A) : list (Z * A) := imap (λ i v, (Z.of_nat i, v)) l.

Definition insertPBSStoreHistory (storeID : Z) (history : list (option float64)) : prog DB () :=
  for_each (indexed history) (λ iv,
    INSERT PbsStoreHistory (new_point storeID iv) ≫= λ _, mret ()).

Definition new_snapshot (storeID : Z) (g : PBSGroupPayload) (id : Z) : PBSSnapshot :=
  {| sn_ID := id; sn_StoreID := storeID; sn_BackupType := gp_BackupType g;
     sn_BackupID := gp_BackupID g; sn_LastBackup := gp_LastBackup g;
     sn_BackupCount := gp_BackupCount g; sn_Owner := gp_Owner g; sn_Comment := gp_Comment g;
     sn_VerificationState := gp_VerificationState g; sn_Size := gp_Size g |}.

Definition insertPBSSnapshot (storeID : Z) (g : PBSGroupPayload) : prog DB () :=
  wrap_err "insert pbs_snapshot"
    (INSERT PbsSnapshots (new_snapshot storeID g) ≫= λ _, mret ()).

Definition new_gc (storeID : Z) (gc : GCStatusPayload) (id : Z) : PBSGCStatus :=
  {| gc_ID := id; gc_StoreID := storeID; gc_DiskBytes := gcp_DiskBytes gc;
     gc_DiskChunks := gcp_DiskChunks gc; gc_IndexDataBytes := gcp_IndexDataBytes gc;
     gc_IndexFileCount := gcp_IndexFileCount gc; gc_PendingBytes := gcp_PendingBytes gc;
     gc_PendingChunks := gcp_PendingChunks gc; gc_RemovedBad := gcp_RemovedBad gc;
     gc_RemovedBytes := gcp_RemovedBytes gc; gc_RemovedChunks := gcp_RemovedChunks gc;
     gc_StillBad := gcp_StillBad gc; gc_UPID := gcp_UPID gc |}.

Definition insertPBSGCStatus (storeID : Z) (gc : option GCStatusPayload) : prog DB () :=
  match gc with
  | None => mret ()
  | Some gc => INSERT PbsGcStatus (new_gc storeID gc) ≫= λ _, mret ()
  end.

Definition new_pbs_task (reportID : Z) (task : PBSTaskPayload) (id : Z) : PBSTask :=
  {| ptask_ID := id; ptask_ReportID := reportID; ptask_TaskType := ptp_TaskType task;
     ptask_JobID := ptp_JobID task; ptask_Remote := ptp_Remote task;
     ptask_RemoteStore := ptp_RemoteStore task; ptask_Store := ptp_Store task;
     ptask_Status := ptp_Status task; ptask_StartTime := ptp_StartTime task;
     ptask_EndTime := ptp_EndTime task; ptask_UPID := ptp_UPID task |}.

Definition insertPBSTask (reportID : Z) (task : PBSTaskPayload) : prog DB () :=
  INSERT PbsMaintenanceTasks (new_pbs_task reportID task) ≫= λ _, mret ().

Definition InsertPBSStore := insertPBSStore.
Definition InsertPBSStoreHistory := insertPBSStoreHistory.
Definition InsertPBSSnapshot := insertPBSSnapshot.
Definition InsertPBSGCStatus := insertPBSGCStatus.
Definition InsertPBSTask := insertPBSTask.

(** The body of the loop over the datastores. *)
Definition insert_datastore (reportID : Z) (ds : PBSDatastorePayload) : prog DB () :=
  storeID ← wrap_err ("insert pbs store " +:+ dsp_Store ds) (insertPBSStore reportID ds);
  wrap_err "insert pbs history" (insertPBSStoreHistory storeID (dsp_History ds)) ≫= λ _,
  wrap_err "insert gc status" (insertPBSGCStatus storeID (dsp_GCStatus ds)) ≫= λ _,
  for_each (dsp_Groups ds) (λ group,
    wrap_err ("insert pbs snapshot " +:+ gp_BackupType group +:+ "/" +:+ gp_BackupID group)
      (insertPBSSnapshot storeID group)).

Definition pbs_report_body (now : Time) (serverID : Z) (token : string) (swap : HostSwap)
    (info : PBSInformation) : prog DB () :=
  reportID ← insertPBSReportWithSwap now serverID swap token;
  for_each (pbi_Data info) (insert_datastore reportID) ≫= λ _,
  for_each (pbi_Tasks info) (λ task,
    wrap_err ("insert pbs maintenance task " +:+ ptp_TaskType task +:+ "/" +:+ ptp_JobID task)
      (insertPBSTask reportID task)).

Definition InsertPBSReportData (now : Time) (serverID : Z) (token : string) (swap : HostSwap)
    (info : PBSInformation) : prog DB () :=
  insert_report_data PBS serverID token (pbs_report_body now serverID token swap info).

(** [internal/service/report.go] *)
Definition SavePBSReportForAPIKey `{!SqlOrder} (now : Time) (req : PBSReportRequest)
    (apiKeyID : Z) : prog DB () :=
  serverID ← wrap_err "upsert pbs server" (
    if 0 <? apiKeyID
    then UpsertPBSServerForAPIKey now apiKeyID (pbq_Hostname req) (pbq_IPAddress req)
           (pbq_PublicIP req) (pbq_ClientVersion req) (pbq_MachineID req)
    else UpsertPBSServer now (pbq_Hostname req) (pbq_IPAddress req)
           (pbq_PublicIP req) (pbq_ClientVersion req) (pbq_MachineID req));
  wrap_err "insert pbs report" (InsertPBSReportData now serverID (pbq_ReportID req)
    {| sw_Total := pbq_SwapTotal req; sw_Used := pbq_SwapUsed req;
       sw_Enabled := pbq_SwapEnabled req |} (pbq_PBSInformation req)).

Definition SavePBSReport `{!SqlOrder} (now : Time) (req : PBSReportRequest) : prog DB () :=
  SavePBSReportForAPIKey now req 0.

(** ** Queries *)

Section queries.
Context `{!SqlOrder}.

Definition GetLatestPBSReport := latest_report PBS (newest PBS).
Definition GetLatestPBSReports := latest_reports PBS.

Definition ListPBSReports (serverID limit : Z) (db : DB) : list PBSReport :=
  limit_offset limit 0 (reports_of PBS (newest PBS) serverID db).

Definition ListPBSReportsPage (serverID limit offset : Z) (db : DB) : list PBSReport :=
  limit_offset limit offset (reports_of PBS (newest PBS) serverID db).

Definition CountPBSReports (serverID : Z) (db : DB) : Z :=
  count_reports PBS (of_server PBS serverID) db.

(** [ORDER BY] on a text, ties by [le]. *)
Definition text_le {A} (key : A → string) (le : A → A → bool) (x y : A) : bool :=
  if str_eqb (key x) (key y) then le x y else String.leb (key x) (key y).

Definition by_backup : PBSSnapshot → PBSSnapshot → bool :=
  text_le sn_BackupType (λ s1 s2, String.leb (sn_BackupID s1) (sn_BackupID s2)).

Definition GetPBSSnapshotsForStore (storeID : Z) (db : DB) : list PBSSnapshot :=
  select_from PbsSnapshots (λ s, sn_StoreID s =? storeID) by_backup db.

Definition GetPBSSnapshotsForStores (storeIDs : list Z) (db : DB) : gmap Z (list PBSSnapshot) :=
  if is_nil storeIDs then ∅ else
  group_by sn_StoreID
    (select_from PbsSnapshots (λ s, in_ids storeIDs (sn_StoreID s))
      (lex_le sn_StoreID by_backup) db).

Definition by_job : PBSTask → PBSTask → bool :=
  text_le ptask_TaskType (λ t1 t2, String.leb (ptask_JobID t1) (ptask_JobID t2)).

Definition GetPBSTasksForReport (reportID : Z) (db : DB) : list PBSTask :=
  select_from PbsMaintenanceTasks (λ t, ptask_ReportID t =? reportID)
    (text_le ptask_TaskType (text_le ptask_JobID (text_le ptask_Remote
      (λ t1 t2, String.leb (ptask_Store t1) (ptask_Store t2))))) db.

Definition GetPBSTasksForReports (reportIDs : list Z) (db : DB) : gmap Z (list PBSTask) :=
  if is_nil reportIDs then ∅ else
  group_by ptask_ReportID
    (select_from PbsMaintenanceTasks (λ t, in_ids reportIDs (ptask_ReportID t))
      (lex_le ptask_ReportID by_job) db).

Definition GetPBSStoresForReport (reportID : Z) (db : DB) : list PBSStore :=
  select_from PbsStores (λ s, ds_ReportID s =? reportID) any_order db.

Definition GetPBSStoresForReports (reportIDs : list Z) (db : DB) : gmap Z (list PBSStore) :=
  if is_nil reportIDs then ∅ else
  group_by ds_ReportID
    (select_from PbsStores (λ s, in_ids reportIDs (ds_ReportID s))
      (lex_le ds_ReportID (λ s1 s2, String.leb (ds_Store s1) (ds_Store s2))) db).

Definition GetPBSGCStatus (storeID : Z) (db : DB) : option PBSGCStatus :=
  head (select_from PbsGcStatus (λ g, gc_StoreID g =? storeID) any_order db).

Definition GetPBSGCStatusForStores (storeIDs : list Z) (db : DB) : gmap Z PBSGCStatus :=
  if is_nil storeIDs then ∅ else
  index_by gc_StoreID
    (select_from PbsGcStatus (λ g, in_ids storeIDs (gc_StoreID g)) any_order db).

Definition by_position (h1 h2 : HistoryRow) : bool := hist_Position h1 <=? hist_Position h2.

Definition GetPBSHistory (storeID : Z) (db : DB) : list (option float64) :=
  hist_Value <$> select_from PbsStoreHistory (λ h, hist_StoreID h =? storeID) by_position db.

Definition GetPBSHistoryForStores (storeIDs : list Z) (db : DB) :
    gmap Z (list (option float64)) :=
  if is_nil storeIDs then ∅ else
  (λ l : list HistoryRow, hist_Value <$> l) <$> group_by hist_StoreID
    (select_from PbsStoreHistory (λ h, in_ids storeIDs (hist_StoreID h))
      (lex_le hist_StoreID by_position) db).
End queries.

(** ** Pruning *)

Definition stores_under (cond : ReportRow PBSReport → bool) (db : DB) : list Z :=
  ds_ID <$> matching PbsStores (λ s, in_ids (report_ids PBS cond db) (ds_ReportID s)) db.

Definition delete_pbs_parts (cond : ReportRow PBSReport → bool) : prog DB () :=
  DELETE_IN PbsMaintenanceTasks (λ db t, in_ids (report_ids PBS cond db) (ptask_ReportID t)) ≫= λ _,
  DELETE_IN PbsStoreHistory (λ db h, in_ids (stores_under cond db) (hist_StoreID h)) ≫= λ _,
  DELETE_IN PbsGcStatus (λ db g, in_ids (stores_under cond db) (gc_StoreID g)) ≫= λ _,
  DELETE_IN PbsSnapshots (λ db s, in_ids (stores_under cond db) (sn_StoreID s)) ≫= λ _,
  DELETE_IN PbsStores (λ db s, in_ids (report_ids PBS cond db) (ds_ReportID s)) ≫= λ _,
  mret ().

Definition DeleteOldPBSReports (cutoff : Time) : prog DB Z :=
  tx (delete_pbs_parts (is_old PBS cutoff) ≫= λ _,
      delete_reports PBS (is_old PBS cutoff)).

(** ** The reports the tables stand for *)

Definition point_value (h : HistoryRow) : option float64 := hist_Value h.

Definition gc_payload (g : PBSGCStatus) : GCStatusPayload :=
  {| gcp_DiskBytes := gc_DiskBytes g; gcp_DiskChunks := gc_DiskChunks g;
     gcp_IndexDataBytes := gc_IndexDataBytes g; gcp_IndexFileCount := gc_IndexFileCount g;
     gcp_PendingBytes := gc_PendingBytes g; gcp_PendingChunks := gc_PendingChunks g;
     gcp_RemovedBad := gc_RemovedBad g; gcp_RemovedBytes := gc_RemovedBytes g;
     gcp_RemovedChunks := gc_RemovedChunks g; gcp_StillBad := gc_StillBad g;
     gcp_UPID := gc_UPID g |}.

Definition group_payload (s : PBSSnapshot) : PBSGroupPayload :=
  {| gp_BackupType := sn_BackupType s; gp_BackupID := sn_BackupID s;
     gp_LastBackup := sn_LastBackup s; gp_BackupCount := sn_BackupCount s;
     gp_Owner := sn_Owner s; gp_Comment := sn_Comment s;
     gp_VerificationState := sn_VerificationState s; gp_Size := sn_Size s |}.

Definition pbs_task_payload (t : PBSTask) : PBSTaskPayload :=
  {| ptp_TaskType := ptask_TaskType t; ptp_JobID := ptask_JobID t; ptp_Remote := ptask_Remote t;
     ptp_RemoteStore := ptask_RemoteStore t; ptp_Store := ptask_Store t;
     ptp_Status := ptask_Status t; ptp_StartTime := ptask_StartTime t;
     ptp_EndTime := ptask_EndTime t; ptp_UPID := ptask_UPID t |}.

Definition history_view := view PbsStoreHistory hist_StoreID point_value.
Definition gc_view := view PbsGcStatus gc_StoreID gc_payload.
Definition groups_view := view PbsSnapshots sn_StoreID group_payload.
Definition pbs_tasks_view := view PbsMaintenanceTasks ptask_ReportID pbs_task_payload.

Definition store_payload (db : DB) (s : PBSStore) : PBSDatastorePayload :=
  {| dsp_Store := ds_Store s; dsp_Total := ds_Total s; dsp_Used := ds_Used s;
     dsp_Avail := ds_Avail s; dsp_EstimatedFullDate := ds_EstimatedFullDate s;
     dsp_MountStatus := ds_MountStatus s; dsp_HistoryStart := ds_HistoryStart s;
     dsp_HistoryDelta := ds_HistoryDelta s; dsp_History := history_view (ds_ID s) db;
     dsp_GCStatus := head (gc_view (ds_ID s) db); dsp_Groups := groups_view (ds_ID s) db |}.

Definition stores_view (reportID : Z) (db : DB) : list PBSDatastorePayload :=
  store_payload db <$> List.filter (λ s, ds_ReportID s =? reportID) (in_order PbsStores db).

Record StoredPBS := {
  spb_Report : ReportRow PBSReport; spb_Data : list PBSDatastorePayload;
  spb_Tasks : list PBSTaskPayload }.

Definition stored_pbs (db : DB) (r : ReportRow PBSReport) : StoredPBS :=
  {| spb_Report := r; spb_Data := stores_view (pbsr_ID (rr_Report r)) db;
     spb_Tasks := pbs_tasks_view (pbsr_ID (rr_Report r)) db |}.

Definition pbs_reports (db : DB) : list StoredPBS := stored_pbs db <$> in_order (Reports PBS) db.

Definition stored_pbs_of (now : Time) (serverID : Z) (token : string) (swap : HostSwap)
    (info : PBSInformation) (id : Z) : StoredPBS :=
  {| spb_Report := new_pbs_report now serverID swap token id; spb_Data := pbi_Data info;
     spb_Tasks := pbi_Tasks info |}.

Definition spec_insert_pbs (now : Time) (serverID : Z) (token : string) (swap : HostSwap)
    (info : PBSInformation) (id : Z) (l : list StoredPBS) : list StoredPBS :=
  if negb (str_empty token) && existsb (λ s, has_token PBS serverID token (spb_Report s)) l
  then l else l ++ [stored_pbs_of now serverID token swap info id].

(** ** Lemmas *)

Definition store_tables : list tbl := [PbsStores; PbsStoreHistory; PbsGcStatus; PbsSnapshots].

(** What the insertion of datastores under the report [R] does. *)
Definition stores_added := extended store_tables stores_view.

Lemma not_in_store_tables u :
  u ∉ store_tables →
  u ≠ PbsStores ∧ u ≠ PbsStoreHistory ∧ u ≠ PbsGcStatus ∧ u ≠ PbsSnapshots.
Proof. unfold store_tables. set_solver. Qed.

Lemma store_payload_frame db db' s :
  history_view (ds_ID s) db' = history_view (ds_ID s) db →
  gc_view (ds_ID s) db' = gc_view (ds_ID s) db →
  groups_view (ds_ID s) db' = groups_view (ds_ID s) db →
  store_payload db' s = store_payload db s.
Proof. unfold store_payload. by intros -> -> ->. Qed.

Lemma stores_view_frame R db db' :
  db' PbsStores = db PbsStores →
  (∀ s, s ∈ in_order PbsStores db → store_payload db' s = store_payload db s) →
  stores_view R db' = stores_view R db.
Proof.
  intros Ht Hs. unfold stores_view. rewrite (in_order_frame PbsStores db db' Ht).
  apply list_fmap_ext. intros i s Hi. apply list_elem_of_lookup_2 in Hi.
  apply elem_of_filter_bool in Hi as [Hi _]. by apply Hs.
Qed.

Lemma snd_indexed {A} (l : list A) : (indexed l).*2 = l.
Proof.
  unfold indexed. rewrite fmap_imap. rewrite (imap_ext _ (λ _ v, v)) by done.
  induction l as [|x l IH]; simpl; [done|]. by f_equal.
Qed.

(** The history, the collection status and the groups of the store [sid]. *)
Lemma run_insert_history sid history db :
  wf db → present db PbsStores sid = true →
  ∃ db', run (insertPBSStoreHistory sid history) db = (Ok (), db') ∧
    appended PbsStoreHistory hist_StoreID point_value sid history db db'.
Proof.
  intros Hwf Hs. destruct (run_insert_each PbsStoreHistory hist_StoreID point_value PbsStores sid
    (new_point sid) snd (λ iv, INSERT PbsStoreHistory (new_point sid iv) ≫= λ _, mret ())
    (indexed history) db) as (db' & Hrun & Ha);
    [by intros; eapply run_ret_unit|done|done| |done|done|].
  { intros db' x i Hp. by eapply (ref_ok (t := PbsStoreHistory) PbsStores hist_StoreID). }
  rewrite snd_indexed in Ha. by exists db'.
Qed.

Lemma run_insert_gc sid gc db :
  wf db → present db PbsStores sid = true →
  ∃ db', run (insertPBSGCStatus sid gc) db = (Ok (), db') ∧
    appended PbsGcStatus gc_StoreID gc_payload sid (option_list gc) db db'.
Proof.
  intros Hwf Hs. destruct gc as [gc|]; [|by exists db; split; [|apply appended_nil]].
  destruct (run_insert_each PbsGcStatus gc_StoreID gc_payload PbsStores sid (new_gc sid) id
    (λ g, INSERT PbsGcStatus (new_gc sid g) ≫= λ _, mret ()) [gc] db) as (db' & Hrun & Ha);
    [by intros; eapply run_ret_unit|by intros []|done| |done|done|].
  { intros db' x i Hp. by eapply (ref_ok (t := PbsGcStatus) PbsStores gc_StoreID). }
  exists db'. split; [|done]. cbn [for_each] in Hrun. rewrite run_bind in Hrun.
  unfold insertPBSGCStatus. by destruct (run _ db) as [[[]|e] db1].
Qed.

Lemma run_insert_groups sid groups db :
  wf db → present db PbsStores sid = true →
  ∃ db', run (for_each groups (λ group,
      wrap_err ("insert pbs snapshot " +:+ gp_BackupType group +:+ "/" +:+ gp_BackupID group)
        (insertPBSSnapshot sid group))) db = (Ok (), db') ∧
    appended PbsSnapshots sn_StoreID group_payload sid groups db db'.
Proof.
  intros Hwf Hs. destruct (run_insert_each PbsSnapshots sn_StoreID group_payload PbsStores sid
    (new_snapshot sid) id (λ group,
      wrap_err ("insert pbs snapshot " +:+ gp_BackupType group +:+ "/" +:+ gp_BackupID group)
        (insertPBSSnapshot sid group)) groups db) as (db' & Hrun & Ha);
    [by intros; eapply run_wrap_ok, run_wrap_ok, run_ret_unit|by intros []|done| |done|done|].
  { intros db' x i Hp. by eapply (ref_ok (t := PbsSnapshots) PbsStores sn_StoreID). }
  rewrite list_fmap_id in Ha. by exists db'.
Qed.

(** The views of the parts of stores, in terms of those before, when one store got
    its parts. *)
Lemma store_payload_new R ds sid db db' :
  wf db → present db PbsStores sid = false →
  history_view sid db' = history_view sid db ++ dsp_History ds →
  gc_view sid db' = gc_view sid db ++ option_list (dsp_GCStatus ds) →
  groups_view sid db' = groups_view sid db ++ dsp_Groups ds →
  store_payload db' (new_store R ds sid) = ds.
Proof.
  intros Hwf Hp Hh Hg Hs. unfold store_payload. simpl. rewrite Hh, Hg, Hs.
  unfold history_view, gc_view, groups_view.
  rewrite (view_fresh PbsStoreHistory PbsStores _ _ Restrict),
    (view_fresh PbsGcStatus PbsStores _ _ Restrict),
    (view_fresh PbsSnapshots PbsStores _ _ Restrict) by done.
  by destruct ds as [? ? ? ? ? ? ? ? ? [gc|] ?].
Qed.

Lemma run_insert_datastore R ds db :
  wf db → present db (Reports PBS) R = true →
  ∃ db', run (insert_datastore R ds) db = (Ok (), db') ∧ stores_added R [ds] db db'.
Proof.
  intros Hwf HR. set (sid := next_id db PbsStores).
  destruct (INSERT_ok PbsStores (new_store R ds) db Hwf) as (db1 & Hrun1 & Hi);
    [done|by apply clashes_false|by eapply (ref_ok (t := PbsStores) (Reports PBS) ds_ReportID)|].
  fold sid in Hrun1, Hi.
  assert (present db1 PbsStores sid = true) as Hsid by (eapply present_Some, (ins_row _ _ _ _ Hi)).
  destruct (run_insert_history sid (dsp_History ds) db1) as (db2 & Hrun2 & H2); [apply Hi|done|].
  destruct (run_insert_gc sid (dsp_GCStatus ds) db2) as (db3 & Hrun3 & H3);
    [apply H2|by apply (app_present _ _ _ _ _ _ _ H2)|].
  destruct (run_insert_groups sid (dsp_Groups ds) db3) as (db4 & Hrun4 & H4);
    [apply H3|by apply (app_present _ _ _ _ _ _ _ H3), (app_present _ _ _ _ _ _ _ H2)|].
  exists db4. split.
  { unfold insert_datastore, insertPBSStore. rewrite run_bind.
    erewrite run_wrap_ok by (by eapply run_wrap_ok). rewrite run_bind.
    rewrite (run_wrap_ok _ _ _ _ _ Hrun2), run_bind, (run_wrap_ok _ _ _ _ _ Hrun3). exact Hrun4. }
  pose proof (app_other _ _ _ _ _ _ _ H4) as O4. pose proof (app_other _ _ _ _ _ _ _ H3) as O3.
  pose proof (app_other _ _ _ _ _ _ _ H2) as O2. pose proof (ins_other _ _ _ _ Hi) as O1.
  assert (∀ p, history_view p db4 =
    history_view p db ++ (if p =? sid then dsp_History ds else [])) as Hh.
  { intros p. unfold history_view. rewrite (view_frame _ _ _ _ db3 db4) by (by apply O4).
    rewrite (view_frame _ _ _ _ db2 db3) by (by apply O3).
    rewrite (app_view _ _ _ _ _ _ _ H2). f_equal. by apply view_frame, O1. }
  assert (∀ p, gc_view p db4 =
    gc_view p db ++ (if p =? sid then option_list (dsp_GCStatus ds) else [])) as Hg.
  { intros p. unfold gc_view. rewrite (view_frame _ _ _ _ db3 db4) by (by apply O4).
    rewrite (app_view _ _ _ _ _ _ _ H3). f_equal.
    rewrite (view_frame _ _ _ _ db1 db2) by (by apply O2). by apply view_frame, O1. }
  assert (∀ p, groups_view p db4 =
    groups_view p db ++ (if p =? sid then dsp_Groups ds else [])) as Hs.
  { intros p. unfold groups_view. rewrite (app_view _ _ _ _ _ _ _ H4). f_equal.
    rewrite (view_frame _ _ _ _ db2 db3) by (by apply O3).
    rewrite (view_frame _ _ _ _ db1 db2) by (by apply O2). by apply view_frame, O1. }
  split.
  - apply H4.
  - intros R'. unfold stores_view.
    rewrite (in_order_frame PbsStores db3 db4) by (by apply O4).
    rewrite (in_order_frame PbsStores db2 db3) by (by apply O3).
    rewrite (in_order_frame PbsStores db1 db2) by (by apply O2).
    rewrite (ins_order _ _ _ _ Hi), filter_bool_app, fmap_app. f_equal.
    + apply list_fmap_ext. intros i s Hin. apply list_elem_of_lookup_2 in Hin.
      apply elem_of_filter_bool in Hin as [Hin _]. apply (old_row PbsStores db s Hwf) in Hin.
      assert (ds_ID s =? sid = false) as Hne by (apply Z.eqb_neq; unfold sid; simpl in Hin; lia).
      apply store_payload_frame; rewrite ?Hh, ?Hg, ?Hs, Hne; apply app_nil_r.
    + simpl. rewrite (Z.eqb_sym R' R). destruct (R =? R'); [|done]. simpl. f_equal.
      apply (store_payload_new R ds sid db db4 Hwf);
        [unfold present, sid; by rewrite wf_fresh|by rewrite Hh, Z.eqb_refl
        |by rewrite Hg, Z.eqb_refl|by rewrite Hs, Z.eqb_refl].
  - intros u (? & ? & ? & ?)%not_in_store_tables. by rewrite O4, O3, O2, O1.
  - intros u i Hp. by apply (app_present _ _ _ _ _ _ _ H4), (app_present _ _ _ _ _ _ _ H3),
      (app_present _ _ _ _ _ _ _ H2), (ins_present _ _ _ _ Hi).
Qed.

Lemma fresh_pbs_views db R :
  wf db → present db (Reports PBS) R = false →
  stores_view R db = [] ∧ pbs_tasks_view R db = [].
Proof.
  intros Hwf HR. split.
  - pose proof (view_fresh PbsStores (Reports PBS) ds_ReportID (λ s, s) Restrict R db
      eq_refl Hwf HR) as Hv. unfold view in Hv. rewrite list_fmap_id in Hv.
    exact (f_equal (fmap (store_payload db)) Hv).
  - by apply (view_fresh PbsMaintenanceTasks (Reports PBS) _ _ Restrict).
Qed.

Lemma run_insert_pbs_tasks R tasks db :
  wf db → present db (Reports PBS) R = true →
  ∃ db', run (for_each tasks (λ task,
      wrap_err ("insert pbs maintenance task " +:+ ptp_TaskType task +:+ "/" +:+ ptp_JobID task)
        (insertPBSTask R task))) db = (Ok (), db') ∧
    appended PbsMaintenanceTasks ptask_ReportID pbs_task_payload R tasks db db'.
Proof.
  intros Hwf HR. destruct (run_insert_each PbsMaintenanceTasks ptask_ReportID pbs_task_payload
    (Reports PBS) R (new_pbs_task R) id (λ task,
      wrap_err ("insert pbs maintenance task " +:+ ptp_TaskType task +:+ "/" +:+ ptp_JobID task)
        (insertPBSTask R task)) tasks db) as (db' & Hrun & Ha);
    [by intros; eapply run_wrap_ok, run_ret_unit|by intros []|done| |done|done|].
  { intros db' x i Hp. by eapply (ref_ok (t := PbsMaintenanceTasks) (Reports PBS) ptask_ReportID). }
  rewrite list_fmap_id in Ha. by exists db'.
Qed.

Lemma run_pbs_report_body now serverID token swap info db :
  wf db → present db (Servers PBS) serverID = true → known PBS serverID token db = false →
  ∃ db', run (pbs_report_body now serverID token swap info) db = (Ok (), db') ∧
    pbs_reports db' =
      pbs_reports db ++ [stored_pbs_of now serverID token swap info (next_id db (Reports PBS))].
Proof.
  intros Hwf Hs Hnew%known_false. set (R := next_id db (Reports PBS)).
  set (row := new_pbs_report now serverID swap token).
  destruct (report_INSERT_ok PBS row serverID token db Hwf Hs) as (db1 & Hrun1 & Hi);
    [done|done|]. fold R in Hrun1, Hi.
  assert (present db1 (Reports PBS) R = true) as HR1 by (eapply present_Some, (ins_row _ _ _ _ Hi)).
  destruct (run_extend_each store_tables stores_view (Reports PBS) R id (insert_datastore R)
    (pbi_Data info) db1) as (db2 & Hrun2 & H2); [apply run_insert_datastore|apply Hi|done|].
  rewrite list_fmap_id in H2.
  destruct (run_insert_pbs_tasks R (pbi_Tasks info) db2) as (db3 & Hrun3 & H3);
    [apply H2|by apply (ext_present _ _ _ _ _ _ H2)|].
  exists db3. split.
  { unfold pbs_report_body, insertPBSReportWithSwap. rewrite run_bind.
    rewrite (run_wrap_ok _ _ _ _ _ Hrun1). cbn beta iota. rewrite run_bind, Hrun2. exact Hrun3. }
  pose proof (app_other _ _ _ _ _ _ _ H3) as O3. pose proof (ext_other _ _ _ _ _ _ H2) as O2.
  pose proof (ins_other _ _ _ _ Hi) as O1.
  assert (present db (Reports PBS) R = false) as Hfresh by (unfold present, R; by rewrite wf_fresh).
  destruct (fresh_pbs_views db R Hwf Hfresh) as [Hs0 Ht0].
  assert (∀ R', stores_view R' db3 =
    stores_view R' db ++ (if R' =? R then pbi_Data info else [])) as Hsv.
  { intros R'. rewrite (stores_view_frame R' db2 db3); [|by apply O3|].
    - rewrite (ext_view _ _ _ _ _ _ H2). f_equal.
      apply stores_view_frame; [by apply O1|]. intros s _.
      apply store_payload_frame; by apply view_frame, O1.
    - intros s _. apply store_payload_frame; by apply view_frame, O3. }
  assert (∀ R', pbs_tasks_view R' db3 =
    pbs_tasks_view R' db ++ (if R' =? R then pbi_Tasks info else [])) as Htv.
  { intros R'. unfold pbs_tasks_view. rewrite (app_view _ _ _ _ _ _ _ H3). f_equal.
    rewrite (view_frame _ _ _ _ db1 db2) by (by (apply O2; set_solver)). by apply view_frame, O1. }
  unfold pbs_reports.
  rewrite (in_order_frame (Reports PBS) db2 db3) by (by apply O3).
  rewrite (in_order_frame (Reports PBS) db1 db2) by (by (apply O2; set_solver)).
  rewrite (ins_order _ _ _ _ Hi), fmap_app. f_equal.
  - apply list_fmap_ext. intros i r Hr. apply list_elem_of_lookup_2 in Hr.
    apply (old_row (Reports PBS) db r Hwf) in Hr.
    assert (pbsr_ID (rr_Report r) =? R = false) as Hne by (apply Z.eqb_neq; unfold R; simpl in Hr; lia).
    unfold stored_pbs. by rewrite Hsv, Htv, Hne, !app_nil_r.
  - simpl. unfold stored_pbs, stored_pbs_of. simpl.
    by rewrite Hsv, Htv, !Z.eqb_refl, Hs0, Ht0.
Qed.

Lemma strict_pbs_report_body now serverID token swap info :
  strict (pbs_report_body now serverID token swap info).
Proof.
  unfold pbs_report_body, insertPBSReportWithSwap, insert_datastore, insertPBSStore,
    insertPBSStoreHistory, insertPBSSnapshot, insertPBSTask, INSERT.
  repeat first [progress intros | apply strict_bind | apply strict_wrap_err
    | apply strict_for_each | apply strict_stmt | constructor
    | (unfold insertPBSGCStatus; match goal with |- context [dsp_GCStatus ?d] =>
         destruct (dsp_GCStatus d) end) ].
Qed.

Lemma preserves_InsertPBSReportData now serverID token swap info :
  preserves wf (InsertPBSReportData now serverID token swap info).
Proof.
  apply preserves_insert_report_data. unfold pbs_report_body, insertPBSReportWithSwap,
    insert_datastore, insertPBSStore, insertPBSStoreHistory, insertPBSSnapshot, insertPBSTask.
  keeps_wf; unfold insertPBSGCStatus; destruct (dsp_GCStatus _); keeps_wf.
Qed.

(** on the list of stored reports, saving a PBS report is one atomic step of its
    specification: a report of a known token changes nothing, any other is added at
    the end with every datastore, its history in the order and with the gaps it was
    sent with, its collection status, its groups, and its tasks; every other report
    stays as it was.  It never fails on a constraint, and a failure of the driver
    leaves the database exactly as it was. *)
Theorem InsertPBSReportData_refines (now : Time) (serverID : Z) (token : string)
    (swap : HostSwap) (info : PBSInformation) (db : DB) :
  wf db → present db (Servers PBS) serverID = true →
  is_ok (run (InsertPBSReportData now serverID token swap info) db).1 = true ∧
  always (InsertPBSReportData now serverID token swap info) (λ r db', wf db' ∧
    match r with
    | Ok _ => pbs_reports db' =
        spec_insert_pbs now serverID token swap info (next_id db (Reports PBS)) (pbs_reports db)
    | Err _ => db' = db
    end) db.
Proof.
  intros Hwf Hs. unfold spec_insert_pbs.
  assert (negb (str_empty token) &&
    existsb (λ s, has_token PBS serverID token (spb_Report s)) (pbs_reports db) =
    known PBS serverID token db) as -> by (symmetry; by apply (known_stored PBS)).
  assert (∃ db', run (InsertPBSReportData now serverID token swap info) db = (Ok (), db') ∧
    pbs_reports db' = if known PBS serverID token db then pbs_reports db
      else pbs_reports db ++ [stored_pbs_of now serverID token swap info
        (next_id db (Reports PBS))]) as (db' & Hrun & Hrep).
  { unfold InsertPBSReportData. rewrite run_insert_report_data.
    destruct (known PBS serverID token db) eqn:Hk; [by eexists|].
    destruct (run_pbs_report_body now serverID token swap info db Hwf Hs Hk) as (db' & -> & Hr).
    eauto. }
  split; [by rewrite Hrun|]. intros io.
  pose proof (exec_preserves wf _ io db
    (preserves_InsertPBSReportData now serverID token swap info) Hwf) as Hwf'.
  destruct (exec _ io db) as [[[[]|e] db1] io'] eqn:Hx; (split; [done|]).
  - apply strict_Ok in Hx; [|apply strict_insert_report_data, strict_pbs_report_body].
    rewrite Hrun in Hx. by simplify_eq.
  - by apply insert_report_data_atomic in Hx as ->.
Qed.

(** ** Pruning *)

(** The tables of reports. *)
Definition pbs_tables : list tbl :=
  [Reports PBS; PbsStores; PbsSnapshots; PbsGcStatus; PbsStoreHistory; PbsMaintenanceTasks].

Lemma pbs_reports_frame db db' :
  (∀ t, t ∈ pbs_tables → db' t = db t) → pbs_reports db' = pbs_reports db.
Proof.
  intros Hf. unfold pbs_tables in Hf. unfold pbs_reports.
  rewrite (in_order_frame (Reports PBS) db db') by (apply Hf; set_solver).
  apply list_fmap_ext. intros i r _. unfold stored_pbs. f_equal.
  - apply stores_view_frame; [apply Hf; set_solver|]. intros s _.
    apply store_payload_frame; apply view_frame, Hf; set_solver.
  - apply view_frame, Hf; set_solver.
Qed.

Definition store_goes (cond : ReportRow PBSReport → bool) (db : DB) : Z → bool :=
  in_ids (stores_under cond db).

(** The tables after the reports that satisfy [cond] and their parts were deleted, in
    whichever order. *)
Record pbs_pruned (cond : ReportRow PBSReport → bool) (db db' : DB) : Prop := {
  pp_wf : wf db';
  pp_reports : in_order (Reports PBS) db' =
    List.filter (λ r, negb (cond r)) (in_order (Reports PBS) db);
  pp_stores : in_order PbsStores db' =
    List.filter (λ s, negb (goes PBS cond db (ds_ReportID s))) (in_order PbsStores db);
  pp_history : in_order PbsStoreHistory db' =
    List.filter (λ h, negb (store_goes cond db (hist_StoreID h))) (in_order PbsStoreHistory db);
  pp_gc : in_order PbsGcStatus db' =
    List.filter (λ g, negb (store_goes cond db (gc_StoreID g))) (in_order PbsGcStatus db);
  pp_snapshots : in_order PbsSnapshots db' =
    List.filter (λ s, negb (store_goes cond db (sn_StoreID s))) (in_order PbsSnapshots db);
  pp_tasks : in_order PbsMaintenanceTasks db' =
    List.filter (λ t, negb (goes PBS cond db (ptask_ReportID t))) (in_order PbsMaintenanceTasks db) }.

Lemma store_goes_row cond db i s :
  wf db → rows_of db PbsStores !! i = Some s →
  store_goes cond db i = goes PBS cond db (ds_ReportID s).
Proof.
  intros Hwf Hs.
  exact (in_matching_ids PbsStores (λ s, goes PBS cond db (ds_ReportID s)) db i s Hwf Hs).
Qed.

Lemma store_goes_same cond db db' :
  db' (Reports PBS) = db (Reports PBS) → db' PbsStores = db PbsStores →
  store_goes cond db' = store_goes cond db.
Proof.
  intros Hr Hs. unfold store_goes, stores_under. fold (goes PBS cond db') (goes PBS cond db).
  rewrite (goes_same PBS cond db db' Hr). by rewrite (matching_same PbsStores _ db db').
Qed.

(** What is left is exactly the other reports, with all their parts. *)
Lemma pbs_pruned_reports cond db db' :
  wf db → pbs_pruned cond db db' →
  pbs_reports db' = List.filter (λ s, negb (cond (spb_Report s))) (pbs_reports db).
Proof.
  intros Hwf Hp. unfold pbs_reports. rewrite filter_fmap_bool, (pp_reports _ _ _ Hp). simpl.
  apply list_fmap_ext. intros i r Hr. apply list_elem_of_lookup_2 in Hr.
  apply (elem_of_filter_bool _ (in_order (Reports PBS) db)) in Hr as [Hr Hc%negb_true_iff].
  apply (elem_of_in_order (Reports PBS)) in Hr as [k Hr].
  pose proof (proj1 (wf_ids _ Hwf _ _ _ Hr)) as Hk. simpl in Hk.
  pose proof (goes_row PBS cond db k r Hwf Hr) as Hg. rewrite Hc in Hg.
  unfold stored_pbs. f_equal; rewrite Hk.
  - unfold stores_view. rewrite (pp_stores _ _ _ Hp), filter_filter_bool.
    + apply list_fmap_ext. intros j s Hs. apply list_elem_of_lookup_2 in Hs.
      apply (elem_of_filter_bool _ (in_order PbsStores db)) in Hs as [Hs Hsk%Z.eqb_eq].
      apply (elem_of_in_order PbsStores) in Hs as [k' Hs].
      assert (store_goes cond db (ds_ID s) = false) as Hsg.
      { rewrite (proj1 (wf_ids _ Hwf PbsStores _ _ Hs) : ds_ID s = k').
        by rewrite (store_goes_row cond db k' s Hwf Hs), Hsk. }
      apply store_payload_frame.
      * apply (view_filtered _ _ _ _ _ _ _ (pp_history _ _ _ Hp)). by intros r' _ ->.
      * apply (view_filtered _ _ _ _ _ _ _ (pp_gc _ _ _ Hp)). by intros r' _ ->.
      * apply (view_filtered _ _ _ _ _ _ _ (pp_snapshots _ _ _ Hp)). by intros r' _ ->.
    + intros s _ ->%Z.eqb_eq. by rewrite Hg.
  - apply (view_filtered _ _ _ _ _ _ _ (pp_tasks _ _ _ Hp)). by intros r' _ ->.
Qed.

(** What goes with the reports that satisfy [cond]. *)
Definition pbs_marks (cond : ReportRow PBSReport → bool) (db0 : DB) (t : tbl) : Row t → bool :=
  match t return tbl_row t → bool with
  | Reports PBS => cond
  | PbsStores => λ s, goes PBS cond db0 (ds_ReportID s)
  | PbsStoreHistory => λ h, store_goes cond db0 (hist_StoreID h)
  | PbsGcStatus => λ g, store_goes cond db0 (gc_StoreID g)
  | PbsSnapshots => λ s, store_goes cond db0 (sn_StoreID s)
  | PbsMaintenanceTasks => λ t, goes PBS cond db0 (ptask_ReportID t)
  | _ => λ _, false
  end.

Lemma closed_pbs_marks cond db0 : wf db0 → closed (pbs_marks cond db0) db0.
Proof.
  intros Hwf u fk Hfk j r i r0 Hr Hi Hr0 Hc.
  destruct u as [|[]|[]| | | | | | | | | | | | | | | |]; simpl in Hfk;
    try (by apply not_elem_of_nil in Hfk); apply list_elem_of_singleton in Hfk as ->;
    simpl in *; try done; injection Hi as <-.
  all: try (by rewrite (store_goes_row cond db0 _ r0 Hwf Hr0)).
  all: exact (eq_trans (goes_row PBS cond db0 _ r0 Hwf Hr0) Hc).
Qed.

Lemma filtered_pbs_pruned c cond db0 S db :
  filtered c db0 S db → pbs_tables ⊆ S →
  (∀ t, t ∈ pbs_tables → ∀ r, c t r = pbs_marks cond db0 t r) → pbs_pruned cond db0 db.
Proof.
  intros Hfl Hsub Hc.
  assert (∀ t, t ∈ pbs_tables → in_order t db =
    List.filter (λ r, negb (pbs_marks cond db0 t r)) (in_order t db0)) as Hord.
  { intros t Ht. rewrite (fl_order _ _ _ _ Hfl t) by set_solver. apply filter_bool_ext.
    intros r _. by rewrite Hc. }
  split; [apply Hfl|apply (Hord (Reports PBS))|apply (Hord PbsStores)
    |apply (Hord PbsStoreHistory)|apply (Hord PbsGcStatus)|apply (Hord PbsSnapshots)
    |apply (Hord PbsMaintenanceTasks)]; unfold pbs_tables; set_solver.
Qed.

(** Parts first, as pruning does it. *)
Lemma run_prune_pbs cond db :
  wf db →
  ∃ db', run (delete_pbs_parts cond ≫= λ _, delete_reports PBS cond) db =
    (Ok (Z.of_nat (length (matching (Reports PBS) cond db))), db') ∧
    filtered (pbs_marks cond db) db pbs_tables db'.
Proof.
  intros Hwf. pose proof (closed_pbs_marks cond db Hwf) as Hcl.
  pose proof (filtered_start (pbs_marks cond db) db Hwf) as F0.
  destruct (filtered_step _ db _ _ PbsMaintenanceTasks
    (λ db t, goes PBS cond db (ptask_ReportID t)) Hwf Hcl F0) as (db1 & R1 & F1);
    [set_solver|each_reference|done|].
  destruct (filtered_step _ db _ _ PbsStoreHistory
    (λ db h, store_goes cond db (hist_StoreID h)) Hwf Hcl F1) as (db2 & R2 & F2);
    [set_solver|each_reference| |].
  { intros k r _. by rewrite (store_goes_same cond db) by (apply (fl_out _ _ _ _ F1); set_solver). }
  destruct (filtered_step _ db _ _ PbsGcStatus
    (λ db g, store_goes cond db (gc_StoreID g)) Hwf Hcl F2) as (db3 & R3 & F3);
    [set_solver|each_reference| |].
  { intros k r _. by rewrite (store_goes_same cond db) by (apply (fl_out _ _ _ _ F2); set_solver). }
  destruct (filtered_step _ db _ _ PbsSnapshots
    (λ db s, store_goes cond db (sn_StoreID s)) Hwf Hcl F3) as (db4 & R4 & F4);
    [set_solver|each_reference| |].
  { intros k r _. by rewrite (store_goes_same cond db) by (apply (fl_out _ _ _ _ F3); set_solver). }
  destruct (filtered_step _ db _ _ PbsStores
    (λ db s, goes PBS cond db (ds_ReportID s)) Hwf Hcl F4) as (db5 & R5 & F5);
    [set_solver|each_reference; set_solver| |].
  { intros k r _. by rewrite (goes_same PBS cond db) by (apply (fl_out _ _ _ _ F4); set_solver). }
  destruct (filtered_step _ db _ _ (Reports PBS) (λ _, cond) Hwf Hcl F5) as (db6 & R6 & F6);
    [set_solver|each_reference; set_solver|done|].
  exists db6. split; [|done]. unfold delete_pbs_parts. rewrite !run_bind. unfold store_goes, goes in *.
  rewrite R1. cbn beta iota. rewrite !run_bind, R2. cbn beta iota. rewrite !run_bind, R3.
  cbn beta iota. rewrite !run_bind, R4. cbn beta iota. rewrite run_bind, R5. cbn beta iota.
  rewrite run_mret.
  rewrite (matching_same (Reports PBS) cond db db5) in R6 by (apply (fl_out _ _ _ _ F5); set_solver).
  exact R6.
Qed.

Lemma strict_delete_pbs_parts cond : strict (delete_pbs_parts cond).
Proof. repeat constructor; eauto. Qed.

Lemma preserves_DeleteOldPBSReports cutoff : preserves wf (DeleteOldPBSReports cutoff).
Proof. unfold DeleteOldPBSReports, delete_pbs_parts, delete_reports. keeps_wf. Qed.

Lemma DeleteOldPBSReports_step (cutoff : Time) (db : DB) :
  wf db →
  let old s := is_old PBS cutoff (spb_Report s) in
  is_ok (run (DeleteOldPBSReports cutoff) db).1 = true ∧
  always (DeleteOldPBSReports cutoff) (λ r db', wf db' ∧
    match r with
    | Ok n => n = len (List.filter old (pbs_reports db)) ∧
        pbs_reports db' = List.filter (λ s, negb (old s)) (pbs_reports db) ∧
        ∀ t, t ∉ pbs_tables → db' t = db t
    | Err _ => db' = db
    end) db.
Proof.
  intros Hwf old. destruct (run_prune_pbs (is_old PBS cutoff) db Hwf) as (db' & Hrun & Hpr).
  assert (run (DeleteOldPBSReports cutoff) db =
    (Ok (len (List.filter old (pbs_reports db))), db')) as Hall.
  { unfold DeleteOldPBSReports. rewrite run_tx, Hrun. do 2 f_equal. unfold len. f_equal.
    rewrite length_matching. unfold pbs_reports. rewrite filter_fmap_bool. by rewrite length_fmap. }
  split; [by rewrite Hall|]. intros io.
  pose proof (exec_preserves wf _ io db (preserves_DeleteOldPBSReports cutoff) Hwf) as Hwf'.
  destruct (exec (DeleteOldPBSReports cutoff) io db) as [[[n|e] db1] io'] eqn:Hx; (split; [done|]).
  - apply strict_Ok in Hx.
    + rewrite Hall in Hx. simplify_eq. split_and!; [done| |apply Hpr].
      apply pbs_pruned_reports; [done|]. by eapply filtered_pbs_pruned.
    + apply strict_tx, strict_bind; [apply strict_delete_pbs_parts|]. intros _. apply strict_stmt.
  - by apply exec_tx_atomic in Hx.
Qed.

(** pruning removes exactly the PBS reports older than the cutoff, to the second,
    with everything that belongs to them, and counts them; every other report stays
    with its datastores, their history and snapshots, and its tasks, and so does every
    other table.  It never fails on a reference, and when the driver fails nothing is
    removed. *)
Theorem DeleteOldPBSReports_spec (cutoff : Time) (db : DB) :
  wf db →
  let old s := is_old PBS cutoff (spb_Report s) in
  is_ok (run (DeleteOldPBSReports cutoff) db).1 = true ∧
  always (DeleteOldPBSReports cutoff) (λ r db', wf db' ∧
    match r with
    | Ok n => n = len (List.filter old (pbs_reports db)) ∧
        pbs_reports db' = List.filter (λ s, negb (old s)) (pbs_reports db) ∧
        ∀ t, t ∉ pbs_tables → db' t = db t
    | Err _ => db' = db
    end) db.
Proof. apply DeleteOldPBSReports_step. Qed.

(** ** Examples *)

Module PbsExamples.
Definition gc1 : GCStatusPayload :=
  {| gcp_DiskBytes := 10; gcp_DiskChunks := 2; gcp_IndexDataBytes := 5; gcp_IndexFileCount := 1;
     gcp_PendingBytes := 0; gcp_PendingChunks := 0; gcp_RemovedBad := 0; gcp_RemovedBytes := 0;
     gcp_RemovedChunks := 0; gcp_StillBad := 0; gcp_UPID := "UPID" |}.

Definition datastore (gc : option GCStatusPayload) : PBSDatastorePayload :=
  {| dsp_Store := "tank"; dsp_Total := 100; dsp_Used := 40; dsp_Avail := 60;
     dsp_EstimatedFullDate := 0; dsp_MountStatus := "mounted"; dsp_HistoryStart := 0;
     dsp_HistoryDelta := 86400; dsp_History := [Some (Float 4); None; Some (Float 6)];
     dsp_GCStatus := gc;
     dsp_Groups := [{| gp_BackupType := "vm"; gp_BackupID := "100"; gp_LastBackup := 5;
       gp_BackupCount := 3; gp_Owner := "root"; gp_Comment := "";
       gp_VerificationState := "ok"; gp_Size := 7 |}] |}.

Definition information : PBSInformation :=
  {| pbi_Data := [datastore (Some gc1); datastore None];
     pbi_Tasks := [{| ptp_TaskType := "sync"; ptp_JobID := "s-1"; ptp_Remote := "r";
       ptp_RemoteStore := "rs"; ptp_Store := "tank"; ptp_Status := "OK"; ptp_StartTime := 1;
       ptp_EndTime := 2; ptp_UPID := "U" |}] |}.

Definition request (token : string) : PBSReportRequest :=
  {| pbq_ReportID := token; pbq_Hostname := "pbs1"; pbq_IPAddress := "10.0.0.2";
     pbq_PublicIP := ""; pbq_ClientVersion := "1.0"; pbq_MachineID := "m2"; pbq_SwapTotal := 0;
     pbq_SwapUsed := 0; pbq_SwapEnabled := false; pbq_PBSInformation := information |}.

Definition db1 : DB :=
  (run (SavePBSReport (10 * Second) (request "a") ≫= λ _,
        SavePBSReport (20 * Second) (request "b")) empty_db).2.

Lemma preserves_SavePBSReportForAPIKey now req key :
  preserves wf (SavePBSReportForAPIKey now req key).
Proof.
  unfold SavePBSReportForAPIKey. apply preserves_bind.
  - apply preserves_wrap_err. destruct (0 <? key).
    + apply preserves_upsert_server_for_key.
    + apply preserves_upsert_server.
  - intros id. apply preserves_wrap_err, preserves_InsertPBSReportData.
Qed.

Lemma wf_pbs_db1 : wf db1.
Proof.
  apply wf_run; [|apply wf_empty_db].
  apply preserves_bind; intros; apply preserves_SavePBSReportForAPIKey.
Qed.
End PbsExamples.

Lemma InsertPBSReportData_refines_witness :
  present PbsExamples.db1 (Servers PBS) 1 = true ∧
  is_ok (run (InsertPBSReportData (30 * Second) 1 "c" no_swap PbsExamples.information)
    PbsExamples.db1).1 = true.
Proof.
  split; [vm_compute; reflexivity|].
  apply (InsertPBSReportData_refines (30 * Second) 1 "c" no_swap PbsExamples.information
    PbsExamples.db1); [apply PbsExamples.wf_pbs_db1|vm_compute; reflexivity].
Defined.

Lemma DeleteOldPBSReports_spec_witness :
  len (pbs_reports PbsExamples.db1) = 2 ∧
  is_ok (run (DeleteOldPBSReports (15 * Second)) PbsExamples.db1).1 = true ∧
  len (pbs_reports (run (DeleteOldPBSReports (15 * Second)) PbsExamples.db1).2) = 1.
Proof.
  split; [vm_compute; reflexivity|]. split; [|vm_compute; reflexivity].
  apply (DeleteOldPBSReports_spec (15 * Second) PbsExamples.db1), PbsExamples.wf_pbs_db1.
Defined.
