(* ===== verification/WindowsReports.v ===== *)
(** * Windows reports: [internal/store/windows.go]

    The insertion of a report with its disks, the queries on them and the removal of
    old reports; the abstract value of the tables is the list [windows_reports]. *)
From stdpp Require Import sorting.
From S2P Require Import Prelude GoStrings GoNum GoTime Domain Validation Sql Relational Schema Servers Reports PveReports.

(** ** Insertions *)

Definition new_windows_report (now : Time) (serverID : Z) (token : string) (id : Z) :
    ReportRow WindowsReport :=
  {| rr_Report := {| winr_ID := id; winr_ServerID := serverID; winr_ReportedAt := sqliteUTC now;
                     winr_IsStale := false |};
     rr_Token := token |}.

Definition insertWindowsReport (now : Time) (serverID : Z) (token : string) : prog DB Z :=
  wrap_err "insert windows_report"
    (INSERT (Reports Windows) (new_windows_report now serverID token)).

Definition InsertWindowsReport (now : Time) (serverID : Z) : prog DB Z :=
  insertWindowsReport now serverID "".

Definition new_disk (reportID : Z) (disk : WindowsDiskPayload) (id : Z) : WindowsDisk :=
  {| disk_ID := id; disk_ReportID := reportID; disk_Name := wdp_Name disk;
     disk_Label := wdp_Label disk; disk_FileSystem := wdp_FileSystem disk;
     disk_DriveType := wdp_DriveType disk; disk_Total := wdp_Total disk;
     disk_Used := wdp_Used disk; disk_Free := wdp_Free disk; disk_Health := wdp_Health disk |}.

Definition insertWindowsDisk (reportID : Z) (disk : WindowsDiskPayload) : prog DB () :=
  INSERT WindowsDisks (new_disk reportID disk) ≫= λ _, mret ().

Definition InsertWindowsDisk := insertWindowsDisk.

Definition windows_report_body (now : Time) (serverID : Z) (req : WindowsReportRequest) :
    prog DB () :=
  reportID ← insertWindowsReport now serverID (wnq_ReportID req);
  for_each (wnq_Disks req) (λ disk,
    wrap_err ("insert windows disk " +:+ wdp_Name disk) (insertWindowsDisk reportID disk)).

Definition InsertWindowsReportData (now : Time) (serverID : Z) (req : WindowsReportRequest) :
    prog DB () :=
  insert_report_data Windows serverID (wnq_ReportID req) (windows_report_body now serverID req).

(** [internal/service/report.go] *)
Definition SaveWindowsReportForAPIKey `{!SqlOrder} (now : Time) (req : WindowsReportRequest)
    (apiKeyID : Z) : prog DB () :=
  serverID ← wrap_err "upsert windows server" (
    if 0 <? apiKeyID
    then UpsertWindowsServerForAPIKey now apiKeyID (wnq_Hostname req) (wnq_IPAddress req)
           (wnq_PublicIP req) (wnq_ClientVersion req) (wnq_MachineID req)
    else UpsertWindowsServer now (wnq_Hostname req) (wnq_IPAddress req)
           (wnq_PublicIP req) (wnq_ClientVersion req) (wnq_MachineID req));
  wrap_err "insert windows report data" (InsertWindowsReportData now serverID req).

(** ** Queries *)

(** [ORDER BY server_id, reported_at DESC, id DESC] on the rows of a union. *)
Definition by_server_newest (r1 r2 : WindowsReport) : bool :=
  lex_le winr_ServerID (λ r1 r2,
    newest_id Windows {| rr_Report := r1; rr_Token := "" |} {| rr_Report := r2; rr_Token := "" |})
    r1 r2.

Section queries.
Context `{!SqlOrder}.

Definition GetLatestWindowsReport := latest_report Windows (newest_id Windows).
Definition GetLatestWindowsReports := latest_reports Windows.

Definition GetRecentWindowsReportsByServer (serverIDs : list Z) (limit : Z) (db : DB) :
    gmap Z (list WindowsReport) :=
  if is_nil serverIDs || (limit <=? 0) then ∅ else
  group_by winr_ServerID (order_by by_server_newest
    (mjoin ((λ serverID, limit_offset limit 0
       (reports_of Windows (newest_id Windows) serverID db)) <$> serverIDs))).

Definition ListWindowsReports (serverID limit : Z) (db : DB) : list WindowsReport :=
  limit_offset limit 0 (reports_of Windows (newest_id Windows) serverID db).

Definition ListWindowsReportsPage (serverID limit offset : Z) (db : DB) : list WindowsReport :=
  limit_offset limit offset (reports_of Windows (newest_id Windows) serverID db).

Definition ListWindowsReportsByDays (loc : Location) (now : Time) (serverID days : Z) (db : DB) :
    list WindowsReport :=
  reports_since Windows (newest_id Windows) serverID (AddDays loc now (- days)) db.

Definition CountWindowsReports (serverID : Z) (db : DB) : Z :=
  count_reports Windows (of_server Windows serverID) db.

Definition by_disk (d1 d2 : WindowsDisk) : bool := String.leb (disk_Name d1) (disk_Name d2).

Definition GetWindowsDisksForReport (reportID : Z) (db : DB) : list WindowsDisk :=
  select_from WindowsDisks (λ d, disk_ReportID d =? reportID) by_disk db.

Definition GetWindowsDisksForReports (reportIDs : list Z) (db : DB) :
    gmap Z (list WindowsDisk) :=
  if is_nil reportIDs then ∅ else
  group_by disk_ReportID
    (select_from WindowsDisks (λ d, in_ids reportIDs (disk_ReportID d))
      (lex_le disk_ReportID by_disk) db).
End queries.

(** ** Pruning *)

Definition delete_windows_parts (cond : ReportRow WindowsReport → bool) : prog DB () :=
  DELETE_IN WindowsDisks (λ db d, in_ids (report_ids Windows cond db) (disk_ReportID d)) ≫= λ _,
  mret ().

Definition DeleteOldWindowsReports (cutoff : Time) : prog DB Z :=
  tx (delete_windows_parts (is_old Windows cutoff) ≫= λ _,
      delete_reports Windows (is_old Windows cutoff)).

(** ** The reports the tables stand for *)

Definition disk_payload (d : WindowsDisk) : WindowsDiskPayload :=
  {| wdp_Name := disk_Name d; wdp_Label := disk_Label d; wdp_FileSystem := disk_FileSystem d;
     wdp_DriveType := disk_DriveType d; wdp_Total := disk_Total d; wdp_Used := disk_Used d;
     wdp_Free := disk_Free d; wdp_Health := disk_Health d |}.

Definition disks_view := view WindowsDisks disk_ReportID disk_payload.

Record StoredWindows := {
  spw_Report : ReportRow WindowsReport; spw_Disks : list WindowsDiskPayload }.

Definition stored_windows (db : DB) (r : ReportRow WindowsReport) : StoredWindows :=
  {| spw_Report := r; spw_Disks := disks_view (winr_ID (rr_Report r)) db |}.

Definition windows_reports (db : DB) : list StoredWindows :=
  stored_windows db <$> in_order (Reports Windows) db.

Definition stored_windows_of (now : Time) (serverID : Z) (req : WindowsReportRequest) (id : Z) :
    StoredWindows :=
  {| spw_Report := new_windows_report now serverID (wnq_ReportID req) id;
     spw_Disks := wnq_Disks req |}.

Definition spec_insert_windows (now : Time) (serverID : Z) (req : WindowsReportRequest) (id : Z)
    (l : list StoredWindows) : list StoredWindows :=
  if negb (str_empty (wnq_ReportID req)) &&
     existsb (λ s, has_token Windows serverID (wnq_ReportID req) (spw_Report s)) l
  then l else l ++ [stored_windows_of now serverID req id].

(** ** Lemmas *)

Lemma run_insert_disks R disks db :
  wf db → present db (Reports Windows) R = true →
  ∃ db', run (for_each disks (λ disk,
      wrap_err ("insert windows disk " +:+ wdp_Name disk) (insertWindowsDisk R disk))) db
      = (Ok (), db') ∧
    appended WindowsDisks disk_ReportID disk_payload R disks db db'.
Proof.
  intros Hwf HR. destruct (run_insert_each WindowsDisks disk_ReportID disk_payload
    (Reports Windows) R (new_disk R) id (λ disk,
      wrap_err ("insert windows disk " +:+ wdp_Name disk) (insertWindowsDisk R disk)) disks db)
    as (db' & Hrun & Ha);
    [by intros; eapply run_wrap_ok, run_ret_unit|by intros []|done| |done|done|].
  { intros db' x i Hp. by eapply (ref_ok (t := WindowsDisks) (Reports Windows) disk_ReportID). }
  rewrite list_fmap_id in Ha. by exists db'.
Qed.

Lemma run_windows_report_body now serverID req db :
  wf db → present db (Servers Windows) serverID = true →
  known Windows serverID (wnq_ReportID req) db = false →
  ∃ db', run (windows_report_body now serverID req) db = (Ok (), db') ∧
    windows_reports db' =
      windows_reports db ++ [stored_windows_of now serverID req (next_id db (Reports Windows))].
Proof.
  intros Hwf Hs Hnew%known_false. set (R := next_id db (Reports Windows)).
  destruct (report_INSERT_ok Windows (new_windows_report now serverID (wnq_ReportID req)) serverID
    (wnq_ReportID req) db Hwf Hs) as (db1 & Hrun1 & Hi); [done|done|]. fold R in Hrun1, Hi.
  assert (present db1 (Reports Windows) R = true) as HR1
    by (eapply present_Some, (ins_row _ _ _ _ Hi)).
  destruct (run_insert_disks R (wnq_Disks req) db1) as (db2 & Hrun2 & H2); [apply Hi|done|].
  exists db2. split.
  { unfold windows_report_body, insertWindowsReport. rewrite run_bind.
    rewrite (run_wrap_ok _ _ _ _ _ Hrun1). exact Hrun2. }
  pose proof (app_other _ _ _ _ _ _ _ H2) as O2. pose proof (ins_other _ _ _ _ Hi) as O1.
  assert (∀ R', disks_view R' db2 =
    disks_view R' db ++ (if R' =? R then wnq_Disks req else [])) as Hv.
  { intros R'. unfold disks_view. rewrite (app_view _ _ _ _ _ _ _ H2). f_equal.
    by apply view_frame, O1. }
  unfold windows_reports. rewrite (in_order_frame (Reports Windows) db1 db2) by (by apply O2).
  rewrite (ins_order _ _ _ _ Hi), fmap_app. f_equal.
  - apply list_fmap_ext. intros i r Hr. apply list_elem_of_lookup_2 in Hr.
    apply (old_row (Reports Windows) db r Hwf) in Hr.
    assert (winr_ID (rr_Report r) =? R = false) as Hne by (apply Z.eqb_neq; unfold R; simpl in Hr; lia).
    unfold stored_windows. by rewrite Hv, Hne, app_nil_r.
  - simpl. unfold stored_windows, stored_windows_of. simpl. rewrite Hv, Z.eqb_refl.
    unfold disks_view. rewrite (view_fresh WindowsDisks (Reports Windows) _ _ Cascade); [done..|].
    unfold present, R. by rewrite wf_fresh.
Qed.

Lemma strict_windows_report_body now serverID req : strict (windows_report_body now serverID req).
Proof.
  unfold windows_report_body, insertWindowsReport, insertWindowsDisk, INSERT.
  repeat first [progress intros | apply strict_bind | apply strict_wrap_err
    | apply strict_for_each | apply strict_stmt | constructor ].
Qed.

Lemma preserves_InsertWindowsReportData now serverID req :
  preserves wf (InsertWindowsReportData now serverID req).
Proof.
  apply preserves_insert_report_data.
  unfold windows_report_body, insertWindowsReport, insertWindowsDisk. keeps_wf.
Qed.

(** saving a Windows report is one atomic step of its specification: a report of a
    known token changes nothing, any other is added at the end with all its disks; it
    never fails on a constraint, and a failure of the driver leaves the database
    exactly as it was. *)
Theorem InsertWindowsReportData_refines (now : Time) (serverID : Z) (req : WindowsReportRequest)
    (db : DB) :
  wf db → present db (Servers Windows) serverID = true →
  is_ok (run (InsertWindowsReportData now serverID req) db).1 = true ∧
  always (InsertWindowsReportData now serverID req) (λ r db', wf db' ∧
    match r with
    | Ok _ => windows_reports db' =
        spec_insert_windows now serverID req (next_id db (Reports Windows)) (windows_reports db)
    | Err _ => db' = db
    end) db.
Proof.
  intros Hwf Hs. unfold spec_insert_windows.
  assert (negb (str_empty (wnq_ReportID req)) &&
    existsb (λ s, has_token Windows serverID (wnq_ReportID req) (spw_Report s)) (windows_reports db)
    = known Windows serverID (wnq_ReportID req) db) as ->
    by (symmetry; by apply (known_stored Windows)).
  assert (∃ db', run (InsertWindowsReportData now serverID req) db = (Ok (), db') ∧
    windows_reports db' = if known Windows serverID (wnq_ReportID req) db then windows_reports db
      else windows_reports db ++ [stored_windows_of now serverID req
        (next_id db (Reports Windows))]) as (db' & Hrun & Hrep).
  { unfold InsertWindowsReportData. rewrite run_insert_report_data.
    destruct (known Windows serverID (wnq_ReportID req) db) eqn:Hk; [by eexists|].
    destruct (run_windows_report_body now serverID req db Hwf Hs Hk) as (db' & -> & Hr). eauto. }
  split; [by rewrite Hrun|]. intros io.
  pose proof (exec_preserves wf _ io db
    (preserves_InsertWindowsReportData now serverID req) Hwf) as Hwf'.
  destruct (exec _ io db) as [[[[]|e] db1] io'] eqn:Hx; (split; [done|]).
  - apply strict_Ok in Hx; [|apply strict_insert_report_data, strict_windows_report_body].
    rewrite Hrun in Hx. by simplify_eq.
  - by apply insert_report_data_atomic in Hx as ->.
Qed.

(** ** Pruning *)

(** The tables of reports. *)
Definition windows_tables : list tbl := [Reports Windows; WindowsDisks].

Lemma windows_reports_frame db db' :
  (∀ t, t ∈ windows_tables → db' t = db t) → windows_reports db' = windows_reports db.
Proof.
  intros Hf. unfold windows_tables in Hf. unfold windows_reports.
  rewrite (in_order_frame (Reports Windows) db db') by (apply Hf; set_solver).
  apply list_fmap_ext. intros i r _. unfold stored_windows. f_equal.
  apply view_frame, Hf; set_solver.
Qed.

(** The tables after the reports that satisfy [cond] and their disks were deleted. *)
Record windows_pruned (cond : ReportRow WindowsReport → bool) (db db' : DB) : Prop := {
  wp_wf : wf db';
  wp_reports : in_order (Reports Windows) db' =
    List.filter (λ r, negb (cond r)) (in_order (Reports Windows) db);
  wp_disks : in_order WindowsDisks db' =
    List.filter (λ d, negb (goes Windows cond db (disk_ReportID d))) (in_order WindowsDisks db) }.

Lemma windows_pruned_reports cond db db' :
  wf db → windows_pruned cond db db' →
  windows_reports db' = List.filter (λ s, negb (cond (spw_Report s))) (windows_reports db).
Proof.
  intros Hwf Hp. unfold windows_reports. rewrite filter_fmap_bool, (wp_reports _ _ _ Hp). simpl.
  apply list_fmap_ext. intros i r Hr. apply list_elem_of_lookup_2 in Hr.
  apply (elem_of_filter_bool _ (in_order (Reports Windows) db)) in Hr as [Hr Hc%negb_true_iff].
  apply (elem_of_in_order (Reports Windows)) in Hr as [k Hr].
  pose proof (proj1 (wf_ids _ Hwf _ _ _ Hr)) as Hk. simpl in Hk.
  pose proof (goes_row Windows cond db k r Hwf Hr) as Hg. rewrite Hc in Hg.
  unfold stored_windows. f_equal. rewrite Hk.
  apply (view_filtered _ _ _ _ _ _ _ (wp_disks _ _ _ Hp)). by intros r' _ ->.
Qed.

(** What goes with the reports that satisfy [cond]. *)
Definition windows_marks (cond : ReportRow WindowsReport → bool) (db0 : DB) (t : tbl) :
    Row t → bool :=
  match t return tbl_row t → bool with
  | Reports Windows => cond
  | WindowsDisks => λ d, goes Windows cond db0 (disk_ReportID d)
  | _ => λ _, false
  end.

Lemma closed_windows_marks cond db0 : wf db0 → closed (windows_marks cond db0) db0.
Proof.
  intros Hwf u fk Hfk j r i r0 Hr Hi Hr0 Hc.
  destruct u as [|[]|[]| | | | | | | | | | | | | | | |]; simpl in Hfk;
    try (by apply not_elem_of_nil in Hfk); apply list_elem_of_singleton in Hfk as ->;
    simpl in *; try done; injection Hi as <-.
  exact (eq_trans (goes_row Windows cond db0 _ r0 Hwf Hr0) Hc).
Qed.

Lemma filtered_windows_pruned c cond db0 S db :
  filtered c db0 S db → windows_tables ⊆ S →
  (∀ t, t ∈ windows_tables → ∀ r, c t r = windows_marks cond db0 t r) →
  windows_pruned cond db0 db.
Proof.
  intros Hfl Hsub Hc.
  assert (∀ t, t ∈ windows_tables → in_order t db =
    List.filter (λ r, negb (windows_marks cond db0 t r)) (in_order t db0)) as Hord.
  { intros t Ht. rewrite (fl_order _ _ _ _ Hfl t) by set_solver. apply filter_bool_ext.
    intros r _. by rewrite Hc. }
  split; [apply Hfl|apply (Hord (Reports Windows))|apply (Hord WindowsDisks)];
    unfold windows_tables; set_solver.
Qed.

Lemma run_prune_windows cond db :
  wf db →
  ∃ db', run (delete_windows_parts cond ≫= λ _, delete_reports Windows cond) db =
    (Ok (Z.of_nat (length (matching (Reports Windows) cond db))), db') ∧
    filtered (windows_marks cond db) db windows_tables db'.
Proof.
  intros Hwf. pose proof (closed_windows_marks cond db Hwf) as Hcl.
  pose proof (filtered_start (windows_marks cond db) db Hwf) as F0.
  destruct (filtered_step _ db _ _ WindowsDisks
    (λ db d, goes Windows cond db (disk_ReportID d)) Hwf Hcl F0) as (db1 & R1 & F1);
    [set_solver|each_reference|done|].
  destruct (filtered_step _ db _ _ (Reports Windows) (λ _, cond) Hwf Hcl F1) as (db2 & R2 & F2);
    [set_solver|each_reference; set_solver|done|].
  exists db2. split; [|done]. unfold delete_windows_parts. rewrite !run_bind. unfold goes in R1.
  rewrite R1. cbn beta iota. rewrite run_mret.
  rewrite (matching_same (Reports Windows) cond db db1) in R2
    by (apply (fl_out _ _ _ _ F1); set_solver).
  exact R2.
Qed.

Lemma preserves_DeleteOldWindowsReports cutoff : preserves wf (DeleteOldWindowsReports cutoff).
Proof. unfold DeleteOldWindowsReports, delete_windows_parts, delete_reports. keeps_wf. Qed.

Lemma DeleteOldWindowsReports_step (cutoff : Time) (db : DB) :
  wf db →
  let old s := is_old Windows cutoff (spw_Report s) in
  is_ok (run (DeleteOldWindowsReports cutoff) db).1 = true ∧
  always (DeleteOldWindowsReports cutoff) (λ r db', wf db' ∧
    match r with
    | Ok n => n = len (List.filter old (windows_reports db)) ∧
        windows_reports db' = List.filter (λ s, negb (old s)) (windows_reports db) ∧
        ∀ t, t ∉ windows_tables → db' t = db t
    | Err _ => db' = db
    end) db.
Proof.
  intros Hwf old. destruct (run_prune_windows (is_old Windows cutoff) db Hwf) as (db' & Hrun & Hpr).
  assert (run (DeleteOldWindowsReports cutoff) db =
    (Ok (len (List.filter old (windows_reports db))), db')) as Hall.
  { unfold DeleteOldWindowsReports. rewrite run_tx, Hrun. do 2 f_equal. unfold len. f_equal.
    rewrite length_matching. unfold windows_reports. rewrite filter_fmap_bool.
    by rewrite length_fmap. }
  split; [by rewrite Hall|]. intros io.
  pose proof (exec_preserves wf _ io db (preserves_DeleteOldWindowsReports cutoff) Hwf) as Hwf'.
  destruct (exec (DeleteOldWindowsReports cutoff) io db) as [[[n|e] db1] io'] eqn:Hx;
    (split; [done|]).
  - apply strict_Ok in Hx.
    + rewrite Hall in Hx. simplify_eq. split_and!; [done| |apply Hpr].
      apply windows_pruned_reports; [done|]. by eapply filtered_windows_pruned.
    + apply strict_tx, strict_bind; [repeat constructor; eauto|]. intros _. apply strict_stmt.
  - by apply exec_tx_atomic in Hx.
Qed.

(** pruning removes exactly the Windows reports older than the cutoff with their
    disks, and counts them; every other report stays as it was, and so does every
    other table; when the driver fails nothing is removed. *)
Theorem DeleteOldWindowsReports_spec (cutoff : Time) (db : DB) :
  wf db →
  let old s := is_old Windows cutoff (spw_Report s) in
  is_ok (run (DeleteOldWindowsReports cutoff) db).1 = true ∧
  always (DeleteOldWindowsReports cutoff) (λ r db', wf db' ∧
    match r with
    | Ok n => n = len (List.filter old (windows_reports db)) ∧
        windows_reports db' = List.filter (λ s, negb (old s)) (windows_reports db) ∧
        ∀ t, t ∉ windows_tables → db' t = db t
    | Err _ => db' = db
    end) db.
Proof. apply DeleteOldWindowsReports_step. Qed.

(** ** Examples *)

Module WindowsExamples.
Definition request (token : string) : WindowsReportRequest :=
  {| wnq_ReportID := token; wnq_Hostname := "win1"; wnq_IPAddress := "10.0.0.3";
     wnq_PublicIP := ""; wnq_ClientVersion := "1.0"; wnq_MachineID := "m3";
     wnq_Disks := [{| wdp_Name := "C:"; wdp_Label := "System"; wdp_FileSystem := "NTFS";
       wdp_DriveType := "fixed"; wdp_Total := 100; wdp_Used := 30; wdp_Free := 70;
       wdp_Health := "OK" |}] |}.

Definition db1 : DB :=
  (run (SaveWindowsReportForAPIKey (10 * Second) (request "a") 0 ≫= λ _,
        SaveWindowsReportForAPIKey (20 * Second) (request "b") 0) empty_db).2.

Lemma preserves_SaveWindowsReportForAPIKey now req key :
  preserves wf (SaveWindowsReportForAPIKey now req key).
Proof.
  unfold SaveWindowsReportForAPIKey. apply preserves_bind.
  - apply preserves_wrap_err. destruct (0 <? key).
    + apply preserves_upsert_server_for_key.
    + apply preserves_upsert_server.
  - intros id. apply preserves_wrap_err, preserves_InsertWindowsReportData.
Qed.

Lemma wf_windows_db1 : wf db1.
Proof.
  apply wf_run; [|apply wf_empty_db].
  apply preserves_bind; intros; apply preserves_SaveWindowsReportForAPIKey.
Qed.
End WindowsExamples.

Lemma InsertWindowsReportData_refines_witness :
  present WindowsExamples.db1 (Servers Windows) 1 = true ∧
  is_ok (run (InsertWindowsReportData (30 * Second) 1 (WindowsExamples.request "c"))
    WindowsExamples.db1).1 = true.
Proof.
  split; [vm_compute; reflexivity|].
  apply (InsertWindowsReportData_refines (30 * Second) 1 (WindowsExamples.request "c")
    WindowsExamples.db1); [apply WindowsExamples.wf_windows_db1|vm_compute; reflexivity].
Defined.

Lemma DeleteOldWindowsReports_spec_witness :
  len (windows_reports WindowsExamples.db1) = 2 ∧
  is_ok (run (DeleteOldWindowsReports (15 * Second)) WindowsExamples.db1).1 = true ∧
  len (windows_reports (run (DeleteOldWindowsReports (15 * Second)) WindowsExamples.db1).2) = 1.
Proof.
  split; [vm_compute; reflexivity|]. split; [|vm_compute; reflexivity].
  apply (DeleteOldWindowsReports_spec (15 * Second) WindowsExamples.db1), WindowsExamples.wf_windows_db1.
Defined.
