(* ===== verification/Batches.v ===== *)
(** * The batched readers of reports

    The alert evaluation and the pages read the newest report of every server, and the
    parts of many reports, with one query each.  The theorems say that such an answer
    is, for every server or report, the answer of the query for it alone. *)
From stdpp Require Import sorting.
From S2P Require Import Prelude GoStrings GoNum GoTime Domain Validation Sql Relational Schema Servers Reports PveReports PbsReports WindowsReports.

(** ** Maps built from the rows of an answer *)

Lemma index_by_snoc {A} (key : A → Z) l x :
  index_by key (l ++ [x]) = <[key x := x]> (index_by key l).
Proof. unfold index_by. by rewrite fold_left_app. Qed.

Lemma group_by_snoc {A} (key : A → Z) l x :
  group_by key (l ++ [x]) =
  <[key x := default [] (group_by key l !! key x) ++ [x]]> (group_by key l).
Proof. unfold group_by. by rewrite fold_left_app. Qed.

(** A key that no two different rows share indexes its row. *)
Lemma lookup_index_by {A} (key : A → Z) (l : list A) i x :
  (∀ y z, y ∈ l → z ∈ l → key y = key z → y = z) →
  index_by key l !! i = Some x ↔ x ∈ l ∧ key x = i.
Proof.
  revert x. induction l as [|y l IH] using rev_ind; intros x Huniq.
  { split; [done|]. intros [Hx _]. by apply not_elem_of_nil in Hx. }
  rewrite index_by_snoc, elem_of_app, list_elem_of_singleton.
  assert (∀ y0 z, y0 ∈ l → z ∈ l → key y0 = key z → y0 = z) as Hl
    by (intros; apply Huniq; set_solver).
  destruct (decide (key y = i)) as [<-|Hne].
  - rewrite lookup_insert_eq. split; [intros [= ->]; auto|].
    intros [[Hx| ->] Hk]; [|done]. f_equal. apply Huniq; set_solver.
  - rewrite lookup_insert_ne, IH by done. split; [naive_solver|].
    intros [[Hx| ->] Hk]; [done|]. by destruct Hne.
Qed.

Lemma lookup_group_by {A} (key : A → Z) (l : list A) i :
  default [] (group_by key l !! i) = List.filter (λ x, key x =? i) l.
Proof.
  induction l as [|y l IH] using rev_ind; [done|].
  rewrite group_by_snoc, filter_bool_app. simpl. destruct (decide (key y = i)) as [<-|Hne].
  - by rewrite lookup_insert_eq, Z.eqb_refl, <-IH.
  - rewrite lookup_insert_ne by done. rewrite (proj2 (Z.eqb_neq _ _) Hne), app_nil_r. done.
Qed.

#[export] Instance filter_bool_Proper {A} (f : A → bool) :
  Proper ((≡ₚ) ==> (≡ₚ)) (List.filter f).
Proof. intros l1 l2. apply filter_bool_perm. Qed.

(** The rows of an answer for many keys, restricted to one of them. *)
Lemma filter_select `{!SqlOrder} (t : tbl) (cond cond' : Row t → bool) le le' f db :
  (∀ r, cond r && f r = cond' r) →
  List.filter f (select_from t cond le db) ≡ₚ select_from t cond' le' db.
Proof.
  intros Hc. unfold select_from. rewrite !order_by_perm.
  unfold matching. induction (map_to_list _).*2 as [|r l IH]; simpl; [done|].
  rewrite <-(Hc r). destruct (cond r); simpl; [|done]. destruct (f r); [by constructor|done].
Qed.

Lemma batch_perm `{!SqlOrder} (t : tbl) (key : Row t → Z) le le' ids i db :
  in_ids ids i = true →
  default [] (group_by key (select_from t (λ r, in_ids ids (key r)) le db) !! i) ≡ₚ
  select_from t (λ r, key r =? i) le' db.
Proof.
  intros Hi. rewrite lookup_group_by. apply filter_select. intros r.
  destruct (key r =? i) eqn:Hk; [|by rewrite andb_false_r].
  apply Z.eqb_eq in Hk as ->. by rewrite Hi.
Qed.

Lemma select_sorted `{!SqlOrder} (t : tbl) (cond : Row t → bool) le db :
  (∀ x y, le x y = true ∨ le y x = true) →
  (∀ x y z, le x y = true → le y z = true → le x z = true) →
  StronglySorted (λ x y, le x y = true) (select_from t cond le db).
Proof. apply order_by_sorted. Qed.

Lemma is_nil_in_ids ids i : in_ids ids i = true → is_nil ids = false.
Proof. by destruct ids. Qed.

(** ** The order of an answer *)

Lemma StronglySorted_impl {A} (R1 R2 : A → A → Prop) (l : list A) :
  (∀ x y, x ∈ l → y ∈ l → R1 x y → R2 x y) → StronglySorted R1 l → StronglySorted R2 l.
Proof.
  intros HR Hl. induction Hl as [|x l Hl IH Hx]; constructor.
  - apply IH. intros y z Hy Hz. apply HR; by right.
  - rewrite Forall_forall in *. intros y Hy. apply HR; [left|by right|auto].
Qed.

(** Two answers with the same rows in an order without ties are the same. *)
Lemma answers_unique {A} (le : A → A → bool) (l1 l2 : list A) :
  l1 ≡ₚ l2 → StronglySorted (bool_rel le) l1 → StronglySorted (bool_rel le) l2 →
  (∀ x y, x ∈ l1 → y ∈ l1 → le x y = true → le y x = true → x = y) → l1 = l2.
Proof.
  intros Hp H1 H2 Hu. eapply StronglySorted_unique_strong; [|done|done|done].
  intros x y Hx Hy. rewrite <-Hp in Hy. by apply Hu.
Qed.

(** ** The newest report of every server *)

Section latest.
Context `{!SqlOrder} (k : server_kind).

Lemma reports_of_row order serverID db x :
  x ∈ reports_of k order serverID db ↔
  ∃ i r, rows_of db (Reports k) !! i = Some r ∧ rr_Report r = x ∧ rep_ServerID x = serverID.
Proof.
  unfold reports_of. rewrite list_elem_of_fmap. split.
  - intros (r & -> & (i & Hr & Hs)%(select_out (Reports k))). exists i, r.
    split_and!; [done|done|]. by apply Z.eqb_eq in Hs.
  - intros (i & r & Hr & <- & Hs). exists r. split; [done|].
    apply (select_in (Reports k)) with i; [done|]. by apply Z.eqb_eq.
Qed.

(** Two rows with one identifier are one row. *)
Lemma report_id_unique db i1 i2 r1 r2 :
  wf db → rows_of db (Reports k) !! i1 = Some r1 → rows_of db (Reports k) !! i2 = Some r2 →
  rep_ID (rr_Report r1) = rep_ID (rr_Report r2) → r1 = r2.
Proof.
  intros Hwf H1 H2 Hid. pose proof (proj1 (wf_ids _ Hwf (Reports k) _ _ H1)) as E1.
  pose proof (proj1 (wf_ids _ Hwf (Reports k) _ _ H2)) as E2. simpl in E1, E2.
  assert (i1 = i2) as -> by congruence. by eapply row_det.
Qed.

Lemma is_latest_spec db i r :
  wf db → rows_of db (Reports k) !! i = Some r →
  is_latest k db r = true ↔
  head (reports_of k (newest_id k) (rep_ServerID (rr_Report r)) db) = Some (rr_Report r).
Proof.
  intros Hwf Hr. unfold is_latest.
  destruct (reports_of k (newest_id k) (rep_ServerID (rr_Report r)) db) as [|x l] eqn:Hl;
    simpl; [done|].
  assert (x ∈ reports_of k (newest_id k) (rep_ServerID (rr_Report r)) db) as Hx
    by (rewrite Hl; left).
  apply reports_of_row in Hx as (j & r' & Hr' & <- & _). rewrite Z.eqb_eq. split.
  - intros Hid. by rewrite (report_id_unique db i j r r' Hwf Hr Hr' Hid).
  - by intros [= ->].
Qed.

Lemma latest_reports_head (db : DB) (serverID : Z) :
  wf db →
  latest_reports k db !! serverID =
  match latest_report k (newest_id k) serverID db with Ok r => Some r | Err _ => None end.
Proof.
  intros Hwf. unfold latest_reports.
  set (l := rr_Report <$> select_from (Reports k) (is_latest k db) any_order db).
  assert (∀ x, x ∈ l ↔ head (reports_of k (newest_id k) (rep_ServerID x) db) = Some x) as Hl.
  { intros x. unfold l. rewrite list_elem_of_fmap. split.
    - intros (r & -> & (i & Hr & Hc)%(select_out (Reports k))). by eapply is_latest_spec in Hc.
    - intros Hh. assert (x ∈ reports_of k (newest_id k) (rep_ServerID x) db) as Hx.
      { destruct (reports_of _ _ _ _); [done|]. injection Hh as ->. left. }
      apply reports_of_row in Hx as (i & r & Hr & <- & _). exists r. split; [done|].
      apply (select_in (Reports k)) with i; [done|]. by eapply is_latest_spec. }
  assert (∀ y z, y ∈ l → z ∈ l → rep_ServerID y = rep_ServerID z → y = z) as Huniq.
  { intros y z Hy%Hl Hz%Hl He. rewrite He in Hy. congruence. }
  unfold latest_report, scan_first.
  destruct (reports_of k (newest_id k) serverID db) as [|x rest] eqn:Hr.
  - apply eq_None_not_Some. intros [x Hx]. apply (lookup_index_by _ _ _ _ Huniq) in Hx as [Hx <-].
    apply Hl in Hx. by rewrite Hr in Hx.
  - apply (lookup_index_by _ _ _ _ Huniq).
    assert (rep_ServerID x = serverID) as Hs.
    { assert (x ∈ reports_of k (newest_id k) serverID db) as Hx by (rewrite Hr; left).
      by apply reports_of_row in Hx as (_ & _ & _ & _ & Hs). }
    split; [|done]. apply Hl. by rewrite Hs, Hr.
Qed.

(** The newest report is one that no other of the server follows. *)
Lemma newest_id_total r1 r2 : newest_id k r1 r2 = true ∨ newest_id k r2 r1 = true.
Proof.
  unfold newest_id.
  destruct (Z.eqb_spec (rep_ReportedAt (rr_Report r1)) (rep_ReportedAt (rr_Report r2)));
    destruct (Z.eqb_spec (rep_ReportedAt (rr_Report r2)) (rep_ReportedAt (rr_Report r1)));
    rewrite ?Z.leb_le; lia.
Qed.

Lemma newest_id_spec r1 r2 :
  newest_id k r1 r2 = true ↔
  let t1 := rep_ReportedAt (rr_Report r1) in let t2 := rep_ReportedAt (rr_Report r2) in
  t2 < t1 ∨ (t1 = t2 ∧ rep_ID (rr_Report r2) ≤ rep_ID (rr_Report r1)).
Proof.
  unfold newest_id. simpl.
  destruct (Z.eqb_spec (rep_ReportedAt (rr_Report r1)) (rep_ReportedAt (rr_Report r2)));
    rewrite Z.leb_le; lia.
Qed.

Lemma newest_id_trans r1 r2 r3 :
  newest_id k r1 r2 = true → newest_id k r2 r3 = true → newest_id k r1 r3 = true.
Proof. rewrite !newest_id_spec. simpl. lia. Qed.

Lemma newest_total r1 r2 : newest k r1 r2 = true ∨ newest k r2 r1 = true.
Proof. unfold newest. rewrite !Z.leb_le. lia. Qed.

Lemma newest_trans r1 r2 r3 :
  newest k r1 r2 = true → newest k r2 r3 = true → newest k r1 r3 = true.
Proof. unfold newest. rewrite !Z.leb_le. lia. Qed.

(** The first report of a sorted answer is a row of the server that all the others
    follow. *)
Lemma latest_report_first order db serverID x :
  (∀ r1 r2, order r1 r2 = true ∨ order r2 r1 = true) →
  (∀ r1 r2 r3, order r1 r2 = true → order r2 r3 = true → order r1 r3 = true) →
  latest_report k order serverID db = Ok x →
  ∃ i0 r0, rows_of db (Reports k) !! i0 = Some r0 ∧ rr_Report r0 = x ∧ rep_ServerID x = serverID ∧
  ∀ i r, rows_of db (Reports k) !! i = Some r → rep_ServerID (rr_Report r) = serverID →
    order r0 r = true.
Proof.
  intros Htot Htrans. unfold latest_report, scan_first, reports_of.
  pose proof (select_sorted (Reports k) (of_server k serverID) order db Htot Htrans) as Hs.
  pose proof (select_in (Reports k) (of_server k serverID) order db) as Hin.
  pose proof (select_out (Reports k) (of_server k serverID) order db) as Hout.
  destruct (select_from (Reports k) (of_server k serverID) order db) as [|r0 l];
    [done|]. intros [= <-].
  destruct (Hout r0) as (i0 & H0 & Hs0%Z.eqb_eq); [left|]. exists i0, r0. split_and!; [done..|].
  intros i r Hr Hsrv. specialize (Hin i r Hr (proj2 (Z.eqb_eq _ _) Hsrv)).
  inversion Hs as [|? ? Hs' Hall]; subst. apply elem_of_cons in Hin as [->|Hin].
  - destruct (Htot r0 r0); done.
  - rewrite Forall_forall in Hall. by apply Hall.
Qed.

Lemma latest_report_none order db serverID e :
  latest_report k order serverID db = Err e →
  e = ErrNoRows ∧ ∀ i r, rows_of db (Reports k) !! i = Some r →
    rep_ServerID (rr_Report r) ≠ serverID.
Proof.
  unfold latest_report. destruct (reports_of k order serverID db) as [|x l] eqn:Hl; [|done].
  intros [= <-]. split; [done|]. intros i r Hr Hs.
  assert (rr_Report r ∈ reports_of k order serverID db) as Hx
    by (apply reports_of_row; eauto). rewrite Hl in Hx. by apply not_elem_of_nil in Hx.
Qed.

(** [x] is a report of the server, and none of its reports is of a later second. *)
Definition newest_of (serverID : Z) (db : DB) (x : report_of k) : Prop :=
  rep_ServerID x = serverID ∧ (∃ i r, rows_of db (Reports k) !! i = Some r ∧ rr_Report r = x) ∧
  ∀ i r, rows_of db (Reports k) !! i = Some r → rep_ServerID (rr_Report r) = serverID →
    rep_ReportedAt (rr_Report r) ≤ rep_ReportedAt x.

Lemma latest_report_newest db serverID x :
  latest_report k (newest k) serverID db = Ok x → newest_of serverID db x.
Proof.
  intros (i0 & r0 & H0 & <- & Hs & Hall)%latest_report_first; [|apply newest_total|apply newest_trans].
  split_and!; [done|eauto|]. intros i r Hr Hsrv. specialize (Hall i r Hr Hsrv).
  by apply Z.leb_le in Hall.
Qed.

Lemma latest_reports_iff db serverID x :
  wf db →
  latest_reports k db !! serverID = Some x ↔
  newest_of serverID db x ∧
  ∀ i r, rows_of db (Reports k) !! i = Some r → rep_ServerID (rr_Report r) = serverID →
    rep_ReportedAt (rr_Report r) = rep_ReportedAt x → rep_ID (rr_Report r) ≤ rep_ID x.
Proof.
  intros Hwf. rewrite latest_reports_head by done.
  destruct (latest_report k (newest_id k) serverID db) as [y|e] eqn:Hy; last first.
  { apply latest_report_none in Hy as [_ Hnone]. split; [done|].
    intros [(Hs & (i & r & Hr & <-) & _) _]. by destruct (Hnone i r Hr). }
  apply latest_report_first in Hy as (i0 & r0 & H0 & <- & Hs & Hall);
    [|apply newest_id_total|apply newest_id_trans]. setoid_rewrite newest_id_spec in Hall.
  cbv zeta in Hall. split.
  - intros [= <-]. split; [|intros i r Hr Hsrv He; specialize (Hall i r Hr Hsrv); lia].
    split_and!; [done|eauto|]. intros i r Hr Hsrv. specialize (Hall i r Hr Hsrv). lia.
  - intros [(Hsx & (i & r & Hr & <-) & Hmax) Hid]. f_equal.
    specialize (Hall i r Hr Hsx). specialize (Hmax i0 r0 H0 Hs). specialize (Hid i0 r0 H0 Hs).
    by rewrite (report_id_unique db i0 i r0 r Hwf H0 Hr) by lia.
Qed.

(** The batched answer and the single one are of one second. *)
Definition same_second (serverID : Z) (db : DB) (o : option (report_of k))
    (r : result (report_of k)) : Prop :=
  match o, r with
  | Some x, Ok y => newest_of serverID db x ∧ newest_of serverID db y ∧
      rep_ReportedAt x = rep_ReportedAt y ∧ rep_ID y ≤ rep_ID x
  | None, Err e => e = ErrNoRows
  | _, _ => False
  end.

Lemma latest_same_second db serverID :
  wf db →
  same_second serverID db (latest_reports k db !! serverID)
    (latest_report k (newest k) serverID db).
Proof.
  intros Hwf. destruct (latest_reports k db !! serverID) as [x|] eqn:Hx;
    destruct (latest_report k (newest k) serverID db) as [y|e] eqn:Hy; simpl.
  - apply latest_reports_iff in Hx as [Hx Hid]; [|done]. apply latest_report_newest in Hy.
    split_and!; [done|done| |];
      destruct Hx as (Hsx & (i & r & Hr & <-) & Hmx), Hy as (Hsy & (j & r' & Hr' & <-) & Hmy);
      specialize (Hmx j r' Hr' Hsy); specialize (Hmy i r Hr Hsx); [lia|].
    apply (Hid j r' Hr' Hsy). lia.
  - apply latest_report_none in Hy as [_ Hnone].
    apply latest_reports_iff in Hx as [(Hs & (i & r & Hr & <-) & _) _]; [|done].
    by destruct (Hnone i r Hr).
  - exfalso. rewrite latest_reports_head in Hx by done.
    destruct (latest_report k (newest_id k) serverID db) eqn:He; [done|].
    apply latest_report_none in He as [_ Hnone]. apply latest_report_newest in Hy.
    destruct Hy as (Hs & (i & r & Hr & <-) & _). by destruct (Hnone i r Hr).
  - by apply latest_report_none in Hy as [-> _].
Qed.
End latest.
Arguments newest_of {_}.
Arguments same_second {_}.

(** the query for the newest report of all servers has an entry for exactly the
    servers with a report, of the last second in which the server reported and, among
    several of that second, the one inserted last. *)
Theorem latest_reports_newest `{!SqlOrder} (k : server_kind) (db : DB) (serverID : Z)
    (x : report_of k) :
  wf db →
  latest_reports k db !! serverID = Some x ↔
  newest_of serverID db x ∧
  ∀ i r, rows_of db (Reports k) !! i = Some r → rep_ServerID (rr_Report r) = serverID →
    rep_ReportedAt (rr_Report r) = rep_ReportedAt x → rep_ID (rr_Report r) ≤ rep_ID x.
Proof. apply latest_reports_iff. Qed.

(** the query for the newest report of every server agrees with the query for one
    server: for Windows both give the same report.  For PVE and PBS the single query
    does not break ties, so both give a report of the same, last second, the batched
    one that inserted last; a server without reports has an entry in neither. *)
Theorem latest_reports_agree `{!SqlOrder} (db : DB) (serverID : Z) :
  wf db →
  GetLatestWindowsReports db !! serverID =
    match GetLatestWindowsReport serverID db with Ok r => Some r | Err _ => None end ∧
  same_second serverID db (GetLatestPVEReports db !! serverID) (GetLatestPVEReport serverID db) ∧
  same_second serverID db (GetLatestPBSReports db !! serverID) (GetLatestPBSReport serverID db).
Proof.
  intros Hwf. split_and!; [by apply latest_reports_head|by apply latest_same_second..].
Qed.

(** ** The parts of many reports *)

(** the parts of a report in the answer for many reports are, as a set with
    repetitions, the parts the query for it alone gives: the storages, their contents
    and the backup tasks of PVE, the datastores, their snapshots and histories and the
    tasks of PBS, the disks of Windows. *)
Theorem batched_parts_agree `{!SqlOrder} (ids : list Z) (i : Z) (db : DB) :
  in_ids ids i = true →
  default [] (GetPVEStoragesForReports ids db !! i) ≡ₚ GetPVEStoragesForReport i db ∧
  default [] (GetPVEStorageContentForStorages ids db !! i) ≡ₚ GetPVEStorageContent i db ∧
  default [] (GetPVEBackupTasksForReports ids db !! i) ≡ₚ GetPVEBackupTasksForReport i db ∧
  default [] (GetPBSStoresForReports ids db !! i) ≡ₚ GetPBSStoresForReport i db ∧
  default [] (GetPBSSnapshotsForStores ids db !! i) ≡ₚ GetPBSSnapshotsForStore i db ∧
  default [] (GetPBSHistoryForStores ids db !! i) ≡ₚ GetPBSHistory i db ∧
  default [] (GetPBSTasksForReports ids db !! i) ≡ₚ GetPBSTasksForReport i db ∧
  default [] (GetWindowsDisksForReports ids db !! i) ≡ₚ GetWindowsDisksForReport i db.
Proof.
  intros Hi. unfold GetPVEStoragesForReports, GetPVEStorageContentForStorages,
    GetPVEBackupTasksForReports, GetPBSStoresForReports, GetPBSSnapshotsForStores,
    GetPBSHistoryForStores, GetPBSTasksForReports, GetWindowsDisksForReports.
  rewrite (is_nil_in_ids ids i Hi). split_and!.
  - by apply (batch_perm PveStorages stg_ReportID).
  - by apply (batch_perm PveStorageContents cnt_StorageID).
  - by apply (batch_perm PveBackupTasks task_ReportID).
  - by apply (batch_perm PbsStores ds_ReportID).
  - by apply (batch_perm PbsSnapshots sn_StoreID).
  - rewrite lookup_fmap. unfold GetPBSHistory.
    rewrite <-(batch_perm PbsStoreHistory hist_StoreID (lex_le hist_StoreID by_position) by_position
      ids i db Hi).
    cbn [Row probakgo_schema tbl_row]. by destruct (group_by _ _ !! i).
  - by apply (batch_perm PbsMaintenanceTasks ptask_ReportID).
  - by apply (batch_perm WindowsDisks disk_ReportID).
Qed.

(** ** The recent reports of Windows servers *)

Lemma limit_offset_sub {A} limit offset (l : list A) x : x ∈ limit_offset limit offset l → x ∈ l.
Proof.
  unfold limit_offset. destruct (limit <? 0).
  - intros [i Hi]%list_elem_of_lookup. rewrite lookup_drop in Hi. by apply list_elem_of_lookup_2 in Hi.
  - intros [i Hi]%list_elem_of_lookup. rewrite lookup_take_Some, lookup_drop in Hi.
    destruct Hi as [Hi _]. by apply list_elem_of_lookup_2 in Hi.
Qed.

Lemma StronglySorted_take {A} (R : A → A → Prop) n (l : list A) :
  StronglySorted R l → StronglySorted R (take n l).
Proof.
  intros Hl. revert n. induction Hl as [|x l Hl IH Hx]; intros [|n]; simpl; try constructor.
  - apply IH.
  - by apply Forall_take.
Qed.

Lemma StronglySorted_fmap_bool {A B} (f : A → B) (R : B → B → Prop) (l : list A) :
  StronglySorted (λ x y, R (f x) (f y)) l → StronglySorted R (f <$> l).
Proof.
  induction 1 as [|x l Hl IH Hx]; simpl; constructor; [done|]. by rewrite Forall_fmap.
Qed.

(** The rows of one server in the union over different servers. *)
Lemma filter_union {A} (key : A → Z) (f : Z → list A) ids i :
  NoDup ids → (∀ j x, x ∈ f j → key x = j) → i ∈ ids →
  List.filter (λ x, key x =? i) (mjoin (f <$> ids)) = f i.
Proof.
  intros Hnd Hf. assert (∀ j, List.filter (λ x, key x =? i) (f j) = if j =? i then f i else [])
    as Hone.
  { intros j. destruct (Z.eqb_spec j i) as [->|Hne].
    - rewrite <-(app_nil_r (f i)) at 2. rewrite app_nil_r.
      assert (∀ x, x ∈ f i → (key x =? i) = true) as Hk by (intros x Hx; apply Z.eqb_eq; auto).
      induction (f i) as [|x l IH]; simpl; [done|].
      rewrite (Hk x) by left. f_equal. apply IH. intros y Hy. apply Hk. by right.
    - apply filter_bool_empty. intros x Hx. apply Z.eqb_neq. by rewrite (Hf j x Hx). }
  induction Hnd as [|j ids Hj Hnd IH]; intros Hi; [by apply not_elem_of_nil in Hi|].
  simpl. rewrite filter_bool_app, Hone. apply elem_of_cons in Hi as [->|Hi].
  - rewrite Z.eqb_refl. rewrite filter_bool_empty, app_nil_r; [done|].
    intros x Hx. rewrite list_elem_of_join in Hx. destruct Hx as (l & Hx & Hl).
    apply list_elem_of_fmap in Hl as (j' & -> & Hj'). rewrite (Hf j' x Hx).
    apply Z.eqb_neq. intros ->. done.
  - destruct (Z.eqb_spec j i) as [->|]; [done|]. by apply IH.
Qed.

Definition as_row (r : WindowsReport) : ReportRow WindowsReport :=
  {| rr_Report := r; rr_Token := "" |}.

Lemma by_server_newest_spec r1 r2 :
  by_server_newest r1 r2 = true ↔
  winr_ServerID r1 < winr_ServerID r2 ∨
  (winr_ServerID r1 = winr_ServerID r2 ∧ newest_id Windows (as_row r1) (as_row r2) = true).
Proof.
  unfold by_server_newest, lex_le. destruct (Z.eqb_spec (winr_ServerID r1) (winr_ServerID r2)).
  - unfold as_row. split; [auto|]. intros [?|[_ ?]]; [lia|done].
  - rewrite Z.leb_le. lia.
Qed.

Lemma by_server_newest_total r1 r2 : by_server_newest r1 r2 = true ∨ by_server_newest r2 r1 = true.
Proof.
  rewrite !by_server_newest_spec. pose proof (newest_id_total Windows (as_row r1) (as_row r2)).
  destruct (Z.lt_trichotomy (winr_ServerID r1) (winr_ServerID r2)) as [|[|]]; naive_solver.
Qed.

Lemma by_server_newest_trans r1 r2 r3 :
  by_server_newest r1 r2 = true → by_server_newest r2 r3 = true → by_server_newest r1 r3 = true.
Proof.
  rewrite !by_server_newest_spec. intros [H12|[E12 H12]] [H23|[E23 H23]]; [lia..|].
  right. split; [lia|]. by apply (newest_id_trans Windows _ (as_row r2)).
Qed.

(** the recent reports of a Windows server in the answer for many servers are the
    first ones of its own list, in the same order. *)
Theorem recent_windows_agree `{!SqlOrder} (serverIDs : list Z) (serverID limit : Z) (db : DB) :
  wf db → NoDup serverIDs → serverID ∈ serverIDs → 0 < limit →
  default [] (GetRecentWindowsReportsByServer serverIDs limit db !! serverID) =
  ListWindowsReports serverID limit db.
Proof.
  intros Hwf Hnd Hi Hlimit. unfold GetRecentWindowsReportsByServer.
  rewrite (is_nil_in_ids serverIDs serverID) by (by apply in_ids_spec).
  rewrite (proj2 (Z.leb_gt limit 0)) by done. cbn [orb]. rewrite lookup_group_by.
  assert (∀ j x, x ∈ ListWindowsReports j limit db → winr_ServerID x = j ∧
    ∃ i r, rows_of db (Reports Windows) !! i = Some r ∧ rr_Report r = x) as Hrow.
  { intros j x Hx%limit_offset_sub.
    apply (reports_of_row Windows) in Hx as (i & r & Hr & Hrx & Hs). eauto. }
  pose proof (filter_union winr_ServerID (λ j, ListWindowsReports j limit db) serverIDs serverID
    Hnd (λ j x Hx, proj1 (Hrow j x Hx)) Hi) as Hf.
  match goal with |- ?l = _ => assert (l ≡ₚ ListWindowsReports serverID limit db) as Hp end.
  { etransitivity; [apply filter_bool_perm, order_by_perm|]. by apply Permutation_refl'. }
  apply (answers_unique by_server_newest); [done|..].
  - apply StronglySorted_filter_bool, order_by_sorted;
      [apply by_server_newest_total|apply by_server_newest_trans].
  - apply (StronglySorted_impl (bool_rel (λ r1 r2, newest_id Windows (as_row r1) (as_row r2)))).
    { intros x y [Hx _]%Hrow [Hy _]%Hrow Hn. apply by_server_newest_spec. right. by rewrite Hx. }
    unfold ListWindowsReports, limit_offset. rewrite (proj2 (Z.ltb_ge limit 0)) by lia.
    apply StronglySorted_take. rewrite drop_0. apply StronglySorted_fmap_bool.
    exact (select_sorted (Reports Windows) (of_server Windows serverID) (newest_id Windows) db
      (newest_id_total Windows) (newest_id_trans Windows)).
  - intros x y. rewrite Hp. intros Hx Hy.
    apply Hrow in Hx as (Hx & i1 & r1 & H1 & <-). apply Hrow in Hy as (Hy & i2 & r2 & H2 & <-).
    rewrite !by_server_newest_spec, !(newest_id_spec Windows). simpl. intros Hle1 Hle2.
    f_equal. apply (report_id_unique Windows db i1 i2 r1 r2 Hwf H1 H2). simpl. lia.
Qed.

(** ** Examples *)

Lemma latest_reports_newest_witness :
  newest_of 1 WindowsExamples.db1
    ({| winr_ID := 2; winr_ServerID := 1; winr_ReportedAt := 20 * Second; winr_IsStale := false |}
     : report_of Windows).
Proof.
  apply (latest_reports_newest Windows WindowsExamples.db1 1 _ WindowsExamples.wf_windows_db1).
  vm_compute. reflexivity.
Defined.

Lemma latest_reports_agree_witness :
  GetLatestWindowsReports WindowsExamples.db1 !! 1 =
  Some {| winr_ID := 2; winr_ServerID := 1; winr_ReportedAt := 20 * Second; winr_IsStale := false |}.
Proof.
  rewrite (proj1 (latest_reports_agree WindowsExamples.db1 1 WindowsExamples.wf_windows_db1)).
  vm_compute. reflexivity.
Defined.

Lemma batched_parts_agree_witness :
  default [] (GetWindowsDisksForReports [1; 2] WindowsExamples.db1 !! 2) ≡ₚ
    GetWindowsDisksForReport 2 WindowsExamples.db1 ∧
  len (GetWindowsDisksForReport 2 WindowsExamples.db1) = 1.
Proof.
  split; [|vm_compute; reflexivity].
  apply (batched_parts_agree [1; 2] 2 WindowsExamples.db1). reflexivity.
Defined.

Lemma recent_windows_agree_witness :
  default [] (GetRecentWindowsReportsByServer [1] 1 WindowsExamples.db1 !! 1) =
    ListWindowsReports 1 1 WindowsExamples.db1 ∧
  len (ListWindowsReports 1 1 WindowsExamples.db1) = 1.
Proof.
  split; [|vm_compute; reflexivity].
  apply (recent_windows_agree [1] 1 1 WindowsExamples.db1);
    [apply WindowsExamples.wf_windows_db1|apply NoDup_singleton|by left|lia].
Defined.
