(* ===== verification/Settings.v ===== *)
(** * Alert settings, backup schedules and heartbeats

    [internal/store/alert_config.go]: the thresholds of one server or one VM.
    [internal/store/backup.go]: the days on which a VM is expected to be backed up.
    [internal/store/heartbeat.go]: the last sign of life of a server. *)
From S2P Require Import Prelude GoStrings GoNum GoTime Domain Validation Sql Relational Schema Servers Reports PveReports PbsReports WindowsReports Batches.

(** ** [alert_config.go] *)

(** [int] of a [sql.NullInt64] and back: a [NULL] column is an absent setting. *)
Definition default_pve (serverID : Z) : PVEAlertConfig :=
  Build_PVEAlertConfig serverID None None None None None.

Definition default_pbs (serverID : Z) : PBSAlertConfig :=
  Build_PBSAlertConfig serverID None None None true None.

Definition default_windows (serverID : Z) : WindowsAlertConfig :=
  Build_WindowsAlertConfig serverID None.

(** [ON CONFLICT(server_id) DO UPDATE SET] all the columns of the new row. *)
Definition UpsertPVEAlertConfig (cfg : PVEAlertConfig) : prog DB () :=
  UPSERT_AT PveAlertConfigs (pac_ServerID cfg) cfg (λ r : PVEAlertConfig,
    {| pac_ServerID := pac_ServerID r; pac_DiskPct := pac_DiskPct cfg;
       pac_StaleHours := pac_StaleHours cfg; pac_BackupErr := pac_BackupErr cfg;
       pac_ExpectedFinishTime := pac_ExpectedFinishTime cfg;
       pac_SwapAlert := pac_SwapAlert cfg |}) ≫= λ _, mret ().

Definition new_vm_alert (cfg : PVEVMAlertConfig) (id : Z) : PVEVMAlertConfig :=
  {| vac_ID := id; vac_ServerID := vac_ServerID cfg; vac_VMID := vac_VMID cfg;
     vac_BackupErr := vac_BackupErr cfg; vac_MinSizeMB := vac_MinSizeMB cfg |}.

Definition same_vm (serverID vmid : Z) (r : PVEVMAlertConfig) : bool :=
  (vac_ServerID r =? serverID) && (vac_VMID r =? vmid).

Definition UpsertPVEVMAlertConfig (cfg : PVEVMAlertConfig) : prog DB () :=
  UPSERT PveVMAlertConfigs (same_vm (vac_ServerID cfg) (vac_VMID cfg)) (new_vm_alert cfg)
    (λ r : PVEVMAlertConfig,
      {| vac_ID := vac_ID r; vac_ServerID := vac_ServerID r; vac_VMID := vac_VMID r;
         vac_BackupErr := vac_BackupErr cfg; vac_MinSizeMB := vac_MinSizeMB cfg |}) ≫= λ _,
  mret ().

Definition DeletePVEVMAlertConfig (serverID vmid : Z) : prog DB () :=
  DELETE PveVMAlertConfigs (same_vm serverID vmid) ≫= λ _, mret ().

Definition UpsertPBSAlertConfig (cfg : PBSAlertConfig) : prog DB () :=
  UPSERT_AT PbsAlertConfigs (bac_ServerID cfg) cfg (λ r : PBSAlertConfig,
    {| bac_ServerID := bac_ServerID r; bac_DiskPct := bac_DiskPct cfg;
       bac_DaysUntilFull := bac_DaysUntilFull cfg; bac_StaleHours := bac_StaleHours cfg;
       bac_VerifyAlert := bac_VerifyAlert cfg; bac_SwapAlert := bac_SwapAlert cfg |}) ≫= λ _,
  mret ().

Definition UpsertWindowsAlertConfig (cfg : WindowsAlertConfig) : prog DB () :=
  UPSERT_AT WindowsAlertConfigs (wac_ServerID cfg) cfg (λ r : WindowsAlertConfig,
    {| wac_ServerID := wac_ServerID r; wac_DiskPct := wac_DiskPct cfg |}) ≫= λ _, mret ().

Section alert_configs.
Context `{!SqlOrder}.

Definition GetPVEAlertConfig (serverID : Z) (db : DB) : PVEAlertConfig :=
  default (default_pve serverID)
    (head (select_from PveAlertConfigs (λ r, pac_ServerID r =? serverID) any_order db)).

Definition ListPVEAlertConfigs (db : DB) : gmap Z PVEAlertConfig :=
  index_by pac_ServerID (select_from PveAlertConfigs (λ _, true) any_order db).

Definition GetPVEVMAlertConfigs (serverID : Z) (db : DB) : list PVEVMAlertConfig :=
  select_from PveVMAlertConfigs (λ r, vac_ServerID r =? serverID) any_order db.

Definition by_server_vm : PVEVMAlertConfig → PVEVMAlertConfig → bool :=
  lex_le vac_ServerID (λ r1 r2, vac_VMID r1 <=? vac_VMID r2).

Definition ListPVEVMAlertConfigs (db : DB) : gmap Z (list PVEVMAlertConfig) :=
  group_by vac_ServerID (select_from PveVMAlertConfigs (λ _, true) by_server_vm db).

Definition GetPBSAlertConfig (serverID : Z) (db : DB) : PBSAlertConfig :=
  default (default_pbs serverID)
    (head (select_from PbsAlertConfigs (λ r, bac_ServerID r =? serverID) any_order db)).

Definition ListPBSAlertConfigs (db : DB) : gmap Z PBSAlertConfig :=
  index_by bac_ServerID (select_from PbsAlertConfigs (λ _, true) any_order db).

Definition GetWindowsAlertConfig (serverID : Z) (db : DB) : WindowsAlertConfig :=
  default (default_windows serverID)
    (head (select_from WindowsAlertConfigs (λ r, wac_ServerID r =? serverID) any_order db)).

Definition ListWindowsAlertConfigs (db : DB) : gmap Z WindowsAlertConfig :=
  index_by wac_ServerID (select_from WindowsAlertConfigs (λ _, true) any_order db).
End alert_configs.

(** ** [backup.go] *)

Record CreateVMBackupConfigRequest := {
  cvr_VMID : string; cvr_VMName : string; cvr_Monday : bool; cvr_Tuesday : bool;
  cvr_Wednesday : bool; cvr_Thursday : bool; cvr_Friday : bool; cvr_Saturday : bool;
  cvr_Sunday : bool }.

(** [server_type] and [server_id] are ['pve'] and [0] by default. *)
Definition new_vm_config (now : Time) (serverType : string) (serverID : Z) (serverName : string)
    (req : CreateVMBackupConfigRequest) (id : Z) : VMConfigRow :=
  {| vcr_Config :=
       {| vm_ID := id; vm_ServerName := serverName; vm_VMID := cvr_VMID req;
          vm_VMName := cvr_VMName req; vm_Monday := cvr_Monday req;
          vm_Tuesday := cvr_Tuesday req; vm_Wednesday := cvr_Wednesday req;
          vm_Thursday := cvr_Thursday req; vm_Friday := cvr_Friday req;
          vm_Saturday := cvr_Saturday req; vm_Sunday := cvr_Sunday req;
          vm_IsExcluded := false; vm_IsDeleted := false; vm_DeletedAt := None;
          vm_CreatedAt := sqliteUTC now |};
     vcr_ServerType := serverType; vcr_ServerID := serverID |}.

Definition CreateVMBackupConfigForServer (now : Time) (serverType : string) (serverID : Z)
    (serverName : string) (req : CreateVMBackupConfigRequest) : prog DB Z :=
  INSERT VmBackupConfigs (new_vm_config now serverType serverID serverName req).

Definition CreateVMBackupConfig (now : Time) (serverName : string)
    (req : CreateVMBackupConfigRequest) : prog DB Z :=
  INSERT VmBackupConfigs (new_vm_config now "pve" 0 serverName req).

(** [SET vm_name=?, monday=?, ...]. *)
Definition set_schedule (req : CreateVMBackupConfigRequest) (r : VMConfigRow) : VMConfigRow :=
  let c := vcr_Config r in
  {| vcr_Config :=
       {| vm_ID := vm_ID c; vm_ServerName := vm_ServerName c; vm_VMID := vm_VMID c;
          vm_VMName := cvr_VMName req; vm_Monday := cvr_Monday req;
          vm_Tuesday := cvr_Tuesday req; vm_Wednesday := cvr_Wednesday req;
          vm_Thursday := cvr_Thursday req; vm_Friday := cvr_Friday req;
          vm_Saturday := cvr_Saturday req; vm_Sunday := cvr_Sunday req;
          vm_IsExcluded := vm_IsExcluded c; vm_IsDeleted := vm_IsDeleted c;
          vm_DeletedAt := vm_DeletedAt c; vm_CreatedAt := vm_CreatedAt c |};
     vcr_ServerType := vcr_ServerType r; vcr_ServerID := vcr_ServerID r |}.

Definition set_flags (excluded deleted : bool) (deletedAt : option Time) (r : VMConfigRow) :
    VMConfigRow :=
  let c := vcr_Config r in
  {| vcr_Config :=
       {| vm_ID := vm_ID c; vm_ServerName := vm_ServerName c; vm_VMID := vm_VMID c;
          vm_VMName := vm_VMName c; vm_Monday := vm_Monday c; vm_Tuesday := vm_Tuesday c;
          vm_Wednesday := vm_Wednesday c; vm_Thursday := vm_Thursday c;
          vm_Friday := vm_Friday c; vm_Saturday := vm_Saturday c; vm_Sunday := vm_Sunday c;
          vm_IsExcluded := excluded; vm_IsDeleted := deleted; vm_DeletedAt := deletedAt;
          vm_CreatedAt := vm_CreatedAt c |};
     vcr_ServerType := vcr_ServerType r; vcr_ServerID := vcr_ServerID r |}.

Definition toggle_exclude (r : VMConfigRow) : VMConfigRow :=
  let c := vcr_Config r in
  set_flags (negb (vm_IsExcluded c)) (vm_IsDeleted c) (vm_DeletedAt c) r.

Definition soft_delete_config (now : Time) (r : VMConfigRow) : VMConfigRow :=
  set_flags (vm_IsExcluded (vcr_Config r)) true (Some now) r.

(** The two ways to name a schedule. *)
Definition live (r : VMConfigRow) : bool := negb (vm_IsDeleted (vcr_Config r)).

Definition config_named (serverName vmID : string) (r : VMConfigRow) : bool :=
  str_eqb (vm_ServerName (vcr_Config r)) serverName &&
  str_eqb (vm_VMID (vcr_Config r)) vmID && live r.

Definition config_of (serverType : string) (serverID : Z) (r : VMConfigRow) : bool :=
  str_eqb (vcr_ServerType r) serverType && (vcr_ServerID r =? serverID) && live r.

Definition config_at (serverType : string) (serverID : Z) (vmID : string) (r : VMConfigRow) :
    bool := config_of serverType serverID r && str_eqb (vm_VMID (vcr_Config r)) vmID.

Definition UpdateVMBackupConfig (serverName vmID : string) (req : CreateVMBackupConfigRequest) :
    prog DB () :=
  UPDATE VmBackupConfigs (config_named serverName vmID) (set_schedule req) ≫= λ _, mret ().

Definition UpdateVMBackupConfigForServer (serverType : string) (serverID : Z) (vmID : string)
    (req : CreateVMBackupConfigRequest) : prog DB () :=
  UPDATE VmBackupConfigs (config_at serverType serverID vmID) (set_schedule req) ≫= λ _, mret ().

Definition ToggleVMExclude (serverName vmID : string) : prog DB () :=
  UPDATE VmBackupConfigs (config_named serverName vmID) toggle_exclude ≫= λ _, mret ().

Definition ToggleVMExcludeForServer (serverType : string) (serverID : Z) (vmID : string) :
    prog DB () :=
  UPDATE VmBackupConfigs (config_at serverType serverID vmID) toggle_exclude ≫= λ _, mret ().

Definition DeleteVMBackupConfig (now : Time) (serverName vmID : string) : prog DB () :=
  UPDATE VmBackupConfigs (config_named serverName vmID) (soft_delete_config now) ≫= λ _, mret ().

Definition DeleteVMBackupConfigForServer (now : Time) (serverType : string) (serverID : Z)
    (vmID : string) : prog DB () :=
  UPDATE VmBackupConfigs (config_at serverType serverID vmID) (soft_delete_config now) ≫= λ _,
  mret ().

Section schedules.
Context `{!SqlOrder}.

Definition by_vm_id (r1 r2 : VMConfigRow) : bool :=
  String.leb (vm_VMID (vcr_Config r1)) (vm_VMID (vcr_Config r2)).

Definition ListVMBackupConfigs (serverName : string) (db : DB) : list VMBackupConfig :=
  vcr_Config <$> select_from VmBackupConfigs
    (λ r, str_eqb (vm_ServerName (vcr_Config r)) serverName && live r) by_vm_id db.

Definition ListVMBackupConfigsForServer (serverType : string) (serverID : Z) (db : DB) :
    list VMBackupConfig :=
  vcr_Config <$> select_from VmBackupConfigs (config_of serverType serverID) by_vm_id db.

(** The name identifies one live PVE server, and it is this one. *)
Definition only_named (serverID : Z) (serverName : string) (db : DB) : bool :=
  (Z.of_nat (length (matching (Servers PVE) (named serverName) db)) =? 1) &&
  negb (is_nil (matching (Servers PVE) (λ s, has_id serverID s && named serverName s) db)).

Definition ListVMBackupConfigsForServerOrName (serverType : string) (serverID : Z)
    (serverName : string) (db : DB) : list VMBackupConfig :=
  let configs := ListVMBackupConfigsForServer serverType serverID db in
  if negb (is_nil configs) || str_empty serverName then configs else
  vcr_Config <$> select_from VmBackupConfigs (λ r,
    str_eqb (vm_ServerName (vcr_Config r)) serverName && config_of serverType 0 r &&
    str_eqb serverType "pve" && only_named serverID serverName db) by_vm_id db.

(** [ON] of the join of the schedules and the PVE servers. *)
Definition joins (c : VMConfigRow) (s : ServerRow) : bool :=
  ((0 <? vcr_ServerID c) && str_eqb (vcr_ServerType c) "pve" && (vcr_ServerID c =? sr_ID s)) ||
  ((vcr_ServerID c =? 0) && str_eqb (vm_ServerName (vcr_Config c)) (sr_Name s)).

Definition joined (db : DB) : list (Z * VMConfigRow) :=
  s ← matching (Servers PVE) (λ s, negb (sr_IsDeleted s)) db;
  c ← matching VmBackupConfigs (λ c, live c && joins c s) db;
  [(sr_ID s, c)].

Definition ListPVEVMBackupConfigsByServer (db : DB) : gmap Z (list VMBackupConfig) :=
  (λ l : list (Z * VMConfigRow), (λ sc, vcr_Config sc.2) <$> l) <$>
  group_by fst (order_by (lex_le fst (λ sc1 sc2, by_vm_id sc1.2 sc2.2)) (joined db)).
End schedules.

(** ** [heartbeat.go] *)

(** The row a heartbeat inserts: the columns of the swap are [NULL] when it does not
    report it. *)
Definition heartbeat_row (now : Time) (hb : ServerHeartbeat) (id : Z) : HeartbeatRow :=
  let swap {A} (v : A) := if hb_SwapReported hb then Some v else None in
  {| hbr_ID := id; hbr_ServerType := hb_ServerType hb; hbr_ServerID := hb_ServerID hb;
     hbr_Hostname := hb_Hostname hb; hbr_IP := hb_IP hb; hbr_PublicIP := hb_PublicIP hb;
     hbr_ClientVersion := hb_ClientVersion hb; hbr_MachineID := hb_MachineID hb;
     hbr_SwapTotal := swap (hb_SwapTotal hb); hbr_SwapUsed := swap (hb_SwapUsed hb);
     hbr_SwapEnabled := swap (Z.b2z (hb_SwapEnabled hb));
     hbr_LastSeenAt := if IsZero (hb_LastSeenAt hb) then now else hb_LastSeenAt hb;
     hbr_CreatedAt := sqliteUTC now; hbr_UpdatedAt := sqliteUTC now |}.

Definition coalesce {A} (a b : option A) : option A := match a with Some _ => a | None => b end.

Definition touch_heartbeat (excluded r : HeartbeatRow) : HeartbeatRow :=
  {| hbr_ID := hbr_ID r; hbr_ServerType := hbr_ServerType r; hbr_ServerID := hbr_ServerID r;
     hbr_Hostname := hbr_Hostname excluded; hbr_IP := hbr_IP excluded;
     hbr_PublicIP := hbr_PublicIP excluded; hbr_ClientVersion := hbr_ClientVersion excluded;
     hbr_MachineID := hbr_MachineID excluded;
     hbr_SwapTotal := coalesce (hbr_SwapTotal excluded) (hbr_SwapTotal r);
     hbr_SwapUsed := coalesce (hbr_SwapUsed excluded) (hbr_SwapUsed r);
     hbr_SwapEnabled := coalesce (hbr_SwapEnabled excluded) (hbr_SwapEnabled r);
     hbr_LastSeenAt := hbr_LastSeenAt excluded; hbr_CreatedAt := hbr_CreatedAt r;
     hbr_UpdatedAt := hbr_UpdatedAt excluded |}.

Definition heartbeat_of (serverType : string) (serverID : Z) (r : HeartbeatRow) : bool :=
  str_eqb (hbr_ServerType r) serverType && (hbr_ServerID r =? serverID).

Definition UpsertServerHeartbeat (now : Time) (hb : ServerHeartbeat) : prog DB () :=
  UPSERT ServerHeartbeats (heartbeat_of (hb_ServerType hb) (hb_ServerID hb))
    (heartbeat_row now hb) (touch_heartbeat (heartbeat_row now hb 0)) ≫= λ _, mret ().

(** [Scan] and [setHeartbeatSwap]. *)
Definition scan_heartbeat (r : HeartbeatRow) : ServerHeartbeat :=
  let reported := negb (is_null (hbr_SwapEnabled r)) in
  {| hb_ID := hbr_ID r; hb_ServerType := hbr_ServerType r; hb_ServerID := hbr_ServerID r;
     hb_Hostname := hbr_Hostname r; hb_IP := hbr_IP r; hb_PublicIP := hbr_PublicIP r;
     hb_ClientVersion := hbr_ClientVersion r; hb_MachineID := hbr_MachineID r;
     hb_SwapTotal := if reported then default 0 (hbr_SwapTotal r) else 0;
     hb_SwapUsed := if reported then default 0 (hbr_SwapUsed r) else 0;
     hb_SwapEnabled := negb (default 0 (hbr_SwapEnabled r) =? 0);
     hb_SwapReported := reported; hb_LastSeenAt := hbr_LastSeenAt r;
     hb_CreatedAt := hbr_CreatedAt r; hb_UpdatedAt := hbr_UpdatedAt r |}.

Section heartbeats.
Context `{!SqlOrder}.

Definition GetServerHeartbeat (serverType : string) (serverID : Z) (db : DB) :
    result ServerHeartbeat :=
  scan_first (λ r, Ok (scan_heartbeat r))
    (select_from ServerHeartbeats (heartbeat_of serverType serverID) any_order db).

Definition ListServerHeartbeatsByType (serverType : string) (db : DB) :
    gmap Z ServerHeartbeat :=
  index_by hb_ServerID (scan_heartbeat <$>
    select_from ServerHeartbeats (λ r, str_eqb (hbr_ServerType r) serverType) any_order db).
End heartbeats.

(** ** Lemmas *)

(** The row [k] of [t] is now [r], and nothing else changed. *)
Record stored_at (t : tbl) (k : Z) (r : Row t) (db db' : DB) : Prop := {
  sta_wf : wf db';
  sta_rows : rows (db' t) = <[k := r]> (rows (db t));
  sta_other : ∀ u, u ≠ t → db' u = db u }.

Lemma stored_at_put (t : tbl) k r n db :
  wf (put t {| rows := <[k := r]> (rows (db t)); last_id := n |} db) →
  stored_at t k r db (put t {| rows := <[k := r]> (rows (db t)); last_id := n |} db).
Proof. intros Hwf. split; [done|by rewrite put_eq|]. intros u Hu. by apply put_ne. Qed.

Lemma run_upsert_at (t : tbl) k (r : Row t) f db :
  wf db → rowid t r = k → (∀ r', rowid t (f r') = rowid t r') →
  (∀ r', rowid t r' = k → f r' = r) → (∀ r1 r2, clash t r1 r2 = false) → fks_ok db r = true →
  ∃ n db', run (UPSERT_AT t k r f) db = (Ok n, db') ∧ stored_at t k r db db'.
Proof.
  intros Hwf Hk Hf Hfr Hcl Hok.
  assert (∃ n m, upsert_at t k r f db =
    Ok (n, put t {| rows := <[k := r]> (rows (db t)); last_id := m |} db)) as (n & m & Hup).
  { unfold upsert_at, present. destruct (rows (db t) !! k) as [r'|] eqn:Hr.
    - rewrite <-(Hfr r') by (by apply (wf_ids _ Hwf) in Hr as [? _]).
      destruct (update_row_intro t k f db r' Hwf Hr) as [n Hn];
        [rewrite Hfr; [done|by apply (wf_ids _ Hwf) in Hr as [? _]]|intros; apply Hcl|].
      by exists n, (last_id (db t)).
    - exists k, (Z.max k (last_id (db t))). unfold insert_at.
      rewrite (proj2 (clashes_false _ _ _ _)) by (intros; apply Hcl). by rewrite Hok. }
  exists n. eexists. split.
  - unfold UPSERT_AT. by rewrite run_stmt, Hup.
  - apply stored_at_put. by apply (wf_upsert_at t k r f db n _ Hk Hf Hwf).
Qed.

Lemma run_unit {A} (p : prog DB A) db a db' :
  run p db = (Ok a, db') → run (p ≫= λ _, mret ()) db = (Ok (), db').
Proof. apply run_ret_unit. Qed.

(** ** Alert settings *)

Section alert_settings.
Context `{!SqlOrder}.

Lemma get_pve_row id db :
  wf db → GetPVEAlertConfig id db = default (default_pve id) (rows_of db PveAlertConfigs !! id).
Proof. intros Hwf. unfold GetPVEAlertConfig. by rewrite (head_select_id PveAlertConfigs). Qed.

Lemma get_pbs_row id db :
  wf db → GetPBSAlertConfig id db = default (default_pbs id) (rows_of db PbsAlertConfigs !! id).
Proof. intros Hwf. unfold GetPBSAlertConfig. by rewrite (head_select_id PbsAlertConfigs). Qed.

Lemma get_windows_row id db :
  wf db → GetWindowsAlertConfig id db =
    default (default_windows id) (rows_of db WindowsAlertConfigs !! id).
Proof. intros Hwf. unfold GetWindowsAlertConfig. by rewrite (head_select_id WindowsAlertConfigs). Qed.

Lemma run_UpsertPVEAlertConfig cfg db :
  wf db → present db (Servers PVE) (pac_ServerID cfg) = true →
  ∃ db', run (UpsertPVEAlertConfig cfg) db = (Ok (), db') ∧
    stored_at PveAlertConfigs (pac_ServerID cfg) cfg db db'.
Proof.
  intros Hwf Hs. edestruct (run_upsert_at PveAlertConfigs) as (n & db' & Hrun & Hst);
    [exact Hwf|reflexivity| | |done| |exists db'; split; [by eapply run_unit|exact Hst]]; simpl.
  - done.
  - intros r ->. by destruct cfg.
  - by eapply (ref_ok (t := PveAlertConfigs) (Servers PVE) pac_ServerID).
Qed.

Lemma run_UpsertPBSAlertConfig cfg db :
  wf db → present db (Servers PBS) (bac_ServerID cfg) = true →
  ∃ db', run (UpsertPBSAlertConfig cfg) db = (Ok (), db') ∧
    stored_at PbsAlertConfigs (bac_ServerID cfg) cfg db db'.
Proof.
  intros Hwf Hs. edestruct (run_upsert_at PbsAlertConfigs) as (n & db' & Hrun & Hst);
    [exact Hwf|reflexivity| | |done| |exists db'; split; [by eapply run_unit|exact Hst]]; simpl.
  - done.
  - intros r ->. by destruct cfg.
  - by eapply (ref_ok (t := PbsAlertConfigs) (Servers PBS) bac_ServerID).
Qed.

Lemma run_UpsertWindowsAlertConfig cfg db :
  wf db → present db (Servers Windows) (wac_ServerID cfg) = true →
  ∃ db', run (UpsertWindowsAlertConfig cfg) db = (Ok (), db') ∧
    stored_at WindowsAlertConfigs (wac_ServerID cfg) cfg db db'.
Proof.
  intros Hwf Hs. edestruct (run_upsert_at WindowsAlertConfigs) as (n & db' & Hrun & Hst);
    [exact Hwf|reflexivity| | |done| |exists db'; split; [by eapply run_unit|exact Hst]]; simpl.
  - done.
  - intros r ->. by destruct cfg.
  - by eapply (ref_ok (t := WindowsAlertConfigs) (Servers Windows) wac_ServerID).
Qed.

Lemma default_stored_at {A} (m : gmap Z A) (d : Z → A) k v id :
  default (d id) (<[k := v]> m !! id) = if id =? k then v else default (d id) (m !! id).
Proof.
  destruct (Z.eqb_spec id k) as [->|Hne]; [by rewrite lookup_insert_eq|].
  by rewrite lookup_insert_ne.
Qed.

(** the alert settings of a server that is there can always be saved; what is read
    back for it is exactly what was saved, absent thresholds included, and the
    settings of every other server are as before; the same for the three kinds. *)
Theorem alert_config_roundtrip (pve : PVEAlertConfig) (pbs : PBSAlertConfig)
    (win : WindowsAlertConfig) (db : DB) :
  wf db →
  present db (Servers PVE) (pac_ServerID pve) = true →
  present db (Servers PBS) (bac_ServerID pbs) = true →
  present db (Servers Windows) (wac_ServerID win) = true →
  let '(r, db') := run (UpsertPVEAlertConfig pve ≫= λ _, UpsertPBSAlertConfig pbs ≫= λ _,
    UpsertWindowsAlertConfig win) db in
  r = Ok () ∧ wf db' ∧ ∀ id,
  GetPVEAlertConfig id db' = (if id =? pac_ServerID pve then pve else GetPVEAlertConfig id db) ∧
  GetPBSAlertConfig id db' = (if id =? bac_ServerID pbs then pbs else GetPBSAlertConfig id db) ∧
  GetWindowsAlertConfig id db' =
    (if id =? wac_ServerID win then win else GetWindowsAlertConfig id db).
Proof.
  intros Hwf Hpve Hpbs Hwin.
  destruct (run_UpsertPVEAlertConfig pve db Hwf Hpve) as (db1 & R1 & [W1 S1 O1]).
  destruct (run_UpsertPBSAlertConfig pbs db1 W1) as (db2 & R2 & [W2 S2 O2]).
  { revert Hpbs. unfold present. by rewrite O1. }
  destruct (run_UpsertWindowsAlertConfig win db2 W2) as (db3 & R3 & [W3 S3 O3]).
  { revert Hwin. unfold present. by rewrite O2, O1. }
  rewrite run_bind, R1. cbn beta iota. rewrite run_bind, R2. cbn beta iota. rewrite R3.
  split_and!; [done|done|]. intros id.
  rewrite !get_pve_row, !get_pbs_row, !get_windows_row by done.
  rewrite O3, O2, S1, O3, S2, O1, S3, O2, O1 by done.
  split_and!; apply default_stored_at.
Qed.
End alert_settings.

(** ** Heartbeats *)

(** [ON CONFLICT] on a unique key that [conflict] tells: the row with the key is
    updated, or there was none and one is inserted. *)
Lemma run_upsert (t : tbl) conflict mk f db :
  wf db → (∀ id, rowid t (mk id) = id) → (∀ r, rowid t (f r) = rowid t r) →
  (∀ id, fks_ok db (mk id) = true) → (∀ r, fks_ok db (f r) = true) →
  (∀ k1 k2 r1 r2, rows (db t) !! k1 = Some r1 → rows (db t) !! k2 = Some r2 →
     conflict r1 = true → conflict r2 = true → k1 = k2) →
  (∀ id k r, rows (db t) !! k = Some r → conflict r = false → clash t (mk id) r = false) →
  (∀ k r k' r', k ≠ k' → rows (db t) !! k = Some r → rows (db t) !! k' = Some r' →
     clash t (f r) r' = false) →
  ∃ n k r' db', run (UPSERT t conflict mk f) db = (Ok n, db') ∧ stored_at t k r' db db' ∧
    ((rows (db t) !! k = None ∧ r' = mk k ∧
        ∀ j r, rows (db t) !! j = Some r → conflict r = false) ∨
     ∃ r, rows (db t) !! k = Some r ∧ conflict r = true ∧ r' = f r).
Proof.
  intros Hwf Hmk Hf Hfk1 Hfk2 Huniq Hcl1 Hcl2. unfold UPSERT. rewrite run_stmt.
  assert (∀ n db', upsert_stmt t conflict mk f db = Ok (n, db') → wf db') as Hwf'.
  { intros n db'. by apply wf_upsert_stmt. }
  revert Hwf'. unfold upsert_stmt. destruct (matching t conflict db) as [|r l] eqn:Hm.
  - rewrite matching_nil in Hm. unfold insert_stmt, insert_at.
    rewrite (proj2 (clashes_false _ _ _ _)) by (intros; eapply Hcl1; eauto).
    rewrite Hfk1. intros Hwf'. eexists _, (next_id db t), _, _. split; [done|].
    split; [apply stored_at_put; eauto|]. left. split_and!; [by apply wf_fresh|done|done].
  - assert (r ∈ matching t conflict db) as [Hc [k Hr]]%elem_of_matching by (rewrite Hm; left).
    assert (updated t conflict f db = <[k := f r]> (rows (db t))) as Hu.
    { apply map_eq. intros j. rewrite lookup_updated. destruct (decide (j = k)) as [->|Hne].
      - by rewrite lookup_insert_eq, Hr; simpl; rewrite Hc.
      - rewrite lookup_insert_ne by done. destruct (rows (db t) !! j) as [r'|] eqn:Hr'; [|done].
        simpl. destruct (conflict r') eqn:Hc'; [|done]. destruct Hne. eauto. }
    rewrite update_stmt_intro.
    + rewrite Hu. intros Hwf'. eexists _, k, _, _. split; [done|].
      split; [apply stored_at_put; eauto|]. right. eauto.
    + intros j r' Hr' Hc'. split; [|done]. apply clashes_false. intros j' r'' Hne.
      assert (j = k) as -> by eauto. rewrite Hu, lookup_insert_ne by done. eauto.
Qed.

Section heartbeat_lemmas.
Context `{!SqlOrder}.

Lemma heartbeat_of_spec ty id r :
  heartbeat_of ty id r = true ↔ hbr_ServerType r = ty ∧ hbr_ServerID r = id.
Proof. unfold heartbeat_of. by rewrite andb_true_iff, str_eqb_eq, Z.eqb_eq. Qed.

Lemma heartbeat_unique db ty id k1 k2 r1 r2 :
  wf db → rows_of db ServerHeartbeats !! k1 = Some r1 →
  rows_of db ServerHeartbeats !! k2 = Some r2 →
  heartbeat_of ty id r1 = true → heartbeat_of ty id r2 = true → k1 = k2.
Proof.
  intros Hwf H1 H2 [E1 I1]%heartbeat_of_spec [E2 I2]%heartbeat_of_spec.
  destruct (decide (k1 = k2)) as [|Hne]; [done|].
  pose proof (wf_unique _ Hwf ServerHeartbeats k1 k2 r1 r2 Hne H1 H2) as Hcl. simpl in Hcl.
  rewrite E1, E2, I1, I2, Z.eqb_refl, (proj2 (str_eqb_eq ty ty)) in Hcl by done. done.
Qed.

Lemma get_heartbeat_row db ty id k r :
  wf db → rows_of db ServerHeartbeats !! k = Some r → heartbeat_of ty id r = true →
  GetServerHeartbeat ty id db = Ok (scan_heartbeat r).
Proof.
  intros Hwf Hr Hc. unfold GetServerHeartbeat, scan_first.
  assert (head (select_from ServerHeartbeats (heartbeat_of ty id) any_order db) = Some r) as Hh.
  { apply (head_select ServerHeartbeats _ _ db k); [done|done|]. intros j r2 Hr2 Hc2.
    pose proof (heartbeat_unique db ty id j k r2 r Hwf Hr2 Hr Hc2 Hc) as ->.
    by eapply row_det. }
  by destruct (select_from ServerHeartbeats (heartbeat_of ty id) any_order db); simplify_eq/=.
Qed.

Lemma get_heartbeat_none db ty id :
  (∀ k r, rows_of db ServerHeartbeats !! k = Some r → heartbeat_of ty id r = false) →
  GetServerHeartbeat ty id db = Err ErrNoRows.
Proof. intros Hn. unfold GetServerHeartbeat. by rewrite (select_nil ServerHeartbeats). Qed.

(** The heartbeats of other servers are read as before. *)
Lemma get_heartbeat_same db db' ty id k r :
  wf db → stored_at ServerHeartbeats k r db db' → heartbeat_of ty id r = false →
  (∀ r0, rows_of db ServerHeartbeats !! k = Some r0 → heartbeat_of ty id r0 = false) →
  GetServerHeartbeat ty id db' = GetServerHeartbeat ty id db.
Proof.
  intros Hwf [Hwf' Hrows _] Hn Hn0.
  assert (∀ j r', heartbeat_of ty id r' = true →
    rows_of db' ServerHeartbeats !! j = Some r' ↔ rows_of db ServerHeartbeats !! j = Some r') as Hsame.
  { intros j r' Hc. rewrite Hrows. destruct (decide (j = k)) as [->|Hne].
    - rewrite lookup_insert_eq. split; [intros [= ->]; by rewrite Hn in Hc|].
      intros Hr'. by rewrite (Hn0 r' Hr') in Hc.
    - by rewrite lookup_insert_ne. }
  destruct (matching ServerHeartbeats (heartbeat_of ty id) db) as [|r' l] eqn:Hm.
  - rewrite matching_nil in Hm. rewrite !get_heartbeat_none; [done|done|].
    intros j r' Hr'. apply not_true_is_false. intros Hc. apply Hsame in Hr'; [|done].
    by rewrite (Hm j r' Hr') in Hc.
  - assert (r' ∈ matching ServerHeartbeats (heartbeat_of ty id) db) as
      [Hc [j Hr]]%elem_of_matching by (rewrite Hm; left).
    rewrite (get_heartbeat_row db ty id j r' Hwf Hr Hc). eapply get_heartbeat_row;
      [done|by apply Hsame|done].
Qed.

Lemma run_UpsertServerHeartbeat now hb db :
  wf db →
  ∃ k r' db', run (UpsertServerHeartbeat now hb) db = (Ok (), db') ∧
    stored_at ServerHeartbeats k r' db db' ∧
    ((rows_of db ServerHeartbeats !! k = None ∧ r' = heartbeat_row now hb k ∧
        ∀ j r, rows_of db ServerHeartbeats !! j = Some r →
          heartbeat_of (hb_ServerType hb) (hb_ServerID hb) r = false) ∨
     ∃ r, rows_of db ServerHeartbeats !! k = Some r ∧
       heartbeat_of (hb_ServerType hb) (hb_ServerID hb) r = true ∧
       r' = touch_heartbeat (heartbeat_row now hb 0) r).
Proof.
  intros Hwf. set (ty := hb_ServerType hb). set (id := hb_ServerID hb).
  destruct (run_upsert ServerHeartbeats (heartbeat_of ty id) (heartbeat_row now hb)
    (touch_heartbeat (heartbeat_row now hb 0)) db Hwf) as (n & k & r' & db' & Hrun & Hst & Hcase);
    [done|done|done|done| | | |].
  - intros k1 k2 r1 r2 H1 H2 C1 C2. by apply (heartbeat_unique db ty id k1 k2 r1 r2).
  - intros i k r _ Hc. simpl. unfold heartbeat_of in Hc. fold ty id.
    by rewrite str_eqb_sym, Z.eqb_sym.
  - intros k r k' r' Hne Hr Hr'. exact (wf_unique _ Hwf ServerHeartbeats k k' r r' Hne Hr Hr').
  - exists k, r', db'. split_and!; [by eapply run_unit|done|done].
Qed.

(** a heartbeat is always accepted, whether it is the first one of its server or
    not.  What is read back for the server is what it sent, at the time it names or,
    when it names none, at the time of the call; its swap is the one it sent or, when
    it sent none, the one known before; the heartbeats of every other server are as
    they were. *)
Theorem UpsertServerHeartbeat_spec (now : Time) (hb : ServerHeartbeat) (db : DB) :
  wf db →
  let '(r, db') := run (UpsertServerHeartbeat now hb) db in
  let old := GetServerHeartbeat (hb_ServerType hb) (hb_ServerID hb) db in
  r = Ok () ∧ wf db' ∧
  (∃ h, GetServerHeartbeat (hb_ServerType hb) (hb_ServerID hb) db' = Ok h ∧
    hb_Hostname h = hb_Hostname hb ∧ hb_IP h = hb_IP hb ∧ hb_PublicIP h = hb_PublicIP hb ∧
    hb_ClientVersion h = hb_ClientVersion hb ∧ hb_MachineID h = hb_MachineID hb ∧
    hb_LastSeenAt h = (if IsZero (hb_LastSeenAt hb) then now else hb_LastSeenAt hb) ∧
    (hb_SwapTotal h, hb_SwapUsed h, hb_SwapEnabled h, hb_SwapReported h) =
      (if hb_SwapReported hb
       then (hb_SwapTotal hb, hb_SwapUsed hb, hb_SwapEnabled hb, true)
       else match old with
            | Ok o => (hb_SwapTotal o, hb_SwapUsed o, hb_SwapEnabled o, hb_SwapReported o)
            | Err _ => (0, 0, false, false)
            end)) ∧
  ∀ ty id, (ty, id) ≠ (hb_ServerType hb, hb_ServerID hb) →
    GetServerHeartbeat ty id db' = GetServerHeartbeat ty id db.
Proof.
  intros Hwf. destruct (run_UpsertServerHeartbeat now hb db Hwf) as (k & r' & db' & Hrun & Hst & Hc).
  rewrite Hrun. set (ty := hb_ServerType hb) in *. set (id := hb_ServerID hb) in *.
  pose proof (sta_wf _ _ _ _ _ Hst) as Hwf'.
  assert (rows_of db' ServerHeartbeats !! k = Some r') as Hr'
    by (rewrite (sta_rows _ _ _ _ _ Hst); apply lookup_insert_eq).
  assert (hbr_ServerType r' = ty ∧ hbr_ServerID r' = id) as Hkey.
  { destruct Hc as [(_ & -> & _)|(r & _ & [Ht Hi]%heartbeat_of_spec & ->)]; simpl; auto. }
  assert (GetServerHeartbeat ty id db' = Ok (scan_heartbeat r')) as Hget.
  { apply (get_heartbeat_row db' ty id k); [done|done|]. by apply heartbeat_of_spec. }
  split_and!; [done|done| |].
  - exists (scan_heartbeat r'). split; [done|].
    destruct Hc as [(_ & -> & Hn)|(r & Hr & Hof & ->)].
    + rewrite (get_heartbeat_none db ty id Hn). simpl. split_and!; try done.
      by destruct (hb_SwapReported hb), (hb_SwapEnabled hb).
    + rewrite (get_heartbeat_row db ty id k r Hwf Hr Hof). simpl. split_and!; try done.
      by destruct (hb_SwapReported hb), (hb_SwapEnabled hb).
  - intros ty' id' Hne. apply (get_heartbeat_same db db' ty' id' k r' Hwf Hst).
    + apply not_true_is_false. intros [E1 E2]%heartbeat_of_spec. destruct Hne, Hkey. congruence.
    + intros r0 Hr0. apply not_true_is_false. intros [E1 E2]%heartbeat_of_spec.
      destruct Hc as [(Hnone & _)|(r & Hr & [E3 E4]%heartbeat_of_spec & _)].
      * exact (row_none _ _ _ Hnone Hr0).
      * assert (r0 = r) as -> by (by eapply row_det). destruct Hne. congruence.
Qed.
End heartbeat_lemmas.

(** ** Backup schedules *)

Lemma NoDup_fmap_filter {A B} (f : A → B) (P : A → bool) (l : list A) :
  NoDup (f <$> l) → NoDup (f <$> List.filter P l).
Proof.
  induction l as [|x l IH]; simpl; [done|]. rewrite NoDup_cons. intros [Hx Hl].
  destruct (P x); simpl; [|auto]. apply NoDup_cons. split; [|auto].
  rewrite list_elem_of_fmap. intros (y & Hy & Hin). apply Hx. rewrite list_elem_of_fmap.
  exists y. split; [done|]. by apply elem_of_filter_bool in Hin as [Hin _].
Qed.

Lemma NoDup_matching (t : tbl) cond db : wf db → NoDup (rowid t <$> matching t cond db).
Proof.
  intros Hwf. apply NoDup_fmap_filter.
  assert (rowid t <$> (map_to_list (rows (db t))).*2 = (map_to_list (rows (db t))).*1) as ->.
  { rewrite <-list_fmap_compose. apply list_fmap_ext. intros i [k r] Hi. simpl.
    apply list_elem_of_lookup_2 in Hi. apply elem_of_map_to_list in Hi.
    by apply (wf_ids _ Hwf) in Hi as [? _]. }
  apply NoDup_fst_map_to_list.
Qed.

Lemma filter_bind {A B} (key0 : A → Z) (key : B → Z) (g : A → list B) (l : list A) a :
  NoDup (key0 <$> l) → a ∈ l → (∀ a x, x ∈ g a → key x = key0 a) →
  List.filter (λ x, key x =? key0 a) (l ≫= g) = g a.
Proof.
  intros Hnd Ha Hg.
  assert (∀ b, List.filter (λ x, key x =? key0 a) (g b) = if key0 b =? key0 a then g b else [])
    as Hone.
  { intros b. destruct (key0 b =? key0 a) eqn:Hb.
    - assert (∀ x, x ∈ g b → (key x =? key0 a) = true) as Hk
        by (intros x Hx; by rewrite (Hg b x Hx)).
      induction (g b) as [|x m IH]; simpl; [done|]. rewrite (Hk x) by left. f_equal.
      apply IH. intros y Hy. apply Hk. by right.
    - apply filter_bool_empty. intros x Hx. by rewrite (Hg b x Hx). }
  revert Hnd Ha. induction l as [|b l IH]; intros Hnd Ha; [by apply not_elem_of_nil in Ha|].
  simpl in *. apply NoDup_cons in Hnd as [Hb Hnd]. rewrite filter_bool_app, Hone.
  apply elem_of_cons in Ha as [->|Ha].
  - rewrite Z.eqb_refl, filter_bool_empty, app_nil_r; [done|].
    intros x Hx. apply list_elem_of_bind in Hx as (c & Hx & Hc). rewrite (Hg c x Hx).
    apply Z.eqb_neq. intros Heq. apply Hb. rewrite <-Heq. by apply list_elem_of_fmap_2.
  - rewrite (proj2 (Z.eqb_neq _ _)); [by apply IH|]. intros Heq. apply Hb. rewrite Heq.
    by apply list_elem_of_fmap_2.
Qed.

Section schedule_lemmas.
Context `{!SqlOrder}.

(** the schedules read for a server are its own or, when it has none, rows of the
    time before servers had numbers, that carry the name of this server; such rows are
    read only for a PVE server that is the only live one of that name. *)
Theorem schedules_of_own_server (serverType : string) (serverID : Z) (serverName : string)
    (db : DB) (c : VMBackupConfig) :
  wf db → c ∈ ListVMBackupConfigsForServerOrName serverType serverID serverName db →
  ∃ k r, rows_of db VmBackupConfigs !! k = Some r ∧ vcr_Config r = c ∧
    vm_IsDeleted c = false ∧ vcr_ServerType r = serverType ∧
    (vcr_ServerID r = serverID ∨
     vcr_ServerID r = 0 ∧ serverType = "pve" ∧ vm_ServerName c = serverName ∧
     ∀ i s, rows_of db (Servers PVE) !! i = Some s → named serverName s = true →
       sr_ID s = serverID).
Proof.
  intros Hwf. unfold ListVMBackupConfigsForServerOrName, ListVMBackupConfigsForServer.
  destruct (negb _ || _).
  - rewrite list_elem_of_fmap. intros (r & -> & (k & Hr & Hc)%(select_out VmBackupConfigs)).
    unfold config_of, live in Hc. bool_to_prop. exists k, r.
    split_and!; auto. by apply str_eqb_eq.
  - rewrite list_elem_of_fmap. intros (r & -> & (k & Hr & Hc)%(select_out VmBackupConfigs)).
    unfold config_of, live, only_named in Hc. bool_to_prop.
    repeat match goal with H : str_eqb _ _ = true |- _ => apply str_eqb_eq in H end.
    exists k, r. split_and!; auto. right. split_and!; auto. intros i s Hs Hn.
    destruct (matching (Servers PVE) (named serverName) db) as [|s1 [|s2 l]] eqn:Hm;
      [done| |simpl in *; lia].
    assert (∀ j s', rows_of db (Servers PVE) !! j = Some s' → named serverName s' = true → s' = s1)
      as Hone.
    { intros j s' Hs' Hn'.
      assert (s' ∈ matching (Servers PVE) (named serverName) db) as Hin
        by (apply (elem_of_matching (Servers PVE)); eauto).
      rewrite Hm in Hin. by apply list_elem_of_singleton in Hin. }
    destruct (matching (Servers PVE) (λ s, has_id serverID s && named serverName s) db)
      as [|s3 l3] eqn:Hm3; [done|].
    assert (s3 ∈ matching (Servers PVE) (λ s, has_id serverID s && named serverName s) db)
      as [Hc3 [j Hj]]%(elem_of_matching (Servers PVE)) by (rewrite Hm3; left).
    unfold has_id in Hc3. bool_to_prop.
    assert (s = s3) as -> by (rewrite (Hone i s), (Hone j s3); auto). done.
Qed.

Lemma joined_of db s :
  wf db → s ∈ matching (Servers PVE) (λ s, negb (sr_IsDeleted s)) db →
  List.filter (λ sc, sc.1 =? sr_ID s) (joined db) =
  (λ c, (sr_ID s, c)) <$> matching VmBackupConfigs (λ c, live c && joins c s) db.
Proof.
  intros Hwf Hs. unfold joined.
  rewrite (filter_bind sr_ID fst) with (a := s).
  - induction (matching VmBackupConfigs _ db) as [|c l IH]; simpl; [done|]. by f_equal.
  - exact (NoDup_matching (Servers PVE) _ db Hwf).
  - done.
  - intros a x Hx. apply list_elem_of_bind in Hx as (c & Hx & _).
    by apply list_elem_of_singleton in Hx as ->.
Qed.

(** where every live schedule belongs to a server by number, the one query that
    reads the schedules of all PVE servers gives every live server the schedules the
    query for it alone gives. *)
Theorem batched_schedules_agree (db : DB) (i : Z) (s : ServerRow) :
  wf db → rows_of db (Servers PVE) !! i = Some s → sr_IsDeleted s = false →
  (∀ k c, rows_of db VmBackupConfigs !! k = Some c → live c = true → 0 < vcr_ServerID c) →
  default [] (ListPVEVMBackupConfigsByServer db !! i) ≡ₚ ListVMBackupConfigsForServer "pve" i db.
Proof.
  intros Hwf Hs Hd Hassigned.
  pose proof (proj1 (wf_ids _ Hwf (Servers PVE) _ _ Hs) : sr_ID s = i) as Hi.
  unfold ListPVEVMBackupConfigsByServer, ListVMBackupConfigsForServer. rewrite lookup_fmap.
  match goal with |- default [] (?f <$> ?m !! i) ≡ₚ _ =>
    assert (default [] (f <$> m !! i) = f (default [] (m !! i))) as -> by (by destruct (m !! i)) end.
  rewrite lookup_group_by. unfold select_from. rewrite !order_by_perm, <-Hi.
  rewrite joined_of; [|done|].
  - rewrite <-list_fmap_compose. apply Permutation_refl'.
    change ((λ sc : Z * VMConfigRow, vcr_Config sc.2) ∘ (λ c, (sr_ID s, c))) with vcr_Config.
    apply f_equal, filter_bool_ext. intros c Hc. apply list_elem_of_fmap in Hc as ([k c'] & -> & Hc).
    apply elem_of_map_to_list in Hc. simpl. unfold config_of, joins.
    destruct (live c') eqn:Hl; [|by rewrite andb_false_r].
    pose proof (Hassigned k c' Hc Hl) as Hpos.
    rewrite (proj2 (Z.ltb_lt _ _) Hpos). rewrite (proj2 (Z.eqb_neq (vcr_ServerID c') 0)) by lia.
    by rewrite orb_false_r, andb_true_r.
  - apply (elem_of_matching (Servers PVE)). split; [by rewrite Hd|eauto].
Qed.

Lemma config_at_spec ty id vm r :
  config_at ty id vm r = true ↔
  vcr_ServerType r = ty ∧ vcr_ServerID r = id ∧ live r = true ∧ vm_VMID (vcr_Config r) = vm.
Proof. unfold config_at, config_of. rewrite !andb_true_iff, !str_eqb_eq, Z.eqb_eq. naive_solver. Qed.

(** a schedule of a VM of a numbered server can be created exactly when there is no
    live one for that VM; then it is live, with the days asked for. *)
Theorem CreateVMBackupConfigForServer_spec (now : Time) (serverType : string) (serverID : Z)
    (serverName : string) (req : CreateVMBackupConfigRequest) (db : DB) :
  wf db → 0 < serverID →
  let taken := negb (is_nil (matching VmBackupConfigs
    (config_at serverType serverID (cvr_VMID req)) db)) in
  let '(r, db') := run (CreateVMBackupConfigForServer now serverType serverID serverName req) db in
  if taken then r = Err ErrUnique ∧ db' = db
  else ∃ id, r = Ok id ∧
    inserted VmBackupConfigs (new_vm_config now serverType serverID serverName req id) db db'.
Proof.
  intros Hwf Hpos taken. unfold CreateVMBackupConfigForServer.
  set (mk := new_vm_config now serverType serverID serverName req).
  assert (∀ id c, clash VmBackupConfigs (mk id) c = config_at serverType serverID (cvr_VMID req) c)
    as Hclash.
  { intros id c. simpl. unfold live_config, config_at, config_of, live. simpl.
    rewrite (proj2 (Z.ltb_lt 0 serverID) Hpos). simpl.
    rewrite (str_eqb_sym serverType), (Z.eqb_sym serverID), (str_eqb_sym (cvr_VMID req)).
    destruct (Z.eqb_spec (vcr_ServerID c) serverID) as [->|]; [|by rewrite !andb_false_r].
    rewrite (proj2 (Z.ltb_lt 0 serverID) Hpos). simpl.
    destruct (vm_IsDeleted _), (str_eqb (vcr_ServerType c) _); simpl; by rewrite ?andb_true_r. }
  unfold taken. clear taken.
  destruct (matching VmBackupConfigs _ db) as [|c l] eqn:Hm; cbn [is_nil negb].
  - rewrite matching_nil in Hm.
    destruct (INSERT_ok VmBackupConfigs mk db Hwf) as (db' & Hrun & Hi); [done| |done|].
    + apply clashes_false. intros k c _ Hc. rewrite Hclash. eauto.
    + rewrite Hrun. eauto.
  - assert (c ∈ matching VmBackupConfigs (config_at serverType serverID (cvr_VMID req)) db)
      as [Hc [k Hk]]%elem_of_matching by (rewrite Hm; left).
    unfold INSERT. rewrite run_stmt. unfold insert_stmt, insert_at.
    destruct (clashes _ _ _ _) eqn:Hcl; [done|]. rewrite clashes_false in Hcl.
    rewrite <-(Hclash (next_id db VmBackupConfigs)), (Hcl k c) in Hc; [done| |done].
    intros ->. by rewrite wf_fresh in Hk.
Qed.
End schedule_lemmas.

Section ambiguity.
Context `{!SqlOrder}.

(** the query for the schedules of all PVE servers gives a row of the time before
    servers had numbers to every live server of its name, whether the name is
    ambiguous or not and whether the server has schedules of its own, although the
    query for one server refuses an ambiguous name. *)
Theorem batched_schedules_ignore_ambiguity (db : DB) (i k : Z) (s : ServerRow) (c : VMConfigRow) :
  wf db → rows_of db (Servers PVE) !! i = Some s → sr_IsDeleted s = false →
  rows_of db VmBackupConfigs !! k = Some c → live c = true → vcr_ServerID c = 0 →
  vm_ServerName (vcr_Config c) = sr_Name s →
  vcr_Config c ∈ default [] (ListPVEVMBackupConfigsByServer db !! i).
Proof.
  intros Hwf Hs Hd Hc Hl Hid Hname.
  pose proof (proj1 (wf_ids _ Hwf (Servers PVE) _ _ Hs) : sr_ID s = i) as <-.
  unfold ListPVEVMBackupConfigsByServer. rewrite lookup_fmap.
  match goal with |- _ ∈ default [] (?f <$> ?m !! _) =>
    assert (default [] (f <$> m !! sr_ID s) = f (default [] (m !! sr_ID s))) as ->
      by (by destruct (m !! sr_ID s)) end.
  rewrite lookup_group_by, order_by_perm, joined_of; [|done|].
  - apply list_elem_of_fmap. exists (sr_ID s, c). split; [done|].
    apply list_elem_of_fmap. exists c. split; [done|].
    apply (elem_of_matching VmBackupConfigs). split; [|eauto]. rewrite Hl. unfold joins.
    rewrite Hid, Hname, (proj2 (str_eqb_eq (sr_Name s) (sr_Name s))) by done. simpl.
    done.
  - apply (elem_of_matching (Servers PVE)). split; [by rewrite Hd|eauto].
Qed.
End ambiguity.

(** ** Examples *)

Module SettingsExamples.
Definition pve_config : PVEAlertConfig := Build_PVEAlertConfig 1 (Some 80) None None (Some "06:00") None.
Definition pbs_config : PBSAlertConfig := Build_PBSAlertConfig 1 None (Some 30) None false (Some 1).
Definition windows_config : WindowsAlertConfig := Build_WindowsAlertConfig 1 (Some 70).

Definition schedule (vm : string) : CreateVMBackupConfigRequest :=
  {| cvr_VMID := vm; cvr_VMName := "web"; cvr_Monday := true; cvr_Tuesday := true;
     cvr_Wednesday := true; cvr_Thursday := true; cvr_Friday := true; cvr_Saturday := false;
     cvr_Sunday := false |}.

(** A PBS and a Windows server, and two PVE servers of one name with their keys. *)
Definition servers : prog DB () :=
  UpsertPVEServerForAPIKey Second 7 "pve1" "10.0.0.1" "" "1.0" "m1" ≫= λ _,
  UpsertPVEServerForAPIKey Second 8 "pve1" "10.0.0.2" "" "1.0" "m2" ≫= λ _,
  UpsertPBSServer Second "pbs1" "10.0.0.3" "" "1.0" "m3" ≫= λ _,
  UpsertWindowsServer Second "win1" "10.0.0.4" "" "1.0" "m4" ≫= λ _, mret ().

(** Server 1 has a schedule for one VM; the other schedule carries only a name. *)
Definition db1 : DB := (run (servers ≫= λ _,
  CreateVMBackupConfigForServer Second "pve" 1 "pve1" (schedule "100") ≫= λ _, mret ()) empty_db).2.
Definition db2 : DB := (run (CreateVMBackupConfig Second "pve1" (schedule "200")) db1).2.

Lemma preserves_servers : preserves wf servers.
Proof.
  unfold servers. repeat (apply preserves_bind;
    [apply preserves_upsert_server_for_key || apply preserves_upsert_server|intros _]).
  keeps_wf.
Qed.

Lemma wf_settings_db1 : wf db1.
Proof.
  apply wf_run; [|apply wf_empty_db]. apply preserves_bind; [apply preserves_servers|].
  intros _. unfold CreateVMBackupConfigForServer. keeps_wf.
Qed.

Lemma wf_settings_db2 : wf db2.
Proof. apply wf_run; [|apply wf_settings_db1]. unfold CreateVMBackupConfig. keeps_wf. Qed.

Definition heartbeat (swap : bool) : ServerHeartbeat :=
  {| hb_ID := 0; hb_ServerType := "pve"; hb_ServerID := 1; hb_Hostname := "pve1";
     hb_IP := "10.0.0.1"; hb_PublicIP := ""; hb_ClientVersion := "1.0"; hb_MachineID := "m1";
     hb_SwapTotal := 100; hb_SwapUsed := 5; hb_SwapEnabled := true; hb_SwapReported := swap;
     hb_LastSeenAt := zeroTime; hb_CreatedAt := zeroTime; hb_UpdatedAt := zeroTime |}.

Definition db3 : DB := (run (UpsertServerHeartbeat (5 * Second) (heartbeat true)) db1).2.

Lemma wf_db3 : wf db3.
Proof. apply wf_run; [|apply wf_settings_db1]. unfold UpsertServerHeartbeat. keeps_wf. Qed.
End SettingsExamples.

Import SettingsExamples.

Lemma alert_config_roundtrip_witness :
  (run (UpsertPVEAlertConfig pve_config ≫= λ _, UpsertPBSAlertConfig pbs_config ≫= λ _,
    UpsertWindowsAlertConfig windows_config) db1).1 = Ok () ∧
  present db1 (Servers PVE) 1 = true.
Proof.
  split; [|vm_compute; reflexivity].
  pose proof (alert_config_roundtrip pve_config pbs_config windows_config db1 wf_settings_db1
    ltac:(vm_compute; reflexivity) ltac:(vm_compute; reflexivity) ltac:(vm_compute; reflexivity))
    as Hrt.
  destruct (run _ db1) as [r db']. apply Hrt.
Defined.

(** The second heartbeat does not report the swap: the first one's stays. *)
Lemma UpsertServerHeartbeat_spec_witness :
  (run (UpsertServerHeartbeat (9 * Second) (heartbeat false)) db3).1 = Ok () ∧
  (GetServerHeartbeat "pve" 1 (run (UpsertServerHeartbeat (9 * Second) (heartbeat false)) db3).2
    ≫= λ h, Ok (hb_SwapTotal h, hb_LastSeenAt h)) = Ok (100, 9 * Second).
Proof.
  split; [|vm_compute; reflexivity].
  pose proof (UpsertServerHeartbeat_spec (9 * Second) (heartbeat false) db3 wf_db3) as Hspec.
  destruct (run _ db3) as [r db']. apply Hspec.
Defined.

Lemma schedules_of_own_server_witness :
  ∃ k r, rows_of db2 VmBackupConfigs !! k = Some r ∧ vcr_ServerType r = "pve".
Proof.
  destruct (ListVMBackupConfigsForServerOrName "pve" 1 "pve1" db2) as [|c l] eqn:Hl;
    [vm_compute in Hl; discriminate|].
  destruct (schedules_of_own_server "pve" 1 "pve1" db2 c wf_settings_db2) as (k & r & Hr & _ & _ & Ht & _);
    [rewrite Hl; left|]. by exists k, r.
Defined.

Lemma batched_schedules_agree_witness :
  ∃ s, rows_of db1 (Servers PVE) !! 1 = Some s ∧
  default [] (ListPVEVMBackupConfigsByServer db1 !! 1) ≡ₚ ListVMBackupConfigsForServer "pve" 1 db1.
Proof.
  destruct (rows_of db1 (Servers PVE) !! 1) as [s|] eqn:Hs; [|vm_compute in Hs; discriminate].
  exists s. split; [done|]. apply (batched_schedules_agree db1 1 s wf_settings_db1 Hs).
  - vm_compute in Hs. by injection Hs as <-.
  - intros k c Hc. cut (Forall (λ kc, 0 < vcr_ServerID kc.2) (map_to_list (rows_of db1 VmBackupConfigs))).
    + rewrite Forall_forall. intros Hall _. apply (Hall (k, c)). by apply elem_of_map_to_list.
    + vm_compute. repeat constructor.
Defined.

Lemma CreateVMBackupConfigForServer_spec_witness :
  (run (CreateVMBackupConfigForServer Second "pve" 1 "pve1" (schedule "100")) db1).1 = Err ErrUnique ∧
  is_ok (run (CreateVMBackupConfigForServer Second "pve" 1 "pve1" (schedule "101")) db1).1 = true.
Proof.
  split; [|vm_compute; reflexivity].
  pose proof (CreateVMBackupConfigForServer_spec Second "pve" 1 "pve1" (schedule "100") db1 wf_settings_db1
    ltac:(lia)) as Hspec. cbv zeta in Hspec.
  replace (negb (is_nil (matching VmBackupConfigs (config_at "pve" 1 (cvr_VMID (schedule "100"))) db1)))
    with true in Hspec by (vm_compute; reflexivity).
  destruct (run _ db1) as [r db']. apply Hspec.
Defined.

(** The schedule without a number reaches both namesakes; read alone, neither has it. *)
Lemma batched_schedules_ignore_ambiguity_witness :
  (∃ c, c ∈ default [] (ListPVEVMBackupConfigsByServer db2 !! 2) ∧ vm_VMID c = "200") ∧
  ListVMBackupConfigsForServerOrName "pve" 2 "pve1" db2 = [].
Proof.
  split; [|vm_compute; reflexivity].
  destruct (rows_of db2 (Servers PVE) !! 2) as [s|] eqn:Hs; [|vm_compute in Hs; discriminate].
  destruct (rows_of db2 VmBackupConfigs !! 2) as [c|] eqn:Hc; [|vm_compute in Hc; discriminate].
  assert (sr_IsDeleted s = false ∧ sr_Name s = "pve1") as [Hd Hn]
    by (vm_compute in Hs; by injection Hs as <-).
  assert (live c = true ∧ vcr_ServerID c = 0 ∧ vm_ServerName (vcr_Config c) = "pve1" ∧
    vm_VMID (vcr_Config c) = "200") as (Hl & H0 & Hcn & Hv) by (vm_compute in Hc; by injection Hc as <-).
  exists (vcr_Config c). split; [|done].
  apply (batched_schedules_ignore_ambiguity db2 2 2 s c wf_settings_db2 Hs Hd Hc Hl H0). congruence.
Defined.
