(* ===== verification/Removal.v ===== *)
(** * Removal of servers

    [internal/store/server_delete.go] deletes a server with everything that is kept
    of it, in one transaction over the tables of [Schema.v] and those of
    [AlertState.v]. *)
From Stdlib Require Import Ascii.
From Stdlib Require Import Btauto.
From stdpp Require Import sorting.
From S2P Require Import Prelude GoStrings GoNum GoTime Domain Validation Sql SqlText AlertState Relational Schema Servers Reports PveReports PbsReports WindowsReports Batches Settings.

(** ** The whole database *)

Record LoginAttempt := {
  la_ID : Z; la_Username : string; la_IP : string; la_UserAgent : string;
  la_ClientDetails : string; la_Result : string; la_Reason : string; la_AttemptedAt : Time }.

(** The rows of [login_attempts], oldest first, and the last number given. *)
Record LoginLog := { log_rows : list LoginAttempt; log_last : Z }.

Record Full := { rel : DB; alerts : Tables; logins : LoginLog }.

Definition set_rel (db : DB) (s : Full) : Full :=
  {| rel := db; alerts := alerts s; logins := logins s |}.
Definition set_alerts (t : Tables) (s : Full) : Full :=
  {| rel := rel s; alerts := t; logins := logins s |}.
Definition set_logins (l : LoginLog) (s : Full) : Full :=
  {| rel := rel s; alerts := alerts s; logins := l |}.

Definition on_rel {A} (p : prog DB A) : prog Full A := lift rel set_rel p.
Definition on_alerts {A} (p : prog Tables A) : prog Full A := lift alerts set_alerts p.
Definition on_logins {A} (p : prog LoginLog A) : prog Full A := lift logins set_logins p.

(** ** [server_delete.go] *)

(** One of the [steps]: a deletion from a table of [Schema.v], or that of the
    maintenance window; the text of the statement goes into its error. *)
Inductive del_step :=
| DelRows (t : tbl) (cond : DB → Row t → bool)
| DelMaintenance.

Definition step_prog (serverType : string) (id : Z) (d : del_step) : prog Full () :=
  match d with
  | DelRows t cond => on_rel (DELETE_IN t cond ≫= λ _, mret ())
  | DelMaintenance => on_alerts (DeleteServerMaintenance serverType id)
  end.

Definition run_steps (serverType : string) (id : Z) (steps : list (string * del_step)) :
    prog Full () :=
  for_each steps (λ st, wrap_err (serverType +:+ " delete " +:+ Quote st.1)
    (step_prog serverType id st.2)).

Definition pve_of (id : Z) : ReportRow PVEReport → bool := of_server PVE id.
Definition pbs_of (id : Z) : ReportRow PBSReport → bool := of_server PBS id.
Definition windows_of (id : Z) : ReportRow WindowsReport → bool := of_server Windows id.

(** Every schedule of the server, deleted ones too. *)
Definition any_config_of (serverType : string) (id : Z) (r : VMConfigRow) : bool :=
  str_eqb (vcr_ServerType r) serverType && (vcr_ServerID r =? id).

Definition pve_steps (id : Z) : list (string * del_step) :=
  [("DELETE FROM server_heartbeats WHERE server_type = 'pve' AND server_id = ?",
    DelRows ServerHeartbeats (λ _, heartbeat_of "pve" id));
   ("DELETE FROM server_maintenance WHERE server_type = 'pve' AND server_id = ?", DelMaintenance);
   ("DELETE FROM pve_vm_alert_config WHERE server_id = ?",
    DelRows PveVMAlertConfigs (λ _ (c : PVEVMAlertConfig), vac_ServerID c =? id));
   ("DELETE FROM pve_alert_config WHERE server_id = ?",
    DelRows PveAlertConfigs (λ _ (c : PVEAlertConfig), pac_ServerID c =? id));
   ("DELETE FROM vm_backup_configs WHERE server_type = 'pve' AND server_id = ?",
    DelRows VmBackupConfigs (λ _, any_config_of "pve" id));
   ("DELETE FROM pve_backup_tasks WHERE report_id IN (SELECT id FROM pve_reports WHERE server_id = ?)",
    DelRows PveBackupTasks (λ db (t : PVEBackupTask), goes PVE (pve_of id) db (task_ReportID t)));
   ("DELETE FROM pve_storage_content WHERE storage_id IN (SELECT id FROM pve_storages WHERE report_id IN (SELECT id FROM pve_reports WHERE server_id = ?))",
    DelRows PveStorageContents (λ db (c : PVEStorageContent),
      storage_goes (pve_of id) db (cnt_StorageID c)));
   ("DELETE FROM pve_storage_info WHERE storage_id IN (SELECT id FROM pve_storages WHERE report_id IN (SELECT id FROM pve_reports WHERE server_id = ?))",
    DelRows PveStorageInfos (λ db (i : PVEStorageInfo),
      storage_goes (pve_of id) db (info_StorageID i)));
   ("DELETE FROM pve_storages WHERE report_id IN (SELECT id FROM pve_reports WHERE server_id = ?)",
    DelRows PveStorages (λ db (s : PVEStorage), goes PVE (pve_of id) db (stg_ReportID s)));
   ("DELETE FROM pve_reports WHERE server_id = ?", DelRows (Reports PVE) (λ _, pve_of id));
   ("DELETE FROM pve_servers WHERE id = ?", DelRows (Servers PVE) (λ _, has_id id))].

Definition pbs_steps (id : Z) : list (string * del_step) :=
  [("DELETE FROM server_heartbeats WHERE server_type = 'pbs' AND server_id = ?",
    DelRows ServerHeartbeats (λ _, heartbeat_of "pbs" id));
   ("DELETE FROM server_maintenance WHERE server_type = 'pbs' AND server_id = ?", DelMaintenance);
   ("DELETE FROM pbs_alert_config WHERE server_id = ?",
    DelRows PbsAlertConfigs (λ _ (c : PBSAlertConfig), bac_ServerID c =? id));
   ("DELETE FROM pbs_maintenance_tasks WHERE report_id IN (SELECT id FROM pbs_reports WHERE server_id = ?)",
    DelRows PbsMaintenanceTasks (λ db (t : PBSTask), goes PBS (pbs_of id) db (ptask_ReportID t)));
   ("DELETE FROM pbs_snapshots WHERE store_id IN (SELECT id FROM pbs_stores WHERE report_id IN (SELECT id FROM pbs_reports WHERE server_id = ?))",
    DelRows PbsSnapshots (λ db (s : PBSSnapshot), store_goes (pbs_of id) db (sn_StoreID s)));
   ("DELETE FROM pbs_store_history WHERE store_id IN (SELECT id FROM pbs_stores WHERE report_id IN (SELECT id FROM pbs_reports WHERE server_id = ?))",
    DelRows PbsStoreHistory (λ db (h : HistoryRow), store_goes (pbs_of id) db (hist_StoreID h)));
   ("DELETE FROM pbs_gc_status WHERE store_id IN (SELECT id FROM pbs_stores WHERE report_id IN (SELECT id FROM pbs_reports WHERE server_id = ?))",
    DelRows PbsGcStatus (λ db (g : PBSGCStatus), store_goes (pbs_of id) db (gc_StoreID g)));
   ("DELETE FROM pbs_stores WHERE report_id IN (SELECT id FROM pbs_reports WHERE server_id = ?)",
    DelRows PbsStores (λ db (s : PBSStore), goes PBS (pbs_of id) db (ds_ReportID s)));
   ("DELETE FROM pbs_reports WHERE server_id = ?", DelRows (Reports PBS) (λ _, pbs_of id));
   ("DELETE FROM pbs_servers WHERE id = ?", DelRows (Servers PBS) (λ _, has_id id))].

Definition windows_steps (id : Z) : list (string * del_step) :=
  [("DELETE FROM server_heartbeats WHERE server_type = 'windows' AND server_id = ?",
    DelRows ServerHeartbeats (λ _, heartbeat_of "windows" id));
   ("DELETE FROM server_maintenance WHERE server_type = 'windows' AND server_id = ?", DelMaintenance);
   ("DELETE FROM windows_alert_config WHERE server_id = ?",
    DelRows WindowsAlertConfigs (λ _ (c : WindowsAlertConfig), wac_ServerID c =? id));
   ("DELETE FROM windows_disks WHERE report_id IN (SELECT id FROM windows_reports WHERE server_id = ?)",
    DelRows WindowsDisks (λ db (d : WindowsDisk),
      goes Windows (windows_of id) db (disk_ReportID d)));
   ("DELETE FROM windows_reports WHERE server_id = ?",
    DelRows (Reports Windows) (λ _, windows_of id));
   ("DELETE FROM windows_servers WHERE id = ?", DelRows (Servers Windows) (λ _, has_id id))].

Definition steps_of (k : server_kind) : Z → list (string * del_step) :=
  match k with PVE => pve_steps | PBS => pbs_steps | Windows => windows_steps end.

(** [hardDeletePVEByID], [hardDeletePBSByID] and [hardDeleteWindowsByID]. *)
Definition hard_delete_by_id (k : server_kind) (id : Z) : prog Full () :=
  run_steps (kind_name k) id (steps_of k id) ≫= λ _,
  on_alerts (deleteAlertSuppressionsForServer (kind_name k) id).

Definition hardDeletePVEByID := hard_delete_by_id PVE.
Definition hardDeletePBSByID := hard_delete_by_id PBS.
Definition hardDeleteWindowsByID := hard_delete_by_id Windows.

Section hard_delete.
Context `{!SqlOrder}.

Definition server_ids (k : server_kind) (cond : ServerRow → bool) (db : DB) : list Z :=
  sr_ID <$> select_from (Servers k) cond any_order db.

Definition serverIDs (k : server_kind) (cond : ServerRow → bool) : prog Full (list Z) :=
  on_rel (query (server_ids k cond)).

Definition by_name (name : string) (r : ServerRow) : bool := str_eqb (sr_Name r) name.
Definition by_key (apiKeyID : Z) (r : ServerRow) : bool := opt_is (sr_APIKeyID r) apiKeyID.
Definition unbound (name : string) (r : ServerRow) : bool :=
  str_eqb (sr_Name r) name && is_null (sr_APIKeyID r).

Definition pveServerIDsByName := serverIDs PVE ∘ by_name.
Definition pbsServerIDsByName := serverIDs PBS ∘ by_name.
Definition windowsServerIDsByName := serverIDs Windows ∘ by_name.
Definition pveServerIDsByAPIKey := serverIDs PVE ∘ by_key.
Definition pbsServerIDsByAPIKey := serverIDs PBS ∘ by_key.
Definition windowsServerIDsByAPIKey := serverIDs Windows ∘ by_key.
Definition legacyPVEServerIDsByName := serverIDs PVE ∘ unbound.
Definition legacyPBSServerIDsByName := serverIDs PBS ∘ unbound.
Definition legacyWindowsServerIDsByName := serverIDs Windows ∘ unbound.

(** The identifiers of some servers, then the removal of each of them: the shape of
    [hardDeletePVE], [hardDeleteLegacyPVE] and their likes. *)
Definition hard_delete_where (k : server_kind) (cond : ServerRow → bool) : prog Full () :=
  ids ← serverIDs k cond; for_each ids (hard_delete_by_id k).


Definition hardDeletePVE (serverName : string) := hard_delete_where PVE (by_name serverName).
Definition hardDeletePBS (serverName : string) := hard_delete_where PBS (by_name serverName).
Definition hardDeleteWindows (serverName : string) := hard_delete_where Windows (by_name serverName).

Definition HardDeleteServerData (serverName : string) : prog Full () :=
  tx (hardDeletePVE serverName ≫= λ _, hardDeletePBS serverName ≫= λ _,
      hardDeleteWindows serverName).

End hard_delete.

(** ** The steps of one server *)

Lemma run_on_rel {A} (p : prog DB A) s :
  run (on_rel p) s = let '(r, db) := run p (rel s) in (r, set_rel db s).
Proof. unfold on_rel. rewrite run_lift; [done|done|by intros []|done]. Qed.

Lemma run_on_alerts {A} (p : prog Tables A) s :
  run (on_alerts p) s = let '(r, t) := run p (alerts s) in (r, set_alerts t s).
Proof. unfold on_alerts. rewrite run_lift; [done|done|by intros []|done]. Qed.

(** The effect of the steps on the tables of alerts. *)
Fixpoint steps_alerts (serverType : string) (id : Z) (l : list (string * del_step)) (t : Tables) :
    Tables :=
  match l with
  | [] => t
  | (_, DelMaintenance) :: l =>
      steps_alerts serverType id l (set_maintenances (delete (serverType, id)) t)
  | _ :: l => steps_alerts serverType id l t
  end.

(** The steps empty the tables of their marked rows in an order that the references
    allow. *)
Inductive steps_ok (c : ∀ t : tbl, Row t → bool) (db0 : DB) :
    list tbl → list (string * del_step) → list tbl → Prop :=
| steps_nil S : steps_ok c db0 S [] S
| steps_maintenance S text l S' :
    steps_ok c db0 S l S' → steps_ok c db0 S ((text, DelMaintenance) :: l) S'
| steps_rows S text (t : tbl) cond l S' :
    t ∉ S →
    (∀ u fk, fk ∈ fks (Schema := probakgo_schema) u → parent fk = t → u ∈ S) →
    (∀ db, filtered c db0 S db → ∀ k r, rows (db0 t) !! k = Some r → cond db r = c t r) →
    steps_ok c db0 (t :: S) l S' → steps_ok c db0 S ((text, DelRows t cond) :: l) S'.

Lemma run_steps_ok c db0 ty id S l S' s :
  wf db0 → closed c db0 → steps_ok c db0 S l S' → filtered c db0 S (rel s) →
  ∃ db', filtered c db0 S' db' ∧ run (run_steps ty id l) s =
    (Ok (), {| rel := db'; alerts := steps_alerts ty id l (alerts s); logins := logins s |}).
Proof.
  intros Hwf Hclosed Hok. revert s.
  induction Hok as [S|S text l S' _ IH|S text t cond l S' Ht Href Hcond _ IH]; intros s Hfl.
  - exists (rel s). split; [done|]. by destruct s.
  - destruct (IH (set_alerts (set_maintenances (delete (ty, id)) (alerts s)) s) Hfl)
      as (db' & Hfl' & Hrun). exists db'. split; [done|].
    unfold run_steps in *. cbn [for_each fst snd step_prog].
    rewrite run_bind, run_wrap_err, run_on_alerts. unfold DeleteServerMaintenance.
    rewrite run_exec_sql. exact Hrun.
  - destruct (filtered_step c db0 S (rel s) t cond Hwf Hclosed Hfl Ht Href (Hcond _ Hfl))
      as (db1 & Hrun1 & Hfl1).
    destruct (IH (set_rel db1 s) Hfl1) as (db' & Hfl' & Hrun). exists db'. split; [done|].
    unfold run_steps in *. cbn [for_each fst snd step_prog].
    rewrite run_bind, run_wrap_err, run_on_rel, run_bind, Hrun1. cbn beta iota.
    rewrite run_mret. exact Hrun.
Qed.

(** What belongs to a server. *)
Definition marks (k : server_kind) (id : Z) (db0 : DB) : ∀ t : tbl, Row t → bool :=
  match k with
  | PVE => λ t, match t return tbl_row t → bool with
    | ServerHeartbeats => heartbeat_of "pve" id
    | PveVMAlertConfigs => λ c, vac_ServerID c =? id
    | PveAlertConfigs => λ c, pac_ServerID c =? id
    | VmBackupConfigs => any_config_of "pve" id
    | PveBackupTasks => λ t, goes PVE (pve_of id) db0 (task_ReportID t)
    | PveStorageContents => λ c, storage_goes (pve_of id) db0 (cnt_StorageID c)
    | PveStorageInfos => λ i, storage_goes (pve_of id) db0 (info_StorageID i)
    | PveStorages => λ s, goes PVE (pve_of id) db0 (stg_ReportID s)
    | Reports PVE => pve_of id
    | Servers PVE => has_id id
    | _ => λ _, false
    end
  | PBS => λ t, match t return tbl_row t → bool with
    | ServerHeartbeats => heartbeat_of "pbs" id
    | PbsAlertConfigs => λ c, bac_ServerID c =? id
    | PbsMaintenanceTasks => λ t, goes PBS (pbs_of id) db0 (ptask_ReportID t)
    | PbsSnapshots => λ s, store_goes (pbs_of id) db0 (sn_StoreID s)
    | PbsStoreHistory => λ h, store_goes (pbs_of id) db0 (hist_StoreID h)
    | PbsGcStatus => λ g, store_goes (pbs_of id) db0 (gc_StoreID g)
    | PbsStores => λ s, goes PBS (pbs_of id) db0 (ds_ReportID s)
    | Reports PBS => pbs_of id
    | Servers PBS => has_id id
    | _ => λ _, false
    end
  | Windows => λ t, match t return tbl_row t → bool with
    | ServerHeartbeats => heartbeat_of "windows" id
    | WindowsAlertConfigs => λ c, wac_ServerID c =? id
    | WindowsDisks => λ d, goes Windows (windows_of id) db0 (disk_ReportID d)
    | Reports Windows => windows_of id
    | Servers Windows => has_id id
    | _ => λ _, false
    end
  end.

Lemma closed_marks k id db0 : wf db0 → closed (marks k id db0) db0.
Proof.
  intros Hwf.
  assert (∀ k' i r0, rows_of db0 (Servers k') !! i = Some r0 → has_id id r0 = true → i = id)
    as Hsrv.
  { intros k' i r0 Hr0 Hh%Z.eqb_eq. by apply (wf_ids _ Hwf (Servers k')) in Hr0 as [<- _]. }
  intros u fk Hfk j r i r0 Hr Hi Hr0 Hc.
  destruct k, u as [|[]|[]| | | | | | | | | | | | | | | |]; simpl in Hfk;
    try (by apply not_elem_of_nil in Hfk); apply list_elem_of_singleton in Hfk as ->;
    simpl in *; try done; try (injection Hi as <-).
  all: try (apply Hsrv in Hr0; [|done]; subst; apply Z.eqb_refl).
  all: try (by rewrite (storage_goes_row _ db0 _ r0 Hwf Hr0)).
  all: try (by rewrite (store_goes_row _ db0 _ r0 Hwf Hr0)).
  all: first [ exact (eq_trans (goes_row PVE (pve_of id) db0 _ r0 Hwf Hr0) Hc)
             | exact (eq_trans (goes_row PBS (pbs_of id) db0 _ r0 Hwf Hr0) Hc)
             | exact (eq_trans (goes_row Windows (windows_of id) db0 _ r0 Hwf Hr0) Hc) ].
Qed.

(** The tables of the steps, the last one first. *)
Definition step_tables (k : server_kind) : list tbl :=
  match k with
  | PVE => [Servers PVE; Reports PVE; PveStorages; PveStorageInfos; PveStorageContents;
            PveBackupTasks; VmBackupConfigs; PveAlertConfigs; PveVMAlertConfigs; ServerHeartbeats]
  | PBS => [Servers PBS; Reports PBS; PbsStores; PbsGcStatus; PbsStoreHistory; PbsSnapshots;
            PbsMaintenanceTasks; PbsAlertConfigs; ServerHeartbeats]
  | Windows => [Servers Windows; Reports Windows; WindowsDisks; WindowsAlertConfigs;
                ServerHeartbeats]
  end.

(** The condition of the next step reads tables that no step before it changed. *)
Ltac step_condition :=
  let H := fresh "Hfl" in intros H ? ? _;
  match type of H with
  | filtered _ ?d0 _ _ =>
      let same := (apply (fl_out _ _ _ _ H); set_solver) in
      first [ reflexivity
            | simpl; rewrite (goes_same _ _ d0) by same; reflexivity
            | simpl; rewrite (storage_goes_same _ d0) by same; reflexivity
            | simpl; rewrite (store_goes_same _ d0) by same; reflexivity ]
  end.

Lemma steps_ok_of k id db0 : steps_ok (marks k id db0) db0 [] (steps_of k id) (step_tables k).
Proof.
  destruct k; simpl; repeat first [apply steps_nil | apply steps_maintenance | apply steps_rows];
    try (intros db; step_condition); try set_solver; each_reference; set_solver.
Qed.

(** The tables of alerts after the removal of a server. *)
Definition server_suppression (ty : string) (id : Z) (alertID : string) : bool :=
  like ("%:" +:+ ty +:+ ":" +:+ Itoa id) alertID ||
  like (("%:" +:+ ty +:+ ":" +:+ Itoa id) +:+ ":%") alertID.

Definition alerts_without (k : server_kind) (id : Z) (t : Tables) : Tables :=
  set_suppressions (delete_where (λ alertID _, server_suppression (kind_name k) id alertID))
    (set_maintenances (delete (kind_name k, id)) t).

Lemma run_hard_delete_by_id k id s :
  wf (rel s) →
  ∃ db', filtered (marks k id (rel s)) (rel s) (step_tables k) db' ∧
    run (hard_delete_by_id k id) s =
    (Ok (), {| rel := db'; alerts := alerts_without k id (alerts s); logins := logins s |}).
Proof.
  intros Hwf. destruct (run_steps_ok (marks k id (rel s)) (rel s) (kind_name k) id []
    (steps_of k id) (step_tables k) s Hwf (closed_marks k id (rel s) Hwf)
    (steps_ok_of k id (rel s)) (filtered_start _ _ Hwf)) as (db' & Hfl & Hrun).
  exists db'. split; [done|]. unfold hard_delete_by_id. rewrite run_bind, Hrun. cbn beta iota.
  rewrite run_on_alerts. unfold deleteAlertSuppressionsForServer.
  rewrite run_wrap_err, run_exec_sql. by destruct k.
Qed.

(** ** What the removal of servers leaves *)

Definition kind_of_name (ty : string) : option server_kind :=
  if str_eqb ty "pve" then Some PVE else if str_eqb ty "pbs" then Some PBS
  else if str_eqb ty "windows" then Some Windows else None.

(** The server a row names; the parts of reports name none. *)
Definition owner (t : tbl) : Row t → option (server_kind * Z) :=
  match t return tbl_row t → option (server_kind * Z) with
  | Servers k => λ r, Some (k, sr_ID r)
  | Reports k => λ r, Some (k, rep_ServerID (rr_Report r))
  | PveVMAlertConfigs => λ c, Some (PVE, vac_ServerID c)
  | PveAlertConfigs => λ c, Some (PVE, pac_ServerID c)
  | PbsAlertConfigs => λ c, Some (PBS, bac_ServerID c)
  | WindowsAlertConfigs => λ c, Some (Windows, wac_ServerID c)
  | VmBackupConfigs => λ c, if str_eqb (vcr_ServerType c) "pve" then Some (PVE, vcr_ServerID c)
                            else None
  | ServerHeartbeats => λ h,
      k ← kind_of_name (hbr_ServerType h); Some (k, hbr_ServerID h)
  | _ => λ _, None
  end.

(** The tables without parts of reports. *)
Definition direct (t : tbl) : bool :=
  match t with
  | PveStorages | PveStorageInfos | PveStorageContents | PveBackupTasks | PbsStores
  | PbsStoreHistory | PbsGcStatus | PbsSnapshots | PbsMaintenanceTasks | WindowsDisks => false
  | _ => true
  end.

Definition owned (ids : server_kind → list Z) (t : tbl) (r : Row t) : bool :=
  match owner t r with Some (k, i) => in_ids (ids k) i | None => false end.

(** The servers [ids] are gone with everything that names them, and the reports of
    the others are as they were. *)
Record gone (ids : server_kind → list Z) (db db' : DB) : Prop := {
  gn_wf : wf db';
  gn_direct : ∀ t, direct t = true →
    in_order t db' = List.filter (λ r, negb (owned ids t r)) (in_order t db);
  gn_pve : pve_reports db' =
    List.filter (λ s, negb (owned ids (Reports PVE) (spv_Report s))) (pve_reports db);
  gn_pbs : pbs_reports db' =
    List.filter (λ s, negb (owned ids (Reports PBS) (spb_Report s))) (pbs_reports db);
  gn_windows : windows_reports db' =
    List.filter (λ s, negb (owned ids (Reports Windows) (spw_Report s))) (windows_reports db) }.

Lemma filter_twice {A} (f g h : A → bool) (l : list A) :
  (∀ x, h x = g x && f x) → List.filter f (List.filter g l) = List.filter h l.
Proof.
  intros Hh. induction l as [|x l IH]; simpl; [done|]. rewrite (Hh x).
  destruct (g x); simpl; [|done]. by destruct (f x); rewrite IH.
Qed.

Lemma gone_nil db : wf db → gone (λ _, []) db db.
Proof.
  intros Hwf. assert (∀ t r, owned (λ _, []) t r = false) as Hno.
  { intros t r. unfold owned. by destruct (owner t r) as [[k i]|]. }
  split; [done|intros t _|..]; symmetry; apply filter_bool_all; intros x _; by rewrite Hno.
Qed.

Lemma owned_app ids1 ids2 t r :
  owned (λ k, ids1 k ++ ids2 k) t r = owned ids1 t r || owned ids2 t r.
Proof. unfold owned. destruct (owner t r) as [[k i]|]; [|done]. unfold in_ids. apply existsb_app. Qed.

Lemma gone_trans ids1 ids2 db1 db2 db3 :
  gone ids1 db1 db2 → gone ids2 db2 db3 → gone (λ k, ids1 k ++ ids2 k) db1 db3.
Proof.
  intros H1 H2. split.
  - apply H2.
  - intros t Ht. rewrite (gn_direct _ _ _ H2 t Ht), (gn_direct _ _ _ H1 t Ht).
    apply filter_twice. intros r. by rewrite owned_app, negb_orb.
  - rewrite (gn_pve _ _ _ H2), (gn_pve _ _ _ H1). apply filter_twice. intros r.
    by rewrite owned_app, negb_orb.
  - rewrite (gn_pbs _ _ _ H2), (gn_pbs _ _ _ H1). apply filter_twice. intros r.
    by rewrite owned_app, negb_orb.
  - rewrite (gn_windows _ _ _ H2), (gn_windows _ _ _ H1). apply filter_twice. intros r.
    by rewrite owned_app, negb_orb.
Qed.

(** One server. *)
Definition only (k : server_kind) (id : Z) (k' : server_kind) : list Z :=
  if decide (k' = k) then [id] else [].

Lemma owned_only k id t r :
  owned (only k id) t r = bool_decide (owner t r = Some (k, id)).
Proof.
  unfold owned, only. destruct (owner t r) as [[k' i]|]; [|by rewrite bool_decide_false].
  destruct (decide (k' = k)) as [->|Hne].
  - simpl. rewrite orb_false_r. destruct (Z.eqb_spec i id) as [->|Hne].
    + by rewrite bool_decide_true.
    + rewrite bool_decide_false; [done|congruence].
  - simpl. rewrite bool_decide_false; [done|congruence].
Qed.

Lemma kind_of_name_spec ty k : kind_of_name ty = Some k ↔ ty = kind_name k.
Proof.
  unfold kind_of_name. destruct (str_eqb ty "pve") eqn:H1; [apply str_eqb_eq in H1 as ->|].
  { destruct k; simpl; naive_solver. }
  destruct (str_eqb ty "pbs") eqn:H2; [apply str_eqb_eq in H2 as ->|].
  { destruct k; simpl; naive_solver. }
  destruct (str_eqb ty "windows") eqn:H3; [apply str_eqb_eq in H3 as ->|].
  { destruct k; simpl; naive_solver. }
  split; [done|]. intros ->. by destruct k.
Qed.

Lemma heartbeat_owner k id h :
  heartbeat_of (kind_name k) id h = bool_decide (owner ServerHeartbeats h = Some (k, id)).
Proof.
  apply eq_bool_prop_intro. rewrite !Is_true_true, bool_decide_eq_true, heartbeat_of_spec. simpl.
  destruct (kind_of_name (hbr_ServerType h)) as [k'|] eqn:Hk; simpl.
  - apply kind_of_name_spec in Hk as ->. destruct k', k; simpl; naive_solver.
  - split; [|done]. intros [Hty _]. apply kind_of_name_spec in Hty. congruence.
Qed.

Lemma owner_same (k : server_kind) (i id : Z) :
  bool_decide (Some (k, i) = Some (k, id)) = (i =? id).
Proof.
  destruct (Z.eqb_spec i id) as [->|Hne]; [by apply bool_decide_true|].
  apply bool_decide_false. congruence.
Qed.

Lemma marks_owned k id db (t : tbl) (r : Row t) :
  direct t = true → marks k id db t r = owned (only k id) t r.
Proof.
  intros Ht. rewrite owned_only.
  destruct t as [|[]|[]| | | | | | | | | | | | | | | |]; try discriminate Ht; destruct k;
    cbn [marks owner]; rewrite ?owner_same; try done;
    try (symmetry; apply bool_decide_false; discriminate);
    try apply (heartbeat_owner PVE); try apply (heartbeat_owner PBS);
    try apply (heartbeat_owner Windows); unfold any_config_of.
  - destruct (str_eqb _ _); cbn [andb]; [by rewrite owner_same|by rewrite bool_decide_false].
  - destruct (str_eqb _ _); symmetry; by apply bool_decide_false.
  - destruct (str_eqb _ _); symmetry; by apply bool_decide_false.
Qed.

Lemma marks_elsewhere k id db (t : tbl) (r : Row t) :
  t ∉ step_tables k → marks k id db t r = false.
Proof.
  intros Ht. destruct k, t as [|[]|[]| | | | | | | | | | | | | | | |]; try done;
    destruct Ht; simpl; set_solver.
Qed.

Lemma filtered_marks k id db db' (t : tbl) :
  filtered (marks k id db) db (step_tables k) db' →
  in_order t db' = List.filter (λ r, negb (marks k id db t r)) (in_order t db).
Proof.
  intros Hfl. destruct (decide (t ∈ step_tables k)) as [Ht|Ht].
  - by apply (fl_order _ _ _ _ Hfl).
  - rewrite (in_order_frame t db db') by (by apply (fl_out _ _ _ _ Hfl)).
    symmetry. apply filter_bool_all. intros r _. by rewrite marks_elsewhere.
Qed.

(** The reports of the other kinds keep their owners. *)
Lemma not_owned k k' id (r : Row (Reports k')) :
  k' ≠ k → negb (owned (only k id) (Reports k') r) = true.
Proof. intros Hne. rewrite owned_only, bool_decide_false; [done|simpl; congruence]. Qed.

Lemma report_owned k id (r : Row (Reports k)) :
  owned (only k id) (Reports k) r = of_server k id r.
Proof. rewrite owned_only. apply owner_same. Qed.

Lemma gone_only k id db db' :
  wf db → filtered (marks k id db) db (step_tables k) db' → gone (only k id) db db'.
Proof.
  intros Hwf Hfl. split.
  - apply Hfl.
  - intros t Ht. rewrite (filtered_marks k id db db' t Hfl). apply filter_bool_ext.
    intros r _. by rewrite marks_owned.
  - destruct (decide (PVE = k)) as [<-|Hne].
    + rewrite (pve_pruned_reports (pve_of id) db db' Hwf).
      * apply filter_bool_ext. intros s _. by rewrite report_owned.
      * apply (filtered_pve_pruned _ _ _ _ _ Hfl); [unfold pve_tables; set_solver|].
        unfold pve_tables. intros t Ht r. repeat (apply elem_of_cons in Ht as [->|Ht]; [done|]).
        by apply not_elem_of_nil in Ht.
    + rewrite (pve_reports_frame db db').
      * symmetry. apply filter_bool_all. intros s _. by apply not_owned.
      * intros t Ht. apply (fl_out _ _ _ _ Hfl). destruct k; [done|..]; revert t Ht;
          unfold pve_tables; set_solver.
  - destruct (decide (PBS = k)) as [<-|Hne].
    + rewrite (pbs_pruned_reports (pbs_of id) db db' Hwf).
      * apply filter_bool_ext. intros s _. by rewrite report_owned.
      * apply (filtered_pbs_pruned _ _ _ _ _ Hfl); [unfold pbs_tables; set_solver|].
        unfold pbs_tables. intros t Ht r. repeat (apply elem_of_cons in Ht as [->|Ht]; [done|]).
        by apply not_elem_of_nil in Ht.
    + rewrite (pbs_reports_frame db db').
      * symmetry. apply filter_bool_all. intros s _. by apply not_owned.
      * intros t Ht. apply (fl_out _ _ _ _ Hfl). destruct k; [|done|]; revert t Ht;
          unfold pbs_tables; set_solver.
  - destruct (decide (Windows = k)) as [<-|Hne].
    + rewrite (windows_pruned_reports (windows_of id) db db' Hwf).
      * apply filter_bool_ext. intros s _. by rewrite report_owned.
      * apply (filtered_windows_pruned _ _ _ _ _ Hfl); [unfold windows_tables; set_solver|].
        unfold windows_tables. intros t Ht r.
        repeat (apply elem_of_cons in Ht as [->|Ht]; [done|]). by apply not_elem_of_nil in Ht.
    + rewrite (windows_reports_frame db db').
      * symmetry. apply filter_bool_all. intros s _. by apply not_owned.
      * intros t Ht. apply (fl_out _ _ _ _ Hfl). destruct k; [..|done]; revert t Ht;
          unfold windows_tables; set_solver.
Qed.

Lemma gone_ext ids1 ids2 db db' :
  (∀ k i, in_ids (ids1 k) i = in_ids (ids2 k) i) → gone ids1 db db' → gone ids2 db db'.
Proof.
  intros Hids [Hwf Hd Hpve Hpbs Hwin].
  assert (∀ t r, owned ids1 t r = owned ids2 t r) as Ho.
  { intros t r. unfold owned. by destruct (owner t r) as [[k i]|]. }
  split; [done|intros t Ht; rewrite (Hd t Ht)|rewrite Hpve|rewrite Hpbs|rewrite Hwin];
    apply filter_bool_ext; intros x _; by rewrite Ho.
Qed.

(** ** Suppressions that name a server *)

Lemma like_percent p s :
  like (String "%"%char p) s =
  like p s || match s with EmptyString => false | String _ s => like (String "%"%char p) s end.
Proof. by destruct s. Qed.

Lemma like_any p a s : like p s = true → like (String "%"%char p) (a +:+ s) = true.
Proof.
  intros Hp. induction a as [|c a IH].
  - by rewrite app_nil_l_str, like_percent, Hp.
  - rewrite app_cons_str, like_percent, IH. apply orb_true_r.
Qed.

Lemma like_any_inv p s : like (String "%"%char p) s = true → ∃ a t, s = a +:+ t ∧ like p t = true.
Proof.
  induction s as [|c s IH]; rewrite like_percent; intros [Hp|Hs]%orb_true_iff.
  - by exists "", "".
  - done.
  - by exists "", (String c s).
  - destruct (IH Hs) as (a & t & -> & Ht). by exists (String c a), t.
Qed.

(** The texts without [%] and [_]. *)
Definition literal (q : string) : bool := negb (has_byte "%" q) && negb (has_byte "_" q).

Fixpoint lower_str (s : string) : string :=
  match s with EmptyString => EmptyString | String c s => String (lower_ascii c) (lower_str s) end.

Lemma literal_cons c q :
  literal (String c q) = true → c ≠ "%"%char ∧ c ≠ "_"%char ∧ literal q = true.
Proof.
  unfold literal. simpl. rewrite !negb_orb. intros Hq. bool_to_prop.
  repeat match goal with H : bool_decide _ = false |- _ => apply bool_decide_eq_false in H end.
  split_and!; [done|done|]. by rewrite andb_true_iff, !negb_true_iff.
Qed.

Lemma byte_inj c d : byte c = byte d → c = d.
Proof.
  unfold byte. intros Hc. rewrite <-(ascii_N_embedding c), <-(ascii_N_embedding d). f_equal. lia.
Qed.

Lemma like_cons c p s :
  c ≠ "%"%char → c ≠ "_"%char →
  like (String c p) s =
  match s with
  | EmptyString => false
  | String d s => bool_decide (lower_ascii c = lower_ascii d) && like p s
  end.
Proof.
  intros H1 H2. cbn [like].
  assert ((byte c =? 37) = false) as ->.
  { apply Z.eqb_neq. intros Hc. apply H1. by apply byte_inj. }
  destruct s as [|d s]; [done|].
  assert ((byte c =? 95) = false) as ->; [|done].
  apply Z.eqb_neq. intros Hc. apply H2. by apply byte_inj.
Qed.

Lemma like_literal q p s :
  literal q = true → like p s = true → like (q +:+ p) (q +:+ s) = true.
Proof.
  intros Hq Hp. induction q as [|c q IH]; [done|].
  apply literal_cons in Hq as (H1 & H2 & Hq). rewrite !app_cons_str, like_cons by done.
  rewrite bool_decide_true by done. simpl. auto.
Qed.

Lemma like_literal_inv q p s :
  literal q = true → like (q +:+ p) s = true →
  ∃ t1 t2, s = t1 +:+ t2 ∧ lower_str t1 = lower_str q ∧ like p t2 = true.
Proof.
  revert s. induction q as [|c q IH]; intros s Hq Hs; [by exists "", s|].
  apply literal_cons in Hq as (H1 & H2 & Hq). rewrite app_cons_str, like_cons in Hs by done.
  destruct s as [|d s]; [done|]. apply andb_true_iff in Hs as [Hc%bool_decide_eq_true Hs].
  destruct (IH s Hq Hs) as (t1 & t2 & -> & Ht & Hp). exists (String d t1), t2.
  split_and!; [done| |done]. simpl. by rewrite Hc, Ht.
Qed.

Fixpoint colons (s : string) : nat :=
  match s with
  | EmptyString => 0
  | String c s => (if bool_decide (c = ":"%char) then 1 else 0) + colons s
  end.

Lemma colons_app s t : colons (s +:+ t) = (colons s + colons t)%nat.
Proof. induction s as [|c s IH]; [done|]. rewrite app_cons_str. simpl. rewrite IH. lia. Qed.

Lemma colons_none s : has_byte ":" s = false → colons s = O.
Proof.
  induction s as [|c s IH]; [done|]. simpl. intros [Hc Hs]%orb_false_iff. rewrite Hc. auto.
Qed.

Lemma colons_zero s : colons s = O → has_byte ":" s = false.
Proof.
  induction s as [|c s IH]; [done|]. simpl. destruct (bool_decide (c = ":"%char)); [done|]. auto.
Qed.

Lemma lower_ascii_colon c : lower_ascii c = ":"%char ↔ c = ":"%char.
Proof.
  split; [|by intros ->]. unfold lower_ascii.
  destruct ((65 <=? byte c) && (byte c <=? 90)) eqn:Hc; [|done]. bool_to_prop. intros Heq.
  assert (byte (ascii_of_N (Z.to_N (byte c + 32))) = 58) as Hb by (by rewrite Heq).
  unfold byte in Hb at 1. rewrite N_ascii_embedding in Hb by lia. lia.
Qed.

Lemma colons_lower s : colons (lower_str s) = colons s.
Proof.
  induction s as [|c s IH]; [done|]. simpl. rewrite IH. f_equal.
  by rewrite (bool_decide_ext _ _ (lower_ascii_colon c)).
Qed.

Lemma lower_app s t : lower_str (s +:+ t) = lower_str s +:+ lower_str t.
Proof. induction s as [|c s IH]; [done|]. rewrite !app_cons_str. simpl. by rewrite IH. Qed.

Lemma lower_same s :
  (∀ c, has_byte c s = true → lower_ascii c = c) → lower_str s = s.
Proof.
  induction s as [|c s IH]; intros Hs; [done|]. simpl. f_equal.
  - apply Hs. simpl. by rewrite bool_decide_true.
  - apply IH. intros d Hd. apply Hs. simpl. rewrite Hd. apply orb_true_r.
Qed.

Lemma lower_Itoa n : lower_str (Itoa n) = Itoa n.
Proof.
  apply lower_same. intros c Hc. unfold lower_ascii.
  destruct ((65 <=? byte c) && (byte c <=? 90)) eqn:Hr; [|done]. exfalso. bool_to_prop.
  rewrite has_byte_Itoa in Hc; [done| |].
  - unfold digit. rewrite (proj2 (Z.leb_gt (byte c) 57)) by lia. by rewrite andb_false_r.
  - intros ->. by vm_compute in H.
Qed.

Lemma colons_server k id : colons (":" +:+ kind_name k +:+ ":" +:+ Itoa id) = 2%nat.
Proof.
  pose proof (colons_none (Itoa id) (has_colon_Itoa id)) as Hid.
  rewrite !colons_app, Hid. by destruct k.
Qed.

Lemma literal_server k id : literal (":" +:+ kind_name k +:+ ":" +:+ Itoa id) = true.
Proof.
  assert (literal (Itoa id) = true) as Hid.
  { unfold literal. by rewrite !has_byte_Itoa. }
  unfold literal in *. by destruct k.
Qed.

Lemma server_suppression_patterns k id a :
  server_suppression (kind_name k) id a =
  like (String "%"%char (":" +:+ kind_name k +:+ ":" +:+ Itoa id)) a ||
  like (String "%"%char ((":" +:+ kind_name k +:+ ":" +:+ Itoa id) +:+ ":%")) a.
Proof. done. Qed.

(** The text names the server: its own alerts end in its type and number, those of its
    parts go on after a colon.  Letters match without case. *)
Definition names_server (k : server_kind) (id : Z) (alertID : string) : Prop :=
  ∃ before after,
    lower_str alertID = before +:+ (":" +:+ kind_name k +:+ ":" +:+ Itoa id) +:+ after ∧
    (after = "" ∨ ∃ rest, after = ":" +:+ rest).

Lemma lower_split s b c :
  lower_str s = b +:+ c → ∃ x y, s = x +:+ y ∧ lower_str x = b ∧ lower_str y = c.
Proof.
  revert s. induction b as [|d b IH]; intros s Hs; [by exists "", s|].
  destruct s as [|a s]; [done|]. rewrite app_cons_str in Hs. injection Hs as Hd Hs.
  destruct (IH s Hs) as (x & y & -> & Hx & Hy). exists (String a x), y.
  split_and!; [done| |done]. cbn. by rewrite Hd, Hx.
Qed.

Lemma like_literal_lower q p x s :
  literal q = true → lower_str x = lower_str q → like p s = true → like (q +:+ p) (x +:+ s) = true.
Proof.
  revert x. induction q as [|c q IH]; intros x Hq Hx Hp; [by destruct x|].
  destruct x as [|d x]; [done|]. apply literal_cons in Hq as (H1 & H2 & Hq). injection Hx as Hd Hx.
  rewrite !app_cons_str, like_cons by done. rewrite bool_decide_true by done. by apply IH.
Qed.

Lemma lower_server k id :
  lower_str (":" +:+ kind_name k +:+ ":" +:+ Itoa id) = ":" +:+ kind_name k +:+ ":" +:+ Itoa id.
Proof. rewrite !lower_app, lower_Itoa. by destruct k. Qed.

(** The two patterns of the statement say just that. *)
Lemma server_suppression_spec k id a :
  server_suppression (kind_name k) id a = true ↔ names_server k id a.
Proof.
  pose proof (literal_server k id) as Hlit. pose proof (lower_server k id) as Hlow.
  rewrite server_suppression_patterns. unfold names_server.
  set (q := ":" +:+ kind_name k +:+ ":" +:+ Itoa id) in *. split.
  - intros [Hm|Hm]%orb_true_iff; apply like_any_inv in Hm as (x & t & -> & Hm).
    + rewrite <-(app_nil_r_str q) in Hm. apply like_literal_inv in Hm as (t1 & t2 & -> & Ht & Hn);
        [|done]. destruct t2; [|done]. exists (lower_str x), "".
      rewrite !lower_app, Ht, Hlow. split; [done|by left].
    + apply like_literal_inv in Hm as (t1 & t2 & -> & Ht & Hn); [|done].
      rewrite like_cons in Hn by done. destruct t2 as [|d t2]; [done|].
      apply andb_true_iff in Hn as [Hd%bool_decide_eq_true _]. symmetry in Hd.
      apply lower_ascii_colon in Hd as ->. exists (lower_str x), (":" +:+ lower_str t2).
      rewrite !lower_app, Ht, Hlow. split; [done|right; by eexists].
  - intros (before & after & (x & y & -> & _ & Hy)%lower_split & Hafter).
    apply lower_split in Hy as (q' & z & -> & Hq & Hz).
    assert (lower_str q' = lower_str q) as Hq' by congruence. apply orb_true_iff.
    destruct Hafter as [->|[rest ->]]; [left|right]; apply like_any.
    + destruct z; [|done]. rewrite <-(app_nil_r_str q). by apply like_literal_lower.
    + destruct z as [|d z]; [done|].
      assert (d = ":"%char) as -> by (apply lower_ascii_colon; by injection Hz).
      apply like_literal_lower; [done..|].
      change (like (String "%"%char "") z = true). rewrite <-(app_nil_r_str z). by apply like_any.
Qed.

(** ** What it leaves of the alerts *)

(** The window is one of the servers [ids], the suppressed alert is one of theirs. *)
Definition window_of (ids : server_kind → list Z) (key : string * Z) : bool :=
  existsb (λ k, str_eqb key.1 (kind_name k) && in_ids (ids k) key.2) [PVE; PBS; Windows].
Definition silenced (ids : server_kind → list Z) (alertID : string) : bool :=
  existsb (λ k, existsb (λ id, server_suppression (kind_name k) id alertID) (ids k))
    [PVE; PBS; Windows].

Definition forget (ids : server_kind → list Z) (t : Tables) : Tables :=
  set_suppressions (delete_where (λ alertID _, silenced ids alertID))
    (set_maintenances (delete_where (λ key _, window_of ids key)) t).

Lemma window_of_spec ids ty id :
  window_of ids (ty, id) = true ↔ ∃ k, ty = kind_name k ∧ id ∈ ids k.
Proof.
  unfold window_of. rewrite existsb_exists. setoid_rewrite andb_true_iff.
  setoid_rewrite str_eqb_eq. setoid_rewrite in_ids_spec. split.
  { intros (k & _ & Hk & Hid). by exists k. }
  intros (k & -> & Hid). exists k. split; [destruct k; simpl; auto|done].
Qed.

Lemma silenced_spec ids a :
  silenced ids a = true ↔ ∃ k id, id ∈ ids k ∧ server_suppression (kind_name k) id a = true.
Proof.
  unfold silenced. rewrite existsb_exists. setoid_rewrite existsb_exists.
  setoid_rewrite <-list_elem_of_In. split.
  { intros (k & _ & id & Hid & Hs). by exists k, id. }
  intros (k & id & Hid & Hs). exists k. split; [|by exists id].
  destruct k; set_solver.
Qed.

Lemma forget_eq f1 f2 g1 g2 t :
  (∀ a, f1 a = f2 a) → (∀ key, g1 key = g2 key) →
  set_suppressions (delete_where (λ a _, f1 a)) (set_maintenances (delete_where (λ key _, g1 key)) t) =
  set_suppressions (delete_where (λ a _, f2 a)) (set_maintenances (delete_where (λ key _, g2 key)) t).
Proof.
  intros Hf Hg. unfold set_suppressions, set_maintenances. simpl. f_equal;
    apply map_eq; intros x; rewrite !lookup_delete_where; [by rewrite Hf|by rewrite Hg].
Qed.

Lemma forget_ext ids1 ids2 t :
  (∀ k i, in_ids (ids1 k) i = in_ids (ids2 k) i) → forget ids1 t = forget ids2 t.
Proof.
  intros Hids. assert (∀ k i, i ∈ ids1 k ↔ i ∈ ids2 k) as Hel
    by (intros k i; by rewrite <-!in_ids_spec, Hids).
  apply forget_eq; [intros a|intros [ty id]]; apply eq_bool_prop_intro; rewrite !Is_true_true.
  - rewrite !silenced_spec. by setoid_rewrite Hel.
  - rewrite !window_of_spec. by setoid_rewrite Hel.
Qed.

Lemma forget_nil t : forget (λ _, []) t = t.
Proof.
  destruct t. unfold forget, set_suppressions, set_maintenances. simpl. f_equal;
    apply map_eq; intros x; rewrite lookup_delete_where.
  - by destruct (_ !! x).
  - destruct x. unfold window_of. simpl. rewrite !andb_false_r. by destruct (_ !! _).
Qed.

Lemma forget_app ids1 ids2 t :
  forget ids2 (forget ids1 t) = forget (λ k, ids1 k ++ ids2 k) t.
Proof.
  unfold forget, set_suppressions, set_maintenances. simpl. f_equal; apply map_eq; intros x;
    rewrite !lookup_delete_where.
  - destruct (_ !! x) as [r|]; [|done]. simpl.
    assert (silenced (λ k, ids1 k ++ ids2 k) x = silenced ids1 x || silenced ids2 x) as ->.
    { unfold silenced. simpl. rewrite !existsb_app. btauto. }
    by destruct (silenced ids1 x).
  - destruct (_ !! x) as [r|]; [|done]. simpl.
    assert (window_of (λ k, ids1 k ++ ids2 k) x = window_of ids1 x || window_of ids2 x) as ->.
    { unfold window_of, in_ids. simpl. rewrite !existsb_app. btauto. }
    by destruct (window_of ids1 x).
Qed.

Lemma forget_only k id t : alerts_without k id t = forget (only k id) t.
Proof.
  unfold alerts_without, forget, set_suppressions, set_maintenances. simpl. f_equal;
    apply map_eq; intros x; rewrite !lookup_delete_where.
  - destruct (_ !! x) as [r|]; [|done]. simpl.
    assert (silenced (only k id) x = server_suppression (kind_name k) id x) as ->; [|done].
    unfold silenced, only. destruct k; simpl; btauto.
  - destruct x as [ty i]. destruct (decide ((kind_name k, id) = (ty, i))) as [[= <- <-]|Hne].
    + rewrite lookup_delete_eq. destruct (_ !! _) as [r|]; [|done]. simpl.
      rewrite (proj2 (window_of_spec _ _ _)); [done|]. exists k. split; [done|].
      unfold only. rewrite decide_True by done. by left.
    + rewrite lookup_delete_ne by done. destruct (_ !! _) as [r|]; [|done]. simpl.
      destruct (window_of _ _) eqn:Hw; [|done].
      apply window_of_spec in Hw as (k' & -> & Hin). unfold only in Hin.
      destruct (decide (k' = k)) as [->|]; [|by apply not_elem_of_nil in Hin].
      apply list_elem_of_singleton in Hin as ->. done.
Qed.

(** Of the tables of alerts go exactly the maintenance windows and the suppressions of
    the servers [ids]. *)
Record forgotten (ids : server_kind → list Z) (t t' : Tables) : Prop := {
  fg_window_gone k id : id ∈ ids k → maintenances t' !! (kind_name k, id) = None;
  fg_window_kept ty id : (∀ k, ty = kind_name k → id ∉ ids k) →
    maintenances t' !! (ty, id) = maintenances t !! (ty, id);
  fg_suppression_gone k id alertID : id ∈ ids k → names_server k id alertID →
    suppressions t' !! alertID = None;
  fg_suppression_kept alertID : (∀ k id, id ∈ ids k → ¬ names_server k id alertID) →
    suppressions t' !! alertID = suppressions t !! alertID;
  fg_rest : states t' = states t ∧ events t' = events t ∧ next_event t' = next_event t ∧
    deliveries t' = deliveries t ∧ destinations t' = destinations t ∧ batch t' = batch t }.

Lemma forget_forgotten ids t : forgotten ids t (forget ids t).
Proof.
  split; [intros k id Hid|intros ty id Hno|intros k id a Hid Hn|intros a Hno|done];
    unfold forget; simpl; rewrite lookup_delete_where; destruct (_ !! _) as [r|]; try done; simpl.
  - rewrite (proj2 (window_of_spec _ _ _)); [done|]. by exists k.
  - destruct (window_of _ _) eqn:Hw; [|done].
    apply window_of_spec in Hw as (k & Hk & Hin). by destruct (Hno k Hk).
  - rewrite (proj2 (silenced_spec _ _)); [done|]. exists k, id. by rewrite server_suppression_spec.
  - destruct (silenced _ _) eqn:Hs; [|done].
    apply silenced_spec in Hs as (k & id & Hid & Hn%server_suppression_spec). by destruct (Hno k id).
Qed.

Definition all_of (k : server_kind) (ids : list Z) (k' : server_kind) : list Z :=
  if decide (k' = k) then ids else [].

Lemma run_hard_delete_ids k ids s :
  wf (rel s) →
  ∃ s', run (for_each ids (hard_delete_by_id k)) s = (Ok (), s') ∧
    gone (all_of k ids) (rel s) (rel s') ∧ logins s' = logins s ∧
    alerts s' = forget (all_of k ids) (alerts s).
Proof.
  revert s. induction ids as [|id ids IH]; intros s Hwf.
  { assert (∀ k' i, in_ids [] i = in_ids (all_of k [] k') i) as Hnil
      by (intros k' i; unfold all_of; by destruct (decide (k' = k))).
    exists s. split_and!; [done| |done|].
    - eapply gone_ext; [|by apply gone_nil]. done.
    - rewrite <-(forget_ext (λ _, []) _ _ Hnil). by rewrite forget_nil. }
  destruct (run_hard_delete_by_id k id s Hwf) as (db1 & Hfl & Hrun).
  pose proof (gone_only k id (rel s) db1 Hwf Hfl) as H1.
  set (s1 := {| rel := db1; alerts := alerts_without k id (alerts s); logins := logins s |}) in *.
  destruct (IH s1) as (s' & Hrun' & H2 & Hl & Ha); [apply H1|].
  assert (∀ k' i, in_ids (only k id k' ++ all_of k ids k') i = in_ids (all_of k (id :: ids) k') i)
    as Hids by (intros k' i; unfold only, all_of; by destruct (decide (k' = k))).
  exists s'. split_and!; [|..].
  - cbn [for_each]. by rewrite run_bind, Hrun.
  - eapply gone_ext; [|exact (gone_trans _ _ _ _ _ H1 H2)]. done.
  - done.
  - rewrite Ha. unfold s1. cbn [alerts]. by rewrite forget_only, forget_app, (forget_ext _ _ _ Hids).
Qed.

Section removal.
Context `{!SqlOrder}.

Lemma in_server_ids k cond db i :
  in_ids (server_ids k cond db) i = true ↔
  ∃ r, r ∈ in_order (Servers k) db ∧ cond r = true ∧ sr_ID r = i.
Proof.
  rewrite in_ids_spec. unfold server_ids. rewrite list_elem_of_fmap. split.
  - intros (r & -> & (j & Hr & Hc)%(select_out (Servers k))). exists r.
    split_and!; [|done|done]. apply (elem_of_in_order (Servers k)). eauto.
  - intros (r & [j Hr]%(elem_of_in_order (Servers k)) & Hc & <-). exists r. split; [done|].
    by apply (select_in (Servers k)) with j.
Qed.

Lemma run_hard_delete_where k cond s :
  wf (rel s) →
  ∃ s', run (hard_delete_where k cond) s = (Ok (), s') ∧
    gone (all_of k (server_ids k cond (rel s))) (rel s) (rel s') ∧ logins s' = logins s ∧
    alerts s' = forget (all_of k (server_ids k cond (rel s))) (alerts s).
Proof.
  intros Hwf. destruct (run_hard_delete_ids k (server_ids k cond (rel s)) s Hwf)
    as (s' & Hrun & Hg & Hl & Ha).
  exists s'. split_and!; [|done|done|done]. unfold hard_delete_where, serverIDs.
  rewrite run_bind, run_on_rel, run_query. by destruct s.
Qed.

(** A removal by a first condition, then one by a second. *)
Lemma in_server_ids_gone ids k cond db db' i :
  gone ids db db' →
  in_ids (server_ids k cond db') i = true ↔
  ∃ r, r ∈ in_order (Servers k) db ∧ in_ids (ids k) (sr_ID r) = false ∧ cond r = true ∧ sr_ID r = i.
Proof.
  intros Hg. rewrite in_server_ids. setoid_rewrite (gn_direct _ _ _ Hg (Servers k) eq_refl).
  setoid_rewrite elem_of_filter_bool. setoid_rewrite negb_true_iff.
  unfold owned. simpl. naive_solver.
Qed.

(** Removals of one kind after another. *)
Fixpoint delete_all (l : list (server_kind * (ServerRow → bool))) : prog Full () :=
  match l with
  | [] => mret ()
  | (k, cond) :: l => hard_delete_where k cond ≫= λ _, delete_all l
  end.

Definition victim (l : list (server_kind * (ServerRow → bool))) (k : server_kind)
    (r : ServerRow) : bool :=
  existsb (λ kc, bool_decide (kc.1 = k) && kc.2 r) l.

(** The servers of two removals, one after the other. *)
Lemma victims_cons k cond l s1 db k' i :
  gone (all_of k (server_ids k cond db)) db s1 →
  in_ids (all_of k (server_ids k cond db) k' ++ server_ids k' (victim l k') s1) i =
  in_ids (server_ids k' (victim ((k, cond) :: l) k') db) i.
Proof.
  intros H1. unfold in_ids at 1. rewrite existsb_app.
  apply eq_bool_prop_intro. rewrite !Is_true_true, orb_true_iff.
  fold (in_ids (all_of k (server_ids k cond db) k') i).
  fold (in_ids (server_ids k' (victim l k') s1) i).
  rewrite (in_server_ids_gone _ _ _ _ _ _ H1), in_server_ids. unfold victim at 2. cbn [existsb fst snd].
  unfold all_of. setoid_rewrite orb_true_iff. setoid_rewrite andb_true_iff.
  setoid_rewrite bool_decide_eq_true. destruct (decide (k' = k)) as [->|Hne].
  - rewrite in_server_ids. split.
    + intros [(r & Hr & Hc & Hi)|(r & Hr & _ & Hc & Hi)]; exists r; auto.
    + intros (r & Hr & [[_ Hc]|Hc] & Hi); [left; eauto|].
      destruct (in_ids (server_ids k cond db) (sr_ID r)) eqn:Hin; [|right; eauto 10].
      left. rewrite Hi, in_server_ids in Hin. done.
  - split; [naive_solver|]. intros (r & Hr & [[-> _]|Hc] & Hi); [done|]. right. eauto 10.
Qed.

Lemma run_delete_all l s :
  wf (rel s) →
  let ids k := server_ids k (victim l k) (rel s) in
  ∃ s', run (delete_all l) s = (Ok (), s') ∧ logins s' = logins s ∧
    alerts s' = forget ids (alerts s) ∧ gone ids (rel s) (rel s').
Proof.
  cbv zeta. revert s. induction l as [|[k cond] l IH]; intros s Hwf.
  { assert (∀ k i, in_ids [] i = in_ids (server_ids k (victim [] k) (rel s)) i) as Hnil.
    { intros k i. symmetry. apply not_true_is_false. rewrite in_server_ids. naive_solver. }
    exists s. split_and!; [done|done| |].
    - by rewrite <-(forget_ext (λ _, []) _ _ Hnil), forget_nil.
    - eapply gone_ext; [|by apply gone_nil]. done. }
  destruct (run_hard_delete_where k cond s Hwf) as (s1 & Hrun1 & H1 & Hl1 & Ha1).
  destruct (IH s1) as (s' & Hrun & Hl & Ha & H2); [apply H1|].
  exists s'. split_and!; [cbn [delete_all]; by rewrite run_bind, Hrun1|congruence| |].
  - rewrite Ha, Ha1, forget_app. apply forget_ext. intros k' i. by apply victims_cons.
  - eapply gone_ext; [|exact (gone_trans _ _ _ _ _ H1 H2)]. intros k' i. by apply victims_cons.
Qed.
End removal.

Lemma strict_hard_delete_by_id k id : strict (hard_delete_by_id k id).
Proof.
  unfold hard_delete_by_id, run_steps, on_alerts, deleteAlertSuppressionsForServer.
  apply strict_bind; [|intros _; apply strict_lift, strict_wrap_err, strict_stmt].
  apply strict_for_each. intros [text []]; apply strict_wrap_err, strict_lift;
    [apply strict_bind; [apply strict_stmt|constructor]|apply strict_stmt].
Qed.

Section removal_spec.
Context `{!SqlOrder}.

Lemma strict_hard_delete_where k cond : strict (hard_delete_where k cond).
Proof.
  apply strict_bind; [apply strict_lift, strict_stmt|]. intros ids.
  apply strict_for_each. intros id. apply strict_hard_delete_by_id.
Qed.



Lemma run_last {T} (p : prog T ()) t : run (p ≫= λ _, mret ()) t = run p t.
Proof. rewrite run_bind. by destruct (run p t) as [[[]|e] t']. Qed.

Lemma run_next {T A} (o : result () * T) (f g : T → result A * T) :
  (∀ t, f t = g t) →
  (match o with (Ok _, t) => f t | (Err e, t) => (Err e, t) end) =
  (match o with (Ok _, t) => g t | (Err e, t) => (Err e, t) end).
Proof. intros Hfg. destruct o as [[[]|e] t]; [apply Hfg|done]. Qed.

(** A transaction whose body removes the servers [l] selects, one condition after
    another. *)
Lemma removal_tx (p : prog Full ()) l s :
  wf (rel s) → strict p → (run p s = run (delete_all l) s) →
  is_ok (run (tx p) s).1 = true ∧
  always (tx p) (λ r s',
    match r with
    | Ok _ => gone (λ k, server_ids k (victim l k) (rel s)) (rel s) (rel s') ∧
        logins s' = logins s ∧
        alerts s' = forget (λ k, server_ids k (victim l k) (rel s)) (alerts s)
    | Err _ => s' = s
    end) s.
Proof.
  intros Hwf Hstrict Hp. destruct (run_delete_all l s Hwf) as (s' & Hrun & Hl & Ha & Hg).
  assert (run (tx p) s = (Ok (), s')) as Hall by (by rewrite run_tx, Hp, Hrun).
  split; [by rewrite Hall|]. intros io.
  destruct (exec (tx p) io s) as [[[[]|e] s1] io'] eqn:Hx.
  - apply strict_Ok in Hx; [|by apply strict_tx]. rewrite Hall in Hx. by simplify_eq.
  - by apply exec_tx_atomic in Hx.
Qed.

Lemma server_ids_ext k c1 c2 db i :
  (∀ r, c1 r = c2 r) → in_ids (server_ids k c1 db) i = in_ids (server_ids k c2 db) i.
Proof.
  intros Hc. apply eq_bool_prop_intro. rewrite !Is_true_true, !in_server_ids.
  by setoid_rewrite Hc.
Qed.


End removal_spec.

Section by_name.
Context `{!SqlOrder}.

(** removing the data of a server name removes exactly the servers of that name, of
    every kind and whichever key they have, with everything that names them; every
    other server stays with its rows and its reports. *)
Theorem HardDeleteServerData_spec (serverName : string) (s : Full) :
  wf (rel s) →
  is_ok (run (HardDeleteServerData serverName) s).1 = true ∧
  always (HardDeleteServerData serverName) (λ r s',
    match r with
    | Ok _ =>
        let ids k := server_ids k (by_name serverName) (rel s) in
        gone ids (rel s) (rel s') ∧ forgotten ids (alerts s) (alerts s') ∧ logins s' = logins s
    | Err _ => s' = s
    end) s.
Proof.
  intros Hwf. set (l := (λ k, (k, by_name serverName)) <$> [PVE; PBS; Windows]).
  assert (∀ k r, victim l k r = by_name serverName r) as Hvic.
  { intros k r. unfold l. destruct k; simpl; by rewrite ?orb_false_r. }
  destruct (removal_tx (hardDeletePVE serverName ≫= λ _, hardDeletePBS serverName ≫= λ _,
      hardDeleteWindows serverName) l s Hwf) as [Hok Hal].
  - repeat (apply strict_bind; [apply strict_hard_delete_where|intros _]).
    apply strict_hard_delete_where.
  - unfold l, hardDeletePVE, hardDeletePBS, hardDeleteWindows. cbn [fmap list_fmap delete_all].
    repeat (rewrite run_bind, (run_bind (hard_delete_where _ _)); apply run_next; intros ?).
    symmetry. apply run_last.
  - split; [done|]. eapply always_mono; [exact Hal|]. intros [[]|e] s'; [|done].
    intros (Hg & Hl & Ha). split_and!; [|rewrite Ha; erewrite forget_ext; [apply forget_forgotten|]|done].
    + eapply gone_ext; [|exact Hg]. intros k i. by apply server_ids_ext.
    + intros k i. by apply server_ids_ext.
Qed.
End by_name.

(** ** The suppressions of a server *)

(** The identifier of an alert names its server between colons. *)
Definition alert_of (kind : string) (k : server_kind) (id : Z) : string :=
  kind +:+ ":" +:+ kind_name k +:+ ":" +:+ Itoa id.

(** with a server go the suppressions of its alerts, the server's own and those of
    its parts, and no suppression of another server's own alert: server 1 of one kind
    does not take those of server 11, nor those of server 1 of another kind. *)
Theorem suppressions_of_server (k k' : server_kind) (id id' : Z) (kind rest : string) :
  server_suppression (kind_name k) id (alert_of kind k id) = true ∧
  server_suppression (kind_name k) id (alert_of kind k id +:+ ":" +:+ rest) = true ∧
  (has_byte ":" kind = false → (k', id') ≠ (k, id) →
   server_suppression (kind_name k) id (alert_of kind k' id') = false).
Proof.
  set (q := ":" +:+ kind_name k +:+ ":" +:+ Itoa id).
  pose proof (literal_server k id) as Hlit. fold q in Hlit.
  rewrite !server_suppression_patterns. fold q. split_and!.
  - unfold alert_of. fold q. rewrite like_any; [done|].
    rewrite <-(app_nil_r_str q) at 1. rewrite <-(app_nil_r_str q) at 2. by apply like_literal.
  - apply orb_true_iff. right. unfold alert_of. rewrite app_assoc_str. fold q.
    apply like_any, like_literal; [done|]. 
    change (like (String "%"%char "") rest = true). rewrite <-(app_nil_r_str rest). by apply like_any.
  - intros Hkind Hne.
    assert (colons (alert_of kind k' id') = 2%nat) as Hcol.
    { unfold alert_of. by rewrite colons_app, colons_server, colons_none. }
    apply not_true_is_false. intros [Hm|Hm]%orb_true_iff;
      apply like_any_inv in Hm as (a & t & Ha & Hm).
    + rewrite <-(app_nil_r_str q) in Hm. apply like_literal_inv in Hm as (t1 & t2 & -> & Ht & Hn);
        [|done]. destruct t2; [|done]. rewrite app_nil_r_str in Ha. apply Hne.
      assert (colons t1 = 2%nat) as Ht1 by (rewrite <-colons_lower, Ht, colons_lower; apply colons_server).
      assert (has_byte ":" a = false) as Hna.
      { apply colons_zero. rewrite Ha, colons_app in Hcol. lia. }
      apply (f_equal lower_str) in Ha. unfold alert_of, q in *. rewrite !lower_app, Ht in Ha.
      rewrite !lower_app in Ha. change (lower_str ":") with ":" in Ha.
      rewrite !app_cons_str, !app_nil_l_str in Ha.
      apply (app_sep_inj ":"%char) in Ha as [_ Ha];
        [|by apply colons_zero; rewrite colons_lower; apply colons_none
         |by apply colons_zero; rewrite colons_lower; apply colons_none].
      revert Ha. destruct k', k; simpl; intros [=]; rewrite !lower_Itoa in *; f_equal;
        by apply (inj Itoa).
    + apply like_literal_inv in Hm as (t1 & t2 & -> & Ht & Hn); [|done].
      rewrite like_cons in Hn by done. destruct t2 as [|d t2]; [done|].
      apply andb_true_iff in Hn as [Hd%bool_decide_eq_true _]. symmetry in Hd.
      apply lower_ascii_colon in Hd as ->.
      assert (colons t1 = 2%nat) as Ht1 by (rewrite <-colons_lower, Ht, colons_lower; apply colons_server).
      rewrite Ha, !colons_app, Ht1 in Hcol. simpl in Hcol. lia.
Qed.

(** ** Examples *)

Module RemovalExamples.
(** Key 8 owns the second of the two PVE servers named [pve1]; the first one reports. *)
Definition db : DB :=
  (run (PveReports.SavePVEReportForAPIKey (10 * Second) (PveExamples.request "a") 7) SettingsExamples.db2).2.

Definition state : Full :=
  {| rel := db;
     alerts := {| states := ∅; events := []; next_event := 1; deliveries := ∅; destinations := [];
       suppressions := {[ "disk:pve:2:local" := (5, "") ]}; maintenances := ∅; batch := None |};
     logins := {| log_rows := []; log_last := 0 |} |}.

Lemma wf_state : wf (rel state).
Proof.
  apply wf_run; [apply PveExamples.preserves_SavePVEReportForAPIKey|apply SettingsExamples.wf_settings_db2].
Qed.
End RemovalExamples.

Import RemovalExamples.


Lemma HardDeleteServerData_spec_witness :
  is_ok (run (HardDeleteServerData "pve1") state).1 = true ∧
  len (in_order (Servers PVE) (rel (run (HardDeleteServerData "pve1") state).2)) = 0 ∧
  len (in_order (Servers PBS) (rel (run (HardDeleteServerData "pve1") state).2)) = 1.
Proof.
  split; [|split; vm_compute; reflexivity].
  apply (HardDeleteServerData_spec "pve1" state wf_state).
Defined.

Lemma suppressions_of_server_witness :
  server_suppression "pve" 1 "disk:pve:1:local" = true ∧
  server_suppression "pve" 1 "pve_stale:pve:11" = false.
Proof.
  split.
  - apply (suppressions_of_server PVE PVE 1 11 "disk" "local").
  - by apply (suppressions_of_server PVE PVE 1 11 "pve_stale" "").
Defined.
