(* ===== verification/Retention.v ===== *)
(** * The login log and the retention of old data

    [internal/store/ip_bans.go] keeps the log of login attempts;
    [internal/service/cleanup.go] prunes it, the reports and the history of alerts
    once a day. *)
From Stdlib Require Import Ascii.
From S2P Require Import Prelude GoStrings GoUtf8 GoNum GoTime Domain Validation Sql AlertState Relational Schema Servers Reports PveReports PbsReports WindowsReports Batches Settings Removal.

(** ** The login log *)

Definition maxLoginAttemptUsernameLength : Z := 128.
Definition maxLoginAttemptUserAgentLength : Z := 512.
Definition maxLoginAttemptIPLength : Z := 64.

(** [for i := range value]: [skip] bytes of the current rune are left. *)
Fixpoint truncate_from (skip : nat) (count max : Z) (value : string) : string :=
  match value with
  | EmptyString => EmptyString
  | String a s =>
      match skip with
      | S skip => String a (truncate_from skip count max s)
      | O => if count =? max then EmptyString
             else String a (truncate_from (rune_tail a s) (count + 1) max s)
      end
  end.

Definition truncateRunes (value : string) (max : Z) : string := truncate_from 0 0 max value.

Definition InsertLoginAttempt (now : Time) (username ip userAgent clientDetails res reason : string) :
    prog LoginLog () :=
  exec_sql (λ l, {|
    log_rows := log_rows l ++ [{| la_ID := log_last l + 1;
      la_Username := truncateRunes username maxLoginAttemptUsernameLength;
      la_IP := truncateRunes ip maxLoginAttemptIPLength;
      la_UserAgent := truncateRunes userAgent maxLoginAttemptUserAgentLength;
      la_ClientDetails := clientDetails; la_Result := res; la_Reason := reason;
      la_AttemptedAt := sqliteUTC now |}];
    log_last := log_last l + 1 |}).

Definition old_attempt (cutoff : Time) (a : LoginAttempt) : bool :=
  la_AttemptedAt a <? sqliteUTC cutoff.

Definition DeleteOldLoginAttempts (cutoff : Time) : prog LoginLog Z :=
  stmt (λ l, Ok (Z.of_nat (length (List.filter (old_attempt cutoff) (log_rows l))),
    {| log_rows := List.filter (λ a, negb (old_attempt cutoff a)) (log_rows l);
       log_last := log_last l |})).

(** [ORDER BY attempted_at DESC, id DESC]. *)
Definition newest_attempt (a1 a2 : LoginAttempt) : bool :=
  if la_AttemptedAt a1 =? la_AttemptedAt a2 then la_ID a2 <=? la_ID a1
  else la_AttemptedAt a2 <=? la_AttemptedAt a1.

Section login_log.
Context `{!SqlOrder}.

Definition ListLoginAttemptsPage (limit offset : Z) (l : LoginLog) : list LoginAttempt :=
  limit_offset (if limit <=? 0 then 50 else limit) (if offset <? 0 then 0 else offset)
    (order_by newest_attempt (log_rows l)).

Definition ListLoginAttempts (limit : Z) (l : LoginLog) : list LoginAttempt :=
  ListLoginAttemptsPage limit 0 l.
End login_log.

(** ** [cleanup.go] *)

(** An error is logged, and the next step is taken. *)
Definition logged {T A} (p : prog T A) : prog T () := andThen p (λ _, mret ()).

(** [cfg] is the answer of [GetEmailConfig], [now] and [loc] the clock and
    [time.Local]. *)
Definition runCleanup (loc : Location) (now : Time) (cfg : result EmailConfig) : prog Full () :=
  match cfg with
  | Err _ => mret ()
  | Ok cfg =>
      if negb (ec_RetentionEnabled cfg) || (ec_RetentionMonths cfg <=? 0) then mret () else
      let cutoff := AddMonths loc now (- ec_RetentionMonths cfg) in
      logged (on_rel (DeleteOldPVEReports cutoff)) ≫= λ _,
      logged (on_rel (DeleteOldPBSReports cutoff)) ≫= λ _,
      logged (on_rel (DeleteOldWindowsReports cutoff)) ≫= λ _,
      logged (on_logins (DeleteOldLoginAttempts cutoff)) ≫= λ _,
      logged (on_alerts (DeleteOldAlertHistory cutoff))
  end.

(** ** Lemmas *)

Lemma truncate_prefix skip count max s :
  ∃ r, s = truncate_from skip count max s +:+ r.
Proof.
  revert skip count. induction s as [|a s IH]; intros skip count; [by exists ""|].
  destruct skip as [|skip]; simpl.
  - destruct (count =? max); [by exists (String a s)|].
    destruct (IH (rune_tail a s) (count + 1)) as [r Hr]. exists r. by rewrite app_cons_str, <-Hr.
  - destruct (IH skip count) as [r Hr]. exists r. by rewrite app_cons_str, <-Hr.
Qed.

(** A rune that starts before the cut is whole. *)
Lemma truncate_skip n count max s :
  all_cont n s = true → all_cont n (truncate_from n count max s) = true.
Proof.
  revert s. induction n as [|n IH]; intros [|c s]; simpl; try done.
  intros [Hc Hn]%andb_true_iff. rewrite Hc. by apply IH.
Qed.

Lemma rune_tail_truncate a s count max :
  rune_tail a (truncate_from (rune_tail a s) count max s) = rune_tail a s.
Proof.
  destruct (rune_tail a s) as [|n] eqn:Ht.
  - destruct (truncate_prefix 0 count max s) as [r Hr].
    destruct (rune_tail_app a (truncate_from 0 count max s) r) as [He|He]; [|done].
    rewrite <-Hr, Ht in He. done.
  - pose proof (rune_tail_cont a s) as Hc. rewrite Ht in Hc.
    pose proof (truncate_skip (S n) count max s Hc) as Hc'.
    destruct s as [|b s]; [done|]. cbn [truncate_from] in *. unfold rune_tail in *.
    destruct (lead_size (byte a)) as [|m]; [done|].
    destruct (second_ok (byte a) (byte b)); [|done]. cbn [andb] in *.
    destruct (all_cont m (String b s)); [|done]. subst m. by rewrite Hc'.
Qed.

Lemma truncate_count skip count max s :
  count ≤ max → count_from skip (truncate_from skip count max s) ≤ max - count.
Proof.
  revert skip count. induction s as [|a s IH]; intros skip count Hle; [simpl; lia|].
  destruct skip as [|skip]; simpl.
  - destruct (Z.eqb_spec count max) as [|Hne]; [simpl; lia|]. simpl.
    rewrite rune_tail_truncate. specialize (IH (rune_tail a s) (count + 1)). lia.
  - by apply IH.
Qed.

Lemma truncate_short skip count max s :
  count_from skip s ≤ max - count → truncate_from skip count max s = s.
Proof.
  revert skip count. induction s as [|a s IH]; intros skip count Hle; [done|].
  destruct skip as [|skip]; simpl in *.
  - pose proof (count_from_nonneg (rune_tail a s) s).
    destruct (Z.eqb_spec count max) as [|Hne]; [lia|]. rewrite IH; [done|lia].
  - by rewrite IH.
Qed.

(** the text of a login attempt is kept as it is when it has at most [max]
    characters; else it is cut after the first ones, between two characters, so at
    most [max] of them are stored whatever a client sends. *)
Theorem truncateRunes_spec (value : string) (max : Z) :
  0 ≤ max →
  RuneCount (truncateRunes value max) ≤ max ∧
  (∃ rest, value = truncateRunes value max +:+ rest) ∧
  (RuneCount value ≤ max → truncateRunes value max = value).
Proof.
  intros Hmax. split_and!.
  - unfold RuneCount, truncateRunes. pose proof (truncate_count 0 0 max value Hmax). lia.
  - apply truncate_prefix.
  - intros Hc. apply truncate_short. unfold RuneCount in Hc. lia.
Qed.

(** ** Retention *)

Lemma exec_logged {T A} (p : prog T A) io t :
  exec (logged p) io t = let '(_, t', io') := exec p io t in (Ok (), t', io').
Proof. unfold logged. rewrite exec_andThen. by destruct (exec p io t) as [[[a|e] t'] io']. Qed.

Lemma exec_logged_then {T A B} (p : prog T A) (q : prog T B) io t :
  exec (logged p ≫= λ _, q) io t = let '(_, t1, io1) := exec p io t in exec q io1 t1.
Proof.
  unfold mbind, prog_bind. rewrite exec_andThen, exec_logged.
  by destruct (exec p io t) as [[r t1] io1].
Qed.

(** A step pruned what is old, unless the driver failed. *)
Definition pruned {A} (io : list (option error)) (old : A → bool) (l l' : list A) : Prop :=
  l' = List.filter (λ x, negb (old x)) l ∨ io ≠ [] ∧ l' = l.

Record cleaned (io : list (option error)) (cutoff : Time) (s s' : Full) : Prop := {
  cl_wf : wf (rel s');
  cl_pve : pruned io (λ r, is_old PVE cutoff (spv_Report r))
    (pve_reports (rel s)) (pve_reports (rel s'));
  cl_pbs : pruned io (λ r, is_old PBS cutoff (spb_Report r))
    (pbs_reports (rel s)) (pbs_reports (rel s'));
  cl_windows : pruned io (λ r, is_old Windows cutoff (spw_Report r))
    (windows_reports (rel s)) (windows_reports (rel s'));
  cl_other : ∀ t, t ∉ pve_tables → t ∉ pbs_tables → t ∉ windows_tables → rel s' t = rel s t;
  cl_logins : pruned io (old_attempt cutoff) (log_rows (logins s)) (log_rows (logins s'));
  cl_alerts : alerts s' = (run (DeleteOldAlertHistory cutoff) (alerts s)).2 ∨
    io ≠ [] ∧ alerts s' = alerts s }.

Lemma no_faults {T A} (p : prog T A) io t r t' io' :
  exec p io t = (r, t', io') → io' ≠ [] → io ≠ [].
Proof.
  intros Hx Hio' ->. pose proof (exec_no_faults p t) as Hn. rewrite Hx in Hn. by apply Hio'.
Qed.

Lemma exec_on_rel {A} (p : prog DB A) io s :
  exec (on_rel p) io s = let '(r, db, io') := exec p io (rel s) in (r, set_rel db s, io').
Proof. unfold on_rel. rewrite exec_lift; [done|done|by intros []|done]. Qed.

(** One step on the tables of reports. *)
Lemma prune_step {A} (p : prog DB Z) (reports : DB → list A) (old : A → bool)
    (tables : list tbl) io s r s1 io1 :
  is_ok (run p (rel s)).1 = true →
  always p (λ r db', wf db' ∧
    match r with
    | Ok n => n = len (List.filter old (reports (rel s))) ∧
        reports db' = List.filter (λ x, negb (old x)) (reports (rel s)) ∧
        ∀ t, t ∉ tables → db' t = rel s t
    | Err _ => db' = rel s
    end) (rel s) →
  exec (on_rel p) io s = (r, s1, io1) →
  wf (rel s1) ∧ pruned io old (reports (rel s)) (reports (rel s1)) ∧
  (∀ t, t ∉ tables → rel s1 t = rel s t) ∧ alerts s1 = alerts s ∧ logins s1 = logins s.
Proof.
  intros Hok Hal. specialize (Hal io). rewrite exec_on_rel.
  destruct (exec p io (rel s)) as [[r' db'] io'] eqn:Hx. intros [= <- <- <-]. simpl.
  destruct Hal as [Hwf Hr]. destruct r' as [n|e].
  - destruct Hr as (_ & Hr & Ho). split_and!; try done. by left.
  - subst db'. split_and!; try done. right. split; [|done]. intros ->.
    unfold run in Hok. by rewrite Hx in Hok.
Qed.

Lemma strict_DeleteOldAlertHistory cutoff : strict (DeleteOldAlertHistory cutoff).
Proof.
  unfold DeleteOldAlertHistory. apply strict_tx, strict_bind; [apply strict_wrap_err, strict_stmt|].
  intros n. apply strict_bind; [apply strict_wrap_err, strict_stmt|constructor].
Qed.

Lemma clean_alerts cutoff io s r s1 io1 :
  exec (on_alerts (DeleteOldAlertHistory cutoff)) io s = (r, s1, io1) →
  rel s1 = rel s ∧ logins s1 = logins s ∧
  (alerts s1 = (run (DeleteOldAlertHistory cutoff) (alerts s)).2 ∨ io ≠ [] ∧ alerts s1 = alerts s).
Proof.
  unfold on_alerts. rewrite exec_lift; [|done|by intros []|done].
  destruct (exec (DeleteOldAlertHistory cutoff) io (alerts s)) as [[r' t'] io'] eqn:Hx.
  intros [= <- <- <-]. split_and!; [done|done|]. cbn [alerts set_alerts]. destruct r' as [n|e].
  - left. by rewrite (strict_Ok _ _ _ _ _ _ (strict_DeleteOldAlertHistory cutoff) Hx).
  - right. split; [|by eapply exec_tx_atomic]. by intros ->.
Qed.

Lemma clean_logins cutoff io s r s1 io1 :
  exec (on_logins (DeleteOldLoginAttempts cutoff)) io s = (r, s1, io1) →
  rel s1 = rel s ∧ alerts s1 = alerts s ∧
  pruned io (old_attempt cutoff) (log_rows (logins s)) (log_rows (logins s1)).
Proof.
  unfold on_logins. rewrite exec_lift; [|done|by intros []|done].
  unfold DeleteOldLoginAttempts, stmt. cbn [exec].
  destruct (fault io) eqn:Hf; intros [= <- <- <-]; split_and!; try done.
  - right. split; [by intros ->|done].
  - by left.
Qed.

(** The kinds of reports have no table in common. *)
Lemma disjoint_tables (l1 l2 : list tbl) :
  bool_decide (Forall (λ t, t ∉ l2) l1) = true → ∀ t, t ∈ l1 → t ∉ l2.
Proof. rewrite bool_decide_eq_true, Forall_forall. auto. Qed.

Lemma pve_not_pbs t : t ∈ pve_tables → t ∉ pbs_tables.
Proof. by apply disjoint_tables. Qed.

Lemma pve_not_windows t : t ∈ pve_tables → t ∉ windows_tables.
Proof. by apply disjoint_tables. Qed.

Lemma pbs_not_pve t : t ∈ pbs_tables → t ∉ pve_tables.
Proof. by apply disjoint_tables. Qed.

Lemma pbs_not_windows t : t ∈ pbs_tables → t ∉ windows_tables.
Proof. by apply disjoint_tables. Qed.

Lemma windows_not_pve t : t ∈ windows_tables → t ∉ pve_tables.
Proof. by apply disjoint_tables. Qed.

Lemma windows_not_pbs t : t ∈ windows_tables → t ∉ pbs_tables.
Proof. by apply disjoint_tables. Qed.

(** What a later step did, the driver's answers being those left by the earlier ones. *)
Lemma pruned_earlier {A} io io' (old : A → bool) l l' :
  (io' ≠ [] → io ≠ []) → pruned io' old l l' → pruned io old l l'.
Proof. intros Hne [Hl|[Hf Hl]]; [by left|right; auto]. Qed.

(** with retention on, the cleanup runs all its steps whatever fails: the reports of
    each kind, the login log and the alert history lose exactly what is older than the
    cutoff, [ec_RetentionMonths] months back, or, where the driver failed, nothing at
    all; servers, keys, settings and everything else stay as they were. *)
Theorem runCleanup_spec (loc : Location) (now : Time) (cfg : EmailConfig)
    (io : list (option error)) (s : Full) :
  wf (rel s) → ec_RetentionEnabled cfg = true → 0 < ec_RetentionMonths cfg →
  let '(r, s', _) := exec (runCleanup loc now (Ok cfg)) io s in
  r = Ok () ∧ cleaned io (AddMonths loc now (- ec_RetentionMonths cfg)) s s'.
Proof.
  intros Hwf He Hm. unfold runCleanup. rewrite He, (proj2 (Z.leb_gt _ _) Hm). cbn [negb orb].
  set (cutoff := AddMonths loc now (- ec_RetentionMonths cfg)).
  rewrite exec_logged_then.
  destruct (exec (on_rel (DeleteOldPVEReports cutoff)) io s) as [[r1 s1] io1] eqn:X1.
  destruct (prune_step (DeleteOldPVEReports cutoff) pve_reports _ pve_tables io s r1 s1 io1
    (proj1 (DeleteOldPVEReports_step cutoff (rel s) Hwf))
    (proj2 (DeleteOldPVEReports_step cutoff (rel s) Hwf)) X1) as (W1 & P1 & O1 & A1 & L1).
  pose proof (no_faults _ _ _ _ _ _ X1) as N1. rewrite exec_logged_then.
  destruct (exec (on_rel (DeleteOldPBSReports cutoff)) io1 s1) as [[r2 s2] io2] eqn:X2.
  destruct (prune_step (DeleteOldPBSReports cutoff) pbs_reports _ pbs_tables io1 s1 r2 s2 io2
    (proj1 (DeleteOldPBSReports_step cutoff (rel s1) W1))
    (proj2 (DeleteOldPBSReports_step cutoff (rel s1) W1)) X2) as (W2 & P2 & O2 & A2 & L2).
  pose proof (no_faults _ _ _ _ _ _ X2) as N2. rewrite exec_logged_then.
  destruct (exec (on_rel (DeleteOldWindowsReports cutoff)) io2 s2) as [[r3 s3] io3] eqn:X3.
  destruct (prune_step (DeleteOldWindowsReports cutoff) windows_reports _ windows_tables
    io2 s2 r3 s3 io3 (proj1 (DeleteOldWindowsReports_step cutoff (rel s2) W2))
    (proj2 (DeleteOldWindowsReports_step cutoff (rel s2) W2)) X3) as (W3 & P3 & O3 & A3 & L3).
  pose proof (no_faults _ _ _ _ _ _ X3) as N3. rewrite exec_logged_then.
  destruct (exec (on_logins (DeleteOldLoginAttempts cutoff)) io3 s3) as [[r4 s4] io4] eqn:X4.
  pose proof (clean_logins cutoff io3 s3 r4 s4 io4 X4) as (R4 & A4 & L4).
  pose proof (no_faults _ _ _ _ _ _ X4) as N4. rewrite exec_logged.
  destruct (exec (on_alerts (DeleteOldAlertHistory cutoff)) io4 s4) as [[r5 s5] io5] eqn:X5.
  pose proof (clean_alerts cutoff io4 s4 r5 s5 io5 X5) as (R5 & L5 & A5).
  assert (∀ t, t ∉ pbs_tables → t ∉ windows_tables → rel s5 t = rel s1 t) as Oa.
  { intros t H2 H3. by rewrite R5, R4, O3, O2. }
  assert (∀ t, t ∉ windows_tables → rel s5 t = rel s2 t) as Ob.
  { intros t H3. by rewrite R5, R4, O3. }
  split; [done|]. split.
  - by rewrite R5, R4.
  - rewrite (pve_reports_frame (rel s1) (rel s5)); [done|].
    intros t Ht. apply Oa; [by apply pve_not_pbs|by apply pve_not_windows].
  - apply (pruned_earlier io io1); [done|]. rewrite (pbs_reports_frame (rel s2) (rel s5)).
    + rewrite <-(pbs_reports_frame (rel s) (rel s1)); [done|].
      intros t Ht. by apply O1, pbs_not_pve.
    + intros t Ht. by apply Ob, pbs_not_windows.
  - apply (pruned_earlier io io2); [auto|]. rewrite R5, R4.
    rewrite <-(windows_reports_frame (rel s) (rel s2)); [done|]. intros t Ht.
    rewrite O2 by (by apply windows_not_pbs). by apply O1, windows_not_pve.
  - intros t H1 H2 H3. by rewrite Oa, O1.
  - apply (pruned_earlier io io3); [auto|]. rewrite L5. by rewrite <-L1, <-L2, <-L3.
  - rewrite A4, A3, A2, A1 in A5. destruct A5 as [A5|[Hne A5]]; [by left|right; auto 8].
Qed.

(** with retention off, or without a configuration, the cleanup does nothing. *)
Theorem runCleanup_off (loc : Location) (now : Time) (cfg : result EmailConfig)
    (io : list (option error)) (s : Full) :
  (∀ c, cfg = Ok c → ec_RetentionEnabled c = false ∨ ec_RetentionMonths c ≤ 0) →
  exec (runCleanup loc now cfg) io s = (Ok (), s, io).
Proof.
  intros Hoff. unfold runCleanup. destruct cfg as [c|e]; [|done].
  destruct (Hoff c eq_refl) as [->|Hm]; [done|].
  rewrite (proj2 (Z.leb_le _ _) Hm). by rewrite orb_true_r.
Qed.

(** ** Examples *)

Module RetentionExamples.
Definition config (enabled : bool) : EmailConfig := {|
  ec_ID := 1; ec_SMTPHost := ""; ec_SMTPPort := 0; ec_SMTPUser := ""; ec_SMTPPass := "";
  ec_Recipients := ""; ec_IsEnabled := false; ec_SendTime := "08:00"; ec_RetentionMonths := 3;
  ec_RetentionEnabled := enabled; ec_AlertDiskPct := 85; ec_AlertWindowsDiskPct := 90;
  ec_AlertBackupErr := true; ec_AlertPBSStaleHours := 48;
  ec_AlertPVEExpectedFinishTime := "10:00"; ec_PublicAPIURL := ""; ec_VPNOnlyAccess := false;
  ec_AlertPVEHeartbeatMinutes := 15; ec_AlertEmailBatchMinutes := 0;
  ec_CriticalAlertsEnabled := false; ec_EnforceTOTPNonReaders := false;
  ec_SensitiveActionsRequireTOTP := false |}.

(** Four months after the report of the example; the first statement fails. *)
Definition later : Time := 10368000 * Second.
Definition faults : list (option error) := [None; Some (ErrMsg "disk I/O error")].
End RetentionExamples.

Import RetentionExamples.

Lemma truncateRunes_spec_witness :
  RuneCount (truncateRunes "administrador" 5) ≤ 5 ∧ truncateRunes "administrador" 5 = "admin".
Proof. split; [by apply (truncateRunes_spec "administrador" 5)|reflexivity]. Defined.

(** The report of a silent server goes too, its only one. *)
Lemma runCleanup_spec_witness :
  cleaned [] (AddMonths UTC later (-3)) RemovalExamples.state
    (exec (runCleanup UTC later (Ok (config true))) [] RemovalExamples.state).1.2 ∧
  pve_reports (rel (exec (runCleanup UTC later (Ok (config true))) [] RemovalExamples.state).1.2)
    = [] ∧
  len (pve_reports (rel (exec (runCleanup UTC later (Ok (config true))) faults
    RemovalExamples.state).1.2)) = 1.
Proof.
  split; [|split; vm_compute; reflexivity].
  pose proof (runCleanup_spec UTC later (config true) [] RemovalExamples.state
    RemovalExamples.wf_state eq_refl ltac:(simpl; lia)) as Hspec.
  destruct (exec _ [] RemovalExamples.state) as [[r s'] io']. apply Hspec.
Defined.

Lemma runCleanup_off_witness :
  exec (runCleanup UTC later (Ok (config false))) [] RemovalExamples.state =
  (Ok (), RemovalExamples.state, []).
Proof. apply runCleanup_off. intros c [= <-]. by left. Defined.
