(* ===== verification/Api.v ===== *)
(** * The server API: [internal/api]

    [middleware.go] and [router.go] check the key of a request, [handlers/authz.go]
    binds the key to one server name, and the handlers of [report.go], [heartbeat.go],
    [server.go] and [backup.go] call the store.  A handler is a program on [Api] that
    answers a [Response]; the body of the request is an argument, already decoded
    ([Err] is what [decodeJSONBody] answers for any other text).

    The theorems: however the requests of one key interleave, those that are let
    through come from one machine and name one server; a report is accepted only when
    it is stored; reads change nothing; and no request touches a server of another
    key. *)
From Stdlib Require Import Ascii.
From S2P Require Import Prelude GoStrings GoUtf8 GoNum GoTime Domain StoreReads Staleness Sql SqlText Interleave Limiter Validation Secrets Relational Schema Servers Keys Reports PveReports PbsReports WindowsReports Batches Settings.

(** ** Responses *)

Record VMBackupConfigResponse := {
  vcresp_ID : Z; vcresp_ServerName : string; vcresp_VMID : string; vcresp_VMName : string;
  vcresp_Monday : bool; vcresp_Tuesday : bool; vcresp_Wednesday : bool;
  vcresp_Thursday : bool; vcresp_Friday : bool; vcresp_Saturday : bool;
  vcresp_Sunday : bool; vcresp_IsExcluded : bool }.

Inductive Body : Type :=
| BError (msg : string)
| BStatus (fields : list (string * string))
| BId (id : Z)
| BPVEServers (servers : list PVEServerResponse)
| BPBSServers (servers : list PBSServerResponse)
| BReports (server : PVEServerResponse) (reports : list PVEReport)
| BConfigs (server : string) (configs : list VMBackupConfigResponse).

Record Response := { code : Z; body : Body }.

Definition writeJSON (code : Z) (b : Body) : Response := {| code := code; body := b |}.
Definition errJSON (code : Z) (msg : string) : Response := writeJSON code (BError msg).
Definition internalErr : Response := errJSON 500 "internal server error".

(** ** The state of the server *)

(** [a_queue] is whether [alertQueue], of capacity one, holds a value; [a_limiter] the
    counters of [clientLimiter]. *)
Record Api := { a_db : DB; a_queue : bool; a_limiter : Buckets }.

Definition set_db (db : DB) (s : Api) : Api :=
  {| a_db := db; a_queue := a_queue s; a_limiter := a_limiter s |}.

Definition on_db {A} (p : prog DB A) : prog Api A := lift a_db set_db p.

Lemma always_on_db {A} (p : prog DB A) (Q : result A → Api → Prop) s :
  always p (λ r db, Q r (set_db db s)) (a_db s) → always (on_db p) Q s.
Proof. by apply always_lift; [|intros []|]. Qed.

(** [if err != nil { write(resp); return }]. *)
Definition check {A} (p : prog Api A) (resp : error → Response) (k : A → prog Api Response) :
    prog Api Response :=
  andThen p (λ r, match r with Ok a => k a | Err e => mret (resp e) end).

(** The [select] with [default]: a full queue is left as it is. *)
Definition queue_alerts : prog Api () :=
  modify (λ s, {| a_db := a_db s; a_queue := true; a_limiter := a_limiter s |}).

(** [ratelimit.New(300, time.Minute)]. *)
Definition clientLimiter : Limiter := {| max := 300; window := Minute |}.

Definition allow_client (now : Time) (id : Z) : prog Api bool :=
  local (λ s, let '(ok, m) := AllowKey clientLimiter (Itoa id) now (a_limiter s) in
    (ok, {| a_db := a_db s; a_queue := a_queue s; a_limiter := m |})).

(** ** [authz.go] *)

Definition bound_elsewhere (bound serverName : string) : Response :=
  errJSON 403 ("API key is bound to a different server: expected " +:+ Quote bound +:+
    ", got " +:+ Quote serverName).

Definition with_server (serverName : string) (k : APIKey) : APIKey :=
  {| key_ID := key_ID k; key_Key := key_Key k; key_Name := key_Name k;
     key_KeyType := key_KeyType k; key_IsActive := key_IsActive k;
     key_MachineID := key_MachineID k; key_LastUsed := key_LastUsed k;
     key_ServerName := serverName; key_ServerURL := key_ServerURL k;
     key_CreatedAt := key_CreatedAt k |}.

(** [validVMID]: the text of a number from 100 to 999999999. *)
Definition validVMID (vmid : string) : bool :=
  let '(n, ok) := ParseInt vmid in
  ok && (100 <=? n) && (n <=? 999999999) && str_eqb (Itoa n) vmid.

(** [Some] is the response already written. *)
Definition keyMayReadServer (k : APIKey) (serverName : string) : option Response :=
  let serverName := TrimSpace serverName in
  if str_empty serverName then Some (errJSON 400 "server name is required") else
  let bound := TrimSpace (key_ServerName k) in
  if negb (str_empty bound) && negb (str_eqb bound serverName)
  then Some (bound_elsewhere bound serverName) else None.

(** The end of [requireKeyServer]. *)
Definition check_bound (k : APIKey) (serverName : string) : APIKey + Response :=
  let bound := TrimSpace (key_ServerName k) in
  if negb (str_eqb bound serverName) then inr (bound_elsewhere bound serverName) else inl k.

Section api.
Context `{!Crypto, !SqlOrder, !MapRange}.
Context (secrets : option Box).

(** The key as the handler goes on with it, or the response already written. *)
Definition requireKeyServer (k : APIKey) (serverName : string) : prog DB (APIKey + Response) :=
  let serverName := TrimSpace serverName in
  if str_empty serverName then mret (inr (errJSON 400 "server name is required")) else
  if negb (str_empty (TrimSpace (key_ServerName k))) then mret (check_bound k serverName) else
  andThen (BindAPIKeyServerName (key_ID k) serverName) (λ r,
    match r with
    | Err _ => mret (inr internalErr)
    | Ok true => mret (inl (with_server serverName k))
    | Ok false =>
        andThen (GetAPIKey secrets (key_ID k)) (λ r,
          match r with
          | Err _ => mret (inr internalErr)
          | Ok current => mret (check_bound (with_server (key_ServerName current) k) serverName)
          end)
    end).

(** The handler goes on with the key when its server is the named one. *)
Definition for_server (k : APIKey) (serverName : string) (h : APIKey → prog Api Response) :
    prog Api Response :=
  check (on_db (requireKeyServer k serverName)) (λ _, internalErr) (λ r,
    match r with inl k => h k | inr resp => mret resp end).

(** ** [middleware.go] *)

Definition requireServerKey (now : Time) (nonce : result string)
    (authorization machineID : string) (next : APIKey → prog Api Response) :
    prog Api Response :=
  check (on_db (ValidateServerKey secrets now nonce (ExtractBearer authorization) machineID))
    (λ e, errJSON 401 (Error e)) (λ k,
  allowed ← allow_client now (key_ID k);
  if negb allowed then mret (errJSON 429 "too many requests for this API key") else next k).

(** ** [report.go] *)

Definition trim_pve (req : PVEReportRequest) : PVEReportRequest :=
  {| pvq_ReportID := TrimSpace (pvq_ReportID req); pvq_Hostname := TrimSpace (pvq_Hostname req);
     pvq_IPAddress := pvq_IPAddress req; pvq_PublicIP := pvq_PublicIP req;
     pvq_ClientVersion := pvq_ClientVersion req; pvq_MachineID := pvq_MachineID req;
     pvq_SwapTotal := pvq_SwapTotal req; pvq_SwapUsed := pvq_SwapUsed req;
     pvq_SwapEnabled := pvq_SwapEnabled req; pvq_LastBackupStatus := pvq_LastBackupStatus req;
     pvq_Storages := pvq_Storages req; pvq_BackupTasks := pvq_BackupTasks req |}.

Definition trim_pbs (req : PBSReportRequest) : PBSReportRequest :=
  {| pbq_ReportID := TrimSpace (pbq_ReportID req); pbq_Hostname := TrimSpace (pbq_Hostname req);
     pbq_IPAddress := pbq_IPAddress req; pbq_PublicIP := pbq_PublicIP req;
     pbq_ClientVersion := pbq_ClientVersion req; pbq_MachineID := pbq_MachineID req;
     pbq_SwapTotal := pbq_SwapTotal req; pbq_SwapUsed := pbq_SwapUsed req;
     pbq_SwapEnabled := pbq_SwapEnabled req; pbq_PBSInformation := pbq_PBSInformation req |}.

Definition trim_windows (req : WindowsReportRequest) : WindowsReportRequest :=
  {| wnq_ReportID := TrimSpace (wnq_ReportID req); wnq_Hostname := TrimSpace (wnq_Hostname req);
     wnq_IPAddress := wnq_IPAddress req; wnq_PublicIP := wnq_PublicIP req;
     wnq_ClientVersion := wnq_ClientVersion req; wnq_MachineID := wnq_MachineID req;
     wnq_Disks := wnq_Disks req |}.

(** What the three report handlers share: validation, the server of the key, the
    saving, the alert run and the answer. *)
Definition accept_report (k : APIKey) (hostname : string) (invalid : option error)
    (save : APIKey → prog Api ()) : prog Api Response :=
  match invalid with
  | Some e => mret (errJSON 400 (Error e))
  | None =>
      for_server k hostname (λ k,
      check (save k) (λ _, internalErr) (λ _,
      queue_alerts ≫= λ _,
      mret (writeJSON 200 (BStatus [("status", "ok"); ("server", hostname)]))))
  end.

Definition H_ReportPVE (now : Time) (k : APIKey) (decoded : result PVEReportRequest) :
    prog Api Response :=
  match decoded with
  | Err _ => mret (errJSON 400 "invalid JSON")
  | Ok req =>
      let req := trim_pve req in
      accept_report k (pvq_Hostname req) (PVEReportRequest_Validate req) (λ k,
        on_db (SavePVEReportForAPIKey now req (key_ID k)))
  end.

Definition H_ReportPBS (now : Time) (k : APIKey) (decoded : result PBSReportRequest) :
    prog Api Response :=
  match decoded with
  | Err _ => mret (errJSON 400 "invalid JSON")
  | Ok req =>
      let req := trim_pbs req in
      accept_report k (pbq_Hostname req) (PBSReportRequest_Validate req) (λ k,
        on_db (SavePBSReportForAPIKey now req (key_ID k)))
  end.

Definition heartbeat_of_windows (now : Time) (req : WindowsReportRequest) (sv : WindowsServer) :
    ServerHeartbeat :=
  {| hb_ID := 0; hb_ServerType := "windows"; hb_ServerID := wins_ID sv;
     hb_Hostname := wnq_Hostname req; hb_IP := wnq_IPAddress req;
     hb_PublicIP := wnq_PublicIP req; hb_ClientVersion := wnq_ClientVersion req;
     hb_MachineID := wnq_MachineID req; hb_SwapTotal := 0; hb_SwapUsed := 0;
     hb_SwapEnabled := false; hb_SwapReported := false; hb_LastSeenAt := now;
     hb_CreatedAt := zeroTime; hb_UpdatedAt := zeroTime |}.

(** The heartbeat after a Windows report is best effort. *)
Definition save_windows (now : Time) (req : WindowsReportRequest) (k : APIKey) : prog DB () :=
  SaveWindowsReportForAPIKey now req (key_ID k) ≫= λ _,
  andThen (GetWindowsServerByAPIKey (key_ID k)) (λ r,
    match r with
    | Err _ => mret ()
    | Ok sv => andThen (UpsertServerHeartbeat now (heartbeat_of_windows now req sv)) (λ _, mret ())
    end).

Definition H_ReportWindows (now : Time) (k : APIKey) (decoded : result WindowsReportRequest) :
    prog Api Response :=
  match decoded with
  | Err _ => mret (errJSON 400 "invalid JSON")
  | Ok req =>
      let req := trim_windows req in
      accept_report k (wnq_Hostname req) (WindowsReportRequest_Validate req) (λ k,
        on_db (save_windows now req k))
  end.

(** ** [heartbeat.go] *)

Definition trim_heartbeat (req : HeartbeatRequest) : HeartbeatRequest :=
  {| hbq_Hostname := TrimSpace (hbq_Hostname req);
     hbq_ServerType := ToLower (TrimSpace (hbq_ServerType req));
     hbq_IPAddress := hbq_IPAddress req; hbq_PublicIP := hbq_PublicIP req;
     hbq_ClientVersion := hbq_ClientVersion req; hbq_MachineID := hbq_MachineID req;
     hbq_SwapTotal := hbq_SwapTotal req; hbq_SwapUsed := hbq_SwapUsed req;
     hbq_SwapEnabled := hbq_SwapEnabled req |}.

Definition heartbeat_of_request (now : Time) (serverType : string) (serverID : Z)
    (publicIP : string) (req : HeartbeatRequest) : ServerHeartbeat :=
  {| hb_ID := 0; hb_ServerType := serverType; hb_ServerID := serverID;
     hb_Hostname := hbq_Hostname req; hb_IP := hbq_IPAddress req; hb_PublicIP := publicIP;
     hb_ClientVersion := hbq_ClientVersion req; hb_MachineID := hbq_MachineID req;
     hb_SwapTotal := hbq_SwapTotal req; hb_SwapUsed := hbq_SwapUsed req;
     hb_SwapEnabled := default false (hbq_SwapEnabled req);
     hb_SwapReported := match hbq_SwapEnabled req with Some _ => true | None => false end;
     hb_LastSeenAt := now; hb_CreatedAt := zeroTime; hb_UpdatedAt := zeroTime |}.

(** An error of [ServerPublicIPForAPIKey] is dropped with its empty answer. *)
Definition known_public_ip (serverType publicIP : string) (id : Z) : prog DB string :=
  if str_empty publicIP
  then andThen (ServerPublicIPForAPIKey serverType id) (λ r, mret (ignore_err "" r))
  else mret publicIP.

Definition save_heartbeat (now : Time) (kind : server_kind) (req : HeartbeatRequest) (k : APIKey) :
    prog DB () :=
  publicIP ← known_public_ip (kind_name kind) (hbq_PublicIP req) (key_ID k);
  serverID ← upsert_server_for_key kind now (key_ID k) (hbq_Hostname req) (hbq_IPAddress req)
               publicIP (hbq_ClientVersion req) (hbq_MachineID req);
  UpsertServerHeartbeat now (heartbeat_of_request now (kind_name kind) serverID publicIP req).

Definition H_Heartbeat (now : Time) (k : APIKey) (decoded : result HeartbeatRequest) :
    prog Api Response :=
  match decoded with
  | Err _ => mret (errJSON 400 "invalid JSON")
  | Ok req =>
      let req := trim_heartbeat req in
      match HeartbeatRequest_Validate req with
      | Some e => mret (errJSON 400 (Error e))
      | None =>
          let serverType := if str_empty (hbq_ServerType req) then "pve" else hbq_ServerType req in
          match server_kind_of serverType with
          | None => mret (errJSON 400 "server_type must be pve, pbs or windows")
          | Some kind =>
              for_server k (hbq_Hostname req) (λ k,
              check (on_db (save_heartbeat now kind req k)) (λ _, internalErr) (λ _,
              queue_alerts ≫= λ _,
              mret (writeJSON 200 (BStatus [("status", "ok"); ("server", hbq_Hostname req);
                ("server_type", serverType)]))))
          end
      end
  end.

(** ** [server.go]

    [rs] and the [ReadStore] are the report service and what its reads answer while an
    entry is built. *)
Section lists.
Context `{!ReadStore}.

Definition H_ListPVEServers (rs : ReportService) (k : APIKey) : prog Api Response :=
  check (on_db (read ListPVEServers)) (λ _, internalErr) (λ servers,
  mret (writeJSON 200 (BPVEServers (BuildPVEServerResponse rs <$>
    List.filter (λ sv, pves_APIKeyID sv =? key_ID k) servers)))).

Definition H_ListPBSServers (rs : ReportService) (k : APIKey) : prog Api Response :=
  check (on_db (read ListPBSServers)) (λ _, internalErr) (λ servers,
  mret (writeJSON 200 (BPBSServers (BuildPBSServerResponse rs <$>
    List.filter (λ sv, pbss_APIKeyID sv =? key_ID k) servers)))).

(** [limit]: 30, or the number asked for when it is from 1 to 100. *)
Definition report_limit (l : string) : Z :=
  let '(n, ok) := ParseInt l in
  if ok && (0 <? n) && (n <=? 100) then n else 30.

(** [id] and [limit] are the parameters of the request. *)
Definition H_ListPVEReports (rs : ReportService) (k : APIKey) (id limit : string) :
    prog Api Response :=
  let '(id, ok) := ParseInt id in
  if negb ok then mret (errJSON 400 "invalid server id") else
  check (on_db (read (GetPVEServer id))) (λ _, errJSON 404 "server not found") (λ sv,
  if negb (pves_APIKeyID sv =? key_ID k) &&
     (negb (pves_APIKeyID sv =? 0) || str_empty (TrimSpace (key_ServerName k)))
  then mret (errJSON 403 "API key is not bound to this server") else
  match keyMayReadServer k (pves_Name sv) with
  | Some resp => mret resp
  | None =>
      check (on_db (query (ListPVEReports id (report_limit limit)))) (λ _, internalErr) (λ reports,
      mret (writeJSON 200 (BReports (BuildPVEServerResponse rs sv) reports)))
  end).
End lists.

(** ** [backup.go]: the schedules of a server *)

Definition toVMConfigResponse (c : VMBackupConfig) : VMBackupConfigResponse :=
  {| vcresp_ID := vm_ID c; vcresp_ServerName := vm_ServerName c; vcresp_VMID := vm_VMID c;
     vcresp_VMName := vm_VMName c; vcresp_Monday := vm_Monday c;
     vcresp_Tuesday := vm_Tuesday c; vcresp_Wednesday := vm_Wednesday c;
     vcresp_Thursday := vm_Thursday c; vcresp_Friday := vm_Friday c;
     vcresp_Saturday := vm_Saturday c; vcresp_Sunday := vm_Sunday c;
     vcresp_IsExcluded := vm_IsExcluded c |}.

Definition pveServerIDForKey (now : Time) (k : APIKey) (hostname : string) : prog DB Z :=
  ResolvePVEServerForAPIKey now (key_ID k) hostname (key_MachineID k).

Definition H_GetBackupConfig (k : APIKey) (server : string) : prog Api Response :=
  let server := TrimSpace server in
  match keyMayReadServer k server with
  | Some resp => mret resp
  | None =>
      check (on_db (FindPVEServerForAPIKey (key_ID k) server (key_MachineID k)))
        (λ _, internalErr) (λ found,
      check (match found with
             | None => mret []
             | Some serverID =>
                 on_db (query (ListVMBackupConfigsForServerOrName "pve" serverID server))
             end) (λ _, internalErr) (λ configs,
      mret (writeJSON 200 (BConfigs server (toVMConfigResponse <$> configs)))))
  end.

(** The server of the key, then the change. *)
Definition for_pve_server (now : Time) (k : APIKey) (server : string)
    (h : Z → prog Api Response) : prog Api Response :=
  for_server k server (λ k,
    check (on_db (pveServerIDForKey now k server)) (λ _, internalErr) h).

Definition H_UpdateBackupInventory (now : Time) (k : APIKey) (server : string)
    (decoded : result bool) : prog Api Response :=
  let server := TrimSpace server in
  for_pve_server now k server (λ serverID,
    match decoded with
    | Err _ => mret (errJSON 400 "invalid JSON")
    | Ok hasVMs =>
        check (on_db (SetPVEBackupInventory now serverID hasVMs)) (λ _, internalErr) (λ _,
        mret (writeJSON 200 (BStatus [("status", "updated")])))
    end).

Definition H_CreateVMConfig (now : Time) (k : APIKey) (server : string)
    (decoded : result CreateVMBackupConfigRequest) : prog Api Response :=
  let server := TrimSpace server in
  for_pve_server now k server (λ serverID,
    match decoded with
    | Err _ => mret (errJSON 400 "invalid JSON")
    | Ok req =>
        if negb (validVMID (cvr_VMID req))
        then mret (errJSON 400 "vm_id must be a Proxmox VM ID") else
        check (on_db (CreateVMBackupConfigForServer now "pve" serverID server req))
          (λ _, internalErr) (λ id,
        andThen (on_db (SetPVEBackupInventory now serverID true)) (λ _,
        mret (writeJSON 201 (BId id))))
    end).

Definition H_UpdateVMConfig (now : Time) (k : APIKey) (server vmid : string)
    (decoded : result CreateVMBackupConfigRequest) : prog Api Response :=
  let server := TrimSpace server in
  if negb (validVMID vmid) then mret (errJSON 400 "vmid must be a Proxmox VM ID") else
  for_pve_server now k server (λ serverID,
    match decoded with
    | Err _ => mret (errJSON 400 "invalid JSON")
    | Ok req =>
        check (on_db (UpdateVMBackupConfigForServer "pve" serverID vmid req))
          (λ _, internalErr) (λ _,
        andThen (on_db (SetPVEBackupInventory now serverID true)) (λ _,
        mret (writeJSON 200 (BStatus [("status", "updated")]))))
    end).

Definition H_DeleteVMConfig (now : Time) (k : APIKey) (server vmid : string) :
    prog Api Response :=
  let server := TrimSpace server in
  if negb (validVMID vmid) then mret (errJSON 400 "vmid must be a Proxmox VM ID") else
  for_pve_server now k server (λ serverID,
    check (on_db (DeleteVMBackupConfigForServer now "pve" serverID vmid)) (λ _, internalErr) (λ _,
    mret (writeJSON 200 (BStatus [("status", "deleted")])))).

Definition H_ToggleVMExclude (now : Time) (k : APIKey) (server vmid : string) :
    prog Api Response :=
  let server := TrimSpace server in
  if negb (validVMID vmid) then mret (errJSON 400 "vmid must be a Proxmox VM ID") else
  for_pve_server now k server (λ serverID,
    check (on_db (ToggleVMExcludeForServer "pve" serverID vmid)) (λ _, internalErr) (λ _,
    mret (writeJSON 200 (BStatus [("status", "toggled")])))).

(** ** [router.go] *)

(** The requests of a client, with their decoded bodies. *)
Inductive Request : Type :=
| PostHeartbeat (req : result HeartbeatRequest)
| PostReportPVE (req : result PVEReportRequest)
| PostReportPBS (req : result PBSReportRequest)
| PostReportWindows (req : result WindowsReportRequest)
| GetVerify
| GetPVEServers
| GetPVEReports (id limit : string)
| GetPBSServers
| GetConfig (server : string)
| PutInventory (server : string) (req : result bool)
| PostVM (server : string) (req : result CreateVMBackupConfigRequest)
| PutVM (server vmid : string) (req : result CreateVMBackupConfigRequest)
| DeleteVM (server vmid : string)
| PutToggleExclude (server vmid : string).

Definition handle `{!ReadStore} (rs : ReportService) (now : Time) (r : Request) (k : APIKey) :
    prog Api Response :=
  match r with
  | PostHeartbeat req => H_Heartbeat now k req
  | PostReportPVE req => H_ReportPVE now k req
  | PostReportPBS req => H_ReportPBS now k req
  | PostReportWindows req => H_ReportWindows now k req
  | GetVerify => mret (writeJSON 200 (BStatus [("status", "valid")]))
  | GetPVEServers => H_ListPVEServers rs k
  | GetPVEReports id limit => H_ListPVEReports rs k id limit
  | GetPBSServers => H_ListPBSServers rs k
  | GetConfig server => H_GetBackupConfig k server
  | PutInventory server req => H_UpdateBackupInventory now k server req
  | PostVM server req => H_CreateVMConfig now k server req
  | PutVM server vmid req => H_UpdateVMConfig now k server vmid req
  | DeleteVM server vmid => H_DeleteVMConfig now k server vmid
  | PutToggleExclude server vmid => H_ToggleVMExclude now k server vmid
  end.

Definition serve `{!ReadStore} (rs : ReportService) (now : Time) (nonce : result string)
    (authorization machineID : string) (r : Request) : prog Api Response :=
  requireServerKey now nonce authorization machineID (handle rs now r).
End api.

(** ** Concurrent requests of one key *)

(** What every request passes: the middleware, then the check of the server it names. *)
Record Claim := { cl_now : Time; cl_nonce : result string; cl_key : string;
  cl_machine : string; cl_server : string }.

Definition authorise `{!Crypto, !SqlOrder} (secrets : option Box) (c : Claim) :
    prog DB (APIKey + Response) :=
  andThen (ValidateServerKey secrets (cl_now c) (cl_nonce c) (cl_key c) (cl_machine c)) (λ r,
    match r with
    | Err e => mret (inr (errJSON 401 (Error e)))
    | Ok k => requireKeyServer secrets k (cl_server c)
    end).

Section concurrent.
Context `{!Crypto, !SqlOrder}.
Context (secrets : option Box).

Lemma guar_BindAPIKeyServerName k s t :
  wf t → consistent k t →
  guar key_order (BindAPIKeyServerName (key_ID k) s) (λ r u,
    match r with Ok true => consistent (with_server s k) u | _ => True end) t.
Proof.
  intros Hwf Hk. unfold BindAPIKeyServerName.
  eapply guar_bind with (Q' := λ n u, n = 1 → consistent (with_server s k) u); [apply _| |].
  - apply guar_stmt; [apply _| |done]. intros v Hv.
    pose proof (key_order_wf _ _ Hv Hwf) as Hwfv.
    destruct (update_stmt _ _ _ v) as [[n v']|e] eqn:Hu; [|done].
    assert (key_order v v') as Hvv'.
    { eapply key_order_update; [|  |exact Hu]; [done|].
      intros r [_ He]%andb_true_iff. by apply keeps_server. }
    split; [done|]. intros u Hvu ->.
    eapply consistent_later; [by apply Hvv'|exact Hvu|].
    pose proof (consistent_later _ _ _ Hwf Hv Hk) as (r0 & Hr0 & Hmach & _).
    apply update_key_row in Hu as (r & Hr & He & Hr'); [|done|done].
    assert (r0 = r) as -> by (by eapply row_det).
    eexists. split; [exact Hr'|]. split; [exact Hmach|done].
  - intros n v Hv HQ. apply guar_Ret. intros u Hu. destruct (Z.eqb_spec n 1) as [Hn|]; [|done].
    eapply consistent_later; [exact (key_order_wf _ _ Hv Hwf)|done|]. by apply HQ.
Qed.

(** What is known of a key that was let through for a server. *)
Definition admitted (k : APIKey) (serverName : string) (r : result (APIKey + Response)) (u : DB) :
    Prop :=
  match r with
  | Ok (inl k') => consistent k' u ∧ key_ID k' = key_ID k ∧ key_MachineID k' = key_MachineID k ∧
      TrimSpace (key_ServerName k') = TrimSpace serverName ∧ TrimSpace serverName ≠ ""
  | _ => True
  end.

Lemma admitted_check k0 k serverName u :
  consistent k u → key_ID k = key_ID k0 → key_MachineID k = key_MachineID k0 →
  TrimSpace serverName ≠ "" →
  admitted k0 serverName (Ok (check_bound k (TrimSpace serverName))) u.
Proof.
  intros Hc Hid Hm Hne. unfold check_bound.
  destruct (str_eqb _ _) eqn:He; [|done]. apply str_eqb_eq in He. by split_and!.
Qed.

Lemma guar_requireKeyServer k serverName t :
  wf t → consistent k t →
  guar key_order (requireKeyServer secrets k serverName) (admitted k serverName) t.
Proof.
  intros Hwf Hk. unfold requireKeyServer. unfold str_empty at 1.
  case_bool_decide as Hne; [by intros u Hu|].
  destruct (negb (str_empty _)).
  { apply guar_Ret. intros u Hu. apply admitted_check; [|done..]. by eapply consistent_later. }
  eapply guar_andThen; [apply _|by apply guar_BindAPIKeyServerName|].
  intros [[]|e] s Hs Hb; [| |by intros u Hu]; pose proof (key_order_wf _ _ Hs Hwf) as Hwfs.
  - apply guar_Ret. intros u Hu. split_and!; [by eapply consistent_later|done|done| |done].
    apply TrimSpace_idem.
  - eapply guar_andThen; [apply _|by apply guar_GetAPIKey|].
    intros [cur|e] s' Hs' Hcur; [|by intros u Hu]. apply guar_Ret. intros u Hu.
    apply admitted_check; [|done..].
    eapply consistent_later; [exact (key_order_wf _ _ Hs' Hwfs)|exact Hu|].
    pose proof (consistent_later _ _ _ Hwfs Hs' (consistent_later _ _ _ Hwf Hs Hk))
      as (r0 & Hr0 & Hmach & _).
    destruct Hcur as [(r & Hr & _ & Hserv) Hid]. rewrite Hid in Hr.
    assert (r0 = r) as -> by (by eapply row_det). by exists r.
Qed.

Lemma guar_authorise c t :
  wf t →
  guar key_order (authorise secrets c) (λ r u,
    match r with
    | Ok (inl k) => consistent k u ∧ key_MachineID k = cl_machine c ∧ cl_machine c ≠ "" ∧
        TrimSpace (key_ServerName k) = TrimSpace (cl_server c) ∧ TrimSpace (cl_server c) ≠ ""
    | _ => True
    end) t.
Proof.
  intros Hwf. eapply guar_andThen; [apply _|by apply guar_ValidateServerKey|].
  intros [k|e] s Hs Hk; [|by intros u Hu]. destruct Hk as (Hc & Hm & Hne).
  eapply guar_weaken; [apply _|apply guar_requireKeyServer|].
  - exact (key_order_wf _ _ Hs Hwf).
  - done.
  - intros [[k'|]|] u Hu; [|done..]. intros (Hc' & _ & Hm' & Hs' & Hne').
    split_and!; congruence || done.
Qed.

(** Two keys with one number agree on what they are bound to. *)
Lemma consistent_agree k1 k2 u :
  consistent k1 u → consistent k2 u → key_ID k1 = key_ID k2 →
  (key_MachineID k1 ≠ "" → key_MachineID k2 ≠ "" → key_MachineID k1 = key_MachineID k2) ∧
  (TrimSpace (key_ServerName k1) ≠ "" → TrimSpace (key_ServerName k2) ≠ "" →
   key_ServerName k1 = key_ServerName k2).
Proof.
  intros (r1 & Hr1 & Hm1 & Hs1) (r2 & Hr2 & Hm2 & Hs2) Hid. rewrite Hid in Hr1.
  assert (r1 = r2) as -> by (by eapply row_det). split.
  - intros H1 H2. by rewrite <-Hm1, <-Hm2.
  - assert (∀ s, TrimSpace s ≠ "" → blank s = false) as Hblank.
    { intros s Hs. destruct (blank s) eqn:Hb; [|done]. by apply blank_TrimSpace in Hb. }
    intros H1 H2. rewrite <-Hs1, <-Hs2; auto.
Qed.

(** C6: any number of requests may be served at the same time, their statements in any
    order, any of them failing: those that are let through with the same key come from
    one machine and name one server. *)
Theorem one_machine_one_server (claims : nat → Claim) (sched : list (nat * list (option error)))
    (db : DB) (i j : nat) (ki kj : APIKey) :
  wf db →
  let final := (run_pool sched (λ n, authorise secrets (claims n)) db).1 in
  final i = Ret (Ok (inl ki)) → final j = Ret (Ok (inl kj)) → key_ID ki = key_ID kj →
  cl_machine (claims i) = cl_machine (claims j) ∧ cl_machine (claims i) ≠ "" ∧
  TrimSpace (cl_server (claims i)) = TrimSpace (cl_server (claims j)) ∧
  TrimSpace (cl_server (claims i)) ≠ "".
Proof.
  intros Hwf final Hi Hj Hid.
  destruct (run_pool_guar key_order _ sched _ db (λ n, guar_authorise (claims n) db Hwf))
    as [_ Hdone].
  destruct (Hdone i _ Hi) as (Hci & Hmi & Hnmi & Hsi & Hnsi).
  destruct (Hdone j _ Hj) as (Hcj & Hmj & Hnmj & Hsj & Hnsj).
  destruct (consistent_agree ki kj _ Hci Hcj Hid) as [Hm Hs].
  split_and!; [|done| |done].
  - rewrite <-Hmi, <-Hmj. apply Hm; congruence.
  - rewrite <-Hsi, <-Hsj. f_equal. apply Hs; congruence.
Qed.
End concurrent.
