(* ===== verification/Isolation.v ===== *)
(** * What a request of the server API can change

    The handlers of [Api] against the whole database: a report that is answered with
    success is stored and the alert run is queued, any other answer leaves the stored
    reports alone; and no request changes or removes anything that belongs to a server
    of another key. *)
From S2P Require Import Prelude GoStrings GoUtf8 GoNum GoTime Domain StoreReads Staleness Sql SqlText Interleave Limiter Validation Secrets Relational Schema Servers Keys Reports PveReports PbsReports WindowsReports Batches Settings Api.

(** ** What belongs to a key *)

(** The key a server is bound to. *)
Definition owner (db : DB) (k : server_kind) (id : Z) : option Z :=
  rows_of db (Servers k) !! id ≫= sr_APIKeyID.

Definition owned_by (key : Z) (db : DB) (serverType : string) (id : Z) : bool :=
  match server_kind_of serverType with Some k => opt_is (owner db k id) key | None => false end.

(** The rows that requests of other keys must leave alone: the servers of [key] with
    their heartbeats and schedules, and every report and alert setting. *)
Definition protected (key : Z) (db : DB) (t : tbl) : Row t → bool :=
  match t return tbl_row t → bool with
  | ApiKeys => λ _, false
  | Servers k => λ r, opt_is (sr_APIKeyID r) key
  | ServerHeartbeats => λ r, owned_by key db (hbr_ServerType r) (hbr_ServerID r)
  | VmBackupConfigs => λ r, owned_by key db (vcr_ServerType r) (vcr_ServerID r)
  | _ => λ _, true
  end.

(** [un_key]: the bindings, the type and the state of the key itself. *)
Record untouched (key : Z) (db db' : DB) : Prop := {
  un_key : auths db' !! key = auths db !! key;
  un_rows : ∀ t id r, rows_of db t !! id = Some r → protected key db t r = true →
    rows_of db' t !! id = Some r }.

Lemma owned_by_true key db ty id :
  owned_by key db ty id = true ↔
  ∃ k row, server_kind_of ty = Some k ∧ rows_of db (Servers k) !! id = Some row ∧
    sr_APIKeyID row = Some key.
Proof.
  unfold owned_by, owner. destruct (server_kind_of ty) as [k|]; [|naive_solver].
  rewrite opt_is_true, bind_Some. naive_solver.
Qed.

Lemma owned_by_later key db db' ty id :
  untouched key db db' → owned_by key db ty id = true → owned_by key db' ty id = true.
Proof.
  intros Hun (k & row & Hk & Hr & Ho)%owned_by_true. apply owned_by_true. exists k, row.
  split_and!; [done| |done]. apply (un_rows _ _ _ Hun (Servers k)); [done|]. by apply opt_is_true.
Qed.

Lemma protected_later key db db' t r :
  untouched key db db' → protected key db t r = true → protected key db' t r = true.
Proof. destruct t; try done; apply owned_by_later. Qed.

#[export] Instance untouched_PreOrder key : PreOrder (untouched key).
Proof.
  split.
  - by intros db.
  - intros db1 db2 db3 H12 H23. split.
    + by rewrite (un_key _ _ _ H23), (un_key _ _ _ H12).
    + intros t id r Hr Hp. apply (un_rows _ _ _ H23); [by apply (un_rows _ _ _ H12)|].
      by apply (protected_later key db1).
Qed.

(** A server of [key]. *)
Definition own (key : Z) (k : server_kind) (id : Z) (db : DB) : Prop :=
  ∃ row, rows_of db (Servers k) !! id = Some row ∧ sr_APIKeyID row = Some key.

Lemma own_put key k id db t v : t ≠ Servers k → own key k id db → own key k id (put t v db).
Proof. intros Ht (row & Hr & Ho). exists row. unfold rows_of. by rewrite put_ne. Qed.

Lemma own_protected key other k id db r :
  key ≠ other → own key k id db → rows_of db (Servers k) !! id = Some r →
  protected other db (Servers k) r = false.
Proof.
  intros Hne (row & Hr & Ho) Hr'. rewrite (row_det _ _ _ _ Hr' Hr). cbn.
  apply not_true_iff_false. rewrite opt_is_true. congruence.
Qed.

Lemma own_owned key other k id db :
  key ≠ other → own key k id db → owned_by other db (kind_name k) id = false.
Proof.
  intros Hne (row & Hr & Ho). apply not_true_iff_false. intros (k' & row' & Hk & Hr' & Ho')%owned_by_true.
  assert (k' = k) as -> by (destruct k; vm_compute in Hk; congruence).
  assert (row' = row) as -> by (by eapply row_det). congruence.
Qed.

(** ** Statements *)

Section isolation.
Context (other : Z).

(** [p] keeps [I] and leaves what belongs to [other] alone. *)
Definition spares (I : DB → Prop) {A} (p : prog DB A) : Prop :=
  along (λ db, wf db ∧ I db) (untouched other) p.

Lemma untouched_put t v db :
  t ≠ ApiKeys →
  (∀ id r, rows_of db t !! id = Some r → protected other db t r = true → rows v !! id = Some r) →
  untouched other db (put t v db).
Proof.
  intros Ht Hv. split.
  - unfold auths, rows_of. by rewrite put_ne.
  - intros u id r Hr Hp. destruct (decide (u = t)) as [->|Hne].
    + unfold rows_of. rewrite put_eq. by apply Hv.
    + unfold rows_of. by rewrite put_ne.
Qed.

Lemma insert_untouched t mk db n db' :
  t ≠ ApiKeys → wf db → insert_stmt t mk db = Ok (n, db') → untouched other db db'.
Proof.
  intros Ht Hwf (-> & _ & _ & ->)%insert_at_Ok. apply untouched_put; [done|].
  intros id r Hr _. cbn. rewrite lookup_insert_ne; [done|]. intros <-.
  by destruct (row_none _ _ _ (wf_fresh db t Hwf) Hr).
Qed.

Lemma update_untouched t cond f db n db' :
  t ≠ ApiKeys →
  (∀ id r, rows_of db t !! id = Some r → cond r = true → protected other db t r = false) →
  update_stmt t cond f db = Ok (n, db') → untouched other db db'.
Proof.
  intros Ht Hc (_ & -> & _)%update_stmt_Ok. apply untouched_put; [done|].
  intros id r Hr Hp. cbn [rows]. rewrite lookup_updated. apply fmap_Some. exists r.
  split; [done|]. destruct (cond r) eqn:He; [|done]. by rewrite (Hc id r Hr He) in Hp.
Qed.

(** A statement on [t], that keeps what is assumed of the rest. *)
Definition stable (t : tbl) (I : DB → Prop) : Prop := ∀ db v, I db → I (put t v db).

Lemma spares_INSERT I t mk :
  t ≠ ApiKeys → stable t I → (∀ id, rowid t (mk id) = id) → spares I (INSERT t mk).
Proof.
  intros Ht HI Hmk. apply along_stmt; [apply _|]. intros db n db' [Hwf Hi] Hins. split_and!.
  - by eapply wf_insert_stmt.
  - apply insert_at_Ok in Hins as (_ & _ & _ & ->). by apply HI.
  - by eapply insert_untouched.
Qed.

Lemma spares_UPDATE I t cond f :
  t ≠ ApiKeys → stable t I → (∀ r, rowid t (f r) = rowid t r) →
  (∀ db id r, wf db → I db → rows_of db t !! id = Some r → cond r = true →
     protected other db t r = false) →
  spares I (UPDATE t cond f).
Proof.
  intros Ht HI Hf Hc. apply along_stmt; [apply _|]. intros db n db' [Hwf Hi] Hu. split_and!.
  - by eapply wf_update_stmt.
  - apply update_stmt_Ok in Hu as (_ & -> & _). by apply HI.
  - eapply update_untouched; [done| |done]. intros id r Hr. by apply (Hc db id).
Qed.

Lemma spares_UPSERT I t conflict mk f :
  t ≠ ApiKeys → stable t I → (∀ id, rowid t (mk id) = id) → (∀ r, rowid t (f r) = rowid t r) →
  (∀ db id r, wf db → I db → rows_of db t !! id = Some r → conflict r = true →
     protected other db t r = false) →
  spares I (UPSERT t conflict mk f).
Proof.
  intros Ht HI Hmk Hf Hc t0 H0 io. unfold UPSERT, upsert_stmt.
  pose proof (spares_INSERT I t mk Ht HI Hmk t0 H0 io) as Hins.
  pose proof (spares_UPDATE I t conflict f Ht HI Hf Hc t0 H0 io) as Hupd.
  unfold INSERT, UPDATE in *. cbn [stmt exec] in *. destruct (fault io); [done|].
  by destruct (matching t conflict t0).
Qed.
End isolation.

(** ** Programs on the database *)

Section programs.
Context `{!Crypto, !SqlOrder}.
Context (other : Z).

(** From a state of [I], [p] leaves what belongs to [other] alone, and ends in [K]. *)
Definition leaves (I : DB → Prop) {A} (p : prog DB A) (K : A → DB → Prop) : Prop :=
  ∀ db, wf db → I db → always p (λ r db', wf db' ∧ untouched other db db' ∧
    match r with Ok a => K a db' | Err _ => True end) db.

Definition anything {A : Type} (_ : A) (_ : DB) : Prop := True.

Lemma spares_leaves I {A} (p : prog DB A) : spares other I p → leaves I p (λ _, I).
Proof.
  intros Hp db Hwf Hi. eapply always_mono; [by apply Hp|]. intros [a|e] db' [[Hwf' Hi'] Hun]; by split_and!.
Qed.

Lemma leaves_weaken I I' {A} (p : prog DB A) (K K' : A → DB → Prop) :
  leaves I p K → (∀ db, I' db → I db) → (∀ a db, K a db → K' a db) → leaves I' p K'.
Proof.
  intros Hp Hi HK db Hwf Hi'. eapply always_mono; [apply Hp; [done|by apply Hi]|].
  intros [a|e] db' (Hwf' & Hun & HKa); split_and!; auto.
Qed.

Lemma leaves_bind I {A B} (p : prog DB A) (f : A → prog DB B) K K' :
  leaves I p K → (∀ a, leaves (K a) (f a) K') → leaves I (p ≫= f) K'.
Proof.
  intros Hp Hf db Hwf Hi. apply always_bind. eapply always_mono; [by apply Hp|].
  intros [a|e] db' (Hwf' & Hun & HKa); [|done].
  eapply always_mono; [by apply Hf|]. intros r db'' (Hwf'' & Hun' & HK').
  split_and!; [done|by transitivity db'|done].
Qed.

Lemma leaves_andThen I {A B} (p : prog DB A) (f : result A → prog DB B) K K' :
  leaves I p K → (∀ a, leaves (K a) (f (Ok a)) K') → (∀ e, leaves (λ _, True) (f (Err e)) K') →
  leaves I (andThen p f) K'.
Proof.
  intros Hp Hf He db Hwf Hi. apply always_andThen. eapply always_mono; [by apply Hp|].
  intros [a|e] db' (Hwf' & Hun & HKa);
    (eapply always_mono; [by (apply Hf || apply He)|]; intros r db'' (Hwf'' & Hun' & HK');
     split_and!; [done|by transitivity db'|done]).
Qed.

Lemma leaves_wrap_err I {A} msg (p : prog DB A) K : leaves I p K → leaves I (wrap_err msg p) K.
Proof.
  intros Hp db Hwf Hi. apply always_wrap_err. eapply always_mono; [by apply Hp|]. by intros [a|e].
Qed.

Lemma leaves_mret (I : DB → Prop) {A} (a : A) (K : A → DB → Prop) :
  (∀ db, I db → K a db) → leaves I (mret a) K.
Proof. intros HK db Hwf Hi. apply always_Ret. split_and!; auto; done. Qed.

Lemma leaves_fail (I : DB → Prop) {A} e (K : A → DB → Prop) : leaves I (fail e) K.
Proof. intros db Hwf Hi. by apply always_Ret. Qed.

(** *** Reports: nothing but insertions *)

Ltac only_inserts :=
  repeat first
    [ progress intros
    | lazymatch goal with
      | |- spares _ _ ?p => unfold spares
      | |- along _ _ (mret _) => apply along_Ret, _
      | |- along _ _ (query _) => apply along_query, _
      | |- along _ _ (_ ≫= _) => apply along_bind; [apply _| |]
      | |- along _ _ (wrap_err _ _) => apply along_wrap_err; [apply _|]
      | |- along _ _ (for_each _ _) => apply along_for_each; [apply _|]
      | |- along _ _ (tx_if _ _) => apply along_tx_if; [apply _|]
      | |- along _ _ (INSERT _ _) => by apply spares_INSERT
      | |- along _ _ (match ?x with _ => _ end) => destruct x
      end ].

Lemma spares_InsertPVEReportData now id req :
  spares other (λ _, True) (InsertPVEReportData now id req).
Proof.
  unfold InsertPVEReportData, insert_report_data, token_known, pve_report_body,
    insertPVEReportWithSwap, insert_storage, insertPVEStorage, insertPVEStorageInfo,
    insertPVEStorageContent, insertPVEBackupTask. only_inserts.
Qed.

Lemma spares_InsertPBSReportData now id token swap info :
  spares other (λ _, True) (InsertPBSReportData now id token swap info).
Proof.
  unfold InsertPBSReportData, insert_report_data, token_known, pbs_report_body,
    insertPBSReportWithSwap, insert_datastore, insertPBSStore, insertPBSStoreHistory,
    insertPBSGCStatus, insertPBSSnapshot, insertPBSTask. only_inserts.
Qed.

Lemma spares_InsertWindowsReportData now id req :
  spares other (λ _, True) (InsertWindowsReportData now id req).
Proof.
  unfold InsertWindowsReportData, insert_report_data, token_known, windows_report_body,
    insertWindowsReport, insertWindowsDisk. only_inserts.
Qed.

(** *** The server of the key *)

Context (key : Z).
Hypothesis Hkey : 0 < key.
Hypothesis Hother : key ≠ other.

Lemma servers_untouched k db db' id name m :
  (∀ t, t ≠ Servers k → db' t = db t) → upserted k key name m db id db' →
  untouched other db db'.
Proof.
  intros Ht (_ & Hrest & Hold). split.
  - unfold auths, rows_of. by rewrite Ht.
  - intros t j r Hr Hp. destruct (decide (t = Servers k)) as [->|Hne].
    + destruct (decide (j = id)) as [->|Hj]; [|by rewrite Hrest].
      apply opt_is_true in Hp. destruct (Hold r Hr) as [Ho|(_ & _ & Ho & _)%legacy_of_true]; congruence.
    + unfold rows_of. by rewrite Ht.
Qed.

Lemma leaves_upsert k now name ip publicIP ver m I :
  leaves I (upsert_server_for_key k now key name ip publicIP ver m) (λ id, own key k id).
Proof.
  intros db Hwf _. eapply always_mono.
  { apply always_and; [by apply upsert_step|].
    by apply (always_preserves wf), Hwf; apply preserves_upsert_server_for_key. }
  intros [id|e] db' [[Ht Hup] Hwf']; [|by rewrite Hup].
  split_and!; [done|by eapply servers_untouched|].
  destruct Hup as [(row & Hr & Ho & _) _]. by exists row.
Qed.

Lemma leaves_find_of_key k cond I :
  (∀ r, cond r = true → sr_APIKeyID r = Some key) →
  leaves I (find_server k cond) (λ o db, match o with
    | Some id => own key k id db
    | None => I db end).
Proof.
  intros Hc db Hwf Hi. apply always_query; [done|]. split_and!; [done|done|].
  destruct (head _) as [id|] eqn:Hf; [|done].
  destruct (find_server_Some _ _ _ _ Hwf Hf) as (r & Hr & Hk). exists r. auto.
Qed.

(** The row of a server, bound to the key or to none, that the key takes over. *)
Lemma leaves_bind_server now id (I : DB → Prop) :
  (∀ db, wf db → I db → ∃ r, rows_of db (Servers PVE) !! id = Some r ∧ sr_APIKeyID r = None) →
  leaves I (UPDATE (Servers PVE) (has_id id) (bind_server now key) ≫= λ _, mret id)
    (λ id, own key PVE id).
Proof.
  intros HI db Hwf Hi. destruct (HI db Hwf Hi) as (r & Hr & Ho).
  intros io. pose proof (exec_preserves wf
    (UPDATE (Servers PVE) (has_id id) (bind_server now key) ≫= λ _, mret id) io db
    ltac:(keeps_wf) Hwf) as Hwf'. revert io Hwf'.
  assert (always (UPDATE (Servers PVE) (has_id id) (bind_server now key) ≫= λ _, mret id)
    (λ r' db', wf db' → wf db' ∧ untouched other db db' ∧
      match r' with Ok a => own key PVE a db' | Err _ => True end) db) as Hal.
  { eapply update_server_always; [done|exact Hr|done|]. intros n Hwf'. split_and!; [done| |].
    - apply untouched_put; [done|]. intros j r0 Hr0 Hp. cbn.
      destruct (decide (j = id)) as [->|Hj]; [|by rewrite lookup_insert_ne].
      apply opt_is_true in Hp. rewrite (row_det _ _ _ _ Hr0 Hr) in Hp. congruence.
    - eexists. rewrite rows_put_eq, lookup_insert_eq. by split. }
  intros io Hwf'. specialize (Hal io). destruct (exec _ io db) as [[r' db'] io']. by apply Hal.
Qed.

Lemma leaves_resolve now name m I :
  leaves I (ResolvePVEServerForAPIKey now key name m) (λ id, own key PVE id).
Proof.
  unfold ResolvePVEServerForAPIKey. rewrite (proj2 (Z.leb_gt key 0)) by done.
  eapply leaves_bind; [apply leaves_find_of_key; by intros r [Ho _]%of_key_true|].
  intros [id|]; [by apply leaves_mret|].
  apply (leaves_bind _ _ _ (λ o db, match o with
    | Some id => ∃ r, rows_of db (Servers PVE) !! id = Some r ∧ sr_APIKeyID r = None
    | None => True end)).
  - intros db Hwf _. apply always_query; [done|]. split_and!; [done|done|].
    destruct (head _) as [id|] eqn:Hf; [|done].
    destruct (find_server_Some _ _ _ _ Hwf Hf) as (r & Hr & (_ & _ & Ho & _)%legacy_of_true).
    by exists r.
  - intros [id|]; [by apply leaves_bind_server|].
    intros db Hwf _. apply always_wrap_err, always_stmt; [done|]. intros id db' Hins.
    split_and!; [by eapply (wf_insert_stmt (Servers PVE)); [|exact Hwf|exact Hins]|exact (insert_untouched other (Servers PVE) _ db id db' ltac:(done) Hwf Hins)|].
    apply (insert_at_Ok (Servers PVE)) in Hins as (-> & _ & _ & ->). eexists.
    rewrite rows_put_eq, lookup_insert_eq. by split.
Qed.

(** *** Heartbeats, schedules and the inventory of a server of the key *)

Lemma leaves_heartbeat now hb k :
  hb_ServerType hb = kind_name k →
  leaves (own key k (hb_ServerID hb)) (UpsertServerHeartbeat now hb) anything.
Proof.
  intros Hk. eapply leaves_bind; [|intros n; by apply (leaves_mret (own key k (hb_ServerID hb)))].
  apply spares_leaves, spares_UPSERT; [done| |done|done|].
  - intros db v. by apply own_put.
  - intros db id r Hwf Hown Hr [Ht%str_eqb_eq Hi%Z.eqb_eq]%andb_true_iff. cbn.
    rewrite Ht, Hi, Hk. by apply (own_owned key).
Qed.

Lemma leaves_config_update id cond f :
  (∀ r, vm_ID (vcr_Config (f r)) = vm_ID (vcr_Config r)) →
  (∀ r, cond r = true → config_of "pve" id r = true) →
  leaves (own key PVE id) (UPDATE VmBackupConfigs cond f ≫= λ _, mret ())
    (λ _, own key PVE id).
Proof.
  intros Hf Hc. eapply leaves_bind; [|intros n; by apply (leaves_mret (own key PVE id))].
  apply spares_leaves, spares_UPDATE; [done| |done|].
  - intros db v. by apply own_put.
  - intros db i r Hwf Hown Hr Hr'. apply Hc in Hr'. unfold config_of in Hr'.
    apply andb_true_iff in Hr' as [[Ht%str_eqb_eq Hi%Z.eqb_eq]%andb_true_iff _]. cbn.
    rewrite Ht, Hi. by apply (own_owned key other PVE).
Qed.

Lemma config_at_of id vmid r : config_at "pve" id vmid r = true → config_of "pve" id r = true.
Proof. unfold config_at. by intros [? _]%andb_true_iff. Qed.

Lemma leaves_create now id name req :
  leaves (own key PVE id) (CreateVMBackupConfigForServer now "pve" id name req)
    (λ _, own key PVE id).
Proof.
  apply spares_leaves, spares_INSERT; [done| |done]. intros db v. by apply own_put.
Qed.

Lemma leaves_inventory now id b :
  leaves (own key PVE id) (SetPVEBackupInventory now id b) anything.
Proof.
  intros db Hwf Hown. apply always_bind, always_stmt; [done|]. intros n db' Hu.
  assert (wf db' ∧ untouched other db db') as [Hwf' Hun].
  { split; [by eapply (wf_update_stmt (Servers PVE)); [|exact Hwf|exact Hu]|].
    eapply (update_untouched other (Servers PVE)); [done| |exact Hu].
    intros j r Hr [Hi%Z.eqb_eq _]%andb_true_iff.
    assert (j = id) as -> by (rewrite <-Hi; symmetry; by apply (wf_ids _ Hwf (Servers PVE))).
    by apply (own_protected key other PVE id db). }
  destruct (n =? 0); by apply always_Ret.
Qed.

(** *** The binding of the key *)

Context (secrets : option Box).

Lemma leaves_BindAPIKeyServerName s :
  leaves (λ _, True) (BindAPIKeyServerName key s) anything.
Proof.
  intros db Hwf _. apply always_bind, always_stmt; [done|]. intros n db' Hu. apply always_Ret.
  split_and!; [by eapply (wf_update_stmt ApiKeys); [|exact Hwf|exact Hu]| |done].
  pose proof (update_only_keys _ _ _ _ _ Hu) as Ho. split.
  - apply (update_stmt_Ok ApiKeys) in Hu as (_ & -> & _). unfold auths. rewrite (rows_put_eq ApiKeys).
    rewrite !lookup_fmap. match goal with |- context [updated ApiKeys ?c ?f db] =>
      pose proof (lookup_updated ApiKeys c f db other) as Hl end.
    cbn [Row probakgo_schema tbl_row] in *. rewrite Hl.
    match goal with |- _ = auth_of <$> ?o => destruct o as [r|] eqn:Hr; [|done] end. cbn.
    pose proof (proj1 (wf_ids _ Hwf ApiKeys _ _ Hr)) as Hi. cbn in Hi.
    unfold is_key. rewrite Hi. by rewrite (proj2 (Z.eqb_neq _ _) (not_eq_sym Hother)).
  - intros t id r Hr Hp. destruct (decide (t = ApiKeys)) as [->|Ht]; [done|].
    unfold rows_of. by rewrite Ho.
Qed.

Lemma leaves_GetAPIKey id : leaves (λ _, True) (GetAPIKey secrets id) anything.
Proof.
  intros db Hwf _. apply always_bind, always_stmt; [done|]. intros k db' Hs.
  assert (db' = db) as ->.
  { destruct (head _) as [r|]; [|by injection Hs as _ <-].
    destruct (scanAPIKey secrets r); [by injection Hs as _ <-|done]. }
  destruct k; by apply always_Ret.
Qed.

Lemma leaves_requireKeyServer k serverName :
  key_ID k = key →
  leaves (λ _, True) (requireKeyServer secrets k serverName) (λ r _,
    match r with inl k' => key_ID k' = key | inr _ => True end).
Proof.
  intros Hk. unfold requireKeyServer.
  assert (∀ k' (I : DB → Prop), key_ID k' = key →
    leaves I (mret (check_bound k' (TrimSpace serverName))) (λ r _,
      match r with inl k' => key_ID k' = key | inr _ => True end)) as Hcheck.
  { intros k' I Hk'. apply leaves_mret. intros db _. unfold check_bound. by destruct (negb _). }
  destruct (str_empty _); [by apply leaves_mret|].
  destruct (negb _); [by apply Hcheck|].
  eapply leaves_andThen; [rewrite Hk; apply leaves_BindAPIKeyServerName| |].
  - intros []; [by apply leaves_mret|].
    eapply leaves_andThen; [eapply leaves_weaken; [apply leaves_GetAPIKey|done|done]| |].
    + intros cur. by apply Hcheck.
    + intros e. by apply leaves_mret.
  - intros e. by apply leaves_mret.
Qed.
End programs.

(** ** Handlers *)

Section handlers.
Context `{!Crypto, !SqlOrder, !MapRange}.
Context (secrets : option Box) (other : Z).

Definition calm (I : DB → Prop) (p : prog Api Response) : Prop :=
  ∀ s, wf (a_db s) → I (a_db s) →
    always p (λ _ s', wf (a_db s') ∧ untouched other (a_db s) (a_db s')) s.

Lemma calm_mret I r : calm I (mret r).
Proof. intros s Hwf Hi. by apply always_Ret. Qed.

Lemma calm_queue I (k : () → prog Api Response) :
  (∀ u, calm I (k u)) → calm I (queue_alerts ≫= k).
Proof. intros Hk s Hwf Hi. unfold queue_alerts, modify. apply always_bind, always_local.
  exact (Hk () {| a_db := a_db s; a_queue := true; a_limiter := a_limiter s |} Hwf Hi). Qed.

Lemma calm_andThen I {A} (p : prog DB A) (f : result A → prog Api Response) K :
  leaves other I p K → (∀ a, calm (K a) (f (Ok a))) → (∀ e, calm (λ _, True) (f (Err e))) →
  calm I (andThen (on_db p) f).
Proof.
  intros Hp Hk He s Hwf Hi. apply always_andThen, always_on_db.
  eapply always_mono; [by apply Hp|]. intros [a|e] db' (Hwf' & Hun & HK);
    [eapply always_mono; [by apply (Hk a (set_db db' s))|]
    |eapply always_mono; [by apply (He e (set_db db' s))|]];
    intros r s' [Hwf'' Hun']; (split; [done|]; by transitivity db').
Qed.

Lemma calm_check I {A} (p : prog DB A) resp (k : A → prog Api Response) K :
  leaves other I p K → (∀ a, calm (K a) (k a)) → calm I (check (on_db p) resp k).
Proof. intros Hp Hk. eapply calm_andThen; [exact Hp|done|]. intros e. apply calm_mret. Qed.

Lemma leaves_query I {A} (f : DB → A) : leaves other I (query f) (λ _, I).
Proof. intros db Hwf Hi. by apply always_query. Qed.

Lemma leaves_read I {A} (f : DB → result A) : leaves other I (read f) (λ _, I).
Proof.
  intros db Hwf Hi. apply always_stmt; [done|]. intros a db'. destruct (f db); [|done].
  by intros [= -> <-].
Qed.

Context (k : APIKey).
Hypothesis Hkey : 0 < key_ID k.
Hypothesis Hother : key_ID k ≠ other.

Lemma calm_for_server serverName h :
  (∀ k', key_ID k' = key_ID k → calm (λ _, True) (h k')) →
  calm (λ _, True) (for_server secrets k serverName h).
Proof.
  intros Hh. eapply calm_check; [by eapply leaves_requireKeyServer|].
  intros [k'|resp]; [|apply calm_mret]. intros s Hwf Hk. by apply Hh.
Qed.

Lemma calm_accept_report hostname invalid save :
  (∀ k', key_ID k' = key_ID k → leaves other (λ _, True) (save k') anything) →
  calm (λ _, True) (accept_report secrets k hostname invalid (λ k, on_db (save k))).
Proof.
  intros Hs. destruct invalid; [apply calm_mret|]. apply calm_for_server. intros k' Hk'.
  eapply calm_check; [by apply Hs|]. intros []. apply calm_queue. intros u. apply calm_mret.
Qed.

Lemma leaves_save_report {A} msg1 msg2 (key : Z) kd (up up0 : prog DB Z) (ins : Z → prog DB A) :
  key = key_ID k → leaves other (λ _, True) up (λ id, own key kd id) →
  (∀ id, spares other (λ _, True) (ins id)) →
  leaves other (λ _, True)
    (wrap_err msg1 (if 0 <? key then up else up0) ≫= λ id, wrap_err msg2 (ins id)) anything.
Proof.
  intros Hk Hup Hins. rewrite (proj2 (Z.ltb_lt 0 key)) by lia.
  eapply leaves_bind; [by apply leaves_wrap_err|]. intros id. apply leaves_wrap_err.
  eapply leaves_weaken; [by apply spares_leaves|done|done].
Qed.

Lemma leaves_own_windows key :
  leaves other (λ _, True) (GetWindowsServerByAPIKey key) (λ sv, own key Windows (wins_ID sv)).
Proof.
  eapply leaves_bind; [apply leaves_find_of_key; by intros r [Ho _]%of_key_true|].
  intros [id|]; [|by apply leaves_fail].
  intros db Hwf Hown. apply always_stmt; [done|]. intros sv db'. unfold GetWindowsServer, get_server.
  destruct (scan_first _ _) as [sv0|] eqn:Hs; [|done]. intros [= -> <-]. split_and!; [done|done|].
  destruct (select_from _ _ _ db) as [|r l] eqn:Hsel; [done|]. cbn in Hs.
  unfold scan_windows in Hs. apply result_bind_Ok in Hs as ([[[ip pub] ver] m] & _ & [= <-]). cbn.
  assert (r ∈ select_from (Servers Windows) (λ r, has_id id r && negb (sr_IsDeleted r)) any_order db)
    as Hin by (rewrite Hsel; left).
  apply elem_of_select in Hin as [[Hi%Z.eqb_eq _]%andb_true_iff _]. by rewrite Hi.
Qed.

Lemma leaves_save_windows now req (k' : APIKey) :
  key_ID k' = key_ID k → leaves other (λ _, True) (save_windows now req k') anything.
Proof.
  intros Hk'. unfold save_windows, SaveWindowsReportForAPIKey. rewrite Hk'. eapply leaves_bind.
  { eapply (leaves_save_report _ _ _ Windows); [done| |].
    - by apply leaves_upsert.
    - intros id. apply spares_InsertWindowsReportData. }
  intros u. apply (leaves_andThen _ _ _ _ (λ sv, own (key_ID k) Windows (wins_ID sv))).
  { eapply leaves_weaken; [apply leaves_own_windows|done|done]. }
  - intros sv. eapply leaves_andThen.
    { by apply (leaves_heartbeat other (key_ID k) Hother now (heartbeat_of_windows now req sv)). }
    all: intros; by apply leaves_mret.
  - intros e. by apply leaves_mret.
Qed.

Lemma leaves_save_heartbeat now kd req (k' : APIKey) :
  key_ID k' = key_ID k → leaves other (λ _, True) (save_heartbeat now kd req k') anything.
Proof.
  intros Hk'. unfold save_heartbeat. rewrite Hk'. apply (leaves_bind _ _ _ _ anything).
  { unfold known_public_ip. destruct (str_empty _); [|by apply leaves_mret].
    eapply (leaves_andThen _ _ _ _ anything); [|intros; by apply leaves_mret..].
    unfold ServerPublicIPForAPIKey. destruct (server_kind_of _); [|apply leaves_fail].
    eapply leaves_bind; [apply leaves_query|]. intros []; [by apply leaves_mret|apply leaves_fail]. }
  intros ip. eapply leaves_bind; [by apply leaves_upsert|]. intros id.
  eapply leaves_weaken; [by apply (leaves_heartbeat other (key_ID k))|done|done].
Qed.

Lemma calm_for_pve_server now server h :
  (∀ id, calm (own (key_ID k) PVE id) (h id)) →
  calm (λ _, True) (for_pve_server secrets now k server h).
Proof.
  intros Hh. apply calm_for_server. intros k' Hk'. unfold pveServerIDForKey. rewrite Hk'.
  eapply calm_check; [by apply leaves_resolve|done].
Qed.

Context `{!ReadStore}.

Lemma calm_handle rs now r : calm (λ _, True) (handle secrets rs now r k).
Proof.
  destruct r as [req|req|req|req| | |id limit| |server|server req|server req|server vmid req
    |server vmid|server vmid]; cbn [handle].
  - destruct req as [req|]; [|apply calm_mret]. cbn. destruct (HeartbeatRequest_Validate _);
      [apply calm_mret|]. destruct (server_kind_of _); [|apply calm_mret].
    apply calm_for_server. intros k' Hk'. eapply calm_check; [by apply leaves_save_heartbeat|].
    intros []. apply calm_queue. intros u. apply calm_mret.
  - destruct req as [req|]; [|apply calm_mret]. apply calm_accept_report. intros k' Hk'.
    unfold SavePVEReportForAPIKey. rewrite Hk'.
    eapply (leaves_save_report _ _ _ PVE); [done|by apply leaves_upsert|].
    intros id. apply spares_InsertPVEReportData.
  - destruct req as [req|]; [|apply calm_mret]. apply calm_accept_report. intros k' Hk'.
    unfold SavePBSReportForAPIKey. rewrite Hk'.
    eapply (leaves_save_report _ _ _ PBS); [done|by apply leaves_upsert|].
    intros id. apply spares_InsertPBSReportData.
  - destruct req as [req|]; [|apply calm_mret]. apply calm_accept_report. intros k' Hk'.
    by apply leaves_save_windows.
  - apply calm_mret.
  - eapply calm_check; [apply leaves_read|]. intros l. apply calm_mret.
  - unfold H_ListPVEReports. destruct (ParseInt id) as [n []]; [|apply calm_mret].
    eapply calm_check; [apply leaves_read|]. intros sv. destruct (_ && _); [apply calm_mret|].
    destruct (keyMayReadServer _ _); [apply calm_mret|].
    eapply calm_check; [apply leaves_query|]. intros l. apply calm_mret.
  - eapply calm_check; [apply leaves_read|]. intros l. apply calm_mret.
  - unfold H_GetBackupConfig. destruct (keyMayReadServer _ _); [apply calm_mret|].
    eapply calm_check; [apply leaves_query|]. intros [id|].
    + eapply calm_check; [apply leaves_query|]. intros l. apply calm_mret.
    + intros s Hwf Hi. unfold check. apply always_andThen, always_Ret. by apply always_Ret.
  - apply calm_for_pve_server. intros id. destruct req as [b|]; [|apply calm_mret].
    eapply calm_check; [by apply (leaves_inventory other (key_ID k))|]. intros []. apply calm_mret.
  - apply calm_for_pve_server. intros id. destruct req as [req|]; [|apply calm_mret].
    destruct (negb _); [apply calm_mret|].
    eapply calm_check; [by apply (leaves_create other (key_ID k))|]. intros cid.
    eapply calm_andThen; [by apply (leaves_inventory other (key_ID k))|intros; apply calm_mret..].
  - unfold H_UpdateVMConfig. destruct (negb _); [apply calm_mret|].
    apply calm_for_pve_server. intros id. destruct req as [req|]; [|apply calm_mret].
    eapply calm_check.
    { apply (leaves_config_update other (key_ID k)); [done|done|]. intros r. apply config_at_of. }
    intros []. eapply calm_andThen; [by apply (leaves_inventory other (key_ID k))|intros; apply calm_mret..].
  - unfold H_DeleteVMConfig. destruct (negb _); [apply calm_mret|].
    apply calm_for_pve_server. intros id. eapply calm_check.
    { apply (leaves_config_update other (key_ID k)); [done|done|]. intros r. apply config_at_of. }
    intros []. apply calm_mret.
  - unfold H_ToggleVMExclude. destruct (negb _); [apply calm_mret|].
    apply calm_for_pve_server. intros id. eapply calm_check.
    { apply (leaves_config_update other (key_ID k)); [done|done|]. intros r. apply config_at_of. }
    intros []. apply calm_mret.
Qed.
End handlers.

(** ** The middleware *)

Section requests.
Context `{!Crypto, !SqlOrder, !MapRange, !ReadStore}.
Context (secrets : option Box).

#[local] Instance only_keys_PreOrder : PreOrder only_keys.
Proof. split; [by intros db t|]. intros db1 db2 db3 H12 H23 t Ht. by rewrite H23, H12. Qed.

Lemma along_find_key box cond : along wf only_keys (find_key box cond).
Proof.
  apply along_stmt; [apply _|]. intros db k db' Hwf Hs.
  assert (db' = db) as ->; [|done]. destruct (head _) as [r|]; [|by injection Hs as _ <-].
  destruct (scanAPIKey box r); [by injection Hs as _ <-|done].
Qed.

Lemma along_UPDATE_keys cond f :
  (∀ r, ak_ID (f r) = ak_ID r) → along wf only_keys (UPDATE ApiKeys cond f).
Proof.
  intros Hf. apply along_stmt; [apply _|]. intros db n db' Hwf Hu.
  split; [by eapply (wf_update_stmt ApiKeys); [|exact Hwf|exact Hu]|by eapply update_only_keys].
Qed.

Ltac only_the_keys :=
  repeat first
    [ progress intros
    | lazymatch goal with
      | |- along _ _ (mret _) => apply along_Ret, _
      | |- along _ _ (fail _) => apply along_Ret, _
      | |- along _ _ (_ ≫= _) => apply along_bind; [apply _| |]
      | |- along _ _ (andThen _ _) => apply along_andThen; [apply _| |]
      | |- along _ _ (wrap_err _ _) => apply along_wrap_err; [apply _|]
      | |- along _ _ (find_key _ _) => apply along_find_key
      | |- along _ _ (UPDATE _ _ _) => by apply along_UPDATE_keys
      | |- along _ _ (match ?x with _ => _ end) => destruct x
      end ].

Lemma along_requireKeyServer k serverName :
  along wf only_keys (requireKeyServer secrets k serverName).
Proof. unfold requireKeyServer, BindAPIKeyServerName, GetAPIKey. only_the_keys. Qed.

Lemma along_ValidateServerKey now nonce raw m :
  along wf only_keys (ValidateServerKey secrets now nonce raw m).
Proof.
  unfold ValidateServerKey, GetAPIKeyByValue, protectAPIKeyValue, bind_machine,
    BindAPIKeyMachineID, UpdateAPIKeyLastUsed, GetAPIKey. only_the_keys.
Qed.

(** The key that a request was let through with. *)
Definition keyed (raw machineID : string) (db : DB) (k : APIKey) : Prop :=
  ∃ row, rows_of db ApiKeys !! key_ID k = Some row ∧ presents secrets raw row ∧
    ak_IsActive row = true ∧ machineID ≠ "" ∧
    (machine_of row = "" ∨ machine_of row = machineID).

(** A request is answered before its handler, with nothing but its key changed, or by
    its handler. *)
Lemma always_requireServerKey now nonce authorization machineID next (Q : result Response → Api → Prop) s :
  wf (a_db s) →
  let raw := ExtractBearer authorization in
  (∀ resp s', code resp = 401 ∨ code resp = 429 → wf (a_db s') → only_keys (a_db s) (a_db s') →
     (∀ id row, rows_of (a_db s) ApiKeys !! id = Some row → ¬ presents secrets raw row →
        auths (a_db s') !! id = auths (a_db s) !! id) →
     a_queue s' = a_queue s → Q (Ok resp) s') →
  (∀ k s', keyed raw machineID (a_db s) k → wf (a_db s') → only_keys (a_db s) (a_db s') →
     (∀ id row, rows_of (a_db s) ApiKeys !! id = Some row → ¬ presents secrets raw row →
        auths (a_db s') !! id = auths (a_db s) !! id) →
     a_queue s' = a_queue s → always (next k) Q s') →
  always (requireServerKey secrets now nonce authorization machineID next) Q s.
Proof.
  intros Hwf raw Hresp Hnext. unfold requireServerKey, check. fold raw.
  apply always_andThen, always_on_db. eapply always_mono.
  { apply always_and; [by apply ValidateServerKey_spec|by apply along_ValidateServerKey]. }
  intros [k|e] db' [[Hok HQ] [Hwf' _]].
  - destruct HQ as (row & Hr & Hp & Hact & Hty & Hne & Hm & _ & _ & Hau).
    assert (∀ id row, rows_of (a_db s) ApiKeys !! id = Some row → ¬ presents secrets raw row →
      auths db' !! id = auths (a_db s) !! id) as Hids.
    { intros id row' Hr' Hnp. rewrite Hau, lookup_insert_ne; [done|]. intros <-.
      by rewrite (row_det _ _ _ _ Hr' Hr) in Hnp. }
    apply always_bind, always_local. cbn beta.
    destruct (AllowKey _ _ _ _) as [[] m] eqn:Ha; cbn [fst snd negb].
    + apply Hnext; [|done..]. exists row. by split_and!.
    + apply always_Ret, Hresp; try done. by right.
  - apply always_Ret, Hresp; try done; [by left|]. intros id row Hr Hnp. cbn. by rewrite HQ.
Qed.

(** ** The theorems *)

(** The rows of [api_keys] are numbered from one. *)
Definition positive_keys (db : DB) : Prop :=
  ∀ id row, rows_of db ApiKeys !! id = Some row → 0 < id.

Lemma only_keys_untouched key db db' :
  only_keys db db' → auths db' !! key = auths db !! key → untouched key db db'.
Proof.
  intros Ho Ha. split; [done|]. intros t id r Hr Hp.
  destruct (decide (t = ApiKeys)) as [->|Ht]; [done|]. unfold rows_of. by rewrite Ho.
Qed.

Lemma other_keys_untouched_all (rs : ReportService) (now : Time) (nonce : result string)
    (authorization machineID : string) (r : Request) (s : Api) (other : Z) (row : APIKeyRow) :
  wf (a_db s) → positive_keys (a_db s) → rows_of (a_db s) ApiKeys !! other = Some row →
  ¬ presents secrets (ExtractBearer authorization) row →
  always (serve secrets rs now nonce authorization machineID r) (λ _ s',
    wf (a_db s') ∧ untouched other (a_db s) (a_db s')) s.
Proof.
  intros Hwf Hpos Hrow Hnp. apply always_requireServerKey; [done|..].
  - intros resp s' _ Hwf' Ho Ha _. split; [done|]. apply only_keys_untouched; [done|].
    by apply (Ha other row).
  - intros k s' (row' & Hr & Hp & _) Hwf' Ho Ha _.
    assert (key_ID k ≠ other) as Hne.
    { intros He. rewrite He in Hr. by rewrite (row_det _ _ _ _ Hr Hrow) in Hp. }
    eapply always_mono; [by apply (calm_handle secrets other k (Hpos _ _ Hr) Hne rs now r s')|].
    intros res s'' [Hwf'' Hun]. split; [done|]. transitivity (a_db s'); [|done].
    apply only_keys_untouched; [done|]. by apply (Ha other row).
Qed.

(** C7: whatever a client asks for, and whatever fails, nothing that belongs to a key it
    does not present changes: neither the binding and state of that key, nor its
    servers, nor their heartbeats and schedules; and no report or alert setting that
    is stored changes or goes, whosever it is. *)
Theorem other_keys_untouched (rs : ReportService) (now : Time) (nonce : result string)
    (authorization machineID : string) (r : Request) (s : Api) (other : Z) (row : APIKeyRow) :
  wf (a_db s) → positive_keys (a_db s) → rows_of (a_db s) ApiKeys !! other = Some row →
  ¬ presents secrets (ExtractBearer authorization) row →
  always (serve secrets rs now nonce authorization machineID r) (λ _ s',
    wf (a_db s') ∧ untouched other (a_db s) (a_db s')) s.
Proof. apply other_keys_untouched_all. Qed.

(** What is answered instead of the key is not a success. *)
Lemma requireKeyServer_answers k serverName db :
  always (requireKeyServer secrets k serverName) (λ r _,
    match r with
    | Ok (inl k') => key_ID k' = key_ID k
    | Ok (inr resp) => code resp ≠ 200
    | Err _ => True
    end) db.
Proof.
  unfold requireKeyServer.
  assert (∀ k' db, key_ID k' = key_ID k →
    always (mret (check_bound k' (TrimSpace serverName))) (λ r (_ : DB),
    match r with
    | Ok (inl k') => key_ID k' = key_ID k
    | Ok (inr resp) => code resp ≠ 200
    | Err _ => True
    end) db) as Hcheck.
  { intros k' db' Hk. apply always_Ret. unfold check_bound. by destruct (negb _). }
  destruct (str_empty _); [by apply always_Ret|]. destruct (negb _); [by apply Hcheck|].
  apply always_andThen. intros io. destruct (exec _ io db) as [[[[]|e] db1] io1].
  - by apply always_Ret.
  - apply always_andThen. intros io2. destruct (exec _ io2 db1) as [[[cur|e] db2] io3].
    + by apply Hcheck.
    + by apply always_Ret.
  - by apply always_Ret.
Qed.

Lemma always_for_server k serverName h (Q : result Response → Api → Prop) s :
  wf (a_db s) →
  (∀ resp s', code resp ≠ 200 → wf (a_db s') → only_keys (a_db s) (a_db s') →
     a_queue s' = a_queue s → Q (Ok resp) s') →
  (∀ k' s', key_ID k' = key_ID k → wf (a_db s') → only_keys (a_db s) (a_db s') →
     a_queue s' = a_queue s → always (h k') Q s') →
  always (for_server secrets k serverName h) Q s.
Proof.
  intros Hwf Hresp Hh. apply always_andThen, always_on_db. eapply always_mono.
  { apply always_and; [by apply along_requireKeyServer|].
    apply requireKeyServer_answers. }
  intros [[k'|resp]|e] db' [[Hwf' Ho] Hr].
  - by apply Hh.
  - by apply always_Ret, Hresp.
  - by apply always_Ret, Hresp.
Qed.

(** C8: a PVE report is answered with success only when it is stored, once, for the
    server of its key, and the alert run is queued; with any other answer the stored
    reports and the queue are as they were. *)
Theorem report_accepted_is_stored (rs : ReportService) (now : Time) (nonce : result string)
    (authorization machineID : string) (req : result PVEReportRequest) (s : Api) :
  wf (a_db s) → positive_keys (a_db s) →
  always (serve secrets rs now nonce authorization machineID (PostReportPVE req)) (λ r s',
    ∃ resp, r = Ok resp ∧
    if code resp =? 200
    then ∃ k q id n, req = Ok q ∧ keyed (ExtractBearer authorization) machineID (a_db s) k ∧
      PVEReportRequest_Validate (trim_pve q) = None ∧ pve_server_of (key_ID k) (a_db s') id ∧
      pve_reports (a_db s') = spec_insert now id (trim_pve q) n (pve_reports (a_db s)) ∧
      a_queue s' = true
    else pve_reports (a_db s') = pve_reports (a_db s) ∧ a_queue s' = a_queue s) s.
Proof.
  intros Hwf Hpos.
  assert (∀ db, only_keys (a_db s) db → pve_reports db = pve_reports (a_db s)) as Hframe.
  { intros db Ho. apply pve_reports_frame. intros t Ht. apply Ho. intros ->. revert Ht. set_solver. }
  match goal with |- always _ ?Q _ => set (post := Q) end.
  assert (∀ resp s', code resp ≠ 200 → only_keys (a_db s) (a_db s') → a_queue s' = a_queue s →
    post (Ok resp) s') as Hrefuse.
  { intros resp s' Hc Ho Hq. exists resp. split; [done|].
    rewrite (proj2 (Z.eqb_neq _ _) Hc). auto. }
  apply always_requireServerKey; [done|..].
  { intros resp s' Hc _ Ho _ Hq. apply Hrefuse; [lia|done..]. }
  intros k s' Hk Hwf' Ho _ Hq. cbn [handle]. unfold H_ReportPVE.
  destruct req as [q|]; [|by apply always_Ret, Hrefuse].
  unfold accept_report. destruct (PVEReportRequest_Validate _) eqn:Hv;
    [by apply always_Ret, Hrefuse|].
  apply always_for_server; [done|..].
  { intros resp s'' Hc _ Ho' Hq'. apply Hrefuse; [done|by transitivity (a_db s')|congruence]. }
  intros k' s'' Hid Hwf'' Ho' Hq'. destruct Hk as (row & Hr & Hkr).
  apply always_andThen, always_on_db. eapply always_mono.
  { apply SavePVEReport_step; [|done]. rewrite Hid. by apply (Hpos _ row). }
  intros [[]|e] db3 [Hwf3 Hst]; cbn beta iota.
  - destruct Hst as (id & n & Hsv & _ & Hrep). apply always_bind, always_local, always_Ret.
    eexists. split; [done|]. cbn. exists k, q, id, n. split_and!; [done|by exists row|done| | |done].
    + by rewrite <-Hid.
    + rewrite Hrep. f_equal. apply Hframe. by transitivity (a_db s').
  - apply always_Ret. exists internalErr. split; [done|]. cbn. destruct Hst as [-> _].
    split; [|congruence]. apply Hframe. by transitivity (a_db s').
Qed.

Lemma report_limit_bound l : 0 < report_limit l ≤ 100.
Proof.
  unfold report_limit. destruct (ParseInt l) as [n ok].
  destruct (ok && (0 <? n) && (n <=? 100)) eqn:Hn; lia.
Qed.

Lemma reports_of_limit id limit db rep :
  0 < limit → rep ∈ ListPVEReports id limit db →
  pver_ServerID rep = id ∧ len (ListPVEReports id limit db) ≤ limit.
Proof.
  intros Hl. unfold ListPVEReports, limit_offset, len. rewrite drop_0, (proj2 (Z.ltb_ge limit 0)) by lia.
  intros Hin. split; [|rewrite length_take; lia].
  apply elem_of_take in Hin as (i & Hin%list_elem_of_lookup_2 & _). unfold reports_of in Hin.
  apply list_elem_of_fmap in Hin as (r & -> & Hr).
  apply (elem_of_select (Reports PVE)) in Hr as [Hr _]. by apply Z.eqb_eq.
Qed.

Lemma always_check_read {A} (f : DB → result A) resp (k : A → prog Api Response)
    (Q : result Response → Api → Prop) s :
  (∀ e, Q (Ok (resp e)) s) → (∀ a, f (a_db s) = Ok a → always (k a) Q s) →
  always (check (on_db (read f)) resp k) Q s.
Proof.
  assert (set_db (a_db s) s = s) as Hs by (by destruct s).
  intros He Hk. apply always_andThen, always_on_db, always_stmt.
  - intros e. rewrite Hs. by apply always_Ret.
  - intros a db'. destruct (f (a_db s)) as [a'|] eqn:Hf; [|done]. intros [= -> <-].
    rewrite Hs. by apply Hk.
Qed.

(** A server that a client of [k] may read: its own, or one that no key owns and whose
    name [k] is bound to. *)
Definition readable (k : APIKey) (row : ServerRow) : Prop :=
  sr_IsDeleted row = false ∧
  (sr_APIKeyID row = Some (key_ID k) ∨
   default 0 (sr_APIKeyID row) = 0 ∧ TrimSpace (key_ServerName k) ≠ "" ∧
   TrimSpace (sr_Name row) = TrimSpace (key_ServerName k)).

(** a client is shown reports only of one server that is not deleted, a hundred at
    most: of the server its key owns, or of a server that no key owns and whose name
    its key is bound to.  Asking changes nothing. *)
Theorem reports_shown (rs : ReportService) (k : APIKey) (id limit : string) (s : Api) :
  wf (a_db s) → 0 < key_ID k →
  always (H_ListPVEReports rs k id limit) (λ r s', s' = s ∧
    ∀ resp, r = Ok resp → code resp = 200 →
    ∃ n row sv reports, ParseInt id = (n, true) ∧ body resp = BReports sv reports ∧
      rows_of (a_db s) (Servers PVE) !! n = Some row ∧ readable k row ∧
      ∀ rep, rep ∈ reports → pver_ServerID rep = n ∧ len reports ≤ 100) s.
Proof.
  intros Hwf Hkey. unfold H_ListPVEReports. destruct (ParseInt id) as [n []] eqn:Hid; cbn [negb];
    [|apply always_Ret; split; [done|]; by intros resp [= <-]].
  apply always_check_read; [split; [done|]; by intros resp [= <-]|].
  intros sv Hsv. unfold GetPVEServer, get_server in Hsv.
  destruct (select_from _ _ _ _) as [|row l] eqn:Hsel; [done|]. cbn in Hsv.
  assert (row ∈ select_from (Servers PVE) (λ r, has_id n r && negb (sr_IsDeleted r)) any_order (a_db s))
    as Hin by (rewrite Hsel; left).
  apply (elem_of_select (Servers PVE)) in Hin as [[Hn%Z.eqb_eq Hdel%negb_true_iff]%andb_true_iff [i Hrow]].
  assert (i = n) as -> by (rewrite <-Hn; symmetry; by apply (wf_ids _ Hwf (Servers PVE))).
  unfold scan_pve in Hsv. apply result_bind_Ok in Hsv as ([[[ip pub] ver] m] & _ & [= <-]).
  cbn [pves_APIKeyID pves_Name].
  destruct (negb _ && _) eqn:Hauth; [apply always_Ret; split; [done|]; by intros resp [= <-]|].
  destruct (keyMayReadServer k (sr_Name row)) as [resp|] eqn:Hmay.
  { apply always_Ret. split; [done|]. intros resp' [= <-] Hc. exfalso. revert Hmay Hc.
    unfold keyMayReadServer. cbv zeta. case_match; [by intros [= <-]|].
    case_match; [by intros [= <-]|done]. }
  unfold query. apply (always_check_read (λ db, Ok (ListPVEReports n (report_limit limit) db)));
    [split; [done|]; by intros resp [= <-]|].
  intros reports [= <-]. apply always_Ret. split; [done|]. intros resp [= <-] _.
  eexists n, row, _, _. split_and!; [done|done|done| |]; cycle 1.
  - intros rep Hrep. pose proof (report_limit_bound limit).
    apply reports_of_limit in Hrep; [|lia]. destruct Hrep. split; [done|lia].
  - split; [done|]. apply andb_false_iff in Hauth as [Hk|Hk].
    + left. apply negb_false_iff, Z.eqb_eq in Hk. destruct (sr_APIKeyID row); cbn in Hk; [congruence|lia].
    + right. apply orb_false_iff in Hk as [Hz%negb_false_iff%Z.eqb_eq Hs].
      unfold str_empty in Hs. apply bool_decide_eq_false in Hs. split_and!; [done|done|].
      unfold keyMayReadServer in Hmay. cbv zeta in Hmay.
      destruct (str_empty (TrimSpace (sr_Name row))); [done|].
      unfold str_empty in Hmay. rewrite (bool_decide_false (_ = "")) in Hmay by done.
      destruct (str_eqb _ _) eqn:He; [|done]. apply str_eqb_eq in He. by symmetry.
Qed.
End requests.

(** ** Examples *)

Module ApiExamples.
Definition secrets : option Box := Some example_box.

(** Two keys, for two servers. *)
Definition two_keys : prog DB APIKey :=
  CreateAPIKey secrets 5 (Ok "abc") (Ok "123456789012") "" "pve1" "" ≫= λ _,
  CreateAPIKey secrets 6 (Ok "xyz") (Ok "123456789013") "" "pve2" "".

Definition db2 : DB := (run two_keys empty_db).2.

Lemma wf_keys_db2 : wf db2.
Proof.
  apply wf_run; [|apply wf_empty_db]. unfold two_keys, CreateAPIKey, GetAPIKey.
  assert (∀ cond, preserves wf (find_key secrets cond)) as Hfind.
  { intros cond. apply preserves_stmt. intros t k t' Hwf. destruct (head _) as [r|]; [|by intros [= _ <-]].
    destruct (scanAPIKey secrets r); [by intros [= _ <-]|done]. }
  apply preserves_bind; [|intros _]; (apply preserves_bind;
    [by apply preserves_INSERT|intros i; apply preserves_bind; [apply Hfind|intros []; constructor]]).
Qed.

Lemma positive_db2 : positive_keys db2.
Proof.
  assert (forallb (λ kr, 0 <? kr.1) (map_to_list (rows_of db2 ApiKeys)) = true) as Hall
    by (vm_compute; reflexivity).
  intros id row Hr%elem_of_map_to_list. rewrite forallb_forall in Hall.
  by apply Z.ltb_lt, (Hall (id, row)), list_elem_of_In.
Qed.

Definition start : Api := {| a_db := db2; a_queue := false; a_limiter := ∅ |}.
Definition service : ReportService := {| rs_tz := UTC; rs_now := 100 * Second |}.

Definition store : ReadStore := static_store defaultEmailConfig [] ∅ ∅ ∅ ∅ [].

#[local] Existing Instance store.

Definition answer (r : Request) : result Response * Api :=
  run (serve secrets service (30 * Second) (Err (ErrMsg "unused")) "Bearer pbk-616263" "m1" r) start.

Definition claim (m : string) (n : nat) : Claim :=
  {| cl_now := 30 * Second; cl_nonce := Err (ErrMsg "unused"); cl_key := "pbk-616263";
     cl_machine := m; cl_server := "pve1 " |}.
End ApiExamples.

#[local] Existing Instance ApiExamples.store.

Definition is_200 (r : result Response) : bool :=
  match r with Ok resp => code resp =? 200 | Err _ => false end.

Lemma other_keys_untouched_witness :
  is_200 (ApiExamples.answer (PostReportPVE (Ok (PveExamples.request "a")))).1 = true ∧
  untouched 2 ApiExamples.db2
    (a_db (ApiExamples.answer (PostReportPVE (Ok (PveExamples.request "a")))).2).
Proof.
  split; [vm_compute; reflexivity|].
  assert (∃ row, rows_of ApiExamples.db2 ApiKeys !! 2 = Some row ∧
    ak_KeyHash row ≠ LookupHash example_box "pbk-616263" ∧ ak_Key row ≠ "pbk-616263")
    as (row & Hr & Hh & Hk).
  { eexists. split; [vm_compute; reflexivity|]. split; vm_compute; discriminate. }
  refine (proj2 (always_run _ _ _ (other_keys_untouched ApiExamples.secrets ApiExamples.service
    (30 * Second) (Err (ErrMsg "unused")) "Bearer pbk-616263" "m1"
    (PostReportPVE (Ok (PveExamples.request "a"))) ApiExamples.start 2 row
    ApiExamples.wf_keys_db2 ApiExamples.positive_db2 Hr _))).
  change (ExtractBearer "Bearer pbk-616263") with "pbk-616263".
  intros [(b & [= <-] & Hb)|[_ Hb]]; [by apply Hh|by apply Hk].
Defined.

Lemma report_accepted_is_stored_witness :
  ∃ id n, pve_reports (a_db (ApiExamples.answer (PostReportPVE (Ok (PveExamples.request "a")))).2) =
    spec_insert (30 * Second) id (trim_pve (PveExamples.request "a")) n [].
Proof.
  assert (is_200 (ApiExamples.answer (PostReportPVE (Ok (PveExamples.request "a")))).1 = true)
    as Hok by (vm_compute; reflexivity).
  destruct (always_run _ _ _ (report_accepted_is_stored ApiExamples.secrets ApiExamples.service
    (30 * Second) (Err (ErrMsg "unused")) "Bearer pbk-616263" "m1" (Ok (PveExamples.request "a"))
    ApiExamples.start ApiExamples.wf_keys_db2 ApiExamples.positive_db2)) as (resp & Hr & Hres).
  unfold ApiExamples.answer in *. rewrite Hr in Hok. cbn [is_200] in Hok. rewrite Hok in Hres.
  destruct Hres as (k & q & id & n & [= <-] & _ & _ & _ & Hrep & _). exists id, n. exact Hrep.
Defined.

(** The server of key 1, with one report. *)
Definition reported : Api :=
  (ApiExamples.answer (PostReportPVE (Ok (PveExamples.request "a")))).2.

Lemma wf_reported : wf (a_db reported).
Proof.
  assert (∃ row, rows_of ApiExamples.db2 ApiKeys !! 2 = Some row ∧
    ak_KeyHash row ≠ LookupHash example_box "pbk-616263" ∧ ak_Key row ≠ "pbk-616263")
    as (row & Hr & Hh & Hk).
  { eexists. split; [vm_compute; reflexivity|]. split; vm_compute; discriminate. }
  refine (proj1 (always_run _ _ _ (other_keys_untouched_all ApiExamples.secrets ApiExamples.service
    (30 * Second) (Err (ErrMsg "unused")) "Bearer pbk-616263" "m1"
    (PostReportPVE (Ok (PveExamples.request "a"))) ApiExamples.start 2 row
    ApiExamples.wf_keys_db2 ApiExamples.positive_db2 Hr _))).
  change (ExtractBearer "Bearer pbk-616263") with "pbk-616263".
  intros [(b & [= <-] & Hb)|[_ Hb]]; [by apply Hh|by apply Hk].
Qed.

Definition key1 : APIKey :=
  {| key_ID := 1; key_Key := ""; key_Name := ""; key_KeyType := "server"; key_IsActive := true;
     key_MachineID := "m1"; key_LastUsed := None; key_ServerName := "pve1";
     key_ServerURL := ""; key_CreatedAt := 0 |}.

Lemma reports_shown_witness :
  is_200 (run (H_ListPVEReports ApiExamples.service key1 "1" "") reported).1 = true ∧
  ∃ sv reports, (body <$> (run (H_ListPVEReports ApiExamples.service key1 "1" "") reported).1)
    = Ok (BReports sv reports) ∧ ∀ rep, rep ∈ reports → pver_ServerID rep = 1.
Proof.
  assert (is_200 (run (H_ListPVEReports ApiExamples.service key1 "1" "") reported).1 = true)
    as Hok by (vm_compute; reflexivity).
  split; [exact Hok|].
  destruct (always_run _ _ _ (reports_shown ApiExamples.service key1 "1" "" reported wf_reported
    ltac:(reflexivity))) as [_ Hshown].
  destruct (run _ reported) as [[resp|e] s']; [|discriminate Hok]. cbn [fst snd] in *.
  destruct (Hshown resp eq_refl) as (n & row & sv & reports & Hn & Hb & _ & _ & Hrep);
    [by apply Z.eqb_eq|].
  exists sv, reports. split; [cbn; by rewrite Hb|]. intros rep Hin.
  assert (n = 1) as -> by (revert Hn; vm_compute; congruence). by apply Hrep.
Defined.

(** Two machines present one key, a statement each in turn. *)
Definition rivals (n : nat) : Claim := ApiExamples.claim (if n =? 0 then "m1" else "m2")%nat n.
Definition turns : list (nat * list (option error)) :=
  [(0%nat, []); (1%nat, []); (0%nat, []); (1%nat, []); (0%nat, []); (1%nat, [])].
Definition race : pool (T:=DB) (APIKey + Response) :=
  (run_pool turns (λ n, authorise ApiExamples.secrets (rivals n)) ApiExamples.db2).1.

Lemma race_won : ∃ k, finished (race 0%nat) = Some (Ok (inl k)).
Proof. eexists. vm_compute. reflexivity. Qed.

Lemma one_machine_one_server_witness :
  ∃ k, race 0%nat = Ret (Ok (inl k)) ∧ ∀ k', race 1%nat = Ret (Ok (inl k')) → key_ID k ≠ key_ID k'.
Proof.
  destruct race_won as (k & Hk%finished_Some).
  exists k. split; [exact Hk|]. intros k' Hk' Hid.
  destruct (one_machine_one_server ApiExamples.secrets rivals turns ApiExamples.db2 0 1 k k'
    ApiExamples.wf_keys_db2 Hk Hk' Hid) as [Hm _].
  vm_compute in Hm. discriminate Hm.
Defined.
