(* ===== verification/GoUrl.v ===== *)
(** * The parts of [net/url] that the program uses

    Escaping of query values and path segments, [url.Values.Encode], and [url.Parse]
    on texts that begin with a single slash: such a text has no scheme, user or host,
    so what is left of the parse is the decoding of the path and of the fragment. *)
From Stdlib Require Import Ascii.
From stdpp Require Import sorting.
From S2P Require Import Prelude GoStrings GoJson.

(** ** Escaping *)

Definition is_alnum (c : ascii) : bool :=
  let b := byte c in
  ((48 <=? b) && (b <=? 57)) || ((65 <=? b) && (b <=? 90)) || ((97 <=? b) && (b <=? 122)).

(** [-], [_], [.] and [~]. *)
Definition is_mark (c : ascii) : bool :=
  bool_decide (c ∈ ["-"%char; "_"%char; "."%char; "~"%char]).

Definition unreserved (c : ascii) : bool := is_alnum c || is_mark c.

(** What a path segment may hold besides. *)
Definition is_sub (c : ascii) : bool :=
  bool_decide (c ∈ ["$"%char; "&"%char; "+"%char; "="%char; ":"%char; "@"%char]).

Definition percent (c : ascii) : string :=
  String "%" (String (upper_ascii (hex_digit (byte c / 16)))
    (String (upper_ascii (hex_digit (byte c mod 16))) EmptyString)).

Fixpoint escape (keep : ascii → bool) (plus : bool) (s : string) : string :=
  match s with
  | EmptyString => EmptyString
  | String c s =>
      (if plus && bool_decide (c = " "%char) then "+"
       else if keep c then String c EmptyString else percent c) +:+ escape keep plus s
  end.

Definition QueryEscape (s : string) : string := escape unreserved true s.
Definition PathEscape (s : string) : string := escape (λ c, unreserved c || is_sub c) false s.

(** [unescape] of a path or a fragment; [None] is an [EscapeError]. *)
Fixpoint path_unescape (s : string) : option string :=
  match s with
  | EmptyString => Some EmptyString
  | String "%" (String a (String b s)) =>
      match hex_value a, hex_value b with
      | Some h, Some l => String (chr (16 * h + l)) <$> path_unescape s
      | _, _ => None
      end
  | String "%" _ => None
  | String c s => String c <$> path_unescape s
  end.

(** [unescape] of a query: a plus is a space. *)
Fixpoint QueryUnescape (s : string) : option string :=
  match s with
  | EmptyString => Some EmptyString
  | String "%" (String a (String b s)) =>
      match hex_value a, hex_value b with
      | Some h, Some l => String (chr (16 * h + l)) <$> QueryUnescape s
      | _, _ => None
      end
  | String "%" _ => None
  | String "+" s => String " " <$> QueryUnescape s
  | String c s => String c <$> QueryUnescape s
  end.

(** [url.Values.Encode] for one value a key. *)
Definition key_le (x y : string * string) : Prop := String.leb x.1 y.1 = true.
#[export] Instance key_le_dec : RelDecision key_le.
Proof. intros x y. unfold key_le. apply _. Defined.

Fixpoint join_pairs (l : list (string * string)) : string :=
  match l with
  | [] => EmptyString
  | [(k, v)] => QueryEscape k +:+ "=" +:+ QueryEscape v
  | (k, v) :: l => QueryEscape k +:+ "=" +:+ QueryEscape v +:+ "&" +:+ join_pairs l
  end.

Definition Encode (l : list (string * string)) : string := join_pairs (merge_sort key_le l).

(** ** Parsing *)

Definition is_ctl (c : ascii) : bool := (byte c <? 32) || (byte c =? 127).

Fixpoint has_ctl (s : string) : bool :=
  match s with EmptyString => false | String c s => is_ctl c || has_ctl s end.

Fixpoint after (c : ascii) (s : string) : string :=
  match s with
  | EmptyString => EmptyString
  | String a s => if decide (a = c) then s else after c s
  end.

(** [url.Parse raw], for a [raw] that begins with one slash: the decoded [Path]. *)
Definition parse_rooted (raw : string) : option string :=
  let rest := before "#" raw in
  if has_ctl rest then None else
  path ← path_unescape (before "?" rest);
  _ ← path_unescape (after "#" raw);
  Some path.

(** ** [unicode.IsControl] on the characters of a text: U+0000 to U+001F and U+007F to
    U+009F *)
Fixpoint has_control (s : string) : bool :=
  match s with
  | EmptyString => false
  | String a s =>
      is_ctl a ||
      match s with
      | String b _ => (byte a =? 0xC2) && (0x80 <=? byte b) && (byte b <=? 0x9F)
      | EmptyString => false
      end || has_control s
  end.

(** ** Lemmas *)

Lemma hex_value_digit n : 0 ≤ n < 16 → hex_value (upper_ascii (hex_digit n)) = Some n.
Proof.
  intros Hn. apply (bool_decide_eq_true_1 _). revert n Hn.
  apply (below_forall (λ n, bool_decide (hex_value (upper_ascii (hex_digit n)) = Some n)) 16).
  by vm_compute.
Qed.

Lemma chr_byte c : chr (16 * (byte c / 16) + byte c mod 16) = c.
Proof.
  rewrite <-Z.div_mod by lia. unfold chr, byte. rewrite N2Z.id. apply ascii_N_embedding.
Qed.

Lemma byte_bounds c : 0 ≤ byte c < 256.
Proof. unfold byte. pose proof (N_ascii_bounded c). lia. Qed.

Lemma nibbles c : 0 ≤ byte c / 16 < 16 ∧ 0 ≤ byte c mod 16 < 16.
Proof. pose proof (byte_bounds c). split; [|apply Z.mod_pos_bound; lia].
  split; [apply Z.div_pos; lia|apply Z.div_lt_upper_bound; lia]. Qed.

(** What is escaped as a query value is read back. *)
Lemma QueryUnescape_percent c s :
  QueryUnescape (percent c +:+ s) = String c <$> QueryUnescape s.
Proof.
  destruct (nibbles c) as [Hh Hl]. unfold percent. simpl.
  by rewrite !hex_value_digit, chr_byte by done.
Qed.

Theorem QueryUnescape_QueryEscape (s : string) : QueryUnescape (QueryEscape s) = Some s.
Proof.
  induction s as [|c s IH]; [done|]. unfold QueryEscape in *.
  change (escape unreserved true (String c s)) with
    ((if true && bool_decide (c = " "%char) then "+"
      else if unreserved c then String c EmptyString else percent c) +:+ escape unreserved true s).
  destruct (decide (c = " "%char)) as [->|Hsp].
  - rewrite bool_decide_true by done. cbn [andb].
    transitivity (String " "%char <$> QueryUnescape (escape unreserved true s)); [done|by rewrite IH].
  - rewrite bool_decide_false by done. cbn [andb]. destruct (unreserved c) eqn:Hu.
    + assert (c ≠ "%"%char ∧ c ≠ "+"%char) as [Hp Hq].
      { split; intros ->; vm_compute in Hu; discriminate. }
      transitivity (String c <$> QueryUnescape (escape unreserved true s)); [|by rewrite IH].
      clear -Hp Hq. destruct c as [[] [] [] [] [] [] [] []]; (reflexivity || congruence).
    + by rewrite QueryUnescape_percent, IH.
Qed.

Lemma has_ctl_app s t : has_ctl (s +:+ t) = has_ctl s || has_ctl t.
Proof. induction s as [|c s IH]; simpl; [done|]. by rewrite IH, orb_assoc. Qed.

(** An escaped text holds no control character, so it cannot end a header line. *)
Lemma has_ctl_QueryEscape s : has_ctl (QueryEscape s) = false.
Proof.
  unfold QueryEscape. induction s as [|c s IH]; [done|]. cbn [escape].
  rewrite has_ctl_app, IH, orb_false_r. destruct (_ && _); [done|].
  destruct (unreserved c) eqn:Hu; simpl.
  - rewrite orb_false_r. destruct c as [[] [] [] [] [] [] [] []]; (reflexivity || discriminate Hu).
  - clear. destruct c as [[] [] [] [] [] [] [] []]; reflexivity.
Qed.
