(* ===== verification/SelfUpdate.v ===== *)
(** * Self update: [internal/selfupdate]

    Server and client replace their own executable by the newest release: of a version
    that is greater, with the checksum of the release and an attestation of its build.
    The file system and the requests so far are the state; the network, the encoding of
    JSON, SHA-256 and the verification of attestations, which is a third-party library,
    are arguments. *)
From Stdlib Require Import Ascii.
From S2P Require Import Prelude GoStrings GoNum GoText GoUrl Sql.

(** ** Versions *)

(** [strings.IndexAny(v, "-+")] and what is before. *)
Fixpoint before_suffix (s : string) : string :=
  match s with
  | EmptyString => EmptyString
  | String c s => if bool_decide (c = "-"%char) || bool_decide (c = "+"%char) then EmptyString
                  else String c (before_suffix s)
  end.

Fixpoint version_number (n : Z) (s : string) : option Z :=
  match s with
  | EmptyString => Some n
  | String c s => d ← digit c; version_number (wrap64 (n * 10 + d)) s
  end.

Definition version_part (part : string) : option Z :=
  if str_empty part then None else version_number 0 part.

Definition versionParts (v : string) : option (list Z) :=
  let v := before_suffix (TrimPrefix (TrimSpace v) "v") in
  if str_empty v then None else mapM version_part (Split "." v).

(** The loop of [compareVersions]: parts that are not there are zero. *)
Fixpoint compare_parts (remote current : list Z) : Z :=
  let next r c (later : Z) := if c <? r then 1 else if r <? c then -1 else later in
  match remote, current with
  | [], [] => 0
  | r :: remote, c :: current => next r c (compare_parts remote current)
  | r :: remote, [] => next r 0 (compare_parts remote [])
  | [], _ => (fix rest current := match current with
                | [] => 0 | c :: current => next 0 c (rest current) end) current
  end.

Definition compareVersions (remote current : string) : Z * bool :=
  match versionParts remote, versionParts current with
  | Some r, Some c => (compare_parts r c, true)
  | _, _ => (0, false)
  end.

Definition IsNewer (remote current : string) : bool * bool :=
  let '(cmp, ok) := compareVersions remote current in (0 <? cmp, ok).

(** ** The world *)

Record GitRequest := { gq_URL : string; gq_Auth : option string; gq_Accept : string }.
Record GitResponse := { gr_Status : Z; gr_Length : Z; gr_Body : string }.

Record Asset := { as_ID : Z; as_Name : string; as_URL : string }.
Record Release := { rl_TagName : string; rl_Assets : list Asset }.

(** What a certificate must say of the build. *)
Record Identity := {
  id_Issuer : string; id_SubjectRegexp : string; id_SourceRepositoryURI : string;
  id_SourceRepositoryDigest : string; id_RunnerEnvironment : string }.

(** The files, the requests that were made, and the scripts that were started. *)
Record Disk := { files : gmap string string; asked : list GitRequest; started : list string }.

Definition set_files (f : gmap string string → gmap string string) (w : Disk) : Disk :=
  {| files := f (files w); asked := asked w; started := started w |}.

Definition add_asked (req : GitRequest) (w : Disk) : Disk :=
  {| files := files w; asked := asked w ++ [req]; started := started w |}.

Definition add_started (script : string) (w : Disk) : Disk :=
  {| files := files w; asked := asked w; started := started w ++ [script] |}.

Definition maxReleaseMetadataBytes : Z := 2 * 2^20.
Definition maxReleaseBinaryBytes : Z := 256 * 2^20.
Definition maxChecksumBytes : Z := 2^20.

(** [regexp.QuoteMeta]. *)
Definition is_meta (c : ascii) : bool := has_byte c "\.+*?()|[]{}^$".

Fixpoint QuoteMeta (s : string) : string :=
  match s with
  | EmptyString => EmptyString
  | String c s => (if is_meta c then String "\" (String c EmptyString) else String c EmptyString)
                  +:+ QuoteMeta s
  end.

Definition lower_hex (c : ascii) : bool := is_digit c || ((97 <=? byte c) && (byte c <=? 102)).

(** [^[a-f0-9]{40,64}$]. *)
Definition is_commit (s : string) : bool :=
  str_all lower_hex s && (40 <=? str_len s) && (str_len s <=? 64).

(** [hex.DecodeString] gives 32 bytes. *)
Definition is_hex_digest (s : string) : bool :=
  str_all (λ c, lower_hex c || ((65 <=? byte c) && (byte c <=? 70))) s && (str_len s =? 64).

(** What [io.LimitReader] leaves of a stream. *)
Fixpoint LimitReader (n : Z) (s : string) : string :=
  match s with
  | EmptyString => EmptyString
  | String c s => if 0 <? n then String c (LimitReader (n - 1) s) else EmptyString
  end.

(** The script that moves the new executable once the old one has ended. *)
Definition windowsReplacementScript (executable tmpPath : string) : string :=
  let nl := String "010" EmptyString in
  let quoted s := String "034" (s +:+ String "034" EmptyString) in
  "@echo off" +:+ nl +:+
  "for /L %%i in (1,1,60) do (" +:+ nl +:+
  "  move /Y " +:+ quoted tmpPath +:+ " " +:+ quoted executable +:+ " > nul 2>&1" +:+ nl +:+
  "  if not exist " +:+ quoted tmpPath +:+ " goto replaced" +:+ nl +:+
  "  ping 127.0.0.1 -n 3 > nul" +:+ nl +:+
  ")" +:+ nl +:+
  "exit /b 1" +:+ nl +:+
  ":replaced" +:+ nl +:+
  "del " +:+ quoted "%~f0" +:+ " > nul 2>&1" +:+ nl.

Definition ignore {A} (p : prog Disk A) : prog Disk () := andThen p (λ _, mret ()).

Section update.
(** The machine, and the environment variable [GITHUB_TOKEN]. *)
Context (goos goarch env_token githubAPIBaseURL : string).
(** [os.Executable], [filepath.EvalSymlinks], and the random part of the name of the
    temporary file. *)
Context (Executable : result string) (EvalSymlinks : string → result string) (random : string).
(** The network: what a request is answered after the requests before it. *)
Context (net : list GitRequest → GitRequest → GitResponse) (bad_url : string → option error).
(** [encoding/json] on the three answers that are read. *)
Context (decode_release : string → result Release) (decode_commit : string → result string).
Context (decode_attestations : string → result (list string)).
(** SHA-256 in hexadecimal digits, and the library for attestations: the certificate of a
    bundle with the organisations of its issuer, the trusted root of an issuer, and the
    type of the statement that a bundle proves of a digest. *)
Context (sha256 : string → string) {Bundle : Type}.
Context (unmarshal : string → result Bundle) (certificate : Bundle → result (option (list string))).
Context (trusted_root : string → result ()) (short_identity : Identity → option error).
Context (verify : string → Bundle → string → Identity → result (option string)).

Definition githubToken : string := TrimSpace env_token.

(** [http.NewRequest] and [client.Do]. *)
Definition newGitHubRequest (url : string) (withAuth : bool) (accept : string) : result GitRequest :=
  match bad_url url with
  | Some e => Err e
  | None => Ok {| gq_URL := url; gq_Accept := accept;
                  gq_Auth := if withAuth && negb (str_empty githubToken)
                             then Some ("Bearer " +:+ githubToken) else None |}
  end.

Definition doBuiltRequest (build : bool → result GitRequest) (withAuth : bool) : prog Disk GitResponse :=
  match build withAuth with
  | Err e => fail e
  | Ok req => modify (add_asked req) ≫= λ _, query (λ w, net (asked w) req)
  end.

Definition shouldRetryGitHubAnonymous (status : Z) : bool := (status =? 401) || (status =? 403).

Definition doWithGitHubAuthFallback (build : bool → result GitRequest) : prog Disk GitResponse :=
  resp ← doBuiltRequest build true;
  if str_empty githubToken || negb (shouldRetryGitHubAnonymous (gr_Status resp)) then mret resp
  else doBuiltRequest build false.

(** [io.ReadAll] on a limited reader; the connection may break. *)
Definition readAllWithLimit (resp : GitResponse) (max : Z) : prog Disk string :=
  body ← query (λ _, LimitReader (max + 1) (gr_Body resp));
  if max <? str_len body then fail (ErrMsg "response exceeds maximum size") else mret body.

Definition decodeJSONWithLimit {A} (decode : string → result A) (resp : GitResponse) (max : Z) :
    prog Disk A :=
  body ← readAllWithLimit resp max;
  match decode body with Ok a => mret a | Err e => fail e end.

Definition TrimSlash (s : string) : string :=
  (fix trim s := match s with
     | EmptyString => EmptyString
     | String c t => let t := trim t in
         if bool_decide (c = "/"%char) && str_empty t then EmptyString else String c t
     end) s.

Definition githubAPIURL (path : string) : string := TrimSlash githubAPIBaseURL +:+ path.

Definition fetchLatestRelease (repo : string) : prog Disk Release :=
  resp ← wrap_err "fetch" (doWithGitHubAuthFallback (λ auth,
    newGitHubRequest (githubAPIURL ("/repos/" +:+ repo +:+ "/releases/latest")) auth ""));
  if negb (gr_Status resp =? 200)
  then fail (ErrMsg ("GitHub API returned " +:+ Itoa (gr_Status resp)))
  else wrap_err "decode" (decodeJSONWithLimit decode_release resp maxReleaseMetadataBytes).

Definition LatestTag (repo : string) : prog Disk string :=
  rel ← fetchLatestRelease repo; mret (rl_TagName rel).

Definition releaseAssetName (binaryName : string) : string :=
  binaryName +:+ "_" +:+ goos +:+ "_" +:+ goarch +:+
  (if bool_decide (goos = "windows") then ".exe" else "").

(** The last asset of a name counts. *)
Definition asset_named (name : string) (rel : Release) : option Asset :=
  List.find (λ a, bool_decide (as_Name a = name)) (rev (rl_Assets rel)).

(** The release, its binary and the list of checksums; an asset that is not there has
    neither number nor address. *)
Definition latestRelease (repo binaryName : string) : prog Disk (string * Asset * Asset) :=
  let none := {| as_ID := 0; as_Name := ""; as_URL := "" |} in
  rel ← fetchLatestRelease repo;
  let bin := default none (asset_named (releaseAssetName binaryName) rel) in
  if str_empty (as_URL bin)
  then fail (ErrMsg ("asset " +:+ Quote (releaseAssetName binaryName) +:+
                     " not found in release " +:+ rl_TagName rel))
  else mret (rl_TagName rel, bin, default none (asset_named "SHA256SUMS" rel)).

Definition newReleaseAssetRequest (repo : string) (asset : Asset) (withAuth : bool) : result GitRequest :=
  if negb (str_empty githubToken) && withAuth && negb (as_ID asset =? 0)
  then newGitHubRequest (githubAPIURL ("/repos/" +:+ repo +:+ "/releases/assets/" +:+ Itoa (as_ID asset)))
         true "application/octet-stream"
  else newGitHubRequest (as_URL asset) false "".

(** ** Checks *)

(** The first line of the asset in the list. *)
Definition checksum_of (assetName body : string) : option string :=
  (fix search lines := match lines with
     | [] => None
     | line :: lines =>
         match Fields line with
         | [sum; name] => if bool_decide (name = assetName) then Some sum else search lines
         | _ => search lines
         end
     end) (Split "010" body).

Definition verifyChecksum (repo : string) (sums : Asset) (binaryName actualHash : string) :
    prog Disk () :=
  resp ← wrap_err "fetch checksums" (doWithGitHubAuthFallback (newReleaseAssetRequest repo sums));
  if negb (gr_Status resp =? 200)
  then fail (ErrMsg ("checksum download returned HTTP " +:+ Itoa (gr_Status resp))) else
  body ← wrap_err "read checksums" (readAllWithLimit resp maxChecksumBytes);
  let assetName := releaseAssetName binaryName in
  match checksum_of assetName body with
  | None => fail (ErrMsg ("checksum not found in SHA256SUMS for " +:+ assetName))
  | Some sum =>
      if bool_decide (sum = actualHash) then mret ()
      else fail (ErrMsg ("checksum mismatch for " +:+ assetName))
  end.

Definition fetchAttestationJSON {A} (decode : string → result A) (path : string) : prog Disk A :=
  resp ← doWithGitHubAuthFallback (λ auth,
    newGitHubRequest (githubAPIURL path) auth "application/vnd.github+json");
  if negb (gr_Status resp =? 200)
  then fail (ErrMsg ("GitHub API returned " +:+ Itoa (gr_Status resp)))
  else decodeJSONWithLimit decode resp maxReleaseMetadataBytes.

Definition releaseIdentity (repo tag commit : string) : Identity :=
  {| id_Issuer := "https://token.actions.githubusercontent.com";
     id_SubjectRegexp := "^https://github\.com/" +:+ QuoteMeta repo +:+
       "/\.github/workflows/release\.yml@refs/(heads/master|tags/" +:+ QuoteMeta tag +:+ ")$";
     id_SourceRepositoryURI := "https://github.com/" +:+ repo;
     id_SourceRepositoryDigest := commit; id_RunnerEnvironment := "github-hosted" |}.

Definition fixed_issuers : list string := ["GitHub, Inc."; "sigstore.dev"].

Definition attestationVerifier (issuer : string) : prog Disk () :=
  if negb (bool_decide (issuer ∈ fixed_issuers)) then fail (ErrMsg "untrusted attestation issuer")
  else match trusted_root issuer with Err e => fail e | Ok _ => query (λ _, ()) end.

Definition slsa_provenance : string := "https://slsa.dev/provenance/v1".

(** The loop over the attestations, with the issuers that have a verifier. *)
Fixpoint check_attestations (digest : string) (identity : Identity) (atts verifiers : list string)
    (lastErr : option error) : prog Disk () :=
  match atts with
  | [] => fail (match lastErr with
                | Some e => ErrWrap "no trusted release attestation" e
                | None => ErrMsg "release has no trusted build attestation" end)
  | att :: atts =>
      let next verifiers e := check_attestations digest identity atts verifiers e in
      match unmarshal att with
      | Err e => next verifiers (Some e)
      | Ok b =>
      match certificate b with
      | Err e => next verifiers (Some e)
      | Ok (Some [issuer]) =>
          andThen (if bool_decide (issuer ∈ verifiers) then mret () else attestationVerifier issuer) (λ r,
            match r with
            | Err e => next verifiers (Some e)
            | Ok _ =>
                match verify issuer b digest identity with
                | Err e => next (issuer :: verifiers) (Some e)
                | Ok statement =>
                    if bool_decide (statement = Some slsa_provenance) then mret ()
                    else next (issuer :: verifiers)
                           (Some (ErrMsg "attestation is not SLSA build provenance"))
                end
            end)
      | Ok _ => next verifiers lastErr
      end
      end
  end.

Definition verifyReleaseAttestation (repo tag digest : string) : prog Disk () :=
  commit ← wrap_err "resolve attested release commit"
    (fetchAttestationJSON decode_commit ("/repos/" +:+ repo +:+ "/commits/" +:+ PathEscape tag));
  if negb (is_commit commit) then fail (ErrMsg "invalid release commit digest") else
  atts ← wrap_err "fetch release attestation"
    (fetchAttestationJSON decode_attestations
       ("/repos/" +:+ repo +:+ "/attestations/sha256:" +:+ digest +:+ "?per_page=10"));
  let identity := releaseIdentity repo tag commit in
  match short_identity identity with
  | Some e => fail e
  | None =>
      if negb (is_hex_digest digest) then fail (ErrMsg "invalid artifact digest")
      else check_attestations digest identity (take 10 atts) [] None
  end.

(** ** The replacement *)

(** [os.Remove] with its error ignored. *)
Definition remove (path : string) : prog Disk () := ignore (exec_sql (set_files (delete path))).

(** What fails leaves no temporary file. *)
Definition or_remove {A} (path : string) (p : prog Disk A) : prog Disk A :=
  andThen p (λ r, match r with Ok a => mret a | Err e => remove path ≫= λ _, fail e end).

Definition create_temp (path : string) : prog Disk () :=
  stmt (λ w, if bool_decide (is_Some (files w !! path)) then Err (ErrMsg "file exists")
             else Ok ((), set_files <[path := ""]> w)).

Definition write_file (path content : string) : prog Disk () :=
  exec_sql (set_files <[path := content]>).

Definition rename (src dst : string) : prog Disk () :=
  stmt (λ w, match files w !! src with
             | None => Err (ErrMsg "no such file")
             | Some content => Ok ((), set_files (λ f, <[dst := content]> (delete src f)) w)
             end).

Definition replaceWindowsExecutable (exe tmpPath : string) : prog Disk () :=
  let scriptPath := tmpPath +:+ ".cmd" in
  or_remove tmpPath (wrap_err "create replacement script"
    (write_file scriptPath (windowsReplacementScript exe tmpPath))) ≫= λ _,
  andThen (exec_sql (add_started scriptPath)) (λ r,
    match r with
    | Ok _ => mret ()
    | Err e => remove tmpPath ≫= λ _, remove scriptPath ≫= λ _,
               fail (ErrWrap "start replacement script" e)
    end).

Definition copyWithLimit (path : string) (resp : GitResponse) (max : Z) : prog Disk string :=
  content ← query (λ _, LimitReader (max + 1) (gr_Body resp));
  write_file path content ≫= λ _,
  if max <? str_len content then fail (ErrMsg "response exceeds maximum size") else mret content.

(** The path of the running executable, and the path of its new version beside it. *)
Definition executable_path : result string :=
  match Executable with
  | Err e => Err (ErrWrap "locate executable" e)
  | Ok exe => match EvalSymlinks exe with Err e => Err (ErrWrap "resolve symlinks" e) | Ok exe => Ok exe end
  end.

Definition tmp_path (exe : string) : string := exe +:+ "-" +:+ random +:+ ".new".

Definition replace (repo tag : string) (bin sums : Asset) (binaryName : string) : prog Disk () :=
  match executable_path with
  | Err e => fail e
  | Ok exe =>
      resp ← wrap_err "download" (doWithGitHubAuthFallback (newReleaseAssetRequest repo bin));
      if negb (gr_Status resp =? 200)
      then fail (ErrMsg ("download returned HTTP " +:+ Itoa (gr_Status resp)))
      else if maxReleaseBinaryBytes <? gr_Length resp
      then fail (ErrMsg "download exceeds maximum size") else
      let tmpPath := tmp_path exe in
      wrap_err "create temp file" (create_temp tmpPath) ≫= λ _,
      or_remove tmpPath (exec_sql id) ≫= λ _,
      content ← or_remove tmpPath (wrap_err "write" (copyWithLimit tmpPath resp maxReleaseBinaryBytes));
      or_remove tmpPath (wrap_err "close downloaded binary" (exec_sql id)) ≫= λ _,
      let actualHash := sha256 content in
      or_remove tmpPath (if str_empty (as_URL sums) || (as_ID sums =? 0)
                         then fail (ErrMsg "release does not include SHA256SUMS")
                         else verifyChecksum repo sums binaryName actualHash) ≫= λ _,
      or_remove tmpPath (verifyReleaseAttestation repo tag actualHash) ≫= λ _,
      if bool_decide (goos = "windows") then replaceWindowsExecutable exe tmpPath
      else or_remove tmpPath (wrap_err "replace binary" (rename tmpPath exe))
  end.

(** [Run]: whether the executable was replaced. *)
Definition Run (repo binaryName currentVersion : string) : prog Disk bool :=
  if bool_decide (currentVersion = "dev") then mret false else
  '(tag, bin, sums) ← wrap_err "check release" (latestRelease repo binaryName);
  let '(cmp, ok) := compareVersions tag currentVersion in
  if negb ok then mret false
  else if cmp <=? 0 then mret false
  else if bool_decide (tag = currentVersion) ||
          bool_decide (TrimPrefix tag "v" = TrimPrefix currentVersion "v") then mret false
  else wrap_err "update" (replace repo tag bin sums binaryName) ≫= λ _, mret true.
(** ** The update: lemmas *)

(** *** Programs that only ask the network *)

Definition quiet {A} (p : prog Disk A) (Q : A → Prop) : Prop :=
  ∀ w, always p (λ r u, files u = files w ∧ started u = started w ∧ ∀ a, r = Ok a → Q a) w.

Lemma quiet_mret {A} (a : A) (Q : A → Prop) : Q a → quiet (mret a) Q.
Proof. intros HQ w. apply always_Ret. split_and!; [done..|]. by intros a' [= <-]. Qed.

Lemma quiet_fail {A} e (Q : A → Prop) : quiet (fail e) Q.
Proof. intros w. by apply always_Ret. Qed.

Lemma quiet_andThen {A B} (p : prog Disk A) (f : result A → prog Disk B) P Q :
  quiet p P → (∀ r, (∀ a, r = Ok a → P a) → quiet (f r) Q) → quiet (andThen p f) Q.
Proof.
  intros Hp Hf w. apply always_andThen. eapply always_mono; [apply Hp|]. simpl.
  intros r u (<- & <- & HP). by apply Hf.
Qed.

Lemma quiet_bind {A B} (p : prog Disk A) (f : A → prog Disk B) P Q :
  quiet p P → (∀ a, P a → quiet (f a) Q) → quiet (p ≫= f) Q.
Proof.
  intros Hp Hf. eapply quiet_andThen; [exact Hp|].
  intros [a|e] Ha; [by apply Hf, Ha|apply quiet_fail].
Qed.

Lemma quiet_wrap {A} msg (p : prog Disk A) Q : quiet p Q → quiet (wrap_err msg p) Q.
Proof.
  intros Hp. eapply quiet_andThen; [exact Hp|].
  intros [a|e] Ha; [by apply quiet_mret, Ha|apply quiet_fail].
Qed.

Lemma quiet_query {A} (f : Disk → A) (Q : A → Prop) : (∀ w, Q (f w)) → quiet (query f) Q.
Proof. intros HQ w. apply always_query; [done|]. split_and!; [done..|]. by intros a [= <-]. Qed.

Lemma quiet_mono {A} (p : prog Disk A) (P Q : A → Prop) : quiet p P → (∀ a, P a → Q a) → quiet p Q.
Proof. intros Hp HPQ w. eapply always_mono; [apply Hp|]. naive_solver. Qed.

(** A stream that was not cut is whole. *)
Lemma LimitReader_all n s : str_len (LimitReader n s) < n → LimitReader n s = s.
Proof.
  unfold str_len. revert n. induction s as [|c s IH]; intros n; [done|]. cbn [LimitReader].
  destruct (Z.ltb_spec 0 n) as [Hn|Hn]; cbn [String.length]; [|lia].
  intros Hl. f_equal. apply IH. lia.
Qed.

Lemma quiet_read resp max : quiet (readAllWithLimit resp max) (λ body, body = gr_Body resp).
Proof.
  apply quiet_bind with (λ body, body = LimitReader (max + 1) (gr_Body resp)); [by apply quiet_query|].
  intros body ->. destruct (Z.ltb_spec max (str_len (LimitReader (max + 1) (gr_Body resp)))) as [?|Hl];
    [apply quiet_fail|]. apply quiet_mret, LimitReader_all. lia.
Qed.

(** [resp] is what the network answered to a request of [build]. *)
Definition answers (build : bool → result GitRequest) (resp : GitResponse) : Prop :=
  ∃ before auth req, build auth = Ok req ∧ net before req = resp.

Lemma quiet_built build auth : quiet (doBuiltRequest build auth) (answers build).
Proof.
  unfold doBuiltRequest. destruct (build auth) as [req|e] eqn:Hb; [|apply quiet_fail].
  apply quiet_bind with (λ _, True).
  - intros w. by apply always_local.
  - intros [] _. apply quiet_query. intros w. by exists (asked w), auth, req.
Qed.

Lemma quiet_do build : quiet (doWithGitHubAuthFallback build) (answers build).
Proof.
  eapply quiet_bind; [apply quiet_built|]. intros resp Hr.
  case_match; [by apply quiet_mret|apply quiet_built].
Qed.

(** [body] was read whole from an answer with status 200. *)
Definition read_from (build : bool → result GitRequest) (body : string) : Prop :=
  ∃ resp, answers build resp ∧ gr_Status resp = 200 ∧ gr_Body resp = body.

Lemma quiet_decode {A} (decode : string → result A) build resp max :
  answers build resp → gr_Status resp = 200 →
  quiet (decodeJSONWithLimit decode resp max) (λ a, ∃ body, read_from build body ∧ decode body = Ok a).
Proof.
  intros Ha Hs. eapply quiet_bind; [apply quiet_read|]. intros body ->.
  destruct (decode (gr_Body resp)) as [a|e] eqn:Hd; [|apply quiet_fail]. apply quiet_mret.
  exists (gr_Body resp). split; [|done]. by exists resp.
Qed.

Definition api (accept path : string) (auth : bool) : result GitRequest :=
  newGitHubRequest (githubAPIURL path) auth accept.

Lemma quiet_fetch repo :
  quiet (fetchLatestRelease repo) (λ rel, ∃ body,
    read_from (api "" ("/repos/" +:+ repo +:+ "/releases/latest")) body ∧ decode_release body = Ok rel).
Proof.
  eapply quiet_bind; [apply quiet_wrap, quiet_do|]. intros resp Hr.
  destruct (Z.eqb_spec (gr_Status resp) 200) as [Hs|?]; [|apply quiet_fail].
  by apply quiet_wrap, quiet_decode.
Qed.

Lemma quiet_json {A} (decode : string → result A) path :
  quiet (fetchAttestationJSON decode path)
    (λ a, ∃ body, read_from (api "application/vnd.github+json" path) body ∧ decode body = Ok a).
Proof.
  eapply quiet_bind; [apply quiet_do|]. intros resp Hr.
  destruct (Z.eqb_spec (gr_Status resp) 200) as [Hs|?]; [|apply quiet_fail]. by apply quiet_decode.
Qed.

(** *** The checks *)

(** The list of checksums of the release has the asset with this checksum. *)
Definition listed (repo binaryName : string) (sums : Asset) (sum : string) : Prop :=
  ∃ body, read_from (newReleaseAssetRequest repo sums) body ∧
    checksum_of (releaseAssetName binaryName) body = Some sum.

Lemma quiet_checksum repo sums binaryName sum :
  quiet (verifyChecksum repo sums binaryName sum) (λ _, listed repo binaryName sums sum).
Proof.
  eapply quiet_bind; [apply quiet_wrap, quiet_do|]. intros resp Hr.
  destruct (Z.eqb_spec (gr_Status resp) 200) as [Hs|?]; [|apply quiet_fail].
  eapply quiet_bind; [apply quiet_wrap, quiet_read|]. intros body ->. cbv zeta.
  destruct (checksum_of _ _) as [sum'|] eqn:Hc; [|apply quiet_fail].
  case_bool_decide as Hd; [|apply quiet_fail]. subst sum'. apply quiet_mret.
  exists (gr_Body resp). split; [|done]. by exists resp.
Qed.

(** One of the attestations proves the build of the digest, with a certificate of one of
    the two authorities that are compiled in. *)
Definition proved (digest : string) (identity : Identity) (atts : list string) : Prop :=
  ∃ att b issuer, att ∈ atts ∧ unmarshal att = Ok b ∧ certificate b = Ok (Some [issuer]) ∧
    issuer ∈ fixed_issuers ∧ trusted_root issuer = Ok () ∧
    verify issuer b digest identity = Ok (Some slsa_provenance).

Lemma proved_cons digest identity att atts :
  proved digest identity atts → proved digest identity (att :: atts).
Proof. intros (a & b & i & Ha & H). exists a, b, i. split; [by right|done]. Qed.

Definition trusted (issuer : string) : Prop := issuer ∈ fixed_issuers ∧ trusted_root issuer = Ok ().

Lemma quiet_verifier issuer : quiet (attestationVerifier issuer) (λ _, trusted issuer).
Proof.
  unfold attestationVerifier. case_bool_decide; [|apply quiet_fail]. simpl.
  destruct (trusted_root issuer) as [[]|e] eqn:Ht; [|apply quiet_fail]. by apply quiet_query.
Qed.

Lemma quiet_attestations digest identity atts verifiers e :
  Forall trusted verifiers →
  quiet (check_attestations digest identity atts verifiers e) (λ _, proved digest identity atts).
Proof.
  revert verifiers e. induction atts as [|att atts IH]; intros verifiers e Hv; [apply quiet_fail|].
  assert (∀ verifiers e, Forall trusted verifiers → quiet
    (check_attestations digest identity atts verifiers e) (λ _, proved digest identity (att :: atts))) as Hnext.
  { intros vs e' Hvs. eapply quiet_mono; [by apply IH|]. intros ?. apply proved_cons. }
  cbn [check_attestations]. destruct (unmarshal att) as [b|] eqn:Hu; [|by apply Hnext].
  destruct (certificate b) as [[[|issuer [|]]|]|] eqn:Hc; try by apply Hnext.
  apply quiet_andThen with (λ _, trusted issuer).
  { case_bool_decide as Hin; [|apply quiet_verifier]. apply quiet_mret.
    by eapply Forall_forall in Hin. }
  intros [u|err] Ht; [|by apply Hnext]. specialize (Ht u eq_refl).
  destruct (verify issuer b digest identity) as [st|err] eqn:Hver; [|apply Hnext; by constructor].
  case_bool_decide as Hst; [|apply Hnext; by constructor]. subst st.
  apply quiet_mret. destruct Ht as [??]. exists att, b, issuer. split_and!; try done. by left.
Qed.

(** The attestations of the digest, the commit of the tag and the proof. *)
Definition attested (repo tag digest : string) : Prop :=
  ∃ commit_body commit body atts,
    read_from (api "application/vnd.github+json" ("/repos/" +:+ repo +:+ "/commits/" +:+ PathEscape tag))
      commit_body ∧ decode_commit commit_body = Ok commit ∧ is_commit commit = true ∧
    read_from (api "application/vnd.github+json"
      ("/repos/" +:+ repo +:+ "/attestations/sha256:" +:+ digest +:+ "?per_page=10")) body ∧
    decode_attestations body = Ok atts ∧
    proved digest (releaseIdentity repo tag commit) (take 10 atts).

Lemma quiet_attestation repo tag digest :
  quiet (verifyReleaseAttestation repo tag digest) (λ _, attested repo tag digest).
Proof.
  eapply quiet_bind; [apply quiet_wrap, quiet_json|]. intros commit (cbody & Hcb & Hcd).
  destruct (is_commit commit) eqn:Hic; [|apply quiet_fail].
  eapply quiet_bind; [apply quiet_wrap, quiet_json|]. intros atts (body & Hb & Hd). cbv zeta.
  destruct (short_identity _); [apply quiet_fail|]. destruct (is_hex_digest digest); [|apply quiet_fail].
  eapply quiet_mono; [by apply quiet_attestations|]. intros ? Hp. by exists cbody, commit, body, atts.
Qed.

(** *** The replacement *)

(** How a program ends: with an error in a state of [B], or with a result of [Q]. *)
Definition ends {A} (B : Disk → Prop) (Q : A → Disk → Prop) (r : result A) (u : Disk) : Prop :=
  match r with Ok a => Q a u | Err _ => B u end.

Lemma ends_bind {A C} (B : Disk → Prop) (p : prog Disk A) (f : A → prog Disk C) P Q w :
  always p (ends B P) w → (∀ a u, P a u → always (f a) (ends B Q) u) → always (p ≫= f) (ends B Q) w.
Proof.
  intros Hp Hf. apply always_bind. eapply always_mono; [exact Hp|]. intros [a|e] u; [apply Hf|done].
Qed.

Lemma ends_fail {A} (B : Disk → Prop) e (Q : A → Disk → Prop) w : B w → always (fail e) (ends B Q) w.
Proof. intros HB. by apply always_Ret. Qed.

Lemma ends_wrap {A} (B : Disk → Prop) msg (p : prog Disk A) Q w :
  always p (ends B Q) w → always (wrap_err msg p) (ends B Q) w.
Proof. intros Hp. apply always_wrap_err. eapply always_mono; [exact Hp|]. by intros [a|e]. Qed.

Lemma ends_exec (B : Disk → Prop) f Q w : B w → Q () (f w) → always (exec_sql f) (ends B Q) w.
Proof. intros HB HQ. apply always_stmt; [done|]. by intros [] u [= <-]. Qed.

Section paths.
Context (tmp : string).

(** Only the new file and its script changed, and nothing was started. *)
Definition spared (w u : Disk) : Prop :=
  started u = started w ∧ ∀ p, p ≠ tmp → p ≠ tmp +:+ ".cmd" → files u !! p = files w !! p.

Lemma spared_set w u f :
  spared w u → (∀ m p, p ≠ tmp → p ≠ tmp +:+ ".cmd" → f m !! p = m !! p) → spared w (set_files f u).
Proof.
  intros [Hs Hf] Hm. split; [done|]. intros p H1 H2. unfold set_files. simpl. rewrite Hm by done. auto.
Qed.

Lemma spared_delete p w u : p = tmp ∨ p = tmp +:+ ".cmd" → spared w u → spared w (set_files (delete p) u).
Proof.
  intros Hp Hu. apply spared_set; [done|]. intros m q ? ?. apply lookup_delete_ne. by destruct Hp; subst.
Qed.

Lemma spared_insert p c w u :
  p = tmp ∨ p = tmp +:+ ".cmd" → spared w u → spared w (set_files <[p := c]> u).
Proof.
  intros Hp Hu. apply spared_set; [done|]. intros m q ? ?. apply lookup_insert_ne. by destruct Hp; subst.
Qed.

Lemma ends_remove {A} p w u e (Q : A → Disk → Prop) :
  p = tmp ∨ p = tmp +:+ ".cmd" → spared w u →
  always (remove p ≫= λ _, fail e) (ends (spared w) Q) u.
Proof.
  intros Hp Hu. eapply ends_bind with (λ _, spared w); [|intros; by apply ends_fail].
  apply always_andThen, always_stmt; [intros; by apply always_Ret|]. intros [] v [= <-].
  by apply always_Ret, spared_delete.
Qed.

Lemma ends_or_remove {A} (p : prog Disk A) w u Q :
  always p (ends (spared w) Q) u → always (or_remove tmp p) (ends (spared w) Q) u.
Proof.
  intros Hp. apply always_andThen. eapply always_mono; [exact Hp|].
  intros [a|e] v Hv; [by apply always_Ret|]. apply ends_remove; [by left|done].
Qed.

(** The checks leave the new file as it is. *)
Lemma ends_quiet {A} (p : prog Disk A) P w u (I : Disk → Prop) :
  quiet p P → spared w u → I u → (∀ v, files v = files u → I v) →
  always p (ends (spared w) (λ a v, P a ∧ spared w v ∧ I v)) u.
Proof.
  intros Hp [Hs Hf] HI Hinv. eapply always_mono; [apply Hp|]. intros r v (Hfv & Hsv & HP).
  assert (spared w v) as Hv by (split; [congruence|rewrite Hfv; exact Hf]).
  destruct r as [a|e]; [|done]. split; [by apply HP|]. auto.
Qed.
End paths.

(** The content of a new executable: it was downloaded whole, and it is in the list of
    checksums of its release and attested. *)
Definition genuine (repo tag : string) (bin sums : Asset) (binaryName content : string) : Prop :=
  read_from (newReleaseAssetRequest repo bin) content ∧ str_len content ≤ maxReleaseBinaryBytes ∧
  listed repo binaryName sums (sha256 content) ∧ attested repo tag (sha256 content).

(** The disk after an update: the executable has the new content, or, on Windows, the
    script that will move the new executable to its place is running. *)
Definition installed (exe content : string) (w u : Disk) : Prop :=
  let tmp := tmp_path exe in
  let script := tmp +:+ ".cmd" in
  (∀ p, p ≠ exe → p ≠ tmp → p ≠ script → files u !! p = files w !! p) ∧
  if bool_decide (goos = "windows")
  then files u !! exe = files w !! exe ∧ files u !! tmp = Some content ∧
       files u !! script = Some (windowsReplacementScript exe tmp) ∧ started u = started w ++ [script]
  else files u !! exe = Some content ∧ files u !! tmp = None ∧ started u = started w.

Lemma app_str_neq s c t : s ≠ s +:+ String c t.
Proof. intros H. apply (f_equal String.length) in H. rewrite str_length_app in H. simpl in H. lia. Qed.

Lemma app_str_neq2 s t u c : s ≠ (s +:+ String c t) +:+ u.
Proof. rewrite app_assoc_str. apply app_str_neq. Qed.

Lemma ends_windows exe content w u :
  goos = "windows" → spared (tmp_path exe) w u → files u !! tmp_path exe = Some content →
  always (replaceWindowsExecutable exe (tmp_path exe))
    (ends (spared (tmp_path exe) w) (λ _ v, installed exe content w v)) u.
Proof.
  intros Hgo Hu Hc. unfold replaceWindowsExecutable.
  set (tmp := tmp_path exe) in *. set (script := tmp +:+ ".cmd").
  assert (tmp ≠ script) as Hts by apply app_str_neq.
  eapply ends_bind with (λ _ v, spared tmp w v ∧ files v !! tmp = Some content ∧
    files v !! script = Some (windowsReplacementScript exe tmp)).
  { apply ends_or_remove, ends_wrap, ends_exec; [done|]. split_and!.
    - apply spared_insert; [by right|done].
    - simpl. by rewrite lookup_insert_ne.
    - simpl. by rewrite lookup_insert_eq. }
  intros _ v (Hv & Hvc & Hvs). apply always_andThen, always_stmt.
  - intros e. eapply ends_bind with (λ _, spared tmp w).
    + apply always_andThen, always_stmt; [intros; by apply always_Ret|]. intros [] x [= <-].
      apply always_Ret. apply spared_delete; [by left|done].
    + intros _ x Hx. apply ends_remove; [by right|done].
  - intros [] x [= <-]. apply always_Ret. simpl. destruct Hv as [Hs Hf]. split; [by auto|].
    rewrite bool_decide_eq_true_2 by done. split_and!; try done; [|simpl; by rewrite Hs].
    apply Hf; [apply app_str_neq|apply app_str_neq2].
Qed.

Lemma ends_rename exe content w u :
  goos ≠ "windows" → spared (tmp_path exe) w u → files u !! tmp_path exe = Some content →
  always (rename (tmp_path exe) exe)
    (ends (spared (tmp_path exe) w) (λ _ v, installed exe content w v)) u.
Proof.
  intros Hgo [Hs Hf] Hc. apply always_stmt; [done|]. intros [] v.
  rewrite Hc. intros [= <-]. unfold ends, installed. cbn.
  rewrite bool_decide_eq_false_2 by done.
  assert (exe ≠ tmp_path exe) as Hne by apply app_str_neq.
  split_and!; [|by rewrite lookup_insert_eq|by rewrite lookup_insert_ne, lookup_delete_eq|done].
  intros p H1 H2 H3. rewrite lookup_insert_ne, lookup_delete_ne by done. by apply Hf.
Qed.

Lemma ends_copy resp max tmp w u :
  spared tmp w u →
  always (copyWithLimit tmp resp max) (ends (spared tmp w) (λ content v,
    (content = gr_Body resp ∧ str_len content ≤ max) ∧ spared tmp w v ∧
    files v !! tmp = Some content)) u.
Proof.
  intros Hu. eapply ends_bind with (λ c v, c = LimitReader (max + 1) (gr_Body resp) ∧ v = u).
  { apply always_stmt; [done|]. by intros c v [= <- <-]. }
  intros c v [-> ->]. set (c := LimitReader _ _).
  eapply ends_bind with (λ _ v, v = set_files <[tmp := c]> u); [by apply ends_exec|].
  intros _ v ->. assert (spared tmp w (set_files <[tmp := c]> u)) as Hw
    by (apply spared_insert; [by left|done]).
  destruct (Z.ltb_spec max (str_len c)) as [?|Hl]; [by apply ends_fail|].
  apply always_Ret. split; [split; [apply LimitReader_all; fold c; lia|done]|].
  split; [done|]. apply lookup_insert_eq.
Qed.

(** A check of the new file between its download and its installation. *)
Lemma ends_check {A} (p : prog Disk A) P tmp content w u :
  quiet p P → spared tmp w u → files u !! tmp = Some content →
  always (or_remove tmp p) (ends (spared tmp w)
    (λ a v, P a ∧ spared tmp w v ∧ files v !! tmp = Some content)) u.
Proof.
  intros Hp Hu Hc. apply ends_or_remove.
  apply (ends_quiet tmp p P w u (λ v, files v !! tmp = Some content)); try done. by intros v ->.
Qed.

Lemma quiet_nothing : quiet (exec_sql id) (λ _, True).
Proof. intros w. apply always_stmt; [done|]. by intros [] u [= <-]. Qed.

Lemma ends_verified repo tag bin sums binaryName exe content w u :
  read_from (newReleaseAssetRequest repo bin) content → str_len content ≤ maxReleaseBinaryBytes →
  spared (tmp_path exe) w u → files u !! tmp_path exe = Some content →
  let tmpPath := tmp_path exe in
  always (or_remove tmpPath (wrap_err "close downloaded binary" (exec_sql id)) ≫= λ _,
      let actualHash := sha256 content in
      or_remove tmpPath (if str_empty (as_URL sums) || (as_ID sums =? 0)
                         then fail (ErrMsg "release does not include SHA256SUMS")
                         else verifyChecksum repo sums binaryName actualHash) ≫= λ _,
      or_remove tmpPath (verifyReleaseAttestation repo tag actualHash) ≫= λ _,
      if bool_decide (goos = "windows") then replaceWindowsExecutable exe tmpPath
      else or_remove tmpPath (wrap_err "replace binary" (rename tmpPath exe)))
    (ends (spared tmpPath w) (λ _ v, str_empty (as_URL sums) = false ∧
       ∃ content, genuine repo tag bin sums binaryName content ∧ installed exe content w v)) u.
Proof.
  intros Hread Hlen Hu Hc. cbv zeta. set (tmp := tmp_path exe) in *.
  eapply ends_bind; [apply ends_check; [apply quiet_wrap, quiet_nothing|done..]|].
  intros _ v1 (_ & Hv1 & Hc1).
  eapply ends_bind with (λ _ v, (str_empty (as_URL sums) = false ∧
    listed repo binaryName sums (sha256 content)) ∧ spared tmp w v ∧ files v !! tmp = Some content).
  { apply ends_check; try done. destruct (str_empty (as_URL sums)) eqn:He; [apply quiet_fail|].
    destruct (as_ID sums =? 0); [apply quiet_fail|].
    eapply quiet_mono; [apply quiet_checksum|]. by intros. }
  intros _ v2 ((He & Hl) & Hv2 & Hc2).
  eapply ends_bind; [apply ends_check; [apply quiet_attestation|done..]|].
  intros _ v3 (Ha & Hv3 & Hc3). rewrite He.
  assert (∀ v, installed exe content w v → ∃ content,
    genuine repo tag bin sums binaryName content ∧ installed exe content w v) as Hdone
    by (intros v Hv; by exists content).
  case_bool_decide as Hgo.
  - eapply always_mono; [by apply (ends_windows exe content w)|]. intros [a|e] v Hv; [|done].
    split; [done|]. by apply Hdone.
  - apply ends_or_remove, ends_wrap. eapply always_mono; [by apply (ends_rename exe content w)|].
    intros [a|e] v Hv; [|done]. split; [done|]. by apply Hdone.
Qed.

Lemma ends_replace repo tag bin sums binaryName w :
  always (replace repo tag bin sums binaryName) (λ r u,
    match executable_path with
    | Err _ => (∀ a, r ≠ Ok a) ∧ files u = files w ∧ started u = started w
    | Ok exe => ends (spared (tmp_path exe) w) (λ _ v, str_empty (as_URL sums) = false ∧
        ∃ content, genuine repo tag bin sums binaryName content ∧ installed exe content w v) r u
    end) w.
Proof.
  unfold replace. destruct executable_path as [exe|e]; [|by apply always_Ret].
  set (tmp := tmp_path exe). assert (spared tmp w w) as Hw by done.
  eapply ends_bind.
  { apply (ends_quiet tmp _ _ w w (λ _, True) (quiet_wrap _ _ _ (quiet_do _))); done. }
  intros resp u (Hr & Hu & _). destruct (Z.eqb_spec (gr_Status resp) 200) as [Hs|?]; [|by apply ends_fail].
  cbn [negb]. destruct (_ <? gr_Length resp); [by apply ends_fail|].
  eapply ends_bind with (λ _ v, spared tmp w v).
  { apply ends_wrap, always_stmt; [done|]. intros [] v. case_bool_decide; [done|]. intros [= <-].
    apply spared_insert; [by left|done]. }
  intros _ u1 Hu1. eapply ends_bind.
  { apply ends_or_remove. apply (ends_quiet tmp _ _ w u1 (λ _, True) quiet_nothing); done. }
  intros _ u2 (_ & Hu2 & _). eapply ends_bind; [by apply ends_or_remove, ends_wrap, ends_copy|].
  intros content u3 ((-> & Hlen) & Hu3 & Hc). apply ends_verified; try done. by exists resp.
Qed.

(** *** The whole update *)

Lemma quiet_release repo binaryName :
  quiet (latestRelease repo binaryName) (λ found, ∃ rel body,
    read_from (api "" ("/repos/" +:+ repo +:+ "/releases/latest")) body ∧ decode_release body = Ok rel ∧
    found.1.1 = rl_TagName rel ∧ asset_named (releaseAssetName binaryName) rel = Some found.1.2 ∧
    (str_empty (as_URL found.2) = false → asset_named "SHA256SUMS" rel = Some found.2)).
Proof.
  eapply quiet_bind; [apply quiet_fetch|]. intros rel (body & Hb & Hd). cbv zeta.
  destruct (asset_named (releaseAssetName binaryName) rel) as [bin|] eqn:Hbin; [|apply quiet_fail].
  change (default _ (Some bin)) with bin. destruct (str_empty (as_URL bin)); [apply quiet_fail|].
  apply quiet_mret.
  exists rel, body. split_and!; try done. cbn [snd]. by destruct (asset_named "SHA256SUMS" rel).
Qed.

(** The newest release of the repository, with its binary and its list of checksums. *)
Definition newest_release (repo binaryName tag : string) (bin sums : Asset) : Prop :=
  ∃ rel body, read_from (api "" ("/repos/" +:+ repo +:+ "/releases/latest")) body ∧
    decode_release body = Ok rel ∧ tag = rl_TagName rel ∧
    asset_named (releaseAssetName binaryName) rel = Some bin ∧ asset_named "SHA256SUMS" rel = Some sums.

(** No file changed but the new executable beside the running one and its script. *)
Definition untouched (w u : Disk) : Prop :=
  started u = started w ∧
  match executable_path with
  | Ok exe => ∀ p, p ≠ tmp_path exe → p ≠ tmp_path exe +:+ ".cmd" → files u !! p = files w !! p
  | Err _ => files u = files w
  end.

(** C21: however the network, the disk and the services fail, an update either leaves the
    running executable and every other file alone and does not report success, or it
    installs the content that it downloaded as the asset of the newest release, of a
    version that is greater than the running one, at most 256 MiB long, with the checksum
    that the release lists and with a build attestation, for this content and the commit
    of the release's tag, by one of the two authorities that are compiled in. *)
Theorem update_verified (repo binaryName currentVersion : string) (w : Disk) :
  always (Run repo binaryName currentVersion) (λ r u,
    (r ≠ Ok true ∧ untouched w u) ∨
    (r = Ok true ∧ ∃ exe tag bin sums content, executable_path = Ok exe ∧
      newest_release repo binaryName tag bin sums ∧ IsNewer tag currentVersion = (true, true) ∧
      genuine repo tag bin sums binaryName content ∧ installed exe content w u)) w.
Proof.
  assert (∀ u, files u = files w → started u = started w → untouched w u) as Hsame
    by (intros u Hf Hs; split; [done|]; case_match; by rewrite Hf).
  unfold Run. case_bool_decide; [apply always_Ret; left; auto|].
  apply always_bind. eapply always_mono; [apply quiet_wrap, quiet_release|].
  intros [[[tag bin] sums]|e] u (Hf & Hs & Hrel); [|left; auto].
  destruct (Hrel _ eq_refl) as (rel & body & Hb & Hd & Ht & Hbin & Hsums). simpl in Ht, Hbin, Hsums.
  destruct (compareVersions tag currentVersion) as [cmp ok] eqn:Hcmp.
  destruct ok; [|apply always_Ret; left; auto]. cbn [negb].
  destruct (Z.leb_spec cmp 0) as [?|Hnew]; [apply always_Ret; left; auto|].
  case_match; [apply always_Ret; left; auto|].
  apply always_bind, always_wrap_err. eapply always_mono; [apply ends_replace|].
  intros r v. unfold untouched. rewrite <-Hs. destruct executable_path as [exe|e'] eqn:Hexe; cycle 1.
  { intros (Hno & Hfv & Hsv). destruct r as [a|e]; [by destruct (Hno a)|]. left. split; [done|].
    split; congruence. }
  destruct r as [[]|e]; cycle 1.
  { intros [Hsv Hfv]. left. split; [done|]. split; [done|]. intros. rewrite <-Hf. auto. }
  intros (Hsums' & content & Hg & Hi). apply always_Ret. right. split; [done|].
  exists exe, tag, bin, sums, content. split_and!; try done.
  - exists rel, body. split_and!; auto.
  - unfold IsNewer. rewrite Hcmp. by rewrite (proj2 (Z.ltb_lt 0 cmp)).
  - revert Hi. unfold installed. by rewrite <-Hf, Hs.
Qed.

(** *** Where the token goes *)

(** Only the API of GitHub sees the token. *)
Definition token_kept (req : GitRequest) : Prop :=
  gq_Auth req = None ∨ HasPrefix (gq_URL req) (TrimSlash githubAPIBaseURL) = true.

Definition asks (w u : Disk) : Prop := ∃ reqs, asked u = asked w ++ reqs ∧ Forall token_kept reqs.

#[local] Instance asks_preorder : PreOrder asks.
Proof.
  split; [intros w; exists []; by rewrite app_nil_r|].
  intros w u v (l & Hu & Hl) (k & Hv & Hk). exists (l ++ k). rewrite app_assoc. split; [congruence|].
  by apply Forall_app.
Qed.

Notation quietly := (along (λ _ : Disk, True) asks).

Lemma asks_stmt {A} (f : Disk → result (A * Disk)) :
  (∀ w a u, f w = Ok (a, u) → asked u = asked w) → quietly (stmt f).
Proof.
  intros Hf. apply along_stmt; [apply _|]. intros w a u _ Hw. split; [done|]. exists [].
  rewrite app_nil_r. split; [by eapply Hf|constructor].
Qed.

Lemma asks_api accept path auth req : api accept path auth = Ok req → token_kept req.
Proof.
  unfold api, newGitHubRequest, githubAPIURL. destruct (bad_url _); [done|]. intros [= <-]. right. apply HasPrefix_app.
Qed.

Lemma asks_asset repo asset auth req : newReleaseAssetRequest repo asset auth = Ok req → token_kept req.
Proof.
  unfold newReleaseAssetRequest. case_match; [apply (asks_api "application/octet-stream")|].
  unfold newGitHubRequest. destruct (bad_url _); [done|]. intros [= <-]. by left.
Qed.

Lemma asks_do build :
  (∀ auth req, build auth = Ok req → token_kept req) → quietly (doWithGitHubAuthFallback build).
Proof.
  intros Hb. assert (∀ auth, quietly (doBuiltRequest build auth)) as H.
  { intros auth. unfold doBuiltRequest. destruct (build auth) as [req|e] eqn:Hr; [|apply along_Ret, _].
    apply along_bind; [apply _| |intros []; apply along_query, _].
    intros w _. apply always_local. split; [done|]. exists [req]. split; [done|]. constructor; [|done].
    by eapply Hb. }
  apply along_bind; [apply _|apply H|]. intros resp. case_match; [apply along_Ret, _|apply H].
Qed.

Ltac quietly := intros; cbv zeta; repeat first
  [ case_match
  | match goal with
    | |- along _ _ (mret _) => apply along_Ret, _
    | |- along _ _ (fail _) => apply along_Ret, _
    | |- along _ _ (Ret _) => apply along_Ret, _
    | |- along _ _ (query _) => apply along_query, _
    | |- along _ _ (stmt _) => let H := fresh in apply asks_stmt; intros ? ? ? H; repeat case_match; try done;
        injection H as ??; by subst
    | |- along _ _ (exec_sql _) => unfold exec_sql
    | |- along _ _ (_ ≫= _) => apply along_bind; [apply _| |intros]
    | |- along _ _ (wrap_err _ _) => apply along_wrap_err; [apply _|]
    | |- along _ _ (andThen _ _) => apply along_andThen; [apply _| |intros]
    end ].

Lemma asks_attestations digest identity atts verifiers e :
  quietly (check_attestations digest identity atts verifiers e).
Proof.
  revert verifiers e. induction atts as [|att atts IH]; intros verifiers e; cbn [check_attestations];
    unfold attestationVerifier; quietly; apply IH.
Qed.

Lemma asks_attestation repo tag digest : quietly (verifyReleaseAttestation repo tag digest).
Proof.
  unfold verifyReleaseAttestation, fetchAttestationJSON, decodeJSONWithLimit, readAllWithLimit.
  quietly; try apply asks_attestations; apply asks_do; eauto using asks_api.
Qed.

Lemma asks_remove tmp : quietly (remove tmp).
Proof. unfold remove, ignore. quietly. Qed.

Lemma asks_or_remove {A} tmp (p : prog Disk A) : quietly p → quietly (or_remove tmp p).
Proof.
  intros Hp. unfold or_remove. apply along_andThen; [apply _|done|]. intros [a|e]; quietly. apply asks_remove.
Qed.

Lemma asks_replace repo tag bin sums binaryName : quietly (replace repo tag bin sums binaryName).
Proof.
  unfold replace, copyWithLimit, replaceWindowsExecutable, verifyChecksum, readAllWithLimit,
    create_temp, write_file, rename.
  quietly; repeat (apply asks_or_remove; quietly); eauto using asks_remove, asks_attestation;
    apply asks_do; eauto using asks_asset.
Qed.

(** C36: every request of an update that carries the token goes to the API of GitHub: the
    addresses of the assets, which the answer about the release names, get none. *)
Theorem update_token_kept (repo binaryName currentVersion : string) (w : Disk) :
  always (Run repo binaryName currentVersion) (λ _ u,
    ∃ reqs, asked u = asked w ++ reqs ∧ Forall token_kept reqs) w.
Proof.
  enough (quietly (Run repo binaryName currentVersion)) as H
    by (eapply always_mono; [by apply H|]; by intros r u [_ ?]).
  unfold Run, latestRelease, fetchLatestRelease, decodeJSONWithLimit, readAllWithLimit.
  quietly; try apply asks_replace. apply asks_do. eauto using asks_api.
Qed.

End update.

(** ** Versions: lemmas *)

(** The i-th number of a version; the numbers after the last are zero. *)
Definition part (l : list Z) (i : nat) : Z := default 0 (l !! i).

(** A version is greater when it is at the first place where the two differ. *)
Definition greater (l k : list Z) : Prop :=
  ∃ i, part k i < part l i ∧ ∀ j, (j < i)%nat → part l j = part k j.

Lemma part_nil i : part [] i = 0.
Proof. done. Qed.

Lemma greater_step l k :
  greater l k ↔ part k 0 < part l 0 ∨ (part l 0 = part k 0 ∧ greater (tail l) (tail k)).
Proof.
  assert (∀ l i, part (tail l) i = part l (S i)) as Htl by (by intros []).
  split.
  - intros ([|i] & Hlt & Heq); [by left|right]. split; [apply Heq; lia|].
    exists i. rewrite !Htl. split; [done|]. intros j Hj. rewrite !Htl. apply Heq. lia.
  - intros [Hlt|(H0 & i & Hlt & Heq)]; [exists 0%nat; split; [done|lia]|].
    exists (S i). rewrite !Htl in Hlt. split; [done|]. intros [|j] Hj; [done|].
    specialize (Heq j). rewrite !Htl in Heq. apply Heq. lia.
Qed.

(** One place, and then the rest; the shorter list is as if filled with zeros. *)
Lemma compare_parts_step l k : l ≠ [] ∨ k ≠ [] →
  compare_parts l k =
  if part k 0 <? part l 0 then 1 else if part l 0 <? part k 0 then -1
  else compare_parts (tail l) (tail k).
Proof.
  destruct l as [|x l], k as [|y k]; [by intros []|..]; intros _; [|done..].
  cbn. repeat case_match; try done; by destruct k.
Qed.

Lemma compare_parts_cases l k :
  (compare_parts l k = 1 ∧ greater l k) ∨ (compare_parts l k = -1 ∧ greater k l) ∨
  (compare_parts l k = 0 ∧ ∀ i, part l i = part k i).
Proof.
  assert (∀ n l k, (length l + length k ≤ n)%nat →
    (compare_parts l k = 1 ∧ greater l k) ∨ (compare_parts l k = -1 ∧ greater k l) ∨
    (compare_parts l k = 0 ∧ ∀ i, part l i = part k i)) as H; [|by apply (H (length l + length k)%nat)].
  clear l k. intros n. induction n as [n IH] using lt_wf_ind. intros l k Hn.
  destruct (decide (l = [] ∧ k = [])) as [[-> ->]|Hne]; [by right; right|].
  assert (l ≠ [] ∨ k ≠ []) as Hor by (destruct l, k; naive_solver).
  rewrite compare_parts_step by done. rewrite (greater_step l), (greater_step k).
  destruct (Z.ltb_spec (part k 0) (part l 0)) as [?|?]; [by left; split; [|left]|].
  destruct (Z.ltb_spec (part l 0) (part k 0)) as [?|?]; [by right; left; split; [|left]|].
  assert (part l 0 = part k 0 ∧ part k 0 = part l 0) as [Heq Heq'] by lia.
  assert (length (tail l) + length (tail k) < n)%nat as Hlt by (destruct l, k; simpl in *; naive_solver lia).
  destruct (IH _ Hlt (tail l) (tail k)) as [[-> ?]|[[-> ?]|[-> Hall]]]; [lia|tauto|tauto|].
  right; right. split; [done|]. intros [|i]; [done|]. specialize (Hall i).
  by destruct l, k.
Qed.

Lemma greater_trans l k m : greater l k → greater k m → greater l m.
Proof.
  intros (i & Hi & Hie) (j & Hj & Hje). destruct (lt_eq_lt_dec i j) as [[?| ->]|?].
  - exists i. rewrite <-Hje by done. split; [done|]. intros x Hx. rewrite Hie, Hje by lia. done.
  - exists j. split; [lia|]. intros x Hx. rewrite Hie, Hje by lia. done.
  - exists j. rewrite Hie by done. split; [done|]. intros x Hx. rewrite Hie, Hje by lia. done.
Qed.

Lemma greater_irrefl l : ¬ greater l l.
Proof. intros (i & Hi & _). lia. Qed.

(** *** A printed version is read back *)

(** Only digits, dots and the letter of the prefix: nothing to trim. *)
Definition plain (c : ascii) : bool := (33 <=? byte c) && (byte c <=? 126).

Lemma plain_trims s : str_all plain s = true → trim_left s = s ∧ trim_left_rev s = s.
Proof.
  destruct s as [|a s]; [done|]. cbn [str_all]. intros [Ha Hs]%andb_true_iff.
  assert (is_ascii_space a = false) as Hsp.
  { unfold plain, byte in Ha. destruct a as [[] [] [] [] [] [] [] []]; try reflexivity; discriminate Ha. }
  unfold plain in Ha. bool_to_prop.
  assert (∀ n, 126 < n → (byte a =? n) = false ∧ (n <=? byte a) = false) as Hne
    by (intros n Hn; split; [apply Z.eqb_neq|apply Z.leb_gt]; lia).
  assert (∀ b, is_space2 a b = false ∧ is_space2 b a = false) as H2.
  { intros b. unfold is_space2. split; rewrite ?(proj1 (Hne 0xC2 eq_refl)), ?(proj1 (Hne 0x85 eq_refl)),
      ?(proj1 (Hne 0xA0 eq_refl)); [done|apply andb_false_r]. }
  assert (∀ b c, is_space3 a b c = false ∧ is_space3 c b a = false) as H3.
  { intros b c. unfold is_space3. split;
      rewrite ?(proj1 (Hne 0xE1 eq_refl)), ?(proj1 (Hne 0xE2 eq_refl)), ?(proj1 (Hne 0xE3 eq_refl)),
        ?(proj1 (Hne 0x80 eq_refl)), ?(proj1 (Hne 0xA8 eq_refl)), ?(proj1 (Hne 0xA9 eq_refl)),
        ?(proj1 (Hne 0xAF eq_refl)), ?(proj1 (Hne 0x9F eq_refl)), ?(proj2 (Hne 0x80 eq_refl));
      [done|]. by rewrite !andb_false_r. }
  cbn [trim_left trim_left_rev]. rewrite Hsp. destruct s as [|b s]; [done|].
  destruct (H2 b) as [-> ->]. destruct s as [|c s]; [done|]. by destruct (H3 b c) as [-> ->].
Qed.

Lemma str_all_app p s t : str_all p (s +:+ t) = str_all p s && str_all p t.
Proof. induction s as [|c s IH]; [done|]. rewrite app_cons_str. simpl. by rewrite IH, andb_assoc. Qed.

Lemma str_all_rev p s : str_all p (String.rev s) = str_all p s.
Proof.
  induction s as [|c s IH]; [done|]. rewrite rev_cons_str, str_all_app, IH. simpl.
  by rewrite andb_true_r, andb_comm.
Qed.

Lemma plain_trimmed s : str_all plain s = true → TrimSpace s = s.
Proof.
  intros Hs. unfold TrimSpace, trim_right. destruct (plain_trims s Hs) as [-> _].
  assert (str_all plain (String.rev s) = true) as Hr by by rewrite str_all_rev.
  destruct (plain_trims _ Hr) as [_ ->]. apply rev_rev_str.
Qed.

Lemma str_all_mono (p q : ascii → bool) s :
  (∀ c, p c = true → q c = true) → str_all p s = true → str_all q s = true.
Proof.
  intros Hpq. induction s as [|c s IH]; [done|]. simpl. intros [Hc Hs]%andb_true_iff.
  by rewrite Hpq, IH.
Qed.

Lemma digit_bounds c d : digit c = Some d → 0 ≤ d < 10 ∧ byte c = 48 + d.
Proof. unfold digit. go. Qed.

Lemma parse_digits_mono s n m : 0 ≤ n → parse_digits n s = Some m → n ≤ m.
Proof.
  revert n. induction s as [|c s IH]; intros n Hn; simpl; [by intros [= ->]|].
  destruct (digit c) as [d|] eqn:Hd; [|done]. apply digit_bounds in Hd as [? _].
  intros Hm. apply IH in Hm; lia.
Qed.

Lemma version_number_digits s n m :
  0 ≤ n → m < 2^63 → parse_digits n s = Some m → version_number n s = Some m.
Proof.
  revert n. induction s as [|c s IH]; intros n Hn Hm; [done|]. cbn [parse_digits version_number].
  destruct (digit c) as [d|] eqn:Hd; [|done]. apply digit_bounds in Hd as [? _]. intros Hp.
  assert (10 * n + d ≤ m) by (by apply (parse_digits_mono s); [lia|]).
  simpl. rewrite wrap64_id by (unfold in_int64, MinInt64, MaxInt64; lia).
  replace (n * 10 + d) with (10 * n + d) by lia. apply IH; [lia|done|done].
Qed.

Lemma version_part_Itoa n : 0 ≤ n < 2^63 → version_part (Itoa n) = Some n.
Proof.
  intros Hn. unfold version_part. destruct (Itoa_nonempty n) as (c & s & Hc).
  rewrite Hc. change (str_empty (String c s)) with false. cbv iota. rewrite <-Hc. apply version_number_digits; [lia|lia|].
  destruct n as [|p|p]; [done| |lia]. by rewrite Itoa_pos, parse_pretty_go by lia.
Qed.

Definition print_version (l : list Z) : string := JoinText "." (Itoa <$> l).

Definition version_char (c : ascii) : bool := is_digit c || bool_decide (c = "."%char).

Lemma version_char_plain c :
  version_char c = true → plain c = true ∧ c ≠ "-"%char ∧ c ≠ "+"%char ∧ c ≠ "v"%char.
Proof.
  unfold version_char, plain, is_digit. intros H.
  destruct c as [[] [] [] [] [] [] [] []]; try discriminate H; (split; [reflexivity|split_and!; discriminate]).
Qed.

Lemma print_version_chars l :
  Forall (λ n, 0 ≤ n) l → str_all version_char (print_version l) = true.
Proof.
  assert (∀ n, 0 ≤ n → str_all version_char (Itoa n) = true) as Hi.
  { intros n Hn. apply (str_all_mono is_digit); [|by apply Itoa_digits].
    intros c Hc. unfold version_char. by rewrite Hc. }
  unfold print_version. induction 1 as [|n l Hn Hl IH]; [done|]. destruct l as [|m l]; [by apply Hi|].
  change (JoinText _ _) with (Itoa n +:+ "." +:+ JoinText "." (Itoa <$> m :: l)).
  rewrite !str_all_app, Hi, IH by done. done.
Qed.

Lemma before_suffix_fix s :
  str_all version_char s = true → before_suffix s = s ∧ TrimPrefix s "v" = s.
Proof.
  intros Hs. split.
  - induction s as [|c s IH]; [done|]. simpl in Hs. apply andb_true_iff in Hs as [Hc Hs].
    apply version_char_plain in Hc as (_ & ? & ? & _). simpl. rewrite !bool_decide_eq_false_2 by done.
    simpl. by rewrite IH.
  - destruct s as [|c s]; [done|]. simpl in Hs. apply andb_true_iff in Hs as [Hc _].
    apply version_char_plain in Hc as (_ & _ & _ & Hv). unfold TrimPrefix. cbn [HasPrefix].
    by rewrite bool_decide_eq_false_2.
Qed.

(** What the build prints of a version is what the update reads. *)
Lemma versionParts_print l prefix :
  l ≠ [] → Forall (λ n, 0 ≤ n < 2^63) l → prefix = "" ∨ prefix = "v" →
  versionParts (prefix +:+ print_version l) = Some l.
Proof.
  intros Hne Hall Hp.
  assert (str_all version_char (print_version l) = true) as Hc.
  { apply print_version_chars. eapply Forall_impl; [exact Hall|]. simpl. lia. }
  assert (str_all plain (prefix +:+ print_version l) = true) as Hplain.
  { rewrite str_all_app. apply andb_true_iff. split; [by destruct Hp as [-> | ->]|].
    apply (str_all_mono version_char); [|done]. intros c H. by apply version_char_plain. }
  unfold versionParts. rewrite plain_trimmed by done.
  assert (TrimPrefix (prefix +:+ print_version l) "v" = print_version l) as ->
    by (destruct Hp as [-> | ->]; [by apply before_suffix_fix|unfold TrimPrefix; by rewrite HasPrefix_app]).
  destruct (before_suffix_fix _ Hc) as [-> _].
  assert (Split "." (print_version l) = Itoa <$> l) as Hsplit.
  { apply Split_joined; [by destruct l|]. apply Forall_fmap, Forall_true.
    intros n. by apply has_byte_Itoa. }
  destruct (print_version l) as [|c s] eqn:Hl.
  { destruct l as [|n l]; [done|]. destruct (Itoa_nonempty n) as (? & ? & He).
    unfold print_version in Hl. rewrite fmap_cons, He in Hl. by destruct l. }
  change (str_empty (String c s)) with false. cbv iota. rewrite Hsplit. clear -Hall.
  induction Hall as [|n l Hn Hl IH]; [done|]. cbn. rewrite version_part_Itoa by done. simpl. by rewrite IH.
Qed.

(** ** What the comparison says *)

Lemma IsNewer_spec remote current :
  IsNewer remote current = (true, true) ↔
  ∃ l k, versionParts remote = Some l ∧ versionParts current = Some k ∧ greater l k.
Proof.
  unfold IsNewer, compareVersions. destruct (versionParts remote) as [l|]; cycle 1.
  { split; [done|]. naive_solver. }
  destruct (versionParts current) as [k|]; [|split; [done|]; naive_solver].
  destruct (compare_parts_cases l k) as [[-> H]|[[-> H]|[-> H]]]; split; try done; try naive_solver.
  - intros (l' & k' & [= <-] & [= <-] & Hg). by destruct (greater_irrefl l (greater_trans _ _ _ Hg H)).
  - intros (l' & k' & [= <-] & [= <-] & (i & Hi & _)). rewrite H in Hi. lia.
Qed.

(** C31: a tag that is printed from numbers, with or without its "v", is always comparable,
    and a release is newer exactly when its number is greater at the first place where the
    two versions differ; numbers that one of them does not have are zero.  So an update
    never goes back, and 1.10 is newer than 1.9. *)
Theorem tags_ordered (l k : list Z) (p q : string)
    (Hl : l ≠ []) (Hk : k ≠ []) (Hlr : Forall (λ n, 0 ≤ n < 2^63) l)
    (Hkr : Forall (λ n, 0 ≤ n < 2^63) k) (Hp : p = "" ∨ p = "v") (Hq : q = "" ∨ q = "v") :
  let newer := IsNewer (p +:+ print_version l) (q +:+ print_version k) in
  newer.2 = true ∧ (newer.1 = true ↔ greater l k) ∧
  (newer.1 = true → (IsNewer (q +:+ print_version k) (p +:+ print_version l)).1 = false).
Proof.
  cbv zeta. unfold IsNewer, compareVersions. rewrite !versionParts_print by done. cbn [fst snd].
  split; [done|]. destruct (compare_parts_cases l k) as [[-> H]|[[-> H]|[-> H]]]; cycle 1.
  - split; [|done]. split; [done|]. intros Hg. by destruct (greater_irrefl l (greater_trans _ _ _ Hg H)).
  - split; [|done]. split; [done|]. intros (i & Hi & _). rewrite H in Hi. lia.
  - split; [done|]. intros _.
    destruct (compare_parts_cases k l) as [[_ Hg]|[[-> _]|[-> _]]]; [|done..].
    by destruct (greater_irrefl l (greater_trans _ _ _ H Hg)).
Qed.

Lemma tags_ordered_witness :
  let newer := IsNewer ("v" +:+ print_version [1; 10]) ("" +:+ print_version [1; 9; 9]) in
  newer.2 = true ∧ newer.1 = true.
Proof.
  cbv zeta.
  destruct (tags_ordered [1; 10] [1; 9; 9] "v" "") as [H2 [H1 _]];
    [discriminate|discriminate|repeat constructor; lia|repeat constructor; lia|by right|by left|].
  split; [exact H2|]. apply H1. exists 1%nat. split; [reflexivity|].
  intros [|j] Hj; [reflexivity|lia].
Defined.

(** ** Examples *)

Module UpdateExamples.
Definition digest : string :=
  "aaaaaaaaaaaaaaaaaaaaaaaaaaaaaaaaaaaaaaaaaaaaaaaaaaaaaaaaaaaaaaaa".
Definition commit : string := "0123456789abcdef0123456789abcdef01234567".

Definition release : Release :=
  {| rl_TagName := "v1.10.0";
     rl_Assets := [{| as_ID := 1; as_Name := "probak_windows_amd64.exe"; as_URL := "https://dl/w" |};
                   {| as_ID := 2; as_Name := "probak_linux_amd64"; as_URL := "https://dl/l" |};
                   {| as_ID := 3; as_Name := "SHA256SUMS"; as_URL := "https://dl/sums" |}] |}.

Definition sums : string :=
  digest +:+ "  probak_windows_amd64.exe" +:+ String "010" (digest +:+ "  probak_linux_amd64").

Definition net (before : list GitRequest) (req : GitRequest) : GitResponse :=
  let ok body := {| gr_Status := 200; gr_Length := str_len body; gr_Body := body |} in
  let url := gq_URL req in
  if bool_decide (url = "https://dl/sums") then ok sums
  else if HasPrefix url "https://dl/" then ok "new"
  else if Contains url "/releases/latest" then ok "release"
  else if Contains url "/commits/" then ok commit
  else ok "att".

Definition Verified (issuer : string) (b digest : string) (i : Identity) : result (option string) :=
  if bool_decide (id_SourceRepositoryDigest i = commit) then Ok (Some slsa_provenance)
  else Err (ErrMsg "no").

Definition update (goos : string) : prog Disk bool :=
  Run goos "amd64" "" "https://api.github.com/" (Ok "/opt/probak") (λ s, Ok s) "123" net (λ _, None)
    (λ _, Ok release) (λ s, Ok s) (λ s, Ok [s]) (λ s, digest) (λ s, Ok s)
    (λ b, Ok (Some ["GitHub, Inc."])) (λ _, Ok ()) (λ _, None) Verified "o/r" "probak" "1.9.9".

Definition disk : Disk := {| files := {["/opt/probak" := "old"]}; asked := []; started := [] |}.
End UpdateExamples.

Example update_linux :
  let '(r, w) := run (UpdateExamples.update "linux") UpdateExamples.disk in
  r = Ok true ∧ files w = {["/opt/probak" := "new"]} ∧ length (asked w) = 5%nat ∧ started w = [].
Proof. vm_compute. done. Qed.

(** On Windows the update reports that the executable was replaced when only the script
    that will replace it was started. *)
Theorem windows_update_reports_early :
  let '(r, w) := run (UpdateExamples.update "windows") UpdateExamples.disk in
  r = Ok true ∧ files w !! "/opt/probak" = Some "old" ∧ started w = ["/opt/probak-123.new.cmd"].
Proof. vm_compute. done. Qed.

Example compare_versions :
  compareVersions "0.0.51" "0.0.50" = (1, true) ∧ compareVersions "v0.0.51" "0.0.50" = (1, true) ∧
  compareVersions "v0.0.50" "0.0.50" = (0, true) ∧ compareVersions "0.0.49" "0.0.50" = (-1, true) ∧
  compareVersions "0.0.50" "0.0.50.0" = (0, true) ∧ compareVersions "0.0.51-beta.1" "0.0.50" = (1, true) ∧
  compareVersions "latest" "0.0.50" = (0, false) ∧ compareVersions "0.0.51" "local" = (0, false) ∧
  compareVersions "v1.10" "1.9.9" = (1, true).
Proof. split_and!; vm_compute; reflexivity. Qed.

