(* ===== verification/Users.v ===== *)
(** * User accounts: [internal/store/user.go] and [internal/store/revoked_sessions.go]

    An account has a version that every change of its name, password, role, state or
    second factor raises: the sessions of the account name the version they were
    issued at.  [secrets] is the box of the store, [None] without a master key; nonces
    and clocks are arguments. *)
From S2P Require Import Prelude GoStrings GoNum GoTime Sql Interleave Secrets Schema Servers.

(** ** Rows *)

Record UserRow := {
  ur_Username : string; ur_PasswordHash : string; ur_Role : string; ur_IsActive : bool;
  ur_CreatedAt : Time; ur_LastLoginAt : option Time; ur_LastLoginIP : option string;
  ur_TOTPEnabled : bool; ur_TOTPSecret : string; ur_TOTPConfirmedAt : option Time;
  ur_TOTPGraceStartedAt : option Time; ur_TOTPLastStep : Z; ur_SessionVersion : Z }.

(** [domain.User]. *)
Record User := {
  us_ID : Z; us_Username : string; us_PasswordHash : string; us_Role : string;
  us_IsActive : bool; us_CreatedAt : Time; us_LastLoginAt : option Time;
  us_LastLoginIP : string; us_TOTPEnabled : bool; us_TOTPSecret : string;
  us_TOTPConfirmedAt : option Time; us_TOTPGraceStartedAt : option Time;
  us_SessionVersion : Z }.

(** The rows by number with the last number given; the owner of every push subscription
    and of every Telegram destination; the expiry of every closed session, in seconds,
    by the hash of its identifier. *)
Record Accounts := {
  users : gmap Z UserRow; last_user : Z;
  push_owners : gmap Z Z; telegram_owners : gmap Z Z;
  revoked : gmap string Z }.

Definition set_users (m : gmap Z UserRow) (t : Accounts) : Accounts :=
  {| users := m; last_user := last_user t; push_owners := push_owners t;
     telegram_owners := telegram_owners t; revoked := revoked t |}.

Definition set_owners (push telegram : gmap Z Z) (t : Accounts) : Accounts :=
  {| users := users t; last_user := last_user t; push_owners := push;
     telegram_owners := telegram; revoked := revoked t |}.

Definition set_revoked (m : gmap string Z) (t : Accounts) : Accounts :=
  {| users := users t; last_user := last_user t; push_owners := push_owners t;
     telegram_owners := telegram_owners t; revoked := m |}.

(** [session_version=session_version+1]. *)
Definition next_version (r : UserRow) : Z := ur_SessionVersion r + 1.

(** The columns of the login form and of the state, and the version. *)
Definition with_identity (name hash role : string) (active : bool) (r : UserRow) : UserRow :=
  {| ur_Username := name; ur_PasswordHash := hash; ur_Role := role; ur_IsActive := active;
     ur_CreatedAt := ur_CreatedAt r; ur_LastLoginAt := ur_LastLoginAt r;
     ur_LastLoginIP := ur_LastLoginIP r; ur_TOTPEnabled := ur_TOTPEnabled r;
     ur_TOTPSecret := ur_TOTPSecret r; ur_TOTPConfirmedAt := ur_TOTPConfirmedAt r;
     ur_TOTPGraceStartedAt := ur_TOTPGraceStartedAt r;
     ur_TOTPLastStep := ur_TOTPLastStep r; ur_SessionVersion := next_version r |}.

(** The columns of the second factor, and the version. *)
Definition with_factor (enabled : bool) (secret : string) (confirmed : option Time)
    (last : Z) (r : UserRow) : UserRow :=
  {| ur_Username := ur_Username r; ur_PasswordHash := ur_PasswordHash r;
     ur_Role := ur_Role r; ur_IsActive := ur_IsActive r; ur_CreatedAt := ur_CreatedAt r;
     ur_LastLoginAt := ur_LastLoginAt r; ur_LastLoginIP := ur_LastLoginIP r;
     ur_TOTPEnabled := enabled; ur_TOTPSecret := secret; ur_TOTPConfirmedAt := confirmed;
     ur_TOTPGraceStartedAt := None; ur_TOTPLastStep := last;
     ur_SessionVersion := next_version r |}.

(** The columns that leave the version alone. *)
Definition with_usage (login : option Time) (ip : option string) (grace : option Time)
    (last : Z) (r : UserRow) : UserRow :=
  {| ur_Username := ur_Username r; ur_PasswordHash := ur_PasswordHash r;
     ur_Role := ur_Role r; ur_IsActive := ur_IsActive r; ur_CreatedAt := ur_CreatedAt r;
     ur_LastLoginAt := login; ur_LastLoginIP := ip; ur_TOTPEnabled := ur_TOTPEnabled r;
     ur_TOTPSecret := ur_TOTPSecret r; ur_TOTPConfirmedAt := ur_TOTPConfirmedAt r;
     ur_TOTPGraceStartedAt := grace; ur_TOTPLastStep := last;
     ur_SessionVersion := ur_SessionVersion r |}.

(** ** Statements *)

Definition valid_role (role : string) : bool :=
  bool_decide (role ∈ ["admin"; "editor"; "reader"]).

(** [CHECK(role IN ...)] and [UNIQUE] of the table. *)
Definition constraints_hold (m : gmap Z UserRow) : bool :=
  forallb (λ r, valid_role (ur_Role r.2)) (map_to_list m) &&
  bool_decide (NoDup ((λ r, ur_Username r.2) <$> map_to_list m)).

Definition ErrConstraint : error := ErrMsg "constraint failed".

(** [UPDATE users SET f WHERE cond]: the number of rows. *)
Definition update_users (cond : Z → UserRow → bool) (f : UserRow → UserRow) :
    prog Accounts Z :=
  stmt (λ t, let m := update_where cond f (users t) in
    if constraints_hold m
    then Ok (Z.of_nat (length (List.filter (λ r, cond r.1 r.2) (map_to_list (users t)))),
             set_users m t)
    else Err ErrConstraint).

Definition user_is (id : Z) (k : Z) (_ : UserRow) : bool := k =? id.
Definition named (username : string) (_ : Z) (r : UserRow) : bool :=
  str_eqb (ur_Username r) username.

Definition find_users (cond : Z → UserRow → bool) (t : Accounts) : list (Z * UserRow) :=
  List.filter (λ r, cond r.1 r.2) (map_to_list (users t)).

Section store.
Context `{!Crypto, !SqlOrder}.
Context (secrets : option Box).

(** The secret of the second factor, as it was before it was stored. *)
Definition stored_secret (r : UserRow) : result string :=
  match secrets with
  | None => Ok (ur_TOTPSecret r)
  | Some b => Decrypt b (ur_TOTPSecret r)
  end.

Definition scanUser (r : Z * UserRow) : result User :=
  secret ← stored_secret r.2;
  Ok {| us_ID := r.1; us_Username := ur_Username r.2; us_PasswordHash := ur_PasswordHash r.2;
        us_Role := ur_Role r.2; us_IsActive := ur_IsActive r.2;
        us_CreatedAt := ur_CreatedAt r.2; us_LastLoginAt := ur_LastLoginAt r.2;
        us_LastLoginIP := default "" (ur_LastLoginIP r.2);
        us_TOTPEnabled := ur_TOTPEnabled r.2; us_TOTPSecret := secret;
        us_TOTPConfirmedAt := ur_TOTPConfirmedAt r.2;
        us_TOTPGraceStartedAt := ur_TOTPGraceStartedAt r.2;
        us_SessionVersion := ur_SessionVersion r.2 |}.

(** [QueryRow] and [scanUser]. *)
Definition find_user (cond : Z → UserRow → bool) : prog Accounts User :=
  stmt (λ t, match head (find_users cond t) with
             | None => Err ErrNoRows
             | Some r => u ← scanUser r; Ok (u, t)
             end).

Definition GetUserByUsername (username : string) : prog Accounts User :=
  find_user (named username).

Definition GetUser (id : Z) : prog Accounts User := find_user (user_is id).

Definition by_username (r1 r2 : Z * UserRow) : bool :=
  String.leb (ur_Username r1.2) (ur_Username r2.2).

Fixpoint scan_all (l : list (Z * UserRow)) : result (list User) :=
  match l with
  | [] => Ok []
  | r :: l => u ← scanUser r; us ← scan_all l; Ok (u :: us)
  end.

Definition ListUsers : prog Accounts (list User) :=
  stmt (λ t, us ← scan_all (order_by by_username (map_to_list (users t))); Ok (us, t)).

Definition HasUsers : prog Accounts bool := query (λ t, (0 <? Z.of_nat (size (users t)))).

(** *** Changes of one row *)

Definition UpdateUserLastLogin (now : Time) (id : Z) (ip : string) : prog Accounts () :=
  update_users (user_is id) (λ r, with_usage (Some (sqliteUTC now)) (Some ip)
    (ur_TOTPGraceStartedAt r) (ur_TOTPLastStep r) r) ≫= λ _, mret ().

Definition CreateUser (now : Time) (username hash role : string) : prog Accounts Z :=
  stmt (λ t, let id := last_user t + 1 in
    let m := <[id := {| ur_Username := username; ur_PasswordHash := hash; ur_Role := role;
      ur_IsActive := true; ur_CreatedAt := sqliteUTC now; ur_LastLoginAt := None;
      ur_LastLoginIP := None; ur_TOTPEnabled := false; ur_TOTPSecret := "";
      ur_TOTPConfirmedAt := None; ur_TOTPGraceStartedAt := None; ur_TOTPLastStep := 0;
      ur_SessionVersion := 1 |}]> (users t) in
    if constraints_hold m
    then Ok (id, {| users := m; last_user := id; push_owners := push_owners t;
                    telegram_owners := telegram_owners t; revoked := revoked t |})
    else Err ErrConstraint).

Definition UpdateUserUsername (id : Z) (username : string) : prog Accounts () :=
  update_users (user_is id) (λ r,
    with_identity username (ur_PasswordHash r) (ur_Role r) (ur_IsActive r) r) ≫= λ _, mret ().

Definition UpdateUserPassword (id : Z) (hash : string) : prog Accounts () :=
  update_users (user_is id) (λ r,
    with_identity (ur_Username r) hash (ur_Role r) (ur_IsActive r) r) ≫= λ _, mret ().

Definition UpdateUserRole (id : Z) (role : string) : prog Accounts () :=
  update_users (user_is id) (λ r,
    with_identity (ur_Username r) (ur_PasswordHash r) role (ur_IsActive r) r) ≫= λ _, mret ().

(** [nonce] is the random part of the encryption. *)
Definition EnableUserTOTP (now : Time) (nonce : result string) (id : Z) (secret : string) :
    prog Accounts () :=
  match (match secrets with None => Ok secret | Some b => Encrypt b nonce secret end) with
  | Err e => fail e
  | Ok stored => update_users (user_is id)
      (λ r, with_factor true stored (Some (sqliteUTC now)) (ur_TOTPLastStep r) r) ≫= λ _, mret ()
  end.

Definition clear_factor (r : UserRow) : UserRow := with_factor false "" None 0 r.

Definition DisableUserTOTP (id : Z) : prog Accounts () :=
  update_users (user_is id) clear_factor ≫= λ _, mret ().

Definition DisableUserTOTPByUsername (username : string) : prog Accounts bool :=
  n ← update_users (named username) clear_factor; mret (0 <? n).

(** [WHERE id=? AND totp_last_step < ?]. *)
Definition ClaimUserTOTPStep (id step : Z) : prog Accounts bool :=
  n ← update_users (λ k r, user_is id k r && (ur_TOTPLastStep r <? step))
        (λ r, with_usage (ur_LastLoginAt r) (ur_LastLoginIP r) (ur_TOTPGraceStartedAt r) step r);
  mret (n =? 1).

(** *** State and grace period *)

Definition set_active (active : bool) (r : UserRow) : UserRow :=
  with_identity (ur_Username r) (ur_PasswordHash r) (ur_Role r) active r.

Definition set_grace (grace : option Time) (r : UserRow) : UserRow :=
  with_usage (ur_LastLoginAt r) (ur_LastLoginIP r) grace (ur_TOTPLastStep r) r.

Definition ReactivateUserByUsername (username : string) : prog Accounts bool :=
  n ← update_users (named username) (λ r, set_grace None (set_active true r)); mret (0 <? n).

Definition active_admin (r : UserRow) : bool :=
  str_eqb (ur_Role r) "admin" && ur_IsActive r.

Definition IsLastActiveAdmin (id : Z) : prog Accounts bool :=
  query (λ t, negb (is_nil (find_users (λ k r, user_is id k r && active_admin r) t)) &&
              is_nil (find_users (λ k r, negb (user_is id k r) && active_admin r) t)).

(** [COALESCE(totp_grace_started_at, CURRENT_TIMESTAMP)]. *)
Definition StartUserTOTPGrace (now : Time) (id : Z) : prog Accounts () :=
  update_users (user_is id)
    (λ r, set_grace (Some (default (sqliteUTC now) (ur_TOTPGraceStartedAt r))) r) ≫= λ _, mret ().

Definition ClearUserTOTPGrace : prog Accounts () :=
  update_users (λ _ _, true) (set_grace None) ≫= λ _, mret ().

(** [DELETE FROM push_subscriptions WHERE user_id=?]. *)
Definition delete_push (id : Z) (t : Accounts) : Accounts :=
  set_owners (delete_where (λ _ owner, owner =? id) (push_owners t)) (telegram_owners t) t.

Definition SetUserActive (id : Z) (active : bool) : prog Accounts () :=
  tx (_ ← update_users (user_is id) (set_active active);
      if active then mret () else exec_sql (delete_push id)).

Definition ToggleUser (id : Z) : prog Accounts () :=
  tx (_ ← update_users (user_is id) (λ r, set_active (negb (ur_IsActive r)) r);
      exec_sql (λ t, match users t !! id with
                     | Some r => if ur_IsActive r then t else delete_push id t
                     | None => t
                     end)).

(** With the rows of [push_subscriptions] and [telegram_destinations] that refer to it:
    [ON DELETE CASCADE]. *)
Definition DeleteUser (id : Z) : prog Accounts () :=
  exec_sql (λ t, let others := delete_where (λ _ owner, owner =? id) in
    set_users (delete id (users t))
      (set_owners (others (push_owners t)) (others (telegram_owners t)) t)).

(** ** Closed sessions *)

Definition sessionIDHash (sid : string) : string := hex (sha256 sid).

Definition RevokeSession (now : Time) (sid : string) (expiresAt : Time) : prog Accounts () :=
  _ ← exec_sql (λ t, set_revoked (delete_where (λ _ e, e <? Unix now) (revoked t)) t);
  exec_sql (λ t, set_revoked (<[sessionIDHash sid := Unix expiresAt]> (revoked t)) t).

Definition IsSessionRevoked (sid : string) : prog Accounts bool :=
  query (λ t, bool_decide (is_Some (revoked t !! sessionIDHash sid))).
End store.

(** ** Lemmas *)

Lemma user_is_true id k r : user_is id k r = true ↔ k = id.
Proof. apply Z.eqb_eq. Qed.

Lemma elem_of_find_users cond t id r :
  (id, r) ∈ find_users cond t ↔ users t !! id = Some r ∧ cond id r = true.
Proof. unfold find_users. by rewrite elem_of_filter_bool, elem_of_map_to_list. Qed.

(** The row found by a condition. *)
Lemma head_find_users cond t id r :
  head (find_users cond t) = Some (id, r) → users t !! id = Some r ∧ cond id r = true.
Proof.
  intros Hh. apply elem_of_find_users. destruct (find_users cond t); [done|].
  injection Hh as ->. left.
Qed.

Lemma find_users_nil cond t :
  is_nil (find_users cond t) = true ↔ ∀ id r, users t !! id = Some r → cond id r = false.
Proof.
  split.
  - intros Hn id r Hr. apply not_true_iff_false. intros Hc.
    assert ((id, r) ∈ find_users cond t) as Hin by (by apply elem_of_find_users).
    destruct (find_users cond t); [by apply elem_of_nil in Hin|done].
  - intros Hf. destruct (find_users cond t) as [|[id r] l] eqn:He; [done|].
    assert ((id, r) ∈ find_users cond t) as Hin by (rewrite He; left).
    apply elem_of_find_users in Hin as [Hr Hc]. by rewrite (Hf id r Hr) in Hc.
Qed.

Lemma length_filter_perm {A} (f : A → bool) (l k : list A) :
  l ≡ₚ k → length (List.filter f l) = length (List.filter f k).
Proof. induction 1; simpl; repeat case_match; simpl; congruence. Qed.

(** The number of rows an update changes. *)
Lemma count_updated cond id r t :
  users t !! id = Some r → (∀ k x, cond k x = true → k = id) →
  length (List.filter (λ x, cond x.1 x.2) (map_to_list (users t))) =
    if cond id r then 1%nat else 0%nat.
Proof.
  intros Hr Hc. rewrite <-(insert_delete_id (users t) id r) by done.
  rewrite (length_filter_perm _ _ _ (map_to_list_insert _ id r (lookup_delete_eq _ id))). simpl.
  assert (List.filter (λ x, cond x.1 x.2) (map_to_list (delete id (users t))) = []) as Hn.
  { apply filter_bool_empty. intros [k x] Hin%elem_of_map_to_list. simpl.
    apply not_true_iff_false. intros Ht%Hc. subst k. by rewrite lookup_delete_eq in Hin. }
  rewrite Hn. by destruct (cond id r).
Qed.

Lemma update_users_Ok cond f t :
  always (update_users cond f) (λ r t', match r with
    | Ok n => n = Z.of_nat (length (List.filter (λ x, cond x.1 x.2) (map_to_list (users t)))) ∧
        t' = set_users (update_where cond f (users t)) t
    | Err _ => t' = t end) t.
Proof.
  apply always_stmt; [done|]. intros k t1. cbv zeta. case_match; [|done]. by intros [= <- <-].
Qed.
