(* ===== verification/Totp.v ===== *)
(** * One-time codes: [internal/totp/totp.go]

    HMAC-SHA1 of the standard library is the method of [Hmac], with the length and the
    range of what it returns; [base32] without padding is defined. *)
From Stdlib Require Import Ascii.
From S2P Require Import Prelude GoStrings GoJson GoNum GoTime GoUrl Secrets.

Class Hmac := {
  hmac_sha1 : string → list Z → list Z;
  hmac_sha1_length key msg : length (hmac_sha1 key msg) = 20%nat;
  hmac_sha1_bytes key msg : Forall (λ b, 0 ≤ b < 256) (hmac_sha1 key msg) }.

Definition issuer : string := "Probakgo".
Definition digits : Z := 6.
Definition period : Z := 30.

(** ** [base32.StdEncoding.WithPadding(base32.NoPadding)] *)

Definition b32_alphabet : string := "ABCDEFGHIJKLMNOPQRSTUVWXYZ234567".

Definition b32_char (v : Z) : ascii := default "A"%char (String.get (Z.to_nat v) b32_alphabet).

Definition b32_val (c : ascii) : option Z :=
  let b := byte c in
  if (65 <=? b) && (b <=? 90) then Some (b - 65) else
  if (50 <=? b) && (b <=? 55) then Some (b - 24) else None.

(** The lowest [n] characters of five bits of [x]. *)
Fixpoint quintets (n : nat) (x : Z) : string :=
  match n with
  | O => EmptyString
  | S n => String (b32_char ((x / 32 ^ Z.of_nat n) mod 32)) (quintets n x)
  end.

Fixpoint EncodeToString (s : string) : string :=
  match s with
  | EmptyString => EmptyString
  | String a EmptyString => quintets 2 (byte a * 4)
  | String a (String b EmptyString) => quintets 4 ((byte a * 256 + byte b) * 16)
  | String a (String b (String c EmptyString)) =>
      quintets 5 (((byte a * 256 + byte b) * 256 + byte c) * 2)
  | String a (String b (String c (String d EmptyString))) =>
      quintets 7 ((((byte a * 256 + byte b) * 256 + byte c) * 256 + byte d) * 8)
  | String a (String b (String c (String d (String e s)))) =>
      quintets 8 ((((byte a * 256 + byte b) * 256 + byte c) * 256 + byte d) * 256 + byte e)
        +:+ EncodeToString s
  end.

(** The lowest [n] bytes of [x]. *)
Fixpoint octets (n : nat) (x : Z) : string :=
  match n with
  | O => EmptyString
  | S n => String (chr ((x / 256 ^ Z.of_nat n) mod 256)) (octets n x)
  end.

Definition of_quintets (l : list Z) : Z := fold_left (λ x v, x * 32 + v) l 0.

(** The bytes of the last quantum: with one, three or six characters, none. *)
Definition last_quantum (l : list Z) : string :=
  match length l with
  | 2 => octets 1 (of_quintets l / 4)
  | 4 => octets 2 (of_quintets l / 16)
  | 5 => octets 3 (of_quintets l / 2)
  | 7 => octets 4 (of_quintets l / 8)
  | _ => EmptyString
  end%nat.

Fixpoint b32_vals (l : list Z) : string :=
  match l with
  | v1 :: v2 :: v3 :: v4 :: v5 :: v6 :: v7 :: v8 :: l =>
      octets 5 (of_quintets [v1; v2; v3; v4; v5; v6; v7; v8]) +:+ b32_vals l
  | _ => last_quantum l
  end.

(** The values of the characters, without line breaks. *)
Fixpoint b32_clean (s : string) : option (list Z) :=
  match s with
  | EmptyString => Some []
  | String c s =>
      if is_newline c then b32_clean s else
      v ← b32_val c; vs ← b32_clean s; Some (v :: vs)
  end.

(** [None] is a [CorruptInputError]. *)
Definition DecodeString (s : string) : option string := b32_vals <$> b32_clean s.

(** [raw] is the answer of [rand.Read] for 20 bytes. *)
Definition GenerateSecret (raw : result string) : result string :=
  raw ← raw; Ok (EncodeToString raw).

Definition ProvisioningURI (username secret : string) : string :=
  let label := issuer +:+ ":" +:+ username in
  "otpauth://totp/" +:+ PathEscape label +:+ "?" +:+ Encode
    [("secret", ToUpper (TrimSpace secret)); ("issuer", issuer); ("algorithm", "SHA1");
     ("digits", Itoa digits); ("period", Itoa period)].

(** ** Codes *)

(** [binary.BigEndian.PutUint64]. *)
Fixpoint big_endian (n : nat) (x : Z) : list Z :=
  match n with
  | O => []
  | S n => (x / 256 ^ Z.of_nat n) mod 256 :: big_endian n x
  end.

(** [fmt.Sprintf("%06d", otp)], for a number below a million. *)
Fixpoint decimals (n : nat) (x : Z) : string :=
  match n with
  | O => EmptyString
  | S n => String (chr (48 + (x / 10 ^ Z.of_nat n) mod 10)) (decimals n x)
  end.

Section codes.
Context `{!Hmac}.

Definition generateCode (key : string) (counter : Z) : string :=
  let sum := hmac_sha1 key (big_endian 8 (counter mod 2^64)) in
  let offset := Z.land (nth (length sum - 1) sum 0) 0x0f in
  let at_ (i : Z) := nth (Z.to_nat (offset + i)) sum 0 in
  let bin := Z.lor (Z.lor (Z.lor (Z.shiftl (Z.land (at_ 0) 0x7f) 24)
                                 (Z.shiftl (Z.land (at_ 1) 0xff) 16))
                          (Z.shiftl (Z.land (at_ 2) 0xff) 8))
                   (Z.land (at_ 3) 0xff) in
  decimals 6 (bin mod 1000000).

(** The loop over [drift]. *)
Fixpoint find_step (key code : string) (step : Z) (drifts : list Z) : Z * bool :=
  match drifts with
  | [] => (0, false)
  | drift :: drifts =>
      if bool_decide (generateCode key (wrap64 (step + drift)) = code)
      then (wrap64 (step + drift), true) else find_step key code step drifts
  end.

Definition ValidateStep (code secret : string) (now : Time) : Z * bool :=
  let code := TrimSpace code in
  if negb (str_len code =? digits) then (0, false) else
  match DecodeString (ToUpper (TrimSpace secret)) with
  | None => (0, false)
  | Some key => find_step key code (Z.quot (Unix now) period) [-1; 0; 1]
  end.

Definition Validate (code secret : string) (now : Time) : bool :=
  (ValidateStep code secret now).2.
End codes.

(** ** Lemmas *)

Lemma b32_val_char v : 0 ≤ v < 32 → b32_val (b32_char v) = Some v ∧ is_newline (b32_char v) = false.
Proof.
  intros Hv. pose proof (below_forall (λ v, bool_decide (b32_val (b32_char v) = Some v) &&
    negb (is_newline (b32_char v))) 32 ltac:(by vm_compute) v Hv) as Ht. cbv beta in Ht.
  apply andb_true_iff in Ht as [Ht%bool_decide_eq_true Hn%negb_true_iff]. done.
Qed.

Lemma b32_clean_char v s :
  0 ≤ v < 32 → b32_clean (String (b32_char v) s) = (λ vs, v :: vs) <$> b32_clean s.
Proof.
  intros [Hv Hn]%b32_val_char. cbn [b32_clean]. rewrite Hn, Hv. by destruct (b32_clean s).
Qed.

Fixpoint quintet_vals (n : nat) (x : Z) : list Z :=
  match n with O => [] | S n => (x / 32 ^ Z.of_nat n) mod 32 :: quintet_vals n x end.

Lemma b32_clean_quintets n x s :
  b32_clean (quintets n x +:+ s) = (λ vs, quintet_vals n x ++ vs) <$> b32_clean s.
Proof.
  induction n as [|n IH]; [change (quintets 0 x +:+ s) with s; by destruct (b32_clean s)|].
  change (quintets (S n) x +:+ s) with
    (String (b32_char ((x / 32 ^ Z.of_nat n) mod 32)) (quintets n x +:+ s)).
  rewrite b32_clean_char, IH by (apply Z.mod_pos_bound; lia).
  by destruct (b32_clean s).
Qed.

Lemma fold_quintets n x y :
  fold_left (λ x v, x * 32 + v) (quintet_vals n x) y = y * 32 ^ Z.of_nat n + x mod 32 ^ Z.of_nat n.
Proof.
  revert y. induction n as [|n IH]; intros y; cbn [quintet_vals fold_left].
  - rewrite Z.mod_1_r. lia.
  - rewrite IH, Nat2Z.inj_succ, Z.pow_succ_r by lia.
    rewrite (Z.mul_comm 32), Z.rem_mul_r by (try apply Z.pow_nonzero; lia). lia.
Qed.

Lemma of_quintet_vals n x : 0 ≤ x < 32 ^ Z.of_nat n → of_quintets (quintet_vals n x) = x.
Proof. intros Hx. unfold of_quintets. rewrite fold_quintets, Z.mod_small by done. lia. Qed.

Lemma char_byte c : chr (byte c) = c.
Proof. unfold chr, byte. rewrite N2Z.id. apply ascii_N_embedding. Qed.

(** The bytes of a number, first byte apart. *)
Lemma octets_S n x b :
  0 ≤ b < 256 → 0 ≤ x < 256 ^ Z.of_nat n →
  octets (S n) (b * 256 ^ Z.of_nat n + x) = String (chr b) (octets n x).
Proof.
  intros Hb Hx. assert (0 < 256 ^ Z.of_nat n) as Hp by (apply Z.pow_pos_nonneg; lia).
  assert (∀ m y, (m ≤ n)%nat → octets m (b * 256 ^ Z.of_nat n + y) = octets m y) as Hlow.
  { intros m y. induction m as [|m IH]; intros Hm; [done|]. cbn [octets]. rewrite IH by lia.
    replace (Z.of_nat n) with (Z.of_nat m + 1 + (Z.of_nat n - Z.of_nat m - 1)) by lia.
    rewrite !Z.pow_add_r, Z.pow_1_r by lia.
    set (q := 256 ^ (Z.of_nat n - Z.of_nat m - 1)).
    assert (0 < 256 ^ Z.of_nat m) by (apply Z.pow_pos_nonneg; lia).
    replace (b * (256 ^ Z.of_nat m * 256 * q) + y) with (y + (b * q * 256) * 256 ^ Z.of_nat m) by lia.
    rewrite Z.div_add by lia. do 2 f_equal. by rewrite Z_mod_plus_full. }
  cbn [octets]. rewrite Hlow by lia. f_equal. f_equal.
  rewrite Z.div_add_l, (Z.div_small x) by lia. rewrite Z.add_0_r. by apply Z.mod_small.
Qed.

(** *** A secret is read back *)

Ltac bytes_in_range :=
  repeat match goal with c : ascii |- _ =>
    lazymatch goal with H : 0 ≤ byte c < 256 |- _ => fail | _ => pose proof (byte_bounds c) end
  end.

Lemma b32_vals_group l s :
  length l = 8%nat → b32_vals (l ++ s) = octets 5 (of_quintets l) +:+ b32_vals s.
Proof. by destruct l as [|? [|? [|? [|? [|? [|? [|? [|? [|]]]]]]]]]. Qed.

Lemma octets_bytes (cs : string) :
  ∀ x, x = fold_left (λ x c, x * 256 + byte c) (String.list_ascii_of_string cs) 0 →
  octets (String.length cs) x = cs.
Proof.
  intros x ->. induction cs as [|c cs IH]; [done|]. simpl.
  assert (∀ l y, fold_left (λ x c, x * 256 + byte c) l y =
    y * 256 ^ Z.of_nat (length l) + fold_left (λ x c, x * 256 + byte c) l 0) as Hfold.
  { induction l as [|a l IHl]; intros y; cbn [fold_left length]; [lia|].
    rewrite IHl, (IHl (0 * 256 + byte a)).
    replace (Z.of_nat (S (length l))) with (Z.of_nat (length l) + 1) by lia.
    rewrite Z.pow_add_r by lia. lia. }
  assert (∀ l, 0 ≤ fold_left (λ x c, x * 256 + byte c) l 0 < 256 ^ Z.of_nat (length l)) as Hb.
  { induction l as [|a l IHl]; cbn [fold_left length]; [lia|]. rewrite Hfold.
    pose proof (byte_bounds a). replace (Z.of_nat (S (length l))) with (Z.of_nat (length l) + 1) by lia.
    rewrite Z.pow_add_r by lia. nia. }
  assert (length (String.list_ascii_of_string cs) = String.length cs) as Hl
    by (clear; induction cs; simpl; congruence).
  rewrite Hfold, Hl. rewrite <-(char_byte c) at 3.
  change (octets (S (String.length cs)) ?y = ?z) with (octets (S (String.length cs)) y = z).
  rewrite <-Hl at 2. pose proof (byte_bounds c). pose proof (Hb (String.list_ascii_of_string cs)) as Hbl.
  rewrite Hl in Hbl |- *. cbn [Z.mul]. rewrite Z.add_0_l.
  exact (eq_trans (octets_S (String.length cs) _ (byte c) ltac:(lia) Hbl) (f_equal _ IH)).
Qed.

Lemma quintet_vals_length n x : length (quintet_vals n x) = n.
Proof. induction n; simpl; congruence. Qed.

Lemma b32_clean_end n x : b32_clean (quintets n x) = Some (quintet_vals n x).
Proof.
  induction n as [|n IH]; [done|]. cbn [quintets].
  rewrite b32_clean_char, IH by (apply Z.mod_pos_bound; lia). done.
Qed.

Lemma b32_vals_short l : (length l < 8)%nat → b32_vals l = last_quantum l.
Proof. destruct l as [|? [|? [|? [|? [|? [|? [|? [|? l]]]]]]]]; try done. simpl. lia. Qed.

(** Less than five bytes. *)
Lemma decode_last n x k y cs :
  (n < 8)%nat → 0 ≤ x < 32 ^ Z.of_nat n →
  (∀ l, length l = n → last_quantum l = octets k (of_quintets l / y)) →
  String.length cs = k →
  x / y = fold_left (λ x c, x * 256 + byte c) (String.list_ascii_of_string cs) 0 →
  DecodeString (quintets n x) = Some cs.
Proof.
  intros Hn Hx Hl <- Hy. unfold DecodeString. rewrite b32_clean_end. simpl. f_equal.
  rewrite b32_vals_short by (by rewrite quintet_vals_length).
  rewrite Hl by apply quintet_vals_length. rewrite of_quintet_vals by done.
  by apply octets_bytes.
Qed.

Lemma decode_group x s cs t :
  0 ≤ x < 32 ^ 8 → octets 5 x = cs → DecodeString s = Some t →
  DecodeString (quintets 8 x +:+ s) = Some (cs +:+ t).
Proof.
  intros Hx <- Hs. unfold DecodeString in *. rewrite b32_clean_quintets.
  destruct (b32_clean s) as [vs|]; [|done]. injection Hs as <-. simpl. f_equal.
  change (b32_vals (quintet_vals 8 x ++ vs) = octets 5 x +:+ b32_vals vs).
  by rewrite b32_vals_group, of_quintet_vals by (done || apply quintet_vals_length).
Qed.

(** Every text that [GenerateSecret] makes is read back as the bytes it was made of. *)
Theorem DecodeString_EncodeToString (s : string) : DecodeString (EncodeToString s) = Some s.
Proof.
  remember (String.length s) as n eqn:Hn. revert s Hn.
  induction n as [n IH] using lt_wf_ind. intros s ->.
  destruct s as [|a [|b [|c [|d [|e s]]]]]; [done|..]; cbn [EncodeToString]; bytes_in_range.
  - apply (decode_last 2 _ 1 4); [lia|lia|by intros [|? [|? [|]]]|done|].
    cbn. rewrite Z.div_mul; lia.
  - apply (decode_last 4 _ 2 16); [lia|lia|by intros [|? [|? [|? [|? [|]]]]]|done|].
    cbn. rewrite Z.div_mul; lia.
  - apply (decode_last 5 _ 3 2); [lia|lia|by intros [|? [|? [|? [|? [|? [|]]]]]]|done|].
    cbn. rewrite Z.div_mul; lia.
  - apply (decode_last 7 _ 4 8); [lia|lia|by intros [|? [|? [|? [|? [|? [|? [|? [|]]]]]]]]|done|].
    cbn. rewrite Z.div_mul; lia.
  - apply (decode_group _ _ (String a (String b (String c (String d (String e EmptyString))))));
      [lia| |].
    + refine (octets_bytes (String a (String b (String c (String d (String e EmptyString))))) _ _).
      cbn. lia.
    + apply (IH (String.length s)); [simpl; lia|done].
Qed.

(** *** Texts of plain ASCII characters *)

(** From [!] to [~], no lower case. *)
Definition plain_char (c : ascii) : bool :=
  (33 <=? byte c) && (byte c <? 127) && negb ((97 <=? byte c) && (byte c <=? 122)).

Fixpoint plain (s : string) : bool :=
  match s with EmptyString => true | String c s => plain_char c && plain s end.

Lemma plain_app s t : plain (s +:+ t) = plain s && plain t.
Proof. induction s as [|c s IH]; simpl; [done|]. by rewrite IH, andb_assoc. Qed.

Lemma plain_rev s : plain (String.rev s) = plain s.
Proof.
  induction s as [|c s IH]; [done|]. rewrite rev_cons_str, plain_app, IH. simpl.
  rewrite andb_true_r. apply andb_comm.
Qed.

Lemma trim_left_plain s : plain s = true → trim_left s = s.
Proof.
  destruct s as [|a s]; [done|]. intros [Ha _]%andb_true_iff.
  unfold plain_char in Ha. cbn [trim_left].
  assert (is_ascii_space a = false) as ->
    by (destruct a as [[] [] [] [] [] [] [] []]; (reflexivity || discriminate Ha)).
  destruct s as [|b s]; [done|]. unfold is_space2, is_space3.
  rewrite !(proj2 (Z.eqb_neq (byte a) _)) by lia. simpl. by destruct s.
Qed.

Lemma trim_left_rev_plain s : plain s = true → trim_left_rev s = s.
Proof.
  destruct s as [|a s]; [done|]. intros [Ha _]%andb_true_iff.
  unfold plain_char in Ha. cbn [trim_left_rev].
  assert (is_ascii_space a = false) as ->
    by (destruct a as [[] [] [] [] [] [] [] []]; (reflexivity || discriminate Ha)).
  destruct s as [|b s]; [done|]. unfold is_space2, is_space3.
  rewrite !(proj2 (Z.eqb_neq (byte a) _)), ?(proj2 (Z.leb_gt _ (byte a))) by lia.
  rewrite ?andb_false_r. simpl. destruct s as [|c s]; [done|]. by rewrite ?andb_false_r.
Qed.

Lemma TrimSpace_plain s : plain s = true → TrimSpace s = s.
Proof.
  intros Hs. unfold TrimSpace, trim_right. rewrite trim_left_plain by done.
  rewrite trim_left_rev_plain by (by rewrite plain_rev). apply rev_rev_str.
Qed.

Lemma ToUpper_plain s : plain s = true → ToUpper s = s.
Proof.
  induction s as [|a s IH]; [done|]. cbn [plain]. intros [Ha Hs]%andb_true_iff.
  unfold plain_char in Ha. cbn [ToUpper]. rewrite IH by done.
  assert (upper_ascii a = a) as ->.
  { unfold upper_ascii. rewrite (proj2 (andb_false_iff _ _)); [done|]. lia. }
  destruct s as [|b s]; [done|]. by rewrite !(proj2 (Z.eqb_neq (byte a) _)) by lia.
Qed.

Lemma plain_quintets n x : plain (quintets n x) = true.
Proof.
  induction n as [|n IH]; [done|]. cbn [quintets plain]. rewrite IH, andb_true_r.
  pose proof (Z.mod_pos_bound (x / 32 ^ Z.of_nat n) 32 ltac:(lia)) as Hv.
  revert Hv. generalize ((x / 32 ^ Z.of_nat n) mod 32).
  apply (below_forall (λ v, plain_char (b32_char v)) 32). by vm_compute.
Qed.

Lemma plain_EncodeToString s : plain (EncodeToString s) = true.
Proof.
  remember (String.length s) as n eqn:Hn. revert s Hn.
  induction n as [n IH] using lt_wf_ind. intros s ->.
  destruct s as [|a [|b [|c [|d [|e s]]]]]; [done|..]; cbn [EncodeToString];
    rewrite ?plain_app, ?plain_quintets; try done.
  apply (IH (String.length s)); [simpl; lia|done].
Qed.

Lemma plain_decimals n x : plain (decimals n x) = true ∧ String.length (decimals n x) = n.
Proof.
  induction n as [|n [IHp IHl]]; [done|]. cbn [decimals plain String.length]. split; [|by rewrite IHl].
  rewrite IHp, andb_true_r.
  pose proof (Z.mod_pos_bound (x / 10 ^ Z.of_nat n) 10 ltac:(lia)) as Hv.
  revert Hv. generalize ((x / 10 ^ Z.of_nat n) mod 10).
  apply (below_forall (λ v, plain_char (chr (48 + v))) 10). by vm_compute.
Qed.

(** ** Properties *)

Section properties.
Context `{!Hmac}.

Lemma generateCode_plain key n :
  plain (generateCode key n) = true ∧ str_len (generateCode key n) = 6.
Proof.
  unfold generateCode, str_len. cbv zeta.
  match goal with |- context [decimals 6 ?x] => destruct (plain_decimals 6 x) as [Hp Hl] end.
  by rewrite Hl.
Qed.

Lemma find_step_spec key code step drifts st :
  find_step key code step drifts = (st, true) →
  ∃ drift, drift ∈ drifts ∧ st = wrap64 (step + drift) ∧ generateCode key st = code.
Proof.
  induction drifts as [|d l IH]; cbn [find_step]; [done|].
  destruct (bool_decide _) eqn:Hb.
  - intros [= <-]. apply bool_decide_eq_true in Hb. exists d. split_and!; [left|done|done].
  - intros (d' & Hd & Hst)%IH. exists d'. split; [by right|done].
Qed.

Lemma find_step_found key code step drifts drift :
  drift ∈ drifts → generateCode key (wrap64 (step + drift)) = code →
  ∃ st, find_step key code step drifts = (st, true).
Proof.
  intros Hin Hc. induction Hin as [l|d l Hin IH]; cbn [find_step].
  - rewrite bool_decide_true by done. eauto.
  - destruct (bool_decide _); eauto.
Qed.

(** a code is accepted only when it is the code of the secret for the step of the
    clock or the one before or after it, and that step is what the caller learns. *)
Theorem ValidateStep_sound (code secret : string) (now : Time) (st : Z) :
  ValidateStep code secret now = (st, true) →
  ∃ key, DecodeString (ToUpper (TrimSpace secret)) = Some key ∧
    generateCode key st = TrimSpace code ∧
    ∃ drift, -1 ≤ drift ≤ 1 ∧ st = wrap64 (Z.quot (Unix now) period + drift).
Proof.
  unfold ValidateStep. cbv zeta. destruct (negb _); [done|].
  destruct (DecodeString _) as [key|]; [|done].
  intros (d & Hd & Hst & Hc)%find_step_spec. exists key. split_and!; [done|done|].
  exists d. split; [|done]. set_unfold. lia.
Qed.

(** the code that an authenticator with a generated secret shows is accepted by a
    server whose clock is at most 30 seconds ahead or behind. *)
Theorem code_of_secret_accepted (raw : string) (shown now : Time) :
  0 ≤ shown → 0 ≤ now → Z.abs (now - shown) ≤ 30 * Second → now < 2^63 * Second - 60 * Second →
  Validate (generateCode raw (Unix shown / 30)) (EncodeToString raw) now = true.
Proof.
  intros Hs Hn Hd Hmax. unfold Validate, ValidateStep. cbv zeta.
  destruct (generateCode_plain raw (Unix shown / 30)) as [Hp Hl].
  rewrite !TrimSpace_plain by (done || apply plain_EncodeToString).
  rewrite Hl, ToUpper_plain, DecodeString_EncodeToString by apply plain_EncodeToString.
  cbn [negb digits Z.eqb Pos.eqb].
  unfold Unix, period, Second in *. rewrite Z.quot_div_nonneg by (try apply Z.div_pos; lia).
  set (a := shown / 1000000000) in *. set (b := now / 1000000000) in *.
  assert (shown = 1000000000 * a + shown mod 1000000000 ∧ now = 1000000000 * b + now mod 1000000000)
    as [Ha Hb] by (split; apply Z.div_mod; lia).
  pose proof (Z.mod_pos_bound shown 1000000000 ltac:(lia)).
  pose proof (Z.mod_pos_bound now 1000000000 ltac:(lia)).
  assert (-30 ≤ b - a ≤ 30) as Hab by lia.
  pose proof (Z.div_mod a 30 ltac:(lia)). pose proof (Z.mod_pos_bound a 30 ltac:(lia)).
  pose proof (Z.div_mod b 30 ltac:(lia)). pose proof (Z.mod_pos_bound b 30 ltac:(lia)).
  assert (-1 ≤ b / 30 - a / 30 ≤ 1) as Hq by lia.
  destruct (find_step_found raw (generateCode raw (a / 30)) (b / 30) [-1; 0; 1] (a / 30 - b / 30))
    as [st ->]; [| |done].
  - assert (a / 30 - b / 30 = -1 ∨ a / 30 - b / 30 = 0 ∨ a / 30 - b / 30 = 1) as Hc by lia.
    rewrite !elem_of_cons. lia.
  - f_equal. replace (b / 30 + (a / 30 - b / 30)) with (a / 30) by lia.
    unfold wrap64. rewrite Z.mod_small; lia.
Qed.
End properties.

(** ** Examples *)

(** The key with the message, as bytes. *)
#[export] Program Instance plain_hmac : Hmac | 100 := {|
  hmac_sha1 := λ key msg, take 20 ((byte <$> String.list_ascii_of_string key) ++
    ((λ b, b mod 256) <$> msg) ++ replicate 20 10) |}.
Next Obligation. intros key msg. cbv beta. rewrite length_take, !length_app, length_replicate. lia. Qed.
Next Obligation.
  intros key msg. apply Forall_take. rewrite !Forall_app. split_and!.
  - apply Forall_fmap, Forall_forall. intros c _. apply byte_bounds.
  - apply Forall_fmap, Forall_forall. intros b _. apply Z.mod_pos_bound. lia.
  - by apply Forall_replicate.
Qed.

Lemma ValidateStep_sound_witness :
  ValidateStep (generateCode "secret" 3) (EncodeToString "secret") (100 * Second) = (3, true) ∧
  ∃ key, DecodeString (ToUpper (TrimSpace (EncodeToString "secret"))) = Some key ∧
    generateCode key 3 = TrimSpace (generateCode "secret" 3).
Proof.
  assert (ValidateStep (generateCode "secret" 3) (EncodeToString "secret") (100 * Second) = (3, true))
    as Hv by (vm_compute; reflexivity).
  split; [exact Hv|]. destruct (ValidateStep_sound _ _ _ _ Hv) as (key & Hk & Hc & _). eauto.
Defined.

Lemma code_of_secret_accepted_witness :
  Validate (generateCode "secret" (Unix (100 * Second) / 30)) (EncodeToString "secret")
    (130 * Second) = true.
Proof. apply code_of_secret_accepted; unfold Second; lia. Defined.
