(* ===== verification/Session.v ===== *)
(** * Session cookies: [internal/session/session.go]

    A login session lives in a cookie that [gorilla/sessions] signs and encrypts: here
    it is the map of its values, of the types that [encoding/gob] gives back.  The
    session of a request is decoded once, and what a function changes of it is seen by
    the functions called later in the same request, whether the cookie is saved or
    not.  The answers of the random source and of [Save] are arguments. *)
From S2P Require Import Prelude GoStrings GoNum GoTime GoNetip Challenges.

(** [const Lifetime]. *)
Definition Lifetime : Duration := 7 * 24 * Hour.

Inductive sval : Type :=
| VString (s : string)
| VInt (n : Z)
| VInt64 (n : Z)
| VFloat64 (f : float64)
| VTime (t : Time).

Notation Values := (gmap string sval).

(** [ss_ready]: the store was initialised; [ss_err]: the cookie did not decode, and
    the values are those of a new session. *)
Record Sess := { ss_ready : bool; ss_err : bool; ss_values : Values }.

Definition set_values (v : Values) (s : Sess) : Sess :=
  {| ss_ready := ss_ready s; ss_err := ss_err s; ss_values := v |}.

(** The cookie of a response. *)
Inductive Cookie : Type :=
| Keep (v : Values)
| Remove.

Definition save (saved : result ()) (s : Sess) : result Cookie :=
  match saved with Ok _ => Ok (Keep (ss_values s)) | Err e => Err e end.

Definition usable (s : Sess) : bool := ss_ready s && negb (ss_err s).

Definition string_at (key : string) (s : Sess) : string * bool :=
  match ss_values s !! key with Some (VString v) => (v, true) | _ => ("", false) end.

(** [switch v := value.(type)] over the types of numbers. *)
Definition number (v : option sval) : option Z :=
  match v with
  | Some (VInt n) | Some (VInt64 n) => Some n
  | Some (VFloat64 f) => Some (Trunc f)
  | _ => None
  end.

(** ** Login sessions *)

Definition GetUser (s : Sess) : string * string * bool :=
  if negb (usable s) then ("", "", false) else
  let '(u, uok) := string_at "username" s in
  let '(ro, rok) := string_at "role" s in
  (u, ro, uok && rok && negb (str_empty u)).

Definition SetUserWithVersion (raw : result (list Z)) (saved : result ()) (s : Sess)
    (userID : Z) (username role : string) (version : Z) : Sess * result Cookie :=
  match raw with
  | Err e => (s, Err e)
  | Ok raw =>
      let s := set_values (<["sid" := VString (EncodeToString raw)]>
        (<["user_id" := VInt64 userID]> (<["username" := VString username]>
        (<["role" := VString role]> {["session_version" := VInt version]})))) s in
      (s, save saved s)
  end.

Definition SetUser raw saved s userID username role :=
  SetUserWithVersion raw saved s userID username role 1.

Definition ErrSession : error := ErrMsg "securecookie: the value is not valid".

(** A function that changes the session and saves it. *)
Definition change (saved : result ()) (f : Values → Values) (s : Sess) : Sess * result Cookie :=
  if ss_err s then (s, Err ErrSession)
  else let s := set_values (f (ss_values s)) s in (s, save saved s).

Definition RefreshRole (saved : result ()) (role : string) (version : Z) : Sess → Sess * result Cookie :=
  change saved (λ v, <["role" := VString role]> (<["session_version" := VInt version]> v)).

Definition ID (s : Sess) : string * bool :=
  if negb (usable s) then ("", false) else
  let '(sid, ok) := string_at "sid" s in (sid, ok && negb (str_empty sid)).

Definition UserID (s : Sess) : Z * bool :=
  if negb (usable s) then (0, false) else
  match ss_values s !! "user_id" with Some (VInt64 id) => (id, 0 <? id) | _ => (0, false) end.

Definition UserVersion (s : Sess) : Z * bool :=
  if negb (usable s) then (0, false) else
  match number (ss_values s !! "session_version") with
  | Some v => (v, 0 <? v)
  | None => (0, false)
  end.

(** ** The second factor *)

(** What [challengeToken] sees of the request. *)
Definition pending (s : Sess) : Request := {|
  store_ready := ss_ready s; session_err := ss_err s;
  pending_token := match ss_values s !! "pending_2fa_token" with
                   | Some (VString t) => Some t
                   | _ => None
                   end |}.

(** The cookie part of [SetPending2FA]: a session that holds nothing but the token. *)
Definition with_token (token : string) (s : Sess) : Sess :=
  set_values {["pending_2fa_token" := VString token]} s.

(** The cookie part of [ClearPending2FA]. *)
Definition without_token (saved : result ()) : Sess → Sess * result Cookie :=
  change saved (delete "pending_2fa_token").

Definition SetPendingTOTPSetup (saved : result ()) (now : Time) (secret : string) :
    Sess → Sess * result Cookie :=
  change saved (λ v, <["pending_totp_secret" := VString secret]>
    (<["pending_totp_expires" := VInt64 (Unix (AddDur now (10 * Minute)))]> v)).

Definition GetPendingTOTPSetup (now : Time) (s : Sess) : string * bool :=
  if negb (usable s) then ("", false) else
  let '(secret, ok) := string_at "pending_totp_secret" s in
  let expires := match ss_values s !! "pending_totp_expires" with
                 | Some (VInt64 e) => e
                 | _ => 0
                 end in
  (secret, ok && negb (str_empty secret) && (Unix now <? expires)).

Definition ClearPendingTOTPSetup (saved : result ()) : Sess → Sess * result Cookie :=
  change saved (λ v, delete "pending_totp_secret" (delete "pending_totp_expires" v)).

(** ** Telegram pairing *)

Definition SetTelegramPairing (saved : result ()) (userID : Z) (code : string) (expires : Time) :
    Sess → Sess * result Cookie :=
  change saved (λ v, <["telegram_pairing_code" := VString code]>
    (<["telegram_pairing_expires" := VInt64 (Unix expires)]>
    (<["telegram_pairing_user_id" := VInt64 userID]> v))).

Definition GetTelegramPairing (userID : Z) (now : Time) (s : Sess) : string * bool :=
  if negb (usable s) then ("", false) else
  let code := (string_at "telegram_pairing_code" s).1 in
  let expires := default 0 (number (ss_values s !! "telegram_pairing_expires")) in
  let pairedUserID := default 0 (number (ss_values s !! "telegram_pairing_user_id")) in
  (code, negb (str_empty code) && (pairedUserID =? userID) && After (UnixTime expires) now).

Definition ClearTelegramPairing (saved : result ()) : Sess → Sess * result Cookie :=
  change saved (λ v, delete "telegram_pairing_code" (delete "telegram_pairing_expires"
    (delete "telegram_pairing_user_id" v))).

(** ** Sensitive actions *)

Definition SensitiveTOTPUntil (s : Sess) : Time * bool :=
  if negb (usable s) then (zeroTime, false) else
  match ss_values s !! "sensitive_totp_until" with
  | Some (VTime t) => (UnixTime (Unix t), true)
  | v => match number v with Some n => (UnixTime n, true) | None => (zeroTime, false) end
  end.

Definition SensitiveTOTPFresh (now : Time) (s : Sess) : bool :=
  let '(until, ok) := SensitiveTOTPUntil s in ok && After until now.

Definition SetSensitiveTOTPFresh (saved : result ()) (until : Time) : Sess → Sess * result Cookie :=
  change saved (λ v, <["sensitive_totp_until" := VInt64 (Unix until)]> v).

(** ** Lemmas *)

(** The session that comes back in a cookie. *)
Definition returned (v : Values) : Sess := {| ss_ready := true; ss_err := false; ss_values := v |}.

Lemma SetUserWithVersion_returned raw saved s id name role ver s' v :
  SetUserWithVersion raw saved s id name role ver = (s', Ok (Keep v)) →
  0 < id → name ≠ "" → 0 < ver →
  GetUser (returned v) = (name, role, true) ∧ UserID (returned v) = (id, true) ∧
  UserVersion (returned v) = (ver, true) ∧
  (pending (returned v)).(pending_token) = None ∧
  ∃ r, raw = Ok r ∧ ID (returned v) = (EncodeToString r, negb (str_empty (EncodeToString r))).
Proof.
  intros Hset Hid Hname Hver. destruct raw as [r|e]; [|done]. unfold SetUserWithVersion, save in Hset.
  destruct saved as [[]|e]; simplify_eq/=.
  unfold GetUser, UserID, UserVersion, ID, string_at, pending, usable. cbn [returned ss_ready ss_err
    ss_values negb andb set_values pending_token]. simpl_map. cbn [number].
  unfold str_empty. rewrite (bool_decide_false (name = "")), !(proj2 (Z.ltb_lt 0 _)) by done.
  split_and!; [done|done|done|done|]. eauto.
Qed.
