(* ===== verification/Frames.v ===== *)
(** * Programs that move along a relation, and races between programs

    [steps S p] says that every statement, transaction and step in memory of [p] takes
    the state along [S], whatever the program has read before; it gives both what holds
    when [p] runs alone and what holds when it takes turns with others.

    [contest R tok p wins t] says that [p] can reach a winning answer only through a
    statement that takes the token: that makes [tok] true where it was false.  In a
    pool of such programs at most one wins ([at_most_one_winner]). *)
From S2P Require Import Prelude Sql Interleave.

Section steps.
Context {T : Type}.
Implicit Types (t s : T).

Inductive steps (S : T → T → Prop) : ∀ {A}, prog T A → Prop :=
| steps_Ret {A} (r : result A) : steps S (Ret r)
| steps_Stmt {A B} (f : T → result (B * T)) (k : result B → prog T A) :
    (∀ t b t', f t = Ok (b, t') → S t t') → (∀ r, steps S (k r)) → steps S (Stmt f k)
| steps_Tx {A B} (p : prog T B) (c : B → bool) (k : result B → prog T A) :
    steps S p → (∀ r, steps S (k r)) → steps S (Tx p c k)
| steps_Local {A B} (f : T → B * T) (k : B → prog T A) :
    (∀ t, S t (f t).2) → (∀ b, steps S (k b)) → steps S (Local f k).

Lemma steps_andThen S {A B} (p : prog T A) (f : result A → prog T B) :
  steps S p → (∀ r, steps S (f r)) → steps S (andThen p f).
Proof.
  intros Hp Hf. induction Hp as [A r|A C g k Hg _ IH|A C q c k Hq _ _ IH|A C g k Hg _ IH]; simpl.
  - apply Hf.
  - apply steps_Stmt; [done|]. intros r. by apply IH.
  - apply steps_Tx; [done|]. intros r. by apply IH.
  - apply steps_Local; [done|]. intros b. by apply IH.
Qed.

Lemma steps_bind S {A B} (p : prog T A) (f : A → prog T B) :
  steps S p → (∀ a, steps S (f a)) → steps S (p ≫= f).
Proof. intros Hp Hf. apply steps_andThen; [done|]. intros [a|e]; [done|constructor]. Qed.

Lemma steps_mret S {A} (a : A) : steps S (mret a).
Proof. constructor. Qed.

Lemma steps_fail S {A} e : steps S (fail e : prog T A).
Proof. constructor. Qed.

Lemma steps_stmt S {A} (f : T → result (A * T)) :
  (∀ t a t', f t = Ok (a, t') → S t t') → steps S (stmt f).
Proof. intros Hf. constructor; [done|]. intros r. constructor. Qed.

Lemma steps_exec_sql S (f : T → T) : (∀ t, S t (f t)) → steps S (exec_sql f).
Proof. intros Hf. apply steps_stmt. intros t a t' [= _ <-]. apply Hf. Qed.

Lemma steps_tx S {A} (p : prog T A) : steps S p → steps S (tx p).
Proof. intros Hp. constructor; [done|]. intros r. constructor. Qed.

Lemma steps_local S {A} (f : T → A * T) : (∀ t, S t (f t).2) → steps S (local f).
Proof. intros Hf. constructor; [done|]. intros b. constructor. Qed.

Lemma steps_for_each S {A} (l : list A) (f : A → prog T ()) :
  (∀ x, steps S (f x)) → steps S (for_each l f).
Proof. intros Hf. induction l as [|x l IH]; simpl; [constructor|]. by apply steps_bind. Qed.

Lemma steps_weaken (S S' : T → T → Prop) {A} (p : prog T A) :
  (∀ t t', S t t' → S' t t') → steps S p → steps S' p.
Proof.
  intros HS Hp. induction Hp as [A r|A C g k Hg _ IH|A C q c k _ IHq _ IH|A C g k Hg _ IH].
  - constructor.
  - apply steps_Stmt; [|done]. intros t b t' Ht. eapply HS, Hg, Ht.
  - by apply steps_Tx.
  - apply steps_Local; [|done]. intros t. apply HS, Hg.
Qed.

Context (S : T → T → Prop) `{!PreOrder S}.

Lemma steps_query {A} (f : T → A) : steps S (query f).
Proof. apply steps_stmt. by intros t a t' [= _ <-]. Qed.

Lemma exec_steps {A} (p : prog T A) io t : steps S p → S t (exec p io t).1.2.
Proof.
  intros Hp. revert io t.
  induction Hp as [A r|A B f k Hf _ IH|A B p c k _ IHp _ IH|A B f k Hf _ IH]; intros io t; simpl.
  - done.
  - destruct (fault io); [apply IH|]. destruct (f t) as [[b t']|e] eqn:Ht; [|apply IH].
    transitivity t'; [by eapply Hf|apply IH].
  - destruct (fault io); [apply IH|]. specialize (IHp (tail io) t).
    destruct (exec p (tail io) t) as [[[b|e] t'] io']; [|apply IH]. simpl in IHp.
    destruct (negb (c b)); [apply IH|]. destruct (fault io'); [apply IH|].
    transitivity t'; [done|apply IH].
  - specialize (Hf t). destruct (f t) as [b t']. transitivity t'; [done|apply IH].
Qed.

Lemma steps_always {A} (p : prog T A) t : steps S p → always p (λ _ t', S t t') t.
Proof.
  intros Hp io. pose proof (exec_steps p io t Hp) as Hs. by destruct (exec p io t) as [[r t'] io'].
Qed.

Lemma steps_respects {A} (p : prog T A) : steps S p → respects S p.
Proof.
  intros Hp. induction Hp as [A r|A B f k Hf _ IH|A B p c k Hp _ _ IH|A B f k Hf _ IH]; intros t.
  - done.
  - intros s _. split; [|intros e; apply IH]. destruct (f s) as [[b s']|e] eqn:Hs; [|apply IH].
    split; [by eapply Hf|apply IH].
  - intros s io _. assert (steps S (Tx p c Ret)) as Htx by (constructor; [done|constructor]).
    pose proof (exec_steps (Tx p c Ret) io s Htx) as Hs.
    destruct (exec (Tx p c Ret) io s) as [[r s'] io']. split; [done|apply IH].
  - intros s _. split; [apply Hf|apply IH].
Qed.
End steps.

(** ** What a program can answer *)

Section returns.
Context {T : Type}.

Fixpoint returns {A} (P : result A → Prop) (p : prog T A) : Prop :=
  match p in prog _ A return (result A → Prop) → Prop with
  | Ret r => λ P, P r
  | Stmt _ k => λ P, ∀ r, returns P (k r)
  | Tx _ _ k => λ P, ∀ r, returns P (k r)
  | Local _ k => λ P, ∀ b, returns P (k b)
  end P.

Lemma returns_andThen {A B} (P : result B → Prop) (Q : result A → Prop) (p : prog T A)
    (f : result A → prog T B) :
  returns Q p → (∀ r, Q r → returns P (f r)) → returns P (andThen p f).
Proof.
  revert Q f. induction p as [A r|A C g k IH|A C q IHq c k IH|A C g k IH]; intros Q f Hp Hf;
    [by apply Hf|..]; intros b; by apply (IH b Q).
Qed.

Lemma returns_any {A} (p : prog T A) : returns (λ _, True) p.
Proof. induction p; done. Qed.

Lemma returns_then {A B} (P : result B → Prop) (p : prog T A) (f : result A → prog T B) :
  (∀ r, returns P (f r)) → returns P (andThen p f).
Proof. intros Hf. eapply returns_andThen; [apply returns_any|]. intros r _. apply Hf. Qed.

Lemma returns_weaken {A} (P Q : result A → Prop) (p : prog T A) :
  (∀ r, P r → Q r) → returns P p → returns Q p.
Proof.
  revert P Q. induction p as [A r|A C g k IH|A C q IHq c k IH|A C g k IH]; intros P Q HPQ Hp;
    [by apply HPQ|..]; intros b; by apply (IH b P).
Qed.

(** What holds of every error too. *)
Lemma returns_bind {A B} (P : result B → Prop) (p : prog T A) (f : A → prog T B) :
  (∀ e, P (Err e)) → (∀ a, returns P (f a)) → returns P (p ≫= f).
Proof. intros He Hf. apply returns_then. intros [a|e]; [apply Hf|apply He]. Qed.

Lemma exec_returns {A} (P : result A → Prop) (p : prog T A) io t :
  returns P p → P (exec p io t).1.1.
Proof.
  revert io t. induction p as [A r|A C g k IH|A C q IHq c k IH|A C g k IH];
    intros io t; simpl; intros Hp; [done|..].
  - destruct (fault io); [by apply IH|]. destruct (g t) as [[b t']|e]; by apply IH.
  - destruct (fault io); [by apply IH|]. destruct (exec q (tail io) t) as [[[b|e] t'] io']; [|by apply IH].
    destruct (negb (c b)); [by apply IH|]. destruct (fault io'); by apply IH.
  - destruct (g t) as [b t']. by apply IH.
Qed.

Lemma returns_guar (R : T → T → Prop) `{!PreOrder R} {A} (P : result A → Prop) (p : prog T A) t :
  steps R p → returns P p → guar R p (λ r _, P r) t.
Proof.
  intros Hs. revert t. induction Hs as [A r|A B f k Hf _ IH|A B p c k Hp _ _ IH|A B f k Hf _ IH];
    intros t Hr; simpl in Hr.
  - by intros s _.
  - intros s _. split; [|intros e; by apply IH]. destruct (f s) as [[b s']|e] eqn:He; [|by apply IH].
    split; [by eapply Hf|by apply IH].
  - intros s io _. assert (steps R (Tx p c Ret)) as Htx by (constructor; [done|constructor]).
    pose proof (exec_steps R (Tx p c Ret) io s Htx) as Hx.
    destruct (exec (Tx p c Ret) io s) as [[r s'] io']. split; [done|by apply IH].
  - intros s _. split; [apply Hf|by apply IH].
Qed.
End returns.

Section lifted.
Context {S T : Type} (get_part : T → S) (set_part : S → T → T) (R : T → T → Prop).

Lemma steps_lift (R' : S → S → Prop) {A} (p : prog S A) :
  (∀ t s, R' (get_part t) s → R t (set_part s t)) → steps R' p →
  steps R (lift get_part set_part p).
Proof.
  intros HR Hp. induction Hp as [A r|A B f k Hf _ IH|A B p c k _ IHp _ IH|A B f k Hf _ IH]; simpl.
  - constructor.
  - constructor; [|done]. intros t b t'. destruct (f (get_part t)) as [[b' s]|] eqn:Hs; [|done].
    intros [= <- <-]. eauto.
  - by constructor.
  - constructor; [|done]. intros t. specialize (Hf (get_part t)).
    destruct (f (get_part t)) as [b s]. simpl in *. auto.
Qed.

(** A part that the relation does not look at. *)
Lemma steps_lift_any {A} (p : prog S A) :
  (∀ t s, R t (set_part s t)) → steps R (lift get_part set_part p).
Proof.
  intros HR. induction p as [A r|A B f k IH|A B q IHq c k IH|A B f k IH]; simpl.
  - constructor.
  - constructor; [|done]. intros t b t'. destruct (f (get_part t)) as [[b' s]|]; [|done].
    by intros [= <- <-].
  - by constructor.
  - constructor; [|done]. intros t. destruct (f (get_part t)) as [b s]. apply HR.
Qed.
End lifted.

(** ** Races *)

Section contest.
Context {T : Type} (R : T → T → Prop) `{!PreOrder R} (tok : T → Prop).
Implicit Types (t s : T).

Fixpoint contest {A} (p : prog T A) : (result A → Prop) → T → Prop :=
  match p in prog _ A return (result A → Prop) → T → Prop with
  | Ret r => λ wins t, ¬ wins r
  | Stmt f k => λ wins t, ∀ s, R t s →
      match f s with
      | Ok (b, s') => R s s' ∧
          (contest (k (Ok b)) wins s' ∨
           ¬ tok s ∧ tok s' ∧ guar R (k (Ok b)) (λ _ _, True) s')
      | Err e => contest (k (Err e)) wins s
      end ∧ ∀ e, contest (k (Err e)) wins s
  | Tx q commit k => λ wins t, ∀ s io, R t s →
      let '(r, s', _) := exec (Tx q commit Ret) io s in R s s' ∧ contest (k r) wins s'
  | Local f k => λ wins t, ∀ s, R t s → R s (f s).2 ∧ contest (k (f s).1) wins (f s).2
  end.

Lemma contest_later {A} (p : prog T A) wins t s : R t s → contest p wins t → contest p wins s.
Proof.
  destruct p as [A r|A C g k|A C q c k|A C g k]; simpl; intros Hts Hp.
  - done.
  - intros u Hu. apply Hp. by transitivity s.
  - intros u io Hu. apply Hp. by transitivity s.
  - intros u Hu. apply Hp. by transitivity s.
Qed.

(** A program without a claim. *)
Lemma guar_contest {A} (p : prog T A) wins t :
  guar R p (λ r _, ¬ wins r) t → contest p wins t.
Proof.
  revert t. induction p as [A r|A C g k IH|A C q IHq c k IH|A C g k IH]; intros t; simpl; intros Hp.
  - by apply (Hp t).
  - intros s Hs. destruct (Hp s Hs) as [Hok Herr]. split; [|intros e; apply IH, Herr].
    destruct (g s) as [[b s']|e]; [|by apply IH]. destruct Hok as [HR Hk]. split; [done|].
    left. by apply IH.
  - intros s io Hs. specialize (Hp s io Hs).
    destruct (match fault io with Some e => _ | None => _ end) as [[r s'] io'].
    destruct Hp as [HR Hk]. split; [done|]. by apply IH.
  - intros s Hs. destruct (Hp s Hs) as [HR Hk]. split; [done|]. by apply IH.
Qed.

Lemma contest_andThen {A B} (p : prog T A) (f : result A → prog T B) wins Q t :
  guar R p Q t → (∀ r s, R t s → Q r s → contest (f r) wins s) → contest (andThen p f) wins t.
Proof.
  revert f t. induction p as [A r|A C g k IH|A C q IHq c k IH|A C g k IH]; intros f t; simpl;
    intros Hp Hf.
  - apply Hf; [reflexivity|]. apply Hp. reflexivity.
  - intros s Hs. destruct (Hp s Hs) as [Hok Herr]. split.
    + destruct (g s) as [[b s']|e].
      * destruct Hok as [HR Hk]. split; [done|]. left. apply (IH _ Q); [done|].
        intros r u Hu. apply Hf. by do 2 (etransitivity; [eassumption|]).
      * apply (IH _ Q); [done|]. intros r u Hu. apply Hf. by transitivity s.
    + intros e. apply (IH _ Q); [done|]. intros r u Hu. apply Hf. by transitivity s.
  - intros s io Hs. specialize (Hp s io Hs).
    destruct (match fault io with Some e => _ | None => _ end) as [[r s'] io'].
    destruct Hp as [HR Hk]. split; [done|]. apply (IH _ Q); [done|].
    intros r' u Hu. apply Hf. by do 2 (etransitivity; [eassumption|]).
  - intros s Hs. destruct (Hp s Hs) as [HR Hk]. split; [done|]. apply (IH _ Q); [done|].
    intros r u Hu. apply Hf. by do 2 (etransitivity; [eassumption|]).
Qed.

(** A program that moves along [R] and then enters the contest. *)
Lemma contest_after {A B} (p : prog T A) (f : result A → prog T B) wins t :
  respects R p → (∀ r s, R t s → contest (f r) wins s) → contest (andThen p f) wins t.
Proof. intros Hp Hf. eapply contest_andThen; [apply Hp|]. intros r s Hs _. by apply Hf. Qed.

Lemma contest_respects {A} (p : prog T A) wins t :
  contest p wins t → guar R p (λ _ _, True) t.
Proof.
  revert t. induction p as [A r|A C g k IH|A C q IHq c k IH|A C g k IH]; intros t; simpl; intros Hp.
  - done.
  - intros s Hs. destruct (Hp s Hs) as [Hok Herr]. split; [|intros e; eapply IH, Herr].
    destruct (g s) as [[b s']|e]; [|by eapply IH]. destruct Hok as [HR [Hk|(_ & _ & Hk)]];
      (split; [done|]); [by eapply IH|done].
  - intros s io Hs. specialize (Hp s io Hs).
    destruct (match fault io with Some e => _ | None => _ end) as [[r s'] io'].
    destruct Hp as [HR Hk]. split; [done|]. by eapply IH.
  - intros s Hs. destruct (Hp s Hs) as [HR Hk]. split; [done|]. by eapply IH.
Qed.

(** After a turn the program is still in the contest, or it took the token. *)
Lemma turn_contest {A} (p : prog T A) wins io t :
  contest p wins t →
  contest (turn p io t).1 wins (turn p io t).2 ∨ ¬ tok t ∧ tok (turn p io t).2.
Proof.
  destruct p as [A r|A C g k|A C q c k|A C g k]; cbn [turn]; intros Hp.
  - by left.
  - destruct (Hp t) as [Hok Herr]; [reflexivity|].
    destruct (fault io); [left; apply Herr|].
    destruct (g t) as [[b t']|e]; [|by left]. destruct Hok as [_ [Hk|(Hn & Ht & _)]]; [by left|by right].
  - specialize (Hp t io ltac:(reflexivity)). destruct (exec (Tx q c Ret) io t) as [[r t'] io'].
    left. by apply Hp.
  - destruct (Hp t) as [_ Hk]; [reflexivity|]. left. by destruct (g t) as [b t'].
Qed.

Hypothesis tok_stays : ∀ t s, R t s → tok t → tok s.

(** The contestants are all in the contest, or the token is taken and all but one are. *)
Definition fair {A} (ins : list nat) (wins : result A → Prop) (ps : pool (T := T) A) (t : T) : Prop :=
  (∀ n, guar R (ps n) (λ _ _, True) t) ∧
  ((∀ n, n ∈ ins → contest (ps n) wins t) ∨
   tok t ∧ ∃ n0, ∀ n, n ∈ ins → n ≠ n0 → contest (ps n) wins t).

Lemma pool_turn_fair {A} ins (wins : result A → Prop) ps t sched :
  fair ins wins ps t → fair ins wins (pool_turn (ps, t) sched).1 (pool_turn (ps, t) sched).2.
Proof.
  intros [Hg Hc]. unfold pool_turn. destruct sched as [n io].
  pose proof (turn_guar R (ps n) _ io t (Hg n)) as [HR Hg'].
  pose proof (turn_contest (ps n) wins io t) as Hturn.
  destruct (turn (ps n) io t) as [p' t']. cbn [fst snd] in *. split.
  { intros i. destruct (decide (i = n)) as [->|Hne]; [done|]. by eapply guar_later. }
  destruct Hc as [Hc|(Htok & n0 & Hc)].
  - assert (∀ i, i ∈ ins → i ≠ n → contest (ps i) wins t') as Hothers.
    { intros i Hi _. eapply contest_later; [exact HR|]. by apply Hc. }
    destruct (decide (n ∈ ins)) as [Hin|Hnin].
    + destruct (Hturn (Hc n Hin)) as [Hk|[_ Ht]].
      * left. intros i Hi. destruct (decide (i = n)) as [->|Hne]; [done|]. by apply Hothers.
      * right. split; [done|]. exists n. intros i Hi Hne. rewrite decide_False by done.
        by apply Hothers.
    + left. intros i Hi. destruct (decide (i = n)) as [->|Hne]; [done|]. by apply Hothers.
  - right. split; [by eapply tok_stays|]. exists n0. intros i Hi Hne.
    destruct (decide (i = n)) as [->|Hin]; [|eapply contest_later; [exact HR|by apply Hc]].
    destruct (Hturn (Hc n Hi Hne)) as [Hk|[Hn _]]; [done|done].
Qed.

(** Whatever the schedule, at most one of the contestants reaches a winning answer. *)
Lemma at_most_one_winner {A} (ins : list nat) (wins : result A → Prop) sched
    (ps : pool (T := T) A) t i j ri rj :
  (∀ n, respects R (ps n)) → (∀ n, n ∈ ins → contest (ps n) wins t) →
  i ∈ ins → j ∈ ins → i ≠ j →
  (run_pool sched ps t).1 i = Ret ri → (run_pool sched ps t).1 j = Ret rj →
  wins ri → ¬ wins rj.
Proof.
  intros Hg Hc Hi Hj Hij Hri Hrj Hwi.
  assert (fair ins wins (run_pool sched ps t).1 (run_pool sched ps t).2) as [_ Hfair].
  { unfold run_pool.
    assert (fair ins wins ps t) as Hf by (split; [intros n; apply Hg|by left]).
    clear -Hf tok_stays PreOrder0. revert ps t Hf.
    induction sched as [|s sched IH]; intros ps t Hf; [done|]. cbn [fold_left].
    pose proof (pool_turn_fair ins wins ps t s Hf) as Hf'.
    destruct (pool_turn (ps, t) s) as [ps' t']. by apply IH. }
  destruct Hfair as [Hall|(_ & n0 & Hall)].
  - specialize (Hall i Hi). rewrite Hri in Hall. done.
  - destruct (decide (i = n0)) as [->|Hne].
    + specialize (Hall j Hj ltac:(congruence)). by rewrite Hrj in Hall.
    + specialize (Hall i Hi Hne). by rewrite Hri in Hall.
Qed.
End contest.

#[export] Hint Resolve steps_andThen steps_bind steps_mret steps_fail steps_tx : probak.
