(* ===== verification/Login.v ===== *)
(** * Login: [internal/web/handlers/auth.go] and [internal/web/middleware.go]

    A request of the web console is a program on the state of the server: the accounts,
    the log of login attempts, the bans, the challenges of the second factor and the
    limiters.  The session of the request and the answers of the clock, the random
    source and [sess.Save] are in the request.  bcrypt is the parameter [Bcrypt]. *)
From Stdlib Require Import Ascii.
From S2P Require Import Prelude GoStrings GoUtf8 GoJson GoNum GoTime GoNetip GoUrl Domain Sql Interleave Banhammer Limiter Challenges Secrets Schema Servers Removal Retention Users Totp Session.

(** [golang.org/x/crypto/bcrypt]: a hash made of a password matches it; the salt is
    random. *)
Class Bcrypt := {
  CompareHashAndPassword : string → string → bool;
  GenerateFromPassword : string → string → result string;
  generated_matches salt password hash :
    GenerateFromPassword salt password = Ok hash →
    CompareHashAndPassword hash password = true }.

(** ** Notices of failed logins: [security_notifications.go] *)

Definition failedLoginNoticeInterval : Duration := 10 * Minute.
Definition failedLoginNoticeWindow : Duration := Hour.
Definition failedLoginNoticeLimit : Z := 10.
Definition failedLoginNoticeMaxIPs : Z := 4096.

Record loginNoticeThrottle := {
  lastByIP : gmap string Time; sent : list Time; suppressed : Z }.

(** The method [allow]: whether a notice may be sent now, and how many were skipped. *)
Definition allow_notice (ip : string) (now : Time) (t : loginNoticeThrottle) :
    (bool * Z) * loginNoticeThrottle :=
  let last_ := if failedLoginNoticeMaxIPs <=? Z.of_nat (size (lastByIP t))
    then omap (λ last, if failedLoginNoticeInterval <=? Sub now last then None else Some last)
           (lastByIP t)
    else lastByIP t in
  let recent := List.filter (λ at_, Sub now at_ <? failedLoginNoticeWindow) (sent t) in
  let skip := ((false, 0), {| lastByIP := last_; sent := recent;
                              suppressed := wrap64 (suppressed t + 1) |}) in
  if match last_ !! ip with Some last => Sub now last <? failedLoginNoticeInterval | None => false end
  then skip
  else if (failedLoginNoticeLimit <=? Z.of_nat (length recent)) ||
          (failedLoginNoticeMaxIPs <=? Z.of_nat (size last_)) then skip
  else ((true, suppressed t), {| lastByIP := <[ip := now]> last_; sent := recent ++ [now];
                                 suppressed := 0 |}).

Definition securityField (value : string) : string :=
  let value := String.concat " " (Fields value) in
  if str_empty value then "(vacío)"
  else if 160 <? RuneCount value then take_runes 160 value +:+ "…" else value.

(** ** Return paths *)

(** [SafeLocalPath] of [form_redirect.go]; a text that passes the first test begins with
    one slash, so [url.Parse] finds no scheme, host or user in it. *)
Definition SafeLocalPath (raw : string) : string :=
  let raw := TrimSpace raw in
  if negb (HasPrefix raw "/") || HasPrefix raw "//" || has_byte "\" raw then ""
  else if has_control raw then ""
  else match parse_rooted raw with None => "" | Some _ => raw end.

Definition safeNext (next : string) : string :=
  let next := SafeLocalPath next in
  if str_empty next then "/" else
  match parse_rooted next with
  | None => "/"
  | Some path => if bool_decide (path ∈ ["/login"; "/login/2fa"; "/logout"]) then "/" else next
  end.

(** ** State and requests *)

(** [domain.AuditLog], with the metadata before its encoding as a JSON object. *)
Inductive meta : Type := MString (s : string) | MBool (b : bool).

Record AuditRow := {
  au_ID : Z; au_ActorUsername : string; au_ActorRole : string; au_ActorIP : string;
  au_Action : string; au_TargetType : string; au_TargetID : string; au_TargetName : string;
  au_Metadata : list (string * meta); au_CreatedAt : Time }.

Record Console := {
  accounts : Accounts; attempt_log : LoginLog; ban_state : Bans; challenges : Items;
  code_attempts : Buckets; password_failures : Buckets; notices : loginNoticeThrottle;
  outbox : list (string * string); audit_rows : list AuditRow;
  email_cfg : result EmailConfig }.

Definition set_accounts (t : Accounts) (w : Console) : Console :=
  {| accounts := t; attempt_log := attempt_log w; ban_state := ban_state w;
     challenges := challenges w; code_attempts := code_attempts w;
     password_failures := password_failures w; notices := notices w; outbox := outbox w;
     audit_rows := audit_rows w; email_cfg := email_cfg w |}.

Definition set_login_state (l : LoginLog) (b : Bans) (c : Items) (w : Console) : Console :=
  {| accounts := accounts w; attempt_log := l; ban_state := b; challenges := c;
     code_attempts := code_attempts w; password_failures := password_failures w;
     notices := notices w; outbox := outbox w; audit_rows := audit_rows w;
     email_cfg := email_cfg w |}.

Definition set_limits (codes failures : Buckets) (w : Console) : Console :=
  {| accounts := accounts w; attempt_log := attempt_log w; ban_state := ban_state w;
     challenges := challenges w; code_attempts := codes; password_failures := failures;
     notices := notices w; outbox := outbox w; audit_rows := audit_rows w;
     email_cfg := email_cfg w |}.

Definition set_notices (n : loginNoticeThrottle) (out : list (string * string))
    (audit : list AuditRow) (w : Console) : Console :=
  {| accounts := accounts w; attempt_log := attempt_log w; ban_state := ban_state w;
     challenges := challenges w; code_attempts := code_attempts w;
     password_failures := password_failures w; notices := n; outbox := out;
     audit_rows := audit; email_cfg := email_cfg w |}.

Definition on_accounts {A} (p : prog Accounts A) : prog Console A := lift accounts set_accounts p.
Definition on_log {A} (p : prog LoginLog A) : prog Console A :=
  lift attempt_log (λ l w, set_login_state l (ban_state w) (challenges w) w) p.
Definition on_bans {A} (p : prog Bans A) : prog Console A :=
  lift ban_state (λ b w, set_login_state (attempt_log w) b (challenges w) w) p.
Definition on_challenges {A} (f : Items → A * Items) : prog Console A :=
  local (λ w, let '(a, c) := f (challenges w) in
              (a, set_login_state (attempt_log w) (ban_state w) c w)).

Definition GetEmailConfig : prog Console EmailConfig :=
  stmt (λ w, cfg ← email_cfg w; Ok (cfg, w)).

(** [rq_details] is what [loginClientDetailsFromRequest] makes of the request,
    [rq_refused] the address of [sensitiveActionFailureURL]. *)
Record WebRequest := {
  rq_sess : Sess; rq_ip : string; rq_agent : string; rq_details : string;
  rq_form : gmap string string; rq_id : string; rq_get : bool; rq_uri : string; rq_json : bool;
  rq_refused : string; rq_now : Time; rq_raw : result (list Z); rq_saved : result () }.

Definition FormValue (rq : WebRequest) (key : string) : string := default "" (rq_form rq !! key).

(** The request as the handlers behind a middleware see it. *)
Definition with_session (s : Sess) (rq : WebRequest) : WebRequest :=
  {| rq_sess := s; rq_ip := rq_ip rq; rq_agent := rq_agent rq; rq_details := rq_details rq;
     rq_form := rq_form rq; rq_id := rq_id rq; rq_get := rq_get rq; rq_uri := rq_uri rq; rq_json := rq_json rq;
     rq_refused := rq_refused rq; rq_now := rq_now rq; rq_raw := rq_raw rq;
     rq_saved := rq_saved rq |}.

Inductive Answer : Type :=
| Redirect (target : string)
| HttpError (code : Z) (text : string)
| Page (name : string) (params : list (string * string)).

Record Reply := { answer : Answer; cookie : option Cookie }.

Definition plain_reply (a : Answer) : prog Console Reply := mret {| answer := a; cookie := None |}.

(** [if err != nil] around a statement whose error the handler answers. *)
Definition on_error {A B} (p : prog Console A) (k : A → prog Console B)
    (h : error → prog Console B) : prog Console B :=
  andThen p (λ r, match r with Ok a => k a | Err e => h e end).

(** [_ = f()]. *)
Definition ignored {A} (p : prog Console A) : prog Console () := andThen p (λ _, mret ()).

Section login.
Context `{!Crypto, !Hmac, !Bcrypt}.

(** [secrets]: the box of the store; [ban]: the ban hammer, if there is one;
    [telegram]: whether administrators are notified. *)
Context (secrets : option Box) (ban : option Config) (telegram : bool).

(** ** Helpers *)

Definition notifyAdminSecurity (message linkURL : string) : prog Console () :=
  if negb telegram then mret () else
  modify (λ w, set_notices (notices w) (outbox w ++ [(message, linkURL)]) (audit_rows w) w).

Definition notifyAdminLoginSuccess (username ip : string) : prog Console () :=
  notifyAdminSecurity ("🔐 Probakgo: inicio de sesión" +:+ String "010" (String "010" "Usuario: ")
    +:+ securityField username +:+ String "010" "IP: " +:+ securityField ip) "/settings/ip-bans".

Definition notifyAdminLoginFailed (now : Time) (username ip reason : string) (banned : bool) :
    prog Console () :=
  if negb telegram then mret () else
  let key := if banned then ip +:+ "|ban" else ip in
  ok ← local (λ w, let '(ok, t) := allow_notice key now (notices w) in
                   (ok, set_notices t (outbox w) (audit_rows w) w));
  if negb ok.1 then mret () else
  let message := "⚠️ Probakgo: intento de acceso fallido" +:+ String "010" (String "010" "Usuario: ")
    +:+ securityField username +:+ String "010" "IP: " +:+ securityField ip
    +:+ String "010" "Motivo: " +:+ securityField reason in
  notifyAdminSecurity (if 0 <? ok.2
    then message +:+ String "010" (String "010" "Avisos omitidos desde el anterior: ") +:+ Itoa ok.2
    else message) "/settings/ip-bans".

Definition recordLoginAttempt (rq : WebRequest) (username res reason : string) : prog Console () :=
  ignored (on_log (InsertLoginAttempt (rq_now rq) username (rq_ip rq) (rq_agent rq)
    (rq_details rq) res reason)).

Definition is_banned (rq : WebRequest) : prog Console bool :=
  match ban with
  | None => mret false
  | Some b => r ← on_bans (IsBanned b (rq_ip rq) (rq_now rq)); mret r.1
  end.

Definition loginFailed (rq : WebRequest) (username reason notice : string) : prog Console () :=
  _ ← recordLoginAttempt rq username "failed" reason;
  banned ← match ban return prog Console bool with
           | None => mret false
           | Some b => on_bans (RecordFailure b (rq_ip rq) (rq_now rq))
           end;
  notifyAdminLoginFailed (rq_now rq) username (rq_ip rq)
    (if (banned : bool) then notice +:+ "; IP bloqueada" else notice) banned.

Definition clear_failures_of (rq : WebRequest) : prog Console () :=
  match ban with None => mret () | Some _ => on_bans (ClearFailures (rq_ip rq)) end.

(** [loginNext]. *)
Definition loginNext (rq : WebRequest) : string :=
  let next := safeNext (FormValue rq "next") in if str_eqb next "/" then "" else next.

(** [session.Clear]; a cookie that cannot be saved is left alone. *)
Definition Clear (rq : WebRequest) : prog Console (option Cookie) :=
  _ ← on_challenges (λ items, ((), discardChallenge (pending (rq_sess rq)) items));
  mret (match rq_saved rq with Ok _ => Some Remove | Err _ => None end).

(** [session.ClearPending2FA], whose error the handlers ignore. *)
Definition ClearPending2FA (rq : WebRequest) : prog Console (option Cookie) :=
  if ss_err (rq_sess rq) then mret None else
  _ ← on_challenges (λ items, ((), discardChallenge (pending (rq_sess rq)) items));
  mret (match (without_token (rq_saved rq) (rq_sess rq)).2 with Ok c => Some c | Err _ => None end).

(** [session.SetPending2FA], a locked section at a time; [None]: an error. *)
Definition SetPending2FA (rq : WebRequest) (userID : Z) (next : string) (version : Z) :
    prog Console (option Cookie) :=
  match rq_raw rq with
  | Err _ => mret None
  | Ok raw =>
      let token := Challenges.EncodeToString raw in
      fits ← on_challenges (insert_section token (rq_now rq) userID next version);
      if negb fits then mret None else
      _ ← on_challenges (λ items, ((), discardChallenge (pending (rq_sess rq)) items));
      match save (rq_saved rq) (with_token token (rq_sess rq)) with
      | Ok c => mret (Some c)
      | Err _ => _ ← on_challenges (λ items, ((), delete_section token items)); mret None
      end
  end.

(** ** Enforcement of the second factor *)

(** What [handleTOTPEnforcement] returns: nothing to enforce, a response already
    written, or the page to go to. *)
Inductive Enforcement : Type :=
| NotEnforced
| Written (a : Answer)
| GoTo (target : string).

Definition internal_error : Answer := HttpError 500 "error interno del servidor".
Definition no_security_config : Answer := HttpError 503 "Security configuration unavailable".

Definition handleTOTPEnforcement (rq : WebRequest) (user : User) : prog Console Enforcement :=
  if str_eqb (us_Role user) "reader" || us_TOTPEnabled user then mret NotEnforced else
  on_error GetEmailConfig (λ cfg,
    if negb (ec_EnforceTOTPNonReaders cfg) then mret NotEnforced else
    let grace_from startedAt :=
      if negb (72 * Hour <=? Sub (rq_now rq) startedAt)
      then mret (GoTo "/profile?flash=Activa+2FA+en+tu+usuario.+Tienes+3+d%C3%ADas+desde+el+primer+aviso.&ok=1")
      else on_error (on_accounts (IsLastActiveAdmin (us_ID user))) (λ lastAdmin : bool,
        if lastAdmin
        then mret (GoTo "/profile?flash=Plazo+de+2FA+vencido.+Eres+el+%C3%BAnico+administrador+activo%3A+activa+2FA+ahora.")
        else
          _ ← ignored (on_accounts (SetUserActive (us_ID user) false));
          _ ← recordLoginAttempt rq (us_Username user) "blocked" "totp_grace_expired";
          _ ← notifyAdminLoginFailed (rq_now rq) (us_Username user) (rq_ip rq)
                "Usuario desactivado por no configurar 2FA" false;
          mret (Written (Page "login.html"
            [("Error", "Usuario desactivado: 2FA no se activó dentro del plazo de 3 días.")])))
        (λ _, mret (Written internal_error)) in
    match us_TOTPGraceStartedAt user with
    | Some startedAt => grace_from startedAt
    | None => on_error (on_accounts (StartUserTOTPGrace (rq_now rq) (us_ID user)))
        (λ _, grace_from (rq_now rq)) (λ _, mret (Written internal_error))
    end)
    (λ _, mret (Written no_security_config)).

(** ** [auth.go] *)

Definition session_error : Answer := HttpError 500 "Session error".

Definition wrong_credentials (rq : WebRequest) (username : string) : prog Console Reply :=
  _ ← loginFailed rq username "invalid_credentials" "Credenciales no válidas";
  plain_reply (Page "login.html"
    [("Error", "Usuario o contraseña incorrectos"); ("Next", loginNext rq)]).

(** The session of [user] is issued, and the reader sent to [next]. *)
Definition sign_in (rq : WebRequest) (user : User) (next : string) : prog Console Reply :=
  match (SetUserWithVersion (rq_raw rq) (rq_saved rq) (rq_sess rq) (us_ID user)
           (us_Username user) (us_Role user) (us_SessionVersion user)).2 with
  | Err _ => plain_reply session_error
  | Ok c =>
      _ ← recordLoginAttempt rq (us_Username user) "success" "";
      _ ← ignored (on_accounts (UpdateUserLastLogin (rq_now rq) (us_ID user) (rq_ip rq)));
      _ ← notifyAdminLoginSuccess (us_Username user) (rq_ip rq);
      mret {| answer := Redirect next; cookie := Some c |}
  end.

(** The password was right. *)
Definition first_factor_passed (rq : WebRequest) (user : User) (next : string) :
    prog Console Reply :=
  _ ← (if us_TOTPEnabled user then mret () else clear_failures_of rq : prog Console ());
  if us_TOTPEnabled user then
    c ← SetPending2FA rq (us_ID user) next (us_SessionVersion user);
    match c with
    | None => plain_reply session_error
    | Some c =>
        _ ← recordLoginAttempt rq (us_Username user) "pending" "totp_required";
        mret {| answer := Redirect "/login/2fa"; cookie := Some c |}
    end
  else sign_in rq user next.

Definition LoginPost (rq : WebRequest) : prog Console Reply :=
  let username := FormValue rq "username" in
  banned ← is_banned rq;
  if (banned : bool) then
    _ ← recordLoginAttempt rq username "blocked" "ip_banned"; plain_reply (Redirect "/login")
  else
  on_error (on_accounts (GetUserByUsername secrets username)) (λ user,
    if negb (us_IsActive user) ||
       negb (CompareHashAndPassword (us_PasswordHash user) (FormValue rq "password"))
    then wrong_credentials rq username
    else
      e ← handleTOTPEnforcement rq user;
      match e with
      | NotEnforced => first_factor_passed rq user (safeNext (FormValue rq "next"))
      | Written a => plain_reply a
      | GoTo target => first_factor_passed rq user target
      end)
    (λ _, wrong_credentials rq username).

(** Whether the pending login still stands for the account. *)
Definition still_pending (user : User) (version : Z) : bool :=
  us_IsActive user && us_TOTPEnabled user && (us_SessionVersion user =? version).

(** The pending login of the cookie, if it stands, is handed on with its account. *)
Definition with_pending (rq : WebRequest) (k : User → string → prog Console Reply) :
    prog Console Reply :=
  c ← on_challenges (λ items, (GetPending2FA (pending (rq_sess rq)) (rq_now rq) items, items));
  let '(userID, next, version, ok) := c in
  if negb ok then plain_reply (Redirect "/login") else
  let stale := (c ← ClearPending2FA rq; mret {| answer := Redirect "/login"; cookie := c |}) in
  on_error (on_accounts (Users.GetUser secrets userID)) (λ user,
    if negb (still_pending user version) then stale else k user next) (λ _, stale).

Definition Login2FAPage (rq : WebRequest) : prog Console Reply :=
  with_pending rq (λ user _, plain_reply (Page "login_2fa.html"
    [("Username", us_Username user); ("Error", FormValue rq "flash")])).

(** The code was right, and not used before. *)
Definition second_factor_passed (rq : WebRequest) (user : User) (next : string) :
    prog Console Reply :=
  _ ← clear_failures_of rq;
  consumed ← on_challenges (ConsumePending2FA (pending (rq_sess rq)) (us_ID user)
                              (us_SessionVersion user) (rq_now rq));
  if negb consumed then plain_reply (Redirect "/login") else sign_in rq user (safeNext next).

Definition Login2FAPost (rq : WebRequest) : prog Console Reply :=
  with_pending rq (λ user next,
    banned ← is_banned rq;
    if (banned : bool) then
      _ ← recordLoginAttempt rq (us_Username user) "blocked" "ip_banned";
      plain_reply (Redirect "/login")
    else
    allowed ← on_challenges (AllowPending2FAAttempt (pending (rq_sess rq)) (rq_now rq));
    if negb allowed then
      c ← ClearPending2FA rq;
      mret {| answer := HttpError 429 "Demasiados intentos 2FA. Inicia sesión de nuevo."; cookie := c |}
    else
    let wrong_code :=
      (_ ← loginFailed rq (us_Username user) "invalid_totp" "Código 2FA incorrecto";
       plain_reply (Page "login_2fa.html" [("Username", us_Username user);
         ("Error", "Código 2FA incorrecto o ya utilizado")])) in
    let '(step, valid) := ValidateStep (FormValue rq "code") (us_TOTPSecret user) (rq_now rq) in
    if negb valid then wrong_code else
    on_error (on_accounts (ClaimUserTOTPStep (us_ID user) step)) (λ claimed : bool,
      if claimed then second_factor_passed rq user next else wrong_code)
      (λ _, plain_reply internal_error)).

Definition Logout (rq : WebRequest) : prog Console Reply :=
  let done_ := (c ← Clear rq; mret {| answer := Redirect "/login"; cookie := c |}) in
  match ID (rq_sess rq) with
  | (sid, true) =>
      on_error (on_accounts (RevokeSession (rq_now rq) sid (AddDur (rq_now rq) Lifetime)))
        (λ _, done_) (λ _, plain_reply (HttpError 503 "Session store unavailable"))
  | (_, false) => done_
  end.
End login.

(** ** Properties *)

(** whatever a link asks for, the browser is sent after a login to a page of this
    site that is not one of the login: a path with one slash in front, without a
    backslash or control character. *)
Theorem safeNext_local (next : string) :
  HasPrefix (safeNext next) "/" = true ∧ HasPrefix (safeNext next) "//" = false ∧
  has_byte "\" (safeNext next) = false ∧ has_control (safeNext next) = false ∧
  ∃ path, parse_rooted (safeNext next) = Some path ∧
    path ∉ ["/login"; "/login/2fa"; "/logout"].
Proof.
  assert (∀ path, path ∈ ["/login"; "/login/2fa"; "/logout"] → path ≠ "/") as Hroot
    by (intros path; set_unfold; naive_solver).
  assert (HasPrefix "/" "/" = true ∧ HasPrefix "/" "//" = false ∧ has_byte "\" "/" = false ∧
    has_control "/" = false ∧ ∃ path, parse_rooted "/" = Some path ∧
      path ∉ ["/login"; "/login/2fa"; "/logout"]) as Hslash.
  { split_and!; try (vm_compute; reflexivity). exists "/". split; [vm_compute; reflexivity|].
    intros Hin. by apply (Hroot "/"). }
  unfold safeNext, SafeLocalPath. cbv zeta. set (raw := TrimSpace next).
  destruct (negb (HasPrefix raw "/") || HasPrefix raw "//" || has_byte "\" raw) eqn:Hp; [done|].
  apply orb_false_iff in Hp as [[Hp%negb_false_iff Hpp]%orb_false_iff Hb].
  destruct (has_control raw) eqn:Hc; [done|].
  destruct (parse_rooted raw) as [path|] eqn:Hu; [|done].
  destruct (str_empty raw) eqn:He; [done|]. rewrite Hu.
  destruct (bool_decide _) eqn:Hin; [done|]. apply bool_decide_eq_false in Hin.
  split_and!; try done. by exists path.
Qed.
