(* ===== verification/Middleware.v ===== *)
(** * Access to the console: [internal/web/middleware.go]

    A middleware takes the handler behind it, and the handler takes the request with the
    session as the middleware left it. *)
From Stdlib Require Import Ascii.
From S2P Require Import Prelude GoStrings GoNum GoTime GoNetip GoUrl Domain Sql Interleave Banhammer Limiter Challenges Secrets Schema Servers Removal Retention Users Totp Session Login.

Definition Handler : Type := WebRequest → prog Console Reply.

Definition sensitiveTOTPFreshDuration : Duration := 10 * Minute.

(** The limiter of [RequireTOTPForSensitiveAction]. *)
Definition code_limiter : Limiter := {| max := 5; window := 5 * Minute |}.

(** The cookie that a middleware set, when the handler sets none. *)
Definition keep_cookie (c : option Cookie) (p : prog Console Reply) : prog Console Reply :=
  r ← p;
  mret {| answer := answer r; cookie := match cookie r with Some c' => Some c' | None => c end |}.

Definition invalidated : string := "/login?flash=Tu+sesion+ha+sido+invalidada".

Section middleware.
Context `{!Crypto, !Hmac, !Bcrypt}.
Context (secrets : option Box).

Definition userNeedsTOTPEnforcement (now : Time) (user : User) : prog Console bool :=
  if str_eqb (us_Role user) "reader" || us_TOTPEnabled user then mret false else
  cfg ← GetEmailConfig;
  if negb (ec_EnforceTOTPNonReaders cfg) then mret false else
  match us_TOTPGraceStartedAt user with
  | None => _ ← on_accounts (StartUserTOTPGrace now (us_ID user)); mret false
  | Some startedAt =>
      if Sub now startedAt <? 72 * Hour then mret false else
      lastAdmin ← on_accounts (IsLastActiveAdmin (us_ID user)); mret (negb lastAdmin)
  end.

(** [session.Clear] and a redirect. *)
Definition sign_out (rq : WebRequest) (target : string) : prog Console Reply :=
  c ← Clear rq; mret {| answer := Redirect target; cookie := c |}.

Definition login_target (rq : WebRequest) : string :=
  if rq_get rq then "/login?next=" +:+ QueryEscape (rq_uri rq) else "/login".

(** The account of a session that is valid; the role of the session is brought up to
    date before the last check. *)
Definition let_in (rq : WebRequest) (next : Handler) (user : User) (sessionRole : string) :
    prog Console Reply :=
  let proceed (c : option Cookie) (rq : WebRequest) : prog Console Reply :=
    on_error (userNeedsTOTPEnforcement (rq_now rq) user) (λ needsTOTP : bool,
      if needsTOTP then
        _ ← ignored (on_accounts (SetUserActive (us_ID user) false));
        sign_out rq "/login?flash=Usuario+desactivado:+2FA+no+se+activo+dentro+del+plazo"
      else keep_cookie c (next rq))
      (λ _, mret {| answer := no_security_config; cookie := c |}) in
  if negb (str_eqb (us_Role user) sessionRole) then
    match RefreshRole (rq_saved rq) (us_Role user) (us_SessionVersion user) (rq_sess rq) with
    | (_, Err _) => plain_reply session_error
    | (s, Ok c) => proceed (Some c) (with_session s rq)
    end
  else proceed None rq.

Definition RequireLogin (next : Handler) : Handler := λ rq,
  let '(username, sessionRole, ok) := GetUser (rq_sess rq) in
  if negb ok then plain_reply (Redirect (login_target rq)) else
  let '(userID, hasID) := UserID (rq_sess rq) in
  let refused := sign_out rq "/login?flash=Tu+sesión+ha+sido+invalidada" in
  on_error (on_accounts (Users.GetUser secrets userID)) (λ user,
    if negb hasID || negb (us_IsActive user) || negb (str_eqb (us_Username user) username)
    then refused else
    let '(sessionVersion, hasVersion) := UserVersion (rq_sess rq) in
    if negb hasVersion || negb (sessionVersion =? us_SessionVersion user)
    then sign_out rq invalidated else
    let '(sid, hasSID) := ID (rq_sess rq) in
    if negb hasSID then sign_out rq invalidated else
    on_error (on_accounts (IsSessionRevoked sid)) (λ revoked : bool,
      if revoked then sign_out rq invalidated else let_in rq next user sessionRole)
      (λ _, plain_reply (HttpError 503 "Session store unavailable")))
    (λ _, refused).

(** The answer to a sensitive action without a valid code. *)
Definition code_required (rq : WebRequest) : prog Console Reply :=
  plain_reply (if rq_json rq
    then HttpError 403 "Esta operacion requiere un codigo 2FA valido"
    else Redirect (rq_refused rq)).

Definition RequireTOTPForSensitiveAction (next : Handler) : Handler := λ rq,
  let '(username, _, ok) := GetUser (rq_sess rq) in
  if negb ok then plain_reply (Redirect "/login") else
  on_error GetEmailConfig (λ cfg,
    if negb (ec_SensitiveActionsRequireTOTP cfg) then next rq else
    let gone := sign_out rq invalidated in
    on_error (on_accounts (GetUserByUsername secrets username)) (λ user,
      if negb (us_IsActive user) then gone else
      if negb (us_TOTPEnabled user) then
        plain_reply (if rq_json rq then HttpError 403 "Esta operacion requiere 2FA activo"
                     else Redirect "/profile?flash=Esta+operacion+requiere+2FA+activo")
      else
      let code := TrimSpace (FormValue rq "totp_code") in
      if str_empty code then
        if SensitiveTOTPFresh (rq_now rq) (rq_sess rq) then next rq else code_required rq
      else
      allowed ← local (λ w, let '(ok, m) := AllowKey code_limiter username (rq_now rq) (code_attempts w) in
                            (ok, set_limits m (password_failures w) w));
      if negb (allowed : bool) then plain_reply (HttpError 429 "Too many verification attempts") else
      let '(step, valid) := ValidateStep code (us_TOTPSecret user) (rq_now rq) in
      if negb valid then code_required rq else
      on_error (on_accounts (ClaimUserTOTPStep (us_ID user) step)) (λ claimed : bool,
        if negb claimed then code_required rq else
        match SetSensitiveTOTPFresh (rq_saved rq) (AddDur (rq_now rq) sensitiveTOTPFreshDuration)
                (rq_sess rq) with
        | (_, Err _) => plain_reply session_error
        | (s, Ok c) => keep_cookie (Some c) (next (with_session s rq))
        end)
        (λ _, plain_reply no_security_config))
      (λ _, gone))
    (λ _, plain_reply no_security_config).

Definition require_role (roles : list string) (next : Handler) : Handler := λ rq,
  let '(_, role, ok) := GetUser (rq_sess rq) in
  if negb ok then plain_reply (Redirect "/login")
  else if negb (bool_decide (role ∈ roles)) then plain_reply (HttpError 403 "Forbidden")
  else next rq.

Definition RequireEditor : Handler → Handler := require_role ["admin"; "editor"].
Definition RequireAdmin : Handler → Handler := require_role ["admin"].
End middleware.
