(* ===== verification/UserAdmin.v ===== *)
(** * Management of accounts: [internal/web/handlers/users.go], [profile.go] and
    [audit.go]

    The handlers behind the middlewares of [Middleware]: an administrator manages the
    accounts, a user their own password and second factor. *)
From Stdlib Require Import Ascii.
From S2P Require Import Prelude GoStrings GoUtf8 GoNum GoTime GoNetip GoUrl Domain Sql Interleave Banhammer Limiter Challenges Secrets Relational Schema Servers Removal Retention Users Totp Session Login Middleware.

Definition minPasswordLength : Z := 12.
Definition maxUsernameLength : Z := 64.
Definition auditLogPageSize : Z := 25.

Definition invalidUsernameMessage : string :=
  "El nombre de usuario admite hasta 64 caracteres, sin caracteres de control".
Definition passwordTooLongMessage : string := "La contraseña no es válida (máximo 72 bytes)".

(** The trimmed name, and whether it is valid. *)
Definition normalizeUsername (raw : string) : string * bool :=
  let name := TrimSpace raw in
  (name, negb (maxUsernameLength <? RuneCount name) && negb (has_control name)).

(** [form_redirect.go]. *)
Definition formBackOrDefault (rq : WebRequest) (fallback : string) : string :=
  let back := SafeLocalPath (FormValue rq "back") in if str_empty back then fallback else back.

Definition flash_target (target message : string) (ok : bool) : string :=
  let target := if str_empty target then "/" else target in
  let sep := if has_byte "?" target then "&" else "?" in
  let '(target, sep) := if str_empty message then (target, sep)
    else (target +:+ sep +:+ "flash=" +:+ QueryEscape message, "&") in
  if ok then target +:+ sep +:+ "ok=1" else target.

Definition redirectWithFlash (target message : string) (ok : bool) : prog Console Reply :=
  plain_reply (Redirect (flash_target target message ok)).

(** [passwordFailures] of [New]. *)
Definition password_limiter : Limiter := {| max := 5; window := 15 * Minute |}.

(** [strconv.ParseInt] of the identifier in the path, whose error is ignored. *)
Definition path_id (rq : WebRequest) : Z := (ParseInt (rq_id rq)).1.

(** ** The audit log: [internal/store/audit.go] *)

Definition InsertAuditLog (now : Time) (entry : Z → AuditRow) : prog Console () :=
  exec_sql (λ w, set_notices (notices w) (outbox w)
    (audit_rows w ++ [entry (Z.of_nat (length (audit_rows w)) + 1)]) w).

Definition newest_entry (a b : AuditRow) : bool :=
  if au_CreatedAt a =? au_CreatedAt b then au_ID b <=? au_ID a
  else au_CreatedAt b <=? au_CreatedAt a.

Definition ListAuditLogsPage `{!SqlOrder} (limit offset : Z) : prog Console (list AuditRow) :=
  query (λ w, limit_offset (if limit <=? 0 then 200 else limit) (if offset <? 0 then 0 else offset)
    (order_by newest_entry (audit_rows w))).

Definition ListAuditLogs `{!SqlOrder} (limit : Z) : prog Console (list AuditRow) :=
  ListAuditLogsPage limit 0.

(** The method [audit] of the handlers; a failure is logged. *)
Definition audit (rq : WebRequest) (action targetID targetName : string)
    (metadata : list (string * meta)) : prog Console () :=
  let '(username, role, _) := GetUser (rq_sess rq) in
  ignored (InsertAuditLog (rq_now rq) (λ id, {|
    au_ID := id; au_ActorUsername := username; au_ActorRole := role; au_ActorIP := rq_ip rq;
    au_Action := action; au_TargetType := "user"; au_TargetID := targetID;
    au_TargetName := targetName; au_Metadata := metadata;
    au_CreatedAt := sqliteUTC (rq_now rq) |})).

Section handlers.
Context `{!Crypto, !Hmac, !Bcrypt, !SqlOrder}.
Context (secrets : option Box) (ban : option Config) (telegram : bool).

(** The page of the log, with one row more asked for to know whether another page
    follows. *)
Definition AuditLogPage (page : Z) : prog Console (list AuditRow * bool) :=
  let page := if page <? 1 then 1 else page in
  rows ← ListAuditLogsPage (auditLogPageSize + 1) ((page - 1) * auditLogPageSize);
  _ ← on_accounts (ListUsers secrets);
  let hasNext := auditLogPageSize <? Z.of_nat (length rows) in
  mret (if hasNext then take (Z.to_nat auditLogPageSize) rows else rows, hasNext).

(** ** [users.go] *)

Definition is_role (role : string) : bool := bool_decide (role ∈ ["admin"; "editor"; "reader"]).

Definition notifyAdminUserCreated (username role actor ip : string) (userID : Z) : prog Console () :=
  notifyAdminSecurity telegram ("👤 Probakgo: usuario creado" +:+ String "010" (String "010" "Usuario: ")
    +:+ securityField username +:+ String "010" "Rol: " +:+ securityField role
    +:+ String "010" "Creado por: " +:+ securityField actor
    +:+ String "010" "IP: " +:+ securityField ip) ("/users/" +:+ Itoa userID +:+ "/edit").

(** [salt] is the random part of the hash. *)
Definition CreateUserPost (salt : string) : Handler := λ rq,
  let back := formBackOrDefault rq "/users" in
  let '(uname, validName) := normalizeUsername (FormValue rq "username") in
  let pass := FormValue rq "password" in
  let role := if is_role (FormValue rq "role") then FormValue rq "role" else "reader" in
  if str_empty uname || str_empty pass then
    redirectWithFlash back "Usuario y contraseña requeridos" false
  else if negb validName then redirectWithFlash back invalidUsernameMessage false
  else if str_len pass <? minPasswordLength then
    redirectWithFlash back "La contraseña debe tener al menos 12 caracteres" false
  else match GenerateFromPassword salt pass with
  | Err _ => redirectWithFlash back passwordTooLongMessage false
  | Ok hash =>
      on_error (on_accounts (CreateUser (rq_now rq) uname hash role)) (λ id,
        _ ← audit rq "user.create" (Itoa id) uname [("role", MString role)];
        let '(actor, _, _) := GetUser (rq_sess rq) in
        _ ← notifyAdminUserCreated uname role actor (rq_ip rq) id;
        redirectWithFlash "/users" "Usuario creado" true)
        (λ _, redirectWithFlash back
          "No se pudo crear el usuario; comprueba que el nombre no exista ya" false)
  end.

(** [h.store.GetUser] of the account in the path. *)
Definition for_user (rq : WebRequest) (back : string) (k : User → prog Console Reply) :
    prog Console Reply :=
  on_error (on_accounts (Users.GetUser secrets (path_id rq))) k
    (λ _, redirectWithFlash back "Usuario no encontrado" false).

Definition own_account (rq : WebRequest) (user : User) : bool :=
  let '(username, _, _) := GetUser (rq_sess rq) in str_eqb (us_Username user) username.

Definition session_is_admin (rq : WebRequest) : bool :=
  let '(_, role, _) := GetUser (rq_sess rq) in str_eqb role "admin".

(** A statement, with the answer to its failure. *)
Definition attempt {A} (p : prog Accounts A) (back message : string) (k : A → prog Console Reply) :
    prog Console Reply :=
  on_error (on_accounts p) k (λ _, redirectWithFlash back message false).

Definition signed_out (rq : WebRequest) (target : string) : prog Console Reply := sign_out rq target.

Definition ChangeUsernamePost : Handler := λ rq,
  let back := formBackOrDefault rq "/users" in
  let '(newUsername, validName) := normalizeUsername (FormValue rq "username") in
  if str_empty newUsername then redirectWithFlash back "Nombre de usuario requerido" false
  else if negb validName then redirectWithFlash back invalidUsernameMessage false
  else for_user rq back (λ u,
    attempt (UpdateUserUsername (path_id rq) newUsername) back
      "No se pudo cambiar el nombre; comprueba que no exista ya" (λ _,
      _ ← audit rq "user.rename" (Itoa (path_id rq)) newUsername
            [("old_username", MString (us_Username u)); ("new_username", MString newUsername)];
      if own_account rq u then
        signed_out rq (flash_target "/login"
          ("Nombre de usuario cambió a " +:+ newUsername +:+ " - inicia sesión de nuevo") false)
      else redirectWithFlash back ("Nombre de usuario cambió a " +:+ newUsername) true)).

Definition ChangePasswordPost (salt : string) : Handler := λ rq,
  let back := formBackOrDefault rq "/users" in
  let pass := FormValue rq "password" in
  let confirm := FormValue rq "password_confirm" in
  if str_empty pass || str_empty confirm then
    redirectWithFlash back "Contraseña y confirmación requeridas" false
  else if negb (str_eqb pass confirm) then
    redirectWithFlash back "Las contraseñas no coinciden" false
  else if str_len pass <? minPasswordLength then
    redirectWithFlash back "La contraseña debe tener al menos 12 caracteres" false
  else for_user rq back (λ u,
    match GenerateFromPassword salt pass with
    | Err _ => redirectWithFlash back passwordTooLongMessage false
    | Ok hash =>
        attempt (UpdateUserPassword (path_id rq) hash) back "No se pudo actualizar la contraseña" (λ _,
          _ ← audit rq "user.password_change" (Itoa (path_id rq)) (us_Username u) [];
          if own_account rq u then
            signed_out rq "/login?flash=Contrase%C3%B1a+actualizada+-+inicia+sesi%C3%B3n+de+nuevo"
          else redirectWithFlash back "Contraseña actualizada" true)
    end).

Definition DisableUser2FAPost : Handler := λ rq,
  let back := formBackOrDefault rq "/users" in
  for_user rq back (λ u,
    attempt (DisableUserTOTP (path_id rq)) back "No se pudo desactivar el 2FA" (λ _,
      _ ← audit rq "user.2fa_admin_disable" (Itoa (path_id rq)) (us_Username u) [];
      redirectWithFlash back ("2FA desactivado para " +:+ us_Username u) true)).

Definition ChangeRolePost : Handler := λ rq,
  let back := formBackOrDefault rq "/users" in
  let role := FormValue rq "role" in
  if negb (is_role role) then redirectWithFlash back "Rol no válido" false
  else for_user rq back (λ u,
    if own_account rq u && session_is_admin rq then
      redirectWithFlash back "No puedes cambiar tu propio rol" false
    else attempt (UpdateUserRole (path_id rq) role) back "No se pudo cambiar el rol" (λ _,
      _ ← audit rq "user.role_change" (Itoa (path_id rq)) (us_Username u)
            [("old_role", MString (us_Role u)); ("new_role", MString role)];
      redirectWithFlash back "Rol actualizado" true)).

Definition ToggleUserPost : Handler := λ rq,
  let back := formBackOrDefault rq "/users" in
  for_user rq back (λ u,
    if own_account rq u && session_is_admin rq then
      redirectWithFlash back "No puedes desactivarte a ti mismo" false
    else attempt (ToggleUser (path_id rq)) back "No se pudo actualizar el estado" (λ _,
      _ ← audit rq "user.toggle" (Itoa (path_id rq)) (us_Username u)
            [("was_active", MBool (us_IsActive u)); ("new_active", MBool (negb (us_IsActive u)))];
      redirectWithFlash back "Estado actualizado" true)).

Definition DeleteUserPost : Handler := λ rq,
  let back := formBackOrDefault rq "/users" in
  for_user rq back (λ u,
    if str_eqb (us_Role u) "admin" then
      redirectWithFlash back "No se puede eliminar un usuario admin" false
    else attempt (DeleteUser (path_id rq)) back "No se pudo eliminar el usuario" (λ _,
      _ ← audit rq "user.delete" (Itoa (path_id rq)) (us_Username u) [("role", MString (us_Role u))];
      redirectWithFlash "/users" "Usuario eliminado" true)).

(** ** [profile.go] *)

(** The account of the session, by its name. *)
Definition for_me (rq : WebRequest) (k : User → prog Console Reply) : prog Console Reply :=
  let '(username, _, _) := GetUser (rq_sess rq) in
  on_error (on_accounts (GetUserByUsername secrets username)) k
    (λ _, plain_reply (HttpError 500 "user not found")).

(** Whether the password is right, and whether the user is out of attempts. *)
Definition checkCurrentPassword (rq : WebRequest) (user : User) (password : string) :
    prog Console (bool * bool) :=
  let key := Itoa (us_ID user) in
  blocked ← local (λ w, (Blocked password_limiter key (rq_now rq) (password_failures w), w));
  if (blocked : bool) then mret (false, true) else
  if CompareHashAndPassword (us_PasswordHash user) password then mret (true, false) else
  _ ← modify (λ w, set_limits (code_attempts w)
        (AllowKey password_limiter key (rq_now rq) (password_failures w)).2 w);
  _ ← audit rq "user.password_check_failed" key (us_Username user)
        [("path", MString (default "" (parse_rooted (rq_uri rq))))];
  mret (false, false).

Definition currentPasswordFailureMessage (blocked : bool) : string :=
  if blocked then "Demasiados intentos fallidos con la contraseña actual. Espera 15 minutos."
  else "Contraseña actual incorrecta".

(** The browser keeps its session, with the new version. *)
Definition redirectAfterOwnSecurityChange (rq : WebRequest) (userID : Z) (message : string) :
    prog Console Reply :=
  let failed := sign_out rq (flash_target "/login" (message +:+ " Inicia sesión de nuevo.") false) in
  on_error (on_accounts (Users.GetUser secrets userID)) (λ user,
    match (SetUserWithVersion (rq_raw rq) (rq_saved rq) (rq_sess rq) (us_ID user)
             (us_Username user) (us_Role user) (us_SessionVersion user)).2 with
    | Err _ => failed
    | Ok c => mret {| answer := Redirect (flash_target "/profile" message true); cookie := Some c |}
    end) (λ _, failed).

Definition ProfilePost (salt : string) : Handler := λ rq,
  for_me rq (λ user,
    let newPass := FormValue rq "new_password" in
    if str_empty newPass then
      plain_reply (Redirect "/profile?flash=La+nueva+contrase%C3%B1a+no+puede+estar+vac%C3%ADa")
    else
    ok ← checkCurrentPassword rq user (FormValue rq "current_password");
    if negb ok.1 then redirectWithFlash "/profile" (currentPasswordFailureMessage ok.2) false
    else if negb (str_eqb newPass (FormValue rq "password_confirm")) then
      plain_reply (Redirect "/profile?flash=Las+nuevas+contrase%C3%B1as+no+coinciden")
    else if str_len newPass <? minPasswordLength then
      plain_reply (Redirect "/profile?flash=La+contrase%C3%B1a+debe+tener+al+menos+12+caracteres")
    else match GenerateFromPassword salt newPass with
    | Err _ => redirectWithFlash "/profile" passwordTooLongMessage false
    | Ok hash =>
        attempt (UpdateUserPassword (us_ID user) hash) "/profile" "No se pudo actualizar la contraseña"
          (λ _, _ ← audit rq "user.password_change" (Itoa (us_ID user)) (us_Username user)
                  [("self", MBool true)];
                redirectAfterOwnSecurityChange rq (us_ID user)
                  "Contraseña actualizada. Se han cerrado tus otras sesiones.")
    end).

(** [secret] is the answer of [totp.GenerateSecret]. *)
Definition Profile2FASetup (secret : result string) : Handler := λ rq,
  for_me rq (λ user,
    if us_TOTPEnabled user then plain_reply (Redirect "/profile?flash=2FA+ya+esta+activo") else
    match GenerateSecret secret with
    | Err _ => redirectWithFlash "/profile" "No se pudo preparar el 2FA" false
    | Ok secret =>
        match (SetPendingTOTPSetup (rq_saved rq) (rq_now rq) secret (rq_sess rq)).2 with
        | Err _ => plain_reply session_error
        | Ok c =>
            let '(username, _, _) := GetUser (rq_sess rq) in
            mret {| answer := Page "profile_2fa_setup.html" [("Secret", secret);
                      ("URI", ProvisioningURI username secret)]; cookie := Some c |}
        end
    end).

Definition Profile2FAConfirm (nonce : result string) : Handler := λ rq,
  for_me rq (λ user,
    let '(username, _, _) := GetUser (rq_sess rq) in
    if us_TOTPEnabled user then plain_reply (Redirect "/profile?flash=2FA+ya+esta+activo") else
    match GetPendingTOTPSetup (rq_now rq) (rq_sess rq) with
    | (_, false) =>
        plain_reply (Redirect "/profile?flash=No+hay+configuraci%C3%B3n+2FA+pendiente")
    | (secret, true) =>
        let '(step, valid) := ValidateStep (FormValue rq "code") secret (rq_now rq) in
        if negb valid then
          plain_reply (Page "profile_2fa_setup.html" [("Secret", secret);
            ("URI", ProvisioningURI username secret); ("Error", "Código 2FA incorrecto")])
        else attempt (EnableUserTOTP secrets (rq_now rq) nonce (us_ID user) secret) "/profile"
          "No se pudo activar el 2FA" (λ _,
            _ ← ignored (on_accounts (ClaimUserTOTPStep (us_ID user) step));
            _ ← audit rq "user.2fa_enable" username username [];
            redirectAfterOwnSecurityChange rq (us_ID user)
              "2FA activado. Se han cerrado tus otras sesiones.")
    end).

Definition Profile2FADisable : Handler := λ rq,
  for_me rq (λ user,
    let '(username, _, _) := GetUser (rq_sess rq) in
    ok ← checkCurrentPassword rq user (FormValue rq "current_password");
    if negb ok.1 then redirectWithFlash "/profile" (currentPasswordFailureMessage ok.2) false
    else attempt (DisableUserTOTP (us_ID user)) "/profile" "No se pudo desactivar el 2FA" (λ _,
      _ ← audit rq "user.2fa_disable" username username [];
      redirectAfterOwnSecurityChange rq (us_ID user)
        "2FA desactivado. Se han cerrado tus otras sesiones.")).

(** ** Routes: [internal/web/router.go] *)

Inductive Route : Type :=
| PostUsers (salt : string)
| PostUsername
| PostPassword (salt : string)
| PostDisable2FA
| PostRole
| PostToggle
| PostDelete
| PostProfile (salt : string)
| PostProfile2FASetup (secret : result string)
| PostProfile2FAConfirm (nonce : result string)
| PostProfile2FADisable.

Definition serve_account (route : Route) : Handler :=
  let sensitive := RequireTOTPForSensitiveAction secrets in
  let admin h := RequireLogin secrets (RequireAdmin (sensitive h)) in
  match route with
  | PostUsers salt => admin (CreateUserPost salt)
  | PostUsername => admin ChangeUsernamePost
  | PostPassword salt => admin (ChangePasswordPost salt)
  | PostDisable2FA => admin DisableUser2FAPost
  | PostRole => admin ChangeRolePost
  | PostToggle => admin ToggleUserPost
  | PostDelete => admin DeleteUserPost
  | PostProfile salt => RequireLogin secrets (sensitive (ProfilePost salt))
  | PostProfile2FASetup secret => RequireLogin secrets (Profile2FASetup secret)
  | PostProfile2FAConfirm nonce => RequireLogin secrets (Profile2FAConfirm nonce)
  | PostProfile2FADisable => RequireLogin secrets (sensitive Profile2FADisable)
  end.
End handlers.
