(* ===== verification/Access.v ===== *)
(** * Who gets into the console

    What the handlers of [Login], [Middleware] and [UserAdmin] guarantee together: a
    session is issued only for a password and, with a second factor, an unused code; a
    code serves one request, however requests interleave; a session ends for good with
    a logout or with a change of the account; and pages are served to valid sessions
    only. *)
From Stdlib Require Import Ascii.
From S2P Require Import Prelude GoStrings GoUtf8 GoJson GoNum GoTime GoNetip GoUrl Domain Sql Interleave Frames Banhammer Limiter Challenges Secrets Relational Schema Servers Removal Retention Users Totp Session Login Middleware UserAdmin.

(** ** The programs that leave the accounts alone *)

(** A relation on the accounts, as one on the whole state. *)
Definition via (R : Accounts → Accounts → Prop) (w w' : Console) : Prop :=
  R (accounts w) (accounts w').

#[export] Instance via_PreOrder R `{!PreOrder R} : PreOrder (via R).
Proof. unfold via. split; [intros w; reflexivity|]. intros w1 w2 w3 H1 H2. by etransitivity. Qed.

Section frames.
Context `{!Crypto, !Hmac, !Bcrypt, !SqlOrder}.
Context (secrets : option Box) (ban : option Config) (telegram : bool).
Context (R : Accounts → Accounts → Prop) `{!PreOrder R}.

Lemma steps_on_accounts {A} (p : prog Accounts A) : steps R p → steps (via R) (on_accounts p).
Proof. intros Hp. apply (steps_lift _ _ _ R); [|done]. by intros w t HR. Qed.

Lemma steps_on_log {A} (p : prog LoginLog A) : steps (via R) (on_log p).
Proof. apply steps_lift_any. intros w t. unfold via. reflexivity. Qed.

Lemma steps_on_bans {A} (p : prog Bans A) : steps (via R) (on_bans p).
Proof. apply steps_lift_any. intros w t. unfold via. reflexivity. Qed.

Lemma steps_on_challenges {A} (f : Items → A * Items) : steps (via R) (on_challenges f).
Proof. apply steps_local. intros w. unfold via. destruct (f (challenges w)). reflexivity. Qed.

Lemma steps_GetEmailConfig : steps (via R) GetEmailConfig.
Proof. apply steps_stmt. intros w c w'. destruct (email_cfg w); [|done]. intros [= _ <-]. reflexivity. Qed.

(** Goes through a handler; what is left are the statements on the accounts. *)
Ltac walk :=
  repeat first
    [ progress intros
    | lazymatch goal with
      | |- steps _ (mret _) => apply steps_mret
      | |- steps _ (plain_reply _) => apply steps_mret
      | |- steps _ (_ ≫= _) => apply steps_bind
      | |- steps _ (andThen _ _) => apply steps_andThen
      | |- steps _ (on_error _ _ _) => apply steps_andThen
      | |- steps _ (ignored _) => apply steps_andThen
      | |- steps _ (on_log _) => apply steps_on_log
      | |- steps _ (on_bans _) => apply steps_on_bans
      | |- steps _ (on_challenges _) => apply steps_on_challenges
      | |- steps _ GetEmailConfig => apply steps_GetEmailConfig
      | |- steps _ (modify _) => apply steps_local; intros; unfold via; reflexivity
      | |- steps _ (match ?x with _ => _ end) => destruct x
      | |- steps _ (let _ := _ in _) => cbv zeta
      end ].

Lemma steps_recordLoginAttempt rq u res reason :
  steps (via R) (recordLoginAttempt rq u res reason).
Proof. unfold recordLoginAttempt. walk. Qed.

Lemma steps_notifyAdminSecurity m l : steps (via R) (notifyAdminSecurity telegram m l).
Proof. unfold notifyAdminSecurity. walk. Qed.

Lemma steps_notifyAdminLoginFailed now u ip reason b :
  steps (via R) (notifyAdminLoginFailed telegram now u ip reason b).
Proof.
  unfold notifyAdminLoginFailed. destruct (negb telegram); [apply steps_mret|].
  apply steps_bind.
  - apply steps_local. intros w. destruct (allow_notice _ now (notices w)). unfold via. reflexivity.
  - intros ok. destruct (negb ok.1); [apply steps_mret|apply steps_notifyAdminSecurity].
Qed.

Lemma steps_is_banned rq : steps (via R) (is_banned ban rq).
Proof. unfold is_banned. walk. Qed.

Lemma steps_loginFailed rq u reason notice :
  steps (via R) (loginFailed ban telegram rq u reason notice).
Proof.
  unfold loginFailed. apply steps_bind; [apply steps_recordLoginAttempt|intros _].
  apply steps_bind; [walk|]. intros b. apply steps_notifyAdminLoginFailed.
Qed.

Lemma steps_clear_failures_of rq : steps (via R) (clear_failures_of ban rq).
Proof. unfold clear_failures_of. walk. Qed.

Lemma steps_Clear rq : steps (via R) (Clear rq).
Proof. unfold Clear. walk. Qed.

Lemma steps_ClearPending2FA rq : steps (via R) (ClearPending2FA rq).
Proof. unfold ClearPending2FA. walk. Qed.

Lemma steps_SetPending2FA rq id next ver : steps (via R) (SetPending2FA rq id next ver).
Proof. unfold SetPending2FA. walk. Qed.

Lemma steps_wrong_credentials rq u : steps (via R) (wrong_credentials ban telegram rq u).
Proof. apply steps_bind; [apply steps_loginFailed|intros _; apply steps_mret]. Qed.

Lemma steps_sign_out rq target : steps (via R) (sign_out rq target).
Proof. apply steps_bind; [apply steps_Clear|intros c; apply steps_mret]. Qed.

Lemma steps_audit rq action id name meta : steps (via R) (audit rq action id name meta).
Proof.
  unfold audit. destruct (GetUser (rq_sess rq)) as [[u ro] ok]. apply steps_andThen.
  - apply steps_exec_sql. intros w. unfold via. reflexivity.
  - intros r. apply steps_mret.
Qed.

(** *** The statements on the accounts *)

Lemma steps_find_user cond : steps R (find_user secrets cond).
Proof.
  apply steps_stmt. intros t u t'. destruct (head _) as [r|]; [|done].
  destruct (scanUser secrets r); [|done]. intros [= _ <-]. reflexivity.
Qed.

Lemma steps_update_users cond f :
  (∀ t, constraints_hold (update_where cond f (users t)) = true →
     R t (set_users (update_where cond f (users t)) t)) →
  steps R (update_users cond f).
Proof.
  intros HR. apply steps_stmt. intros t n t'. cbv zeta. case_match; [|done].
  intros [= _ <-]. by apply HR.
Qed.
End frames.

#[export] Hint Resolve steps_recordLoginAttempt steps_notifyAdminSecurity
  steps_notifyAdminLoginFailed steps_is_banned steps_loginFailed steps_clear_failures_of
  steps_Clear steps_ClearPending2FA steps_SetPending2FA steps_wrong_credentials steps_sign_out
  steps_audit steps_on_log steps_on_bans steps_on_challenges steps_GetEmailConfig
  steps_on_accounts steps_find_user : probak.

(** Goes through a handler with the lemmas above. *)
Ltac walk :=
  repeat first
    [ progress intros
    | solve [auto 3 with probak typeclass_instances]
    | lazymatch goal with
      | |- steps _ (mret _) => apply steps_mret
      | |- steps _ (plain_reply _) => apply steps_mret
      | |- steps _ (_ ≫= _) => apply steps_bind
      | |- steps _ (andThen _ _) => apply steps_andThen
      | |- steps _ (on_error _ _ _) => apply steps_andThen
      | |- steps _ (ignored _) => apply steps_andThen
      | |- steps _ (modify _) => apply steps_local; intros; unfold via; reflexivity
      | |- steps _ (match ?x with _ => _ end) => destruct x
      | |- steps _ (let _ := _ in _) => cbv zeta
      end ].

(** ** A code serves one request *)

(** The account of [uid] stays, with its secret, and its last step never goes back. *)
Definition keeps_factor (uid : Z) (t t' : Accounts) : Prop :=
  ∀ row, users t !! uid = Some row → ∃ row', users t' !! uid = Some row' ∧
    ur_TOTPSecret row' = ur_TOTPSecret row ∧ ur_TOTPLastStep row ≤ ur_TOTPLastStep row'.

#[export] Instance keeps_factor_PreOrder uid : PreOrder (keeps_factor uid).
Proof.
  split.
  - intros t row Hr. exists row. split_and!; [done|done|lia].
  - intros t1 t2 t3 H12 H23 row Hr. destruct (H12 row Hr) as (row2 & Hr2 & Hs2 & Hl2).
    destruct (H23 row2 Hr2) as (row3 & Hr3 & Hs3 & Hl3). exists row3.
    split_and!; [done|congruence|lia].
Qed.

(** The session values of a signed-in user. *)
Definition signed_in (v : Values) : bool := (GetUser (returned v)).2.

(** The answer issues a session for [uid]. *)
Definition issues (uid : Z) (r : result Reply) : Prop :=
  ∃ reply v, r = Ok reply ∧ cookie reply = Some (Keep v) ∧ signed_in v = true ∧
    (UserID (returned v)).1 = uid.

(** The requests of the login form, at the same time as any others of them. *)
Inductive LoginRequest : Type :=
| PostLogin (rq : WebRequest)
| Get2FA (rq : WebRequest)
| Post2FA (rq : WebRequest)
| PostLogout (rq : WebRequest).

Section codes.
Context `{!Crypto, !Hmac, !Bcrypt, !SqlOrder}.
Context (secrets : option Box) (ban : option Config) (telegram : bool).

Definition serve_login (req : LoginRequest) : prog Console Reply :=
  match req with
  | PostLogin rq => LoginPost secrets ban telegram rq
  | Get2FA rq => Login2FAPage secrets rq
  | Post2FA rq => Login2FAPost secrets ban telegram rq
  | PostLogout rq => Logout rq
  end.

Section one_account.
Context (uid : Z).
Notation R := (via (keeps_factor uid)).

Lemma factor_update cond f :
  (∀ k r, cond k r = true →
     ur_TOTPSecret (f r) = ur_TOTPSecret r ∧ ur_TOTPLastStep r ≤ ur_TOTPLastStep (f r)) →
  steps (keeps_factor uid) (update_users cond f).
Proof.
  intros Hf. apply steps_update_users. intros t _ row Hr. cbn [set_users users].
  rewrite lookup_update_where, Hr. simpl. eexists. split; [done|].
  destruct (cond uid row) eqn:Hc; [by eapply Hf|]. split; [done|lia].
Qed.

Lemma factor_usage cond f :
  (∀ k r, cond k r = true →
     ur_TOTPSecret (f r) = ur_TOTPSecret r ∧ ur_TOTPLastStep r ≤ ur_TOTPLastStep (f r)) →
  steps R (on_accounts (update_users cond f ≫= λ _, mret ())).
Proof.
  intros Hf. apply steps_on_accounts, steps_bind; [by apply factor_update|].
  intros n. apply steps_mret.
Qed.

Lemma steps_set_active id b : steps R (on_accounts (SetUserActive id b)).
Proof.
  apply steps_on_accounts, steps_tx, steps_bind.
  - apply factor_update. intros k r _. split; [done|simpl; lia].
  - intros n. destruct b; [apply steps_mret|]. apply steps_exec_sql.
    intros t row Hr. exists row. split_and!; [done|done|lia].
Qed.

Lemma steps_grace now id : steps R (on_accounts (StartUserTOTPGrace now id)).
Proof. apply factor_usage. intros k r _. split; [done|simpl; lia]. Qed.

Lemma steps_last_login now id ip : steps R (on_accounts (UpdateUserLastLogin now id ip)).
Proof. apply factor_usage. intros k r _. split; [done|simpl; lia]. Qed.

Lemma steps_claim id st : steps R (on_accounts (ClaimUserTOTPStep id st)).
Proof.
  apply steps_on_accounts, steps_bind; [|intros n; apply steps_mret]. apply factor_update.
  intros k r [_ Hl%Z.ltb_lt]%andb_true_iff. split; [done|simpl; lia].
Qed.

Lemma steps_last_admin id : steps R (on_accounts (IsLastActiveAdmin id)).
Proof. apply steps_on_accounts, steps_query, _. Qed.

Lemma steps_revoke now sid e : steps R (on_accounts (RevokeSession now sid e)).
Proof.
  apply steps_on_accounts, steps_bind; [|intros u]; apply steps_exec_sql; intros t row Hr;
    (exists row; split_and!; [done|done|lia]).
Qed.

Hint Resolve steps_set_active steps_grace steps_last_login steps_claim steps_last_admin
  steps_revoke : probak.

Lemma steps_sign_in rq user next : steps R (sign_in telegram rq user next).
Proof. unfold sign_in, notifyAdminLoginSuccess. destruct (SetUserWithVersion _ _ _ _ _ _ _) as [s [c|e]]; cbn [snd]; walk. Qed.

Lemma steps_enforcement rq user : steps R (handleTOTPEnforcement telegram rq user).
Proof. unfold handleTOTPEnforcement. walk. Qed.

Lemma steps_first_factor rq user next : steps R (first_factor_passed ban telegram rq user next).
Proof. unfold first_factor_passed. pose proof steps_sign_in. walk. Qed.

Lemma steps_second_factor rq user next : steps R (second_factor_passed ban telegram rq user next).
Proof. unfold second_factor_passed. pose proof steps_sign_in. walk. Qed.

Lemma steps_LoginPost rq : steps R (LoginPost secrets ban telegram rq).
Proof.
  unfold LoginPost, GetUserByUsername. pose proof steps_enforcement. pose proof steps_first_factor.
  walk.
Qed.

Lemma steps_with_pending rq k :
  (∀ user next, steps R (k user next)) → steps R (with_pending secrets rq k).
Proof. intros Hk. unfold with_pending, Users.GetUser. walk. Qed.

Lemma steps_Login2FAPost rq : steps R (Login2FAPost secrets ban telegram rq).
Proof.
  apply steps_with_pending. intros user next. pose proof steps_second_factor. cbv zeta. walk.
Qed.

Lemma steps_serve_login req : steps R (serve_login req).
Proof.
  destruct req as [rq|rq|rq|rq]; cbn [serve_login].
  - apply steps_LoginPost.
  - apply steps_with_pending. intros user next. apply steps_mret.
  - apply steps_Login2FAPost.
  - unfold Logout. cbv zeta. walk.
Qed.

(** *** The race for a step *)

Lemma guar_found (P : Accounts → Accounts → Prop) `{!PreOrder P} cond
    (Q : result User → Console → Prop) w :
  (∀ s s' u id row, via P w s → via P s s' → users (accounts s) !! id = Some row →
     cond id row = true → scanUser secrets (id, row) = Ok u → Q (Ok u) s') →
  (∀ e s, via P w s → Q (Err e) s) →
  guar (via P) (on_accounts (find_user secrets cond)) Q w.
Proof.
  intros Hok Herr. apply (guar_stmt (via P)); [|done]. intros s Hs.
  destruct (head (find_users cond (accounts s))) as [[id row]|] eqn:Hh; [|done].
  destruct (scanUser secrets (id, row)) as [u|e] eqn:Hu; [|done]. simpl.
  apply head_find_users in Hh as [Hr Hc]. split.
  - unfold via. reflexivity.
  - intros s' Hs'. eapply (Hok s s'); [done| |exact Hr|exact Hc|exact Hu].
    unfold via in *. exact Hs'.
Qed.

Context (st : Z) (row0 : UserRow) (w0 : Console).
Hypothesis Hrow0 : users (accounts w0) !! uid = Some row0.

(** The step, or a later one, was accepted. *)
Definition step_taken (w : Console) : Prop :=
  ∃ row, users (accounts w) !! uid = Some row ∧ st ≤ ur_TOTPLastStep row.

Lemma step_taken_stays w w' : R w w' → step_taken w → step_taken w'.
Proof.
  intros HR (row & Hr & Hl). destruct (HR row Hr) as (row' & Hr' & _ & Hl').
  exists row'. split; [done|lia].
Qed.

Lemma count_one (b : bool) : (Z.of_nat (if b then 1%nat else 0%nat) =? 1) = b.
Proof. by destruct b. Qed.

(** The step is claimed by the one request that finds it free. *)
Lemma contest_claim (k : bool → prog Console Reply) (h : error → prog Console Reply) w :
  R w0 w →
  (∀ s, R w s → guar R (k true) (λ _ _, True) s) →
  (∀ s, R w s → contest R step_taken (k false) (issues uid) s) →
  (∀ e s, R w s → contest R step_taken (h e) (issues uid) s) →
  contest R step_taken (on_error (on_accounts (ClaimUserTOTPStep uid st)) k h) (issues uid) w.
Proof.
  intros Hw Ht Hf He s Hs. split; [|intros e; by apply He].
  destruct (Hw row0 Hrow0) as (row1 & Hr1 & _). destruct (Hs row1 Hr1) as (row & Hr & _).
  set (cond := λ (k : Z) (r : UserRow), user_is uid k r && (ur_TOTPLastStep r <? st)).
  cbv zeta. destruct (constraints_hold _); [|by apply He].
  cbn [andThen lift mret prog_ret set_accounts].
  assert (length (List.filter (λ r, cond r.1 r.2) (map_to_list (users (accounts s)))) =
    if cond uid row then 1%nat else 0%nat) as Hn.
  { apply count_updated; [exact Hr|]. by intros k' x [Hk%user_is_true _]%andb_true_iff. }
  unfold cond in Hn. rewrite Hn, count_one. clear Hn.
  assert (user_is uid uid row && (ur_TOTPLastStep row <? st) = (ur_TOTPLastStep row <? st)) as ->
    by (unfold user_is; by rewrite Z.eqb_refl).
  match goal with |- R s ?w' ∧ _ => set (s' := w') end.
  assert (R s s') as HR.
  { intros r Hr'. unfold s'. cbn [accounts set_accounts users set_users]. rewrite lookup_update_where, Hr'. simpl.
    eexists. split; [done|]. destruct (cond uid r) eqn:Hc; [|split; [done|lia]].
    apply andb_true_iff in Hc as [_ Hc%Z.ltb_lt]. split; [done|simpl; lia]. }
  split; [done|]. destruct (ur_TOTPLastStep row <? st) eqn:Hlt.
  - right. apply Z.ltb_lt in Hlt. split_and!.
    + intros (r & Hr' & Hl). rewrite Hr in Hr'. simplify_eq. lia.
    + eexists. unfold s'. cbn [accounts set_accounts users set_users]. rewrite lookup_update_where, Hr. simpl.
      split; [done|]. assert (cond uid row = true) as ->; [|simpl; lia].
      unfold cond, user_is. rewrite Z.eqb_refl. by apply Z.ltb_lt.
    + apply Ht. by transitivity s.
  - left. apply Hf. by transitivity s.
Qed.

(** *** Answers that issue nothing *)

Definition never (p : prog Console Reply) : Prop := returns (λ r, ¬ issues uid r) p.

Lemma never_bind {A} (p : prog Console A) (f : A → prog Console Reply) :
  (∀ a, never (f a)) → never (p ≫= f).
Proof. intros Hf. apply returns_bind; [|done]. by intros e (r & v & [=] & _). Qed.

Lemma never_none a : never (mret {| answer := a; cookie := None |}).
Proof. by intros (r & v & [= <-] & [=] & _). Qed.

Lemma never_contest p w : steps R p → never p → contest R step_taken p (issues uid) w.
Proof. intros Hs Hp. apply guar_contest; [apply _|]. exact (returns_guar R (λ r, ¬ issues uid r) p w Hs Hp). Qed.

Lemma signed_in_delete v : signed_in (delete "pending_2fa_token" v) = signed_in v.
Proof.
  unfold signed_in, GetUser, string_at, usable. cbn [returned ss_ready ss_err ss_values negb andb].
  by rewrite !lookup_delete_ne.
Qed.

(** The cookie without the token is no session when the one that came was none. *)
Lemma returns_ClearPending2FA rq :
  signed_in (ss_values (rq_sess rq)) = false →
  returns (λ r, match r with
    | Ok (Some (Keep v)) => signed_in v = false
    | _ => True end) (ClearPending2FA rq).
Proof.
  intros Hv. unfold ClearPending2FA. destruct (ss_err (rq_sess rq)) eqn:He; [done|].
  apply returns_bind; [done|]. intros _. unfold without_token, change. rewrite He. cbn [snd].
  unfold save. destruct (rq_saved rq); [|done]. cbn [returns mret prog_ret set_values ss_values].
  by rewrite signed_in_delete.
Qed.

Lemma never_cleared rq a :
  signed_in (ss_values (rq_sess rq)) = false →
  never (ClearPending2FA rq ≫= λ c, mret {| answer := a; cookie := c |}).
Proof.
  intros Hv. eapply returns_andThen; [by apply returns_ClearPending2FA|].
  intros [c|e] Hc; [|by intros (r & v & [=] & _)].
  intros (r & v & [= <-] & Hk & Hs & _). cbn in Hk. subst c. by rewrite Hs in Hc.
Qed.

Lemma never_sign_in rq user next : us_ID user ≠ uid → never (sign_in telegram rq user next).
Proof.
  intros Hid. unfold sign_in, SetUserWithVersion.
  destruct (rq_raw rq) as [raw|e]; [|apply never_none].
  cbv zeta. cbn [snd]. unfold save. destruct (rq_saved rq); [|apply never_none].
  do 3 (apply never_bind; intros _).
  intros (r & v & [= <-] & [= <-] & _ & Hu). apply Hid. revert Hu.
  unfold UserID. cbn [usable returned ss_ready ss_err ss_values set_values negb andb].
  by simpl_map.
Qed.

Lemma never_wrong_code rq user notice a :
  never (loginFailed ban telegram rq user "invalid_totp" notice ≫= λ _, plain_reply a).
Proof. apply never_bind. intros _. apply never_none. Qed.

Lemma scanUser_Ok r u :
  scanUser secrets r = Ok u →
  us_ID u = r.1 ∧ us_Username u = ur_Username r.2 ∧ us_PasswordHash u = ur_PasswordHash r.2 ∧
  us_Role u = ur_Role r.2 ∧ us_IsActive u = ur_IsActive r.2 ∧
  us_TOTPEnabled u = ur_TOTPEnabled r.2 ∧ us_SessionVersion u = ur_SessionVersion r.2 ∧
  us_TOTPGraceStartedAt u = ur_TOTPGraceStartedAt r.2 ∧
  stored_secret secrets r.2 = Ok (us_TOTPSecret u).
Proof. unfold scanUser. intros (s & Hs & [= <-])%result_bind_Ok. by split_and!. Qed.

(** A request with a code of step [st] is in the race. *)
Lemma contest_Login2FAPost rq secret :
  stored_secret secrets row0 = Ok secret →
  ValidateStep (FormValue rq "code") secret (rq_now rq) = (st, true) →
  signed_in (ss_values (rq_sess rq)) = false →
  contest R step_taken (Login2FAPost secrets ban telegram rq) (issues uid) w0.
Proof.
  intros Hsec Hcode Hnew. unfold Login2FAPost, with_pending.
  apply contest_after; [apply _|apply steps_respects, steps_on_challenges; apply _|].
  intros [[[[userID next] version] ok]|e] w1 Hw1; [|by intros (r & v & [=] & _)].
  destruct ok; cbn [negb]; [|apply never_contest; [apply steps_mret|apply never_none]].
  eapply contest_andThen; [apply _| |].
  { apply (guar_found (keeps_factor uid) _ (λ r s, ∀ u, r = Ok u →
      us_ID u = userID ∧ (userID = uid → us_TOTPSecret u = secret)));
      [|by intros e s _ u [=]].
    intros s s' u id row Hs Hs' Hr ->%user_is_true Hu u' [= <-].
    destruct (scanUser_Ok _ _ Hu) as (Hid & _ & _ & _ & _ & _ & _ & _ & Hus). split; [done|].
    intros ->. destruct (transitivity Hw1 Hs row0 Hrow0) as (row' & Hr' & Hss & _).
    rewrite Hr in Hr'. simplify_eq. cbn [snd] in Hus. unfold stored_secret in *.
    rewrite Hss, Hsec in Hus. congruence. }
  cbv beta. intros [user|e] w2 Hw2 Hq; [|apply never_contest; [walk|by apply never_cleared]].
  destruct (Hq user eq_refl) as [Hid Hus].
  destruct (negb (still_pending user version));
    [apply never_contest; [walk|by apply never_cleared]|].
  apply contest_after; [apply _|apply steps_respects, steps_is_banned; apply _|].
  intros [banned|e] w3 Hw3; [|by intros (r & v & [=] & _)].
  destruct banned.
  { apply never_contest; [walk|]. apply never_bind. intros _. apply never_none. }
  apply contest_after; [apply _|apply steps_respects, steps_on_challenges; apply _|].
  intros [allowed|e] w4 Hw4; [|by intros (r & v & [=] & _)].
  destruct allowed; cbn [negb]; [|apply never_contest; [walk|by apply never_cleared]].
  destruct (decide (userID = uid)) as [->|Hne]; cycle 1.
  { clear Hcode. destruct (ValidateStep _ _ _) as [step valid]. apply never_contest.
    - pose proof steps_second_factor. destruct valid; cbn [negb]; walk.
    - destruct valid; cbn [negb]; [|apply never_wrong_code]. apply returns_then.
      intros [[]|e]; [|apply never_wrong_code|apply never_none].
      unfold second_factor_passed. apply never_bind. intros _. apply never_bind.
      intros []; cbn [negb]; [apply never_sign_in; congruence|apply never_none]. }
  rewrite Hus, Hcode by done. cbn [negb]. rewrite Hid. apply contest_claim.
  - transitivity w1; [done|]. transitivity w2; [done|]. by transitivity w3.
  - intros s _. apply (steps_respects R); apply steps_second_factor.
  - intros s _. apply never_contest; [walk|apply never_wrong_code].
  - intros e s _. apply never_contest; [apply steps_mret|apply never_none].
Qed.
End one_account.

(** C9: however the requests of the login form interleave, and whatever of them fails,
    of the requests that present a code of one step for one account at most one is
    issued a session. *)
Theorem code_used_once (uid st : Z) (row : UserRow) (secret : string)
    (reqs : nat → LoginRequest) (sched : list (nat * list (option error))) (w : Console)
    (i j : nat) (rqi rqj : WebRequest) (ri rj : result Reply) :
  users (accounts w) !! uid = Some row →
  stored_secret secrets row = Ok secret →
  reqs i = Post2FA rqi → reqs j = Post2FA rqj → i ≠ j →
  (∀ rq, rq ∈ [rqi; rqj] → signed_in (ss_values (rq_sess rq)) = false ∧
     ValidateStep (FormValue rq "code") secret (rq_now rq) = (st, true)) →
  let final := (run_pool sched (λ n, serve_login (reqs n)) w).1 in
  final i = Ret ri → final j = Ret rj → issues uid ri → ¬ issues uid rj.
Proof.
  intros Hrow Hsec Hi Hj Hij Hrqs final Hri Hrj.
  apply (at_most_one_winner (via (keeps_factor uid)) (step_taken uid st) (step_taken_stays uid st)
    [i; j] (issues uid) sched (λ n, serve_login (reqs n)) w i j ri rj);
    [..|by left|by right; left|done|done|done].
  - intros n. apply steps_respects, steps_serve_login. apply _.
  - intros n [->|[->|[]%elem_of_nil]%elem_of_cons]%elem_of_cons; [rewrite Hi|rewrite Hj];
      cbn [serve_login].
    + destruct (Hrqs rqi ltac:(left)) as [Hnew Hv]. by eapply contest_Login2FAPost.
    + destruct (Hrqs rqj ltac:(right; left)) as [Hnew Hv]. by eapply contest_Login2FAPost.
Qed.
End codes.
