(* ===== verification/Signin.v ===== *)
(** * What a session costs

    Theorems on [LoginPost] and [Login2FAPost]: the password, the second factor and the
    return path. *)
From Stdlib Require Import Ascii.
From S2P Require Import Prelude GoStrings GoUtf8 GoJson GoNum GoTime GoNetip GoUrl Domain StoreReads Sql Interleave Frames Banhammer Limiter Challenges Secrets Relational Schema Servers Removal Retention Users Totp Session Login Middleware UserAdmin Access.

Lemma set_accounts_same w : set_accounts (accounts w) w = w.
Proof. by destruct w. Qed.

Lemma returns_always {T A} (P : result A → Prop) (p : prog T A) t :
  returns P p → always p (λ r _, P r) t.
Proof.
  intros Hp io. pose proof (exec_returns P p io t Hp) as Hr.
  by destruct (exec p io t) as [[r t'] io'].
Qed.

Lemma always_error {T A B} (p : prog T A) (k : A → prog T B) (h : error → prog T B)
    (Q : result B → T → Prop) t :
  always p (λ r t', match r with Ok a => always (k a) Q t' | Err e => always (h e) Q t' end) t →
  always (andThen p (λ r, match r with Ok a => k a | Err e => h e end)) Q t.
Proof. intros Hp. apply always_andThen. eapply always_mono; [exact Hp|]. by intros [a|e] t'. Qed.

(** The identity that the values of a session carry. *)
Definition session_of (user : User) (v : Values) : Prop :=
  GetUser (returned v) = (us_Username user, us_Role user, true) ∧
  (UserID (returned v)).1 = us_ID user ∧
  (UserVersion (returned v)).1 = us_SessionVersion user.

(** Every session that an answer issues is one of [user]. *)
Definition session_for (user : User) (r : result Reply) : Prop :=
  ∀ reply v, r = Ok reply → cookie reply = Some (Keep v) → signed_in v = true →
  session_of user v.

Definition no_session (r : result Reply) : Prop :=
  ∀ reply v, r = Ok reply → cookie reply = Some (Keep v) → signed_in v = false.

Section signin.
Context `{!Crypto, !Hmac, !Bcrypt, !SqlOrder}.
Context (secrets : option Box) (ban : option Config) (telegram : bool).

Lemma always_found cond (Q : result User → Console → Prop) w :
  (∀ id row u, users (accounts w) !! id = Some row → cond id row = true →
     scanUser secrets (id, row) = Ok u → Q (Ok u) w) →
  (∀ e, Q (Err e) w) → always (on_accounts (find_user secrets cond)) Q w.
Proof.
  intros Hok Herr. apply always_stmt; [done|]. intros u w'.
  destruct (head (find_users cond (accounts w))) as [[id row]|] eqn:Hh; [|done].
  destruct (scanUser secrets (id, row)) as [u'|e] eqn:Hu; [|done]. simpl. intros [= <- <-].
  rewrite set_accounts_same. apply head_find_users in Hh as [Hr Hc]. by eapply Hok.
Qed.

Lemma none_no_session a : no_session (Ok {| answer := a; cookie := None |}).
Proof. by intros r v [= <-]. Qed.

Lemma error_no_session e : no_session (Err e).
Proof. by intros r v. Qed.

Lemma returns_none (P : result Reply → Prop) a :
  (∀ r, no_session r → P r) → returns P (plain_reply a).
Proof. intros HP. apply HP, none_no_session. Qed.

Lemma no_session_for user r : no_session r → session_for user r.
Proof. intros Hn reply v Hr Hc Hs. specialize (Hn reply v Hr Hc). congruence. Qed.

Lemma returns_sign_in rq user next : returns (session_for user) (sign_in telegram rq user next).
Proof.
  unfold sign_in, SetUserWithVersion. destruct (rq_raw rq) as [raw|e];
    [|apply returns_none, no_session_for].
  cbv zeta. cbn [snd]. unfold save. destruct (rq_saved rq); [|apply returns_none, no_session_for].
  do 3 (apply returns_bind; [intros e'; apply no_session_for, error_no_session|intros _]).
  intros reply v [= <-] [= <-]. unfold signed_in, session_of, GetUser, UserID, UserVersion, string_at.
  cbn [usable returned ss_ready ss_err ss_values set_values negb andb]. simpl_map. cbn [number fst snd].
  by intros ->.
Qed.

(** What an account needs for a password alone to be enough. *)
Lemma returns_first_factor rq user next :
  returns (λ r, session_for user r ∧ (us_TOTPEnabled user = true → no_session r))
    (first_factor_passed ban telegram rq user next).
Proof.
  assert (∀ r, no_session r → session_for user r ∧ (us_TOTPEnabled user = true → no_session r))
    as Hno by (intros r Hr; split; [by apply no_session_for|done]).
  unfold first_factor_passed. apply returns_bind; [intros e; apply Hno, error_no_session|intros _].
  destruct (us_TOTPEnabled user) eqn:Ht.
  - eapply (returns_andThen _ (λ r, ∀ v, r = Ok (Some (Keep v)) → signed_in v = false)).
    + unfold SetPending2FA. destruct (rq_raw rq) as [raw|e]; [|by intros v]. cbv zeta.
      apply returns_bind; [by intros e v|]. intros fits. destruct (negb fits); [by intros v|].
      apply returns_bind; [by intros e v|]. intros _. unfold save.
      destruct (rq_saved rq); [|by apply returns_bind; [intros e' v|intros _ v]].
      intros v [= <-]. unfold signed_in, GetUser, string_at, with_token.
      cbn [usable returned ss_ready ss_err ss_values set_values negb andb]. by simpl_map.
    + intros [[c|]|e] Hc; [|apply Hno, none_no_session|apply Hno, error_no_session].
      apply returns_bind; [intros e; apply Hno, error_no_session|]. intros _. apply Hno.
      intros reply v [= <-] [= ->]. by apply Hc.
  - eapply returns_weaken; [|apply returns_sign_in]. by intros r Hr.
Qed.

(** Whether the address of the request is free of a ban. *)
Definition not_banned (rq : WebRequest) (w : Console) : Prop :=
  match ban with
  | None => True
  | Some b => isTrusted b (rq_ip rq) = true ∨
      (banned_step (BanKey (rq_ip rq)) (rq_now rq) (ban_state w)).1.1 = false
  end.

Lemma always_is_banned rq w :
  always (is_banned ban rq) (λ r w', accounts w' = accounts w ∧ challenges w' = challenges w ∧
    ∃ b, r = Ok b ∧ (b = false → not_banned rq w)) w.
Proof.
  unfold is_banned, not_banned. destruct ban as [b|]; [|apply always_Ret; split_and!; eauto].
  apply always_bind. unfold on_bans, IsBanned. destruct (isTrusted b (rq_ip rq)) eqn:Ht.
  - apply always_Ret, always_Ret. split_and!; [done|done|]. exists false. auto.
  - apply always_local. apply always_Ret.
    destruct (banned_step (BanKey (rq_ip rq)) (rq_now rq) (ban_state w)) as [[x d] b'] eqn:Hb.
    split_and!; [done|done|]. exists x. split; [done|]. intros ->. by right.
Qed.

(** C10: a login form is answered with a session only for the password of an active
    account without second factor, from an address that is not banned; the session is
    of that account, at its present role and version. *)
Theorem session_needs_password (rq : WebRequest) (w : Console) :
  always (LoginPost secrets ban telegram rq) (λ r _,
    ∀ reply v, r = Ok reply → cookie reply = Some (Keep v) → signed_in v = true →
    not_banned rq w ∧ ∃ id row, users (accounts w) !! id = Some row ∧
      ur_Username row = FormValue rq "username" ∧ ur_IsActive row = true ∧
      CompareHashAndPassword (ur_PasswordHash row) (FormValue rq "password") = true ∧
      ur_TOTPEnabled row = false ∧
      GetUser (returned v) = (ur_Username row, ur_Role row, true) ∧
      (UserID (returned v)).1 = id ∧ (UserVersion (returned v)).1 = ur_SessionVersion row) w.
Proof.
  match goal with |- always _ ?Q _ => set (post := Q) end.
  assert (∀ r w', no_session r → post r w') as Hno.
  { intros r w' Hr reply v Hreply Hc Hs. specialize (Hr reply v Hreply Hc). congruence. }
  assert (∀ (p : prog Console Reply) w', returns no_session p → always p post w') as Hnever.
  { intros p w' Hp. eapply always_mono; [by apply returns_always|]. intros r w''. apply Hno. }
  unfold LoginPost. cbv zeta. apply always_bind.
  eapply always_mono; [apply always_is_banned|]. intros r w1 (Ha & _ & b & -> & Hb). cbn beta iota.
  destruct b.
  { apply Hnever. apply returns_bind; [apply error_no_session|intros _; apply none_no_session]. }
  specialize (Hb eq_refl).
  assert (∀ p : prog Console (), returns no_session (p ≫= λ _, plain_reply (Page "login.html"
    [("Error", "Usuario o contraseña incorrectos"); ("Next", loginNext rq)]))) as Hwrong.
  { intros p. apply returns_bind; [apply error_no_session|intros _; apply none_no_session]. }
  apply always_error. apply always_found; [|intros e; by apply Hnever, Hwrong].
  intros id row u Hr Hn%str_eqb_eq Hu. rewrite Ha in Hr.
  apply scanUser_Ok in Hu as (Hid & Hname & Hhash & Hrole & Hact & Htotp & Hver & _). cbn [fst snd] in *.
  destruct (negb (us_IsActive u)) eqn:Hac; cbn [orb]; [by apply Hnever, Hwrong|].
  destruct (negb (CompareHashAndPassword _ _)) eqn:Hpw; [by apply Hnever, Hwrong|].
  apply negb_false_iff in Hac, Hpw.
  assert (∀ next w', always (first_factor_passed ban telegram rq u next) post w') as Hpass.
  { intros next w'. eapply always_mono; [apply returns_always, returns_first_factor|].
    intros r w'' [Hfor Htf] reply v Hreply Hc Hs.
    destruct (Hfor reply v Hreply Hc Hs) as (Hg & Hi & Hv). split; [done|]. exists id, row.
    split_and!; try congruence.
    destruct (ur_TOTPEnabled row) eqn:He; [|done].
    specialize (Htf ltac:(congruence) reply v Hreply Hc). congruence. }
  apply always_bind. eapply always_mono; [apply returns_always, returns_any|].
  intros [[]|e] w2 _; [apply Hpass|apply Hnever, none_no_session|apply Hpass|apply Hno, error_no_session].
Qed.

(** *** The second factor *)

Definition with_challenges (c : Items) (w : Console) : Console :=
  set_login_state (attempt_log w) (ban_state w) c w.

Lemma always_on_challenges {A} (f : Items → A * Items) (Q : result A → Console → Prop) w :
  Q (Ok (f (challenges w)).1) (with_challenges (f (challenges w)).2 w) →
  always (on_challenges f) Q w.
Proof. intros HQ. apply always_local. by destruct (f (challenges w)). Qed.

Definition same_challenges (w w' : Console) : Prop := challenges w' = challenges w.

#[local] Instance same_challenges_PreOrder : PreOrder same_challenges.
Proof. split; [by intros w|]. unfold same_challenges. intros w1 w2 w3 H12 H23. congruence. Qed.

Lemma sign_in_challenges rq user next : steps same_challenges (sign_in telegram rq user next).
Proof.
  unfold sign_in. destruct (SetUserWithVersion _ _ _ _ _ _ _) as [s [c|e]]; cbn [snd];
    [|apply steps_mret].
  apply steps_bind.
  { apply steps_andThen; [by apply steps_lift_any|intros r; apply steps_mret]. }
  intros _. apply steps_bind.
  { apply steps_andThen; [by apply steps_lift_any|intros r; apply steps_mret]. }
  intros _. apply steps_bind; [|intros _; apply steps_mret].
  unfold notifyAdminLoginSuccess, notifyAdminSecurity. destruct (negb telegram); [apply steps_mret|].
  by apply steps_local.
Qed.

(** The claim of a step, alone. *)
Lemma always_claim id row st (Q : result bool → Console → Prop) w :
  users (accounts w) !! id = Some row →
  (∀ e, Q (Err e) w) →
  (∀ w', challenges w' = challenges w → st ≤ ur_TOTPLastStep row → Q (Ok false) w') →
  (∀ w' row', challenges w' = challenges w → ur_TOTPLastStep row < st →
     users (accounts w') !! id = Some row' → ur_TOTPLastStep row' = st → Q (Ok true) w') →
  always (on_accounts (ClaimUserTOTPStep id st)) Q w.
Proof.
  intros Hr He Hf Ht.
  set (cond := λ (k : Z) (r : UserRow), user_is id k r && (ur_TOTPLastStep r <? st)).
  intros io. cbn [on_accounts lift ClaimUserTOTPStep update_users mbind prog_bind andThen stmt exec].
  destruct (fault io); [apply He|]. cbv zeta. destruct (constraints_hold _); [|apply He].
  cbn [lift andThen mret prog_ret exec].
  assert (length (List.filter (λ r, cond r.1 r.2) (map_to_list (users (accounts w)))) =
    if cond id row then 1%nat else 0%nat) as Hn.
  { apply count_updated; [exact Hr|]. by intros k' x [Hk%user_is_true _]%andb_true_iff. }
  unfold cond in Hn at 1. rewrite Hn, count_one. clear Hn.
  assert (cond id row = (ur_TOTPLastStep row <? st)) as Hc
    by (unfold cond, user_is; by rewrite Z.eqb_refl).
  rewrite Hc. destruct (ur_TOTPLastStep row <? st) eqn:Hlt.
  - apply Z.ltb_lt in Hlt. eapply Ht; [done|done| |].
    + cbn [accounts set_accounts users set_users]. rewrite lookup_update_where, Hr. simpl.
      change (user_is id id row && (ur_TOTPLastStep row <? st)) with (cond id row). by rewrite Hc.
    + done.
  - apply Z.ltb_ge in Hlt. by apply Hf.
Qed.

(** A session that follows the second factor: the challenge is gone, and the account
    keeps its newest step. *)
Lemma always_second_factor_passed rq u next row' w :
  users (accounts w) !! us_ID u = Some row' →
  always (second_factor_passed ban telegram rq u next) (λ r w',
    ∀ reply v, r = Ok reply → cookie reply = Some (Keep v) → signed_in v = true →
    challenges w' !! challengeToken (pending (rq_sess rq)) = None ∧
    (∃ row, users (accounts w') !! us_ID u = Some row ∧
      ur_TOTPLastStep row' ≤ ur_TOTPLastStep row) ∧
    GetUser (returned v) = (us_Username u, us_Role u, true) ∧
    (UserID (returned v)).1 = us_ID u) w.
Proof.
  intros Hr'. unfold second_factor_passed. apply always_bind. eapply always_mono.
  { apply (always_and _ (λ _ w2, via eq w w2) (λ _ w2, same_challenges w w2)).
    - apply (steps_always (via eq)), steps_clear_failures_of; apply _.
    - apply (steps_always same_challenges). unfold clear_failures_of.
      destruct ban; [by apply steps_lift_any|apply steps_mret]. }
  intros [[]|e] w2 [Ha2 Hch2]; [|by intros reply v [=]].
  apply always_bind, always_on_challenges. unfold ConsumePending2FA, consume_section.
  cbn [fst snd]. set (token := challengeToken (pending (rq_sess rq))).
  destruct (match challenges w2 !! token with Some _ => _ | None => _ end); cbn [negb];
    [|apply always_Ret; intros reply v [= <-] Hco; cbn in Hco; discriminate].
  eapply always_mono.
  { apply always_and; [apply returns_always, returns_sign_in|]. apply always_and.
    - apply (steps_always same_challenges), sign_in_challenges.
    - apply (steps_always (via (keeps_factor (us_ID u)))), steps_sign_in. }
  intros r w3 (Hfor & Hch3 & Hk3) reply v Hreply Hco Hs.
  destruct (Hfor reply v Hreply Hco Hs) as (Hg & Hi & _).
  destruct (Hk3 row') as (row3 & Hr3 & _ & Hl3).
  { cbn [accounts with_challenges set_login_state]. unfold via in Ha2. by rewrite <-Ha2. }
  split; [rewrite Hch3; cbn; by rewrite lookup_delete_eq|].
  split; [by exists row3|]. by split.
Qed.

(** C11: a code form is answered with a session only for an unexpired challenge that a
    password opened at the present version of the account, with a try left, and for a
    code of a step that was not used before; the step is then used and the challenge
    gone. *)
Theorem session_needs_code (rq : WebRequest) (w : Console) :
  signed_in (ss_values (rq_sess rq)) = false →
  always (Login2FAPost secrets ban telegram rq) (λ r w',
    ∀ reply v, r = Ok reply → cookie reply = Some (Keep v) → signed_in v = true →
    let token := challengeToken (pending (rq_sess rq)) in
    ∃ c row secret st row', challenges w !! token = Some c ∧
      After (expires c) (rq_now rq) = true ∧ attempts c < 5 ∧ challenges w' !! token = None ∧
      users (accounts w) !! userID c = Some row ∧ version c = ur_SessionVersion row ∧
      ur_IsActive row = true ∧ ur_TOTPEnabled row = true ∧ stored_secret secrets row = Ok secret ∧
      ValidateStep (FormValue rq "code") secret (rq_now rq) = (st, true) ∧
      ur_TOTPLastStep row < st ∧ users (accounts w') !! userID c = Some row' ∧
      st ≤ ur_TOTPLastStep row' ∧
      GetUser (returned v) = (ur_Username row, ur_Role row, true) ∧
      (UserID (returned v)).1 = userID c) w.
Proof.
  intros Hnew. match goal with |- always _ ?Q _ => set (post := Q) end.
  assert (∀ (p : prog Console Reply) w', returns no_session p → always p post w') as Hnever.
  { intros p w' Hp. eapply always_mono; [by apply returns_always|].
    intros r w'' Hr reply v Hreply Hc Hs. specialize (Hr reply v Hreply Hc). congruence. }
  assert (∀ a, returns no_session (ClearPending2FA rq ≫= λ c, mret {| answer := a; cookie := c |}))
    as Hstale.
  { intros a. eapply returns_andThen; [by apply returns_ClearPending2FA|].
    intros [c|e] Hc; [|by intros r v]. intros r v [= <-] Hk. cbn in Hk. by subst c. }
  unfold Login2FAPost, with_pending. apply always_bind, always_on_challenges.
  unfold GetPending2FA, get_section. set (token := challengeToken (pending (rq_sess rq))).
  destruct (challenges w !! token) as [c|] eqn:Hc; cbn [fst snd negb];
    [|apply Hnever, none_no_session].
  destruct (After (expires c) (rq_now rq)) eqn:Hexp; cbn [negb]; [|apply Hnever, none_no_session].
  assert (with_challenges (challenges w) w = w) as -> by (by destruct w).
  cbv zeta. apply always_error, always_found; [|intros e; by apply Hnever].
  intros id row u Hr ->%user_is_true Hu.
  apply scanUser_Ok in Hu as (Hid & Hname & _ & Hrole & Hact & Htotp & Hver & _ & Hsec).
  cbn [fst snd] in *. unfold still_pending.
  destruct (negb _) eqn:Hst; [by apply Hnever|].
  apply negb_false_iff, andb_true_iff in Hst as [[Hac Hen]%andb_true_iff Hv%Z.eqb_eq].
  apply always_bind. eapply always_mono; [apply always_is_banned|].
  intros r w1 (Ha & Hch & b & -> & _). cbn beta iota. destruct b.
  { apply Hnever, returns_bind; [apply error_no_session|intros _; apply none_no_session]. }
  apply always_bind, always_on_challenges. unfold AllowPending2FAAttempt, allow_section.
  fold token. rewrite Hch, Hc, Hexp. cbn [negb orb].
  destruct (5 <=? attempts c) eqn:Htries; cbn [fst snd negb]; [by apply Hnever|].
  apply Z.leb_gt in Htries.
  match goal with |- context [with_challenges ?x w1] => set (ch := x) end.
  destruct (ValidateStep _ _ _) as [st valid] eqn:Hval. destruct valid; cbn [negb];
    [|apply Hnever, returns_bind; [apply error_no_session|intros _; apply none_no_session]].
  apply always_error. rewrite Hid.
  apply (always_claim _ row); [by rewrite <-Ha in Hr|..].
  { intros e. apply Hnever, none_no_session. }
  { intros w' _ _. apply Hnever, returns_bind; [apply error_no_session|intros _; apply none_no_session]. }
  intros w' row' _ Hlt Hr' Hst'. rewrite <-Hid in Hr'.
  eapply always_mono; [by apply always_second_factor_passed|].
  intros r w3 Hend reply v Hreply Hco Hs.
  destruct (Hend reply v Hreply Hco Hs) as (Hch3 & (row3 & Hr3 & Hl3) & Hg & Hi).
  exists c, row, (us_TOTPSecret u), st, row3. rewrite Hid in Hr3.
  split_and!; try (done || congruence || lia).
Qed.
End signin.

(** ** Examples *)

#[export] Program Instance plain_bcrypt : Bcrypt | 100 := {|
  CompareHashAndPassword hash password := bool_decide (hash = "h:" +:+ password);
  GenerateFromPassword salt password :=
    if 72 <? str_len password then Err (ErrMsg "bcrypt: password length exceeds 72 bytes")
    else Ok ("h:" +:+ password) |}.
Next Obligation.
  intros salt password hash. simpl. destruct (72 <? str_len password); [done|]. intros [= <-].
  by apply bool_decide_eq_true.
Qed.

Module ConsoleExamples.
Definition secret : string := Totp.EncodeToString "secret".

Definition user_row (name role : string) (totp : bool) : UserRow := {|
  ur_Username := name; ur_PasswordHash := "h:pw-" +:+ name; ur_Role := role; ur_IsActive := true;
  ur_CreatedAt := 0; ur_LastLoginAt := None; ur_LastLoginIP := None; ur_TOTPEnabled := totp;
  ur_TOTPSecret := if totp then secret else ""; ur_TOTPConfirmedAt := None;
  ur_TOTPGraceStartedAt := None; ur_TOTPLastStep := 0; ur_SessionVersion := 1 |}.

(** An administrator with a second factor and a reader without. *)
Definition team : Accounts := {|
  users := {[1 := user_row "ana" "admin" true; 2 := user_row "leo" "reader" false]};
  last_user := 2; push_owners := {[7 := 2]}; telegram_owners := ∅; revoked := ∅ |}.

Definition start : Console := {|
  accounts := team; attempt_log := {| log_rows := []; log_last := 0 |};
  ban_state := Build_Bans ∅ ∅; challenges := ∅; code_attempts := ∅;
  password_failures := ∅; notices := {| lastByIP := ∅; sent := []; suppressed := 0 |};
  outbox := []; audit_rows := []; email_cfg := Ok defaultEmailConfig |}.

Definition request (v : Values) (form : list (string * string)) (now : Time) (raw : list Z) :
    WebRequest := {|
  rq_sess := returned v; rq_ip := "198.51.100.1"; rq_agent := "test"; rq_details := "{}";
  rq_form := list_to_map form; rq_id := ""; rq_get := false; rq_uri := "/login"; rq_json := false;
  rq_refused := "/"; rq_now := now; rq_raw := Ok raw; rq_saved := Ok () |}.

Definition password_form (name : string) : list (string * string) :=
  [("username", name); ("password", "pw-" +:+ name); ("next", "/alerts")].

Definition hammer : option Config := Some ex_config.

Definition leo_login : result Reply * Console :=
  run (LoginPost None hammer true (request ∅ (password_form "leo") (100 * Second) [1])) start.

Definition ana_password : result Reply * Console :=
  run (LoginPost None hammer true (request ∅ (password_form "ana") (100 * Second) [2])) start.

Definition cookie_of (r : result Reply) : Values :=
  match r with Ok {| cookie := Some (Keep v) |} => v | _ => ∅ end.

(** The code of the step of the clock, with the challenge of [ana_password]. *)
Definition code_request (now : Time) (raw : Z) : WebRequest :=
  request (cookie_of ana_password.1) [("code", generateCode "secret" 3)] now [raw].

Definition ana_login : result Reply * Console :=
  run (Login2FAPost None hammer true (code_request (110 * Second) 3)) ana_password.2.

Definition target_of (r : result Reply) : string :=
  match r with Ok {| answer := Redirect t |} => t | _ => "" end.
End ConsoleExamples.


Lemma session_needs_password_witness :
  signed_in (ConsoleExamples.cookie_of ConsoleExamples.leo_login.1) = true ∧
  ∃ row, users ConsoleExamples.team !! 2 = Some row ∧ ur_TOTPEnabled row = false ∧
    CompareHashAndPassword (ur_PasswordHash row) "pw-leo" = true.
Proof.
  assert (signed_in (ConsoleExamples.cookie_of ConsoleExamples.leo_login.1) = true) as Hs
    by (vm_compute; reflexivity).
  assert ((UserID (returned (ConsoleExamples.cookie_of ConsoleExamples.leo_login.1))).1 = 2) as Hu
    by (vm_compute; reflexivity).
  split; [exact Hs|].
  pose proof (always_run _ _ _ (session_needs_password None ConsoleExamples.hammer true
    (ConsoleExamples.request ∅ (ConsoleExamples.password_form "leo") (100 * Second) [1])
    ConsoleExamples.start)) as Hneeds.
  change (run _ ConsoleExamples.start) with ConsoleExamples.leo_login in Hneeds.
  destruct ConsoleExamples.leo_login as [[[a [[v|]|]]|e] w'] eqn:Hl; try discriminate Hs.
  cbn [fst snd ConsoleExamples.cookie_of] in *.
  destruct (Hneeds _ v eq_refl eq_refl Hs) as (_ & id & row & Hr & _ & _ & Hpw & Ht & _ & Hid & _).
  rewrite Hu in Hid. subst id. by exists row.
Defined.

Lemma session_needs_code_witness :
  signed_in (ConsoleExamples.cookie_of ConsoleExamples.ana_login.1) = true ∧
  challenges ConsoleExamples.ana_password.2 ≠ ∅ ∧
  ∃ row, users (accounts ConsoleExamples.ana_login.2) !! 1 = Some row ∧ 3 ≤ ur_TOTPLastStep row.
Proof.
  assert (signed_in (ConsoleExamples.cookie_of ConsoleExamples.ana_login.1) = true) as Hs
    by (vm_compute; reflexivity).
  assert ((UserID (returned (ConsoleExamples.cookie_of ConsoleExamples.ana_login.1))).1 = 1) as Hu
    by (vm_compute; reflexivity).
  assert (ValidateStep (generateCode "secret" 3) ConsoleExamples.secret (110 * Second) = (3, true))
    as Hval by (vm_compute; reflexivity).
  split; [exact Hs|]. split; [vm_compute; discriminate|].
  pose proof (always_run _ _ _ (session_needs_code None ConsoleExamples.hammer true
    (ConsoleExamples.code_request (110 * Second) 3) ConsoleExamples.ana_password.2
    ltac:(vm_compute; reflexivity))) as Hneeds.
  change (run _ ConsoleExamples.ana_password.2) with ConsoleExamples.ana_login in Hneeds.
  destruct ConsoleExamples.ana_login as [[[a [[v|]|]]|e] w'] eqn:Hl; try discriminate Hs.
  cbn [fst snd ConsoleExamples.cookie_of] in *.
  destruct (Hneeds _ v eq_refl eq_refl Hs) as
    (c & row & sec & st & row' & _ & _ & _ & _ & Hr & _ & _ & _ & Hsec & Hv & _ & Hr' & Hst & _ & Hid).
  rewrite Hu in Hid. rewrite <-Hid in Hr, Hr'. exists row'. split; [exact Hr'|].
  assert (sec = ConsoleExamples.secret) as ->.
  { assert (users (accounts ConsoleExamples.ana_password.2) !! 1 =
      Some (ConsoleExamples.user_row "ana" "admin" true)) as Hana by (vm_compute; reflexivity).
    rewrite Hana in Hr. injection Hr as <-. vm_compute in Hsec. vm_compute. congruence. }
  assert (FormValue (ConsoleExamples.code_request (110 * Second) 3) "code" = generateCode "secret" 3)
    as Hform by (vm_compute; reflexivity).
  rewrite Hform in Hv. change (rq_now _) with (110 * Second) in Hv. rewrite Hval in Hv.
  by injection Hv as <-.
Defined.

(** Two browsers present the code at the same time. *)
Definition rival_codes (n : nat) : LoginRequest :=
  Post2FA (ConsoleExamples.code_request (110 * Second) (3 + Z.of_nat n)).
Definition code_turns : list (nat * list (option error)) :=
  concat (repeat [(0%nat, []); (1%nat, [])] 12).
Definition code_race : pool (T := Console) Reply :=
  (run_pool code_turns (λ n, serve_login None ConsoleExamples.hammer true (rival_codes n))
    ConsoleExamples.ana_password.2).1.

Lemma issues_cookie uid r :
  signed_in (ConsoleExamples.cookie_of r) = true →
  (UserID (returned (ConsoleExamples.cookie_of r))).1 = uid → issues uid r.
Proof.
  destruct r as [[a [[v|]|]]|e]; intros Hs Hu; try discriminate Hs.
  by exists {| answer := a; cookie := Some (Keep v) |}, v.
Qed.

Lemma race_answer (P : result Reply → Prop) (o : option (result Reply)) r :
  P (default (Err (ErrMsg "")) o) → o = Some r → P r.
Proof. by intros HP ->. Qed.

Lemma code_used_once_witness :
  ∃ r1 r2, code_race 0%nat = Ret r1 ∧ code_race 1%nat = Ret r2 ∧ issues 1 r1 ∧ ¬ issues 1 r2.
Proof.
  destruct (finished (code_race 0%nat)) as [r1|] eqn:H1; [|vm_compute in H1; discriminate H1].
  destruct (finished (code_race 1%nat)) as [r2|] eqn:H2; [|vm_compute in H2; discriminate H2].
  exists r1, r2. split; [by apply finished_Some|]. split; [by apply finished_Some|].
  assert (issues 1 r1) as Hi.
  { apply issues_cookie; [revert H1; apply (race_answer (λ r, signed_in (ConsoleExamples.cookie_of r) = true))
      |revert H1; apply (race_answer (λ r, (UserID (returned (ConsoleExamples.cookie_of r))).1 = 1))];
      vm_compute; reflexivity. }
  split; [exact Hi|].
  refine (code_used_once None ConsoleExamples.hammer true 1 3
    (ConsoleExamples.user_row "ana" "admin" true) ConsoleExamples.secret rival_codes code_turns
    ConsoleExamples.ana_password.2 0 1 _ _ r1 r2 _ _ eq_refl eq_refl _ _ _ _ Hi).
  - vm_compute; reflexivity.
  - vm_compute; reflexivity.
  - done.
  - intros rq [->|[->|[]%elem_of_nil]%elem_of_cons]%elem_of_cons; split; vm_compute; reflexivity.
  - by apply finished_Some.
  - by apply finished_Some.
Defined.
