(* ===== verification/Admission.v ===== *)
(** * When a session ends

    A session that was closed, by a logout or by a change of its account, is turned
    away by [RequireLogin] for as long as its cookie lives, whatever other requests the
    server handles at the same time; and only active administrators reach the pages of
    administrators. *)
From Stdlib Require Import Ascii.
From S2P Require Import Prelude GoStrings GoUtf8 GoJson GoNum GoTime GoNetip GoUrl Domain Sql Interleave Frames Banhammer Limiter Challenges Secrets Relational Schema Servers Removal Retention Users Totp Session Login Middleware UserAdmin Access Signin.

(** ** What every request keeps *)

(** Numbers of accounts are not given twice, versions never go back, and, where a second
    [D] is given, an entry of a closed session that lives until then stays. *)
Record closing (D : option Z) (t t' : Accounts) : Prop := {
  cl_last : last_user t ≤ last_user t';
  cl_rows : ∀ id row', users t' !! id = Some row' → id ≤ last_user t →
    ∃ row, users t !! id = Some row ∧ ur_SessionVersion row ≤ ur_SessionVersion row';
  cl_revoked : ∀ d h e, D = Some d → revoked t !! h = Some e → d ≤ e →
    ∃ e', revoked t' !! h = Some e' ∧ d ≤ e' }.

#[export] Instance closing_PreOrder D : PreOrder (closing D).
Proof.
  split.
  - intros t. split; [lia| |by eauto]. intros id row Hr _. exists row. split; [done|lia].
  - intros t1 t2 t3 [L12 R12 V12] [L23 R23 V23]. split; [lia| |].
    + intros id row3 Hr3 Hid. destruct (R23 id row3 Hr3 ltac:(lia)) as (row2 & Hr2 & Hv2).
      destruct (R12 id row2 Hr2 Hid) as (row1 & Hr1 & Hv1). exists row1. split; [done|lia].
    + intros d h e Hd He HD. destruct (V12 d h e Hd He HD) as (e2 & He2 & HD2). by eapply V23.
Qed.

(** The sessions of an account at a version and before. *)
Definition outdated (id ver : Z) (t : Accounts) : Prop :=
  id ≤ last_user t ∧ ∀ row, users t !! id = Some row → ver < ur_SessionVersion row.

Section closing.
Context `{!Crypto, !Hmac, !Bcrypt, !SqlOrder}.
Context (secrets : option Box) (ban : option Config) (telegram : bool).

Definition logged_out (D : option Z) (sid : string) (t : Accounts) : Prop :=
  ∃ d e, D = Some d ∧ revoked t !! sessionIDHash sid = Some e ∧ d ≤ e.

(** A session that was closed: its account is at a later version or gone, or its
    identifier is listed. *)
Definition closed (D : option Z) (s : Sess) (w : Console) : Prop :=
  outdated (UserID s).1 (UserVersion s).1 (accounts w) ∨ logged_out D (ID s).1 (accounts w).

Context (D : option Z).
Notation R := (via (closing D)).

Lemma closed_later s w w' : R w w' → closed D s w → closed D s w'.
Proof.
  intros [HL HR HV] [[Hid Hv]|(d & e & Hd & He & HD)].
  - left. split; [lia|]. intros row' Hr'. destruct (HR _ row' Hr' Hid) as (row & Hr & Hle).
    specialize (Hv row Hr). lia.
  - right. destruct (HV d _ e Hd He HD) as (e' & He' & HD'). by exists d, e'.
Qed.

Lemma closing_rows t m :
  (∀ id row', m !! id = Some row' → ∃ row, users t !! id = Some row ∧
     ur_SessionVersion row ≤ ur_SessionVersion row') →
  closing D t (set_users m t).
Proof. intros Hm. split; [done|intros id row' Hr _; by apply Hm|by eauto]. Qed.

Lemma closing_update cond f :
  (∀ r, ur_SessionVersion r ≤ ur_SessionVersion (f r)) →
  steps (closing D) (update_users cond f).
Proof.
  intros Hf. apply steps_update_users. intros t _. apply closing_rows. intros id row' Hr.
  rewrite lookup_update_where in Hr. apply fmap_Some in Hr as (row & Hr & ->). exists row.
  split; [done|]. case_match; [apply Hf|lia].
Qed.

Lemma closing_unit cond f :
  (∀ r, ur_SessionVersion r ≤ ur_SessionVersion (f r)) →
  steps R (on_accounts (update_users cond f ≫= λ _, mret ())).
Proof.
  intros Hf. apply steps_on_accounts, steps_bind; [by apply closing_update|].
  intros n. apply steps_mret.
Qed.

Lemma closing_push id t : closing D t (delete_push id t).
Proof. by split; [|intros i row Hr _; exists row; split; [done|lia]|eauto]. Qed.

Ltac versions := intros ?; unfold clear_factor, set_active, set_grace, with_identity, with_factor, with_usage, next_version; simpl; lia.

Lemma closing_last_login now id ip : steps R (on_accounts (UpdateUserLastLogin now id ip)).
Proof. apply closing_unit. versions. Qed.

Lemma closing_username id n : steps R (on_accounts (UpdateUserUsername id n)).
Proof. apply closing_unit. versions. Qed.

Lemma closing_password id h : steps R (on_accounts (UpdateUserPassword id h)).
Proof. apply closing_unit. versions. Qed.

Lemma closing_role id r : steps R (on_accounts (UpdateUserRole id r)).
Proof. apply closing_unit. versions. Qed.

Lemma closing_enable now nonce id s : steps R (on_accounts (EnableUserTOTP secrets now nonce id s)).
Proof.
  unfold EnableUserTOTP. destruct (match secrets with None => _ | Some _ => _ end).
  - apply closing_unit. versions.
  - apply steps_on_accounts, steps_fail.
Qed.

Lemma closing_disable id : steps R (on_accounts (DisableUserTOTP id)).
Proof. apply closing_unit. versions. Qed.

Lemma closing_grace now id : steps R (on_accounts (StartUserTOTPGrace now id)).
Proof. apply closing_unit. versions. Qed.

Lemma closing_claim id st : steps R (on_accounts (ClaimUserTOTPStep id st)).
Proof.
  apply steps_on_accounts, steps_bind; [|intros n; apply steps_mret]. apply closing_update. versions.
Qed.

Lemma closing_active id b : steps R (on_accounts (SetUserActive id b)).
Proof.
  apply steps_on_accounts, steps_tx, steps_bind; [apply closing_update; versions|].
  intros n. destruct b; [apply steps_mret|]. apply steps_exec_sql, closing_push.
Qed.

Lemma closing_toggle id : steps R (on_accounts (ToggleUser id)).
Proof.
  apply steps_on_accounts, steps_tx, steps_bind; [apply closing_update; versions|].
  intros n. apply steps_exec_sql. intros t. destruct (users t !! id) as [r|]; [|reflexivity].
  destruct (ur_IsActive r); [reflexivity|apply closing_push].
Qed.

Lemma closing_delete id : steps R (on_accounts (DeleteUser id)).
Proof.
  apply steps_on_accounts, steps_exec_sql. intros t. split; [done| |by eauto].
  cbv zeta. cbn [users set_users]. intros k row Hr _. apply lookup_delete_Some in Hr as [_ Hr]. exists row. split; [done|lia].
Qed.

Lemma closing_create now n h r : steps R (on_accounts (CreateUser now n h r)).
Proof.
  apply steps_on_accounts, steps_stmt. intros t id t'. cbv zeta. case_match; [|done].
  intros [= _ <-]. split; cbn [last_user users revoked]; [lia| |by eauto].
  intros k row' Hr Hk. rewrite lookup_insert_ne in Hr by lia. exists row'. split; [done|lia].
Qed.

Lemma closing_last_admin id : steps R (on_accounts (IsLastActiveAdmin id)).
Proof. apply steps_on_accounts, steps_query, _. Qed.

Lemma closing_revoked sid : steps R (on_accounts (IsSessionRevoked sid)).
Proof. apply steps_on_accounts, steps_query, _. Qed.

(** The clock of a request, while the entry is to stay. *)
Definition in_time (now : Time) : Prop :=
  ∀ d, D = Some d → Unix now ≤ d ≤ Unix (AddDur now Lifetime).

Lemma closing_revoke now sid :
  in_time now → steps R (on_accounts (RevokeSession now sid (AddDur now Lifetime))).
Proof.
  intros Ht. apply steps_on_accounts, steps_bind; [|intros _]; apply steps_exec_sql; intros t.
  - split; [done|intros id row Hr _; exists row; split; [done|lia]|]. intros d h e Hd Hh HD. exists e.
    destruct (Ht d Hd) as [Hn He].
    cbn [revoked set_revoked]. rewrite lookup_delete_where, Hh. simpl.
    rewrite (proj2 (Z.ltb_ge e (Unix now))) by lia. done.
  - split; [done|intros id row Hr _; exists row; split; [done|lia]|]. intros d h e Hd Hh HD.
    destruct (Ht d Hd) as [Hn He]. cbn [revoked set_revoked]. destruct (decide (h = sessionIDHash sid)) as [->|Hne].
    + rewrite lookup_insert_eq. eauto.
    + rewrite lookup_insert_ne by done. eauto.
Qed.

Hint Resolve closing_last_login closing_username closing_password closing_role closing_enable
  closing_disable closing_grace closing_claim closing_active closing_toggle closing_delete
  closing_create closing_last_admin closing_revoked closing_revoke : probak.

(** ** Every request *)

Lemma closing_sign_in rq user next : steps R (sign_in telegram rq user next).
Proof.
  unfold sign_in, notifyAdminLoginSuccess.
  destruct (SetUserWithVersion _ _ _ _ _ _ _) as [s [c|e]]; cbn [snd]; walk.
Qed.

Lemma closing_enforcement rq user : steps R (handleTOTPEnforcement telegram rq user).
Proof. unfold handleTOTPEnforcement. walk. Qed.

Lemma closing_LoginPost rq : steps R (LoginPost secrets ban telegram rq).
Proof.
  unfold LoginPost, GetUserByUsername, first_factor_passed. pose proof closing_enforcement.
  pose proof closing_sign_in. walk.
Qed.

Lemma closing_with_pending rq k :
  (∀ user next, steps R (k user next)) → steps R (with_pending secrets rq k).
Proof. intros Hk. unfold with_pending, Users.GetUser. walk. Qed.

Definition request_of (req : LoginRequest) : WebRequest :=
  match req with PostLogin rq | Get2FA rq | Post2FA rq | PostLogout rq => rq end.

Lemma closing_login req :
  in_time (rq_now (request_of req)) → steps R (serve_login secrets ban telegram req).
Proof.
  intros Ht. destruct req as [rq|rq|rq|rq]; cbn [serve_login request_of] in *.
  - apply closing_LoginPost.
  - apply closing_with_pending. intros user next. apply steps_mret.
  - apply closing_with_pending. intros user next. unfold second_factor_passed.
    pose proof closing_sign_in. cbv zeta. walk.
  - unfold Logout. cbv zeta. walk.
Qed.

Lemma closing_keep_cookie c p : steps R p → steps R (keep_cookie c p).
Proof. intros Hp. apply steps_bind; [done|intros r; apply steps_mret]. Qed.

Lemma closing_admit rq next user role :
  (∀ rq', steps R (next rq')) → steps R (let_in rq next user role).
Proof.
  intros Hn. pose proof closing_keep_cookie.
  assert (steps R (userNeedsTOTPEnforcement (rq_now rq) user)) as Hneeds
    by (unfold userNeedsTOTPEnforcement; walk).
  unfold let_in. cbv zeta. walk.
Qed.

Lemma closing_RequireLogin next rq :
  (∀ rq', steps R (next rq')) → steps R (RequireLogin secrets next rq).
Proof.
  intros Hn. pose proof (closing_admit rq next). unfold RequireLogin, Users.GetUser. cbv zeta. walk.
Qed.

Lemma closing_sensitive next rq :
  (∀ rq', steps R (next rq')) → steps R (RequireTOTPForSensitiveAction secrets next rq).
Proof.
  intros Hn. pose proof closing_keep_cookie.
  unfold RequireTOTPForSensitiveAction, GetUserByUsername, code_required. cbv zeta. walk.
  all: try (apply steps_local; intros w; unfold AllowKey;
    destruct (allow _ _ _ (code_attempts w)); unfold via; reflexivity).
Qed.

Lemma closing_role_gate roles next rq :
  (∀ rq', steps R (next rq')) → steps R (require_role roles next rq).
Proof. intros Hn. unfold require_role. walk. Qed.

Lemma closing_check_password rq user pw : steps R (checkCurrentPassword rq user pw).
Proof.
  unfold checkCurrentPassword. apply steps_bind.
  - apply steps_local. intros w. unfold via. reflexivity.
  - intros b. walk.
Qed.

Lemma closing_own_change rq id m : steps R (redirectAfterOwnSecurityChange secrets rq id m).
Proof. unfold redirectAfterOwnSecurityChange, Users.GetUser. cbv zeta. walk. Qed.

Lemma closing_for_user rq back k :
  (∀ u, steps R (k u)) → steps R (for_user secrets rq back k).
Proof. intros Hk. unfold for_user, Users.GetUser, redirectWithFlash. walk. Qed.

Lemma closing_for_me rq k : (∀ u, steps R (k u)) → steps R (for_me secrets rq k).
Proof. intros Hk. unfold for_me, GetUserByUsername. walk. Qed.

Lemma closing_attempt {A} (p : prog Accounts A) back m k :
  steps R (on_accounts p) → (∀ a, steps R (k a)) → steps R (attempt p back m k).
Proof. intros Hp Hk. unfold attempt, redirectWithFlash. walk. Qed.

(** The routes of [UserAdmin], behind their middlewares. *)
Lemma closing_account route rq : steps R (serve_account secrets telegram route rq).
Proof.
  pose proof (λ u m, closing_own_change rq u m). pose proof closing_check_password.
  destruct route; cbn [serve_account]; apply closing_RequireLogin; intros rq1;
    try (apply closing_role_gate; intros rq2); try (apply closing_sensitive; intros rq3).
  - unfold CreateUserPost, notifyAdminUserCreated, redirectWithFlash. cbv zeta. walk.
  - unfold ChangeUsernamePost, redirectWithFlash, signed_out. cbv zeta. walk.
    apply closing_for_user. intros u. apply closing_attempt; walk.
  - unfold ChangePasswordPost, redirectWithFlash, signed_out. cbv zeta. walk.
    apply closing_for_user. intros u. walk. apply closing_attempt; walk.
  - unfold DisableUser2FAPost, redirectWithFlash. cbv zeta.
    apply closing_for_user. intros u. apply closing_attempt; walk.
  - unfold ChangeRolePost, redirectWithFlash. cbv zeta. walk.
    apply closing_for_user. intros u. walk. apply closing_attempt; walk.
  - unfold ToggleUserPost, redirectWithFlash. cbv zeta.
    apply closing_for_user. intros u. walk. apply closing_attempt; walk.
  - unfold DeleteUserPost, redirectWithFlash. cbv zeta.
    apply closing_for_user. intros u. walk. apply closing_attempt; walk.
  - unfold ProfilePost, redirectWithFlash. apply closing_for_me. intros u. cbv zeta. walk.
    apply closing_attempt; walk. apply closing_own_change.
  - unfold Profile2FASetup, redirectWithFlash. apply closing_for_me. intros u. walk.
  - unfold Profile2FAConfirm, redirectWithFlash. apply closing_for_me. intros u. walk.
    apply closing_attempt; walk. apply closing_own_change.
  - unfold Profile2FADisable, redirectWithFlash. apply closing_for_me. intros u. walk.
    apply closing_attempt; walk. apply closing_own_change.
Qed.
End closing.

(** ** Sessions that were closed *)

Inductive ConsoleRequest : Type :=
| AtLogin (req : LoginRequest)
| AtAccounts (route : Route) (rq : WebRequest).

Definition clock (req : ConsoleRequest) : Time :=
  rq_now (match req with AtLogin req => request_of req | AtAccounts _ rq => rq end).

(** The answers to a session that is not valid. *)
Definition turned_away (r : result Reply) : Prop :=
  ∃ reply, r = Ok reply ∧ (cookie reply = None ∨ cookie reply = Some Remove) ∧
    match answer reply with
    | Redirect target => HasPrefix target "/login" = true
    | HttpError code _ => code = 503
    | Page _ _ => False
    end.

Section admission.
Context `{!Crypto, !Hmac, !Bcrypt, !SqlOrder}.
Context (secrets : option Box) (ban : option Config) (telegram : bool).

Definition serve_console (req : ConsoleRequest) : prog Console Reply :=
  match req with
  | AtLogin req => serve_login secrets ban telegram req
  | AtAccounts route rq => serve_account secrets telegram route rq
  end.

Lemma closing_console D req :
  in_time D (clock req) → steps (via (closing D)) (serve_console req).
Proof. destruct req; [apply closing_login|intros _; apply closing_account]. Qed.

Lemma returns_Clear rq :
  returns (λ r, r = Ok None ∨ r = Ok (Some Remove)) (Clear rq).
Proof.
  unfold Clear. eapply returns_andThen.
  - assert (returns (λ r : result (), r = Ok ()) (on_challenges (λ items, ((),
      discardChallenge (pending (rq_sess rq)) items)))) as Hr by (intros []; done). exact Hr.
  - intros r ->. destruct (rq_saved rq); [by right|by left].
Qed.

Lemma returns_sign_out rq target :
  HasPrefix target "/login" = true → returns turned_away (sign_out rq target).
Proof.
  intros Ht. eapply returns_andThen; [apply returns_Clear|].
  intros r [->| ->]; eexists; (split; [done|]); split; auto.
Qed.

Lemma guar_returns D (p : prog Console Reply) w :
  steps (via (closing D)) p → returns turned_away p →
  guar (via (closing D)) p (λ r _, turned_away r) w.
Proof. apply returns_guar, _. Qed.

Lemma away_redirect target : HasPrefix target "/login" = true → returns turned_away (plain_reply (Redirect target)).
Proof. intros Ht. eexists. split; [done|]. split; [by left|done]. Qed.

Lemma away_unavailable text : returns turned_away (plain_reply (HttpError 503 text)).
Proof. eexists. split; [done|]. split; [by left|done]. Qed.

Lemma guar_closed D next rq w :
  closed D (rq_sess rq) w →
  guar (via (closing D)) (RequireLogin secrets next rq) (λ r _, turned_away r) w.
Proof.
  intros Hclosed. unfold RequireLogin.
  assert (∀ target s, HasPrefix target "/login" = true →
    guar (via (closing D)) (sign_out rq target) (λ r _, turned_away r) s) as Hout.
  { intros target s Ht. apply guar_returns; [apply steps_sign_out, _|by apply returns_sign_out]. }
  assert (∀ target s, HasPrefix target "/login" = true →
    guar (via (closing D)) (plain_reply (Redirect target)) (λ r _, turned_away r) s) as Hto.
  { intros target s Ht. apply guar_returns; [apply steps_mret|by apply away_redirect]. }
  destruct (GetUser (rq_sess rq)) as [[username role] ok].
  destruct ok; cbn [negb]; [|apply Hto; unfold login_target; by destruct (rq_get rq)].
  pose proof Hclosed as Hc0. unfold closed in Hclosed.
  destruct (UserID (rq_sess rq)) as [uid hasID]. cbn [fst] in Hclosed. cbv zeta.
  eapply (guar_andThen _ _ _ _ (λ r s, ∀ u, r = Ok u → ∃ s0, via (closing D) w s0 ∧
    via (closing D) s0 s ∧ ∃ row, users (accounts s0) !! uid = Some row ∧
    us_SessionVersion u = ur_SessionVersion row)).
  { apply guar_found; [apply _| |by intros e s _ u [=]].
    intros s s' u id row Hs Hs' Hr ->%user_is_true Hu u' [= <-]. exists s. split; [done|].
    split; [done|]. exists row. split; [done|].
    destruct (scanUser_Ok _ _ _ Hu) as (_ & _ & _ & _ & _ & _ & Hv & _). exact Hv. }
  intros [u|e] s Hs Hu; [|by apply Hout].
  destruct (negb hasID || _ || _); [by apply Hout|].
  destruct (UserVersion (rq_sess rq)) as [ver hasVersion] eqn:Hver. cbn [fst] in Hclosed.
  destruct (negb hasVersion || negb (ver =? us_SessionVersion u)) eqn:Hsame; [by apply Hout|].
  apply orb_false_iff in Hsame as [_ Hsame%negb_false_iff%Z.eqb_eq].
  destruct (ID (rq_sess rq)) as [sid hasSID]. cbn [fst] in Hclosed.
  destruct hasSID; cbn [negb]; [|by apply Hout].
  destruct (Hu u eq_refl) as (s0 & Hs0 & _ & row & Hr & Hrv).
  destruct Hclosed as [[Hid Hold]|Hlisted].
  { destruct Hs0 as [_ HR _]. destruct (HR uid row Hr Hid) as (row0 & Hr0 & Hle).
    specialize (Hold row0 Hr0). lia. }
  eapply (guar_andThen _ _ _ _ (λ r s, ∀ b, r = Ok b → b = true)).
  { apply (guar_stmt (via (closing D))); [|done]. intros s1 Hs1. cbn. split.
    - destruct s1. reflexivity.
    - intros _ _ b [= <-]. apply bool_decide_eq_true.
      destruct Hlisted as (d & x & Hd & Hx & HD). destruct (transitivity Hs Hs1) as [_ _ HV].
      destruct (HV d _ x Hd Hx HD) as (x' & Hx' & _). by exists x'. }
  intros [b|e] s1 _ Hb; [|apply guar_returns; [apply steps_mret|apply away_unavailable]].
  rewrite (Hb b eq_refl). by apply Hout.
Qed.

(** C12: a session that was closed is turned away, without being given a cookie, by every
    page behind [RequireLogin], in any interleaving with the other requests of the
    console and whatever of them fails; one closed by a change of its account for ever,
    one closed by a logout until its cookie expires. *)
Theorem closed_session_turned_away (D : option Z) (reqs : nat → ConsoleRequest)
    (sched : list (nat * list (option error))) (w : Console) (i : nat) (next : Handler)
    (rq : WebRequest) (r : result Reply) :
  closed D (rq_sess rq) w → (∀ n, in_time D (clock (reqs n))) →
  let ps n := if decide (n = i) then RequireLogin secrets next rq else serve_console (reqs n) in
  (run_pool sched ps w).1 i = Ret r → turned_away r.
Proof.
  intros Hc Ht ps Hr.
  destruct (run_pool_guar (via (closing D)) (λ n r _, n = i → turned_away r) sched ps w)
    as [_ Hdone]; [|by eapply Hdone].
  intros n. unfold ps. destruct (decide (n = i)) as [->|Hne].
  - eapply guar_weaken; [apply _|by apply guar_closed|]. auto.
  - eapply guar_weaken; [apply _|apply steps_respects; [apply _|by apply closing_console]|].
    intros r' u _ _ ->. done.
Qed.
End admission.

(** ** What closes a session *)

(** The changes of an account that end its sessions. *)
Inductive change_of_account : Type :=
| NewUsername (username : string)
| NewPassword (hash : string)
| NewRole (role : string)
| NewFactor (now : Time) (nonce : result string) (secret : string)
| NoFactor
| NewState (active : bool)
| OtherState
| Deletion.

Section changes.
Context `{!Crypto, !Hmac, !Bcrypt, !SqlOrder}.
Context (secrets : option Box).

Definition change_prog (id : Z) (c : change_of_account) : prog Accounts () :=
  match c with
  | NewUsername n => UpdateUserUsername id n
  | NewPassword h => UpdateUserPassword id h
  | NewRole r => UpdateUserRole id r
  | NewFactor now nonce s => EnableUserTOTP secrets now nonce id s
  | NoFactor => DisableUserTOTP id
  | NewState b => SetUserActive id b
  | OtherState => ToggleUser id
  | Deletion => DeleteUser id
  end.

(** The row of [id] has moved to its next version, or is gone. *)
Definition moved_on (id : Z) (row : UserRow) (t t' : Accounts) : Prop :=
  last_user t' = last_user t ∧
  ∀ row', users t' !! id = Some row' → ur_SessionVersion row' = ur_SessionVersion row + 1.

Lemma always_moved_update id row f t (Q : result Z → Accounts → Prop) :
  users t !! id = Some row → (∀ e, Q (Err e) t) →
  (∀ n t', moved_on id row t t' → Q (Ok n) t') →
  (∀ r, ur_SessionVersion (f r) = ur_SessionVersion r + 1) →
  always (update_users (user_is id) f) Q t.
Proof.
  intros Hr He Hok Hf. apply always_stmt; [done|]. intros n t'. cbv zeta. case_match; [|done].
  intros [= _ <-]. apply Hok. split; [done|]. cbn [users set_users]. intros row'.
  rewrite lookup_update_where, Hr. simpl. unfold user_is. rewrite Z.eqb_refl. intros [= <-]. apply Hf.
Qed.

Lemma moved_push id row t t' k : moved_on id row t t' → moved_on id row t (delete_push k t').
Proof. done. Qed.

Lemma outdated_moved id row t t' ver :
  moved_on id row t t' → id ≤ last_user t → ver ≤ ur_SessionVersion row → outdated id ver t'.
Proof. intros [HL HR] Hid Hv. split; [lia|]. intros row' Hr'. rewrite (HR row' Hr'). lia. Qed.

Lemma always_tx {T A} (p : prog T A) (Q : result A → T → Prop) t :
  (∀ e, Q (Err e) t) → always p (λ r t', match r with Ok a => Q (Ok a) t' | Err _ => True end) t →
  always (tx p) Q t.
Proof.
  intros He Hp io. cbn [tx exec]. destruct (fault io); [apply He|]. specialize (Hp (tail io)).
  destruct (exec p (tail io) t) as [[[a|e] t'] io']; [|apply He]. cbn [negb].
  destruct (fault io'); [apply He|done].
Qed.

(** C13: a change of the name, the password, the role, the second factor or the state of
    an account that succeeds, or its deletion, closes every session it has. *)
Theorem change_closes_sessions (id : Z) (c : change_of_account) (row : UserRow)
    (s : Sess) (w : Console) :
  users (accounts w) !! id = Some row → id ≤ last_user (accounts w) →
  (UserID s).1 = id → (UserVersion s).1 ≤ ur_SessionVersion row →
  always (change_prog id c) (λ r t', r = Ok () → closed None s (set_accounts t' w)) (accounts w).
Proof.
  intros Hr Hid Hs Hv.
  assert (∀ t', moved_on id row (accounts w) t' → closed None s (set_accounts t' w)) as Hclosed.
  { intros t' Hm. left. rewrite Hs. by eapply outdated_moved. }
  assert (∀ f, (∀ r, ur_SessionVersion (f r) = ur_SessionVersion r + 1) →
    always (update_users (user_is id) f ≫= λ _, mret ())
      (λ r t', r = Ok () → closed None s (set_accounts t' w)) (accounts w)) as Hupd.
  { intros f Hf. apply always_bind. eapply always_moved_update; [done|done| |done].
    intros n t' Hm. apply always_Ret. intros _. by apply Hclosed. }
  destruct c as [n|h|r|now nonce sec| |b| |]; cbn [change_prog]; try (by apply Hupd).
  - unfold EnableUserTOTP. destruct (match secrets with None => _ | Some _ => _ end);
      [by apply Hupd|by apply always_Ret].
  - apply always_tx; [done|]. apply always_bind.
    eapply always_moved_update; [done|done| |done]. intros n t' Hm.
    destruct b; [apply always_Ret; intros _; by apply Hclosed|].
    apply always_stmt; [done|]. intros [] t'' [= <-] _. apply Hclosed. by apply moved_push.
  - apply always_tx; [done|]. apply always_bind.
    eapply always_moved_update; [done|done| |done]. intros n t' Hm.
    apply always_stmt; [done|]. intros [] t'' [= <-] _. apply Hclosed.
    destruct (users t' !! id) as [r|]; [|done]. destruct (ur_IsActive r); [done|by apply moved_push].
  - apply always_stmt; [done|]. intros [] t' [= <-] _. apply Hclosed. split; [done|].
    cbn [users set_users]. intros row'. by rewrite lookup_delete_eq.
Qed.

(** a logout that the browser sees closes the session, until the cookie expires; when
    it cannot be recorded, the answer says so and the cookie stays. *)
Theorem logout_closes_session (rq : WebRequest) (w : Console) :
  (ID (rq_sess rq)).2 = true →
  always (Logout rq) (λ r w', ∃ reply, r = Ok reply ∧
    (answer reply = Redirect "/login" ∧
       closed (Some (Unix (AddDur (rq_now rq) Lifetime))) (rq_sess rq) w' ∨
     answer reply = HttpError 503 "Session store unavailable" ∧ cookie reply = None)) w.
Proof.
  intros Hsid. unfold Logout. cbv zeta. destruct (ID (rq_sess rq)) as [sid ok] eqn:Hid.
  cbn [snd] in Hsid. subst ok. apply always_error.
  eapply (always_mono _ (λ r w', r = Ok () → logged_out (Some (Unix (AddDur (rq_now rq) Lifetime))) sid
    (accounts w'))).
  { intros io. unfold on_accounts. rewrite exec_lift; [|done|by intros []|done].
    pose proof (λ t, always_stmt (λ t, Ok ((), set_revoked
      (<[sessionIDHash sid := Unix (AddDur (rq_now rq) Lifetime)]> (revoked t)) t))
      (λ r t', r = Ok () → logged_out (Some (Unix (AddDur (rq_now rq) Lifetime))) sid t') t) as Hins.
    assert (always (RevokeSession (rq_now rq) sid (AddDur (rq_now rq) Lifetime))
      (λ r t', r = Ok () → logged_out (Some (Unix (AddDur (rq_now rq) Lifetime))) sid t')
      (accounts w)) as Hal.
    { apply always_bind, always_stmt; [done|]. intros [] t' _. apply Hins; [done|].
      intros [] t'' [= <-] _. eexists _, _. split; [done|].
      cbn [revoked set_revoked]. rewrite lookup_insert_eq. split; [done|lia]. }
    specialize (Hal io). destruct (exec _ io (accounts w)) as [[r t'] io']. exact Hal. }
  intros [[]|e] w' Hl.
  - apply always_bind. unfold Clear. apply always_bind, always_on_challenges, always_Ret, always_Ret.
    eexists. split; [done|]. left. split; [done|]. right. rewrite Hid. exact (Hl eq_refl).
  - apply always_Ret. eexists. split; [done|]. by right.
Qed.
End changes.

(** ** Examples *)

Module AdmissionExamples.
Import ConsoleExamples.

(** The session of the reader, whose password an administrator then changes. *)
Definition leo_cookie : Values := cookie_of leo_login.1.
Definition leo_request (now : Time) : WebRequest := request leo_cookie [] now [4].
Definition leo_row : UserRow :=
  default (user_row "" "" false) (users (accounts leo_login.2) !! 2).
Definition new_password : prog Accounts () := change_prog None 2 (NewPassword "h:other").
Definition after_change : Console :=
  set_accounts (run new_password (accounts leo_login.2)).2 leo_login.2.

Definition page : Handler := λ rq, plain_reply (Page "alerts.html" []).

(** Another browser signs in meanwhile. *)
Definition meanwhile (n : nat) : ConsoleRequest :=
  AtLogin (PostLogin (request ∅ (password_form "ana") (200 * Second) [5])).

Definition visit : option (result Reply) :=
  finished ((run_pool code_turns (λ n, if decide (n = 0%nat)
    then RequireLogin None page (leo_request (200 * Second))
    else serve_console None hammer true (meanwhile n)) after_change).1 0%nat).

Definition leo_logout : result Reply * Console :=
  run (Logout (leo_request (200 * Second))) leo_login.2.
End AdmissionExamples.

Lemma change_closes_sessions_witness :
  (UserVersion (returned AdmissionExamples.leo_cookie)).1 = 1 ∧
  closed None (returned AdmissionExamples.leo_cookie) AdmissionExamples.after_change.
Proof.
  split; [vm_compute; reflexivity|].
  pose proof (always_run _ _ _ (change_closes_sessions None 2 (NewPassword "h:other")
    AdmissionExamples.leo_row (returned AdmissionExamples.leo_cookie) ConsoleExamples.leo_login.2
    ltac:(vm_compute; reflexivity) ltac:(vm_compute; discriminate)
    ltac:(vm_compute; reflexivity) ltac:(vm_compute; discriminate))) as Hclosed.
  apply Hclosed. vm_compute. reflexivity.
Defined.

Lemma closed_session_turned_away_witness :
  ∃ r, AdmissionExamples.visit = Some r ∧ turned_away r.
Proof.
  assert (is_Some AdmissionExamples.visit) as [r Hr] by (vm_compute; by eexists).
  exists r. split; [exact Hr|]. unfold AdmissionExamples.visit in Hr. apply finished_Some in Hr.
  refine (closed_session_turned_away None ConsoleExamples.hammer true None
    AdmissionExamples.meanwhile code_turns AdmissionExamples.after_change 0 AdmissionExamples.page
    (AdmissionExamples.leo_request (200 * Second)) r _ _ Hr).
  - left. split; [vm_compute; discriminate|]. intros row Hrow. vm_compute in Hrow.
    injection Hrow as <-. vm_compute. reflexivity.
  - intros n d. discriminate.
Defined.

Lemma logout_closes_session_witness :
  closed (Some (Unix (AddDur (200 * Second) Lifetime)))
    (rq_sess (AdmissionExamples.leo_request (200 * Second))) AdmissionExamples.leo_logout.2.
Proof.
  destruct (always_run _ _ _ (logout_closes_session
    (AdmissionExamples.leo_request (200 * Second)) ConsoleExamples.leo_login.2
    ltac:(vm_compute; reflexivity))) as (reply & Hr & [[_ Hc]|[Ha _]]); [exact Hc|].
  exfalso. revert Ha. generalize Hr. clear Hr.
  assert (ConsoleExamples.target_of AdmissionExamples.leo_logout.1 = "/login") as Ht
    by (vm_compute; reflexivity).
  change (run _ _) with AdmissionExamples.leo_logout. intros Hr Ha. rewrite Hr in Ht.
  unfold ConsoleExamples.target_of in Ht. destruct reply as [a c]. cbn in Ha. by subst a.
Defined.
