(* ===== verification/Admins.v ===== *)
(** * Administrators

    Only active administrators reach the pages of administrators, and the enforcement of
    the second factor leaves the last of them alone, except when two of them are
    enforced at the same time. *)
From Stdlib Require Import Ascii.
From S2P Require Import Prelude GoStrings GoUtf8 GoJson GoNum GoTime GoNetip GoUrl Domain StoreReads Sql Interleave Frames Banhammer Limiter Challenges Secrets Relational Schema Servers Removal Retention Users Totp Session Login Middleware UserAdmin Access Signin Admission.

(** The answers of the middlewares to who is not let in. *)
Definition denied (r : result Reply) : Prop :=
  ∃ reply, r = Ok reply ∧
    match answer reply with
    | Redirect target => HasPrefix target "/login" = true
    | HttpError code _ => code ∈ [403; 500; 503]
    | Page _ _ => False
    end.

(** The session of the request is valid now, and that of an active administrator. *)
Definition admin_session `{!Crypto} (rq : WebRequest) (w : Console) : Prop :=
  revoked (accounts w) !! sessionIDHash (ID (rq_sess rq)).1 = None ∧
  ∃ row, users (accounts w) !! (UserID (rq_sess rq)).1 = Some row ∧ ur_Role row = "admin" ∧
    ur_IsActive row = true ∧ ur_Username row = (GetUser (rq_sess rq)).1.1 ∧
    ur_SessionVersion row = (UserVersion (rq_sess rq)).1.

Section admins.
Context `{!Crypto, !Hmac, !Bcrypt, !SqlOrder}.
Context (secrets : option Box) (ban : option Config) (telegram : bool).

Lemma denied_answer a c :
  match a with
  | Redirect target => HasPrefix target "/login" = true
  | HttpError code _ => code ∈ [403; 500; 503]
  | Page _ _ => False
  end → denied (Ok {| answer := a; cookie := c |}).
Proof. intros Ha. eexists. by split. Qed.

Lemma denied_plain a :
  match a with
  | Redirect target => HasPrefix target "/login" = true
  | HttpError code _ => code ∈ [403; 500; 503]
  | Page _ _ => False
  end → returns denied (plain_reply a).
Proof. apply denied_answer. Qed.

Lemma denied_sign_out rq target :
  HasPrefix target "/login" = true → returns denied (sign_out rq target).
Proof.
  intros Ht. eapply returns_andThen; [apply returns_Clear|].
  intros r [->| ->]; by apply denied_answer.
Qed.

Lemma denied_admin rq next :
  (GetUser (rq_sess rq)).1.2 ≠ "admin" → returns denied (RequireAdmin next rq).
Proof.
  unfold RequireAdmin, require_role. destruct (GetUser (rq_sess rq)) as [[u role] ok]. cbn [fst snd].
  intros Hrole. destruct ok; cbn [negb]; [|by apply denied_plain].
  rewrite bool_decide_false by set_solver. apply denied_plain. set_solver.
Qed.

Lemma refreshed_role saved role ver s s' c :
  RefreshRole saved role ver s = (s', Ok c) → (GetUser s').1.2 = role ∨ (GetUser s').1.2 = "".
Proof.
  unfold RefreshRole, change. destruct (ss_err s) eqn:He; [done|]. unfold save.
  destruct saved; [|done]. intros [= <- <-]. unfold GetUser, usable, string_at.
  cbn [set_values ss_ready ss_err ss_values]. rewrite He. destruct (ss_ready s); cbn [andb negb]; [|by right].
  simpl_map. destruct (_ !! "username") as [[]|]; by left.
Qed.

Lemma returns_ignored {A} (p : prog Console A) : returns (λ r, r = Ok ()) (ignored p).
Proof. by apply returns_then. Qed.

Lemma returns_keep_cookie c p : returns denied p → returns denied (keep_cookie c p).
Proof.
  intros Hp. eapply returns_andThen; [exact Hp|]. intros r (reply & -> & Hd). by apply denied_answer.
Qed.

(** A page of administrators behind the session of somebody else. *)
Lemma denied_admit rq next user sessionRole :
  us_Role user ≠ "admin" → (GetUser (rq_sess rq)).1.2 = sessionRole →
  returns denied (let_in rq (RequireAdmin next) user sessionRole).
Proof.
  intros Hrole Hs. unfold let_in. cbv zeta.
  assert (∀ c rq', (GetUser (rq_sess rq')).1.2 ≠ "admin" → returns denied
    (on_error (userNeedsTOTPEnforcement (rq_now rq') user) (λ needsTOTP : bool,
      if needsTOTP then
        _ ← ignored (on_accounts (SetUserActive (us_ID user) false));
        sign_out rq' "/login?flash=Usuario+desactivado:+2FA+no+se+activo+dentro+del+plazo"
      else keep_cookie c (RequireAdmin next rq'))
      (λ _, mret {| answer := no_security_config; cookie := c |}))) as Hgo.
  { intros c rq' Hr. apply returns_then. intros [[]|e]; [| |by apply denied_answer; set_solver].
    - eapply returns_andThen; [apply returns_ignored|]. intros r ->. by apply denied_sign_out.
    - by apply returns_keep_cookie, denied_admin. }
  destruct (negb (str_eqb _ _)) eqn:Heq.
  - destruct (RefreshRole _ _ _ _) as [s [c|e]] eqn:Href; [|apply denied_plain; set_solver].
    apply Hgo. cbn [rq_sess with_session]. destruct (refreshed_role _ _ _ _ _ _ Href) as [-> | ->];
      [done|discriminate].
  - apply negb_false_iff, str_eqb_eq in Heq. apply Hgo. congruence.
Qed.

(** C14: behind [RequireLogin] and [RequireAdmin], whoever is not sent to the login or
    refused has the session, not closed, of an account that is an active administrator
    in the database: the role in the cookie alone opens no page. *)
Theorem only_admins_admitted (next : Handler) (rq : WebRequest) (w : Console) :
  always (RequireLogin secrets (RequireAdmin next) rq) (λ r _, denied r ∨ admin_session rq w) w.
Proof.
  assert (∀ (p : prog Console Reply) w', returns denied p →
    always p (λ r _, denied r ∨ admin_session rq w) w') as Hden.
  { intros p w' Hp. eapply always_mono; [by apply returns_always|]. by left. }
  unfold RequireLogin. destruct (GetUser (rq_sess rq)) as [[username role] ok] eqn:Hg.
  destruct ok; cbn [negb];
    [|apply Hden, denied_plain; unfold login_target; by destruct (rq_get rq)].
  destruct (UserID (rq_sess rq)) as [uid hasID] eqn:Hi. cbv zeta.
  apply always_error, always_found; [|intros e; by apply Hden, denied_sign_out].
  intros id row u Hr ->%user_is_true Hu.
  apply scanUser_Ok in Hu as (Hid & Hname & _ & Hrole & Hact & _ & Hver & _ & _).
  cbn [fst snd] in *. destruct (negb hasID || _ || _) eqn:Hsame; [by apply Hden, denied_sign_out|].
  apply orb_false_iff in Hsame as [[_ Ha%negb_false_iff]%orb_false_iff Hn%negb_false_iff%str_eqb_eq].
  destruct (UserVersion (rq_sess rq)) as [ver hasVersion] eqn:Hv.
  destruct (negb hasVersion || _) eqn:Hsame; [by apply Hden, denied_sign_out|].
  apply orb_false_iff in Hsame as [_ Hsame%negb_false_iff%Z.eqb_eq].
  destruct (ID (rq_sess rq)) as [sid hasSID] eqn:Hs.
  destruct hasSID; cbn [negb]; [|by apply Hden, denied_sign_out].
  destruct (decide (us_Role u = "admin")) as [Hadm|Hadm].
  2:{ apply Hden, returns_then. intros [[]|e]; [by apply denied_sign_out| |apply denied_plain; set_solver].
      apply denied_admit; [done|by rewrite Hg]. }
  apply always_error.
  eapply (always_mono _ (λ r w', w' = w ∧ ∀ b, r = Ok b →
    b = bool_decide (is_Some (revoked (accounts w) !! sessionIDHash sid)))).
  { apply always_stmt; [done|]. intros b w' [= <- <-]. rewrite set_accounts_same.
    split; [done|]. by intros b' [= <-]. }
  intros [b|e] w' [-> Hb]; [|apply Hden, denied_plain; set_solver].
  specialize (Hb b eq_refl). destruct b; [by apply Hden, denied_sign_out|].
  eapply always_mono; [by apply returns_always, returns_any|]. intros r w' _. right.
  symmetry in Hb. apply bool_decide_eq_false, eq_None_not_Some in Hb.
  unfold admin_session. rewrite Hs, Hi, Hg, Hv. cbn [fst snd]. split; [done|].
  exists row. split_and!; congruence.
Qed.
End admins.

(** ** The last administrator *)

Definition has_admin (t : Accounts) : Prop :=
  ∃ id row, users t !! id = Some row ∧ active_admin row = true.

(** An administrator is left where there was one. *)
Definition keeps_admin (t t' : Accounts) : Prop := has_admin t → has_admin t'.

#[local] Instance keeps_admin_preorder : PreOrder keeps_admin.
Proof. split; [intros t Ht; exact Ht|intros t t' t'' H1 H2 Ht; auto]. Qed.

Section last_admin.
Context `{!Crypto, !Hmac, !Bcrypt, !SqlOrder}.
Context (secrets : option Box) (ban : option Config) (telegram : bool).
Notation R := (via keeps_admin).

Lemma admin_usage cond f :
  (∀ r, active_admin (f r) = active_admin r) →
  steps R (on_accounts (update_users cond f ≫= λ _, mret ())).
Proof.
  intros Hf. apply steps_on_accounts, steps_bind; [|intros n; apply steps_mret].
  apply steps_update_users. intros t _ (id & row & Hr & Ha).
  exists id, (if cond id row then f row else row). cbn [set_users users].
  rewrite lookup_update_where, Hr. split; [done|]. destruct (cond id row); [by rewrite Hf|done].
Qed.

Lemma admin_last_login now id ip : steps R (on_accounts (UpdateUserLastLogin now id ip)).
Proof. by apply admin_usage. Qed.

Lemma admin_grace now id : steps R (on_accounts (StartUserTOTPGrace now id)).
Proof. by apply admin_usage. Qed.

Hint Resolve admin_last_login admin_grace : probak.

(** Where [id] is not the last administrator, its account can go. *)
Lemma not_last_admin id t t' :
  has_admin t →
  negb (is_nil (find_users (λ k r, user_is id k r && active_admin r) t)) &&
    is_nil (find_users (λ k r, negb (user_is id k r) && active_admin r) t) = false →
  (∀ k row, k ≠ id → users t !! k = Some row → users t' !! k = Some row) → has_admin t'.
Proof.
  intros (k & row & Hr & Ha) Hlast Hsame.
  destruct (is_nil (find_users (λ k r, negb (user_is id k r) && active_admin r) t)) eqn:Hothers.
  - rewrite andb_true_r in Hlast. apply negb_false_iff in Hlast. exists k, row.
    split; [|done]. apply Hsame; [|done]. intros ->.
    pose proof (proj1 (find_users_nil _ _) Hlast id row Hr) as Hn. cbv beta in Hn.
    unfold user_is in Hn. by rewrite Z.eqb_refl, Ha in Hn.
  - destruct (find_users (λ k r, negb (user_is id k r) && active_admin r) t) as [|[k' r'] l] eqn:He;
      [done|].
    assert ((k', r') ∈ find_users (λ k r, negb (user_is id k r) && active_admin r) t) as Hin
      by (rewrite He; left).
    apply elem_of_find_users in Hin as [Hk' [Hne%negb_true_iff Ha']%andb_true_iff].
    exists k', r'. split; [|done]. apply Hsame; [|done]. by apply Z.eqb_neq.
Qed.

Lemma always_deactivated id (t : Accounts) :
  always (SetUserActive id false)
    (λ _ t', ∀ k row, k ≠ id → users t !! k = Some row → users t' !! k = Some row) t.
Proof.
  apply always_tx; [done|]. apply always_bind. eapply always_mono; [apply update_users_Ok|].
  intros [n|e] t' Ht; [|done]. destruct Ht as [_ ->]. apply always_stmt; [done|].
  intros [] t'' [= <-] k row Hk Hr. cbn [users set_users set_owners delete_push].
  rewrite lookup_update_where, Hr. simpl. unfold user_is. by rewrite (proj2 (Z.eqb_neq k id)).
Qed.

Lemma steps_ends {A} (p : prog Console A) w :
  steps R p → has_admin (accounts w) → always p (λ _ w', has_admin (accounts w')) w.
Proof.
  intros Hp Hw. eapply always_mono; [apply (steps_always R), Hp|].
  intros r w' Hk. by apply Hk.
Qed.

Lemma enforcement_keeps rq user w :
  has_admin (accounts w) →
  always (handleTOTPEnforcement telegram rq user) (λ _ w', has_admin (accounts w')) w.
Proof.
  intros Hw. unfold handleTOTPEnforcement.
  destruct (_ || _); [by apply always_Ret|].
  apply always_error. eapply always_mono; [apply steps_ends; [apply steps_GetEmailConfig, _|done]|].
  intros [cfg|e] w1 Hw1; [|by apply always_Ret]. destruct (negb _); [by apply always_Ret|]. cbv zeta.
  assert (∀ startedAt w2, has_admin (accounts w2) → always
    (if negb (72 * Hour <=? Sub (rq_now rq) startedAt)
     then mret (GoTo "/profile?flash=Activa+2FA+en+tu+usuario.+Tienes+3+d%C3%ADas+desde+el+primer+aviso.&ok=1")
     else on_error (on_accounts (IsLastActiveAdmin (us_ID user))) (λ lastAdmin : bool,
        if lastAdmin
        then mret (GoTo "/profile?flash=Plazo+de+2FA+vencido.+Eres+el+%C3%BAnico+administrador+activo%3A+activa+2FA+ahora.")
        else
          _ ← ignored (on_accounts (SetUserActive (us_ID user) false));
          _ ← recordLoginAttempt rq (us_Username user) "blocked" "totp_grace_expired";
          _ ← notifyAdminLoginFailed telegram (rq_now rq) (us_Username user) (rq_ip rq)
                "Usuario desactivado por no configurar 2FA" false;
          mret (Written (Page "login.html"
            [("Error", "Usuario desactivado: 2FA no se activó dentro del plazo de 3 días.")])))
        (λ _, mret (Written internal_error)))
    (λ _ w', has_admin (accounts w')) w2) as Hgrace.
  { intros startedAt w2 Hw2. destruct (negb _); [by apply always_Ret|]. apply always_error.
    apply always_stmt; [by intros e; apply always_Ret|]. intros last w3 [= <- <-].
    rewrite set_accounts_same.
    match goal with |- context [if ?b then _ else _] => destruct b eqn:Hlast end;
      [by apply always_Ret|].
    apply always_bind, always_andThen, always_lift; [done|by intros []|done|].
    eapply always_mono; [apply always_deactivated|]. intros r t Ht. apply always_Ret.
    apply steps_ends; [walk|]. by eapply not_last_admin. }
  destruct (us_TOTPGraceStartedAt user) as [startedAt|]; [by apply Hgrace|].
  apply always_error. eapply always_mono; [apply steps_ends; [apply admin_grace|done]|].
  intros [[]|e] w2 Hw2; [by apply Hgrace|by apply always_Ret].
Qed.

Lemma login_keeps rq w :
  has_admin (accounts w) →
  always (LoginPost secrets ban telegram rq) (λ _ w', has_admin (accounts w')) w.
Proof.
  intros Hw. unfold LoginPost. cbv zeta. apply always_bind.
  eapply always_mono; [apply steps_ends; [walk|done]|]. intros [b|e] w1 Hw1; [|done].
  destruct b; [apply steps_ends; [walk|done]|].
  apply always_error. unfold GetUserByUsername.
  eapply always_mono; [apply steps_ends; [walk|done]|].
  intros [u|e] w2 Hw2; [|apply steps_ends; [walk|done]].
  destruct (_ || _); [apply steps_ends; [walk|done]|].
  apply always_bind. eapply always_mono; [by apply enforcement_keeps|].
  assert (∀ u next, steps R (sign_in telegram rq u next)) as Hsign.
  { intros u' next. unfold sign_in, notifyAdminLoginSuccess.
    destruct (SetUserWithVersion _ _ _ _ _ _ _) as [s [c|e]]; cbn [snd]; walk. }
  intros [[|a|target]|e] w3 Hw3; [..|done]; unfold first_factor_passed;
    (apply steps_ends; [walk|done]).
Qed.

(** C30: the enforcement of the second factor at a login that runs alone leaves an active
    administrator where there was one, whatever statement fails. *)
Theorem enforcement_spares_last_admin (rq : WebRequest) (w : Console) :
  always (LoginPost secrets ban telegram rq)
    (λ _ w', keeps_admin (accounts w) (accounts w')) w.
Proof.
  intros io. pose proof (λ Hw, login_keeps rq w Hw io) as Hk.
  destruct (exec _ io w) as [[r w'] io']. exact Hk.
Qed.
End last_admin.

(** ** Two administrators *)

Module AdminExamples.
(** Two administrators whose time to set up the second factor is over. *)
Definition late_admin (name : string) : UserRow :=
  set_grace (Some 0) (ConsoleExamples.user_row name "admin" false).

Definition enforcing : EmailConfig :=
  let d := defaultEmailConfig in {|
  ec_ID := ec_ID d; ec_SMTPHost := ec_SMTPHost d; ec_SMTPPort := ec_SMTPPort d;
  ec_SMTPUser := ec_SMTPUser d; ec_SMTPPass := ec_SMTPPass d; ec_Recipients := ec_Recipients d;
  ec_IsEnabled := ec_IsEnabled d; ec_SendTime := ec_SendTime d;
  ec_RetentionMonths := ec_RetentionMonths d; ec_RetentionEnabled := ec_RetentionEnabled d;
  ec_AlertDiskPct := ec_AlertDiskPct d; ec_AlertWindowsDiskPct := ec_AlertWindowsDiskPct d;
  ec_AlertBackupErr := ec_AlertBackupErr d; ec_AlertPBSStaleHours := ec_AlertPBSStaleHours d;
  ec_AlertPVEExpectedFinishTime := ec_AlertPVEExpectedFinishTime d;
  ec_PublicAPIURL := ec_PublicAPIURL d; ec_VPNOnlyAccess := ec_VPNOnlyAccess d;
  ec_AlertPVEHeartbeatMinutes := ec_AlertPVEHeartbeatMinutes d;
  ec_AlertEmailBatchMinutes := ec_AlertEmailBatchMinutes d;
  ec_CriticalAlertsEnabled := ec_CriticalAlertsEnabled d; ec_EnforceTOTPNonReaders := true;
  ec_SensitiveActionsRequireTOTP := ec_SensitiveActionsRequireTOTP d |}.

Definition two_admins : Console :=
  let w := ConsoleExamples.start in
  {| accounts := {| users := {[1 := late_admin "ana"; 2 := late_admin "eva"]}; last_user := 2;
       push_owners := ∅; telegram_owners := ∅; revoked := ∅ |};
     attempt_log := attempt_log w; ban_state := ban_state w; challenges := challenges w;
     code_attempts := code_attempts w; password_failures := password_failures w;
     notices := notices w; outbox := outbox w; audit_rows := audit_rows w;
     email_cfg := Ok enforcing |}.

Definition late_login (n : nat) : LoginRequest :=
  PostLogin (ConsoleExamples.request ∅
    (ConsoleExamples.password_form (if Nat.eqb n 0 then "ana" else "eva")) (100 * Hour)
    [Z.of_nat n]).

(** The two logins take turns, or run one after the other. *)
Definition after_logins (turns : list (nat * list (option error))) : Accounts :=
  accounts (run_pool turns (λ n, serve_login None None false (late_login n)) two_admins).2.

Definition in_turns : list (nat * list (option error)) := code_turns.
Definition one_by_one : list (nat * list (option error)) :=
  repeat (0%nat, []) 12 ++ repeat (1%nat, []) 12.

Definition admins (t : Accounts) : nat :=
  length (find_users (λ _ r, active_admin r) t).
End AdminExamples.

(** two administrators who sign in at the same time after the grace period lock each
    other out: each sees the other one active, and both are deactivated.  One after the
    other, the second stays. *)
Theorem last_admins_locked_out :
  AdminExamples.admins (accounts AdminExamples.two_admins) = 2%nat ∧
  AdminExamples.admins (AdminExamples.after_logins AdminExamples.in_turns) = 0%nat ∧
  AdminExamples.admins (AdminExamples.after_logins AdminExamples.one_by_one) = 1%nat.
Proof. split_and!; vm_compute; reflexivity. Qed.
