(* ===== verification/GoAny.v ===== *)
(** * Decoded JSON: the values [encoding/json] stores in an [any]

    [any] has the types that [json.Unmarshal] produces; the entries of an object are in
    some order, without repeated keys.  [FormatFloat] and [Sprint] print a number with
    the fewest digits that read back as the same float64: of the decimals with so many
    digits, the closest. *)
From Stdlib Require Import Ascii SpecFloat.
From stdpp Require Import sorting.
From S2P Require Import Prelude GoStrings GoNum GoText.

Inductive any : Type :=
| ANil
| ABool (b : bool)
| AFloat (f : float64)
| AString (s : string)
| AList (l : list any)
| AMap (m : list (string * any)).

(** [m[key]] on a decoded object. *)
Fixpoint field (key : string) (m : list (string * any)) : any :=
  match m with
  | [] => ANil
  | (k, v) :: m => if decide (k = key) then v else field key m
  end.

(** The assertions [v.([]any)] and [v.(map[string]any)]. *)
Definition as_list (v : any) : list any := match v with AList l => l | _ => [] end.
Definition as_map (v : any) : option (list (string * any)) :=
  match v with AMap m => Some m | _ => None end.
Definition as_float (v : any) : option float64 := match v with AFloat f => Some f | _ => None end.

(** ** [json.Unmarshal] into a struct *)

(** [foldName] on the names that fold to ASCII: the long s and the Kelvin sign are the
    letters outside ASCII that do. *)
Fixpoint fold_key (s : string) : string :=
  match s with
  | EmptyString => EmptyString
  | String "197" (String "191" s) => String "S" (fold_key s)
  | String "226" (String "132" (String "170" s)) => String "K" (fold_key s)
  | String c s => String (upper_ascii c) (fold_key s)
  end.

Definition names_field (tag key : string) : bool :=
  bool_decide (key = tag) || bool_decide (fold_key key = fold_key tag).

(** A field of a struct from the members of an object, in their order: the last one
    counts, [null] leaves the field alone, and one of another type is an error. *)
Definition decode_field {A} (as_type : any → option A) (zero : A) (tag : string)
    (m : list (string * any)) : result A :=
  fold_left (λ acc '(key, v),
    if negb (names_field tag key) then acc else
    match v with
    | ANil => acc
    | v => _ ← acc;
           match as_type v with Some a => Ok a | None => Err (ErrMsg "UnmarshalTypeError") end
    end) m (Ok zero).

Definition as_string (v : any) : option string := match v with AString s => Some s | _ => None end.
Definition as_bool (v : any) : option bool := match v with ABool b => Some b | _ => None end.
Definition as_array (v : any) : option (list any) := match v with AList l => Some l | _ => None end.

(** The members of the object that a struct is read from: none for [null]. *)
Definition members (v : any) : result (list (string * any)) :=
  match v with
  | AMap m => Ok m
  | ANil => Ok []
  | _ => Err (ErrMsg "UnmarshalTypeError")
  end.

(** [x != 0]. *)
Definition nonzero (f : float64) : bool := match f with S754_zero _ => false | _ => true end.

(** [a < b] on floats. *)
Definition flt (a b : float64) : bool := SFltb a b.
Definition fsub : float64 → float64 → float64 := SFsub prec emax.

(** ** Shortest decimals *)

(** The float64 nearest to [a / b]. *)
Definition of_ratio (a b : Z) : float64 :=
  let sh := Z.max 0 (64 + Z.log2 b - Z.log2 a) in
  let q := (a * 2^sh) / b in
  let sticky := if (a * 2^sh) mod b =? 0 then 0 else 1 in
  binary_normalize prec emax (2 * q + sticky) (- sh - 1) false.

(** The float64 nearest to [d * 10^s]. *)
Definition of_decimal (d s : Z) : float64 :=
  if 0 <=? s then of_ratio (d * 10^s) 1 else of_ratio d (10^(- s)).

(** The integer part of the decimal logarithm of [a / b]. *)
Definition log10 (a b : Z) : Z :=
  let p := ((Z.log2 a - Z.log2 b) * 30103) / 100000 in
  let at_least (p : Z) : bool := if 0 <=? p then b * 10^p <=? a else b <=? a * 10^(- p) in
  if at_least (p + 1) then p + 1 else if at_least p then p else p - 1.

Definition same_float (x y : float64) : bool := SFeqb x y.

(** The digits and the exponent of the shortest decimal of [a / b], which is [x]; [ks]
    are the numbers of digits to try. *)
Fixpoint shortest (x : float64) (a b : Z) (ks : list Z) : Z * Z :=
  match ks with
  | [] => (0, 0)
  | k :: ks =>
      let s := log10 a b - k + 1 in
      let num := if 0 <=? s then a else a * 10^(- s) in
      let den := if 0 <=? s then b * 10^s else b in
      let lo := num / den in
      let r := num mod den in
      let fits d := same_float (of_decimal d s) x in
      let up := if 2 * r <? den then false else if den <? 2 * r then true else negb (Z.even lo) in
      if fits lo && (negb up || negb (fits (lo + 1))) then (lo, s)
      else if fits (lo + 1) then (lo + 1, s) else shortest x a b ks
  end.

Definition digit_counts : list Z := [1; 2; 3; 4; 5; 6; 7; 8; 9; 10; 11; 12; 13; 14; 15; 16; 17].

Definition zeros (n : Z) : string := String.concat "" (repeat "0" (Z.to_nat n)).

(** [%f] of the digits [d] with the exponent [s]. *)
Definition fixed (d s : Z) : string :=
  let D := Itoa d in
  if 0 <=? s then D +:+ zeros s else
  let point := str_len D + s in
  if 0 <? point then str_take_nat (Z.to_nat point) D +:+ "." +:+ str_drop_nat (Z.to_nat point) D
  else "0." +:+ zeros (- point) +:+ D.

(** [%e] of the digits [d] with the exponent [s]. *)
Definition scientific (d s : Z) : string :=
  let D := Itoa d in
  let e := str_len D + s - 1 in
  let mantissa := match D with
    | String a EmptyString => D
    | String a rest => String a ("." +:+ rest)
    | EmptyString => ""
    end in
  mantissa +:+ "e" +:+ (if e <? 0 then "-" else "+") +:+ pad2 (Z.abs e).

Definition float_text (style : Z → Z → string) (f : float64) : string :=
  match f with
  | S754_zero s => if s then "-0" else "0"
  | S754_infinity s => if s then "-Inf" else "+Inf"
  | S754_nan => "NaN"
  | S754_finite neg m e =>
      let a := if 0 <=? e then Zpos m * 2^e else Zpos m in
      let b := if 0 <=? e then 1 else 2^(- e) in
      let '(d, s) := shortest (S754_finite false m e) a b digit_counts in
      (if neg then "-" else "") +:+ style d s
  end.

(** [strconv.FormatFloat(f, 'f', -1, 64)]. *)
Definition FormatFloat (f : float64) : string := float_text fixed f.

(** [%v] of a float: [%e] for exponents below -4 and from 6 on. *)
Definition Sprint_float (f : float64) : string :=
  float_text (λ d s, let e := str_len (Itoa d) + s - 1 in
    if (e <? -4) || (6 <=? e) then scientific d s else fixed d s) f.

(** ** [fmt.Sprint] *)

Definition entry_le (x y : string * string) : Prop := String.leb x.1 y.1 = true.
#[export] Instance entry_le_dec : RelDecision entry_le.
Proof. intros x y. unfold entry_le. apply _. Defined.

Fixpoint Sprint (v : any) : string :=
  match v with
  | ANil => "<nil>"
  | ABool b => if b then "true" else "false"
  | AFloat f => Sprint_float f
  | AString s => s
  | AList l => "[" +:+ String.concat " " (map Sprint l) +:+ "]"
  | AMap m => "map[" +:+ String.concat " "
      ((λ kv, kv.1 +:+ ":" +:+ kv.2) <$>
        merge_sort entry_le (map (λ kv, (kv.1, Sprint kv.2)) m)) +:+ "]"
  end.

Example print_floats :
  FormatFloat (of_ratio 1 10) = "0.1" ∧ FormatFloat (Float 101) = "101" ∧
  FormatFloat (Float (2^60)) = "1152921504606847000" ∧ FormatFloat (of_ratio 1 3) = "0.3333333333333333" ∧
  Sprint_float (Float 100000) = "100000" ∧ Sprint_float (Float 1000000) = "1e+06" ∧ Sprint_float (of_decimal 15 (-6)) = "1.5e-05" ∧
  Sprint_float (of_decimal 5 (-324)) = "5e-324" ∧ Sprint_float (of_decimal 17976931348623157 292) = "1.7976931348623157e+308" ∧
  Sprint_float (Float 123456789) = "1.23456789e+08".
Proof. split_and!; vm_compute; reflexivity. Qed.
