(* ===== verification/ClientSchedule.v ===== *)
(** * Backup schedules of a Proxmox node: the reading half of [client/backup_config.go]

    The client lists the guests of its node and the backup jobs of the cluster, reads
    the days and the start of every job, and picks for every guest the days that the
    server is to expect.  [get] is the answer of the Proxmox API to an endpoint. *)
From Stdlib Require Import Ascii.
From stdpp Require Import sorting.
From S2P Require Import Prelude GoStrings GoNum GoText GoAny.

Record discoveredVM := { dv_VMID : string; dv_Name : string }.

Record backupDays := {
  Monday : bool; Tuesday : bool; Wednesday : bool; Thursday : bool; Friday : bool;
  Saturday : bool; Sunday : bool }.

Record pveBackupSchedule := {
  Days : backupDays; StartMin : Z; Weekdays : bool; HasAnyDay : bool }.

#[export] Instance backupDays_eq_dec : EqDecision backupDays.
Proof. solve_decision. Defined.

Definition no_days : backupDays := Build_backupDays false false false false false false false.
Definition workdays : backupDays := Build_backupDays true true true true true false false.
Definition all_days : backupDays := Build_backupDays true true true true true true true.
Definition weekend : backupDays := Build_backupDays false false false false false true true.

(** The zero value of Go. *)
Definition no_schedule : pveBackupSchedule :=
  {| Days := no_days; StartMin := 0; Weekdays := false; HasAnyDay := false |}.

(** ** Days *)

Definition days_list (d : backupDays) : list bool :=
  [Monday d; Tuesday d; Wednesday d; Thursday d; Friday d; Saturday d; Sunday d].

(** The methods [any], [weekdays], [dayCount] and [withDay]. *)
Definition any_day (d : backupDays) : bool :=
  Monday d || Tuesday d || Wednesday d || Thursday d || Friday d || Saturday d || Sunday d.

Definition weekdays (d : backupDays) : bool :=
  Monday d && Tuesday d && Wednesday d && Thursday d && Friday d.

Definition dayCount (d : backupDays) : Z :=
  fold_left (λ count (ok : bool), if ok then count + 1 else count) (days_list d) 0.

Definition withDay (idx : Z) (d : backupDays) : backupDays :=
  let 'Build_backupDays mo tu we th fr sa su := d in
  match idx with
  | 0 => Build_backupDays true tu we th fr sa su
  | 1 => Build_backupDays mo true we th fr sa su
  | 2 => Build_backupDays mo tu true th fr sa su
  | 3 => Build_backupDays mo tu we true fr sa su
  | 4 => Build_backupDays mo tu we th true sa su
  | 5 => Build_backupDays mo tu we th fr true su
  | 6 => Build_backupDays mo tu we th fr sa true
  | _ => d
  end.

Definition mergeWeekendDays (base extra : backupDays) : backupDays :=
  let 'Build_backupDays mo tu we th fr sa su := base in
  Build_backupDays mo tu we th fr (Saturday extra || sa) (Sunday extra || su).

(** ** Reading a schedule *)

Definition pveDayIndex (day : string) : option Z :=
  let day := TrimSpace day in
  if bool_decide (day ∈ ["mon"; "monday"]) then Some 0
  else if bool_decide (day ∈ ["tue"; "tuesday"]) then Some 1
  else if bool_decide (day ∈ ["wed"; "wednesday"]) then Some 2
  else if bool_decide (day ∈ ["thu"; "thursday"]) then Some 3
  else if bool_decide (day ∈ ["fri"; "friday"]) then Some 4
  else if bool_decide (day ∈ ["sat"; "saturday"]) then Some 5
  else if bool_decide (day ∈ ["sun"; "sunday"]) then Some 6
  else None.

(** [for i := start; ; i = (i + 1) % 7]; [None]: out of fuel. *)
Fixpoint day_range (fuel : nat) (i stop : Z) (days : backupDays) : option backupDays :=
  match fuel with
  | O => None
  | S fuel =>
      let days := withDay i days in
      if i =? stop then Some days else day_range fuel ((i + 1) mod 7) stop days
  end.

Definition range_separator (part : string) : string :=
  if Contains part ".." then ".." else if Contains part "-" then "-" else "".

(** One part of the list; [None] where the source returns without days. *)
Definition day_part (part : string) (days : backupDays) : option backupDays :=
  let part := TrimSpace part in
  if str_empty part then Some days else
  let sep := range_separator part in
  if negb (str_empty sep) then
    bounds ← Cut part sep;
    start ← pveDayIndex bounds.1; stop ← pveDayIndex bounds.2;
    day_range 7 start stop days
  else idx ← pveDayIndex part; Some (withDay idx days).

Fixpoint day_parts (parts : list string) (days : backupDays) : option backupDays :=
  match parts with
  | [] => Some days
  | part :: parts => days ← day_part part days; day_parts parts days
  end.

Definition parsePVEDays (token : string) : backupDays * bool :=
  let token := TrimSpace (ToLower token) in
  if bool_decide (token ∈ [""; "daily"; "*"]) then (all_days, true)
  else if bool_decide (token = "weekdays") then (workdays, true)
  else if bool_decide (token = "weekend") then (weekend, true)
  else match day_parts (Split "," token) no_days with
  | None => (no_days, false)
  | Some days => (days, any_day days)
  end.

(** [strconv.Atoi]. *)
Definition Atoi (s : string) : Z * bool := ParseInt s.

Definition parseScheduleStartMinute (token : string) : Z :=
  match Split ":" (TrimSpace token) with
  | h :: m :: _ =>
      let '(hour, okH) := Atoi h in
      let '(minute, okM) := Atoi m in
      if negb okH || negb okM || (hour <? 0) || (23 <? hour) || (minute <? 0) || (59 <? minute)
      then -1 else hour * 60 + minute
  | _ => -1
  end.

Definition parsePVEBackupSchedule (schedule : string) : pveBackupSchedule * bool :=
  match Fields (ToLower (TrimSpace schedule)) with
  | [] => (no_schedule, false)
  | first :: rest =>
      let '(daysToken, timeToken) :=
        if Contains first ":" then ("daily", first)
        else (first, match rest with second :: _ => second | [] => "" end) in
      let '(days, ok) := parsePVEDays daysToken in
      if negb ok then (no_schedule, false) else
      ({| Days := days; StartMin := parseScheduleStartMinute timeToken;
          Weekdays := weekdays days; HasAnyDay := any_day days |}, true)
  end.

(** ** Jobs *)

Definition pveValueString (v : any) : string :=
  match v with
  | AString s => TrimSpace s
  | AFloat f => FormatFloat f
  | _ => ""
  end.

Definition pveBackupScheduleText (job : list (string * any)) : string :=
  let schedule := TrimSpace (pveValueString (field "schedule" job)) in
  if negb (str_empty schedule) then schedule else
  TrimSpace (TrimSpace (pveValueString (field "dow" job)) +:+ " " +:+
             TrimSpace (pveValueString (field "starttime" job))).

Definition backupJobEnabled (v : any) : bool :=
  match v with
  | ABool b => b
  | AFloat f => nonzero f
  | AString s => negb (bool_decide (s ∈ [""; "0"])) && negb (bool_decide (ToLower s = "false"))
  | _ => true
  end.

Definition isAllBackupJob (v : any) : bool :=
  match v with
  | ABool b => b
  | AFloat f => nonzero f
  | AString s => bool_decide (ToLower (TrimSpace s) ∈ ["1"; "true"; "all"])
  | _ => false
  end.

(** The set of the texts in the list. *)
Definition parseVMIDList (s : string) : list string :=
  let s := TrimSpace s in
  if bool_decide (s ∈ [""; "<nil>"]) then [] else
  remove_dups (List.filter (λ p, negb (str_empty p)) (TrimSpace <$> Split "," s)).

Definition text_le (x y : string) : Prop := String.leb x y = true.
#[export] Instance text_le_dec : RelDecision text_le.
Proof. intros x y. unfold text_le. apply _. Defined.

Definition backupJobVMIDs (job : list (string * any)) (allVMIDs : list string) : list string :=
  let excluded := parseVMIDList (Sprint (field "exclude" job)) in
  let kept := List.filter (λ vmid, negb (bool_decide (vmid ∈ excluded))) in
  if isAllBackupJob (field "all" job) then kept allVMIDs
  else merge_sort text_le (kept (parseVMIDList (Sprint (field "vmid" job)))).

(** ** The days of every guest *)

Definition betterPrimarySchedule (candidate current : pveBackupSchedule) : bool :=
  if negb (Bool.eqb (Weekdays candidate) (Weekdays current)) then Weekdays candidate
  else if negb (StartMin candidate =? StartMin current) then StartMin current <? StartMin candidate
  else dayCount (Days current) <? dayCount (Days candidate).

Definition with_days (d : backupDays) (s : pveBackupSchedule) : pveBackupSchedule :=
  {| Days := d; StartMin := StartMin s; Weekdays := Weekdays s; HasAnyDay := HasAnyDay s |}.

(** The loop over the guests of one job: the variable [schedule] of the job is changed
    on the way. *)
Fixpoint place (schedule : pveBackupSchedule) (vmids : list string)
    (schedules : gmap string pveBackupSchedule) : gmap string pveBackupSchedule :=
  match vmids with
  | [] => schedules
  | vmid :: vmids =>
      let current := default no_schedule (schedules !! vmid) in
      if bool_decide (schedules !! vmid = None) || betterPrimarySchedule schedule current then
        let schedule := with_days (mergeWeekendDays (Days schedule) (Days current)) schedule in
        place schedule vmids (<[vmid := schedule]> schedules)
      else if Saturday (Days schedule) || Sunday (Days schedule) then
        let current := with_days (mergeWeekendDays (Days current) (Days schedule)) current in
        place schedule vmids (<[vmid := current]> schedules)
      else place schedule vmids schedules
  end.

Definition place_job (allVMIDs : list string) (schedules : gmap string pveBackupSchedule)
    (item : any) : gmap string pveBackupSchedule :=
  match as_map item with
  | None => schedules
  | Some job =>
      if negb (backupJobEnabled (field "enabled" job)) then schedules else
      match parsePVEBackupSchedule (pveBackupScheduleText job) with
      | (_, false) => schedules
      | (schedule, true) => place schedule (backupJobVMIDs job allVMIDs) schedules
      end
  end.

Section discovery.
Context (get : string → result (list (string * any))) (hostname : string).

Definition discoverPVEBackupSchedules (vms : list discoveredVM) :
    result (gmap string pveBackupSchedule) :=
  data ← get "cluster/backup";
  Ok (fold_left (place_job (dv_VMID <$> vms)) (as_list (field "data" data)) ∅).

(** [seen] is the set of the guests in the list. *)
Definition appendDiscoveredVM (node : string) (vms : list discoveredVM) (item : any) :
    list discoveredVM :=
  match as_map item with
  | None => vms
  | Some vm =>
      let itemNode := TrimSpace (pveValueString (field "node" vm)) in
      if negb (str_empty node) && negb (str_empty itemNode) && negb (bool_decide (itemNode = node))
      then vms else
      let guestType := ToLower (TrimSpace (pveValueString (field "type" vm))) in
      if negb (bool_decide (guestType ∈ [""; "qemu"; "lxc"])) then vms else
      let vmid := pveValueString (field "vmid" vm) in
      if str_empty vmid || bool_decide (vmid ∈ dv_VMID <$> vms) then vms else
      vms ++ [{| dv_VMID := vmid; dv_Name := pveValueString (field "name" vm) |}]
  end.

Definition by_number (a b : discoveredVM) : bool := (Atoi (dv_VMID a)).1 <=? (Atoi (dv_VMID b)).1.

(** The answers of the two inventories of the node, with their number. *)
Definition node_inventory : list discoveredVM * Z :=
  fold_left (λ '(vms, successes) ep,
    match get ep with
    | Err _ => (vms, successes)
    | Ok data => (fold_left (appendDiscoveredVM "") (as_list (field "data" data)) vms, successes + 1)
    end) ["nodes/" +:+ hostname +:+ "/qemu"; "nodes/" +:+ hostname +:+ "/lxc"] ([], 0).

Definition discoverPVEVMs `{!SortSlice} : result (list discoveredVM) :=
  let '(vms, successes) := node_inventory in
  vms ← (if is_nil vms || (successes <? 2) then
           match get "cluster/resources?type=vm" with
           | Ok data => Ok (fold_left (appendDiscoveredVM hostname) (as_list (field "data" data)) vms)
           | Err e =>
               if successes =? 0
               then Err (ErrWrap "could not query PVE guest inventory" e) else Ok vms
           end
         else Ok vms);
  Ok (sort_slice by_number vms).
End discovery.

(** ** Lemmas *)

Definition has_day (k : Z) (d : backupDays) : bool := nth (Z.to_nat k) (days_list d) false.

Lemma has_withDay k i d :
  0 ≤ k < 7 → 0 ≤ i < 7 → has_day k (withDay i d) = has_day k d || (k =? i).
Proof.
  intros Hk Hi. destruct d as [mo tu we th fr sa su].
  assert (k = 0 ∨ k = 1 ∨ k = 2 ∨ k = 3 ∨ k = 4 ∨ k = 5 ∨ k = 6) as Hks by lia.
  assert (i = 0 ∨ i = 1 ∨ i = 2 ∨ i = 3 ∨ i = 4 ∨ i = 5 ∨ i = 6) as His by lia.
  repeat destruct Hks as [->|Hks]; try subst k; repeat destruct His as [->|His]; try subst i;
    cbn; by rewrite ?orb_false_r, ?orb_true_r.
Qed.

(** How far [k] is behind [i] in the week. *)
Definition ahead (i k : Z) : Z := (k - i) mod 7.

Lemma ahead_range i k : 0 ≤ ahead i k < 7.
Proof. apply Z.mod_pos_bound. lia. Qed.

Lemma ahead_zero i k : 0 ≤ i < 7 → 0 ≤ k < 7 → ahead i k = 0 ↔ k = i.
Proof.
  unfold ahead. intros Hi Hk. split; [|intros ->; by rewrite Z.sub_diag].
  intros Hm. apply Z.mod_divide in Hm as [z Hz]; lia.
Qed.

Lemma ahead_next i k :
  0 ≤ i < 7 → 0 ≤ k < 7 → k ≠ i → ahead ((i + 1) mod 7) k = ahead i k - 1.
Proof.
  unfold ahead. intros Hi Hk Hne.
  destruct (decide (i = 6)) as [->|Hi6].
  - rewrite (Z.mod_small (k - 0)) by lia. replace (k - 6) with (k + 1 + -1 * 7) by lia.
    rewrite Z.mod_add, (Z.mod_small (k + 1)) by lia. lia.
  - rewrite (Z.mod_small (i + 1)) by lia. destruct (decide (i < k)).
    + rewrite !Z.mod_small by lia. lia.
    + replace (k - (i + 1)) with (k - i + 6 + -1 * 7) by lia.
      replace (k - i) with (k - i + 7 + -1 * 7) at 2 by lia.
      rewrite !Z.mod_add by lia. rewrite !Z.mod_small by lia. lia.
Qed.

Lemma day_range_fuel n i stop d :
  0 ≤ i < 7 → 0 ≤ stop < 7 → ahead i stop < Z.of_nat n →
  ∃ d', day_range n i stop d = Some d' ∧ ∀ k, 0 ≤ k < 7 →
    has_day k d' = has_day k d || (ahead i k <=? ahead i stop).
Proof.
  revert i d. induction n as [|n IH]; intros i d Hi Hs Hn; [pose proof (ahead_range i stop); lia|].
  cbn [day_range]. destruct (i =? stop) eqn:He.
  - apply Z.eqb_eq in He as <-. eexists. split; [done|]. intros k Hk. rewrite has_withDay by done.
    f_equal. rewrite (proj2 (ahead_zero i i Hi Hi) eq_refl). pose proof (ahead_range i k).
    pose proof (ahead_zero i k Hi Hk). destruct (Z.eqb_spec k i), (Z.leb_spec (ahead i k) 0); lia.
  - apply Z.eqb_neq in He.
    pose proof (ahead_next i stop Hi Hs (not_eq_sym He)) as Hnext.
    destruct (IH ((i + 1) mod 7) (withDay i d)) as (d' & -> & Hd'); [|done|lia|].
    { apply Z.mod_pos_bound. lia. }
    eexists. split; [done|]. intros k Hk. rewrite Hd', has_withDay by done.
    rewrite <-orb_assoc. f_equal. pose proof (ahead_range i stop). pose proof (ahead_range i k).
    destruct (decide (k = i)) as [->|Hki].
    + rewrite Z.eqb_refl, (proj2 (ahead_zero i i Hi Hi) eq_refl). simpl. symmetry. apply Z.leb_le. lia.
    + rewrite (proj2 (Z.eqb_neq k i)) by done. simpl. rewrite (ahead_next i k), Hnext by done.
      destruct (Z.leb_spec (ahead i k) (ahead i stop)); [apply Z.leb_le|apply Z.leb_gt]; lia.
Qed.

Lemma pveDayIndex_range day i : pveDayIndex day = Some i → 0 ≤ i < 7.
Proof. unfold pveDayIndex. repeat case_bool_decide; intros [= <-]; lia. Qed.

(** What one part of the list stands for: nothing, a day, or the days from one to
    another, over the end of the week where need be; [None] is a part that does not
    parse. *)
Definition part_days (part : string) : option (Z → bool) :=
  let part := TrimSpace part in
  if str_empty part then Some (λ _, false) else
  let sep := range_separator part in
  if negb (str_empty sep) then
    bounds ← Cut part sep;
    start ← pveDayIndex bounds.1; stop ← pveDayIndex bounds.2;
    Some (λ k, ahead start k <=? ahead start stop)
  else idx ← pveDayIndex part; Some (λ k, k =? idx).

(** The days of a list of parts. *)
Fixpoint parts_days (parts : list string) : option (Z → bool) :=
  match parts with
  | [] => Some (λ _, false)
  | part :: parts => f ← part_days part; g ← parts_days parts; Some (λ k, f k || g k)
  end.

Lemma day_part_spec part d :
  match part_days part with
  | None => day_part part d = None
  | Some f => ∃ d', day_part part d = Some d' ∧
      ∀ k, 0 ≤ k < 7 → has_day k d' = has_day k d || f k
  end.
Proof.
  unfold part_days, day_part. cbv zeta. destruct (str_empty _).
  { exists d. split; [done|]. intros k _. by rewrite orb_false_r. }
  destruct (negb _).
  - destruct (Cut _ _) as [[a b]|]; [|done]. cbn [mbind option_bind fst snd].
    destruct (pveDayIndex a) as [i|] eqn:Hi; [|done]. cbn [mbind option_bind].
    destruct (pveDayIndex b) as [j|] eqn:Hj; [|done]. cbn [mbind option_bind].
    apply pveDayIndex_range in Hi. apply pveDayIndex_range in Hj.
    apply (day_range_fuel 7); [done|done|]. apply ahead_range.
  - destruct (pveDayIndex _) as [i|] eqn:Hi; [|done]. simpl. apply pveDayIndex_range in Hi.
    eexists. split; [done|]. intros k Hk. by apply has_withDay.
Qed.

Lemma day_parts_spec parts d :
  match parts_days parts with
  | None => day_parts parts d = None
  | Some f => ∃ d', day_parts parts d = Some d' ∧
      ∀ k, 0 ≤ k < 7 → has_day k d' = has_day k d || f k
  end.
Proof.
  revert d. induction parts as [|part parts IH]; intros d; cbn [parts_days day_parts].
  { exists d. split; [done|]. intros k _. by rewrite orb_false_r. }
  pose proof (day_part_spec part d) as Hp. destruct (part_days part) as [f|]; simpl; [|by rewrite Hp].
  destruct Hp as (d1 & -> & H1). simpl. specialize (IH d1).
  destruct (parts_days parts) as [g|]; simpl; [|done].
  destruct IH as (d2 & -> & H2). eexists. split; [done|]. intros k Hk.
  by rewrite H2, H1, orb_assoc by done.
Qed.

Lemma has_day_no k : has_day k no_days = false.
Proof. unfold has_day. by destruct (Z.to_nat k) as [|[|[|[|[|[|[|[|n]]]]]]]]. Qed.

(** The text of a set of days as a list of its days. *)
Definition day_names : list string := ["mon"; "tue"; "wed"; "thu"; "fri"; "sat"; "sun"].
Definition show_days (d : backupDays) : string :=
  JoinText "," (omap (λ p : bool * string, if p.1 then Some p.2 else None) (zip (days_list d) day_names)).

(** *** Schedules *)

Lemma Saturday_merge b e : Saturday (mergeWeekendDays b e) = Saturday e || Saturday b.
Proof. by destruct b. Qed.

Lemma Sunday_merge b e : Sunday (mergeWeekendDays b e) = Sunday e || Sunday b.
Proof. by destruct b. Qed.

(** The weekend days of a guest. *)
Definition weekend_of (vmid : string) (m : gmap string pveBackupSchedule) : bool * bool :=
  match m !! vmid with
  | Some s => (Saturday (Days s), Sunday (Days s))
  | None => (false, false)
  end.

Definition covers (a b : bool * bool) : Prop :=
  (a.1 = true → b.1 = true) ∧ (a.2 = true → b.2 = true).

#[export] Instance covers_preorder : PreOrder covers.
Proof. split; [by intros a|]. intros a b c [] []. split; auto. Qed.

Lemma place_covers s vmids m v :
  covers (weekend_of v m) (weekend_of v (place s vmids m)) ∧
  (v ∈ vmids → covers (Saturday (Days s), Sunday (Days s)) (weekend_of v (place s vmids m))).
Proof.
  revert s m. induction vmids as [|x vmids IH]; intros s m; cbn [place]; [split; [done|set_solver]|].
  assert (∀ s' w, (x ≠ v → weekend_of v (<[x := w]> m) = weekend_of v m) ∧
    (x = v → weekend_of v (<[x := w]> m) = (Saturday (Days w), Sunday (Days w))) ∧
    s' = s' :> pveBackupSchedule) as Hins.
  { intros s' w. unfold weekend_of. split_and!; [intros Hne; by rewrite lookup_insert_ne| |done].
    intros ->. by rewrite lookup_insert_eq. }
  set (current := default no_schedule (m !! x)).
  assert (weekend_of x m = (Saturday (Days current), Sunday (Days current))) as Hcur.
  { unfold weekend_of, current. by destruct (m !! x). }
  destruct (bool_decide _ || _); [|destruct (Saturday (Days s) || Sunday (Days s)) eqn:Hw].
  - set (s' := with_days _ s).
    assert (Saturday (Days s') = Saturday (Days current) || Saturday (Days s)) as Hsat
      by apply Saturday_merge.
    assert (Sunday (Days s') = Sunday (Days current) || Sunday (Days s)) as Hsun
      by apply Sunday_merge.
    destruct (IH s' (<[x := s']> m)) as [H1 H2]. destruct (Hins s s') as (Hne & He & _).
    assert (covers (Saturday (Days s), Sunday (Days s)) (Saturday (Days s'), Sunday (Days s'))) as Hss.
    { rewrite Hsat, Hsun. split; simpl; intros ->; by rewrite orb_true_r. }
    destruct (decide (x = v)) as [<-|Hxv].
    + rewrite He in H1 by done. split; [|intros _; by etransitivity].
      etransitivity; [|exact H1]. rewrite Hcur, Hsat, Hsun. split; simpl; by intros ->.
    + rewrite Hne in H1 by done. split; [done|]. intros Hv. etransitivity; [exact Hss|].
      apply H2. set_solver.
  - set (c' := with_days _ current).
    assert (Saturday (Days c') = Saturday (Days s) || Saturday (Days current)) as Hsat
      by apply Saturday_merge.
    assert (Sunday (Days c') = Sunday (Days s) || Sunday (Days current)) as Hsun
      by apply Sunday_merge.
    destruct (IH s (<[x := c']> m)) as [H1 H2]. destruct (Hins s c') as (Hne & He & _).
    destruct (decide (x = v)) as [<-|Hxv].
    + rewrite He in H1 by done. split.
      * etransitivity; [|exact H1]. rewrite Hcur, Hsat, Hsun.
        split; simpl; intros ->; by rewrite orb_true_r.
      * intros _. etransitivity; [|exact H1]. rewrite Hsat, Hsun. split; simpl; by intros ->.
    + rewrite Hne in H1 by done. split; [done|]. intros Hv. apply H2. set_solver.
  - destruct (IH s m) as [H1 H2]. split; [done|]. intros Hv.
    apply orb_false_iff in Hw as [-> ->]. by split.
Qed.

(** A job that the discovery takes into account for a guest. *)
Definition job_for (allVMIDs : list string) (vmid : string) (item : any) (s : pveBackupSchedule) : Prop :=
  ∃ job, as_map item = Some job ∧ backupJobEnabled (field "enabled" job) = true ∧
    parsePVEBackupSchedule (pveBackupScheduleText job) = (s, true) ∧
    vmid ∈ backupJobVMIDs job allVMIDs.

Lemma place_job_covers all m item v :
  covers (weekend_of v m) (weekend_of v (place_job all m item)) ∧
  ∀ s, job_for all v item s →
    covers (Saturday (Days s), Sunday (Days s)) (weekend_of v (place_job all m item)).
Proof.
  unfold place_job. split.
  - destruct (as_map item) as [job|]; [|done]. destruct (negb _); [done|].
    destruct (parsePVEBackupSchedule _) as [s []]; [apply place_covers|done].
  - intros s (job & -> & -> & -> & Hv). simpl. by apply place_covers.
Qed.

Lemma place_jobs_covers all v jobs m :
  covers (weekend_of v m) (weekend_of v (fold_left (place_job all) jobs m)) ∧
  ∀ item s, item ∈ jobs → job_for all v item s →
    covers (Saturday (Days s), Sunday (Days s)) (weekend_of v (fold_left (place_job all) jobs m)).
Proof.
  revert m. induction jobs as [|item jobs IH]; intros m; simpl; [split; [done|set_solver]|].
  destruct (place_job_covers all m item v) as [H1 H2].
  destruct (IH (place_job all m item)) as [H3 H4]. split; [by etransitivity|].
  intros item' s [->|Hin]%elem_of_cons Hs; [|by eapply H4].
  etransitivity; [by apply H2|exact H3].
Qed.

(** *** Guests *)

Definition distinct_guests (vms : list discoveredVM) : Prop :=
  NoDup (dv_VMID <$> vms) ∧ "" ∉ dv_VMID <$> vms.

Lemma append_distinct node vms item :
  distinct_guests vms → distinct_guests (appendDiscoveredVM node vms item).
Proof.
  intros [Hnd Hne]. unfold appendDiscoveredVM. destruct (as_map item) as [vm|]; [|done]. cbv zeta.
  destruct (_ && _ && _); [done|]. destruct (negb _); [done|].
  destruct (str_empty _ || _) eqn:He; [done|].
  apply orb_false_iff in He as [He%bool_decide_eq_false Hin%bool_decide_eq_false].
  unfold distinct_guests. rewrite fmap_app. simpl. split; [|set_solver].
  apply NoDup_app. split_and!; [done| |apply NoDup_singleton]. set_solver.
Qed.

Lemma append_all_distinct node items vms :
  distinct_guests vms → distinct_guests (fold_left (appendDiscoveredVM node) items vms).
Proof. revert vms. induction items as [|x l IH]; intros vms Hd; simpl; [done|]. by apply IH, append_distinct. Qed.

Lemma node_inventory_distinct get hostname : distinct_guests (node_inventory get hostname).1.
Proof.
  unfold node_inventory. cbn [fold_left].
  assert (distinct_guests []) as H0 by (split; [apply NoDup_nil_2|apply not_elem_of_nil]).
  repeat match goal with |- context [get ?e] => destruct (get e) end; cbn [fst];
    by repeat apply append_all_distinct.
Qed.

(** ** Properties *)

(** C32: the loop over the days from one to another ends for any two days of the week,
    after seven rounds at most, and adds exactly the days from the first to the second,
    over the end of the week where need be. *)
Theorem day_range_terminates (start stop : Z) (d : backupDays) :
  0 ≤ start < 7 → 0 ≤ stop < 7 →
  ∃ d', (∀ fuel, (7 ≤ fuel)%nat → day_range fuel start stop d = Some d') ∧
    ∀ k, 0 ≤ k < 7 →
      has_day k d' = has_day k d || ((k - start) mod 7 <=? (stop - start) mod 7).
Proof.
  intros Hs He. destruct (day_range_fuel 7 start stop d) as (d' & Hd' & Hk); [done|done|apply ahead_range|].
  exists d'. split; [|exact Hk]. intros fuel Hf.
  assert (∀ n m i e, (n ≤ m)%nat → day_range n i stop e = Some d' → day_range m i stop e = Some d') as Hmono.
  { induction n as [|n IH]; intros [|m] i e Hnm Hr; [done|done|lia|]. cbn [day_range] in *.
    destruct (i =? stop); [done|]. apply IH; [lia|done]. }
  by apply (Hmono 7%nat).
Qed.

(** a text of days other than the keywords is read as the union of its parts (days,
    and ranges of days), or refused as a whole when a part is neither. *)
Theorem parsePVEDays_spec (token : string) :
  let text := TrimSpace (ToLower token) in
  text ∉ [""; "daily"; "*"; "weekdays"; "weekend"] →
  match parts_days (Split "," text) with
  | None => parsePVEDays token = (no_days, false)
  | Some f => ∃ days, parsePVEDays token = (days, any_day days) ∧
      ∀ k, 0 ≤ k < 7 → has_day k days = f k
  end.
Proof.
  intros text Ht. unfold parsePVEDays. fold text. rewrite !bool_decide_false by set_solver.
  pose proof (day_parts_spec (Split "," text) no_days) as Hs.
  destruct (parts_days (Split "," text)) as [f|]; [|by rewrite Hs].
  destruct Hs as (days & -> & Hd). exists days. split; [done|]. intros k Hk.
  by rewrite Hd, has_day_no by done.
Qed.

(** every set of days, written as the list of its days, is read back. *)
Theorem parsePVEDays_roundtrip (d : backupDays) :
  any_day d = true → parsePVEDays (show_days d) = (d, true).
Proof.
  destruct d as [[] [] [] [] [] [] []]; intros Ha; try discriminate Ha; vm_compute; reflexivity.
Qed.

(** C33: the Saturday and the Sunday of every job that backs a guest up are among the
    days of the guest, whichever job is chosen for its other days. *)
Theorem weekend_never_lost (get : string → result (list (string * any)))
    (vms : list discoveredVM) (data : list (string * any))
    (schedules : gmap string pveBackupSchedule) (item : any) (s : pveBackupSchedule)
    (vmid : string) :
  get "cluster/backup" = Ok data →
  discoverPVEBackupSchedules get vms = Ok schedules →
  item ∈ as_list (field "data" data) → job_for (dv_VMID <$> vms) vmid item s →
  covers (Saturday (Days s), Sunday (Days s)) (weekend_of vmid schedules).
Proof.
  unfold discoverPVEBackupSchedules. intros -> [= <-] Hin Hjob.
  by eapply place_jobs_covers.
Qed.

(** whatever the inventories of the node and of the cluster answer, the guests found
    are distinct, have a number, and come in the order of their numbers. *)
Theorem discoverPVEVMs_distinct `{!SortSlice} (get : string → result (list (string * any)))
    (hostname : string) (vms : list discoveredVM) :
  discoverPVEVMs get hostname = Ok vms →
  NoDup (dv_VMID <$> vms) ∧ "" ∉ dv_VMID <$> vms ∧
  StronglySorted (λ a b, by_number a b = true) vms.
Proof.
  unfold discoverPVEVMs. pose proof (node_inventory_distinct get hostname) as Hd.
  destruct (node_inventory get hostname) as [found successes]. cbn [fst] in Hd.
  intros (all & Hall & [= <-])%result_bind_Ok.
  assert (distinct_guests all) as [Hnd Hne].
  { destruct (_ || _); [|by injection Hall as <-].
    destruct (get _) as [data|e].
    - injection Hall as <-. by apply append_all_distinct.
    - destruct (_ =? 0); [done|]. by injection Hall as <-. }
  assert (dv_VMID <$> sort_slice by_number all ≡ₚ dv_VMID <$> all) as Hp
    by (by apply fmap_Permutation, sort_slice_perm).
  rewrite Hp. split_and!; [done|done|]. apply sort_slice_sorted; unfold by_number.
  - intros x y. destruct (Z.leb_spec (Atoi (dv_VMID x)).1 (Atoi (dv_VMID y)).1); [by left|].
    right. apply Z.leb_le. lia.
  - intros x y z ?%Z.leb_le ?%Z.leb_le. apply Z.leb_le. lia.
Qed.

(** ** Examples *)

Module ScheduleExamples.
Definition job (l : list (string * any)) : any := AMap (("enabled", AFloat (Float 1)) :: l).

(** Guest 100 is backed up on Saturdays by one job; another backs up 100 and 101 on
    working days. *)
Definition jobs : list any :=
  [job [("schedule", AString "sat 01:00"); ("vmid", AString "100")];
   job [("schedule", AString "mon..fri 22:00"); ("vmid", AString "100,101")]].

Definition api (jobs : list any) (ep : string) : result (list (string * any)) :=
  if str_empty ep then Err (ErrMsg "") else Ok [("data", AList jobs)].

Definition guests : list discoveredVM := [Build_discoveredVM "100" "web"; Build_discoveredVM "101" "db"].

Definition days_of (vmid : string) (jobs : list any) (vms : list discoveredVM) : option backupDays :=
  match discoverPVEBackupSchedules (api jobs) vms with
  | Ok m => Days <$> m !! vmid
  | Err _ => None
  end.

Definition inventory : list any :=
  [AMap [("vmid", AFloat (Float 101)); ("name", AString "db")];
   AMap [("vmid", AString "100"); ("name", AString "web")];
   AMap [("vmid", AFloat (Float 101)); ("name", AString "db")]].
End ScheduleExamples.

(** the weekend days of one guest leak into the guests that follow it in a job: 101
    is expected on Saturdays, when no job backs it up. *)
Theorem weekend_days_leak :
  ScheduleExamples.days_of "101" ScheduleExamples.jobs ScheduleExamples.guests =
    Some (Build_backupDays true true true true true true false) ∧
  ScheduleExamples.days_of "101" (drop 1 ScheduleExamples.jobs) ScheduleExamples.guests =
    Some workdays ∧
  ∀ item s, item ∈ ScheduleExamples.jobs → job_for ["100"; "101"] "101" item s →
    Saturday (Days s) = false.
Proof.
  split_and!; [vm_compute; reflexivity..|].
  intros item s Hin (job & Hj & _ & Hs & Hv).
  apply elem_of_cons in Hin as [->|[->|[]%elem_of_nil]%elem_of_cons]; injection Hj as <-.
  - apply (bool_decide_eq_true_2 _) in Hv. vm_compute in Hv. discriminate Hv.
  - vm_compute in Hs. by injection Hs as <-.
Qed.

(** a job whose guest is given as a number of seven digits is not found for the
    guest: the two conversions of numbers write it differently. *)
Theorem large_vmid_missed :
  pveValueString (AFloat (Float 1000000)) = "1000000" ∧
  backupJobVMIDs [("vmid", AFloat (Float 1000000))] ["1000000"] = ["1e+06"].
Proof. split; vm_compute; reflexivity. Qed.

Lemma day_range_terminates_witness :
  ∃ d, day_range 7 5 1 no_days = Some d ∧ days_list d = [true; true; false; false; false; true; true].
Proof.
  destruct (day_range_terminates 5 1 no_days) as (d & Hd & Hk); [lia|lia|].
  exists d. split; [by apply Hd|].
  pose proof (λ k Hk', eq_sym (Hk k Hk')) as He. destruct d as [mo tu we th fr sa su].
  pose proof (He 0 ltac:(lia)). pose proof (He 1 ltac:(lia)). pose proof (He 2 ltac:(lia)).
  pose proof (He 3 ltac:(lia)). pose proof (He 4 ltac:(lia)). pose proof (He 5 ltac:(lia)).
  pose proof (He 6 ltac:(lia)). vm_compute in *. congruence.
Defined.

Lemma parsePVEDays_spec_witness :
  parsePVEDays "Mon..Wed, sat" = (Build_backupDays true true true false false true false, true).
Proof.
  assert (TrimSpace (ToLower "Mon..Wed, sat") ∉ [""; "daily"; "*"; "weekdays"; "weekend"]) as Hn
    by (apply (bool_decide_eq_true_1 (_ ∉ _)); vm_compute; reflexivity).
  pose proof (parsePVEDays_spec "Mon..Wed, sat" Hn) as Hp. cbv zeta in Hp.
  destruct (parts_days _) as [f|] eqn:Hf; [|vm_compute in Hf; discriminate Hf].
  destruct Hp as (days & Hp & _). vm_compute in Hp. vm_compute. congruence.
Defined.

Lemma parsePVEDays_roundtrip_witness : parsePVEDays (show_days weekend) = (weekend, true).
Proof. by apply parsePVEDays_roundtrip. Defined.

Lemma weekend_never_lost_witness :
  ∃ m, discoverPVEBackupSchedules (ScheduleExamples.api ScheduleExamples.jobs)
      ScheduleExamples.guests = Ok m ∧ covers (true, false) (weekend_of "100" m).
Proof.
  destruct (discoverPVEBackupSchedules (ScheduleExamples.api ScheduleExamples.jobs)
    ScheduleExamples.guests) as [m|e] eqn:Hm; [|vm_compute in Hm; discriminate Hm].
  exists m. split; [done|].
  apply (weekend_never_lost (ScheduleExamples.api ScheduleExamples.jobs) ScheduleExamples.guests
    [("data", AList ScheduleExamples.jobs)] m
    (ScheduleExamples.job [("schedule", AString "sat 01:00"); ("vmid", AString "100")])
    (parsePVEBackupSchedule "sat 01:00").1 "100" eq_refl Hm); [left|].
  eexists. split_and!; [done|vm_compute; reflexivity|vm_compute; reflexivity|].
  apply (bool_decide_eq_true_1 (_ ∈ _)). vm_compute. reflexivity.
Defined.

Lemma discoverPVEVMs_distinct_witness :
  ∃ vms, discoverPVEVMs (ScheduleExamples.api ScheduleExamples.inventory) "pve1" = Ok vms ∧
    dv_VMID <$> vms = ["100"; "101"] ∧ NoDup (dv_VMID <$> vms).
Proof.
  eexists. split; [vm_compute; reflexivity|]. split; [reflexivity|].
  apply (discoverPVEVMs_distinct (ScheduleExamples.api ScheduleExamples.inventory) "pve1").
  vm_compute. reflexivity.
Defined.
