(* ===== verification/ClientSync.v ===== *)
(** * Backup schedules of a Proxmox node: the writing half of [client/backup_config.go]

    The client reads the schedules that the server has, tells it whether the node has
    guests, and creates or changes the schedules one request at a time.  A request is a
    program on the world [W] behind the network, which the client only sees through
    [Do]; [ScheduleServer] says what the client needs of it. *)
From Stdlib Require Import Ascii.
From S2P Require Import Prelude GoStrings GoNum GoUrl GoText GoAny Sql ClientSchedule.

(** ** [config.go] *)

Record Config := {
  cfg_APIURL : string; cfg_APIKey : string; cfg_ProxmoxToken : string;
  cfg_ProxmoxSecret : string; cfg_VerifyTLS : bool; cfg_CABundle : string;
  cfg_Debug : bool; cfg_DebugAPICalls : bool; cfg_ServerType : string }.

(** [getenv] is the environment after the file of the installation is read. *)
Definition loadConfig (getenv : string → string) : Config :=
  {| cfg_APIURL := getenv "API_URL"; cfg_APIKey := getenv "API_KEY";
     cfg_ProxmoxToken := getenv "PROXMOX_TOKEN"; cfg_ProxmoxSecret := getenv "PROXMOX_SECRET";
     cfg_VerifyTLS := negb (bool_decide (ToLower (getenv "PROXMOX_VERIFY_TLS") = "false"));
     cfg_CABundle := TrimSpace (getenv "PROXMOX_CA_BUNDLE");
     cfg_Debug := bool_decide (ToLower (getenv "DEBUG_MODE") = "true");
     cfg_DebugAPICalls := bool_decide (ToLower (getenv "DEBUG_API_CALLS") = "true");
     cfg_ServerType := getenv "SERVER_TYPE" |}.

(** ** Messages *)

Record backupConfig := {
  bc_VMID : string; bc_VMName : string; bc_Monday : bool; bc_Tuesday : bool;
  bc_Wednesday : bool; bc_Thursday : bool; bc_Friday : bool; bc_Saturday : bool;
  bc_Sunday : bool }.

#[export] Instance backupConfig_eq_dec : EqDecision backupConfig.
Proof. solve_decision. Defined.

(** The headers that are set; an empty [X-Machine-ID] is not. *)
Record HttpRequest := {
  hr_Method : string; hr_URL : string; hr_Authorization : string; hr_MachineID : string;
  hr_Body : option any }.

(** The body, and what [encoding/json] reads from it. *)
Record HttpResponse := { hs_StatusCode : Z; hs_Body : string; hs_JSON : result any }.

Definition decode_config (v : any) : result backupConfig :=
  m ← members v;
  let day := λ tag, decode_field as_bool false tag m in
  id ← decode_field as_string "" "vm_id" m; name ← decode_field as_string "" "vm_name" m;
  mo ← day "monday"; tu ← day "tuesday"; we ← day "wednesday"; th ← day "thursday";
  fr ← day "friday"; sa ← day "saturday"; su ← day "sunday";
  Ok (Build_backupConfig id name mo tu we th fr sa su).

Fixpoint decode_all {A B} (f : A → result B) (l : list A) : result (list B) :=
  match l with
  | [] => Ok []
  | x :: l => y ← f x; ys ← decode_all f l; Ok (y :: ys)
  end.

(** [backupConfigResponse]. *)
Definition decode_configs (v : any) : result (list backupConfig) :=
  m ← members v;
  l ← decode_field as_array [] "configs" m;
  decode_all decode_config l.

(** The map that [fetchExistingVMConfigs] makes of a list: later entries win. *)
Definition configs_by_vmid (l : list backupConfig) : gmap string backupConfig :=
  fold_left (λ m c, <[bc_VMID c := c]> m) l ∅.

(** [strings.TrimRight(s, "/")]. *)
Fixpoint TrimSlashes (s : string) : string :=
  match s with
  | EmptyString => EmptyString
  | String c s =>
      let s := TrimSlashes s in
      if bool_decide (c = "/"%char) && str_empty s then EmptyString else String c s
  end.

(** ** What a guest is given *)

Definition scheduled_days (days : backupDays) : backupDays := if any_day days then days else workdays.

Definition vmConfigPayload (vm : discoveredVM) (days : backupDays) : any :=
  let days := scheduled_days days in
  AMap [("vm_id", AString (dv_VMID vm)); ("vm_name", AString (dv_Name vm));
        ("monday", ABool (Monday days)); ("tuesday", ABool (Tuesday days));
        ("wednesday", ABool (Wednesday days)); ("thursday", ABool (Thursday days));
        ("friday", ABool (Friday days)); ("saturday", ABool (Saturday days));
        ("sunday", ABool (Sunday days))].

Definition hasAnyScheduledDay (cfg : backupConfig) : bool :=
  bc_Monday cfg || bc_Tuesday cfg || bc_Wednesday cfg || bc_Thursday cfg || bc_Friday cfg ||
  bc_Saturday cfg || bc_Sunday cfg.

Definition backupConfigMatches (cfg : backupConfig) (vm : discoveredVM) (days : backupDays) : bool :=
  let days := scheduled_days days in
  bool_decide (bc_VMID cfg = dv_VMID vm) && bool_decide (bc_VMName cfg = dv_Name vm) &&
  Bool.eqb (bc_Monday cfg) (Monday days) && Bool.eqb (bc_Tuesday cfg) (Tuesday days) &&
  Bool.eqb (bc_Wednesday cfg) (Wednesday days) && Bool.eqb (bc_Thursday cfg) (Thursday days) &&
  Bool.eqb (bc_Friday cfg) (Friday days) && Bool.eqb (bc_Saturday cfg) (Saturday days) &&
  Bool.eqb (bc_Sunday cfg) (Sunday days).

Definition inventory_body (hasVMs : bool) : any := AMap [("has_vms", ABool hasVMs)].

Definition json_request (method url apiKey machineID : string) (body : option any) : HttpRequest :=
  {| hr_Method := method; hr_URL := url; hr_Authorization := "Bearer " +:+ apiKey;
     hr_MachineID := machineID; hr_Body := body |}.

(** ** The requests *)

(** The counts that the sync returns, with its error. *)
Record SyncResult := { created : Z; updated : Z; skipped : Z; sync_err : option error }.

Section sync.
Context {W : Type} (Do : HttpRequest → prog W HttpResponse).
(** What [http.NewRequest] has against a URL. *)
Context (bad_url : string → option error).

(** A request whose errors are wrapped, and whose status must be [code]. *)
Definition round_trip (what : string) (code : Z) (req : HttpRequest) : prog W HttpResponse :=
  match bad_url (hr_URL req) with
  | Some e => fail e
  | None =>
      resp ← wrap_err what (Do req);
      if negb (hs_StatusCode resp =? code)
      then fail (ErrMsg (what +:+ " returned " +:+ Itoa (hs_StatusCode resp) +:+ ": " +:+
                         TrimSpace (hs_Body resp)))
      else mret resp
  end.

Definition fetchExistingVMConfigs (baseURL apiKey machineID : string) :
    prog W (gmap string backupConfig) :=
  resp ← round_trip "get backup config" 200 (json_request "GET" baseURL apiKey machineID None);
  match (v ← hs_JSON resp; decode_configs v) with
  | Err e => fail (ErrWrap "parse backup config" e)
  | Ok configs => mret (configs_by_vmid configs)
  end.

Definition updateBackupInventory (baseURL apiKey machineID : string) (hasVMs : bool) : prog W () :=
  round_trip "update backup inventory" 200
    (json_request "PUT" baseURL apiKey machineID (Some (inventory_body hasVMs))) ≫= λ _, mret ().

Definition createVMConfig (baseURL apiKey machineID vmid : string) (payload : any) : prog W () :=
  round_trip ("create backup config for VM " +:+ vmid) 201
    (json_request "POST" (baseURL +:+ "/vms") apiKey machineID (Some payload)) ≫= λ _, mret ().

Definition updateVMConfig (baseURL apiKey machineID vmid : string) (payload : any) : prog W () :=
  round_trip ("update backup config for VM " +:+ vmid) 200
    (json_request "PUT" (baseURL +:+ "/vms/" +:+ PathEscape vmid) apiKey machineID (Some payload))
  ≫= λ _, mret ().

Section loop.
Context (base apiKey machineID : string) (existing : gmap string backupConfig).
Context (overwriteExisting : bool) (scheduleByVMID : gmap string pveBackupSchedule).

Definition days_for (vm : discoveredVM) : backupDays :=
  Days (default no_schedule (scheduleByVMID !! dv_VMID vm)).

(** The loop over the guests, with the counts so far. *)
Fixpoint sync_vms (vms : list discoveredVM) (c u s : Z) : prog W SyncResult :=
  match vms with
  | [] => mret (Build_SyncResult c u s None)
  | vm :: vms =>
      let days := days_for vm in
      let payload := vmConfigPayload vm days in
      let update :=
        andThen (updateVMConfig base apiKey machineID (dv_VMID vm) payload) (λ r,
          match r with
          | Err e => mret (Build_SyncResult c u s (Some e))
          | Ok _ => sync_vms vms c (u + 1) s
          end) in
      match existing !! dv_VMID vm with
      | Some existingCfg =>
          if overwriteExisting then
            if backupConfigMatches existingCfg vm days then sync_vms vms c u (s + 1) else update
          else if negb (hasAnyScheduledDay existingCfg) then update
          else sync_vms vms c u (s + 1)
      | None =>
          andThen (createVMConfig base apiKey machineID (dv_VMID vm) payload) (λ r,
            match r with
            | Err e => mret (Build_SyncResult c u s (Some e))
            | Ok _ => sync_vms vms (c + 1) u s
            end)
      end
  end.
End loop.

Definition base_url (cfg : Config) (serverName : string) : string :=
  TrimSlashes (cfg_APIURL cfg) +:+ "/api/backup-config/pve/" +:+ PathEscape serverName.

(** [schedules]: [None] is a nil map, which is read as an empty one. *)
Definition syncBackupConfigWithOverwrite (cfg : Config) (serverName machineID : string)
    (vms : list discoveredVM) (overwriteExisting : bool)
    (schedules : option (gmap string pveBackupSchedule)) : prog W SyncResult :=
  let nothing e := mret (Build_SyncResult 0 0 0 (Some e)) in
  if str_empty (TrimSlashes (cfg_APIURL cfg)) || str_empty (cfg_APIKey cfg)
  then nothing (ErrMsg "API_URL and API_KEY are required") else
  let base := base_url cfg serverName in
  andThen (fetchExistingVMConfigs base (cfg_APIKey cfg) machineID) (λ r,
    match r with
    | Err e => nothing e
    | Ok existing =>
        andThen (updateBackupInventory base (cfg_APIKey cfg) machineID (negb (is_nil vms))) (λ r,
          match r with
          | Err e => nothing e
          | Ok _ => sync_vms base (cfg_APIKey cfg) machineID existing overwriteExisting
                      (default ∅ schedules) vms 0 0 0
          end)
    end).

Definition syncBackupConfig (cfg : Config) (serverName machineID : string)
    (vms : list discoveredVM) (schedules : option (gmap string pveBackupSchedule)) :
    prog W SyncResult :=
  syncBackupConfigWithOverwrite cfg serverName machineID vms false schedules.

(** The configuration, what [sysinfo.go] says of the machine, and the answers of the
    Proxmox API are arguments; the lines that are printed are left out. *)
Definition syncInstalledBackupConfigForMode `{!SortSlice} (cfg : Config)
    (detectedType hostname machineID : string) (get : string → result (list (string * any)))
    (overwriteExisting requirePVE : bool) : prog W () :=
  let serverType :=
    if bool_decide (cfg_ServerType cfg ∈ [""; "unknown"]) then detectedType else cfg_ServerType cfg in
  if negb (bool_decide (serverType = "pve")) then
    (if negb requirePVE then mret ()
     else fail (ErrMsg "sync-backups is only available on Proxmox VE"))
  else if str_empty (cfg_APIURL cfg) || str_empty (cfg_APIKey cfg)
  then fail (ErrMsg "API_URL and API_KEY are required")
  else if str_empty (cfg_ProxmoxToken cfg) || str_empty (cfg_ProxmoxSecret cfg)
  then fail (ErrMsg "PROXMOX_TOKEN and PROXMOX_SECRET are required") else
  match discoverPVEVMs get hostname with
  | Err e => fail (ErrWrap "list PVE VMs" e)
  | Ok vms =>
      let finish schedules :=
        r ← syncBackupConfigWithOverwrite cfg hostname machineID vms overwriteExisting schedules;
        match sync_err r with
        | Some e => fail (ErrWrap "sync backup config" e)
        | None => mret ()
        end in
      match discoverPVEBackupSchedules get vms with
      | Err e => if overwriteExisting then fail (ErrWrap "read PVE backup jobs" e) else finish None
      | Ok schedules => finish (Some schedules)
      end
  end.
End sync.

(** ** What the client needs of the server *)

(** The schedule that the client wants for a guest. *)
Definition wanted (vm : discoveredVM) (days : backupDays) : backupConfig :=
  let days := scheduled_days days in
  Build_backupConfig (dv_VMID vm) (dv_Name vm) (Monday days) (Tuesday days) (Wednesday days)
    (Thursday days) (Friday days) (Saturday days) (Sunday days).

(** The server keeps, for the node of the key, a schedule for some guests.  A request
    that is not answered with its status may have been carried out all the same.  The
    instance for the handlers of this repository is [schedule_handlers] of
    [SyncServer.v]; a database with a schedule from before schedules had a server number
    is not ready in this sense, since an update does not reach it. *)
Class ScheduleServer {W : Type} (Do : HttpRequest → prog W HttpResponse)
    (base apiKey machineID : string) := {
  ready : W → Prop;
  stored : W → gmap string backupConfig;
  (** The guests that the server takes a schedule for. *)
  accepts : string → Prop;
  fetch_law w : ready w →
    always (Do (json_request "GET" base apiKey machineID None)) (λ r w',
      ready w' ∧ stored w' = stored w ∧
      ∀ resp, r = Ok resp → hs_StatusCode resp = 200 →
        ∃ l, (v ← hs_JSON resp; decode_configs v) = Ok l ∧ configs_by_vmid l = stored w) w;
  inventory_law w b : ready w →
    always (Do (json_request "PUT" base apiKey machineID (Some (inventory_body b)))) (λ _ w',
      ready w' ∧ stored w' = stored w) w;
  create_law w vm days : ready w → accepts (dv_VMID vm) → stored w !! dv_VMID vm = None →
    always (Do (json_request "POST" (base +:+ "/vms") apiKey machineID
                  (Some (vmConfigPayload vm days)))) (λ r w',
      ready w' ∧
      (stored w' = <[dv_VMID vm := wanted vm days]> (stored w) ∨
       stored w' = stored w ∧ ∀ resp, r = Ok resp → hs_StatusCode resp ≠ 201)) w;
  update_law w vm days : ready w → accepts (dv_VMID vm) → is_Some (stored w !! dv_VMID vm) →
    always (Do (json_request "PUT" (base +:+ "/vms/" +:+ PathEscape (dv_VMID vm)) apiKey machineID
                  (Some (vmConfigPayload vm days)))) (λ r w',
      ready w' ∧
      (stored w' = <[dv_VMID vm := wanted vm days]> (stored w) ∨
       stored w' = stored w ∧ ∀ resp, r = Ok resp → hs_StatusCode resp ≠ 200)) w
}.

(** ** Lemmas *)

Lemma backupConfigMatches_spec cfg vm days :
  backupConfigMatches cfg vm days = true ↔ cfg = wanted vm days.
Proof.
  unfold backupConfigMatches, wanted. cbv zeta. destruct (scheduled_days days), cfg; simpl.
  rewrite !andb_true_iff, !bool_decide_eq_true, !eqb_true_iff. split; [naive_solver|].
  intros [= -> -> -> -> -> -> -> -> ->]. by split_and!.
Qed.

Lemma wanted_has_day vm days : hasAnyScheduledDay (wanted vm days) = true.
Proof.
  unfold wanted, scheduled_days. destruct (any_day days) eqn:Ha; [|done].
  destruct days; exact Ha.
Qed.

(** What the payload says is what is wanted. *)
Lemma decode_payload vm days : decode_config (vmConfigPayload vm days) = Ok (wanted vm days).
Proof. reflexivity. Qed.

(** ** What a sync does *)

Inductive action := Create | Update | Skip.
#[export] Instance action_eq_dec : EqDecision action.
Proof. solve_decision. Defined.

Section plan.
Context (existing : gmap string backupConfig) (overwrite : bool)
  (schedules : gmap string pveBackupSchedule).

(** What is to be done with a guest, by the schedule that the server has for it. *)
Definition plan (vm : discoveredVM) : action :=
  match existing !! dv_VMID vm with
  | None => Create
  | Some cfg =>
      if overwrite then if decide (cfg = wanted vm (days_for schedules vm)) then Skip else Update
      else if hasAnyScheduledDay cfg then Skip else Update
  end.

Definition planned (a : action) (vms : list discoveredVM) : Z :=
  Z.of_nat (length (List.filter (λ vm, bool_decide (plan vm = a)) vms)).

(** The schedules after the guests [vms] were treated. *)
Definition synced (m : gmap string backupConfig) (vms : list discoveredVM) :
    gmap string backupConfig :=
  fold_left (λ m vm, if decide (plan vm = Skip) then m else
    <[dv_VMID vm := wanted vm (days_for schedules vm)]> m) vms m.

Lemma synced_other vms m id : id ∉ dv_VMID <$> vms → synced m vms !! id = m !! id.
Proof.
  revert m. induction vms as [|vm vms IH]; intros m Hid; [done|].
  rewrite fmap_cons in Hid. apply not_elem_of_cons in Hid as [Hne Hid]. simpl.
  rewrite IH by done. case_decide; [done|]. by apply lookup_insert_ne.
Qed.

Lemma synced_guest vms m vm :
  NoDup (dv_VMID <$> vms) → vm ∈ vms →
  synced m vms !! dv_VMID vm =
    if decide (plan vm = Skip) then m !! dv_VMID vm else Some (wanted vm (days_for schedules vm)).
Proof.
  revert m. induction vms as [|vm' vms IH]; intros m Hnd Hin; [by apply elem_of_nil in Hin|].
  rewrite fmap_cons in Hnd. apply NoDup_cons in Hnd as [Hni Hnd]. simpl.
  apply elem_of_cons in Hin as [->|Hin].
  - rewrite synced_other by done. case_decide; [done|]. by rewrite lookup_insert_eq.
  - rewrite IH by done. case_decide; [|done]. case_decide; [done|].
    apply lookup_insert_ne. intros He. apply Hni. rewrite He. by apply list_elem_of_fmap_2.
Qed.

Lemma planned_cons a vm vms :
  planned a (vm :: vms) = (if decide (plan vm = a) then 1 else 0) + planned a vms.
Proof.
  unfold planned. simpl. case_bool_decide; case_decide; try done; simpl length; lia.
Qed.
End plan.

(** The schedules after a sync that overwrites. *)
Lemma synced_overwritten m schedules vms :
  NoDup (dv_VMID <$> vms) →
  (∀ vm, vm ∈ vms → synced m true schedules m vms !! dv_VMID vm =
     Some (wanted vm (days_for schedules vm))) ∧
  (∀ id, id ∉ dv_VMID <$> vms → synced m true schedules m vms !! id = m !! id).
Proof.
  intros Hnd. split; [|intros id Hid; by apply synced_other].
  intros vm Hin. rewrite synced_guest by done. case_decide as Hp; [|done].
  unfold plan in Hp. destruct (m !! dv_VMID vm) as [c|]; [|done].
  case_decide as Hcfg; [|done]. by rewrite Hcfg.
Qed.

Section sync_server.
Context {W : Type} (Do : HttpRequest → prog W HttpResponse) (bad_url : string → option error).

Lemma always_round_trip what code req (Q : result HttpResponse → W → Prop) w :
  (∀ e, Q (Err e) w) →
  always (Do req) (λ r w',
    (∀ resp, r = Ok resp → hs_StatusCode resp = code → Q (Ok resp) w') ∧
    ((∀ resp, r = Ok resp → hs_StatusCode resp ≠ code) → ∀ e, Q (Err e) w')) w →
  always (round_trip Do bad_url what code req) Q w.
Proof.
  intros He HQ. unfold round_trip. destruct (bad_url _) as [e|]; [by apply always_Ret|].
  apply always_bind, always_wrap_err. eapply always_mono; [exact HQ|].
  intros [resp|e] w' [Hok Herr]; [|by apply Herr].
  destruct (Z.eqb_spec (hs_StatusCode resp) code) as [Hc|Hc]; simpl; apply always_Ret.
  - by apply Hok.
  - apply Herr. by intros ? [= <-].
Qed.

Context {base apiKey machineID : string} `{HS : !ScheduleServer Do base apiKey machineID}.
Context (existing : gmap string backupConfig) (overwrite : bool)
  (schedules : gmap string pveBackupSchedule).

Local Notation days vm := (days_for schedules vm).

Lemma always_createVMConfig w vm :
  ready w → accepts (dv_VMID vm) → stored w !! dv_VMID vm = None →
  always (createVMConfig Do bad_url base apiKey machineID (dv_VMID vm) (vmConfigPayload vm (days vm)))
    (λ r w', ready w' ∧
      (stored w' = <[dv_VMID vm := wanted vm (days vm)]> (stored w) ∨
       stored w' = stored w ∧ r ≠ Ok ())) w.
Proof.
  intros Hw Hacc Hnone. unfold createVMConfig. apply always_bind, always_round_trip.
  { intros e. split; [done|]. by right. }
  eapply always_mono; [exact (create_law w vm (days vm) Hw Hacc Hnone)|].
  intros r w' [Hw' Hs]. split.
  - intros resp -> Hc. apply always_Ret. split; [done|]. left.
    destruct Hs as [Hs|[_ Hn]]; [done|]. by destruct (Hn resp eq_refl).
  - intros _ e. split; [done|]. destruct Hs as [Hs|[Hs _]]; [by left|by right].
Qed.

Lemma always_updateVMConfig w vm :
  ready w → accepts (dv_VMID vm) → is_Some (stored w !! dv_VMID vm) →
  always (updateVMConfig Do bad_url base apiKey machineID (dv_VMID vm) (vmConfigPayload vm (days vm)))
    (λ r w', ready w' ∧
      (stored w' = <[dv_VMID vm := wanted vm (days vm)]> (stored w) ∨
       stored w' = stored w ∧ r ≠ Ok ())) w.
Proof.
  intros Hw Hacc Hsome. unfold updateVMConfig. apply always_bind, always_round_trip.
  { intros e. split; [done|]. by right. }
  eapply always_mono; [exact (update_law w vm (days vm) Hw Hacc Hsome)|].
  intros r w' [Hw' Hs]. split.
  - intros resp -> Hc. apply always_Ret. split; [done|]. left.
    destruct Hs as [Hs|[_ Hn]]; [done|]. by destruct (Hn resp eq_refl).
  - intros _ e. split; [done|]. destruct Hs as [Hs|[Hs _]]; [by left|by right].
Qed.

(** From [w], the loop has treated a prefix of the guests, all of them without an
    error, and has counted what it did. *)
Definition treated (vms : list discoveredVM) (c u s : Z) (w : W) (r : result SyncResult) (w' : W) :
    Prop :=
  ready w' ∧ ∃ res done rest, r = Ok res ∧ vms = done ++ rest ∧
    stored w' = synced existing overwrite schedules (stored w) done ∧
    (sync_err res = None → rest = [] ∧
      created res = c + planned existing overwrite schedules Create vms ∧
      updated res = u + planned existing overwrite schedules Update vms ∧
      skipped res = s + planned existing overwrite schedules Skip vms).

(** The counts after one guest. *)
Definition count_action (a : action) (c u s : Z) : Z * Z * Z :=
  match a with
  | Create => (c + 1, u, s) | Update => (c, u + 1, s) | Skip => (c, u, s + 1)
  end.

Lemma treated_cons vm vms c u s c' u' s' w w1 r w' :
  count_action (plan existing overwrite schedules vm) c u s = (c', u', s') →
  stored w1 = synced existing overwrite schedules (stored w) [vm] →
  treated vms c' u' s' w1 r w' → treated (vm :: vms) c u s w r w'.
Proof.
  intros Hn H1 (Hw' & res & done & rest & -> & -> & Hs & Hc). split; [done|].
  exists res, (vm :: done), rest. split_and!; [done|done| |].
  - by rewrite Hs, H1.
  - intros Herr. destruct (Hc Herr) as (-> & -> & -> & ->). rewrite !planned_cons.
    destruct (plan _ _ _ vm); injection Hn as <- <- <-;
      repeat case_decide; try congruence; split_and!; (done || lia).
Qed.

(** The tests of the loop decide by the plan. *)
Lemma plan_branch {A} w vm cfg (skip update : A) :
  stored w !! dv_VMID vm = existing !! dv_VMID vm → stored w !! dv_VMID vm = Some cfg →
  plan existing overwrite schedules vm ≠ Create ∧
  (if overwrite then if backupConfigMatches cfg vm (days vm) then skip else update
   else if negb (hasAnyScheduledDay cfg) then update else skip) =
  if decide (plan existing overwrite schedules vm = Skip) then skip else update.
Proof.
  intros -> Hcfg. unfold plan. rewrite Hcfg.
  destruct overwrite; [|by destruct (hasAnyScheduledDay cfg)].
  destruct (backupConfigMatches _ _ _) eqn:Hm.
  - apply backupConfigMatches_spec in Hm. by rewrite (decide_True (P:=cfg = _)).
  - rewrite (decide_False (P:=cfg = _)); [done|]. intros He%backupConfigMatches_spec. congruence.
Qed.

(** A request for one guest, and then the others. *)
Lemma treated_request p k vm vms c u s (w : W) :
  plan existing overwrite schedules vm ≠ Skip →
  always p (λ r w', ready w' ∧
    (stored w' = <[dv_VMID vm := wanted vm (days vm)]> (stored w) ∨
     stored w' = stored w ∧ r ≠ Ok ())) w →
  (∀ w', ready w' → stored w' = synced existing overwrite schedules (stored w) [vm] →
     always k (treated (vm :: vms) c u s w) w') →
  always (andThen p (λ r, match r with
    | Err e => mret (Build_SyncResult c u s (Some e)) | Ok _ => k end))
    (treated (vm :: vms) c u s w) w.
Proof.
  intros Hplan Hp Hk. apply always_andThen. eapply always_mono; [exact Hp|].
  assert (<[dv_VMID vm := wanted vm (days vm)]> (stored w) =
    synced existing overwrite schedules (stored w) [vm]) as Hone
    by (simpl; by rewrite decide_False).
  intros [[]|e] w' [Hw' Hs].
  - apply Hk; [done|]. destruct Hs as [Hs|[_ Hn]]; [by rewrite Hs|done].
  - apply always_Ret. split; [done|]. eexists. destruct Hs as [Hs|[Hs _]].
    + exists [vm], vms. split_and!; [done|done|by rewrite Hs|done].
    + exists [], (vm :: vms). split_and!; [done|done|by rewrite Hs|done].
Qed.

(** The guests that are left are still as they were. *)
Lemma untreated vm vms w w' :
  NoDup (dv_VMID <$> vm :: vms) →
  (∀ vm', vm' ∈ vm :: vms → stored w !! dv_VMID vm' = existing !! dv_VMID vm') →
  stored w' = synced existing overwrite schedules (stored w) [vm] →
  ∀ vm', vm' ∈ vms → stored w' !! dv_VMID vm' = existing !! dv_VMID vm'.
Proof.
  rewrite fmap_cons. intros [Hni _]%NoDup_cons Hex Hs vm' Hin.
  rewrite Hs, synced_other; [by apply Hex; right|].
  rewrite fmap_cons, list_elem_of_singleton. intros He. apply Hni. rewrite <-He.
  by apply list_elem_of_fmap_2.
Qed.

Lemma always_sync_vms vms c u s w :
  ready w → NoDup (dv_VMID <$> vms) → Forall accepts (dv_VMID <$> vms) →
  (∀ vm, vm ∈ vms → stored w !! dv_VMID vm = existing !! dv_VMID vm) →
  always (sync_vms Do bad_url base apiKey machineID existing overwrite schedules vms c u s)
    (treated vms c u s w) w.
Proof.
  revert c u s w. induction vms as [|vm vms IH]; intros c u s w Hw Hnd Hacc Hex.
  { apply always_Ret. split; [done|]. eexists _, [], []. split_and!; [done..|].
    intros _. unfold planned. simpl. split_and!; [done|lia..]. }
  rewrite fmap_cons in Hacc. apply Forall_cons in Hacc as [Hvm Hacc].
  assert (stored w !! dv_VMID vm = existing !! dv_VMID vm) as Hst by (apply Hex; left).
  assert (∀ c' u' s' w', count_action (plan existing overwrite schedules vm) c u s = (c', u', s') →
    ready w' → stored w' = synced existing overwrite schedules (stored w) [vm] →
    always (sync_vms Do bad_url base apiKey machineID existing overwrite schedules vms c' u' s')
      (treated (vm :: vms) c u s w) w') as Hnext.
  { intros c' u' s' w' Hcount Hw' Hs'. eapply always_mono; [apply IH|].
    - done.
    - rewrite fmap_cons in Hnd. by apply NoDup_cons in Hnd as [_ ?].
    - done.
    - by eapply untreated.
    - intros r w2 Ht. by eapply treated_cons. }
  cbn [sync_vms]. cbv zeta. rewrite <-Hst. destruct (stored w !! dv_VMID vm) as [cfg|] eqn:Hcfg.
  - edestruct (plan_branch (A:=prog W SyncResult) w vm cfg) as [Hne ->]; [by rewrite Hcfg|done|].
    case_decide as Hp.
    + apply Hnext; [by rewrite Hp|done|simpl; by rewrite decide_True].
    + assert (plan existing overwrite schedules vm = Update) as Hu
        by (by destruct (plan existing overwrite schedules vm)).
      apply treated_request; [done|apply always_updateVMConfig; by rewrite ?Hcfg|].
      intros. apply Hnext; by rewrite ?Hu.
  - assert (plan existing overwrite schedules vm = Create) as Hc by (unfold plan; by rewrite <-Hst).
    apply treated_request; [by rewrite Hc|by apply always_createVMConfig|].
    intros. apply Hnext; by rewrite ?Hc.
Qed.
End sync_server.

(** ** The whole sync *)

Section spec.
Context {W : Type} (Do : HttpRequest → prog W HttpResponse) (bad_url : string → option error).
Context (cfg : Config) (serverName machineID : string).
Context `{HS : !ScheduleServer Do (base_url cfg serverName) (cfg_APIKey cfg) machineID}.
Context (vms : list discoveredVM) (schedules : option (gmap string pveBackupSchedule)).

Local Notation sync overwrite :=
  (syncBackupConfigWithOverwrite Do bad_url cfg serverName machineID vms overwrite schedules).
Local Notation plan_of overwrite w := (plan (stored w) overwrite (default ∅ schedules)).

(** A sync carries its plan out for a prefix of the guests, and for all of them when it
    ends without an error, with the counts of the plan. *)
Definition follows_plan (overwrite : bool) (w : W) (r : result SyncResult) (w' : W) : Prop :=
  ready w' ∧ ∃ res done rest, r = Ok res ∧ vms = done ++ rest ∧
    stored w' = synced (stored w) overwrite (default ∅ schedules) (stored w) done ∧
    (sync_err res = None → rest = [] ∧
      created res = planned (stored w) overwrite (default ∅ schedules) Create vms ∧
      updated res = planned (stored w) overwrite (default ∅ schedules) Update vms ∧
      skipped res = planned (stored w) overwrite (default ∅ schedules) Skip vms).

Lemma follows_nothing overwrite w w' c u s e :
  ready w' → stored w' = stored w →
  follows_plan overwrite w (Ok (Build_SyncResult c u s (Some e))) w'.
Proof.
  intros Hw' Hs. split; [done|]. eexists _, [], vms. by split_and!; [| |rewrite Hs|].
Qed.

Lemma always_syncBackupConfig overwrite w :
  ready w → NoDup (dv_VMID <$> vms) → Forall accepts (dv_VMID <$> vms) →
  always (sync overwrite) (follows_plan overwrite w) w.
Proof.
  intros Hw Hnd Hacc. unfold syncBackupConfigWithOverwrite. cbv zeta.
  destruct (_ || _); [by apply always_Ret, follows_nothing|].
  apply always_andThen, always_bind, always_round_trip.
  { intros e. by apply always_Ret, follows_nothing. }
  eapply always_mono; [by apply fetch_law|]. intros r w1 (Hw1 & Hs1 & Hfetch). split;
    [|intros _ e; by apply always_Ret, follows_nothing].
  intros resp -> Hc. destruct (Hfetch resp eq_refl Hc) as (l & -> & Hl).
  apply always_Ret, always_andThen, always_bind, always_round_trip.
  { intros e. by apply always_Ret, follows_nothing. }
  eapply always_mono; [by apply inventory_law|]. intros r w2 [Hw2 Hs2]. split;
    [|intros _ e; apply always_Ret, follows_nothing; [done|congruence]].
  intros resp' -> _. apply always_Ret. rewrite Hl. rewrite Hs1 in Hs2.
  eapply always_mono; [apply (always_sync_vms Do bad_url (stored w)); [done..|by rewrite Hs2]|].
  intros r w3 (Hw3 & res & done & rest & -> & Hv & Hs3 & Hcount). split; [done|].
  exists res, done, rest. rewrite <-Hs2. split_and!; [done..|by rewrite Hs3, Hs2|].
  intros He. rewrite Hs2. apply Hcount, He.
Qed.
End spec.

(** however requests and answers get lost, a sync changes the schedules of the
    guests in their order by its plan, up to some guest; when it reports success it has
    done so for all of them, and its counts are those of the plan. *)
Theorem sync_follows_plan {W} (Do : HttpRequest → prog W HttpResponse)
    (bad_url : string → option error) (cfg : Config) (serverName machineID : string)
    `{HS : !ScheduleServer Do (base_url cfg serverName) (cfg_APIKey cfg) machineID}
    (vms : list discoveredVM) (schedules : option (gmap string pveBackupSchedule))
    (overwrite : bool) (w : W) :
  ready w → NoDup (dv_VMID <$> vms) → Forall accepts (dv_VMID <$> vms) →
  always (syncBackupConfigWithOverwrite Do bad_url cfg serverName machineID vms overwrite schedules)
    (λ r w', ready w' ∧ ∃ res done rest, r = Ok res ∧ vms = done ++ rest ∧
      stored w' = synced (stored w) overwrite (default ∅ schedules) (stored w) done ∧
      (sync_err res = None → rest = [] ∧
        created res = planned (stored w) overwrite (default ∅ schedules) Create vms ∧
        updated res = planned (stored w) overwrite (default ∅ schedules) Update vms ∧
        skipped res = planned (stored w) overwrite (default ∅ schedules) Skip vms)) w.
Proof. apply always_syncBackupConfig. Qed.

(** after a sync that overwrites and succeeds, the server has exactly the schedule
    that the client found for every guest of the node, working days where it found
    none, and the schedules of other guests as they were. *)
Theorem overwrite_exact {W} (Do : HttpRequest → prog W HttpResponse)
    (bad_url : string → option error) (cfg : Config) (serverName machineID : string)
    `{HS : !ScheduleServer Do (base_url cfg serverName) (cfg_APIKey cfg) machineID}
    (vms : list discoveredVM) (schedules : option (gmap string pveBackupSchedule)) (w : W) :
  ready w → NoDup (dv_VMID <$> vms) → Forall accepts (dv_VMID <$> vms) →
  always (syncBackupConfigWithOverwrite Do bad_url cfg serverName machineID vms true schedules)
    (λ r w', ∀ res, r = Ok res → sync_err res = None →
      (∀ vm, vm ∈ vms → stored w' !! dv_VMID vm =
         Some (wanted vm (days_for (default ∅ schedules) vm))) ∧
      (∀ id, id ∉ dv_VMID <$> vms → stored w' !! id = stored w !! id)) w.
Proof.
  intros Hw Hnd Hacc. eapply always_mono; [by apply always_syncBackupConfig|].
  intros r w' (_ & res & done & rest & -> & Hv & Hs & Hc) ? [= <-] He.
  destruct (Hc He) as (-> & _). rewrite app_nil_r in Hv. subst done. rewrite Hs.
  by apply synced_overwritten.
Qed.

(** the automatic sync, which does not overwrite, never changes a schedule with a
    day in it, whatever goes wrong on the way. *)
Theorem schedules_kept {W} (Do : HttpRequest → prog W HttpResponse)
    (bad_url : string → option error) (cfg : Config) (serverName machineID : string)
    `{HS : !ScheduleServer Do (base_url cfg serverName) (cfg_APIKey cfg) machineID}
    (vms : list discoveredVM) (schedules : option (gmap string pveBackupSchedule)) (w : W)
    (id : string) (c : backupConfig) :
  ready w → NoDup (dv_VMID <$> vms) → Forall accepts (dv_VMID <$> vms) →
  stored w !! id = Some c → hasAnyScheduledDay c = true →
  always (syncBackupConfig Do bad_url cfg serverName machineID vms schedules)
    (λ _ w', stored w' !! id = Some c) w.
Proof.
  intros Hw Hnd Hacc Hc Hday. eapply always_mono; [by apply always_syncBackupConfig|].
  intros r w' (_ & res & done & rest & -> & -> & -> & _).
  rewrite fmap_app in Hnd. apply NoDup_app in Hnd as (Hnd & _ & _).
  destruct (decide (id ∈ dv_VMID <$> done)) as [(vm & -> & Hin)%list_elem_of_fmap|Hni].
  - rewrite synced_guest, decide_True; [done| |done..]. unfold plan. by rewrite Hc, Hday.
  - by rewrite synced_other.
Qed.

(** ** Examples *)

(** A server that keeps the schedules in memory; the request and the answer can each
    be lost. *)
Module MemoryServer.
Local Notation store := (gmap string backupConfig).

Definition encode (c : backupConfig) : any :=
  AMap [("vm_id", AString (bc_VMID c)); ("vm_name", AString (bc_VMName c));
        ("monday", ABool (bc_Monday c)); ("tuesday", ABool (bc_Tuesday c));
        ("wednesday", ABool (bc_Wednesday c)); ("thursday", ABool (bc_Thursday c));
        ("friday", ABool (bc_Friday c)); ("saturday", ABool (bc_Saturday c));
        ("sunday", ABool (bc_Sunday c))].

Definition reply (status : Z) (v : any) : HttpResponse :=
  {| hs_StatusCode := status; hs_Body := ""; hs_JSON := Ok v |}.

Definition serve_memory (req : HttpRequest) (w : store) : HttpResponse * store :=
  match hr_Body req with
  | None => (reply 200 (AMap [("configs", AList (encode <$> (map_to_list w).*2))]), w)
  | Some body =>
      match decode_config body with
      | Err _ => (reply 400 ANil, w)
      | Ok c =>
          if str_empty (bc_VMID c) then (reply 200 ANil, w) else
          (reply (if bool_decide (hr_Method req = "POST") then 201 else 200) ANil,
           <[bc_VMID c := c]> w)
      end
  end.

Definition Do (req : HttpRequest) : prog store HttpResponse :=
  resp ← stmt (λ w, Ok (serve_memory req w)); stmt (λ w, Ok (resp, w)).

Definition keyed (w : store) : Prop := map_Forall (λ id c, bc_VMID c = id) w.

Lemma decode_all_encode l : decode_all decode_config (encode <$> l) = Ok l.
Proof. induction l as [|[] l IH]; [done|]. rewrite fmap_cons. cbn [decode_all]. by rewrite IH. Qed.

Lemma configs_by_vmid_list (l : list (string * backupConfig)) (m : store) :
  NoDup l.*1 → (∀ p, p ∈ l → bc_VMID p.2 = p.1) →
  fold_left (λ m c, <[bc_VMID c := c]> m) l.*2 m = list_to_map l ∪ m.
Proof.
  revert m. induction l as [|[i c] l IH]; intros m Hnd Hk; [symmetry; apply map_empty_union|].
  rewrite fmap_cons in Hnd. apply NoDup_cons in Hnd as [Hni Hnd]. simpl.
  rewrite IH; [|done|by intros; apply Hk; right].
  rewrite (Hk (i, c) ltac:(left) : bc_VMID c = i). rewrite <-insert_union_r; [by rewrite insert_union_l|].
  by apply not_elem_of_list_to_map_1.
Qed.

Lemma configs_by_vmid_stored w : keyed w → configs_by_vmid (map_to_list w).*2 = w.
Proof.
  intros Hw. unfold configs_by_vmid. rewrite configs_by_vmid_list.
  - by rewrite map_union_empty, list_to_map_to_list.
  - apply NoDup_fst_map_to_list.
  - intros [i c] Hi%elem_of_map_to_list. by apply Hw.
Qed.

Lemma always_Do req (Q : result HttpResponse → store → Prop) w :
  (∀ e, Q (Err e) w) → (∀ e, Q (Err e) (serve_memory req w).2) →
  Q (Ok (serve_memory req w).1) (serve_memory req w).2 → always (Do req) Q w.
Proof.
  intros He He' Hok. apply always_bind, always_stmt; [done|]. intros resp w' [= Hs].
  rewrite Hs in *. apply always_stmt; [done|]. by intros ? ? [= <- <-].
Qed.

Lemma serve_payload m url key machine vm days w :
  dv_VMID vm ≠ "" →
  serve_memory (json_request m url key machine (Some (vmConfigPayload vm days))) w =
  (reply (if bool_decide (m = "POST") then 201 else 200) ANil,
   <[dv_VMID vm := wanted vm days]> w).
Proof.
  intros Hne. unfold serve_memory. cbn [hr_Body json_request]. rewrite decode_payload.
  unfold str_empty. by rewrite bool_decide_false.
Qed.

#[export] Instance memory_server base apiKey machineID : ScheduleServer Do base apiKey machineID.
Proof.
  refine {| ready := keyed; stored := λ w, w; accepts := λ id, id ≠ "" |}.
  - intros w Hw. apply always_Do; [done..|]. split_and!; [done|done|].
    intros resp [= <-] _. exists (map_to_list w).*2. split; [|by apply configs_by_vmid_stored].
    exact (decode_all_encode (map_to_list w).*2).
  - intros w b Hw. by apply always_Do.
  - intros w vm days Hw Hacc Hnone. apply always_Do; [|intros e|]; rewrite ?serve_payload by done;
      [intros e; split; [done|by right]|..]; (split; [by apply map_Forall_insert_2|by left]).
  - intros w vm days Hw Hacc Hsome. apply always_Do; [|intros e|]; rewrite ?serve_payload by done;
      [intros e; split; [done|by right]|..]; (split; [by apply map_Forall_insert_2|by left]).
Defined.

Definition cfg : Config :=
  {| cfg_APIURL := "https://backup.example.org/"; cfg_APIKey := "pbk-616263"; cfg_ProxmoxToken := "";
     cfg_ProxmoxSecret := ""; cfg_VerifyTLS := true; cfg_CABundle := ""; cfg_Debug := false;
     cfg_DebugAPICalls := false; cfg_ServerType := "pve" |}.

Definition vms : list discoveredVM := ScheduleExamples.guests.
Lemma vms_distinct : NoDup (dv_VMID <$> vms).
Proof. apply (bool_decide_unpack _). vm_compute. exact I. Qed.
Lemma vms_named : Forall (λ id, id ≠ "") (dv_VMID <$> vms).
Proof. by repeat constructor. Qed.

Definition saturday : backupDays := withDay 5 no_days.
(** Guest 100 has a schedule for Saturdays, and is to be backed up on working days. *)
Definition before : store := {["100" := wanted (Build_discoveredVM "100" "web") saturday]}.

Lemma before_keyed : keyed before.
Proof. by apply map_Forall_singleton. Qed.

Definition sync (overwrite : bool) :=
  syncBackupConfigWithOverwrite Do (λ _, None) cfg "pve1" "m1" vms overwrite None.
End MemoryServer.

Lemma sync_follows_plan_witness :
  ∃ w, run (MemoryServer.sync true) MemoryServer.before = (Ok (Build_SyncResult 1 1 0 None), w) ∧
    w = synced MemoryServer.before true ∅ MemoryServer.before MemoryServer.vms.
Proof.
  assert ((run (MemoryServer.sync true) MemoryServer.before).1 = Ok (Build_SyncResult 1 1 0 None))
    as Hres by (vm_compute; reflexivity).
  eexists. split; [by rewrite <-Hres, <-surjective_pairing|].
  destruct (always_run _ _ _ (sync_follows_plan (HS:=MemoryServer.memory_server _ _ _) MemoryServer.Do (λ _, None) MemoryServer.cfg
    "pve1" "m1" MemoryServer.vms None true MemoryServer.before MemoryServer.before_keyed
    MemoryServer.vms_distinct MemoryServer.vms_named)) as (_ & res & done & rest & Hr & Hv & Hs & Hc).
  change (run _ _) with (run (MemoryServer.sync true) MemoryServer.before) in *.
  rewrite Hres in Hr. injection Hr as <-. destruct (Hc eq_refl) as (-> & _).
  rewrite app_nil_r in Hv. by rewrite Hv.
Defined.

Lemma overwrite_exact_witness :
  (run (MemoryServer.sync true) MemoryServer.before).2 !! "100" =
    Some (wanted (Build_discoveredVM "100" "web") workdays).
Proof.
  pose proof (always_run _ _ _ (overwrite_exact (HS:=MemoryServer.memory_server _ _ _) MemoryServer.Do (λ _, None) MemoryServer.cfg
    "pve1" "m1" MemoryServer.vms None MemoryServer.before MemoryServer.before_keyed
    MemoryServer.vms_distinct MemoryServer.vms_named)) as He.
  change (run _ _) with (run (MemoryServer.sync true) MemoryServer.before) in He.
  destruct (He (Build_SyncResult 1 1 0 None)) as [Hall _]; [vm_compute; reflexivity|done|].
  exact (Hall (Build_discoveredVM "100" "web") ltac:(left)).
Defined.

Lemma schedules_kept_witness :
  (run (MemoryServer.sync false) MemoryServer.before).2 !! "100" =
    Some (wanted (Build_discoveredVM "100" "web") MemoryServer.saturday).
Proof.
  exact (always_run _ _ _ (schedules_kept (HS:=MemoryServer.memory_server _ _ _) MemoryServer.Do (λ _, None) MemoryServer.cfg
    "pve1" "m1" MemoryServer.vms None MemoryServer.before "100" _ MemoryServer.before_keyed
    MemoryServer.vms_distinct MemoryServer.vms_named eq_refl eq_refl)).
Defined.
