(* ===== verification/GoRegexp.v ===== *)
(** * The part of [regexp] that the client uses

    Perl-like expressions over characters without regard to case, matched as Go does:
    leftmost, and of the matches there the one that a backtracking search would find
    first.  The classes that occur are bytes of ASCII or their complements, and what
    follows a skipped text is ASCII, so a text can be skipped byte by byte. *)
From Stdlib Require Import Ascii.
From S2P Require Import Prelude GoStrings GoText.

(** [Rep lazy min max p]: so many bytes of the class [p]; [Group] is a capturing one. *)
Inductive re : Type :=
| Chr (c : ascii)
| Rep (lazy : bool) (min : nat) (max : option nat) (p : ascii → bool)
| Cat (r1 r2 : re)
| Alt (r1 r2 : re)
| Opt (r : re)
| Group (n : nat) (r : re)
| WordBoundary.

(** The groups that matched, the last one first. *)
Definition groups : Type := list (nat * string).

Definition is_word (c : option ascii) : bool :=
  match c with
  | Some c =>
      let b := byte c in
      ((48 <=? b) && (b <=? 57)) || ((65 <=? b) && (b <=? 90)) || ((97 <=? b) && (b <=? 122)) ||
      (b =? 95)
  | None => false
  end.

Definition head_byte (s : string) : option ascii :=
  match s with EmptyString => None | String c _ => Some c end.

Definition first_of {A} (o : option A) (rest : () → option A) : option A :=
  match o with Some a => Some a | None => rest () end.

(** A character of the expression at the start of a text, with what is left: letters in
    both cases, and the long s and the Kelvin sign. *)
Definition fold_match (c : ascii) (s : string) : option (ascii * string) :=
  match s with
  | EmptyString => None
  | String a s1 =>
      if bool_decide (lower_ascii a = lower_ascii c) then Some (a, s1) else
      match s1 with
      | EmptyString => None
      | String b s2 =>
          if bool_decide (lower_ascii c = "s"%char) && (byte a =? 0xC5) && (byte b =? 0xBF)
          then Some (b, s2) else
          match s2 with
          | EmptyString => None
          | String d s3 =>
              if bool_decide (lower_ascii c = "k"%char) && (byte a =? 0xE2) && (byte b =? 0x84) &&
                 (byte d =? 0xAA)
              then Some (d, s3) else None
          end
      end
  end.

(** A repetition followed by [k]: the longest first, or the shortest when [lazy]. *)
Section repeat.
Context {A : Type} (lazy : bool) (p : ascii → bool) (k : string → option ascii → option A).

Fixpoint repeated (min : nat) (max : option nat) (s : string) (prev : option ascii) : option A :=
  let stop (_ : ()) := match min with O => k s prev | S _ => None end in
  let more (_ : ()) :=
    match s, max with
    | EmptyString, _ | _, Some O => None
    | String a s, _ => if p a then repeated (pred min) (pred <$> max) s (Some a) else None
    end in
  if lazy then first_of (stop ()) more else first_of (more ()) stop.
End repeat.

(** The part of [s] before its end [rest]. *)
Definition up_to (s rest : string) : string :=
  str_take_nat (String.length s - String.length rest) s.

(** [k] goes on with what is left, the byte before it, and the groups so far. *)
Fixpoint matches (r : re) (s : string) (prev : option ascii) (g : groups)
    (k : string → option ascii → groups → option groups) : option groups :=
  match r with
  | Chr c => match fold_match c s with Some (a, s) => k s (Some a) g | None => None end
  | Rep lazy min max p => repeated lazy p (λ s prev, k s prev g) min max s prev
  | Cat r1 r2 => matches r1 s prev g (λ s prev g, matches r2 s prev g k)
  | Alt r1 r2 => first_of (matches r1 s prev g k) (λ _, matches r2 s prev g k)
  | Opt r => first_of (matches r s prev g k) (λ _, k s prev g)
  | Group n r => matches r s prev g (λ rest prev g, k rest prev ((n, up_to s rest) :: g))
  | WordBoundary => if xorb (is_word prev) (is_word (head_byte s)) then k s prev g else None
  end.

(** [FindStringSubmatch]; the whole match is not kept. *)
Fixpoint find_from (r : re) (s : string) (prev : option ascii) : option groups :=
  first_of (matches r s prev [] (λ _ _ g, Some g))
    (λ _, match s with EmptyString => None | String a s => find_from r s (Some a) end).

Definition FindStringSubmatch (r : re) (s : string) : option groups := find_from r s None.

(** A group, empty when it took no part in the match. *)
Fixpoint submatch (n : nat) (g : groups) : string :=
  match g with
  | [] => ""
  | (m, text) :: g => if decide (m = n) then text else submatch n g
  end.

(** ** Writing expressions *)

Fixpoint lit (s : string) (r : re) : re :=
  match s with EmptyString => r | String c s => Cat (Chr c) (lit s r) end.

(** The empty expression. *)
Definition empty_re : re := Rep false 0 (Some 0%nat) (λ _, false).

Definition text (s : string) : re := lit s empty_re.

(** [\s], [\d] and [.]. *)
Definition is_re_space (c : ascii) : bool :=
  bool_decide (byte c ∈ [9; 10; 12; 13; 32]).
Definition is_re_digit (c : ascii) : bool := (48 <=? byte c) && (byte c <=? 57).
Definition not_newline (c : ascii) : bool := negb (byte c =? 10).

(** ** Lemmas *)

Lemma fold_match_same c s : fold_match c (String c s) = Some (c, s).
Proof. cbn. by rewrite bool_decide_true. Qed.

(** A letter that has no folds outside ASCII. *)
Definition plain (c : ascii) : bool :=
  negb (bool_decide (lower_ascii c = "s"%char)) && negb (bool_decide (lower_ascii c = "k"%char)).

Lemma fold_match_other c a s :
  plain c = true → lower_ascii a ≠ lower_ascii c → fold_match c (String a s) = None.
Proof.
  unfold plain. intros [Hs%negb_true_iff Hk%negb_true_iff]%andb_true_iff Ha. cbn.
  rewrite bool_decide_false by done. rewrite Hs, Hk. by destruct s as [|b [|d s]].
Qed.

(** The byte before what follows a text. *)
Fixpoint last_byte (s : string) (prev : option ascii) : option ascii :=
  match s with EmptyString => prev | String c s => last_byte s (Some c) end.

Lemma matches_lit s r t prev g k :
  matches (lit s r) (s +:+ t) prev g k = matches r t (last_byte s prev) g k.
Proof.
  revert prev. induction s as [|c s IH]; intros prev; [done|].
  cbn [lit matches last_byte]. rewrite app_cons_str, fold_match_same. apply IH.
Qed.

(** A search goes past a byte that the expression cannot start with. *)
Lemma find_past c r a s prev :
  plain c = true → lower_ascii a ≠ lower_ascii c →
  find_from (Cat (Chr c) r) (String a s) prev = find_from (Cat (Chr c) r) s (Some a).
Proof.
  intros Hc Ha. cbn [find_from]. assert (matches (Cat (Chr c) r) (String a s) prev []
    (λ _ _ g, Some g) = None) as -> by (cbn [matches]; by rewrite fold_match_other).
  done.
Qed.

Lemma find_past_two c d r b s prev :
  plain d = true → lower_ascii b ≠ lower_ascii d →
  find_from (Cat (Chr c) (Cat (Chr d) r)) (String c (String b s)) prev =
  find_from (Cat (Chr c) (Cat (Chr d) r)) (String b s) (Some c).
Proof.
  intros Hd Hb. cbn [find_from]. assert (matches (Cat (Chr c) (Cat (Chr d) r))
    (String c (String b s)) prev [] (λ _ _ g, Some g) = None) as ->.
  { cbn [matches]. by rewrite fold_match_same, fold_match_other. }
  done.
Qed.

Lemma find_here r s prev g :
  matches r s prev [] (λ _ _ g, Some g) = Some g → find_from r s prev = Some g.
Proof. intros Hm. destruct s; cbn [find_from]; by rewrite Hm. Qed.

(** A greedy repetition takes all the bytes of its class. *)
Lemma repeated_all {A} p (k : string → option ascii → option A) x min s t prev :
  str_all p s = true → (min ≤ String.length s)%nat →
  match t with EmptyString => true | String c _ => negb (p c) end = true →
  (∀ prev, k t prev = Some x) →
  repeated false p k min None (s +:+ t) prev = Some x.
Proof.
  intros Hs Hmin Ht Hk. revert min prev Hs Hmin.
  induction s as [|c s IH]; intros min prev Hs Hmin.
  - simpl in Hmin. assert (min = O) as -> by lia. change ("" +:+ t) with t.
    destruct t as [|c t]; cbn [repeated first_of]; [by rewrite Hk|].
    apply negb_true_iff in Ht. rewrite Ht. cbn [first_of]. by rewrite Hk.
  - cbn [str_all] in Hs. apply andb_true_iff in Hs as [Hc Hs].
    rewrite app_cons_str. cbn [repeated]. rewrite Hc. cbn [fmap option_fmap option_map].
    rewrite IH; [done..|]. simpl in Hmin. lia.
Qed.

(** One byte, and two bytes, of a class that may take two. *)
Lemma repeated_two {A} p (k : string → option ascii → option A) x min a b t prev :
  p a = true → p b = true → (min ≤ 2)%nat → k t (Some b) = Some x →
  repeated false p k min (Some 2%nat) (String a (String b t)) prev = Some x.
Proof.
  intros Ha Hb Hmin Hk. cbn [repeated]. rewrite Ha. cbn [fmap option_fmap option_map repeated].
  rewrite Hb. cbn [fmap option_fmap option_map pred].
  assert (pred (pred min) = O) as -> by lia.
  destruct t as [|c t]; cbn [repeated fmap option_fmap option_map first_of pred]; by rewrite Hk.
Qed.

Lemma up_to_app s t : up_to (s +:+ t) t = s.
Proof.
  unfold up_to. rewrite str_length_app.
  replace (String.length s + String.length t - String.length t)%nat with (String.length s) by lia.
  induction s as [|c s IH]; [by destruct t|]. rewrite app_cons_str. simpl. by rewrite IH.
Qed.

Lemma matches_empty t prev g k : k t prev g = matches empty_re t prev g k.
Proof. unfold empty_re. cbn [matches]. destruct t; cbn [repeated first_of]; by destruct (k _ _ _). Qed.
