(* ===== verification/BackupLog.v ===== *)
(** * Logs of backup tasks: the parser of [client/pve.go]

    A backup of several guests is one task of Proxmox, and what happened to each guest
    is only in its log.  [parseBackupLog] finds the guests, how long each one took, the
    failures with their reasons, and an error of the whole job.  [lower] is
    [strings.ToLower] on all of Unicode: its result can be longer than its argument, so
    that a position in it may lie behind the end of the text; [None] is the panic that
    follows. *)
From Stdlib Require Import Ascii.
From S2P Require Import Prelude GoStrings GoNum GoText GoRegexp.

Record backupLogInfo := {
  durations : gmap Z Z; vmids : gset Z; statuses : gmap Z string; jobError : string }.

(** [currentVM], [lastDetail], [lastError] and the statuses so far. *)
Record LogState := {
  currentVM : Z; lastDetail : string; lastError : string; log_vmids : gset Z;
  log_statuses : gmap Z string; log_jobError : string }.

(** ** The expressions *)

Definition log_digits : re := Rep false 1 None is_re_digit.
Definition two_digits : re := Rep false 2 (Some 2%nat) is_re_digit.
Definition spaces : re := Rep false 1 None is_re_space.
Definition any_spaces : re := Rep false 0 None is_re_space.
Definition skip : re := Rep true 0 None not_newline.

(** [(\d{1,2}:\d{2}(?::\d{2})?)]. *)
Definition log_clock : re :=
  Group 2 (Cat (Rep false 1 (Some 2%nat) is_re_digit) (lit ":" (Cat two_digits
    (Opt (lit ":" two_digits))))).

(** [Backup of (?:VM|CT)\s+(\d+)], and what follows. *)
Definition guest (r : re) : re :=
  lit "Backup of " (Cat (Alt (text "VM") (text "CT")) (Cat spaces (Cat (Group 1 log_digits) r))).

Definition finishedBackupREs : list re :=
  [lit "Finished " (guest (Cat spaces (lit "(" (Cat log_clock (text ")")))));
   lit "Finished " (guest (Cat skip (Cat WordBoundary
     (Cat (Alt (text "duration") (Alt (text "in") (text "took"))) (Cat spaces log_clock)))));
   guest (Cat skip (lit "finished" (Cat skip (lit "(" (Cat log_clock (text ")"))))))].

Definition startedBackupRE : re := lit "Starting " (guest empty_re).

Definition failedBackupRE : re :=
  Cat (Opt (lit "ERROR:" any_spaces)) (guest (Cat spaces (lit "failed"
    (Opt (Cat any_spaces (lit "-" (Cat any_spaces (Group 2 (Rep false 0 None not_newline))))))))).

(** ** Texts *)

Definition maxBackupStatusLen : nat := 180.

Definition compactBackupStatus (s : string) : string :=
  let s := TrimPrefix (TrimPrefix (TrimSpace s) "ERROR: ") "TASK ERROR: " in
  if (maxBackupStatusLen <? String.length s)%nat
  then str_take_nat (maxBackupStatusLen - 3) s +:+ "..." else s.

Definition isGenericBackupStatus (status : string) : bool :=
  bool_decide (ToLower (TrimSpace status) ∈
    [""; "job errors"; "error"; "failed"; "warning"; "warnings"]).

Definition isBackupWarningStatus (status : string) : bool :=
  let upper := ToUpper (TrimSpace status) in HasPrefix upper "WARN" || HasPrefix upper "PARTIAL".

(** [s[i:]]. *)
Definition slice_from (i : nat) (s : string) : option string :=
  if (i <=? String.length s)%nat then Some (str_drop_nat i s) else None.

Fixpoint strip_prefixes (prefixes : list string) (line : string) : string :=
  match prefixes with
  | [] => line
  | prefix :: prefixes =>
      let n := String.length prefix in
      if (n <=? String.length line)%nat && EqualFold (str_take_nat n line) prefix
      then TrimSpace (str_drop_nat n line) else strip_prefixes prefixes line
  end.

Definition stripVzdumpPrefix (line : string) : string :=
  strip_prefixes ["INFO: "; "ERROR: "; "WARN: "; "WARNING: "] (TrimSpace line).

Section texts.
Context (lower : string → string).

Definition shortenBackupFailure (rest lastDetail : string) : option string :=
  if negb (str_empty lastDetail) then Some lastDetail else
  let rest := TrimSpace rest in
  if str_empty rest then Some "backup failed" else
  if HasPrefix (lower rest) "command " then
    match LastIndex (lower rest) "failed:" with
    | None => Some "command failed"
    | Some i =>
        tail ← slice_from (i + String.length "failed:") rest;
        let tail := TrimSpace tail in
        Some (if str_empty tail then "command failed" else compactBackupStatus tail)
    end
  else Some (compactBackupStatus rest).

Definition backupErrorDetail (line : string) : option string :=
  let body := stripVzdumpPrefix line in
  let lowered := lower body in
  let has := Contains lowered in
  if str_empty body || has "backup of vm" || has "backup of ct" then Some ""
  else if has "cannot open:" then
    match Index lowered "cannot open:" with
    | Some i => compactBackupStatus <$> slice_from i body
    | None => Some ""
    end
  else if has "could not activate storage" || has "is not online" then Some (compactBackupStatus body)
  else if has "permission denied" then Some "Permission denied"
  else if has "no space left" then Some "No space left on device"
  else if has "read-only file system" then Some "Read-only file system"
  else if has "connection timed out" || has "connection refused" then Some (compactBackupStatus body)
  else if HasPrefix (ToUpper (TrimSpace line)) "ERROR:" then Some (compactBackupStatus body)
  else Some "".
End texts.

Definition parseClockDuration (s : string) : Z * bool :=
  let nums := ParseInt <$> Split ":" s in
  if negb (forallb snd nums) then (0, false) else
  match fst <$> nums with
  | [m; s] => (wrap64 (m * 60 + s), true)
  | [h; m; s] => (wrap64 (h * 3600 + m * 60 + s), true)
  | _ => (0, false)
  end.

(** ** Guests and durations *)

Definition parseBackupVMIDs (lines : list string) : gset Z :=
  fold_left (λ vmids line,
    match FindStringSubmatch startedBackupRE line with
    | None => vmids
    | Some g => let '(vmid, ok) := ParseInt (submatch 1 g) in
        if ok : bool then {[vmid]} ∪ vmids else vmids
    end) lines ∅.

(** The first of the expressions that finds a duration in a line: it is the last one
    tried, even when the duration does not parse. *)
Fixpoint line_duration (res : list re) (line : string) (durations : gmap Z Z) : gmap Z Z :=
  match res with
  | [] => durations
  | r :: res =>
      match FindStringSubmatch r line with
      | None => line_duration res line durations
      | Some g =>
          let '(vmid, ok) := ParseInt (submatch 1 g) in
          if negb ok then line_duration res line durations else
          let '(duration, ok) := parseClockDuration (submatch 2 g) in
          if ok : bool then <[vmid := duration]> durations else durations
      end
  end.

Definition parseBackupDurations (lines : list string) : gmap Z Z :=
  fold_left (λ durations line, line_duration finishedBackupREs line durations) lines ∅.

Fixpoint finished_vmid (res : list re) (line : string) : Z * bool :=
  match res with
  | [] => (0, false)
  | r :: res =>
      match FindStringSubmatch r line with
      | Some g => ParseInt (submatch 1 g)
      | None => finished_vmid res line
      end
  end.

Definition finishedBackupVMID (line : string) : Z * bool := finished_vmid finishedBackupREs line.

(** ** The log *)

Section log.
Context (lower : string → string).

Definition set_current (vm : Z) (st : LogState) : LogState :=
  {| currentVM := vm; lastDetail := ""; lastError := lastError st; log_vmids := log_vmids st;
     log_statuses := log_statuses st; log_jobError := log_jobError st |}.

Definition with_failure (vmid : Z) (status : string) (st : LogState) : LogState :=
  {| currentVM := currentVM st; lastDetail := lastDetail st; lastError := lastError st;
     log_vmids := {[vmid]} ∪ log_vmids st; log_statuses := <[vmid := status]> (log_statuses st);
     log_jobError := log_jobError st |}.

Definition with_job_error (msg : string) (st : LogState) : LogState :=
  {| currentVM := currentVM st; lastDetail := lastDetail st; lastError := lastError st;
     log_vmids := log_vmids st; log_statuses := log_statuses st; log_jobError := msg |}.

Definition with_detail (detail : string) (st : LogState) : LogState :=
  {| currentVM := currentVM st; lastDetail := detail;
     lastError := if currentVM st =? 0 then detail else lastError st; log_vmids := log_vmids st;
     log_statuses := log_statuses st; log_jobError := log_jobError st |}.

Definition task_error (line : string) (st : LogState) : LogState :=
  let msg := compactBackupStatus (TrimSpace (str_drop_nat (String.length "TASK ERROR:") line)) in
  if negb (isGenericBackupStatus msg) then with_job_error msg st
  else if str_empty (log_jobError st) && negb (str_empty (lastError st))
  then with_job_error (lastError st) st else st.

(** One line of the log. *)
Definition log_line (st : LogState) (raw : string) : option LogState :=
  let line := TrimSpace raw in
  match FindStringSubmatch startedBackupRE line with
  | Some g => Some (set_current (ParseInt (submatch 1 g)).1 st)
  | None =>
  match FindStringSubmatch failedBackupRE line with
  | Some g =>
      let '(vmid, ok) := ParseInt (submatch 1 g) in
      if ok : bool then
        status ← shortenBackupFailure lower (submatch 2 g) (lastDetail st);
        Some (set_current 0 (with_failure vmid status st))
      else Some (set_current 0 st)
  | None =>
      if (finishedBackupVMID line).2 then Some (set_current 0 st)
      else if HasPrefix (ToUpper line) "TASK ERROR:" then Some (task_error line st)
      else
        detail ← backupErrorDetail lower line;
        Some (if str_empty detail then st else with_detail detail st)
  end end.

Fixpoint log_lines (st : LogState) (lines : list string) : option LogState :=
  match lines with
  | [] => Some st
  | line :: lines => st ← log_line st line; log_lines st lines
  end.

Definition parseBackupLog (lines : list string) : option backupLogInfo :=
  let durations := parseBackupDurations lines in
  st ← log_lines {| currentVM := 0; lastDetail := ""; lastError := "";
                    log_vmids := parseBackupVMIDs lines; log_statuses := ∅; log_jobError := "" |}
         lines;
  let statuses := log_statuses st ∪ ((λ _, "OK") <$> durations) in
  Some {| durations := durations; vmids := log_vmids st; statuses := statuses;
          jobError := if str_empty (log_jobError st) && negb (str_empty (lastError st)) &&
                         bool_decide (statuses = ∅)
                      then lastError st else log_jobError st |}.
End log.

Definition resolveBackupTaskStatus (taskStatus : string) (vmid : Z) (info : backupLogInfo) : string :=
  let s := default "" (statuses info !! vmid) in
  if negb (str_empty s) then
    (if EqualFold (TrimSpace s) "OK" && isBackupWarningStatus taskStatus then taskStatus else s)
  else if isGenericBackupStatus taskStatus && negb (str_empty (jobError info)) then jobError info
  else taskStatus.

(** ** Lemmas *)

(** The guest and the reason of a line that says that a backup failed. *)
Definition failed_in (raw : string) : option (Z * string) :=
  let line := TrimSpace raw in
  match FindStringSubmatch startedBackupRE line with
  | Some _ => None
  | None =>
      g ← FindStringSubmatch failedBackupRE line;
      let '(vmid, ok) := ParseInt (submatch 1 g) in
      if ok : bool then Some (vmid, submatch 2 g) else None
  end.

Lemma bind_Some_inv {A B} (f : A → option B) (o : option A) b :
  o ≫= f = Some b → ∃ a, o = Some a ∧ f a = Some b.
Proof. destruct o; [eauto|done]. Qed.

Lemma task_error_keeps line st :
  log_statuses (task_error line st) = log_statuses st ∧ log_vmids (task_error line st) = log_vmids st.
Proof.
  unfold task_error. destruct (negb (isGenericBackupStatus _)); [done|]. by destruct (_ && _).
Qed.

(** The line of a backup that starts, fails or finishes. *)
Definition marks_backup (line : string) : bool :=
  bool_decide (is_Some (FindStringSubmatch startedBackupRE line)) ||
  bool_decide (is_Some (FindStringSubmatch failedBackupRE line)) || (finishedBackupVMID line).2.

(** The last error told before a line, among those told since a backup last started,
    failed or finished: the lines are given from the nearest one back. *)
Fixpoint error_before (lower : string → string) (earlier : list string) : string :=
  match earlier with
  | [] => ""
  | raw :: earlier =>
      let line := TrimSpace raw in
      let error := default "" (backupErrorDetail lower line) in
      if marks_backup line then ""
      else if HasPrefix (ToUpper line) "TASK ERROR:" || str_empty error
      then error_before lower earlier else error
  end.

(** What a failure without such an error is reported with: what follows the dash of its
    line, and of a command that failed only what the command said. *)
Inductive told (lower : string → string) (reason : string) : string → Prop :=
  | told_nothing : TrimSpace reason = "" → told lower reason "backup failed"
  | told_reason : TrimSpace reason ≠ "" →
      HasPrefix (lower (TrimSpace reason)) "command " = false →
      told lower reason (compactBackupStatus (TrimSpace reason))
  | told_command i message :
      HasPrefix (lower (TrimSpace reason)) "command " = true →
      LastIndex (lower (TrimSpace reason)) "failed:" = Some i →
      message = TrimSpace (str_drop_nat (i + 7) (TrimSpace reason)) → message ≠ "" →
      told lower reason (compactBackupStatus message)
  | told_silent_command : TrimSpace reason ≠ "" →
      HasPrefix (lower (TrimSpace reason)) "command " = true →
      (∀ i, LastIndex (lower (TrimSpace reason)) "failed:" = Some i →
         TrimSpace (str_drop_nat (i + 7) (TrimSpace reason)) = "") →
      told lower reason "command failed".

Section parser.
Context (lower : string → string).

(** What a line does to the statuses. *)
Lemma log_line_statuses st raw st' :
  log_line lower st raw = Some st' →
  match failed_in raw with
  | None => log_statuses st' = log_statuses st ∧ log_vmids st' = log_vmids st
  | Some (vmid, reason) => ∃ status,
      shortenBackupFailure lower reason (lastDetail st) = Some status ∧
      log_statuses st' = <[vmid := status]> (log_statuses st) ∧
      log_vmids st' = {[vmid]} ∪ log_vmids st
  end.
Proof.
  unfold log_line, failed_in. cbv zeta.
  destruct (FindStringSubmatch startedBackupRE _); [by intros [= <-]|].
  destruct (FindStringSubmatch failedBackupRE _) as [g|]; cbn [mbind option_bind].
  - destruct (ParseInt _) as [vmid []]; [|by intros [= <-]].
    intros (status & Hs & [= <-])%bind_Some_inv. by exists status.
  - destruct (finishedBackupVMID _).2; [by intros [= <-]|].
    destruct (HasPrefix _ _); [intros [= <-]; apply task_error_keeps|].
    intros (detail & _ & [= <-])%bind_Some_inv. by destruct (str_empty detail).
Qed.

Lemma log_lines_app st l1 l2 :
  log_lines lower st (l1 ++ l2) = st ← log_lines lower st l1; log_lines lower st l2.
Proof.
  revert st. induction l1 as [|line l1 IH]; intros st; [done|]. cbn [app log_lines].
  destruct (log_line lower st line); cbn [mbind option_bind]; [apply IH|done].
Qed.

(** A line moves the last error the way [error_before] reads it. *)
Lemma log_line_detail st raw st' earlier :
  lastDetail st = error_before lower earlier → log_line lower st raw = Some st' →
  lastDetail st' = error_before lower (raw :: earlier).
Proof.
  intros Hst. unfold log_line. cbn [error_before]. cbv zeta. unfold marks_backup.
  destruct (FindStringSubmatch startedBackupRE _) as [g|].
  { intros [= <-]. by rewrite bool_decide_true. }
  rewrite (bool_decide_false (is_Some None)) by apply is_Some_None.
  destruct (FindStringSubmatch failedBackupRE _) as [g|].
  { rewrite bool_decide_true by done. destruct (ParseInt _) as [vmid []]; [|by intros [= <-]].
    by intros (status & _ & [= <-])%bind_Some_inv. }
  rewrite (bool_decide_false (is_Some None)) by apply is_Some_None. cbn [orb].
  destruct (finishedBackupVMID _).2; [by intros [= <-]|].
  destruct (HasPrefix _ _).
  { intros [= <-]. cbn [orb]. rewrite <-Hst. unfold task_error.
    destruct (negb (isGenericBackupStatus _)); [done|]. by destruct (_ && _). }
  intros (detail & -> & [= <-])%bind_Some_inv. change (default "" (Some detail)) with detail. cbn [orb].
  destruct (str_empty detail); cbn [lastDetail with_detail]; congruence.
Qed.

Lemma log_lines_detail lines st st' :
  lastDetail st = "" → log_lines lower st lines = Some st' →
  lastDetail st' = error_before lower (reverse lines).
Proof.
  intros Hst. revert st'. induction lines as [|line lines IH] using rev_ind; intros st'.
  { by intros [= <-]. }
  rewrite log_lines_app, reverse_snoc. intros (st1 & H1 & Hline)%bind_Some_inv.
  apply bind_Some_inv in Hline as (st2 & Hline & [= <-]).
  eapply log_line_detail; [by apply IH|done].
Qed.

(** The text of a failure: the error told before it, or else what its line says. *)
Lemma shorten_told reason detail status :
  shortenBackupFailure lower reason detail = Some status →
  if str_empty detail then told lower reason status else status = detail.
Proof.
  unfold shortenBackupFailure. destruct (str_empty detail); cbn [negb]; [|by intros [= <-]].
  cbv zeta. destruct (str_empty (TrimSpace reason)) eqn:Hr.
  { intros [= <-]. constructor. by apply bool_decide_eq_true in Hr. }
  apply bool_decide_eq_false in Hr.
  destruct (HasPrefix _ _) eqn:Hp; [|intros [= <-]; by constructor].
  destruct (LastIndex _ _) as [i|] eqn:Hi; 
    [|intros [= <-]; apply told_silent_command; [done..|]; intros j; by rewrite Hi].
  intros (tail & Ht & [= <-])%bind_Some_inv. unfold slice_from in Ht.
  destruct (_ <=? _)%nat; [|done]. injection Ht as <-.
  change (String.length "failed:") with 7%nat. unfold str_empty. case_bool_decide as He.
  - apply told_silent_command; [done..|]. intros j. rewrite Hi. by intros [= <-].
  - by econstructor.
Qed.

(** A status stays until the next failure of the guest. *)
Lemma log_lines_keep st lines st' vmid :
  log_lines lower st lines = Some st' →
  Forall (λ line, ∀ reason, failed_in line ≠ Some (vmid, reason)) lines →
  log_statuses st' !! vmid = log_statuses st !! vmid.
Proof.
  revert st. induction lines as [|line lines IH]; intros st Hl Hf; [by injection Hl as <-|].
  apply Forall_cons in Hf as [Hline Hf].
  apply bind_Some_inv in Hl as (st1 & H1 & Hl). rewrite (IH st1) by done.
  apply log_line_statuses in H1. destruct (failed_in line) as [[v reason]|].
  - destruct H1 as (status & _ & -> & _). rewrite lookup_insert_ne; [done|].
    intros ->. by apply (Hline reason).
  - by destruct H1 as [-> _].
Qed.

Lemma log_lines_vmids st lines st' :
  log_lines lower st lines = Some st' → log_vmids st ⊆ log_vmids st'.
Proof.
  revert st. induction lines as [|line lines IH]; intros st Hl; [by injection Hl as <-|].
  apply bind_Some_inv in Hl as (st1 & H1 & Hl). apply IH in Hl. apply log_line_statuses in H1.
  destruct (failed_in line) as [[v reason]|].
  - destruct H1 as (_ & _ & _ & H1). set_solver.
  - destruct H1 as [_ H1]. set_solver.
Qed.

Lemma parse_statuses lines info :
  parseBackupLog lower lines = Some info →
  ∃ st, log_lines lower {| currentVM := 0; lastDetail := ""; lastError := "";
      log_vmids := parseBackupVMIDs lines; log_statuses := ∅; log_jobError := "" |} lines = Some st ∧
    statuses info = log_statuses st ∪ ((λ _, "OK") <$> durations info) ∧
    durations info = parseBackupDurations lines ∧ vmids info = log_vmids st.
Proof.
  unfold parseBackupLog. intros (st & Hst & [= <-])%bind_Some_inv. by exists st.
Qed.

(** *** Positions *)

Context (Hlower : ∀ s, (String.length (lower s) ≤ String.length s)%nat).

Lemma slice_from_Some i s : (i ≤ String.length s)%nat → is_Some (slice_from i s).
Proof. intros Hi%Nat.leb_le. unfold slice_from. rewrite Hi. eauto. Qed.
Lemma shorten_total rest detail : is_Some (shortenBackupFailure lower rest detail).
Proof.
  unfold shortenBackupFailure. destruct (negb _); [by eexists|].
  destruct (str_empty _); [by eexists|]. destruct (HasPrefix _ _); [|by eexists].
  destruct (LastIndex _ _) as [i|] eqn:Hi; [|by eexists]. apply LastIndex_length in Hi.
  destruct (slice_from_Some (i + String.length "failed:") (TrimSpace rest)) as [s ->];
    [etrans; [exact Hi|apply Hlower]|by eexists].
Qed.

Lemma detail_total line : is_Some (backupErrorDetail lower line).
Proof.
  unfold backupErrorDetail. cbv zeta. repeat case_match; try by eexists.
  apply fmap_is_Some, slice_from_Some.
  match goal with Hi : Index _ _ = Some _ |- _ => apply Index_length in Hi end.
  etrans; [|apply Hlower]. etrans; [|eassumption]. lia.
Qed.

Lemma log_line_total st raw : is_Some (log_line lower st raw).
Proof.
  unfold log_line. cbv zeta. destruct (FindStringSubmatch startedBackupRE _); [by eexists|].
  destruct (FindStringSubmatch failedBackupRE _) as [g|].
  - destruct (ParseInt _) as [vmid []]; [|by eexists].
    destruct (shorten_total (submatch 2 g) (lastDetail st)) as [status ->]. by eexists.
  - destruct (finishedBackupVMID _).2; [by eexists|]. destruct (HasPrefix _ _); [by eexists|].
    destruct (detail_total (TrimSpace raw)) as [detail ->]. by eexists.
Qed.

Lemma log_lines_total st lines : is_Some (log_lines lower st lines).
Proof.
  revert st. induction lines as [|line lines IH]; intros st; [by eexists|]. cbn [log_lines].
  destruct (log_line_total st line) as [st' ->]. apply IH.
Qed.
End parser.

(** the parser reads every log to its end, as long as lower case is not longer than
    the text itself. *)
Theorem parseBackupLog_total (lower : string → string) (lines : list string) :
  (∀ s, (String.length (lower s) ≤ String.length s)%nat) →
  is_Some (parseBackupLog lower lines).
Proof.
  intros Hlower. unfold parseBackupLog.
  edestruct (log_lines_total lower Hlower) as [st ->]. by eexists.
Qed.

(** C39: a guest whose last word in the log is a failure is reported with the reason of
    that failure, whatever the rest of the log says of it: the last error told before it
    since a backup started, failed or finished, so none of another guest, and without one
    what the line of the failure says. *)
Theorem last_failure_reported (lower : string → string) (before after : list string)
    (line reason : string) (vmid : Z) (info : backupLogInfo) :
  parseBackupLog lower (before ++ line :: after) = Some info →
  failed_in line = Some (vmid, reason) →
  Forall (λ line, ∀ reason, failed_in line ≠ Some (vmid, reason)) after →
  vmid ∈ vmids info ∧ ∃ status, statuses info !! vmid = Some status ∧
    let error := error_before lower (reverse before) in
    if str_empty error then told lower reason status else status = error.
Proof.
  intros (st & Hst & Hs & _ & Hv)%parse_statuses Hline Hafter.
  rewrite log_lines_app in Hst. apply bind_Some_inv in Hst as (st1 & H1 & Hst).
  apply log_lines_detail in H1; [|done].
  apply bind_Some_inv in Hst as (st2 & H2 & Hst).
  pose proof (log_lines_keep lower st2 after st vmid Hst Hafter) as Hkeep.
  apply log_line_statuses in H2. rewrite Hline in H2.
  destruct H2 as (status & Hshort & H2 & Hids). split.
  - rewrite Hv. eapply log_lines_vmids; [exact Hst|]. rewrite Hids. set_solver.
  - exists status. split.
    + rewrite Hs. apply lookup_union_Some_l. by rewrite Hkeep, H2, lookup_insert_eq.
    + rewrite H1 in Hshort. by apply shorten_told.
Qed.

(** ** The line that ends a backup *)

(** The text of a duration, and the line in which [vzdump] says that a guest is done. *)
Definition clock_text (h m s : Z) : string := pad2 h +:+ ":" +:+ pad2 m +:+ ":" +:+ pad2 s.

Definition finished_line (kind : string) (vmid h m s : Z) : string :=
  "INFO: Finished Backup of " +:+ kind +:+ " " +:+ Itoa vmid +:+ " (" +:+ clock_text h m s +:+ ")".

Definition two_digit_text (n : Z) (s : string) : bool :=
  match s with
  | String a (String b EmptyString) =>
      is_re_digit a && is_re_digit b && negb (has_byte ":" s) &&
      bool_decide (ParseInt s = (n, true))
  | _ => false
  end.

Lemma pad2_text n : 0 ≤ n < 100 → ∃ a b, pad2 n = String a (String b "") ∧
  is_re_digit a = true ∧ is_re_digit b = true ∧ has_byte ":" (pad2 n) = false ∧
  ParseInt (pad2 n) = (n, true).
Proof.
  intros Hn. assert (two_digit_text n (pad2 n) = true) as Ht.
  { apply (below_forall (λ n, two_digit_text n (pad2 n)) 100); [vm_compute; reflexivity|lia]. }
  unfold two_digit_text in Ht. destruct (pad2 n) as [|a [|b []]]; try discriminate Ht.
  rewrite !andb_true_iff, negb_true_iff, bool_decide_eq_true in Ht.
  exists a, b. naive_solver.
Qed.

Lemma parse_clock_text h m s :
  0 ≤ h < 100 → 0 ≤ m < 100 → 0 ≤ s < 100 →
  parseClockDuration (clock_text h m s) = (h * 3600 + m * 60 + s, true).
Proof.
  intros Hh Hm Hs.
  destruct (pad2_text h Hh) as (_ & _ & _ & _ & _ & Hch & Hph).
  destruct (pad2_text m Hm) as (_ & _ & _ & _ & _ & Hcm & Hpm).
  destruct (pad2_text s Hs) as (_ & _ & _ & _ & _ & Hcs & Hps).
  assert (Split ":" (clock_text h m s) = [pad2 h; pad2 m; pad2 s]) as Hsplit.
  { etrans; [apply (Split_app ":" (pad2 h) (pad2 m +:+ ":" +:+ pad2 s)); exact Hch|].
    f_equal. etrans; [apply (Split_app ":" (pad2 m) (pad2 s)); exact Hcm|]. f_equal. by apply Split_no. }
  unfold parseClockDuration. rewrite Hsplit. cbv zeta.
  rewrite !fmap_cons, Hph, Hpm, Hps. cbn. rewrite wrap64_id; [done|]. unfold in_int64, MinInt64, MaxInt64. lia.
Qed.

Lemma match_clock h m s t prev g k x :
  0 ≤ h < 100 → 0 ≤ m < 100 → 0 ≤ s < 100 →
  (∀ prev, k t prev ((2%nat, clock_text h m s) :: g) = Some x) →
  matches log_clock (clock_text h m s +:+ t) prev g k = Some x.
Proof.
  intros Hh Hm Hs Hk.
  assert (up_to (clock_text h m s +:+ t) t = clock_text h m s) as Hup by apply up_to_app.
  destruct (pad2_text h Hh) as (h1 & h2 & Eh & Hh1 & Hh2 & _).
  destruct (pad2_text m Hm) as (m1 & m2 & Em & Hm1 & Hm2 & _).
  destruct (pad2_text s Hs) as (s1 & s2 & Es & Hs1 & Hs2 & _).
  assert (clock_text h m s +:+ t = String h1 (String h2 (String ":" (String m1 (String m2
    (String ":" (String s1 (String s2 t)))))))) as Et
    by (unfold clock_text; by rewrite Eh, Em, Es).
  rewrite Et in Hup |- *. unfold log_clock, two_digits. cbn [matches lit].
  apply repeated_two; [done..|lia|]. rewrite fold_match_same.
  apply repeated_two; [done..|lia|]. cbn [first_of matches]. rewrite fold_match_same.
  rewrite (repeated_two _ _ x); [done..|lia|]. by rewrite Hup.
Qed.

Lemma is_digit_re c : is_digit c = is_re_digit c.
Proof. unfold is_digit, digit, is_re_digit. by destruct (_ && _). Qed.

Lemma str_all_ext p q s : (∀ c, p c = q c) → str_all p s = str_all q s.
Proof. intros Hpq. induction s as [|c s IH]; [done|]. cbn. by rewrite Hpq, IH. Qed.

(** The expression of a guest on its text. *)
Lemma match_guest r kind vmid t prev g k x :
  kind = "VM" ∨ kind = "CT" → 0 ≤ vmid →
  match t with EmptyString => true | String c _ => negb (is_re_digit c) end = true →
  (∀ prev, matches r t prev ((1%nat, Itoa vmid) :: g) k = Some x) →
  matches (guest r) ("Backup of " +:+ kind +:+ " " +:+ Itoa vmid +:+ t) prev g k = Some x.
Proof.
  intros Hkind Hid Ht Hr. unfold guest. rewrite matches_lit.
  assert (∀ prev, repeated false is_re_space (λ s prev,
      matches (Cat (Group 1 log_digits) r) s prev g k) 1 None (" " +:+ Itoa vmid +:+ t) prev = Some x) as Hrest.
  { intros prev'. apply (repeated_all _ _ _ _ " " (Itoa vmid +:+ t)); [done|simpl; lia| |].
    - destruct (Itoa_nonempty vmid) as (c & s & Hc). rewrite Hc. cbn.
      pose proof (Itoa_digits vmid Hid) as Hd. rewrite Hc in Hd. apply andb_true_iff in Hd as [Hd _].
      rewrite is_digit_re in Hd. revert Hd. unfold is_re_digit, is_re_space.
      rewrite andb_true_iff, !Z.leb_le. intros [H1 H2]. apply negb_true_iff, bool_decide_eq_false.
      rewrite !elem_of_cons, elem_of_nil. lia.
    - intros prev2. cbn [matches log_digits]. apply repeated_all; [| |done|].
      + rewrite (str_all_ext _ is_digit) by (intros; by rewrite is_digit_re). by apply Itoa_digits.
      + destruct (Itoa_nonempty vmid) as (c & s & ->). simpl. lia.
      + intros prev3. by rewrite up_to_app. }
  destruct Hkind as [-> | ->]; cbn [matches first_of].
  - unfold text. rewrite matches_lit, <-matches_empty. cbn [matches spaces]. by rewrite Hrest.
  - assert (∀ s g k, matches (text "VM") ("CT" +:+ s) (Some " "%char) g k = None) as Hno.
    { intros s g' k'. rewrite app_cons_str. unfold text. cbn [lit matches].
      by rewrite fold_match_other. }
    cbn [last_byte]. rewrite Hno. cbn [first_of]. unfold text.
    rewrite matches_lit, <-matches_empty. cbn [matches spaces]. by rewrite Hrest.
Qed.

(** The first expression finds the guest and the duration of such a line. *)
Lemma find_finished kind vmid h m s :
  kind = "VM" ∨ kind = "CT" → 0 ≤ vmid → 0 ≤ h < 100 → 0 ≤ m < 100 → 0 ≤ s < 100 →
  FindStringSubmatch (nth 0 finishedBackupREs empty_re) (finished_line kind vmid h m s) =
    Some [(2%nat, clock_text h m s); (1%nat, Itoa vmid)].
Proof.
  intros Hkind Hid Hh Hm Hs.
  assert (finished_line kind vmid h m s = "INFO: " +:+ "Finished " +:+ "Backup of " +:+ kind +:+
    " " +:+ Itoa vmid +:+ " (" +:+ clock_text h m s +:+ ")") as -> by done.
  unfold FindStringSubmatch. set (rest := "Backup of " +:+ _).
  change ("INFO: " +:+ "Finished " +:+ rest) with (String "I" (String "N" (String "F" (String "O"
    (String ":" (String " " ("Finished " +:+ rest))))))).
  cbn [nth finishedBackupREs lit]. do 2 (rewrite (find_past "F"); [|done|done]).
  rewrite find_past_two by done. do 3 (rewrite (find_past "F"); [|done|done]).
  apply find_here. etrans; [apply (matches_lit "Finished ")|]. unfold rest.
  apply match_guest; [done..|]. intros prev. cbn [matches spaces].
  apply (repeated_all _ _ _ _ " " ("(" +:+ clock_text h m s +:+ ")")); [done|simpl; lia|done|].
  intros prev'. rewrite app_cons_str. cbn [lit matches]. rewrite fold_match_same.
  apply match_clock; [done..|]. intros prev''. by unfold text; cbn.
Qed.

(** C40: the line in which Proxmox says that the backup of a guest is done is read back:
    the guest, and the duration in seconds. *)
Theorem finished_line_read (kind : string) (vmid h m s : Z) :
  kind = "VM" ∨ kind = "CT" → 0 ≤ vmid < 2^63 → 0 ≤ h < 100 → 0 ≤ m < 100 → 0 ≤ s < 100 →
  let line := finished_line kind vmid h m s in
  finishedBackupVMID line = (vmid, true) ∧
  parseBackupDurations [line] = {[vmid := h * 3600 + m * 60 + s]}.
Proof.
  intros Hkind Hid Hh Hm Hs line.
  pose proof (find_finished kind vmid h m s Hkind ltac:(lia) Hh Hm Hs) as Hfind.
  fold line in Hfind. unfold finishedBackupVMID, parseBackupDurations.
  destruct finishedBackupREs as [|r res] eqn:Hres; [done|]. cbn [nth] in Hfind.
  cbn [fold_left finished_vmid line_duration]. rewrite Hfind. cbn [submatch].
  rewrite decide_False, decide_True by done. rewrite ParseInt_Itoa by done. cbn [negb].
  rewrite decide_True, parse_clock_text by done. split; [done|]. by rewrite insert_empty.
Qed.

(** ** Examples *)

Module LogExamples.
Definition failed_log : list string :=
  ["INFO: starting new backup job: vzdump 100 101 --mode snapshot";
   "INFO: Starting Backup of VM 100 (qemu)";
   "INFO: Finished Backup of VM 100 (00:05:12)";
   "INFO: Starting Backup of VM 101 (qemu)";
   "ERROR: VM 101 - unable to open file: No space left on device";
   "ERROR: Backup of VM 101 failed - command 'vma create' failed: exit code 1";
   "INFO: Backup job finished with errors";
   "TASK ERROR: job errors"].

Definition two_failures : list string :=
  take 6 failed_log ++
  ["INFO: Starting Backup of VM 102 (qemu)";
   "ERROR: Backup of VM 102 failed - command 'vma create' failed: exit code 1";
   "TASK ERROR: job errors"].

(** Lower case of A with a stroke, U+023A, which takes three bytes instead of two. *)
Fixpoint lower_stroke (s : string) : string :=
  match s with
  | EmptyString => EmptyString
  | String a s1 =>
      match s1 with
      | String b s2 =>
          if (byte a =? 0xC8) && (byte b =? 0xBA)
          then String "226" (String "177" (String "165" (lower_stroke s2)))
          else String (lower_ascii a) (lower_stroke s1)
      | EmptyString => String (lower_ascii a) EmptyString
      end
  end.

Definition strokes (n : nat) : string := String.concat "" (replicate n (String "200" (String "186" EmptyString))).
End LogExamples.

Example log_examples :
  FindStringSubmatch (nth 0 finishedBackupREs empty_re) "INFO: finished backup of ct  7 (1:02:03) x" =
    Some [(2, "1:02:03"); (1, "7")]%nat ∧
  FindStringSubmatch (nth 1 finishedBackupREs empty_re) "Finished Backup of VM 12, total in 01:30" =
    Some [(2, "01:30"); (1, "12")]%nat ∧
  FindStringSubmatch failedBackupRE "ERROR: Backup of VM 101 failed - no such volume" =
    Some [(2, "no such volume"); (1, "101")]%nat ∧
  (λ i, (map_to_list (durations i), map_to_list (statuses i), jobError i)) <$>
    parseBackupLog ToLower LogExamples.failed_log =
    Some ([(100, 312)], [(101, "No space left on device"); (100, "OK")], "").
Proof. split_and!; vm_compute; reflexivity. Qed.

(** a line with enough such letters before [cannot open:] makes the client panic: the
    position is one of the text in lower case, which is longer than the text. *)
Theorem log_parser_panics :
  parseBackupLog LogExamples.lower_stroke
    ["ERROR: " +:+ LogExamples.strokes 30 +:+ " cannot open: no such file"] = None ∧
  (String.length (LogExamples.strokes 30) < String.length
     (LogExamples.lower_stroke (LogExamples.strokes 30)))%nat.
Proof. split; [vm_compute; reflexivity|]. apply Nat.ltb_lt. vm_compute. reflexivity. Qed.

Lemma parseBackupLog_total_witness : is_Some (parseBackupLog (λ s, s) LogExamples.failed_log).
Proof. apply parseBackupLog_total. intros s. reflexivity. Defined.

(** Guest 101 failed after an error of its own, guest 102 only with what its command said:
    the error of 101 is not told of it. *)
Lemma last_failure_reported_witness :
  ∃ info, parseBackupLog ToLower LogExamples.two_failures = Some info ∧
    statuses info !! 101 = Some "No space left on device" ∧
    ∃ status, statuses info !! 102 = Some status ∧
      told ToLower "command 'vma create' failed: exit code 1" status.
Proof.
  destruct (parseBackupLog ToLower LogExamples.two_failures) as [info|] eqn:Hp;
    [|vm_compute in Hp; discriminate Hp].
  exists info. split; [done|]. set (l := LogExamples.two_failures) in *.
  pose (reason := "command 'vma create' failed: exit code 1").
  assert (failed_in (nth 5 l "") = Some (101, reason)) as H101 by (vm_compute; reflexivity).
  assert (failed_in (nth 7 l "") = Some (102, reason)) as H102 by (vm_compute; reflexivity).
  assert (error_before ToLower (reverse (take 5 l)) = "No space left on device") as H5
    by (vm_compute; reflexivity).
  assert (error_before ToLower (reverse (take 7 l)) = "") as H7 by (vm_compute; reflexivity).
  split.
  - destruct (last_failure_reported ToLower (take 5 l) (drop 6 l) _ _ 101 info Hp H101)
      as (_ & status & Hs & He).
    { repeat constructor; intros r Hr; vm_compute in Hr; discriminate Hr. }
    cbv zeta in He. rewrite H5 in He. rewrite Hs. f_equal. exact He.
  - destruct (last_failure_reported ToLower (take 7 l) (drop 8 l) _ _ 102 info Hp H102)
      as (_ & status & Hs & He).
    { repeat constructor; intros r Hr; vm_compute in Hr; discriminate Hr. }
    cbv zeta in He. rewrite H7 in He. exists status. split; [exact Hs|exact He].
Defined.

Lemma finished_line_read_witness :
  parseBackupDurations ["INFO: Finished Backup of CT 101 (01:02:03)"] = {[101 := 3723]}.
Proof. apply (finished_line_read "CT" 101 1 2 3); [by right|lia..]. Defined.
