(* ===== verification/ClientPve.v ===== *)
(** * The report of a Proxmox VE node: [client/pve.go]

    The client asks the Proxmox API of its node for the storages with their contents,
    the guests and the finished backup tasks, and puts together what the last backup
    job did to each guest.  [get] is the answer of the API to an endpoint; a loop
    without a bound of its own runs on fuel, and the parser of the logs can panic. *)
From Stdlib Require Import Ascii.
From S2P Require Import Prelude GoStrings GoNum GoUrl GoText GoAny Domain AlertEngine BackupLog.

(** ** Requests *)

(** An answer of the API, with what [encoding/json] reads from its body. *)
Record PveResponse := {
  pr_StatusCode : Z; pr_Body : string; pr_JSON : result (list (string * any)) }.

(** The attempts of [get]: [http] answers each of them. *)
Fixpoint get_attempts (endpoint : string) (http : nat → result PveResponse) (tries attempt : nat)
    (lastErr : error) : result (list (string * any)) :=
  match tries with
  | O => Err (ErrWrap ("PVE API " +:+ endpoint +:+ " failed after 3 attempts") lastErr)
  | S tries =>
      match http attempt with
      | Err e => get_attempts endpoint http tries (S attempt) e
      | Ok resp =>
          if pr_StatusCode resp =? 401
          then Err (ErrMsg "PVE auth error (401): check PROXMOX_TOKEN and PROXMOX_SECRET")
          else if pr_StatusCode resp =? 403
          then Err (ErrMsg "PVE permission error (403): token lacks required privileges")
          else if (pr_StatusCode resp <? 200) || (300 <=? pr_StatusCode resp)
          then Err (ErrMsg ("PVE API " +:+ endpoint +:+ " returned HTTP " +:+
                            Itoa (pr_StatusCode resp) +:+ ": " +:+ TrimSpace (pr_Body resp)))
          else match pr_JSON resp with
          | Err e => get_attempts endpoint http tries (S attempt) (ErrWrap "invalid JSON" e)
          | Ok data => Ok data
          end
      end
  end.

Definition get (endpoint : string) (http : nat → result PveResponse) :
    result (list (string * any)) :=
  get_attempts endpoint http 3 1 (ErrMsg "").

(** ** Runs *)

Inductive outcome (A : Type) : Type :=
| Returns (a : A)
| Panics
| OutOfFuel.
Arguments Returns {A} a.
Arguments Panics {A}.
Arguments OutOfFuel {A}.

#[export] Instance outcome_ret : MRet outcome := λ A a, Returns a.
#[export] Instance outcome_bind : MBind outcome := λ A B f o,
  match o with Returns a => f a | Panics => Panics | OutOfFuel => OutOfFuel end.

(** ** Values *)

Definition str (v : any) : string := match v with AString s => s | _ => "" end.

Definition boolVal (v : any) : bool :=
  match v with ABool b => b | AFloat f => nonzero f | _ => false end.

Definition parseVMID (id : string) : Z :=
  let '(v, ok) := ParseInt id in
  if ok : bool then v else
  match LastIndex id "/" with
  | None => 0
  | Some i =>
      let '(v, ok) := ParseInt (str_drop_nat (S i) id) in
      if ok : bool then v else 0
  end.

(** [data["data"].([]any)]. *)
Definition data_list (data : list (string * any)) : list any := as_list (field "data" data).

(** A float that is not there is zero. *)
Definition float_or_zero (v : any) : float64 := default (Float 0) (as_float v).

Record backupStatus := { bs_Status : string; bs_StartTime : Z; bs_EndTime : Z; bs_Duration : Z }.

Record backupFile := { bf_ctime : Z; bf_size : Z; bf_volid : string }.

Record rawTask := {
  rt_start : float64; rt_end : float64; rt_status : string; rt_id : string; rt_upid : string }.

(** A row of [backup_tasks]; [bt_job_error] is there in the first one at most. *)
Record BackupTask := {
  bt_vmid : Z; bt_vm_name : string; bt_status : string; bt_starttime : Z; bt_endtime : Z;
  bt_duration : Z; bt_size : Z; bt_filename : string; bt_job_error : option string }.

Definition no_job : backupStatus :=
  {| bs_Status := "ERROR"; bs_StartTime := -1; bs_EndTime := -1; bs_Duration := -1 |}.

(** ** The status of a job *)

(** [status], [jobError], [minStart] and [maxEnd]. *)
Definition job_step (acc : string * string * Z * Z) (t : BackupTask) : string * string * Z * Z :=
  let '(status, jobErr, minStart, maxEnd) := acc in
  let jobErr := if str_empty jobErr then TrimSpace (default "" (bt_job_error t)) else jobErr in
  let taskStatus := TrimSpace (bt_status t) in
  let status :=
    if EqualFold taskStatus "OK" then status
    else if HasPrefix (ToUpper taskStatus) "WARNING"
    then (if bool_decide (status = "OK") then taskStatus else status)
    else if str_empty taskStatus then "ERROR" else taskStatus in
  (status, jobErr, if bt_starttime t <? minStart then bt_starttime t else minStart,
   if maxEnd <? bt_endtime t then bt_endtime t else maxEnd).

Definition jobBackupStatus (tasks : list BackupTask) : backupStatus :=
  if is_nil tasks then no_job else
  let '(status, jobErr, minStart, maxEnd) := fold_left job_step tasks ("OK", "", 2^62, 0) in
  {| bs_Status := if str_empty jobErr then status else jobErr; bs_StartTime := minStart;
     bs_EndTime := maxEnd; bs_Duration := wrap64 (maxEnd - minStart) |}.

(** ** Tasks *)

Section tasks.
Context (lower : string → string) (get : string → result (list (string * any))) (hostname : string).
Context `{!SortSlice}.

Definition vmNames : gmap Z string :=
  fold_left (λ names ep,
    match get ep with
    | Err _ => names
    | Ok data =>
        fold_left (λ names v,
          match as_map v with
          | None => names
          | Some vm => <[Trunc (float_or_zero (field "vmid" vm)) := str (field "name" vm)]> names
          end) (data_list data) names
    end) ["nodes/" +:+ hostname +:+ "/qemu"; "nodes/" +:+ hostname +:+ "/lxc"] ∅.

Definition taskExitStatus (upid : string) : string :=
  match get ("nodes/" +:+ hostname +:+ "/tasks/" +:+ PathEscape upid +:+ "/status") with
  | Err _ => ""
  | Ok data => str (field "exitstatus" (default [] (as_map (field "data" data))))
  end.

Definition taskStatus (task : list (string * any)) : option string :=
  let some s := if str_empty s then None else Some s in
  let exitstatus := str (field "exitstatus" task) in
  if negb (str_empty exitstatus) then Some exitstatus else
  let status := str (field "status" task) in
  let upid := str (field "upid" task) in
  let asked := if bool_decide (status = "stopped") && negb (str_empty upid)
               then taskExitStatus upid else "" in
  if negb (str_empty asked) then Some asked else some status.

(** *** The log of a task *)

Definition pageLimit : Z := 500.

Definition log_endpoint (upid : string) (start : Z) : string :=
  "nodes/" +:+ hostname +:+ "/tasks/" +:+ PathEscape upid +:+ "/log?start=" +:+ Itoa start +:+
  "&limit=" +:+ Itoa pageLimit.

Definition log_texts (raw : list any) : list string :=
  omap (λ item, m ← as_map item; as_string (field "t" m)) raw.

(** The lines of all the pages from [start] on; [None] where a page cannot be read. *)
Fixpoint log_pages (fuel : nat) (upid : string) (start : Z) : outcome (option (list string)) :=
  match fuel with
  | O => OutOfFuel
  | S fuel =>
      match get (log_endpoint upid start) with
      | Err _ => Returns None
      | Ok data =>
          let raw := data_list data in
          if Z.of_nat (length raw) <? pageLimit then Returns (Some (log_texts raw)) else
          rest ← log_pages fuel upid (start + pageLimit);
          Returns (option_map (app (log_texts raw)) rest)
      end
  end.

Definition empty_log : backupLogInfo :=
  {| durations := ∅; vmids := ∅; statuses := ∅; jobError := "" |}.

Definition aggregateTaskInfo (fuel : nat) (upid : string) : outcome backupLogInfo :=
  if str_empty upid then Returns empty_log else
  lines ← log_pages fuel upid 0;
  match lines with
  | None => Returns empty_log
  | Some lines =>
      match parseBackupLog lower lines with Some info => Returns info | None => Panics end
  end.

Definition aggregateTaskDurations (fuel : nat) (upid : string) : outcome (gmap Z Z) :=
  info ← aggregateTaskInfo fuel upid; Returns (durations info).
End tasks.

(** *** The tasks of the last job *)

Section jobs.
Context (lower : string → string) (get : string → result (list (string * any))) (hostname : string).
Context `{!SortSlice}.

Definition finished_task (t : any) : option rawTask :=
  m ← as_map t;
  end_ ← as_float (field "endtime" m); start ← as_float (field "starttime" m);
  status ← taskStatus get hostname m;
  Some {| rt_start := start; rt_end := end_; rt_status := status; rt_id := str (field "id" m);
          rt_upid := str (field "upid" m) |}.

(** [finished[i].end > finished[j].end]. *)
Definition latest_end (a b : rawTask) : bool := negb (flt (rt_end a) (rt_end b)).

Definition maxGap : float64 := Float 7200.

(** From the most recent task back, as long as the next one ended less than two hours
    before the earliest start so far. *)
Fixpoint job_from (prevStart : float64) (first : bool) (tasks : list rawTask) : list rawTask :=
  match tasks with
  | [] => []
  | t :: tasks =>
      if negb first && flt maxGap (fsub prevStart (rt_end t)) then [] else
      t :: job_from (if flt (rt_start t) prevStart then rt_start t else prevStart) false tasks
  end.

Definition last_job (finished : list rawTask) : list rawTask :=
  match finished with [] => [] | t :: _ => job_from (rt_start t) true finished end.

Definition per_vm (t : rawTask) : bool := negb (parseVMID (rt_id t) =? 0).

(** [jobStart], [jobEnd] and [perVMTaskCount]. *)
Definition job_span (tasks : list rawTask) : Z * Z * Z :=
  fold_left (λ '(jobStart, jobEnd, n) t,
    if negb (per_vm t) then (jobStart, jobEnd, n) else
    (if Trunc (rt_start t) <? jobStart then Trunc (rt_start t) else jobStart,
     if jobEnd <? Trunc (rt_end t) then Trunc (rt_end t) else jobEnd, n + 1)) tasks (2^62, 0, 0).

Definition task_duration (t : rawTask) : Z := Trunc (fsub (rt_end t) (rt_start t)).

(** The logs of all the tasks of the job: the durations in them, the duration of the
    first task that is not of one guest, and the first error of a job. *)
Fixpoint job_logs (fuel : nat) (tasks : list rawTask) (logDurations : gmap Z Z)
    (aggregateDuration : Z) (jobErr : string) : outcome (gmap Z Z * Z * string) :=
  match tasks with
  | [] => Returns (logDurations, aggregateDuration, jobErr)
  | t :: tasks =>
      let aggregateDuration :=
        if negb (per_vm t) && (aggregateDuration =? 0) then task_duration t else aggregateDuration in
      info ← aggregateTaskInfo lower get hostname fuel (rt_upid t);
      let jobErr :=
        if str_empty jobErr && isGenericBackupStatus (rt_status t) && negb (str_empty (jobError info))
        then jobError info else jobErr in
      job_logs fuel tasks (durations info ∪ logDurations) aggregateDuration jobErr
  end.

Definition in_window (start end_ : Z) (f : backupFile) : bool :=
  (wrap64 (start - 60) <=? bf_ctime f) && (bf_ctime f <=? wrap64 (end_ + 60)).

Context (names : gmap Z string) (filesByVMID : gmap Z (list backupFile)).

Definition matching_file (vmid start end_ : Z) : option backupFile :=
  List.find (in_window start end_) (default [] (filesByVMID !! vmid)).

Definition file_size (f : option backupFile) : Z := match f with Some f => bf_size f | None => 0 end.
Definition file_name (f : option backupFile) : string :=
  match f with Some f => bf_volid f | None => "" end.

(** The row of a task of one guest. *)
Definition guest_row (vmid : Z) (t : rawTask) (info : backupLogInfo) (logDurations : gmap Z Z)
    (aggregateDuration jobDuration perVMTaskCount : Z) : BackupTask :=
  let start := Trunc (rt_start t) in
  let end_ := Trunc (rt_end t) in
  let logged := default 0 (logDurations !! vmid) in
  let taken := task_duration t in
  let duration :=
    if 0 <? logged then logged
    else if (0 <? aggregateDuration) && (taken =? aggregateDuration) then 0
    else if (1 <? perVMTaskCount) && (0 <? jobDuration) && (taken =? jobDuration) then 0
    else taken in
  let file := matching_file vmid start end_ in
  let moved := match file with Some f => if 0 <? logged then Some (bf_ctime f) else None
                             | None => None end in
  {| bt_vmid := vmid; bt_vm_name := default "" (names !! vmid);
     bt_status := resolveBackupTaskStatus (rt_status t) vmid info;
     bt_starttime := default start moved;
     bt_endtime := match moved with Some c => wrap64 (c + duration) | None => end_ end;
     bt_duration := duration; bt_size := file_size file; bt_filename := file_name file;
     bt_job_error := None |}.

(** The first task of every guest, with its log. *)
Fixpoint guest_rows (fuel : nat) (tasks : list rawTask) (seen : list Z) (logDurations : gmap Z Z)
    (aggregateDuration jobDuration perVMTaskCount : Z) : outcome (list BackupTask) :=
  match tasks with
  | [] => Returns []
  | t :: tasks =>
      let vmid := parseVMID (rt_id t) in
      if (vmid =? 0) || bool_decide (vmid ∈ seen)
      then guest_rows fuel tasks seen logDurations aggregateDuration jobDuration perVMTaskCount
      else
        info ← aggregateTaskInfo lower get hostname fuel (rt_upid t);
        rest ← guest_rows fuel tasks (vmid :: seen) logDurations aggregateDuration jobDuration
                 perVMTaskCount;
        Returns (guest_row vmid t info logDurations aggregateDuration jobDuration perVMTaskCount
                   :: rest)
  end.

Definition with_job_err (jobErr : string) (rows : list BackupTask) : list BackupTask :=
  match rows with
  | [] => []
  | r :: rows =>
      (if str_empty jobErr then r else
       {| bt_vmid := bt_vmid r; bt_vm_name := bt_vm_name r; bt_status := bt_status r;
          bt_starttime := bt_starttime r; bt_endtime := bt_endtime r; bt_duration := bt_duration r;
          bt_size := bt_size r; bt_filename := bt_filename r; bt_job_error := Some jobErr |}) :: rows
  end.

(** The guests of a task without one: those of its log, or those of this node with a
    file from the time of the task, in the order of their numbers. *)
Definition aggregate_guests (aggregate : rawTask) (logInfo : backupLogInfo) : list Z :=
  let start := Trunc (rt_start aggregate) in
  let end_ := Trunc (rt_end aggregate) in
  sort_slice Z.leb
    (if negb (is_nil (elements (vmids logInfo))) then elements (vmids logInfo) else
     List.filter (λ vmid,
       (bool_decide (names = ∅) || bool_decide (is_Some (names !! vmid))) &&
       existsb (in_window start end_) (default [] (filesByVMID !! vmid)))
       (map_to_list filesByVMID).*1).

Definition aggregate_row (aggregate : rawTask) (logInfo : backupLogInfo) (vmid : Z) : BackupTask :=
  let start := Trunc (rt_start aggregate) in
  let end_ := Trunc (rt_end aggregate) in
  let file := matching_file vmid start end_ in
  let logged := default 0 (durations logInfo !! vmid) in
  let duration := if 0 <? logged then logged else 0 in
  let moved := match file with Some f => if 0 <? logged then Some (bf_ctime f) else None
                             | None => None end in
  let status := resolveBackupTaskStatus (rt_status aggregate) vmid logInfo in
  let status :=
    if bool_decide (status = rt_status aggregate) && negb (bool_decide (file = None)) &&
       isGenericBackupStatus (rt_status aggregate) &&
       str_empty (default "" (statuses logInfo !! vmid)) then "OK" else status in
  {| bt_vmid := vmid; bt_vm_name := default "" (names !! vmid); bt_status := status;
     bt_starttime := default start moved;
     bt_endtime := match moved with Some c => wrap64 (c + logged) | None => end_ end;
     bt_duration := duration; bt_size := file_size file; bt_filename := file_name file;
     bt_job_error := None |}.

Definition rows_of_job (fuel : nat) (jobTasks : list rawTask) : outcome (list BackupTask) :=
  let '(jobStart, jobEnd, perVMTaskCount) := job_span jobTasks in
  '(logDurations, aggregateDuration, jobErr) ← job_logs fuel jobTasks ∅ 0 "";
  rows ← guest_rows fuel jobTasks [] logDurations aggregateDuration (wrap64 (jobEnd - jobStart))
           perVMTaskCount;
  if negb (is_nil rows) then Returns (with_job_err jobErr rows) else
  match jobTasks with
  | [] => Returns []
  | aggregate :: _ =>
      logInfo ← aggregateTaskInfo lower get hostname fuel (rt_upid aggregate);
      Returns (with_job_err (jobError logInfo)
                 (aggregate_row aggregate logInfo <$> aggregate_guests aggregate logInfo))
  end.

Definition backupJobTasks (fuel : nat) : outcome (list BackupTask) :=
  match get ("nodes/" +:+ hostname +:+ "/tasks?typefilter=vzdump&limit=100") with
  | Err _ => Returns []
  | Ok data =>
      let finished := omap finished_task (data_list data) in
      if is_nil finished then Returns [] else
      rows_of_job fuel (last_job (sort_slice latest_end finished))
  end.

Definition lastBackupStatus (fuel : nat) : outcome backupStatus :=
  match get ("nodes/" +:+ hostname +:+ "/tasks?typefilter=vzdump&limit=50") with
  | Err _ => Returns no_job
  | Ok data =>
      match sort_slice latest_end (omap finished_task (data_list data)) with
      | [] => Returns no_job
      | last :: _ =>
          status ← (if isGenericBackupStatus (rt_status last) && negb (str_empty (rt_upid last)) then
                      info ← aggregateTaskInfo lower get hostname fuel (rt_upid last);
                      Returns (if str_empty (jobError info) then rt_status last else jobError info)
                    else Returns (rt_status last));
          Returns {| bs_Status := status; bs_StartTime := Trunc (rt_start last);
                     bs_EndTime := Trunc (rt_end last); bs_Duration := task_duration last |}
      end
  end.

Definition reportBackupStatus (fuel : nat) (tasks : list BackupTask) : outcome backupStatus :=
  if negb (is_nil tasks) then Returns (jobBackupStatus tasks) else lastBackupStatus fuel.
End jobs.

(** ** Storages *)

(** Values that are passed on as they came are [any]. *)
Record StorageInfo := {
  si_total : any; si_used : any; si_avail : any; si_used_percent : any; si_enabled : bool }.

Record ContentItem := {
  ci_vmid : any; ci_format : any; ci_size : any; ci_content : any; ci_volid : any;
  ci_verification : string; ci_ctime : Z; ci_notes : any; ci_subtype : any; ci_parent : any }.

Record StorageReport := {
  srp_digest : string; srp_prune_backups : any; srp_shared : bool; srp_server : string;
  srp_storage : string; srp_export : string; srp_path : string; srp_content : string;
  srp_type : string; srp_created_at : string; srp_status : string;
  srp_storage_info : list StorageInfo; srp_content_data : list ContentItem }.

(** What [sysinfo.go] says of the machine, and the version of the client. *)
Record Machine := {
  mc_hostname : string; mc_localIP : string; mc_publicIP : string; mc_version : string;
  mc_machineID : string; mc_swap_total : Z; mc_swap_used : Z; mc_swap_enabled : bool }.

Record PVEReportBody := {
  pb_machine : Machine; pb_last_backup_status : backupStatus; pb_storages : list StorageReport;
  pb_backup_tasks : list BackupTask }.

Definition content_ctime (v : any) : Z :=
  match v with AFloat f => Trunc f | AString s => (ParseInt s).1 | _ => 0 end.

Definition content_item (im : list (string * any)) : ContentItem :=
  {| ci_vmid := field "vmid" im; ci_format := field "format" im; ci_size := field "size" im;
     ci_content := field "content" im; ci_volid := field "volid" im;
     ci_verification := match as_map (field "verification" im) with
                        | Some v => str (field "state" v) | None => "" end;
     ci_ctime := content_ctime (field "ctime" im); ci_notes := field "notes" im;
     ci_subtype := field "subtype" im; ci_parent := field "parent" im |}.

(** The backup files of the guests, in the order of the contents. *)
Definition add_file (im : list (string * any)) (files : gmap Z (list backupFile)) :
    gmap Z (list backupFile) :=
  if negb (bool_decide (str (field "content" im) = "backup")) then files else
  let vmid := Trunc (float_or_zero (field "vmid" im)) in
  <[vmid := default [] (files !! vmid) ++
     [{| bf_ctime := content_ctime (field "ctime" im);
         bf_size := Trunc (float_or_zero (field "size" im)); bf_volid := str (field "volid" im) |}]]>
    files.

Definition storage_info (name : string) (nodeStorages : list any) : list StorageInfo :=
  match List.find (λ nsm, bool_decide (str (field "storage" nsm) = name)) (omap as_map nodeStorages) with
  | None => []
  | Some nsm =>
      [{| si_total := field "total" nsm; si_used := field "used" nsm; si_avail := field "avail" nsm;
          si_used_percent := field "used-percent" nsm; si_enabled := boolVal (field "enabled" nsm) |}]
  end.

Section report.
Context (lower : string → string) (get : string → result (list (string * any))).
Context (now : string) (machine : Machine).
Context `{!SortSlice}.

(** One storage, with the files found so far. *)
Definition storage_report (nodeStorages : list any) (sm : list (string * any))
    (files : gmap Z (list backupFile)) : StorageReport * gmap Z (list backupFile) :=
  let name := str (field "storage" sm) in
  let report status contents :=
    {| srp_digest := str (field "digest" sm); srp_prune_backups := field "prune-backups" sm;
       srp_shared := boolVal (field "shared" sm); srp_server := str (field "server" sm);
       srp_storage := name; srp_export := str (field "export" sm); srp_path := str (field "path" sm);
       srp_content := str (field "content" sm); srp_type := str (field "type" sm);
       srp_created_at := now; srp_status := status;
       srp_storage_info := storage_info name nodeStorages; srp_content_data := contents |} in
  match get ("nodes/" +:+ mc_hostname machine +:+ "/storage/" +:+ name +:+ "/content") with
  | Err _ => (report (if bool_decide (name = "local") then "online" else "offline") [], files)
  | Ok data =>
      let items := omap as_map (data_list data) in
      (report "online" (content_item <$> items), fold_left (λ files im, add_file im files) items files)
  end.

Fixpoint storage_reports (nodeStorages storages : list any) (files : gmap Z (list backupFile)) :
    list StorageReport * gmap Z (list backupFile) :=
  match storages with
  | [] => ([], files)
  | s :: storages =>
      match as_map s with
      | None => storage_reports nodeStorages storages files
      | Some sm =>
          let '(sr, files) := storage_report nodeStorages sm files in
          let '(rest, files) := storage_reports nodeStorages storages files in
          (sr :: rest, files)
      end
  end.

Definition generateReport (fuel : nat) : outcome (result PVEReportBody) :=
  match get "storage" with
  | Err e => Returns (Err (ErrWrap "list storages" e))
  | Ok storagesData =>
      let nodeStorages :=
        match get ("nodes/" +:+ mc_hostname machine +:+ "/storage") with
        | Ok data => data_list data | Err _ => [] end in
      let '(storages, files) := storage_reports nodeStorages (data_list storagesData) ∅ in
      let names := vmNames get (mc_hostname machine) in
      tasks ← backupJobTasks lower get (mc_hostname machine) names files fuel;
      status ← reportBackupStatus lower get (mc_hostname machine) fuel tasks;
      Returns (Ok {| pb_machine := machine; pb_last_backup_status := status;
                     pb_storages := storages; pb_backup_tasks := tasks |})
  end.
End report.

(** ** Lemmas *)

Lemma outcome_bind_Returns {A B} (f : A → outcome B) (o : outcome A) b :
  o ≫= f = Returns b → ∃ a, o = Returns a ∧ f a = Returns b.
Proof. destruct o; [eauto|done..]. Qed.

(** *** Paging *)

Section paging.
Context (get : string → result (list (string * any))) (hostname upid : string) (L : list any).
(** The node answers every page of one log. *)
Hypothesis pages : ∀ n : nat, (n ≤ length L)%nat → ∃ data,
  get (log_endpoint hostname upid (Z.of_nat n)) = Ok data ∧ data_list data = take 500 (drop n L).

Lemma log_texts_app l1 l2 : log_texts (l1 ++ l2) = log_texts l1 ++ log_texts l2.
Proof. apply omap_app. Qed.

Lemma log_pages_from fuel n :
  (n ≤ length L)%nat → (length L - n < fuel * 500)%nat →
  log_pages get hostname fuel upid (Z.of_nat n) = Returns (Some (log_texts (drop n L))).
Proof.
  revert n. induction fuel as [|fuel IH]; intros n HL Hn; [lia|]. cbn [log_pages].
  destruct (pages n HL) as (data & -> & ->). rewrite length_take, length_drop. unfold pageLimit.
  destruct (Z.ltb_spec (Z.of_nat (500 `min` (length L - n))) 500) as [Hlt|Hge].
  - rewrite take_ge; [done|]. rewrite length_drop. lia.
  - replace (Z.of_nat n + 500) with (Z.of_nat (n + 500)) by lia.
    rewrite IH by lia. cbn [mbind outcome_bind option_map].
    rewrite <-log_texts_app, <-(drop_drop L 500 n). by rewrite take_drop.
Qed.
End paging.

(** *** The rows of a job *)

Lemma bt_vmid_job_err e rows : bt_vmid <$> with_job_err e rows = bt_vmid <$> rows.
Proof. destruct rows as [|r rows]; [done|]. cbn. by destruct (str_empty e). Qed.

Section rows.
Context (lower : string → string) (get : string → result (list (string * any))) (hostname : string).
Context `{!SortSlice}.
Context (names : gmap Z string) (filesByVMID : gmap Z (list backupFile)).

Lemma guest_rows_distinct fuel tasks seen ld ad jd n rows :
  guest_rows lower get hostname names filesByVMID fuel tasks seen ld ad jd n = Returns rows →
  NoDup (bt_vmid <$> rows) ∧ Forall (λ v, v ∉ seen ∧ v ≠ 0) (bt_vmid <$> rows).
Proof.
  revert seen rows. induction tasks as [|t tasks IH]; intros seen rows Hr.
  { injection Hr as <-. split; constructor. }
  cbn [guest_rows] in Hr. cbv zeta in Hr.
  destruct (Z.eqb_spec (parseVMID (rt_id t)) 0) as [H0|H0]; [by apply IH|].
  cbn [orb] in Hr. case_bool_decide as Hin; [by apply IH|].
  apply outcome_bind_Returns in Hr as (info & _ & Hr).
  apply outcome_bind_Returns in Hr as (rest & Hrest & [= <-]).
  apply IH in Hrest as [Hnd Hall]. rewrite fmap_cons. split.
  - apply NoDup_cons. split; [|done]. intros Hv. rewrite Forall_forall in Hall.
    destruct (Hall _ Hv) as [Hni _]. apply Hni. left.
  - apply Forall_cons. split; [done|]. eapply Forall_impl; [exact Hall|].
    intros v [Hni Hne]. set_solver.
Qed.

Lemma aggregate_guests_distinct aggregate info :
  NoDup (aggregate_guests names filesByVMID aggregate info).
Proof.
  unfold aggregate_guests. cbv zeta. rewrite sort_slice_perm.
  destruct (negb _); [apply NoDup_elements|]. apply NoDup_filter_bool, NoDup_fst_map_to_list.
Qed.

Lemma aggregate_rows_guests aggregate info (l : list Z) :
  bt_vmid <$> (aggregate_row names filesByVMID aggregate info <$> l) = l.
Proof. rewrite <-list_fmap_compose. induction l as [|v l IH]; [done|]. by rewrite fmap_cons, IH. Qed.
End rows.

(** *** The status of a job *)

(** The row as the server stores it, as far as its status goes. *)
Definition stored_row (t : BackupTask) : PVEBackupTask :=
  {| task_ID := 0; task_ReportID := 0; task_VMID := bt_vmid t; task_VMName := bt_vm_name t;
     task_Status := bt_status t; task_StartTime := bt_starttime t; task_EndTime := bt_endtime t;
     task_Duration := bt_duration t; task_Size := bt_size t; task_Filename := bt_filename t |}.

(** 0: all well; 1: a warning; 2: a failure. *)
Definition severity (status : string) : Z :=
  if PVEBackupStatusOK status then 0 else if PVEBackupStatusWarning status then 1 else 2.

Definition worst (tasks : list BackupTask) : Z :=
  fold_right (λ t w, Z.max (severity (bt_status t)) w) 0 tasks.

Lemma severity_range s : 0 ≤ severity s ≤ 2.
Proof. unfold severity. destruct (PVEBackupStatusOK s), (PVEBackupStatusWarning s); lia. Qed.

Lemma severity_trim s : severity (TrimSpace s) = severity s.
Proof. unfold severity, PVEBackupStatusOK, PVEBackupStatusWarning. by rewrite TrimSpace_idem. Qed.

(** What [job_step] makes of the status so far. *)
Definition next_status (status : string) (t : BackupTask) : string :=
  (job_step (status, "", 0, 0) t).1.1.1.

Lemma next_status_severity status t :
  (severity status = 0 ↔ status = "OK") →
  severity (next_status status t) = Z.max (severity status) (severity (bt_status t)) ∧
  (severity (next_status status t) = 0 ↔ next_status status t = "OK").
Proof.
  intros Hok. unfold next_status. cbn [job_step fst]. rewrite <-(severity_trim (bt_status t)).
  set (s := TrimSpace (bt_status t)).
  assert (TrimSpace s = s) as Hs by apply TrimSpace_idem.
  pose proof (severity_range status). unfold severity at 3. unfold PVEBackupStatusOK at 1,
    PVEBackupStatusWarning at 1. rewrite Hs.
  destruct (EqualFold s "OK") eqn:He; [split; [lia|done]|].
  assert (severity s = if HasPrefix (ToUpper s) "WARNING" then 1 else 2) as Hsev
    by (unfold severity, PVEBackupStatusOK, PVEBackupStatusWarning; by rewrite Hs, He).
  assert (s ≠ "OK") as Hne by (intros ->; vm_compute in He; discriminate He).
  destruct (HasPrefix (ToUpper s) "WARNING") eqn:Hw.
  - case_bool_decide as Hst.
    + rewrite Hsev, (proj2 Hok Hst). by split.
    + split; [|done]. rewrite <-Hok in Hst. lia.
  - unfold str_empty. case_bool_decide as H0.
    + change (severity "ERROR") with 2. split; [lia|done].
    + rewrite Hsev. split; [lia|done].
Qed.

(** The errors of the job that the rows carry. *)
Definition job_errors (tasks : list BackupTask) : list string :=
  List.filter (λ e, negb (str_empty e)) ((λ t, TrimSpace (default "" (bt_job_error t))) <$> tasks).

(** The steps keep the first one. *)
Lemma job_steps_severity tasks status je a b :
  (severity status = 0 ↔ status = "OK") →
  let acc := fold_left job_step tasks (status, je, a, b) in
  severity acc.1.1.1 = Z.max (severity status) (worst tasks) ∧
  acc.1.1.2 = if str_empty je then default "" (head (job_errors tasks)) else je.
Proof.
  cbv zeta. revert status je a b. induction tasks as [|t tasks IH]; intros status je a b Hok.
  { cbn. pose proof (severity_range status). split; [lia|].
    unfold str_empty. by case_bool_decide. }
  destruct (next_status_severity status t Hok) as [Hsev Hok'].
  assert (∃ a' b', job_step (status, je, a, b) t = (next_status status t,
    if str_empty je then TrimSpace (default "" (bt_job_error t)) else je, a', b'))
    as (a' & b' & Hstep) by (unfold next_status; cbn [job_step]; by eexists _, _).
  cbn [fold_left]. rewrite Hstep. set (je' := if str_empty je then _ else _).
  destruct (IH (next_status status t) je' a' b' Hok') as [-> ->]. split.
  - rewrite Hsev. cbn [worst fold_right]. fold (worst tasks). lia.
  - unfold je', job_errors. rewrite fmap_cons. cbn [List.filter].
    destruct (str_empty je) eqn:Hje; [|by rewrite Hje].
    by destruct (str_empty (TrimSpace _)).
Qed.

Lemma summary_severity tasks fallback :
  tasks ≠ [] → severity (PVEBackupStatusSummary (stored_row <$> tasks) fallback) = worst tasks.
Proof.
  intros Hne. assert (∀ w, (severity w = 1 ∨ w = "") →
    severity (match summary_loop w (stored_row <$> tasks) with
              | inl s => s | inr w => if str_empty w then "OK" else w end) =
    Z.max (if str_empty w then 0 else 1) (worst tasks)) as Hloop.
  { clear Hne. induction tasks as [|t tasks IH]; intros w Hw.
    - cbn. unfold str_empty. case_bool_decide; [done|]. destruct Hw as [Hw|]; [by rewrite Hw|done].
    - rewrite fmap_cons. cbn [summary_loop worst fold_right]. fold (worst tasks).
      change (task_Status (stored_row t)) with (bt_status t).
      rewrite <-(severity_trim (bt_status t)). set (s := TrimSpace (bt_status t)).
      pose proof (severity_range s).
      assert (0 ≤ worst tasks ≤ 2) as Hr.
      { clear. induction tasks as [|t tasks IH]; [done|]. cbn [worst fold_right]. fold (worst tasks).
        pose proof (severity_range (bt_status t)). lia. }
      assert (severity s = if PVEBackupStatusOK s then 0 else if PVEBackupStatusWarning s then 1 else 2)
        as Hsev by done.
      destruct (PVEBackupStatusOK s) eqn:Hok; [rewrite IH by done; destruct (str_empty w); lia|].
      destruct (PVEBackupStatusWarning s) eqn:Hwarn.
      + assert (str_empty s = false) as Hs0.
        { unfold str_empty. apply bool_decide_eq_false. intros H0. by rewrite H0 in Hwarn. }
        destruct (str_empty w) eqn:He; rewrite IH; [by rewrite Hs0; lia|by left|by rewrite He; lia|done].
      + destruct (str_empty s); [change (severity "ERROR") with 2|rewrite Hsev]; destruct (str_empty w); lia. }
  destruct tasks as [|t tasks]; [done|]. unfold PVEBackupStatusSummary.
  specialize (Hloop "" (or_intror eq_refl)). rewrite fmap_cons in *.
  change (str_empty "") with true in Hloop. cbv iota in Hloop.
  assert (0 ≤ worst (t :: tasks)) by (cbn [worst fold_right]; pose proof (severity_range (bt_status t)); lia).
  rewrite Z.max_r in Hloop by done. exact Hloop.
Qed.

(** ** Theorems *)

(** C37: reading the log of a task page by page ends, and reads the whole log, whatever
    its length: one page more than it fills. *)
Theorem task_log_read_whole (lower : string → string)
    (get : string → result (list (string * any))) (hostname upid : string) (L : list any) :
  upid ≠ "" →
  (∀ n : nat, (n ≤ length L)%nat → ∃ data,
     get (log_endpoint hostname upid (Z.of_nat n)) = Ok data ∧
     data_list data = take 500 (drop n L)) →
  ∀ fuel, (length L / 500 < fuel)%nat →
  aggregateTaskInfo lower get hostname fuel upid =
    match parseBackupLog lower (log_texts L) with Some info => Returns info | None => Panics end.
Proof.
  intros Hupid Hpages fuel Hfuel. unfold aggregateTaskInfo, str_empty.
  rewrite bool_decide_false by done.
  pose proof (log_pages_from get hostname upid L Hpages fuel 0) as Hread.
  change (Z.of_nat 0) with 0 in Hread. rewrite Hread; [done|lia|].
  pose proof (Nat.mul_succ_div_gt (length L) 500 ltac:(lia)). nia.
Qed.

(** a report has at most one row for a guest, whatever the node answers. *)
Theorem backupJobTasks_distinct `{!SortSlice} (lower : string → string)
    (get : string → result (list (string * any))) (hostname : string) (names : gmap Z string)
    (filesByVMID : gmap Z (list backupFile)) (fuel : nat) (rows : list BackupTask) :
  backupJobTasks lower get hostname names filesByVMID fuel = Returns rows →
  NoDup (bt_vmid <$> rows).
Proof.
  unfold backupJobTasks. destruct (get _) as [data|e]; [|intros [= <-]; constructor].
  cbv zeta. destruct (is_nil _); [intros [= <-]; constructor|].
  unfold rows_of_job. destruct (job_span _) as [[jobStart jobEnd] n].
  intros ([[ld ad] je] & _ & Hr)%outcome_bind_Returns.
  apply outcome_bind_Returns in Hr as (l & Hl & Hr). apply guest_rows_distinct in Hl as [Hnd _].
  destruct (negb (is_nil l)); [injection Hr as <-; by rewrite bt_vmid_job_err|].
  destruct (last_job _) as [|aggregate tasks]; [injection Hr as <-; constructor|].
  apply outcome_bind_Returns in Hr as (info & _ & [= <-]).
  rewrite bt_vmid_job_err, aggregate_rows_guests. apply aggregate_guests_distinct.
Qed.

(** C38: the status of a job of guests, from the same rows on both sides.  The server
    derives one that is as bad as the worst guest: well, a warning, or a failure.  So does
    the client, unless a row carries an error of the job itself: then that text is what
    it reports, whatever the guests are, and the server has no part in it. *)
Theorem job_status_agrees (tasks : list BackupTask) (fallback : string) :
  tasks ≠ [] →
  severity (PVEBackupStatusSummary (stored_row <$> tasks) fallback) = worst tasks ∧
  match job_errors tasks with
  | [] => severity (bs_Status (jobBackupStatus tasks)) = worst tasks
  | jobError :: _ => bs_Status (jobBackupStatus tasks) = jobError
  end.
Proof.
  intros Hne. split; [by apply summary_severity|].
  destruct (job_steps_severity tasks "OK" "" (2^62) 0) as [Hsev Hje]; [done|].
  assert (0 ≤ worst tasks).
  { destruct tasks as [|t tasks]; [done|]. cbn [worst fold_right].
    pose proof (severity_range (bt_status t)). lia. }
  assert (∀ e, e ∈ job_errors tasks → str_empty e = false) as Hnonempty.
  { intros e. unfold job_errors. rewrite elem_of_filter_bool, negb_true_iff. tauto. }
  unfold jobBackupStatus. destruct tasks as [|t tasks]; [done|]. cbn [is_nil].
  destruct (fold_left job_step _ _) as [[[status je] a] b]. cbn [fst snd bs_Status] in *.
  change (str_empty "") with true in Hje. cbn iota in Hje. subst je.
  destruct (job_errors (t :: tasks)) as [|e l]; cbn [head default from_option].
  - change (str_empty "") with true. cbn iota. rewrite Hsev. change (severity "OK") with 0. lia.
  - unfold default, id. cbn. by rewrite (Hnonempty e) by left.
Qed.

(** ** Examples *)

Module PveClientExamples.
Definition task (id status : string) (start end_ : Z) : any :=
  AMap [("upid", AString ("UPID:" +:+ id)); ("id", AString id); ("status", AString status);
        ("starttime", AFloat (Float start)); ("endtime", AFloat (Float end_))].

(** Guest 100 was backed up twice in the last job; 101 belongs to the job of the day
    before. *)
Definition tasks : list any :=
  [task "101" "OK" 1000 1600; task "100" "job errors" 90000 90300; task "vm/100" "OK" 90400 90600].

Definition log_lines_of (lines : list string) : list any :=
  (λ l, AMap [("t", AString l)]) <$> lines.

Definition api (ep : string) : result (list (string * any)) :=
  if Contains ep "/tasks?" then Ok [("data", AList tasks)]
  else if Contains ep "/log?start=0" then Ok [("data", AList (log_lines_of LogExamples.failed_log))]
  else Err (ErrMsg "no such endpoint").

Definition rows : outcome (list BackupTask) :=
  backupJobTasks ToLower api "pve1" ∅ ∅ 5.

Definition whole_log (ep : string) : result (list (string * any)) :=
  match List.find (λ n, bool_decide (ep = log_endpoint "pve1" "UPID:1" (Z.of_nat n))) (seq 0 3) with
  | Some n => Ok [("data", AList (drop n (log_lines_of (take 2 LogExamples.failed_log))))]
  | None => Err (ErrMsg "no such page")
  end.

Definition row (status : string) : BackupTask :=
  {| bt_vmid := 100; bt_vm_name := ""; bt_status := status; bt_starttime := 0; bt_endtime := 0;
     bt_duration := 0; bt_size := 0; bt_filename := ""; bt_job_error := None |}.
End PveClientExamples.

Lemma task_log_read_whole_witness :
  vmids <$> match aggregateTaskInfo ToLower PveClientExamples.whole_log "pve1" 1 "UPID:1" with
            | Returns info => Some info | _ => None end = Some {[100]}.
Proof.
  rewrite (task_log_read_whole ToLower PveClientExamples.whole_log "pve1" "UPID:1"
    (PveClientExamples.log_lines_of (take 2 LogExamples.failed_log))).
  - vm_compute. reflexivity.
  - done.
  - intros [|[|[|n]]] Hn; [eexists; split; vm_compute; reflexivity..|]. simpl in Hn. lia.
  - vm_compute. lia.
Defined.

Lemma backupJobTasks_distinct_witness :
  ∃ rows, PveClientExamples.rows = Returns rows ∧ bt_vmid <$> rows = [100] ∧ NoDup (bt_vmid <$> rows).
Proof.
  destruct PveClientExamples.rows as [rows| |] eqn:Hr; [|vm_compute in Hr; discriminate Hr..].
  exists rows. split; [done|]. split; [vm_compute in Hr; by injection Hr as <-|].
  exact (backupJobTasks_distinct ToLower PveClientExamples.api "pve1" ∅ ∅ 5 rows Hr).
Defined.

(** The second job is that of [TestBackupJobTasksPreservesPostJobError]: the guest is well
    and the job is not, which the server does not tell. *)
Lemma job_status_agrees_witness :
  let tasks := PveClientExamples.row <$> ["OK"; "WARNINGS: 1"; "no space left"; "warning"] in
  let pruned := with_job_err "prune failed: storage is read-only" [PveClientExamples.row "OK"] in
  (severity (bs_Status (jobBackupStatus tasks)) = 2 ∧
   severity (PVEBackupStatusSummary (stored_row <$> tasks) "") = 2) ∧
  bs_Status (jobBackupStatus pruned) = "prune failed: storage is read-only" ∧
  severity (PVEBackupStatusSummary (stored_row <$> pruned) "") = 0.
Proof.
  intros tasks pruned.
  destruct (job_status_agrees tasks "" ltac:(done)) as [Hserver Hclient].
  destruct (job_status_agrees pruned "" ltac:(done)) as [Hserver' Hclient'].
  split_and!; [exact Hclient|exact Hserver|exact Hclient'|exact Hserver'].
Defined.
