(* ===== verification/ClientPbs.v ===== *)
(** * The report of a Proxmox Backup Server: [client/pbs.go]

    The client asks for the usage of the datastores, adds the groups of each one with
    the size and the verification of their last snapshot, and picks of the maintenance
    tasks the last one of every job.  [get] is the answer of the API to an endpoint. *)
From Stdlib Require Import Ascii.
From S2P Require Import Prelude GoStrings GoNum GoUrl GoText GoAny ClientPve.

(** ** Requests *)

(** The attempts of [get]; unlike for a node, 403 is a status like any other. *)
Fixpoint pbs_get_attempts (endpoint : string) (http : nat → result PveResponse)
    (tries attempt : nat) (lastErr : error) : result (list (string * any)) :=
  match tries with
  | O => Err (ErrWrap ("PBS API " +:+ endpoint +:+ " failed after 3 attempts") lastErr)
  | S tries =>
      match http attempt with
      | Err e => pbs_get_attempts endpoint http tries (S attempt) e
      | Ok resp =>
          if pr_StatusCode resp =? 401
          then Err (ErrMsg "PBS auth error (401): check PROXMOX_TOKEN and PROXMOX_SECRET")
          else if (pr_StatusCode resp <? 200) || (300 <=? pr_StatusCode resp)
          then Err (ErrMsg ("PBS API " +:+ endpoint +:+ " returned HTTP " +:+
                            Itoa (pr_StatusCode resp) +:+ ": " +:+ TrimSpace (pr_Body resp)))
          else match pr_JSON resp with
          | Err e => pbs_get_attempts endpoint http tries (S attempt) (ErrWrap "invalid JSON" e)
          | Ok data => Ok data
          end
      end
  end.

Definition pbs_get (endpoint : string) (http : nat → result PveResponse) :
    result (list (string * any)) :=
  pbs_get_attempts endpoint http 3 1 (ErrMsg "").

(** ** Objects *)

(** [value, ok := m[key]]. *)
Fixpoint member (key : string) (m : list (string * any)) : option any :=
  match m with
  | [] => None
  | (k, v) :: m => if decide (k = key) then Some v else member key m
  end.

(** [m[key] = v]. *)
Fixpoint set_member (key : string) (v : any) (m : list (string * any)) : list (string * any) :=
  match m with
  | [] => [(key, v)]
  | (k, w) :: m => if decide (k = key) then (k, v) :: m else (k, w) :: set_member key v m
  end.

Definition taskString (task : list (string * any)) (key : string) : string :=
  match member key task with Some value => TrimSpace (Sprint value) | None => "" end.

Definition taskNumber (task : list (string * any)) (key : string) : Z :=
  match field key task with AFloat f => Trunc f | _ => 0 end.

Definition taskTime (task : list (string * any)) : Z :=
  let end_ := taskNumber task "endtime" in
  if 0 <? end_ then end_ else taskNumber task "starttime".

(** ** Snapshots of the groups *)

Record snapInfo := { sn_size : Z; sn_verifState : string }.

(** [fmt.Sprintf("%s/%s/%d", ...)]. *)
Definition snap_key (m : list (string * any)) (time : string) : string :=
  str (field "backup-type" m) +:+ "/" +:+ str (field "backup-id" m) +:+ "/" +:+
  Itoa (Trunc (float_or_zero (field time m))).

Definition add_snapshot (snaps : gmap string snapInfo) (s : any) : gmap string snapInfo :=
  match as_map s with
  | None => snaps
  | Some snap =>
      <[snap_key snap "backup-time" :=
          {| sn_size := Trunc (float_or_zero (field "size" snap));
             sn_verifState := match as_map (field "verification" snap) with
                              | Some v => str (field "state" v) | None => "" end |}]> snaps
  end.

(** A number of bytes that came as a float goes on as one. *)
Definition inject_group (snaps : gmap string snapInfo) (g : any) : any :=
  match as_map g with
  | None => g
  | Some grp =>
      match snaps !! snap_key grp "last-backup" with
      | None => g
      | Some info =>
          AMap (set_member "verification-state" (AString (sn_verifState info))
                 (set_member "size" (AFloat (Float (sn_size info))) grp))
      end
  end.

Section report.
Context (get : string → result (list (string * any))).

(** The snapshots of a store: none when they cannot be read; the assertion on [data] is
    not checked, and panics on anything but a list. *)
Definition snapshots (storeName : string) : outcome (gmap string snapInfo) :=
  match get ("admin/datastore/" +:+ storeName +:+ "/snapshots") with
  | Err _ => Returns ∅
  | Ok snaps =>
      match as_array (field "data" snaps) with
      | Some l => Returns (fold_left add_snapshot l ∅)
      | None => Panics
      end
  end.

(** One datastore of the usage, with its groups. *)
Definition with_groups (item : any) : outcome any :=
  match as_map item with
  | None => Returns item
  | Some ds =>
      let storeName := str (field "store" ds) in
      if str_empty storeName then Returns item else
      match get ("admin/datastore/" +:+ storeName +:+ "/groups") with
      | Err _ => Returns item
      | Ok groups =>
          snaps ← snapshots storeName;
          Returns (AMap (set_member "groups" (AList (inject_group snaps <$> data_list groups)) ds))
      end
  end.

Fixpoint all_groups (items : list any) : outcome (list any) :=
  match items with
  | [] => Returns []
  | item :: items => item ← with_groups item; items ← all_groups items; Returns (item :: items)
  end.

(** ** Maintenance tasks *)

Record pbsSyncJob := { sj_remote : string; sj_remoteStore : string; sj_store : string }.

(** [strings.Split(upid, ":")] of at least seven parts that begin with [UPID]. *)
Definition pbsUPIDTask (upid : string) : string * string :=
  match Split ":" upid with
  | "UPID" :: _ :: _ :: _ :: _ :: taskType :: workerID :: _ => (taskType, workerID)
  | _ => ("", "")
  end.

Definition classifyPBSTask (task : list (string * any)) : string * string :=
  let workerID := taskString task "worker_id" in
  let workerID := if str_empty workerID then taskString task "id" else workerID in
  let '(upidType, upidID) := pbsUPIDTask (taskString task "upid") in
  let workerID := if str_empty workerID then upidID else workerID in
  let text := ToLower (JoinText " " [taskString task "worker_type"; taskString task "type"; upidType;
                                     taskString task "upid"; workerID]) in
  if Contains text "sync" then ("sync", workerID)
  else if Contains text "garbage" || Contains text ":gc" then ("gc", workerID)
  else ("", "").

(** [nil] when the configuration cannot be read. *)
Definition syncJobs : gmap string pbsSyncJob :=
  match get "config/sync" with
  | Err _ => ∅
  | Ok result =>
      fold_left (λ jobs raw,
        match as_map raw with
        | None => jobs
        | Some entry =>
            let id := taskString entry "id" in
            if str_empty id then jobs else
            <[id := {| sj_remote := taskString entry "remote";
                       sj_remoteStore := taskString entry "remote-store";
                       sj_store := taskString entry "store" |}]> jobs
        end) (data_list result) ∅
  end.

(** The newest task of every job; of tasks of one time the first one. *)
Definition keep_latest (latest : gmap string (list (string * any))) (raw : any) :
    gmap string (list (string * any)) :=
  match as_map raw with
  | None => latest
  | Some task =>
      let '(kind, jobID) := classifyPBSTask task in
      if str_empty kind then latest else
      let key := kind +:+ ":" +:+ jobID in
      match latest !! key with
      | None => <[key := task]> latest
      | Some existing =>
          if taskTime existing <? taskTime task then <[key := task]> latest else latest
      end
  end.

Record MaintenanceTask := {
  mt_task_type : string; mt_job_id : string; mt_remote : string; mt_remote_store : string;
  mt_store : string; mt_status : string; mt_start_time : Z; mt_end_time : Z; mt_upid : string }.

(** The status of a task, asked for where the list does not say how it ended. *)
Definition task_result (task : list (string * any)) : string :=
  let status := taskString task "exitstatus" in
  if negb (str_empty status) && negb (EqualFold status "stopped") then status else
  let upid := taskString task "upid" in
  if str_empty upid then status else
  match get ("nodes/localhost/tasks/" +:+ PathEscape upid +:+ "/status") with
  | Err _ => status
  | Ok detail =>
      match as_map (field "data" detail) with
      | Some data => taskString data "exitstatus"
      | None => status
      end
  end.

Definition or_else (s t : string) : string := if str_empty s then t else s.

Definition report_task (jobs : gmap string pbsSyncJob) (task : list (string * any)) :
    option MaintenanceTask :=
  let '(kind, jobID) := classifyPBSTask task in
  let status := task_result task in
  if str_empty status || EqualFold status "running" || EqualFold status "stopped" then None else
  let job := if bool_decide (kind = "sync") then jobs !! jobID else None in
  let from_job f own := or_else own (match job with Some job => f job | None => "" end) in
  let store := from_job sj_store (taskString task "store") in
  Some {| mt_task_type := kind; mt_job_id := jobID;
          mt_remote := from_job sj_remote (taskString task "remote");
          mt_remote_store := from_job sj_remoteStore (taskString task "remote-store");
          mt_store := if bool_decide (kind = "gc") then or_else store jobID else store;
          mt_status := status; mt_start_time := taskNumber task "starttime";
          mt_end_time := taskNumber task "endtime"; mt_upid := taskString task "upid" |}.

Definition maintenanceTasks `{!MapRange} : list MaintenanceTask :=
  match get "nodes/localhost/tasks?limit=200" with
  | Err _ => []
  | Ok result =>
      let rawTasks := data_list result in
      let latest := fold_left keep_latest rawTasks ∅ in
      omap (λ kv, report_task syncJobs kv.2) (range latest)
  end.

Record PBSReportBody := {
  pbb_machine : Machine; pbb_data : any; pbb_tasks : list MaintenanceTask }.

Definition pbs_generateReport `{!MapRange} (machine : Machine) : outcome (result PBSReportBody) :=
  match get "status/datastore-usage" with
  | Err e => Returns (Err (ErrWrap "datastore-usage" e))
  | Ok data =>
      usage ← match as_array (field "data" data) with
              | Some l => l ← all_groups l; Returns (AList l)
              | None => Returns (field "data" data)
              end;
      Returns (Ok {| pbb_machine := machine; pbb_data := usage; pbb_tasks := maintenanceTasks |})
  end.
End report.

(** ** Lemmas *)

(** The key of a task in [latest]. *)
Definition job_key (task : list (string * any)) : option string :=
  let '(kind, jobID) := classifyPBSTask task in
  if str_empty kind then None else Some (kind +:+ ":" +:+ jobID).

Lemma classify_kind task :
  (classifyPBSTask task).1 = "sync" ∨ (classifyPBSTask task).1 = "gc" ∨
  classifyPBSTask task = ("", "").
Proof.
  unfold classifyPBSTask. cbv zeta. destruct (pbsUPIDTask _) as [upidType upidID].
  destruct (Contains _ "sync"); [by left|]. destruct (_ || _); [by right; left|by right; right].
Qed.

Lemma job_key_inj t1 t2 key :
  job_key t1 = Some key → job_key t2 = Some key → classifyPBSTask t1 = classifyPBSTask t2.
Proof.
  unfold job_key. pose proof (classify_kind t1) as H1. pose proof (classify_kind t2) as H2.
  destruct (classifyPBSTask t1) as [k1 j1], (classifyPBSTask t2) as [k2 j2]. cbn [fst] in *.
  destruct (str_empty k1) eqn:He1; [done|]. destruct (str_empty k2) eqn:He2; [done|].
  intros [= <-] [= Heq].
  destruct H1 as [-> | [-> | [= -> ->]]], H2 as [-> | [-> | [= -> ->]]]; try done;
    vm_compute in Heq; congruence.
Qed.

Definition newest_task (l : list any) (key : string) (task : list (string * any)) : Prop :=
  AMap task ∈ l ∧ job_key task = Some key ∧
  ∀ other, AMap other ∈ l → job_key other = Some key → taskTime other ≤ taskTime task.

(** What [latest] holds after the tasks [l]. *)
Definition latest_of (l : list any) (m : gmap string (list (string * any))) : Prop :=
  ∀ key, match m !! key with
         | Some task => newest_task l key task
         | None => ∀ other, AMap other ∈ l → job_key other ≠ Some key
         end.

Lemma newest_more l raw key task :
  newest_task l key task →
  (∀ other, raw = AMap other → job_key other = Some key → taskTime other ≤ taskTime task) →
  newest_task (l ++ [raw]) key task.
Proof.
  intros (Hin & Hk & Hmax) Hraw. split_and!; [apply elem_of_app; by left|done|].
  intros other [Ho|Ho%list_elem_of_singleton]%elem_of_app Hko; [by apply Hmax|by apply Hraw].
Qed.

Lemma keep_latest_step l m raw : latest_of l m → latest_of (l ++ [raw]) (keep_latest m raw).
Proof.
  intros Hm.
  assert (∀ key, (∀ other, raw = AMap other → job_key other ≠ Some key) →
    match m !! key with
    | Some task => newest_task (l ++ [raw]) key task
    | None => ∀ other, AMap other ∈ l ++ [raw] → job_key other ≠ Some key
    end) as Hold.
  { intros key Hraw. specialize (Hm key). destruct (m !! key).
    - apply newest_more; [done|]. intros other Ho Hk. by destruct (Hraw other Ho).
    - intros other [Ho|Ho%list_elem_of_singleton]%elem_of_app; [by apply Hm|by apply Hraw]. }
  unfold keep_latest. destruct (as_map raw) as [task|] eqn:Hraw;
    [|intros key; apply Hold; by intros other ->].
  assert (raw = AMap task) as -> by (by destruct raw; try discriminate; injection Hraw as ->).
  destruct (classifyPBSTask task) as [kind jobID] eqn:Hc.
  destruct (str_empty kind) eqn:Hkind.
  { intros key. apply Hold. intros other [= <-]. unfold job_key. by rewrite Hc, Hkind. }
  set (k := kind +:+ ":" +:+ jobID).
  assert (job_key task = Some k) as Hk by (unfold job_key; by rewrite Hc, Hkind).
  assert (∀ m', m' = m ∨ m' = <[k := task]> m → ∀ key, key ≠ k →
    match m' !! key with
    | Some t => newest_task (l ++ [AMap task]) key t
    | None => ∀ other, AMap other ∈ l ++ [AMap task] → job_key other ≠ Some key
    end) as Hother.
  { intros m' Hm' key Hne. assert (m' !! key = m !! key) as ->
      by (destruct Hm' as [-> | ->]; [done|by apply lookup_insert_ne]).
    apply Hold. intros other [= <-]. congruence. }
  assert (∀ bound, (∀ other, AMap other ∈ l → job_key other = Some k → taskTime other ≤ bound) →
    bound ≤ taskTime task → newest_task (l ++ [AMap task]) k task) as Hnew.
  { intros bound Hb Hle. split_and!; [apply elem_of_app; right; left|done|].
    intros other [Ho|[= <-]%list_elem_of_singleton]%elem_of_app Hko; [|done].
    etrans; [by apply Hb|done]. }
  pose proof (Hm k) as Hmk. intros key. destruct (decide (key = k)) as [->|Hne].
  - destruct (m !! k) as [existing|] eqn:He.
    + destruct Hmk as (Hin & Hke & Hmax). destruct (Z.ltb_spec (taskTime existing) (taskTime task)).
      * rewrite lookup_insert_eq. apply (Hnew (taskTime existing)); [done|lia].
      * rewrite He. apply newest_more; [done|]. intros other [= <-] _. lia.
    + rewrite lookup_insert_eq. apply (Hnew (taskTime task)); [|done].
      intros other Ho Hko. by destruct (Hmk other Ho).
  - apply Hother; [|done]. destruct (m !! k) as [existing|]; [|by right].
    destruct (_ <? _); [by right|by left].
Qed.

Lemma keep_latest_all l : latest_of l (fold_left keep_latest l ∅).
Proof.
  induction l as [|raw l IH] using rev_ind.
  - intros key. cbn. rewrite lookup_empty. by intros other Ho%elem_of_nil.
  - rewrite fold_left_app. by apply keep_latest_step.
Qed.

Lemma report_task_kind get jobs task mt :
  report_task get jobs task = Some mt → classifyPBSTask task = (mt_task_type mt, mt_job_id mt).
Proof.
  unfold report_task. destruct (classifyPBSTask task) as [kind jobID]. cbv zeta.
  destruct (_ || _); [done|]. by intros [= <-].
Qed.

(** of the maintenance tasks that the server lists, the report has at most one for
    each job, and that one is the newest of its job. *)
Theorem maintenance_newest `{!MapRange} (get : string → result (list (string * any)))
    (data : list (string * any)) :
  get "nodes/localhost/tasks?limit=200" = Ok data →
  NoDup ((λ mt, (mt_task_type mt, mt_job_id mt)) <$> maintenanceTasks get) ∧
  ∀ mt, mt ∈ maintenanceTasks get → ∃ task, AMap task ∈ data_list data ∧
    report_task get (syncJobs get) task = Some mt ∧
    ∀ other, AMap other ∈ data_list data → classifyPBSTask other = classifyPBSTask task →
      taskTime other ≤ taskTime task.
Proof.
  unfold maintenanceTasks. intros ->. cbv zeta.
  pose proof (keep_latest_all (data_list data)) as Hl. set (m := fold_left _ _ _) in *.
  assert (∀ key task, (key, task) ∈ range m → newest_task (data_list data) key task) as Hnew.
  { intros key task Hin. rewrite range_perm in Hin. apply elem_of_map_to_list in Hin.
    specialize (Hl key). by rewrite Hin in Hl. }
  split.
  - assert (NoDup (range m).*1) as Hnd by (rewrite range_perm; apply NoDup_fst_map_to_list).
    induction (range m) as [|[key task] kvs IH]; [constructor|].
    rewrite fmap_cons in Hnd. apply NoDup_cons in Hnd as [Hni Hnd]. cbn [omap list_omap snd].
    assert (NoDup ((λ mt, (mt_task_type mt, mt_job_id mt)) <$>
      omap (λ kv, report_task get (syncJobs get) kv.2) kvs)) as Hrest
      by (apply IH; [intros k t Hin; apply Hnew; by right|done]).
    destruct (report_task _ _ task) as [mt|] eqn:Hr; [|exact Hrest].
    rewrite fmap_cons. apply NoDup_cons. split; [|exact Hrest].
    intros (mt' & Heq & Hmt')%list_elem_of_fmap.
    cbn beta in Heq. apply list_elem_of_omap in Hmt' as ([key' task'] & Hin & Hr'). cbn [snd] in Hr'. apply report_task_kind in Hr, Hr'.
    destruct (Hnew key task ltac:(left)) as (_ & Hk & _).
    destruct (Hnew key' task' ltac:(by right)) as (_ & Hk' & _).
    apply Hni. assert (key = key') as ->; [|by apply (list_elem_of_fmap_2 fst kvs (key', task'))].
    unfold job_key in Hk, Hk'. rewrite Hr in Hk. rewrite Hr' in Hk'. injection Heq as Ht Hj. rewrite Ht, Hj in Hk. congruence.
  - intros mt ([key task] & Hin & Hr)%list_elem_of_omap. cbn [snd] in Hr.
    destruct (Hnew key task Hin) as (Ht & Hk & Hmax). exists task. split_and!; [done..|].
    intros other Ho Hc. apply Hmax; [done|]. unfold job_key in *. by rewrite Hc.
Qed.

(** ** Examples *)

Module PbsClientExamples.
Definition gc_task (store : string) (end_ : Z) : list (string * any) :=
  [("upid", AString ("UPID:pbs1:0001:0002:0003:garbage_collection:" +:+ store +:+ ":root@pam:"));
   ("worker_type", AString "garbage_collection"); ("worker_id", AString store);
   ("starttime", AFloat (Float 100)); ("endtime", AFloat (Float end_)); ("status", AString "OK");
   ("exitstatus", AString "OK")].

Definition api (ep : string) : result (list (string * any)) :=
  if bool_decide (ep = "nodes/localhost/tasks?limit=200")
  then Ok [("data", AList (AMap <$> [gc_task "main" 200; gc_task "main" 300; gc_task "cold" 150]))]
  else if bool_decide (ep = "status/datastore-usage")
  then Ok [("data", AList [AMap [("store", AString "main")]])]
  else if bool_decide (ep = "admin/datastore/main/groups") then Ok [("data", AList [])]
  else if bool_decide (ep = "admin/datastore/main/snapshots") then Ok [("data", ANil)]
  else Err (ErrMsg "no such endpoint").

Definition machine : Machine :=
  {| mc_hostname := "pbs1"; mc_localIP := "10.0.0.2"; mc_publicIP := ""; mc_version := "1.0";
     mc_machineID := "m2"; mc_swap_total := 0; mc_swap_used := 0; mc_swap_enabled := false |}.
End PbsClientExamples.

(** the garbage collection of a datastore with [sync] in its name is reported as a
    job of synchronisation. *)
Theorem gc_of_sync_store :
  classifyPBSTask (PbsClientExamples.gc_task "offsite-sync" 200) = ("sync", "offsite-sync") ∧
  classifyPBSTask (PbsClientExamples.gc_task "offsite" 200) = ("gc", "offsite").
Proof. split; vm_compute; reflexivity. Qed.

(** the report panics when the snapshots of a store are answered without a list,
    where the groups and the tasks are then taken as empty. *)
Theorem snapshots_panic :
  pbs_generateReport PbsClientExamples.api PbsClientExamples.machine = Panics.
Proof. vm_compute. reflexivity. Qed.

Lemma maintenance_newest_witness :
  (λ mt, (mt_job_id mt, mt_end_time mt)) <$> maintenanceTasks PbsClientExamples.api =
    [("cold", 150); ("main", 300)] ∧
  NoDup ((λ mt, (mt_task_type mt, mt_job_id mt)) <$> maintenanceTasks PbsClientExamples.api).
Proof.
  split; [vm_compute; reflexivity|].
  by eapply (maintenance_newest PbsClientExamples.api).
Defined.
