(* ===== verification/ClientReport.v ===== *)
(** * Sending reports: [client/sender.go], [heartbeat.go], [sysinfo.go], [auth_error.go]
      and the retry of [main.go]

    The hook of a backup job leaves a marker on the disk; the report of the job takes
    its number from the marker, so that whoever sends it first, and however often, the
    server sees one report.  The heartbeat sends a report for a marker that is still
    there, and removes the marker when the server has accepted it. *)
From Stdlib Require Import Ascii.
From S2P Require Import Prelude GoStrings GoNum GoText GoAny Sql ClientSync ClientPve ClientPbs.

(** ** [sysinfo.go] *)

Record SwapInfo := { sw_Total : Z; sw_Used : Z; sw_Enabled : bool }.

Definition swap_off : SwapInfo := {| sw_Total := 0; sw_Used := 0; sw_Enabled := false |}.

(** [strings.TrimSuffix(s, ":")]. *)
Fixpoint trim_colon (s : string) : string :=
  match s with
  | EmptyString => EmptyString
  | String ":" EmptyString => EmptyString
  | String c s => String c (trim_colon s)
  end.

(** [totalKB] and [freeKB] after one line. *)
Definition meminfo_line (acc : Z * Z) (line : string) : Z * Z :=
  let '(totalKB, freeKB) := acc in
  match Fields line with
  | name :: number :: _ =>
      let '(value, ok) := ParseInt number in
      if negb ok then acc
      else if bool_decide (trim_colon name = "SwapTotal") then (value, freeKB)
      else if bool_decide (trim_colon name = "SwapFree") then (totalKB, value) else acc
  | _ => acc
  end.

Definition newline : ascii := "010".

Definition parseSwapInfo (meminfo : string) : SwapInfo :=
  let '(totalKB, freeKB) := fold_left meminfo_line (Split newline meminfo) (0, 0) in
  if totalKB <=? 0 then swap_off else
  let usedKB := wrap64 (totalKB - freeKB) in
  let usedKB := if usedKB <? 0 then 0 else usedKB in
  {| sw_Total := wrap64 (totalKB * 1024); sw_Used := wrap64 (usedKB * 1024); sw_Enabled := true |}.

Definition serverTypeFromContent (content : string) : string :=
  let c := ToLower content in
  if Contains c "proxmox backup server" then "pbs"
  else if Contains c "proxmox virtual environment" then "pve" else "unknown".

(** [/etc/issue], when it can be read. *)
Definition detectServerType (issue : result string) : string :=
  match issue with Ok data => serverTypeFromContent data | Err _ => "unknown" end.

(** ** Answers *)

Definition authenticationError (resp : HttpResponse) : error :=
  let message := match (v ← hs_JSON resp; m ← members v; decode_field as_string "" "error" m) with
                 | Ok s => TrimSpace s | Err _ => "" end in
  if negb (str_empty message) then ErrMsg ("authentication error: " +:+ message)
  else ErrMsg "authentication error: API key invalid or inactive".

(** ** What is sent *)

(** [fmt.Errorf("msg: %w", err)]. *)
Definition wrap_result {A} (msg : string) (r : result A) : result A :=
  match r with Ok a => Ok a | Err e => Err (ErrWrap msg e) end.

(** What [sendReport] has to send: the contents of a file, or the report that the client
    of the server type makes. *)
Inductive Source :=
| FromFile (data : result (list (string * any)))
| Generate (pve pbs : result (list (string * any))).

Definition report_data (serverType : string) (src : Source) :
    result (list (string * any)) * string :=
  let pbs := bool_decide (serverType = "pbs") in
  let urlPath := if pbs then "report/pbs" else "report/pve" in
  match src with
  | FromFile data => (data, urlPath)
  | Generate gpve gpbs =>
      (if bool_decide (serverType = "pve") then wrap_result "generate report" gpve
       else if pbs then wrap_result "generate report" gpbs
       else Err (ErrMsg ("unknown server type: " +:+ serverType)), urlPath)
  end.

(** A number of the swap goes on as a float. *)
Definition heartbeat_data (serverType : string) (machine : Machine) (swap : SwapInfo) :
    list (string * any) :=
  [("hostname", AString (mc_hostname machine)); ("server_type", AString serverType);
   ("ip_address", AString (mc_localIP machine)); ("client_version", AString (mc_version machine));
   ("machine_id", AString (mc_machineID machine)); ("swap_total", AFloat (Float (sw_Total swap)));
   ("swap_used", AFloat (Float (sw_Used swap))); ("swap_enabled", ABool (sw_Enabled swap))].

(** [cfg.ServerType = serverType]. *)
Definition with_type (serverType : string) (cfg : Config) : Config :=
  {| cfg_APIURL := cfg_APIURL cfg; cfg_APIKey := cfg_APIKey cfg;
     cfg_ProxmoxToken := cfg_ProxmoxToken cfg; cfg_ProxmoxSecret := cfg_ProxmoxSecret cfg;
     cfg_VerifyTLS := cfg_VerifyTLS cfg; cfg_CABundle := cfg_CABundle cfg;
     cfg_Debug := cfg_Debug cfg; cfg_DebugAPICalls := cfg_DebugAPICalls cfg;
     cfg_ServerType := serverType |}.

(** ** The marker *)

(** The node: the marker of a report that is pending, and what the server keeps. *)
Record Node (S : Type) := { nd_marker : option string; nd_server : S }.
Arguments nd_marker {S} _.
Arguments nd_server {S} _.

Definition set_server {S} (s : S) (w : Node S) : Node S :=
  {| nd_marker := nd_marker w; nd_server := s |}.

Section send.
Context {S : Type}.
(** What the server does with a request and [hex(sha256(s)[:16])].  A request may be
    lost, and so may its answer: both are statements of [Do] that fail. *)
Context (Do : HttpRequest → prog S HttpResponse) (digest : string → string).
(** What [http.NewRequest] has against a URL. *)
Context (bad_url : string → option error).

Definition stat_marker : prog (Node S) bool :=
  query (λ w, negb (bool_decide (nd_marker w = None))).

Definition read_marker : prog (Node S) string :=
  stmt (λ w, match nd_marker w with Some m => Ok (m, w) | None => Err (ErrMsg "no such file") end).

(** [os.Remove]; a file that is not there is no error. *)
Definition remove_marker : prog (Node S) () :=
  exec_sql (λ w, {| nd_marker := None; nd_server := nd_server w |}).

Definition post (url apiKey machineID : string) (data : list (string * any)) : prog (Node S) () :=
  match bad_url url with
  | Some e => fail e
  | None =>
      resp ← wrap_err "connection error"
               (lift nd_server set_server
                  (Do (json_request "POST" url apiKey machineID (Some (AMap data)))));
      if hs_StatusCode resp =? 200 then mret ()
      else if hs_StatusCode resp =? 401 then fail (authenticationError resp)
      else fail (ErrMsg ("server returned " +:+ Itoa (hs_StatusCode resp) +:+ ": " +:+ hs_Body resp))
  end.

(** ** [sender.go] *)

(** [random] is the answer of [reportid.New]. *)
Definition ensureReportID (machineID : string) (random : result string)
    (data : list (string * any)) : prog (Node S) (list (string * any)) :=
  let with_id id := set_member "report_id" (AString id) data in
  if negb (str_empty (str (field "report_id" data))) then mret data else
  let new_id := match random with Ok id => mret (with_id id) | Err e => fail e end in
  andThen read_marker (λ r,
    match r with
    | Ok marker =>
        let marker := TrimSpace marker in
        if str_empty marker then new_id
        else mret (with_id (digest (machineID +:+ "|" +:+ marker)))
    | Err _ => new_id
    end).

Definition sendReport (cfg : Config) (machineID : string) (random : result string) (src : Source) :
    prog (Node S) () :=
  match report_data (cfg_ServerType cfg) src with
  | (Err e, _) => fail e
  | (Ok data, urlPath) =>
      data ← ensureReportID machineID random data;
      let machineID := if str_empty machineID then str (field "machine_id" data) else machineID in
      post (cfg_APIURL cfg +:+ "/api/" +:+ urlPath) (cfg_APIKey cfg) machineID data
  end.

(** ** [heartbeat.go] and [main.go] *)

Definition sendHeartbeat (cfg : Config) (machine : Machine) (swap : SwapInfo) : prog (Node S) () :=
  post (cfg_APIURL cfg +:+ "/api/heartbeat") (cfg_APIKey cfg) (mc_machineID machine)
    (heartbeat_data (cfg_ServerType cfg) machine swap).

Definition retryPendingReport (send : prog (Node S) ()) : prog (Node S) () :=
  found ← wrap_err "check pending report" stat_marker;
  if negb found then mret () else
  send ≫= λ _, wrap_err "clear pending report" remove_marker.

(** The process ends with a failure where this returns an error; a failed retry is
    logged. *)
Definition runHeartbeat (cfg : Config) (detectedType : string) (machine : Machine)
    (swap : SwapInfo) (random : result string) (src : Source) : prog (Node S) () :=
  if negb (HasPrefix (cfg_APIKey cfg) "pbk-") then fail (ErrMsg "API key must start with 'pbk-'")
  else if str_empty (cfg_APIURL cfg) then fail (ErrMsg "API_URL not configured") else
  let serverType :=
    if bool_decide (cfg_ServerType cfg ∈ [""; "unknown"]) then detectedType else cfg_ServerType cfg in
  if bool_decide (serverType = "unknown")
  then fail (ErrMsg "could not detect server type (PVE or PBS)") else
  let cfg := with_type serverType cfg in
  sendHeartbeat cfg machine swap ≫= λ _,
  andThen (retryPendingReport (sendReport cfg (mc_machineID machine) random src)) (λ _, mret ()).
End send.

(** ** What the client needs of the server *)

(** The body carries the number, as [json.Unmarshal] reads it into the request. *)
Definition numbered (data : list (string * any)) (id : string) : Prop :=
  decode_field as_string "" "report_id" data = Ok id.

(** No member of the body is read as its number. *)
Definition unnumbered (data : list (string * any)) : Prop :=
  Forall (λ kv, names_field "report_id" kv.1 = false) data.

(** The server keeps the numbers of the reports that are stored for the node of the key.
    A report that arrives is stored, or nothing changes; no number is stored twice, and
    an answer of success means that the number is stored. *)
Class ReportServer {S : Type} (Do : HttpRequest → prog S HttpResponse)
    (url apiKey machineID : string) := {
  sound : S → Prop;
  numbers : S → list string;
  report_law data id s :
    sound s → id ≠ "" → TrimSpace id = id → numbered data id →
    always (Do (json_request "POST" url apiKey machineID (Some (AMap data)))) (λ r s', sound s' ∧
      (numbers s' = numbers s ∨ id ∉ numbers s ∧ numbers s' = numbers s ++ [id]) ∧
      ∀ resp, r = Ok resp → hs_StatusCode resp = 200 → id ∈ numbers s') s
}.
Arguments sound {S Do url apiKey machineID _} _.
Arguments numbers {S Do url apiKey machineID _} _.

(** ** The attempts to send the report of one marker *)

(** An attempt: the number that [reportid.New] would give, what there is to send, and what
    fails once the two reads of the marker succeeded. *)
Record Attempt := { at_random : result string; at_src : Source; at_io : list (option error) }.

Section attempts.
Context {S : Type} (Do : HttpRequest → prog S HttpResponse) (digest : string → string).
Context (bad_url : string → option error) (cfg : Config) (machineID : string).

Definition attempt (w : Node S) (a : Attempt) : Node S :=
  (exec (retryPendingReport (sendReport Do digest bad_url cfg machineID (at_random a) (at_src a)))
     (None :: None :: at_io a) w).1.2.

Definition attempts (l : list Attempt) (w : Node S) : Node S := fold_left attempt l w.

(** A report that is made now has no number of its own. *)
Definition fresh_source (a : Attempt) : Prop :=
  match report_data (cfg_ServerType cfg) (at_src a) with
  | (Ok data, _) => unnumbered data | _ => True end.
End attempts.

(** ** Lemmas *)

Lemma unnumbered_field data : unnumbered data → field "report_id" data = ANil.
Proof.
  induction 1 as [|[k v] data Hk _ IH]; [done|]. cbn in *. destruct (decide _) as [->|]; [|done].
  unfold names_field in Hk. by rewrite bool_decide_true in Hk.
Qed.

Lemma decode_unnumbered {A} (as_type : any → option A) data acc :
  unnumbered data →
  fold_left (λ acc '(key, v),
    if negb (names_field "report_id" key) then acc else
    match v with
    | ANil => acc
    | v => _ ← acc;
           match as_type v with Some a => Ok a | None => Err (ErrMsg "UnmarshalTypeError") end
    end) data acc = acc.
Proof. intros Hd. revert acc. induction Hd as [|[k v] data Hk _ IH]; intros acc; [done|]. cbn in *. by rewrite Hk. Qed.

Lemma numbered_set id data :
  unnumbered data → numbered (set_member "report_id" (AString id) data) id.
Proof.
  unfold numbered, decode_field. induction 1 as [|[k v] data Hk Hd IH]; [done|].
  cbn [set_member]. destruct (decide _) as [->|Hne].
  - by unfold names_field in Hk; rewrite bool_decide_true in Hk.
  - cbn in Hk |- *. by rewrite Hk.
Qed.

(** The server takes over the part of the node that it keeps. *)
Lemma always_post {S} (Do : HttpRequest → prog S HttpResponse) bad_url url apiKey machineID data
    (Q : result () → Node S → Prop) (P : result HttpResponse → S → Prop) w :
  always (Do (json_request "POST" url apiKey machineID (Some (AMap data)))) P (nd_server w) →
  (∀ e, Q (Err e) w) →
  (∀ r s, P r s → (∀ e, Q (Err e) (set_server s w)) ∧
     (∀ resp, r = Ok resp → hs_StatusCode resp = 200 → Q (Ok ()) (set_server s w))) →
  always (post Do bad_url url apiKey machineID data) Q w.
Proof.
  intros Hdo Hw HQ. unfold post. destruct (bad_url url); [by apply always_Ret|].
  apply always_bind, always_wrap_err, (always_lift nd_server set_server);
    [done|by intros []|done|].
  eapply always_mono; [exact Hdo|]. intros [resp|e] s HP; destruct (HQ _ _ HP) as [He Ho]; [|done].
  destruct (Z.eqb_spec (hs_StatusCode resp) 200); [apply always_Ret; eauto|].
  destruct (hs_StatusCode resp =? 401); by apply always_Ret.
Qed.

Section delivery.
Context {S : Type} (Do : HttpRequest → prog S HttpResponse) (digest : string → string).
Context (bad_url : string → option error) (cfg : Config) (machineID marker : string).
Let url := cfg_APIURL cfg +:+ "/api/" +:+
  (if bool_decide (cfg_ServerType cfg = "pbs") then "report/pbs" else "report/pve").
Context `{!ReportServer Do url (cfg_APIKey cfg) machineID}.
Let id := digest (machineID +:+ "|" +:+ TrimSpace marker).
Hypothesis machine : machineID ≠ "".
Hypothesis stamped : TrimSpace marker ≠ "".
Hypothesis digest_text : id ≠ "" ∧ TrimSpace id = id.

(** Where the attempts stand: the marker is there, or its report is stored. *)
Definition delivering (before : list string) (w : Node S) : Prop :=
  sound (nd_server w) ∧
  (numbers (nd_server w) = before ∨ id ∉ before ∧ numbers (nd_server w) = before ++ [id]) ∧
  (nd_marker w = Some marker ∨ nd_marker w = None ∧ id ∈ numbers (nd_server w)).

(** A request of an attempt. *)
Lemma delivering_step before w s' :
  delivering before w → sound s' →
  (numbers s' = numbers (nd_server w) ∨
   id ∉ numbers (nd_server w) ∧ numbers s' = numbers (nd_server w) ++ [id]) →
  delivering before (set_server s' w).
Proof.
  intros (_ & Hn & Hm) Hs Hn'. split; [done|]. cbn. destruct Hn' as [->|[Hid Hn']]; [done|].
  destruct Hm as [Hm|[_ Hin]]; [|done]. destruct Hn as [Hn|[_ Hn]].
  - rewrite Hn in Hid, Hn'. split; [right|left]; done.
  - exfalso. apply Hid. rewrite Hn. set_solver.
Qed.

Lemma attempt_step before w a :
  fresh_source cfg a → delivering before w →
  delivering before (attempt Do digest bad_url cfg machineID w a).
Proof.
  intros Hfresh Hw. unfold attempt. destruct (proj2 (proj2 Hw)) as [Hm|[Hm _]];
    [|by unfold retryPendingReport, stat_marker, query; cbn; rewrite Hm].
  unfold retryPendingReport, stat_marker, query, sendReport. cbn. rewrite Hm. cbn.
  unfold fresh_source in Hfresh. destruct (report_data _ _) as [[data|e] path] eqn:Hr; [|done].
  assert (path = if bool_decide (cfg_ServerType cfg = "pbs") then "report/pbs" else "report/pve")
    as -> by (unfold report_data in Hr; destruct (at_src a); by simplify_eq).
  unfold ensureReportID. rewrite unnumbered_field by done.
  change (str_empty (str ANil)) with true. cbn. rewrite Hm. cbn.
  assert (str_empty (TrimSpace marker) = false) as -> by by apply bool_decide_eq_false.
  assert (str_empty machineID = false) as -> by by apply bool_decide_eq_false.
  cbn. fold url id.
  match goal with |- delivering _ (exec ?p ?io w).1.2 =>
    cut (always p (λ _, delivering before) w);
      [intros Hp; specialize (Hp io); by destruct (exec p io w) as [[r w'] io']|] end.
  pose proof (proj1 Hw) as Hs. destruct digest_text as [Hid Htrim].
  apply always_andThen. eapply always_post.
  - apply (report_law _ id); [done..|]. by apply numbered_set.
  - intros e. by apply always_Ret.
  - intros r s' (Hs' & Hn & Hok). pose proof (delivering_step before w s' Hw Hs' Hn) as Hd.
    split; [intros e; by apply always_Ret|]. intros resp Hr' Hcode io. cbn.
    destruct (fault io); [done|]. destruct Hd as (_ & Hn' & _). split; [done|].
    split; [done|]. right. split; [done|]. by apply (Hok resp).
Qed.

Lemma attempts_deliver before l w :
  Forall (fresh_source cfg) l → delivering before w →
  delivering before (attempts Do digest bad_url cfg machineID l w).
Proof.
  intros Hl. revert w. induction Hl as [|a l Ha _ IH]; intros w Hw; [done|].
  cbn. by apply IH, attempt_step.
Qed.
End delivery.

(** ** The property *)

(** the report of a backup job is stored at most once however often it is sent, by
    the hook or by the heartbeats, whatever it holds at each attempt, and whichever
    requests and answers are lost: the marker on the disk gives all attempts one number.
    And it is not given up: the marker goes only when the server has stored the report. *)
Theorem pending_report_once {S} (Do : HttpRequest → prog S HttpResponse)
    (digest : string → string) (bad_url : string → option error) (cfg : Config)
    (machineID marker : string) (l : list Attempt) (s : S)
    `{!ReportServer Do (cfg_APIURL cfg +:+ "/api/" +:+
        (if bool_decide (cfg_ServerType cfg = "pbs") then "report/pbs" else "report/pve"))
      (cfg_APIKey cfg) machineID} :
  let id := digest (machineID +:+ "|" +:+ TrimSpace marker) in
  machineID ≠ "" → TrimSpace marker ≠ "" → id ≠ "" ∧ TrimSpace id = id →
  sound s → Forall (fresh_source cfg) l →
  let w := attempts Do digest bad_url cfg machineID l
             {| nd_marker := Some marker; nd_server := s |} in
  (numbers (nd_server w) = numbers s ∨
   id ∉ numbers s ∧ numbers (nd_server w) = numbers s ++ [id]) ∧
  (nd_marker w = Some marker ∨ nd_marker w = None ∧ id ∈ numbers (nd_server w)).
Proof.
  intros id Hm Hst Hid Hs Hl.
  destruct (attempts_deliver Do digest bad_url cfg machineID marker Hm Hst Hid (numbers s) l
    {| nd_marker := Some marker; nd_server := s |}) as (_ & Hn & Hmk); [done| |done].
  split; [done|]. split; by left.
Qed.

(** ** Examples *)

Module RetryExamples.
(** A server that keeps the numbers; the request and the answer may be lost. *)
Definition number_of (req : HttpRequest) : string :=
  match (m ← members (default ANil (hr_Body req)); decode_field as_string "" "report_id" m) with
  | Ok id => id | Err _ => "" end.

Definition keep (id : string) (l : list string) : list string :=
  if bool_decide (id ∈ l) then l else l ++ [id].

Definition Do (req : HttpRequest) : prog (list string) HttpResponse :=
  _ ← exec_sql (keep (number_of req));
  _ ← exec_sql (λ l, l);
  mret {| hs_StatusCode := 200; hs_Body := ""; hs_JSON := Ok ANil |}.

Lemma kept id (l : list string) :
  (keep id l = l ∨ id ∉ l ∧ keep id l = l ++ [id]) ∧ id ∈ keep id l.
Proof. unfold keep. case_bool_decide; set_solver. Qed.

#[export] Program Instance server : ReportServer Do "https://probak/api/report/pve" "pbk-1" "m1" :=
  {| sound _ := True; numbers l := l |}.
Next Obligation.
  intros data id l _ _ _ Hn. destruct (kept id l) as [Hk Hin].
  assert (number_of (json_request "POST" "https://probak/api/report/pve" "pbk-1" "m1"
    (Some (AMap data))) = id) as Hid.
  { unfold number_of, json_request. cbn. unfold numbered in Hn. by rewrite Hn. }
  unfold Do. rewrite Hid. apply always_bind, always_stmt.
  { intros e. split; [done|]. split; [by left|done]. }
  intros [] l' [= <-]. apply always_bind, always_stmt.
  { intros e. split; [done|]. by split. }
  intros [] l' [= <-]. apply always_Ret. split; [done|]. by split.
Qed.

Definition cfg : Config :=
  {| cfg_APIURL := "https://probak"; cfg_APIKey := "pbk-1"; cfg_ProxmoxToken := "";
     cfg_ProxmoxSecret := ""; cfg_VerifyTLS := true; cfg_CABundle := ""; cfg_Debug := false;
     cfg_DebugAPICalls := false; cfg_ServerType := "pve" |}.

Definition try (status : string) (io : list (option error)) : Attempt :=
  {| at_random := Ok "r"; at_io := io;
     at_src := Generate (Ok [("hostname", AString "n1"); ("status", AString status)])
                 (Err (ErrMsg "not a PBS")) |}.

(** The first request is lost, the answer of the second one too, the third is answered,
    and the last attempt finds no marker. *)
Definition tries : list Attempt :=
  [try "running" [Some (ErrMsg "refused")]; try "OK" [None; Some (ErrMsg "timeout")];
   try "OK" []; try "OK" []].

Definition digest (s : string) : string := "sum-" +:+ s.

Definition node (n : nat) : Node (list string) :=
  attempts Do digest (λ _, None) cfg "m1" (take n tries)
    {| nd_marker := Some "2026-01-05 02:00:07 "; nd_server := ["r0"] |}.
End RetryExamples.

Lemma pending_report_once_witness :
  (nd_server (RetryExamples.node 1) = ["r0"] ∧
   RetryExamples.node 2 = {| nd_marker := Some "2026-01-05 02:00:07 ";
                             nd_server := ["r0"; "sum-m1|2026-01-05 02:00:07"] |} ∧
   RetryExamples.node 4 = {| nd_marker := None;
                             nd_server := ["r0"; "sum-m1|2026-01-05 02:00:07"] |}) ∧
  (nd_marker (RetryExamples.node 4) = Some "2026-01-05 02:00:07 " ∨
   nd_marker (RetryExamples.node 4) = None ∧
   RetryExamples.digest "m1|2026-01-05 02:00:07" ∈ nd_server (RetryExamples.node 4)).
Proof.
  split; [split_and!; vm_compute; reflexivity|].
  exact (proj2 (pending_report_once RetryExamples.Do RetryExamples.digest (λ _, None)
    RetryExamples.cfg "m1" "2026-01-05 02:00:07 " (take 4 RetryExamples.tries) ["r0"]
    (ReportServer0 := RetryExamples.server)
    ltac:(done) ltac:(by vm_compute) ltac:(split; by vm_compute) I
    ltac:(repeat constructor))).
Defined.
