(* ===== verification/Delivery.v ===== *)
(** * A pending report reaches the database exactly once

    The retries of [ClientReport] against the report handler of [Api] and the database of
    [PveReports]: the handler is a [ReportServer], so that the report of a backup job is
    stored at most once however often the node sends it, and the marker on the node goes
    only when the report is there. *)
From S2P Require Import Prelude GoStrings GoNum GoTime Domain StoreReads Sql Validation Secrets Relational Schema Servers Keys Reports PveReports Api Isolation GoText GoAny ClientSync ClientPve ClientReport.

(** ** The server of the node *)

(** The server with its clock: the times of the requests are arbitrary. *)
Record Service := { sv_api : Api; sv_clock : nat → Time; sv_turn : nat }.

Definition set_api (s : Api) (sv : Service) : Service :=
  {| sv_api := s; sv_clock := sv_clock sv; sv_turn := sv_turn sv |}.

Definition next_time : prog Service Time :=
  local (λ sv, (sv_clock sv (sv_turn sv),
    {| sv_api := sv_api sv; sv_clock := sv_clock sv; sv_turn := Datatypes.S (sv_turn sv) |})).

(** A request or an answer on its way: it may be lost. *)
Definition on_the_way : prog Service () := exec_sql (λ sv, sv).

Section service.
Context `{!Crypto, !SqlOrder, !MapRange}.
Context (secrets : option Box) (k : APIKey).
(** What [json.Unmarshal] reads besides the number, and how an answer looks. *)
Context (rest : list (string * any) → result PVEReportRequest).
Context (show : Api.Body → string * result any).

Definition with_report_id (id : string) (q : PVEReportRequest) : PVEReportRequest :=
  {| pvq_ReportID := id; pvq_Hostname := pvq_Hostname q; pvq_IPAddress := pvq_IPAddress q;
     pvq_PublicIP := pvq_PublicIP q; pvq_ClientVersion := pvq_ClientVersion q;
     pvq_MachineID := pvq_MachineID q; pvq_SwapTotal := pvq_SwapTotal q;
     pvq_SwapUsed := pvq_SwapUsed q; pvq_SwapEnabled := pvq_SwapEnabled q;
     pvq_LastBackupStatus := pvq_LastBackupStatus q; pvq_Storages := pvq_Storages q;
     pvq_BackupTasks := pvq_BackupTasks q |}.

Definition decode_report (body : any) : result PVEReportRequest :=
  m ← members body;
  q ← rest m;
  id ← decode_field as_string "" "report_id" m;
  Ok (with_report_id id q).

Definition answer_of (resp : Response) : HttpResponse :=
  {| hs_StatusCode := code resp; hs_Body := (show (body resp)).1; hs_JSON := (show (body resp)).2 |}.

(** A report that the key [k] was let through with. *)
Definition Do_report (req : HttpRequest) : prog Service HttpResponse :=
  _ ← on_the_way;
  now ← next_time;
  resp ← lift sv_api set_api
           (H_ReportPVE secrets now k (decode_report (default ANil (hr_Body req))));
  _ ← on_the_way;
  mret (answer_of resp).

(** ** The handler *)

Lemma only_keys_reports db db' : only_keys db db' → pve_reports db' = pve_reports db.
Proof. intros Ho. apply pve_reports_frame. intros t Ht. apply Ho. intros ->. revert Ht. set_solver. Qed.

Lemma only_keys_server key db db' id :
  only_keys db db' → pve_server_of key db id ↔ pve_server_of key db' id.
Proof. intros Ho. unfold pve_server_of, rows_of. by rewrite (Ho (Servers PVE)). Qed.

Lemma H_ReportPVE_step now decoded s sid :
  wf (a_db s) → 0 < key_ID k → pve_server_of (key_ID k) (a_db s) sid →
  always (H_ReportPVE secrets now k decoded) (λ r s', ∃ resp, r = Ok resp ∧
    wf (a_db s') ∧ pve_server_of (key_ID k) (a_db s') sid ∧
    if code resp =? 200
    then ∃ q n, decoded = Ok q ∧
      pve_reports (a_db s') = spec_insert now sid (trim_pve q) n (pve_reports (a_db s))
    else pve_reports (a_db s') = pve_reports (a_db s)) s.
Proof.
  intros Hwf Hk Hsid. unfold H_ReportPVE.
  destruct decoded as [q|]; [|apply always_Ret; by eexists].
  unfold accept_report. destruct (PVEReportRequest_Validate _); [apply always_Ret; by eexists|].
  apply always_for_server; [done|..].
  { intros resp s' Hc Hwf' Ho _. eexists. split_and!; [done|done| |].
    - by apply (only_keys_server _ (a_db s)).
    - rewrite (proj2 (Z.eqb_neq _ _) Hc). by apply only_keys_reports. }
  intros k' s' Hid Hwf' Ho _. apply (only_keys_server _ _ _ _ Ho) in Hsid. rewrite Hid.
  rewrite <-(only_keys_reports _ _ Ho). apply always_andThen, always_on_db. eapply always_mono;
    [by apply SavePVEReport_step|].
  intros [[]|e] db' [Hwf'' Hst]; cbn beta iota.
  - destruct Hst as (id & n & Hsv & Hu & Hrep). rewrite (Hu sid Hsid).
    apply always_bind, always_local, always_Ret. eexists. split_and!; [done..|]. by exists q, n.
  - destruct Hst as [Hrep Hkeep]. apply always_Ret. eexists. split_and!; [done|done|by apply Hkeep|done].
Qed.

(** ** The numbers that are stored *)

Definition of_server (sid : Z) (s : StoredPVE) : bool := pver_ServerID (rr_Report (spv_Report s)) =? sid.

(** The numbers of the reports of a server. *)
Definition stored_numbers (sid : Z) (db : DB) : list string :=
  (λ s, rr_Token (spv_Report s)) <$> List.filter (of_server sid) (pve_reports db).

Lemma token_stored_number sid id l :
  id ≠ "" → token_stored sid id l = true ↔
  id ∈ (λ s, rr_Token (spv_Report s)) <$> List.filter (of_server sid) l.
Proof.
  intros Hid. unfold token_stored. assert (str_empty id = false) as -> by by apply bool_decide_eq_false.
  cbn [negb andb]. rewrite existsb_exists, list_elem_of_fmap. unfold has_token, of_server.
  split.
  - intros (s & Hs & [Hsv Hn%str_eqb_eq]%andb_true_iff). exists s. split; [done|].
    apply elem_of_filter_bool. split; [by apply list_elem_of_In|done].
  - intros (s & -> & [Hs Hsv]%elem_of_filter_bool). exists s.
    split; [by apply list_elem_of_In|].
    apply andb_true_iff. split; [exact Hsv|by apply str_eqb_eq].
Qed.

(** What a report does to them. *)
Lemma spec_insert_numbers now sid q n l :
  let number := (λ s, rr_Token (spv_Report s)) in
  let id := pvq_ReportID q in
  let before := number <$> List.filter (of_server sid) l in
  let after := number <$> List.filter (of_server sid) (spec_insert now sid q n l) in
  id ≠ "" → (after = before ∨ id ∉ before ∧ after = before ++ [id]) ∧ id ∈ after.
Proof.
  intros number id before after Hid. unfold after, before, spec_insert. fold id.
  destruct (token_stored sid id l) eqn:Ht.
  - split; [by left|]. by apply token_stored_number.
  - assert (id ∉ number <$> List.filter (of_server sid) l) as Hn.
    { intros Hin%token_stored_number; [|done]. congruence. }
    rewrite List.filter_app, fmap_app. cbn [List.filter].
    assert (of_server sid (stored_of now sid q n) = true) as -> by apply Z.eqb_refl.
    split; [by right|]. set_solver.
Qed.

Context (sid : Z).
Hypothesis positive : 0 < key_ID k.

#[export] Program Instance report_handler (url apiKey machineID : string) :
    ReportServer Do_report url apiKey machineID := {|
  sound sv := wf (a_db (sv_api sv)) ∧ pve_server_of (key_ID k) (a_db (sv_api sv)) sid;
  numbers sv := stored_numbers sid (a_db (sv_api sv))
|}.
Next Obligation.
  intros url apiKey machineID data id sv [Hwf Hsid] Hid Htrim Hn. unfold Do_report.
  apply always_bind, always_stmt; [intros e; by split_and!; [..|left|]|]. intros [] sv1 [= <-].
  apply always_bind, always_local. cbn [fst snd].
  apply always_bind, (always_lift sv_api set_api); [done|by intros []|done|].
  eapply always_mono; [by apply (H_ReportPVE_step _ _ _ sid)|].
  intros r s' (resp & -> & Hwf' & Hsid' & Hr). cbn [sv_api sv_clock sv_turn] in Hr.
  assert ((stored_numbers sid (a_db s') = stored_numbers sid (a_db (sv_api sv)) ∨
           id ∉ stored_numbers sid (a_db (sv_api sv)) ∧
           stored_numbers sid (a_db s') = stored_numbers sid (a_db (sv_api sv)) ++ [id]) ∧
          (code resp = 200 → id ∈ stored_numbers sid (a_db s'))) as [Hnum Hin].
  { unfold stored_numbers. destruct (Z.eqb_spec (code resp) 200); [|rewrite Hr; by split; [left|]].
    destruct Hr as (q & n & Hq & ->). assert (pvq_ReportID (trim_pve q) = id) as Hqid.
    { unfold decode_report in Hq. cbn in Hq. apply result_bind_Ok in Hq as (q0 & _ & Hq).
      unfold numbered in Hn. rewrite Hn in Hq. by injection Hq as <-. }
    destruct (spec_insert_numbers (sv_clock sv (sv_turn sv)) sid (trim_pve q) n
      (pve_reports (a_db (sv_api sv)))) as [Hcases Hin]; [by rewrite Hqid|].
    rewrite Hqid in Hcases, Hin. by split. }
  apply always_bind, always_stmt; [done|]. intros [] sv' [= <-]. apply always_Ret.
  split_and!; [done..|]. intros ? [= <-]. exact Hin.
Qed.
End service.

(** ** The property *)

(** C16: however often a Proxmox node sends the report of a backup job, from the hook or
    with its heartbeats, at whatever times, with whatever contents, and whichever
    requests, answers and statements of the database fail: the server of the node ends
    up with the reports it had, or with one more of the job's number; and the marker on
    the node is there until the report is. *)
Theorem backup_report_delivered `{!Crypto, !SqlOrder, !MapRange} (secrets : option Box)
    (k : APIKey) (rest : list (string * any) → result PVEReportRequest)
    (show : Api.Body → string * result any) (digest : string → string)
    (bad_url : string → option error) (cfg : Config) (machineID marker : string)
    (l : list Attempt) (sv : Service) (sid : Z) :
  let id := digest (machineID +:+ "|" +:+ TrimSpace marker) in
  cfg_ServerType cfg = "pve" → 0 < key_ID k → wf (a_db (sv_api sv)) → pve_server_of (key_ID k) (a_db (sv_api sv)) sid →
  machineID ≠ "" → TrimSpace marker ≠ "" → id ≠ "" ∧ TrimSpace id = id →
  Forall (fresh_source cfg) l →
  let w := attempts (Do_report secrets k rest show) digest bad_url cfg machineID l
             {| nd_marker := Some marker; nd_server := sv |} in
  let before := stored_numbers sid (a_db (sv_api sv)) in
  let after := stored_numbers sid (a_db (sv_api (nd_server w))) in
  (after = before ∨ id ∉ before ∧ after = before ++ [id]) ∧
  (nd_marker w = Some marker ∨ nd_marker w = None ∧ id ∈ after).
Proof.
  intros id _ Hk Hwf Hsid Hm Hst Hid Hl w before after.
  set (server := report_handler secrets k rest show sid Hk
    (cfg_APIURL cfg +:+ "/api/" +:+
      (if bool_decide (cfg_ServerType cfg = "pbs") then "report/pbs" else "report/pve"))
    (cfg_APIKey cfg) machineID).
  destruct (attempts_deliver (ReportServer0 := server) _ digest bad_url cfg machineID marker Hm Hst Hid before l
    {| nd_marker := Some marker; nd_server := sv |}) as (_ & Hn & Hmk); [done| |done].
  split; [done|]. split; by left.
Qed.

(** ** Examples *)

Module DeliveryExamples.
Definition key7 : APIKey :=
  {| key_ID := 7; key_Key := ""; key_Name := ""; key_KeyType := ""; key_IsActive := true;
     key_MachineID := "m1"; key_LastUsed := None; key_ServerName := "pve1"; key_ServerURL := "";
     key_CreatedAt := 0 |}.

(** The server of key 7 has the reports [a] and [b]; the clock moves on with every request. *)
Definition service : Service :=
  {| sv_api := {| a_db := PveExamples.db1; a_queue := false; a_limiter := ∅ |};
     sv_clock n := (100 + Z.of_nat n) * Second; sv_turn := 0 |}.

(** The sum that this marker has here. *)
Definition digest (s : string) : string := "00112233445566778899aabbccddeeff".

Definition node (n : nat) : Node Service :=
  attempts (Do_report None key7 (λ _, Ok (PveExamples.request "")) (λ _, ("", Ok ANil)))
    digest (λ _, None) RetryExamples.cfg "m1" (take n RetryExamples.tries)
    {| nd_marker := Some "2026-01-05 02:00:07 "; nd_server := service |}.

Definition numbers_after (n : nat) : list string :=
  stored_numbers 1 (a_db (sv_api (nd_server (node n)))).

Lemma registered : pve_server_of 7 PveExamples.db1 1.
Proof. eexists. split; [vm_compute; reflexivity|]. by split. Qed.
End DeliveryExamples.

(** The first request and then a statement of the database fail, the third attempt is
    answered, and the last one finds no marker. *)
Lemma backup_report_delivered_witness :
  (DeliveryExamples.numbers_after 2 = ["a"; "b"] ∧
   DeliveryExamples.numbers_after 3 = ["a"; "b"; "00112233445566778899aabbccddeeff"] ∧
   nd_marker (DeliveryExamples.node 2) = Some "2026-01-05 02:00:07 " ∧
   nd_marker (DeliveryExamples.node 4) = None) ∧
  (nd_marker (DeliveryExamples.node 4) = Some "2026-01-05 02:00:07 " ∨
   nd_marker (DeliveryExamples.node 4) = None ∧
   "00112233445566778899aabbccddeeff" ∈ DeliveryExamples.numbers_after 4).
Proof.
  split; [split_and!; vm_compute; reflexivity|].
  exact (proj2 (backup_report_delivered None DeliveryExamples.key7
    (λ _, Ok (PveExamples.request "")) (λ _, ("", Ok ANil)) DeliveryExamples.digest (λ _, None)
    RetryExamples.cfg "m1" "2026-01-05 02:00:07 " (take 4 RetryExamples.tries)
    DeliveryExamples.service 1 eq_refl eq_refl PveExamples.wf_pve_db1 DeliveryExamples.registered
    ltac:(done) ltac:(by vm_compute) ltac:(split; by vm_compute) ltac:(repeat constructor))).
Defined.
