(* ===== verification/SyncServer.v ===== *)
(** * The schedules of the client and the server API together

    The requests of [ClientSync] served by the handlers of [Api]: the messages in the
    wire format of both programs, and the router, which is a third-party package and
    an argument.  A request or its answer may be lost in the network.  For a node with a
    key of its own, on a database without schedules that name their server but do not
    number it, these handlers are a [ScheduleServer] ([schedule_handlers]). *)
From Stdlib Require Import Ascii.
From stdpp Require Import sorting.
From S2P Require Import Prelude GoStrings GoNum GoTime GoUrl GoText GoAny Domain StoreReads Staleness Sql Limiter Validation Secrets Relational Schema Servers Keys Reports PveReports PbsReports WindowsReports Batches Settings Api Isolation ClientSchedule ClientSync Delivery.

(** ** Messages *)

(** The JSON tags of [VMBackupConfigResponse]. *)
Definition encode_config (c : VMBackupConfigResponse) : any :=
  AMap [("id", AFloat (Float (vcresp_ID c))); ("server_name", AString (vcresp_ServerName c));
        ("vm_id", AString (vcresp_VMID c)); ("vm_name", AString (vcresp_VMName c));
        ("monday", ABool (vcresp_Monday c)); ("tuesday", ABool (vcresp_Tuesday c));
        ("wednesday", ABool (vcresp_Wednesday c)); ("thursday", ABool (vcresp_Thursday c));
        ("friday", ABool (vcresp_Friday c)); ("saturday", ABool (vcresp_Saturday c));
        ("sunday", ABool (vcresp_Sunday c)); ("is_excluded", ABool (vcresp_IsExcluded c))].

(** The bodies that the client reads; it never looks into the others. *)
Definition encode_body (b : Body) : any :=
  match b with
  | BConfigs server configs =>
      AMap [("server", AString server); ("configs", AList (encode_config <$> configs))]
  | BError msg => AMap [("error", AString msg)]
  | _ => AMap []
  end.

Definition decode_request (v : any) : result CreateVMBackupConfigRequest :=
  c ← decode_config v;
  Ok {| cvr_VMID := bc_VMID c; cvr_VMName := bc_VMName c; cvr_Monday := bc_Monday c;
        cvr_Tuesday := bc_Tuesday c; cvr_Wednesday := bc_Wednesday c;
        cvr_Thursday := bc_Thursday c; cvr_Friday := bc_Friday c;
        cvr_Saturday := bc_Saturday c; cvr_Sunday := bc_Sunday c |}.

Definition decode_inventory (v : any) : result bool :=
  m ← members v; decode_field as_bool false "has_vms" m.

(** ** Serving *)

Section serving.
Context `{!Crypto, !SqlOrder, !MapRange, !ReadStore}.
Context (secrets : option Box) (rs : ReportService).
(** The handler that a method and a URL lead to, and its decoding of the body. *)
Context (router : HttpRequest → option Request).

Definition answer_of (resp : Response) : HttpResponse :=
  {| hs_StatusCode := code resp; hs_Body := ""; hs_JSON := Ok (encode_body (body resp)) |}.

Definition not_found : Response := errJSON 404 "404 page not found".

(** The server, and the network before and after it. *)
Definition serve_http (now : Time) (nonce : result string) (req : HttpRequest) :
    prog Api HttpResponse :=
  _ ← stmt (λ s, Ok ((), s));
  resp ← match router req with
         | None => mret not_found
         | Some r => serve secrets rs now nonce (hr_Authorization req) (hr_MachineID req) r
         end;
  _ ← stmt (λ s, Ok ((), s));
  mret (answer_of resp).
End serving.

(** The two programs agree on the wire format of a schedule. *)
Lemma config_wire (c : VMBackupConfigResponse) :
  decode_config (encode_config c) =
  Ok {| bc_VMID := vcresp_VMID c; bc_VMName := vcresp_VMName c; bc_Monday := vcresp_Monday c;
        bc_Tuesday := vcresp_Tuesday c; bc_Wednesday := vcresp_Wednesday c;
        bc_Thursday := vcresp_Thursday c; bc_Friday := vcresp_Friday c;
        bc_Saturday := vcresp_Saturday c; bc_Sunday := vcresp_Sunday c |}.
Proof. reflexivity. Qed.

(** ** What the server has for a node *)

(** The client reads its own fields only. *)
Definition client_view (c : VMBackupConfig) : backupConfig :=
  {| bc_VMID := vm_VMID c; bc_VMName := vm_VMName c; bc_Monday := vm_Monday c;
     bc_Tuesday := vm_Tuesday c; bc_Wednesday := vm_Wednesday c; bc_Thursday := vm_Thursday c;
     bc_Friday := vm_Friday c; bc_Saturday := vm_Saturday c; bc_Sunday := vm_Sunday c |}.

Lemma configs_read server (l : list VMBackupConfig) :
  (v ← Ok (encode_body (BConfigs server (toVMConfigResponse <$> l))); decode_configs v) =
  Ok (client_view <$> l).
Proof.
  change (decode_all decode_config (encode_config <$> (toVMConfigResponse <$> l)) =
    Ok (client_view <$> l)).
  induction l as [|c l IH]; [done|]. rewrite !fmap_cons. cbn [decode_all]. by rewrite IH.
Qed.

Lemma configs_by_vmid_spec (l : list backupConfig) id c :
  (∀ c1 c2, c1 ∈ l → c2 ∈ l → bc_VMID c1 = bc_VMID c2 → c1 = c2) →
  configs_by_vmid l !! id = Some c ↔ c ∈ l ∧ bc_VMID c = id.
Proof.
  unfold configs_by_vmid. induction l as [|x l IH] using rev_ind; intros Hu.
  { cbn [fold_left]. rewrite lookup_empty. split; [done|]. by intros [?%not_elem_of_nil _]. }
  rewrite fold_left_app. cbn [fold_left]. destruct (decide (bc_VMID x = id)) as [<-|Hne].
  - rewrite lookup_insert_eq. split.
    + intros [= <-]. split; [|done]. apply elem_of_app. right. by left.
    + intros [Hc Hi]. f_equal. apply Hu; [|done|done]. apply elem_of_app. right. by left.
  - rewrite lookup_insert_ne by done. rewrite IH.
    + rewrite elem_of_app, list_elem_of_singleton. naive_solver.
    + intros c1 c2 H1 H2. apply Hu; apply elem_of_app; by left.
Qed.

(** A server of one key: [kid] is the key, [sid] its server, [server] the name. *)
Section node.
Context `{!Crypto, !SqlOrder, !MapRange}.
Context (secrets : option Box) (raw : string) (kid sid : Z) (server : string).

(** No schedule was left behind by a release in which schedules had the name of their
    server only. *)
Definition migrated (db : DB) : Prop :=
  ∀ k r, rows_of db VmBackupConfigs !! k = Some r → live r = true →
    vm_ServerName (vcr_Config r) = server → vcr_ServerID r ≠ 0.

(** The text [raw] is the key [kid] and no other one. *)
Definition identifies (db : DB) : Prop :=
  ∀ id row, rows_of db ApiKeys !! id = Some row → presents secrets raw row → id = kid.

Definition good (db : DB) : Prop :=
  wf db ∧ identifies db ∧ pve_server_of kid db sid ∧ migrated db.

Definition schedules_of (db : DB) : gmap string backupConfig :=
  configs_by_vmid (client_view <$> ListVMBackupConfigsForServerOrName "pve" sid server db).

Lemma list_by_number db :
  migrated db →
  ListVMBackupConfigsForServerOrName "pve" sid server db = ListVMBackupConfigsForServer "pve" sid db.
Proof.
  intros Hm. unfold ListVMBackupConfigsForServerOrName.
  destruct (ListVMBackupConfigsForServer "pve" sid db) as [|c l]; [|done]. cbn [is_nil negb orb].
  destruct (str_empty server); [done|]. rewrite (select_nil VmBackupConfigs); [done|].
  intros j r Hr. apply not_true_iff_false. unfold config_of.
  rewrite !andb_true_iff, str_eqb_eq, Z.eqb_eq. intros (((Hn & (_ & Hz) & Hl) & _) & _).
  by apply (Hm j r Hr Hl Hn).
Qed.

Lemma schedules_spec db id c :
  0 < sid → wf db → migrated db →
  schedules_of db !! id = Some c ↔
  ∃ k r, rows_of db VmBackupConfigs !! k = Some r ∧ config_at "pve" sid id r = true ∧
    c = client_view (vcr_Config r).
Proof.
  intros Hpos Hwf Hm. unfold schedules_of. rewrite list_by_number by done.
  assert (∀ c, c ∈ client_view <$> ListVMBackupConfigsForServer "pve" sid db ↔
    ∃ k r, rows_of db VmBackupConfigs !! k = Some r ∧ config_of "pve" sid r = true ∧
      c = client_view (vcr_Config r)) as Hin.
  { intros x. unfold ListVMBackupConfigsForServer. rewrite <-list_fmap_compose, list_elem_of_fmap.
    split.
    - intros (r & -> & [Hc [k Hr]]%(elem_of_select VmBackupConfigs)). by exists k, r.
    - intros (k & r & Hr & Hc & ->). exists r. split; [done|]. apply (elem_of_select VmBackupConfigs). eauto. }
  rewrite configs_by_vmid_spec.
  - rewrite Hin. split.
    + intros [(k & r & Hr & Hc & ->) <-]. exists k, r. split; [done|]. unfold config_at. rewrite Hc.
      split; [by apply str_eqb_eq|done].
    + intros (k & r & Hr & [Hc Hi%str_eqb_eq]%andb_true_iff & ->). split; [by exists k, r|done].
  - intros c1 c2 (k1 & r1 & Hr1 & C1 & ->)%Hin (k2 & r2 & Hr2 & C2 & ->)%Hin Hv.
    assert (config_at "pve" sid (vm_VMID (vcr_Config r1)) r1 = true) as A1
      by by (unfold config_at; rewrite C1, (proj2 (str_eqb_eq _ _) eq_refl)).
    assert (config_at "pve" sid (vm_VMID (vcr_Config r1)) r2 = true) as A2
      by by (unfold config_at; rewrite C2; apply str_eqb_eq).
    apply config_at_spec in A1 as (T1 & I1 & L1 & _), A2 as (T2 & I2 & L2 & V2).
    destruct (decide (k1 = k2)) as [->|Hne]; [by rewrite (row_det _ _ _ _ Hr1 Hr2)|].
    pose proof (wf_unique _ Hwf VmBackupConfigs k1 k2 r1 r2 Hne Hr1 Hr2) as Hc. exfalso.
    simpl in Hc. unfold live_config in Hc. unfold live in L1, L2.
    rewrite I1, I2, L1, L2, T1, T2, V2, Z.eqb_refl, (proj2 (Z.ltb_lt _ _) Hpos),
      !(proj2 (str_eqb_eq _ _) eq_refl) in Hc. done.
Qed.

(** Two databases with the same schedules. *)
Lemma schedules_frame db db' :
  migrated db → db' VmBackupConfigs = db VmBackupConfigs →
  migrated db' ∧ schedules_of db' = schedules_of db.
Proof.
  intros Hm Ht. assert (migrated db') as Hm' by (intros k r; rewrite Ht; apply Hm).
  split; [done|]. unfold schedules_of. rewrite !list_by_number by done.
  unfold ListVMBackupConfigsForServer, select_from. by rewrite (matching_same VmBackupConfigs _ db db').
Qed.

(** *** What the requests do to the schedules *)

Definition accepted (id : string) : Prop := validVMID id = true.

(** [db] with the schedule [c], and nothing that the other requests rest on changed. *)
Definition scheduled (c : backupConfig) (db db' : DB) : Prop :=
  good db' ∧ schedules_of db' = <[bc_VMID c := c]> (schedules_of db).
Definition unscheduled (db db' : DB) : Prop := good db' ∧ schedules_of db' = schedules_of db.

Hypothesis positive : 0 < sid.

Lemma unscheduled_refl db : good db → unscheduled db db.
Proof. done. Qed.

Lemma unscheduled_keys db db' :
  good db → only_keys db db' → wf db' → identifies db' → unscheduled db db'.
Proof.
  intros (Hwf & Hi & Hs & Hm) Ho Hwf' Hi'.
  destruct (schedules_frame db db' Hm (Ho VmBackupConfigs ltac:(done))) as [Hm' Heq].
  split; [|done]. split_and!; [done|done|by apply (only_keys_server _ db)|done].
Qed.

Lemma create_schedules now req db n db' :
  good db →
  insert_stmt VmBackupConfigs (new_vm_config now "pve" sid server req) db = Ok (n, db') →
  scheduled (client_view (vcr_Config (new_vm_config now "pve" sid server req n))) db db'.
Proof.
  intros (Hwf & Hid & Hs & Hm) Hi.
  pose proof (wf_insert_stmt VmBackupConfigs (new_vm_config now "pve" sid server req) _ _ _ (λ _, eq_refl) Hwf Hi) as Hwf'.
  pose proof Hi as (-> & Hcl & _ & ->)%insert_at_Ok. rewrite (clashes_false VmBackupConfigs) in Hcl.
  set (row := new_vm_config _ _ _ _ _ _) in *. set (db' := put _ _ _) in *.
  assert (∀ k, rows_of db' VmBackupConfigs !! k =
    (<[next_id db VmBackupConfigs := row]> (rows_of db VmBackupConfigs) : gmap Z VMConfigRow) !! k)
    as Hrows by (intros k; unfold db'; by rewrite put_eq).
  assert (migrated db') as Hm'.
  { intros k r. rewrite Hrows. intros [[<- <-]|[_ Hr]]%lookup_insert_Some; [|by apply (Hm k r Hr)].
    intros _ _. simpl. lia. }
  split.
  - split_and!; [done| | |done].
    + intros id r. unfold db'. rewrite put_ne by done. apply Hid.
    + unfold pve_server_of, db'. by rewrite put_ne.
  - apply map_eq. intros id. apply option_eq. intros c.
    rewrite schedules_spec, lookup_insert_Some, schedules_spec by done. split.
    + intros (k & r & Hr & Hc & ->). rewrite Hrows in Hr.
      pose proof Hc as (_ & _ & _ & Hv)%config_at_spec.
      apply lookup_insert_Some in Hr as [[<- <-]|[Hk Hr]]; [left; by split|right].
      split; [|by exists k, r]. simpl. intros He. specialize (Hcl k r (not_eq_sym Hk) Hr).
      apply config_at_spec in Hc as (Ht & Hn & Hl & _). simpl in Hcl. unfold live_config in Hcl.
      unfold live in Hl. simpl in Hcl. rewrite Hn, Hl, Ht, Hv, He, Z.eqb_refl,
        (proj2 (Z.ltb_lt _ _) positive), !(proj2 (str_eqb_eq _ _) eq_refl) in Hcl. done.
    + intros [[Hv <-]|[Hv (k & r & Hr & Hc & ->)]].
      * exists (next_id db VmBackupConfigs), row. rewrite Hrows, lookup_insert_eq.
        split_and!; [done| |done]. by apply config_at_spec.
      * exists k, r. rewrite Hrows, lookup_insert_ne; [done|]. intros <-.
        by destruct (row_none _ _ _ (wf_fresh db VmBackupConfigs Hwf) Hr).
Qed.

Lemma update_schedules vmid req db n db' :
  good db → is_Some (schedules_of db !! vmid) →
  update_stmt VmBackupConfigs (config_at "pve" sid vmid) (set_schedule req) db = Ok (n, db') →
  scheduled {| bc_VMID := vmid; bc_VMName := cvr_VMName req; bc_Monday := cvr_Monday req;
    bc_Tuesday := cvr_Tuesday req; bc_Wednesday := cvr_Wednesday req;
    bc_Thursday := cvr_Thursday req; bc_Friday := cvr_Friday req;
    bc_Saturday := cvr_Saturday req; bc_Sunday := cvr_Sunday req |} db db'.
Proof.
  intros (Hwf & Hid & Hs & Hm) [c0 Hc0] Hu.
  pose proof (wf_update_stmt VmBackupConfigs _ (set_schedule req) _ _ _ (λ _, eq_refl) Hwf Hu) as Hwf'.
  pose proof Hu as (_ & -> & _)%update_stmt_Ok. set (db' := put _ _ _) in *.
  assert (∀ k, rows_of db' VmBackupConfigs !! k =
    (λ r, if config_at "pve" sid vmid r then set_schedule req r else r) <$>
      (rows_of db VmBackupConfigs : gmap Z VMConfigRow) !! k) as Hrows.
  { intros k. unfold db'. rewrite put_eq. exact (lookup_updated VmBackupConfigs _ _ _ k). }
  assert (∀ k r, rows_of db VmBackupConfigs !! k = Some r → rows_of db' VmBackupConfigs !! k =
    Some (if config_at "pve" sid vmid r then set_schedule req r else r)) as Hup
    by (intros k r Hr; rewrite Hrows; apply fmap_Some; by exists r).
  assert (migrated db') as Hm'.
  { intros k r. rewrite Hrows. intros (r0 & Hr0 & ->)%fmap_Some.
    specialize (Hm k r0 Hr0). by destruct (config_at "pve" sid vmid r0). }
  split.
  - split_and!; [done| | |done].
    + intros id r. unfold db'. rewrite put_ne by done. apply Hid.
    + unfold pve_server_of, db'. by rewrite put_ne.
  - set (c' := Build_backupConfig _ _ _ _ _ _ _ _ _).
    assert (∀ r, config_at "pve" sid vmid r = true → client_view (vcr_Config (set_schedule req r)) = c')
      as Hview by (intros r (_ & _ & _ & Hv)%config_at_spec; unfold c'; by rewrite <-Hv).
    apply map_eq. intros id. apply option_eq. intros c.
    rewrite schedules_spec, lookup_insert_Some, schedules_spec by done. split.
    + intros (k & r & Hr & Hc & ->). rewrite Hrows in Hr. apply fmap_Some in Hr as (r0 & Hr0 & ->).
      destruct (config_at "pve" sid vmid r0) eqn:Hc'.
      * left. rewrite Hview by done. split; [|done].
        apply config_at_spec in Hc as (_ & _ & _ & <-), Hc' as (_ & _ & _ & <-). done.
      * right. split; [|by exists k, r0]. simpl. intros ->. congruence.
    + intros [[<- <-]|[Hne (k & r & Hr & Hc & ->)]].
      * apply schedules_spec in Hc0 as (k & r & Hr & Hc & _); [|done..].
        exists k, (set_schedule req r). rewrite (Hup k r Hr), Hc.
        split_and!; [done|done|by rewrite Hview].
      * exists k, r. rewrite (Hup k r Hr). destruct (config_at "pve" sid vmid r) eqn:Hc'; [|done].
        apply config_at_spec in Hc as (_ & _ & _ & <-), Hc' as (_ & _ & _ & <-). by destruct Hne.
Qed.

Lemma inventory_schedules now b db n db' :
  good db →
  update_stmt (Servers PVE) (λ r, has_id sid r && negb (sr_IsDeleted r)) (set_inventory now b) db =
    Ok (n, db') → unscheduled db db'.
Proof.
  intros (Hwf & Hid & Hs & Hm) Hu.
  pose proof (wf_update_stmt (Servers PVE) _ (set_inventory now b) _ _ _ (λ _, eq_refl) Hwf Hu) as Hwf'.
  apply update_stmt_Ok in Hu as (_ & -> & _). set (db' := put _ _ _) in *.
  destruct (schedules_frame db db' Hm) as [Hm' Heq]; [unfold db'; by rewrite put_ne|].
  split; [|done]. split_and!; [done| | |done].
  - intros id r. unfold db'. rewrite put_ne by done. apply Hid.
  - destruct Hs as (r & Hr & Hk & Hd).
    exists (if has_id sid r && negb (sr_IsDeleted r) then set_inventory now b r else r).
    unfold db'. rewrite rows_put_eq. split; [|by destruct (_ && _)].
    rewrite (lookup_updated (Servers PVE)). apply fmap_Some. by exists r.
Qed.

(** *** The key of a request *)

Definition keeping (db : DB) : Prop := wf db ∧ identifies db.

(** Only the row of the key is written to. *)
Lemma keeping_update cond f db n db' :
  (∀ r, cond r = true → ak_ID r = kid) → (∀ r, ak_ID (f r) = ak_ID r) →
  keeping db → update_stmt ApiKeys cond f db = Ok (n, db') → keeping db'.
Proof.
  intros Hc Hf [Hwf Hi] Hu. split; [by eapply (wf_update_stmt ApiKeys); [|exact Hwf|exact Hu]|].
  apply update_stmt_Ok in Hu as (_ & -> & _). intros id r. rewrite rows_put_eq.
  rewrite (lookup_updated ApiKeys). intros (r0 & Hr0 & ->)%fmap_Some Hp.
  destruct (cond r0) eqn:Hcr; [|by apply (Hi id r0)].
  rewrite <-(Hc r0 Hcr). by apply (wf_row db ApiKeys id r0).
Qed.

Lemma always_key_update cond f db (Q : result Z → DB → Prop) :
  (∀ r, cond r = true → ak_ID r = kid) → (∀ r, ak_ID (f r) = ak_ID r) → keeping db →
  (∀ r db', keeping db' → Q r db') → always (UPDATE ApiKeys cond f) Q db.
Proof.
  intros Hc Hf Hk HQ. apply always_stmt; [intros e; by apply HQ|].
  intros n db' Hu. by eapply HQ, keeping_update.
Qed.

Lemma is_key_kid r : is_key kid r = true → ak_ID r = kid.
Proof. apply Z.eqb_eq. Qed.

Lemma is_key_and r (b : bool) : is_key kid r && b = true → ak_ID r = kid.
Proof. intros [? _]%andb_true_iff. by apply is_key_kid. Qed.

Lemma always_GetAPIKeyByValue nonce db :
  keeping db →
  always (GetAPIKeyByValue secrets nonce raw) (λ r db', keeping db' ∧
    ∀ k, r = Ok k → key_ID k = kid) db.
Proof.
  intros Hk. pose proof Hk as [Hwf Hi].
  assert (∀ k, read_from (presents secrets raw) db k → key_ID k = kid) as Hread
    by (intros k (row & Hr & Hp & _); by apply (Hi _ row)).
  unfold GetAPIKeyByValue. apply always_bind.
  apply (always_mono _ (λ r db', db' = db ∧ ∀ k, r = Ok (Some k) → key_ID k = kid)).
  { destruct secrets as [b|] eqn:Hs; [|by apply always_Ret]. rewrite <-Hs.
    eapply always_mono; [by apply find_key_always|]. intros r db' [-> Hf]. split; [done|].
    intros k ->. apply Hread. destruct Hf as (row & Hr & Hh%str_eqb_eq & Hrest). exists row.
    split_and!; try apply Hrest; [done|]. left. by exists b. }
  intros [[k|]|e] db' [-> Hf]; [|..|done].
  { apply always_Ret. split; [done|]. intros ? [= <-]. by apply Hf. }
  destruct (IsEncrypted raw) eqn:He; [by apply always_Ret|].
  apply always_bind. eapply always_mono; [by apply find_key_always|].
  intros [[k|]|e] db' [-> Hf']; [|by apply always_Ret|done].
  assert (key_ID k = kid) as Hid.
  { apply Hread. destruct Hf' as (row & Hr & [Hk'%str_eqb_eq _]%andb_true_iff & Hrest). exists row.
    split_and!; try apply Hrest; [done|]. by right. }
  destruct secrets as [b|]; [|apply always_Ret; split; [done|by intros ? [= <-]]].
  apply always_bind. unfold protectAPIKeyValue. rewrite Hid.
  destruct (Encrypt b nonce raw); [|by apply always_Ret].
  apply always_bind, always_key_update; [apply is_key_kid|done|done|].
  intros [n|e'] db' Hk'; [|done]. do 2 apply always_Ret.
  split; [done|]. by intros ? [= <-].
Qed.

Lemma always_GetAPIKey id db (Q : result APIKey → DB → Prop) :
  wf db → (∀ r, Q r db) → always (GetAPIKey secrets id) Q db.
Proof.
  intros Hwf HQ. eapply always_mono; [by apply GetAPIKey_always|]. intros r db' [-> _]. apply HQ.
Qed.

Lemma always_ValidateServerKey now nonce machineID db :
  keeping db →
  always (ValidateServerKey secrets now nonce raw machineID) (λ r db', keeping db' ∧
    ∀ k, r = Ok k → key_ID k = kid) db.
Proof.
  intros Hk. unfold ValidateServerKey. apply always_andThen.
  eapply always_mono; [by apply always_GetAPIKeyByValue|].
  intros [k|e] db1 [Hk1 Hid]; [|by apply always_Ret]. specialize (Hid k eq_refl).
  destruct (negb (key_IsActive k)); [by apply always_Ret|].
  destruct (negb _); [by apply always_Ret|]. destruct (str_empty machineID); [by apply always_Ret|].
  apply always_bind.
  apply (always_mono _ (λ r db', keeping db' ∧ ∀ k, r = Ok k → key_ID k = kid)).
  { destruct (str_empty _); [|apply always_Ret; split; [done|by intros ? [= <-]]].
    unfold bind_machine, BindAPIKeyMachineID. apply always_bind, always_wrap_err, always_bind.
    rewrite Hid. apply always_key_update; [intros r Hr; by apply is_key_and in Hr|done|done|].
    intros [n|e] db2 Hk2; [|done]. apply always_Ret. destruct (_ =? _).
    - apply always_Ret. split; [done|]. by intros ? [= <-].
    - apply always_andThen, always_GetAPIKey; [apply Hk2|]. intros [cur|e]; apply always_Ret; [|done].
      split; [done|]. by intros ? [= <-]. }
  intros [k'|e] db2 [Hk2 Hid']; [|done]. destruct (negb _); [by apply always_Ret|].
  specialize (Hid' k' eq_refl). apply always_andThen. unfold UpdateAPIKeyLastUsed. rewrite Hid'.
  apply always_bind, always_key_update; [intros r Hr; by apply is_key_and in Hr|done|done|].
  intros [n|e] db3 Hk3; [apply always_Ret|]; apply always_Ret; (split; [done|by intros ? [= <-]]).
Qed.

(** *** The answers *)

Definition refused (resp : Response) : Prop := code resp ≠ 200 ∧ code resp ≠ 201.

(** A request that goes wrong changes no schedule and is not answered with success. *)
Definition turned_away (Q : result Response → Api → Prop) (s : Api) : Prop :=
  ∀ resp s', refused resp → unscheduled (a_db s) (a_db s') → Q (Ok resp) s'.

Lemma turned_away_later Q s s' :
  unscheduled (a_db s) (a_db s') → turned_away Q s → turned_away Q s'.
Proof. intros [Hg He] Ht resp s2 Hr [Hg2 He2]. apply Ht; [done|]. split; [done|congruence]. Qed.

Lemma unscheduled_guarded db db' :
  good db → only_keys db db' → keeping db' → unscheduled db db'.
Proof. intros Hg Ho []. by apply unscheduled_keys. Qed.

Lemma always_requireKeyServer k serverName db :
  keeping db → key_ID k = kid →
  always (requireKeyServer secrets k serverName) (λ r db', keeping db' ∧
    match r with
    | Ok (inl k') => key_ID k' = kid
    | Ok (inr resp) => refused resp
    | Err _ => True
    end) db.
Proof.
  intros Hk Hid. unfold requireKeyServer.
  assert (∀ k' db, keeping db → key_ID k' = kid →
    always (mret (check_bound k' (TrimSpace serverName))) (λ r db', keeping db' ∧
    match r with
    | Ok (inl k') => key_ID k' = kid
    | Ok (inr resp) => refused resp
    | Err _ => True
    end) db) as Hcheck.
  { intros k' db' Hk' Hid'. apply always_Ret. unfold check_bound. by destruct (negb _). }
  destruct (str_empty _); [by apply always_Ret|]. destruct (negb _); [by apply Hcheck|].
  apply always_andThen. unfold BindAPIKeyServerName. rewrite Hid.
  apply always_bind, always_key_update; [intros r Hr; by apply is_key_and in Hr|done|done|].
  intros [n|e] db1 Hk1; [|by apply always_Ret]. apply always_Ret.
  destruct (n =? 1); [by apply always_Ret|].
  apply always_andThen, always_GetAPIKey; [apply Hk1|].
  intros [cur|e]; [by apply Hcheck|by apply always_Ret].
Qed.

Lemma always_let_through rs now nonce machineID authorization r (Q : result Response → Api → Prop) s
    `{!ReadStore} :
  ExtractBearer authorization = raw → good (a_db s) → turned_away Q s →
  (∀ k s', key_ID k = kid → unscheduled (a_db s) (a_db s') →
     always (handle secrets rs now r k) Q s') →
  always (serve secrets rs now nonce authorization machineID r) Q s.
Proof.
  intros Hraw Hg Haway Hnext. unfold serve, requireServerKey, check. rewrite Hraw.
  apply always_andThen, always_on_db. eapply always_mono.
  { apply always_and; [|by apply along_ValidateServerKey, Hg].
    apply always_ValidateServerKey. split; apply Hg. }
  intros [k|e] db' [[Hk Hid] [_ Ho]].
  - apply always_bind, always_local. cbn beta.
    destruct (AllowKey _ _ _ _) as [[] m] eqn:Ha; cbn [fst snd negb].
    + apply Hnext; [by apply Hid|]. by apply unscheduled_guarded.
    + apply always_Ret, Haway; [done|]. by apply unscheduled_guarded.
  - apply always_Ret, Haway; [done|]. by apply unscheduled_guarded.
Qed.

Lemma always_for_node now k h (Q : result Response → Api → Prop) s :
  0 < kid → key_ID k = kid → good (a_db s) → turned_away Q s →
  (∀ s', unscheduled (a_db s) (a_db s') → always (h sid) Q s') →
  always (for_pve_server secrets now k server h) Q s.
Proof.
  intros Hpos Hid Hg Haway Hh. unfold for_pve_server, for_server, check.
  apply always_andThen, always_on_db. eapply always_mono.
  { apply always_and; [apply along_requireKeyServer, Hg|].
    apply (always_requireKeyServer k server); [split; apply Hg|done]. }
  intros [[k'|resp]|e] db1 [[_ Ho] [Hk Hr]];
    try (apply always_Ret, Haway; [done|by apply unscheduled_guarded]).
  assert (unscheduled (a_db s) db1) as Hu by by apply unscheduled_guarded.
  apply always_andThen, always_on_db. unfold pveServerIDForKey, ResolvePVEServerForAPIKey.
  rewrite Hr, (proj2 (Z.leb_gt kid 0)) by done. apply always_bind, always_query.
  { intros e. by apply always_Ret, Haway. }
  destruct Hu as [(Hwf & Hi & Hs & Hm) He]. destruct Hs as (row & Hrow & Hkey & Hdel).
  cbn [a_db set_db]. destruct (head _) as [id|] eqn:Hf.
  - destruct (find_server_Some _ _ _ _ Hwf Hf) as (r & Hrr & [Hk2 _]%of_key_true).
    assert (id = sid) as -> by by eapply (server_key_unique PVE db1).
    apply always_Ret, Hh. split; [|done]. split_and!; [done|done|by exists row|done].
  - pose proof (find_server_None _ _ _ Hf sid row Hrow) as Hn.
    by rewrite (proj2 (of_key_true kid row) (conj Hkey Hdel)) in Hn.
Qed.

Hypothesis named_server : TrimSpace server = server ∧ server ≠ "".
Hypothesis positive_key : 0 < kid.

(** The row of the key comes before rows of no key. *)
Lemma find_node m db :
  good db →
  head (sr_ID <$> select_from (Servers PVE)
    (λ r, negb (sr_IsDeleted r) && (opt_is (sr_APIKeyID r) kid ||
          (str_eqb (sr_Name r) server && opt_is (sr_MachineID r) m && is_null (sr_APIKeyID r))))
    bound_first db) = Some sid.
Proof.
  intros (Hwf & _ & (row & Hrow & Hkey & Hdel) & _).
  match goal with |- head (_ <$> select_from _ ?f _ _) = _ => set (cond := f) end.
  assert (cond row = true) as Hc.
  { unfold cond. by rewrite Hdel, (proj2 (opt_is_true _ _) Hkey). }
  pose proof (select_in (Servers PVE) cond bound_first db sid row Hrow Hc) as Hin.
  assert (StronglySorted (λ x y, bound_first x y = true) (select_from (Servers PVE) cond bound_first db))
    as Hsorted.
  { apply order_by_sorted; unfold bound_first.
    - intros x y. destruct (sr_APIKeyID x), (sr_APIKeyID y); simpl; auto.
    - intros x y z. destruct (sr_APIKeyID x), (sr_APIKeyID y), (sr_APIKeyID z); simpl; auto. }
  pose proof (select_out (Servers PVE) cond bound_first db) as Hout.
  destruct (select_from _ _ _ _) as [|r l]; [by apply not_elem_of_nil in Hin|].
  destruct (Hout r) as (i & Hr & Hcr); [left|]. simpl. f_equal.
  assert (sr_APIKeyID r = Some kid) as Hkr.
  { apply elem_of_cons in Hin as [->|Hin]; [done|]. apply StronglySorted_inv in Hsorted as [_ Hall].
    rewrite Forall_forall in Hall. specialize (Hall row Hin). unfold bound_first in Hall.
    rewrite Hkey in Hall. unfold cond in Hcr. apply andb_true_iff in Hcr as [_ Hcr].
    destruct (sr_APIKeyID r) as [key|] eqn:Hk; [|done]. simpl in Hcr.
    rewrite andb_false_r, orb_false_r in Hcr. by apply opt_is_true in Hcr as [= ->]. }
  rewrite <-(server_key_unique PVE db i sid r row kid Hwf Hr Hrow Hkr Hkey).
  symmetry. by apply (wf_row db (Servers PVE) i r).
Qed.

(** *** The handlers *)

Lemma always_read_db {A} (f : DB → A) (Q : result A → Api → Prop) s :
  (∀ e, Q (Err e) s) → Q (Ok (f (a_db s))) s → always (on_db (query f)) Q s.
Proof.
  assert (set_db (a_db s) s = s) as Hs by (by destruct s).
  intros He Ho. apply always_on_db, always_query; by rewrite Hs.
Qed.

Lemma always_get_config k (Q : result Response → Api → Prop) s :
  key_ID k = kid → good (a_db s) → turned_away Q s →
  (∀ l, configs_by_vmid (client_view <$> l) = schedules_of (a_db s) →
     Q (Ok (writeJSON 200 (BConfigs server (toVMConfigResponse <$> l)))) s) →
  always (H_GetBackupConfig k server) Q s.
Proof.
  intros Hid Hg Haway HQ. destruct named_server as [Ht Hne].
  assert (∀ resp, refused resp → Q (Ok resp) s) as Hre by (intros; by apply Haway).
  unfold H_GetBackupConfig, keyMayReadServer. rewrite !Ht.
  unfold str_empty at 1. rewrite bool_decide_false by done.
  destruct (_ && _); [by apply always_Ret, Hre|].
  apply always_andThen, always_read_db; [intros e; by apply always_Ret, Hre|].
  rewrite Hid, find_node by done. apply always_andThen, always_read_db;
    [intros e; by apply always_Ret, Hre|]. by apply always_Ret, HQ.
Qed.

Lemma always_put_inventory now b (Q : result () → Api → Prop) s :
  good (a_db s) → (∀ r s', unscheduled (a_db s) (a_db s') → Q r s') →
  always (on_db (SetPVEBackupInventory now sid b)) Q s.
Proof.
  intros Hg HQ. assert (set_db (a_db s) s = s) as Hs by (by destruct s).
  apply always_on_db. unfold SetPVEBackupInventory. apply always_bind, always_stmt.
  - intros e. by apply HQ.
  - intros n db' Hu. destruct (n =? 0); apply always_Ret, HQ; by apply (inventory_schedules now b _ n).
Qed.

(** The schedule of a request. *)
Definition asked (vmid : string) (req : CreateVMBackupConfigRequest) : backupConfig :=
  {| bc_VMID := vmid; bc_VMName := cvr_VMName req; bc_Monday := cvr_Monday req;
     bc_Tuesday := cvr_Tuesday req; bc_Wednesday := cvr_Wednesday req;
     bc_Thursday := cvr_Thursday req; bc_Friday := cvr_Friday req;
     bc_Saturday := cvr_Saturday req; bc_Sunday := cvr_Sunday req |}.

Lemma always_create now k req (Q : result Response → Api → Prop) s :
  key_ID k = kid → good (a_db s) → turned_away Q s →
  (∀ resp s', code resp = 201 → scheduled (asked (cvr_VMID req) req) (a_db s) (a_db s') →
     Q (Ok resp) s') →
  always (H_CreateVMConfig secrets now k server (Ok req)) Q s.
Proof.
  intros Hid Hg Haway HQ. unfold H_CreateVMConfig. rewrite (proj1 named_server).
  apply always_for_node; [done..|]. intros s1 H1'.
  pose proof (turned_away_later Q s s1 H1' Haway) as Haway1.
  destruct (negb _); [apply always_Ret, Haway1; [done|by apply unscheduled_refl, H1']|].
  apply always_andThen, always_on_db. unfold CreateVMBackupConfigForServer. apply always_stmt.
  { intros e. apply always_Ret, Haway1; [done|]. destruct s1. apply unscheduled_refl, H1'. }
  intros n db' Hi. apply create_schedules in Hi as [Hg' He]; [|apply H1'].
  destruct H1' as [_ Heq]. apply always_andThen, always_put_inventory; [done|].
  intros r s2 [Hg2 He2]. apply always_Ret, HQ; [done|]. split; [done|]. cbn [a_db set_db] in He2.
  by rewrite He2, He, Heq.
Qed.

Lemma always_update now k vmid req (Q : result Response → Api → Prop) s :
  key_ID k = kid → good (a_db s) → is_Some (schedules_of (a_db s) !! vmid) → turned_away Q s →
  (∀ resp s', code resp = 200 → scheduled (asked vmid req) (a_db s) (a_db s') → Q (Ok resp) s') →
  always (H_UpdateVMConfig secrets now k server vmid (Ok req)) Q s.
Proof.
  intros Hid Hg Hsome Haway HQ. unfold H_UpdateVMConfig. rewrite (proj1 named_server).
  destruct (negb _); [by apply always_Ret, Haway|].
  apply always_for_node; [done..|]. intros s1 H1'.
  pose proof (turned_away_later Q s s1 H1' Haway) as Haway1.
  apply always_andThen, always_on_db. unfold UpdateVMBackupConfigForServer.
  apply always_bind, always_stmt.
  { intros e. apply always_Ret, Haway1; [done|]. destruct s1. apply unscheduled_refl, H1'. }
  intros n db' Hu. apply update_schedules in Hu as [Hg' He]; [|apply H1'|by rewrite (proj2 H1')].
  destruct H1' as [_ Heq]. apply always_Ret, always_andThen, always_put_inventory; [done|].
  intros r s2 [Hg2 He2]. apply always_Ret, HQ; [done|]. split; [done|]. cbn [a_db set_db] in He2.
  by rewrite He2, He, Heq.
Qed.

Lemma always_inventory now k b (Q : result Response → Api → Prop) s :
  key_ID k = kid → good (a_db s) → turned_away Q s →
  (∀ resp s', unscheduled (a_db s) (a_db s') → Q (Ok resp) s') →
  always (H_UpdateBackupInventory secrets now k server (Ok b)) Q s.
Proof.
  intros Hid Hg Haway HQ. unfold H_UpdateBackupInventory. rewrite (proj1 named_server).
  apply always_for_node; [done..|]. intros s1 [Hg1 He1].
  apply always_andThen, always_put_inventory; [done|]. intros r s2 [Hg2 He2].
  destruct r; apply always_Ret, HQ; (split; [done|congruence]).
Qed.

(** *** The server behind the network *)

Context `{!ReadStore} (rs : ReportService) (nonce : Time → result string).
Context (router : HttpRequest → option Request).

Definition Do_schedules (req : HttpRequest) : prog Service HttpResponse :=
  now ← next_time;
  lift sv_api set_api (serve_http secrets rs router now (nonce now) req).

Lemma always_Do_schedules req r (Q : result HttpResponse → Service → Prop) sv :
  router req = Some r → ExtractBearer (hr_Authorization req) = raw →
  good (a_db (sv_api sv)) →
  (∀ e sv', unscheduled (a_db (sv_api sv)) (a_db (sv_api sv')) → Q (Err e) sv') →
  (∀ resp sv', refused resp → unscheduled (a_db (sv_api sv)) (a_db (sv_api sv')) →
     Q (Ok (answer_of resp)) sv') →
  (∀ now k s, key_ID k = kid → unscheduled (a_db (sv_api sv)) (a_db s) →
     always (handle secrets rs now r k) (λ res s', ∀ sv', sv_api sv' = s' →
       match res with
       | Ok resp => Q (Ok (answer_of resp)) sv' ∧ ∀ e, Q (Err e) sv'
       | Err e => Q (Err e) sv'
       end) s) →
  always (Do_schedules req) Q sv.
Proof.
  intros Hr Hraw Hg Herr Haway Hnext. unfold Do_schedules.
  apply always_bind, always_local. cbn [fst snd].
  apply (always_lift sv_api set_api); [done|by intros []|done|]. cbn [sv_api].
  unfold serve_http. rewrite Hr. apply always_bind, always_stmt; [intros e; by apply Herr|].
  intros [] s [= <-]. apply always_bind.
  apply (always_mono _ (λ res s', ∀ sv', sv_api sv' = s' →
       match res with
       | Ok resp => Q (Ok (answer_of resp)) sv' ∧ ∀ e, Q (Err e) sv'
       | Err e => Q (Err e) sv'
       end)).
  - apply always_let_through; [done|done| |].
    + intros resp s' Hre Hu sv' <-. split; [by apply Haway|]. intros e. by apply Herr.
    + intros k s' Hid Hu. by apply Hnext.
  - intros [resp|e] s' Hs'; [|by apply Hs'].
    apply always_bind, always_stmt; [intros e; by apply Hs'|].
    intros [] s2 [= <-]. apply always_Ret. by apply Hs'.
Qed.

(** What the routes of [router.go] say of the four requests. *)
Record routed (base apiKey machineID : string) : Prop := {
  route_get : router (json_request "GET" base apiKey machineID None) = Some (GetConfig server);
  route_inventory v : router (json_request "PUT" base apiKey machineID (Some v)) =
    Some (PutInventory server (decode_inventory v));
  route_create v : router (json_request "POST" (base +:+ "/vms") apiKey machineID (Some v)) =
    Some (PostVM server (decode_request v));
  route_update vmid v : accepted vmid →
    router (json_request "PUT" (base +:+ "/vms/" +:+ PathEscape vmid) apiKey machineID (Some v)) =
    Some (PutVM server vmid (decode_request v))
}.

#[export] Program Instance schedule_handlers (base apiKey machineID : string)
    (Hroutes : routed base apiKey machineID) (Hkey : ExtractBearer ("Bearer " +:+ apiKey) = raw) :
    ScheduleServer Do_schedules base apiKey machineID := {|
  ready sv := good (a_db (sv_api sv));
  stored sv := schedules_of (a_db (sv_api sv));
  accepts := accepted
|}.
Next Obligation.
  intros base apiKey machineID Hroutes Hkey w Hg. cbv beta.
  apply (always_Do_schedules _ (GetConfig server)); [apply Hroutes|done|done|..].
  - by intros e sv' [Hg' He].
  - intros resp sv' [Hne _] [Hg' He]. split_and!; [done|done|]. by intros ? [= <-].
  - intros now k s Hid [Hg' He]. apply always_get_config; [done|done|..].
    + intros resp s' [Hne _] [Hg2 He2] sv' <-. rewrite <-He, <-He2.
      split; [|by intros e]. split_and!; [done|done|]. by intros ? [= <-].
    + intros l Hl sv' <-. rewrite <-He. split; [|by intros e].
      split_and!; [done|done|]. intros ? [= <-] _. exists (client_view <$> l).
      split; [by apply configs_read|done].
Qed.
Next Obligation.
  intros base apiKey machineID Hroutes Hkey w b Hg. cbv beta.
  apply (always_Do_schedules _ (PutInventory server (Ok b))); [apply Hroutes|done|done|done|done|].
  intros now k s Hid [Hg' He]. apply always_inventory; [done|done|..].
  - intros resp s' _ [Hg2 He2] sv' <-. by rewrite <-He, <-He2.
  - intros resp s' [Hg2 He2] sv' <-. by rewrite <-He, <-He2.
Qed.
Next Obligation.
  intros base apiKey machineID Hroutes Hkey w vm days Hg Hacc _. cbv beta.
  apply (always_Do_schedules _ (PostVM server (decode_request (vmConfigPayload vm days))));
    [apply Hroutes|done|done|..].
  - intros e sv' [Hg' He]. split; [done|]. by right.
  - intros resp sv' [_ Hne] [Hg' He]. split; [done|]. right. split; [done|]. by intros ? [= <-].
  - intros now k s Hid [Hg' He].
    apply always_create; [done|done|..].
    + intros resp s' [_ Hne] [Hg2 He2] sv' <-. rewrite <-He, <-He2.
      split; [|intros e]; (split; [done|]); right; (split; [done|]); [by intros ? [= <-]|done].
    + intros resp s' Hc [Hg2 He2] sv' <-. rewrite <-He.
      split; [|intros e]; (split; [done|]); by left.
Qed.
Next Obligation.
  intros base apiKey machineID Hroutes Hkey w vm days Hg Hacc Hsome. cbv beta.
  apply (always_Do_schedules _ (PutVM server (dv_VMID vm) (decode_request (vmConfigPayload vm days))));
    [by apply Hroutes|done|done|..].
  - intros e sv' [Hg' He]. split; [done|]. by right.
  - intros resp sv' [Hne _] [Hg' He]. split; [done|]. right. split; [done|]. by intros ? [= <-].
  - intros now k s Hid [Hg' He].
    apply always_update; [done|done|by rewrite He|..].
    + intros resp s' [Hne _] [Hg2 He2] sv' <-. rewrite <-He, <-He2.
      split; [|intros e]; (split; [done|]); right; (split; [done|]); [by intros ? [= <-]|done].
    + intros resp s' Hc [Hg2 He2] sv' <-. rewrite <-He.
      split; [|intros e]; (split; [done|]); by left.
Qed.
End node.

(** ** Examples *)

Module SyncExamples.
Definition site : string := "https://backup.example.org/api/backup-config/pve/".

Definition router (req : HttpRequest) : option Request :=
  if negb (HasPrefix (hr_URL req) site) then None else
  let decoded {A} (f : any → result A) : result A :=
    match hr_Body req with Some v => f v | None => Err (ErrMsg "EOF") end in
  match hr_Method req, Split "/" (TrimPrefix (hr_URL req) site) with
  | "GET", [server] => Some (GetConfig server)
  | "PUT", [server] => Some (PutInventory server (decoded decode_inventory))
  | "POST", [server; "vms"] => Some (PostVM server (decoded decode_request))
  | "PUT", [server; "vms"; vmid] => Some (PutVM server vmid (decoded decode_request))
  | _, _ => None
  end.

#[local] Existing Instance ApiExamples.store.

Definition Do : HttpRequest → prog Api HttpResponse :=
  serve_http ApiExamples.secrets ApiExamples.service router (30 * Second) (Err (ErrMsg "unused")).

Definition web : discoveredVM := {| dv_VMID := "100"; dv_Name := "web" |}.
Definition saturdays : gmap string pveBackupSchedule :=
  {["100" := (parsePVEBackupSchedule "sat 01:00").1]}.

(** [sync-backups --overwrite] on the node [pve1], which backs up its guest on Saturdays. *)
Definition sync : prog Api SyncResult :=
  syncBackupConfigWithOverwrite Do (λ _, None) MemoryServer.cfg "pve1" "m1" [web] true
    (Some saturdays).

(** A schedule for Sundays from the time when schedules had the name of a server only. *)
Definition legacy_request : CreateVMBackupConfigRequest :=
  {| cvr_VMID := "100"; cvr_VMName := "web"; cvr_Monday := false; cvr_Tuesday := false;
     cvr_Wednesday := false; cvr_Thursday := false; cvr_Friday := false;
     cvr_Saturday := false; cvr_Sunday := true |}.

Definition with_legacy : Api :=
  set_db (run (CreateVMBackupConfig 5 "pve1" legacy_request) (a_db reported)).2 reported.

(** The days on which the server expects a backup of a VM of its first PVE server. *)
Definition expected (s : Api) : list (list bool) :=
  (λ c, [vm_Monday c; vm_Tuesday c; vm_Wednesday c; vm_Thursday c; vm_Friday c;
         vm_Saturday c; vm_Sunday c]) <$> ListVMBackupConfigsForServerOrName "pve" 1 "pve1" (a_db s).

(** The same server with a clock, behind a network. *)
Definition reachable : Service :=
  {| sv_api := reported; sv_clock n := (100 + Z.of_nat n) * Second; sv_turn := 0 |}.

Definition nonce (now : Time) : result string := Err (ErrMsg "unused").

Definition Do_reachable : HttpRequest → prog Service HttpResponse :=
  Do_schedules ApiExamples.secrets ApiExamples.service nonce router.

(** A second guest is given a schedule as well. *)
Definition guests : list discoveredVM := [web; {| dv_VMID := "101"; dv_Name := "mail" |}].

Definition sync_guests : prog Service SyncResult :=
  syncBackupConfigWithOverwrite Do_reachable (λ _, None) MemoryServer.cfg "pve1" "m1" guests true
    (Some saturdays).

Lemma digits_of_guest vmid : accepted vmid → ∃ n, 0 ≤ n ∧ vmid = Itoa n.
Proof.
  unfold accepted, validVMID. destruct (ParseInt vmid) as [n ok].
  intros [[[_ Hn%Z.leb_le]%andb_true_iff _]%andb_true_iff He%str_eqb_eq]%andb_true_iff.
  exists n. split; [lia|done].
Qed.

Lemma escape_digits keep (s : string) :
  (∀ c, is_digit c = true → keep c = true) → str_all is_digit s = true → escape keep false s = s.
Proof.
  intros Hk. induction s as [|c s IH]; [done|]. cbn [str_all escape].
  intros [Hc Hs]%andb_true_iff. cbn [andb]. rewrite (Hk c Hc), IH by done. done.
Qed.

Lemma PathEscape_guest vmid : accepted vmid → PathEscape vmid = vmid.
Proof.
  intros (n & Hn & ->)%digits_of_guest. apply escape_digits; [|by apply Itoa_digits].
  intros c. unfold unreserved, is_alnum, is_digit, digit. cbv zeta.
  by destruct ((48 <=? byte c) && (byte c <=? 57)).
Qed.

Lemma router_routes :
  routed "pve1" router (base_url MemoryServer.cfg "pve1") (cfg_APIKey MemoryServer.cfg) "m1".
Proof.
  split; [reflexivity..|]. intros vmid v Hacc. rewrite (PathEscape_guest vmid Hacc).
  apply digits_of_guest in Hacc as (n & Hn & ->).
  change (router _) with (match Split "/" ("pve1/vms/" +:+ Itoa n) with
    | [server] => Some (PutInventory server (decode_inventory v))
    | [server; "vms"; vmid] => Some (PutVM server vmid (decode_request v))
    | _ => None end).
  change (Split "/" ("pve1/vms/" +:+ Itoa n)) with ("pve1" :: "vms" :: Split "/" (Itoa n)).
  by rewrite Split_no by by apply has_byte_Itoa.
Qed.

Definition key_check (db : DB) : bool :=
  forallb (λ kr : Z * APIKeyRow, (kr.1 =? 1) ||
      negb (str_eqb (ak_KeyHash kr.2) (LookupHash example_box "pbk-616263")) &&
      negb (str_eqb (ak_Key kr.2) "pbk-616263")) (map_to_list (rows_of db ApiKeys)).

Lemma key_checked db :
  key_check db = true → identifies (Some example_box) "pbk-616263" 1 db.
Proof.
  unfold key_check. rewrite forallb_forall. intros Hall id row Hr%elem_of_map_to_list Hp.
  apply list_elem_of_In, Hall in Hr. cbn [fst snd] in Hr.
  destruct (Z.eqb_spec id 1) as [|_]; [done|]. exfalso. cbn [orb] in Hr.
  apply andb_true_iff in Hr as [Hh Hk]. destruct Hp as [(b & [= <-] & Hb)|[_ Hb]].
  - by rewrite (proj2 (str_eqb_eq _ _) Hb) in Hh.
  - by rewrite (proj2 (str_eqb_eq _ _) Hb) in Hk.
Qed.

Lemma nothing_migrated db server : rows_of db VmBackupConfigs = ∅ → migrated server db.
Proof. intros Hnone k r Hr. by rewrite Hnone in Hr. Qed.

Lemma reported_good : good ApiExamples.secrets "pbk-616263" 1 1 "pve1" (a_db reported).
Proof.
  split; [apply wf_reported|]. split; [apply key_checked; vm_compute; reflexivity|]. split.
  - eexists. split; [vm_compute; reflexivity|]. by split.
  - apply nothing_migrated. vm_compute. reflexivity.
Qed.

Lemma guests_distinct : NoDup (dv_VMID <$> guests).
Proof. apply (bool_decide_unpack _). vm_compute. exact I. Qed.
Lemma guests_accepted : Forall accepted (dv_VMID <$> guests).
Proof. repeat constructor. Qed.
End SyncExamples.

(** the schedule that an installation of an older release left without a server is
    read through the name, but never changed: a sync that overwrites reports it as
    updated, and the server keeps the old days. *)
Theorem legacy_update_lost :
  (run SyncExamples.sync SyncExamples.with_legacy).1 = Ok (Build_SyncResult 0 1 0 None) ∧
  SyncExamples.expected SyncExamples.with_legacy =
    [[false; false; false; false; false; false; true]] ∧
  SyncExamples.expected (run SyncExamples.sync SyncExamples.with_legacy).2 =
    SyncExamples.expected SyncExamples.with_legacy ∧
  SyncExamples.expected (run SyncExamples.sync reported).2 =
    [[false; false; false; false; false; true; false]].
Proof. split_and!; vm_compute; reflexivity. Qed.

(** ** A node and the server *)

Section served.
Context `{!Crypto, !SqlOrder, !MapRange, !ReadStore}.
Context (secrets : option Box) (rs : ReportService) (nonce : Time → result string).
Context (router : HttpRequest → option Request) (bad_url : string → option error).
Context (cfg : Config) (kid sid : Z) (server machineID : string).

Local Notation Do := (Do_schedules secrets rs nonce router).
Local Notation raw := (ExtractBearer ("Bearer " +:+ cfg_APIKey cfg)).

(** The node has the key [kid], of which [server] is the server [sid]; the URLs lead to the
    handlers; and nothing is left of the time when schedules had no server. *)
Record connected (sv : Service) : Prop := {
  cn_key : 0 < kid;
  cn_server : 0 < sid;
  cn_name : TrimSpace server = server ∧ server ≠ "";
  cn_routes : routed server router (base_url cfg server) (cfg_APIKey cfg) machineID;
  cn_good : good secrets raw kid sid server (a_db (sv_api sv))
}.

Lemma always_served vms schedules overwrite sv :
  connected sv → NoDup (dv_VMID <$> vms) → Forall accepted (dv_VMID <$> vms) →
  let before := schedules_of sid server (a_db (sv_api sv)) in
  always (syncBackupConfigWithOverwrite Do bad_url cfg server machineID vms overwrite schedules)
    (λ r sv', connected sv' ∧ ∃ res done rest, r = Ok res ∧ vms = done ++ rest ∧
      schedules_of sid server (a_db (sv_api sv')) =
        synced before overwrite (default ∅ schedules) before done ∧
      (sync_err res = None → rest = [] ∧
        created res = planned before overwrite (default ∅ schedules) Create vms ∧
        updated res = planned before overwrite (default ∅ schedules) Update vms ∧
        skipped res = planned before overwrite (default ∅ schedules) Skip vms)) sv.
Proof.
  intros [Hk Hs Hn Hr Hg] Hnd Hacc before.
  set (handlers := schedule_handlers secrets raw kid sid server Hs Hn Hk rs nonce router
    (base_url cfg server) (cfg_APIKey cfg) machineID Hr eq_refl).
  eapply always_mono; [by apply (always_syncBackupConfig (HS:=handlers) Do bad_url cfg server
    machineID vms schedules overwrite sv)|].
  intros r sv' [Hg' Hres]. by split.
Qed.

(** C34: however requests, answers and statements of the database fail, a sync of a node
    changes the schedules that the server has for its guests in their order, by the plan
    of what the server had before, up to some guest; when it reports success it has done
    so for all of them, and its counts are those of the plan.  The server must have no
    schedule of the node from the time when these had no server number. *)
Theorem served_sync_follows_plan (vms : list discoveredVM)
    (schedules : option (gmap string pveBackupSchedule)) (overwrite : bool) (sv : Service) :
  connected sv → NoDup (dv_VMID <$> vms) → Forall accepted (dv_VMID <$> vms) →
  let before := schedules_of sid server (a_db (sv_api sv)) in
  always (syncBackupConfigWithOverwrite Do bad_url cfg server machineID vms overwrite schedules)
    (λ r sv', connected sv' ∧ ∃ res done rest, r = Ok res ∧ vms = done ++ rest ∧
      schedules_of sid server (a_db (sv_api sv')) =
        synced before overwrite (default ∅ schedules) before done ∧
      (sync_err res = None → rest = [] ∧
        created res = planned before overwrite (default ∅ schedules) Create vms ∧
        updated res = planned before overwrite (default ∅ schedules) Update vms ∧
        skipped res = planned before overwrite (default ∅ schedules) Skip vms)) sv.
Proof. apply always_served. Qed.

(** C35: after a sync that overwrites and reports success, the server has exactly the
    schedule that the client found for every guest of the node, working days where it
    found none, and the schedules of other guests as they were; under the same
    condition on old schedules. *)
Theorem served_overwrite_exact (vms : list discoveredVM)
    (schedules : option (gmap string pveBackupSchedule)) (sv : Service) :
  connected sv → NoDup (dv_VMID <$> vms) → Forall accepted (dv_VMID <$> vms) →
  let has sv := schedules_of sid server (a_db (sv_api sv)) in
  always (syncBackupConfigWithOverwrite Do bad_url cfg server machineID vms true schedules)
    (λ r sv', ∀ res, r = Ok res → sync_err res = None →
      (∀ vm, vm ∈ vms → has sv' !! dv_VMID vm =
         Some (wanted vm (days_for (default ∅ schedules) vm))) ∧
      (∀ id, id ∉ dv_VMID <$> vms → has sv' !! id = has sv !! id)) sv.
Proof.
  intros Hc Hnd Hacc has. eapply always_mono; [by apply always_served|].
  intros r sv' (_ & res & done & rest & -> & Hv & Hs & Hcount) ? [= <-] He.
  destruct (Hcount He) as (-> & _). rewrite app_nil_r in Hv. subst done. unfold has. rewrite Hs.
  by apply synced_overwritten.
Qed.
End served.

#[local] Existing Instance ApiExamples.store.

Lemma reachable_connected :
  connected ApiExamples.secrets SyncExamples.router MemoryServer.cfg 1 1 "pve1" "m1"
    SyncExamples.reachable.
Proof.
  split; [done|done|by split|apply SyncExamples.router_routes|apply SyncExamples.reported_good].
Qed.

(** Guest 100 is given Saturdays, and guest 101 working days. *)
Lemma served_sync_follows_plan_witness :
  (run SyncExamples.sync_guests SyncExamples.reachable).1 = Ok (Build_SyncResult 2 0 0 None) ∧
  ∃ done rest, SyncExamples.guests = done ++ rest ∧ rest = [] ∧
    schedules_of 1 "pve1" (a_db (sv_api (run SyncExamples.sync_guests SyncExamples.reachable).2)) =
    synced ∅ true SyncExamples.saturdays ∅ done.
Proof.
  assert ((run SyncExamples.sync_guests SyncExamples.reachable).1 = Ok (Build_SyncResult 2 0 0 None))
    as Hrun by (vm_compute; reflexivity).
  split; [exact Hrun|].
  destruct (always_run _ _ _ (served_sync_follows_plan ApiExamples.secrets ApiExamples.service
    SyncExamples.nonce SyncExamples.router (λ _, None) MemoryServer.cfg 1 1 "pve1" "m1"
    SyncExamples.guests (Some SyncExamples.saturdays) true SyncExamples.reachable
    reachable_connected SyncExamples.guests_distinct SyncExamples.guests_accepted))
    as (_ & res & done & rest & Hres & Hv & Hs & Hc).
  pose proof (eq_trans (eq_sym Hrun) Hres) as [= <-].
  exists done, rest. split; [exact Hv|]. split; [by apply Hc|]. exact Hs.
Defined.

Lemma served_overwrite_exact_witness :
  schedules_of 1 "pve1" (a_db (sv_api (run SyncExamples.sync_guests SyncExamples.reachable).2)) !! "101" =
  Some (wanted {| dv_VMID := "101"; dv_Name := "mail" |} workdays).
Proof.
  assert ((run SyncExamples.sync_guests SyncExamples.reachable).1 = Ok (Build_SyncResult 2 0 0 None))
    as Hrun by (vm_compute; reflexivity).
  destruct (always_run _ _ _ (served_overwrite_exact ApiExamples.secrets ApiExamples.service
    SyncExamples.nonce SyncExamples.router (λ _, None) MemoryServer.cfg 1 1 "pve1" "m1"
    SyncExamples.guests (Some SyncExamples.saturdays) SyncExamples.reachable
    reachable_connected SyncExamples.guests_distinct SyncExamples.guests_accepted) _ Hrun eq_refl)
    as [Hv _].
  exact (Hv {| dv_VMID := "101"; dv_Name := "mail" |} ltac:(right; left)).
Defined.
