(* ===== verification/Fleet.v ===== *)
(** * From a stored report to its alerts and their email

    The alert evaluation reads a [ReadStore]; [fleet_store] is the one that the
    database of [Schema] and the tables of [AlertState] answer.  With it the parts of
    the library compose: what a client reports is what the next run evaluates, and a
    failed backup that it reports reaches the administrators. *)
From S2P Require Import Prelude GoStrings GoNum GoTime Domain StoreReads Staleness AlertEngine Sql AlertState Channels Notify Validation Relational Schema Servers Reports PveReports PbsReports WindowsReports Batches Settings.

(** ** The store *)

(** The table [email_config] is not part of the database of [Schema]: [email] is what
    it answers.  [now] is the time the reads compare with. *)
Definition fleet_store `{!MapRange, !SqlOrder} (email : result EmailConfig) (db : DB)
    (t : Tables) (now : Time) : ReadStore := {|
  StoreReads.GetEmailConfig := email;
  StoreReads.GetPVEAlertConfig := λ id, Ok (Settings.GetPVEAlertConfig id db);
  StoreReads.ListPVEAlertConfigs := Ok (Settings.ListPVEAlertConfigs db);
  StoreReads.ListPVEVMAlertConfigs := Ok (Settings.ListPVEVMAlertConfigs db);
  StoreReads.ListPBSAlertConfigs := Ok (Settings.ListPBSAlertConfigs db);
  StoreReads.ListWindowsAlertConfigs := Ok (Settings.ListWindowsAlertConfigs db);
  StoreReads.ListVMBackupConfigs := λ name, Ok (Settings.ListVMBackupConfigs name db);
  StoreReads.ListVMBackupConfigsForServer := λ ty id, Ok (Settings.ListVMBackupConfigsForServer ty id db);
  StoreReads.ListPVEVMBackupConfigsByServer := Ok (Settings.ListPVEVMBackupConfigsByServer db);
  StoreReads.ListServerHeartbeatsByType := λ ty, Ok (Settings.ListServerHeartbeatsByType ty db);
  StoreReads.GetActiveServerMaintenances := (run (GetActiveServerMaintenances_prog now) t).1;
  StoreReads.GetActiveSuppressions := (run (GetActiveSuppressions_prog now) t).1;
  StoreReads.ListPresentAlerts := (run ListPresentAlerts_prog t).1;
  StoreReads.GetPVEServerByName := λ name, Servers.GetPVEServerByName name db;
  StoreReads.GetPVEServer := λ id, Servers.GetPVEServer id db;
  StoreReads.ListPVEServers := Servers.ListPVEServers db;
  StoreReads.GetLatestPVEReport := λ id, PveReports.GetLatestPVEReport id db;
  StoreReads.GetLatestPVEReports := Ok (PveReports.GetLatestPVEReports db);
  StoreReads.GetPVEBackupTasksForReports := λ ids, Ok (PveReports.GetPVEBackupTasksForReports ids db);
  StoreReads.GetPVEStoragesForReports := λ ids, Ok (PveReports.GetPVEStoragesForReports ids db);
  StoreReads.GetPVEStorageInfoForStorages := λ ids, Ok (PveReports.GetPVEStorageInfoForStorages ids db);
  StoreReads.ListPBSServers := Servers.ListPBSServers db;
  StoreReads.GetLatestPBSReport := λ id, PbsReports.GetLatestPBSReport id db;
  StoreReads.GetLatestPBSReports := Ok (PbsReports.GetLatestPBSReports db);
  StoreReads.GetPBSStoresForReports := λ ids, Ok (PbsReports.GetPBSStoresForReports ids db);
  StoreReads.GetPBSTasksForReports := λ ids, Ok (PbsReports.GetPBSTasksForReports ids db);
  StoreReads.GetPBSSnapshotsForStores := λ ids, Ok (PbsReports.GetPBSSnapshotsForStores ids db);
  StoreReads.ListWindowsServers := Servers.ListWindowsServers db;
  StoreReads.GetRecentWindowsReportsByServer := λ ids n, Ok (WindowsReports.GetRecentWindowsReportsByServer ids n db);
  StoreReads.GetWindowsDisksForReports := λ ids, Ok (WindowsReports.GetWindowsDisksForReports ids db)
|}.

(** ** What a snapshot holds *)

Lemma loadAlertData_Ok `{!MapRange, !ReadStore} data :
  loadAlertData = Ok data →
  StoreReads.ListPVEServers = Ok (PVEServers data) ∧
  StoreReads.GetLatestPVEReports = Ok (PVEReports data) ∧
  StoreReads.GetPVEBackupTasksForReports ((λ kv, pver_ID kv.2) <$> range (PVEReports data)) =
    Ok (PVETasks data).
Proof.
  unfold loadAlertData. intros Hl.
  repeat match type of Hl with
  | (_ ≫= _) = Ok _ => apply result_bind_Ok in Hl as (? & ? & Hl)
  end.
  injection Hl as <-. cbn. by split_and!.
Qed.

Lemma LoadAlertConfigs_Ok `{!MapRange, !ReadStore} cfg :
  LoadAlertConfigs = Ok cfg → ∃ data, loadAlertData = Ok data ∧ Data cfg = Some data.
Proof.
  unfold LoadAlertConfigs. intros Hl.
  apply result_bind_Ok in Hl as (e & _ & Hl). apply result_bind_Ok in Hl as (data & Hd & Hl).
  repeat match type of Hl with
  | (_ ≫= _) = Ok _ => apply result_bind_Ok in Hl as (? & ? & Hl)
  end.
  exists data. by injection Hl as <-.
Qed.

(** The alerts of a loaded run are those of its evaluators. *)
Lemma elem_of_RunAll_backup_error `{!MapRange, !ReadStore} now loc cfg data a sv :
  Data cfg = Some data → sv ∈ PVEServers data → a ∈ pve_backup_errors_one now cfg data sv →
  a ∈ (RunAll now loc cfg).1.
Proof.
  intros Hd Hsv Ha. unfold RunAll, ensureAlertData. rewrite Hd, run_all_alerts.
  apply list_elem_of_In, in_concat.
  exists (flat_map (pve_backup_errors_one now cfg data) (PVEServers data)).
  split; [by right; left|]. apply in_flat_map. exists sv.
  split; by apply list_elem_of_In.
Qed.

(** ** The report that was saved last is the one that is evaluated *)

Lemma elem_of_pve_reports db s :
  s ∈ pve_reports db ↔ ∃ i r, rows_of db (Reports PVE) !! i = Some r ∧ s = stored_pve db r.
Proof.
  unfold pve_reports. rewrite list_elem_of_fmap. split.
  - intros (r & -> & [i Hr]%(elem_of_in_order (Reports PVE))). by exists i, r.
  - intros (i & r & Hr & ->). exists r. split; [done|]. apply (elem_of_in_order (Reports PVE)). by exists i.
Qed.

(** The newest report of a server, with its tasks. *)
Lemma saved_report_latest `{!SqlOrder} db' R x l :
  wf db' → pve_reports db' = l ++ [x] → pver_ID (rr_Report (spv_Report x)) = R →
  let report := rr_Report (spv_Report x) in
  (∀ s, s ∈ l → pver_ServerID (rr_Report (spv_Report s)) = pver_ServerID report →
     pver_ReportedAt (rr_Report (spv_Report s)) ≤ pver_ReportedAt report) →
  (∀ s, s ∈ l → pver_ID (rr_Report (spv_Report s)) ≤ R) →
  PveReports.GetLatestPVEReports db' !! pver_ServerID report = Some report.
Proof.
  intros Hwf Hl HR report Hnew Hids.
  assert (x ∈ pve_reports db') as (i & r & Hi & Hx)%elem_of_pve_reports
    by (rewrite Hl; set_solver).
  assert (∀ j r', rows_of db' (Reports PVE) !! j = Some r' →
    r' = r ∨ stored_pve db' r' ∈ l) as Hrows.
  { intros j r' Hr'. assert (stored_pve db' r' ∈ pve_reports db') as Hin
      by (apply elem_of_pve_reports; eauto).
    rewrite Hl in Hin. apply elem_of_app in Hin as [Hin|Hin%list_elem_of_singleton]; [by right|].
    left. rewrite Hx in Hin. by injection Hin. }
  apply (latest_reports_iff PVE); [done|]. subst x. split.
  - split; [done|]. split; [by exists i, r|]. intros j r' [->|Hr']%Hrows Hs; [done|].
    by apply (Hnew _ Hr').
  - intros j r' [->|Hr']%Hrows Hs _; [done|]. etransitivity; [by apply (Hids _ Hr')|].
    by rewrite <-HR.
Qed.

(** The tasks of one report in the answer for many. *)
Lemma saved_tasks `{!SqlOrder} ids R bt db :
  in_ids ids R = true → bt ∈ tasks_view R db →
  ∃ t, t ∈ get (PveReports.GetPVEBackupTasksForReports ids db) R ∧ task_payload t = bt.
Proof.
  intros Hin (t & -> & [Hi Ht]%elem_of_filter_bool)%list_elem_of_fmap.
  apply (elem_of_in_order PveBackupTasks) in Hi as [k Hi]. exists t. split; [|done].
  unfold PveReports.GetPVEBackupTasksForReports, get. rewrite (is_nil_in_ids ids R Hin).
  rewrite (batch_perm PveBackupTasks task_ReportID _ by_vmid) by done.
  by apply (select_in PveBackupTasks _ _ _ k).
Qed.

Section fleet.
Context `{!MapRange, !SqlOrder}.
Context (email : result EmailConfig) (tables : Tables) (loc : Location).

(** The alerts of the evaluation at [now] on the database [db]. *)
Definition evaluated (now : Time) (db : DB) (cfg : AlertConfigs) : list Alert :=
  (RunAll (H0 := fleet_store email db tables now) now loc cfg).1.

(** The configuration that a run at [now] loads from [db]. *)
Definition loaded (now : Time) (db : DB) (cfg : AlertConfigs) (data : AlertData) : Prop :=
  LoadAlertConfigs (H0 := fleet_store email db tables now) = Ok cfg ∧ Data cfg = Some data.

(** The alerts for failed backups of the server are on, for the VM too. *)
Definition watched (cfg : AlertConfigs) (data : AlertData) (serverID vmid : Z) : Prop :=
  all_inactive (get (PVEBackupConfigs data) serverID) = false ∧
  pveVMBackupExcluded (get (PVEBackupConfigs data) serverID) vmid = false ∧
  resolveBackupErr (get (PVEConfigs cfg) serverID)
    (findVMConfig (get (PVEVMConfigs cfg) serverID) vmid) (GlobalBackupErr cfg) = true.

Lemma stored_failure_alerted now now' serverID req R l db bt cfg data sv :
  wf db → pve_reports db = l ++ [stored_of now serverID req R] →
  (∀ s, s ∈ l → pver_ServerID (rr_Report (spv_Report s)) = serverID →
     pver_ReportedAt (rr_Report (spv_Report s)) ≤ sqliteUTC now) →
  (∀ s, s ∈ l → pver_ID (rr_Report (spv_Report s)) ≤ R) →
  bt ∈ pvq_BackupTasks req → pveBackupStatusAlertable (btp_Status bt) = true →
  loaded now' db cfg data → sv ∈ PVEServers data → pves_ID sv = serverID →
  watched cfg data serverID (btp_VMID bt) →
  ∃ t, task_payload t = bt ∧ vm_failed_alert now' sv t ∈ evaluated now' db cfg.
Proof.
  intros Hwf Hl Hnew Hids Hbt Hst [Hload Hdata] Hsv Hid (Hact & Hex & Hon).
  destruct (LoadAlertConfigs_Ok (H0 := fleet_store email db tables now') cfg Hload)
    as (data' & Hld & Hd). rewrite Hdata in Hd. injection Hd as <-.
  apply loadAlertData_Ok in Hld as (_ & [= Hrep] & [= Htasks]). cbn in Hrep, Htasks.
  pose proof (saved_report_latest db R _ l Hwf Hl eq_refl Hnew Hids) as Hlast.
  set (rep := rr_Report (spv_Report (stored_of now serverID req R))) in *.
  change (pver_ServerID rep) with serverID in Hlast. rewrite Hrep in Hlast.
  assert (stored_of now serverID req R ∈ pve_reports db) as (i & r & Hi & Hx)%elem_of_pve_reports
    by (rewrite Hl; set_solver).
  assert (bt ∈ tasks_view R db) as Hview.
  { assert (tasks_view R db = pvq_BackupTasks req) as ->; [|done].
    assert (pver_ID (rr_Report r) = R) as <- by (apply (f_equal (λ s, pver_ID (rr_Report (spv_Report s)))) in Hx; done).
    by apply (f_equal spv_Tasks) in Hx. }
  destruct (saved_tasks ((λ kv, pver_ID kv.2) <$> range (PVEReports data)) R bt db)
    as (t & Ht & Hpay); [|done|].
  { apply in_ids_spec, list_elem_of_fmap. exists (serverID, rep). split; [done|].
    by apply elem_of_range. }
  rewrite Htasks in Ht. exists t. split; [done|].
  apply (elem_of_RunAll_backup_error (H0 := fleet_store email db tables now') _ _ _ _ _ _ Hdata Hsv).
  apply elem_of_pve_backup_errors_one. exists rep. rewrite Hid. split; [done|]. split; [done|].
  right. exists t. split; [done|]. split; [|done]. subst bt. unfold vm_failed. by rewrite Hid.
Qed.

(** C15: a PVE report that was saved, and no older than the others of its server, is the
    one the next evaluations judge: every failed backup in it raises its critical alert,
    for a server and VM whose alerts are on, whatever else the fleet reports. *)
Theorem reported_failure_raises_alert (now now' : Time) (serverID : Z)
    (req : PVEReportRequest) (bt : BackupTaskPayload) (db : DB) :
  wf db → present db (Servers PVE) serverID = true →
  token_stored serverID (pvq_ReportID req) (pve_reports db) = false →
  (∀ s, s ∈ pve_reports db → pver_ServerID (rr_Report (spv_Report s)) = serverID →
     pver_ReportedAt (rr_Report (spv_Report s)) ≤ sqliteUTC now) →
  bt ∈ pvq_BackupTasks req → pveBackupStatusAlertable (btp_Status bt) = true →
  always (InsertPVEReportData now serverID req) (λ r db', r = Ok () →
    ∀ cfg data sv, loaded now' db' cfg data → sv ∈ PVEServers data → pves_ID sv = serverID →
    watched cfg data serverID (btp_VMID bt) →
    ∃ a, a ∈ evaluated now' db' cfg ∧ al_Type a = AlertTypeBackupError ∧
      al_Severity a = AlertSeverityCritical ∧ al_ServerID a = serverID ∧
      al_ID a = "backup_error:pve:" +:+ Itoa serverID +:+ ":" +:+ Itoa (btp_VMID bt)) db.
Proof.
  intros Hwf Hsrv Htok Hnew Hbt Hst.
  destruct (InsertPVEReportData_step now serverID req db Hwf Hsrv) as [_ Hstep].
  eapply always_mono; [exact Hstep|]. intros r db' (Hwf' & _ & Hr) -> cfg data sv Hload Hsv Hid Hw.
  unfold spec_insert in Hr. rewrite Htok in Hr.
  destruct (stored_failure_alerted now now' serverID req (next_id db (Reports PVE))
    (pve_reports db) db' bt cfg data sv) as (t & Hpay & Ha); try done.
  { intros s (j & q & Hj & ->)%elem_of_pve_reports.
    apply (wf_ids _ Hwf (Reports PVE)) in Hj as [<- Hle]. unfold next_id. simpl in *. lia. }
  eexists. split; [exact Ha|]. rewrite <-Hid, <-Hpay. by destruct t.
Qed.
End fleet.

(** ** Example *)

Module FleetExamples.
(** A server with one key reports that the backup of VM 101 failed. *)
Definition failed : BackupTaskPayload :=
  {| btp_VMID := 101; btp_VMName := "web"; btp_Status := "ERROR: disk full"; btp_StartTime := 1;
     btp_EndTime := 2; btp_Duration := 1; btp_Size := 0; btp_Filename := "" |}.

Definition report : PVEReportRequest :=
  {| pvq_ReportID := "z"; pvq_Hostname := "pve1"; pvq_IPAddress := "10.0.0.1";
     pvq_PublicIP := ""; pvq_ClientVersion := "1.0"; pvq_MachineID := "m1";
     pvq_SwapTotal := 0; pvq_SwapUsed := 0; pvq_SwapEnabled := false;
     pvq_LastBackupStatus := None; pvq_Storages := []; pvq_BackupTasks := [failed] |}.

Definition saved : DB :=
  (run (InsertPVEReportData (30 * Second) 1 report) PveExamples.db1).2.

Definition no_alerts : Tables := Build_Tables ∅ [] 0 ∅ [] ∅ ∅ None.

Definition cfg : option AlertConfigs :=
  match LoadAlertConfigs (H0 := fleet_store (Ok defaultEmailConfig) saved no_alerts (40 * Second)) with
  | Ok c => Some c
  | Err _ => None
  end.
Definition data : option AlertData := c ← cfg; Data c.
Definition sv : option PVEServer := d ← data; head (PVEServers d).
End FleetExamples.

Lemma reported_failure_raises_alert_witness :
  ∃ cfg a, FleetExamples.cfg = Some cfg ∧
    a ∈ evaluated (Ok defaultEmailConfig) FleetExamples.no_alerts UTC (40 * Second)
      FleetExamples.saved cfg ∧ al_ID a = "backup_error:pve:1:101".
Proof.
  destruct FleetExamples.cfg as [c|] eqn:Hc; [|vm_compute in Hc; discriminate Hc].
  destruct FleetExamples.data as [d|] eqn:Hd; [|vm_compute in Hd; discriminate Hd].
  destruct FleetExamples.sv as [v|] eqn:Hv; [|vm_compute in Hv; discriminate Hv].
  assert (pves_ID v = 1) as Hid by (vm_compute in Hv; by injection Hv as <-).
  assert (watched c d 1 101) as Hw.
  { clear Hv Hid v. vm_compute in Hc, Hd. injection Hc as <-. injection Hd as <-. by vm_compute. }
  assert (present PveExamples.db1 (Servers PVE) 1 = true) as Hp by (vm_compute; reflexivity).
  assert (token_stored 1 (pvq_ReportID FleetExamples.report) (pve_reports PveExamples.db1) = false)
    as Ht by (vm_compute; reflexivity).
  assert (∀ s, s ∈ pve_reports PveExamples.db1 →
    pver_ReportedAt (rr_Report (spv_Report s)) ≤ sqliteUTC (30 * Second)) as Hn.
  { assert (forallb (λ s, pver_ReportedAt (rr_Report (spv_Report s)) <=? sqliteUTC (30 * Second))
      (pve_reports PveExamples.db1) = true) as Hall by (vm_compute; reflexivity).
    rewrite forallb_forall in Hall. intros s Hs%list_elem_of_In%Hall. by apply Z.leb_le. }
  assert ((run (InsertPVEReportData (30 * Second) 1 FleetExamples.report) PveExamples.db1).1 = Ok ())
    as Hok by (vm_compute; reflexivity).
  assert (loaded (Ok defaultEmailConfig) FleetExamples.no_alerts (40 * Second)
    FleetExamples.saved c d) as Hl.
  { split.
    - revert Hc. unfold FleetExamples.cfg. destruct LoadAlertConfigs as [c'|]; [|done].
      by intros [= ->].
    - revert Hd. unfold FleetExamples.data. by rewrite Hc. }
  assert (v ∈ PVEServers d) as Hin.
  { revert Hv. unfold FleetExamples.sv. rewrite Hd. cbn. destruct (PVEServers d); [done|].
    intros [= ->]. left. }
  pose proof (always_run _ _ _ (reported_failure_raises_alert (Ok defaultEmailConfig)
    FleetExamples.no_alerts UTC (30 * Second) (40 * Second) 1 FleetExamples.report
    FleetExamples.failed PveExamples.db1 PveExamples.wf_pve_db1 Hp Ht (λ s Hs _, Hn s Hs)
    ltac:(left) ltac:(vm_compute; reflexivity)) Hok c d v Hl Hin Hid Hw) as (a & Ha & _ & _ & _ & Hi).
  exists c, a. split; [done|]. split; [exact Ha|exact Hi].
Defined.
